(* ===== verification/_CoqProject ===== *)
-Q . S2P
Prelude.v
Address.v
PhysMem.v
Heap.v
FrameAllocator.v
PageTable.v
UserBuffer.v
MemorySet.v
UserSpace.v
KernelSpace.v
Drivers.v
Loader.v
Elf.v
ElfLoad.v
TaskId.v
FdTable.v
Trap.v
Asm.v
Pipe.v
Process.v
Switch.v
ProcessTree.v
Scheduler.v
UserMap.v
BlockCache.v
Fat.v
Dirent.v
FatFile.v
Vfs.v
VfsWrite.v
VfsCreate.v
Inode.v
Syscall.v
Boot.v
System.v
FileIO.v
Ecall.v
UserLib.v
Shell.v
Spin.v
Locks.v
KernelLocks.v
VirtQueue.v
VirtRefine.v
VirtDevice.v
VirtBlk.v
VirtTransport.v
VirtOwning.v
VirtConsole.v
