(* ===== verification/Prelude.v ===== *)
(** * bitos: a verification development

    bitos is a small operating system kernel for 64-bit RISC-V in Rust (os/),
    with a FAT32 file system as a crate of its own (fat32/) and user programs
    on a library of system calls (user/). This library models these three
    parts, and the vendored crates whose code the kernel depends on most, the
    buddy allocator, the ELF parser, the locks and lazy statics, and the VirtIO
    drivers (dependencies/), and proves what makes them correct. Paths in the
    files are relative to src/.

    ** How code is modelled

    Code that works on a state [S] is a function [ST S A] (below): it is done
    with a value and a new state, it panics ([assert!], [unwrap], an index out
    of range, an access outside of an object), or it runs out of the fuel of a
    loop. Integers are [Z] with the wrap-around of their width written out; the
    kernel is built in release mode, so arithmetic wraps. Memory is a map from
    page numbers to pages of words; page tables, trap contexts, the links of
    the heap and user data live in it. Objects behind [Arc]s are entries of a
    store, and a [Drop] is called where the code drops. The kernel runs on one
    hart with interrupts off, so the state is passed on without the cells and
    locks around it; KernelLocks shows that taking them never fails. A place
    where the kernel gives up the processor ends a step; the interleavings of
    tasks are sequences of steps.

    ** The files

    Memory (os/src/mm, os/src/loader.rs, os/src/drivers):
    - Address: addresses, page numbers, ranges (address.rs);
    - PhysMem: the words and bytes of physical pages;
    - Heap: the buddy allocator (dependencies/buddy_system_allocator-0.6.0) and
      heap_allocator.rs;
    - FrameAllocator: frame_allocator.rs, its trait as a type class with the laws
      that the clients use;
    - PageTable: page_table.rs, the tables and entries; UserBuffer: the access
      to user memory of the same file;
    - MemorySet: the operations of memory_set.rs; UserSpace: the theory of user
      address spaces (fork, heap areas, dropping); KernelSpace: the kernel's own
      address space and [mm::init];
    - Elf: dependencies/xmas-elf-0.9.1; ElfLoad: what [from_elf] builds;
    - Loader: the programs linked into the kernel (loader.rs); Drivers: what the
      kernel gives to the VirtIO driver (drivers/block/virtio_blk.rs).

    Processes (os/src/task, os/src/trap, os/src/sync):
    - TaskId: ids and kernel stacks (id.rs); FdTable: descriptor tables; Trap:
      trap contexts (trap/context.rs); Pipe: pipes (fs/pipe.rs);
    - Asm: a RISC-V machine with page tables, and on it the instructions of
      trap.S, switch.S and entry.asm, and [trap_return]; Switch: what [__switch]
      does to the contexts of tasks;
    - Process: the kernel state and all operations of task.rs, manager.rs,
      processor.rs, mod.rs; Boot: rust_main (main.rs), with the start of the
      driver and the opening of the volume by [list_apps] (fs/mod.rs);
    - ProcessTree: the abstract process machine, its invariant, and the
      refinement of the operations of Process to it; Scheduler: the stride
      scheduler; UserMap: the loops of mmap, munmap and brk;
    - Spin: the reader-writer lock, the mutex and the [Once] of the spin crates,
      for any number of threads; Locks: executions reduced to the guards they
      take, and a check for them; KernelLocks: the guards of the whole kernel
      and file system.

    Files (fat32/src, os/src/fs):
    - BlockCache: block_cache.rs; Fat: the table and the manager (layout.rs,
      fat.rs); Dirent: directory entries and names (layout.rs, fat.rs); FatFile:
      reading and writing along a chain (layout.rs);
    - Vfs: the operations of vfs.rs and path lookup; VfsWrite: writing;
      VfsCreate: creating and removing;
    - Inode: open files and the state of the whole system (fs/inode.rs, stdio.rs).

    The system (os/src/syscall, os/src/trap/mod.rs):
    - Syscall: every system call, the dispatcher and the trap handler;
    - System: the whole system refines the process machine;
    - FileIO: reading and writing files from user pointers to the disk;
    - Ecall: a call from the instruction of the program to the next one, with the
      machine of Asm and the handler of Syscall on the same memory.

    VirtIO (dependencies/virtio-drivers/src):
    - VirtQueue: the operations of queue.rs on descriptors and rings, and their
      effects; VirtRefine: the invariant, and the refinement to a set of requests;
    - VirtDevice: the device of the tests of queue.rs, and one request between
      the driver and it; VirtBlk: the block driver (device/blk.rs);
    - VirtTransport: the registers (transport/mmio.rs, transport/mod.rs), the
      memory of a queue (hal.rs, queue.rs), and the set-up of the block driver;
    - VirtOwning: the queue that owns its buffers (queue/owning.rs); VirtConsole:
      the receiving half of the console driver (device/console.rs).

    User programs (user/src):
    - UserLib: the wrappers, the library and the console buffer; Shell: the shell
      and the first process.

    ** What is shown

    - Processes. Whatever traps user programs cause, with whatever registers,
      the system acts on processes as the abstract machine does: no task is lost
      or queued twice, parents and children agree, ids are unique. In every state
      that is reached, waitpid reports, waits or reaps exactly as the children
      of the caller say, and its assertion holds. Tasks that keep yielding do not starve and share the
      processor in proportion to their priorities.
    - Memory. The page-table operations refine a finite map; translation of user
      buffers and strings is exact; fork gives the child copies in frames of its
      own; dropping a space returns exactly its frames; loading an executable
      puts every byte of its segments where its header says, with the right
      permissions; the kernel space maps exactly what it should. Blocks of the
      heap never overlap, and when all are given back the heap is as it was.
      From power-on the kernel reaches the first instruction of the first
      program: [rust_main] maps the kernel, starts the driver, opens and lists
      the volume, builds the space and the trap context of the program, and
      the instructions of [__restore] enter it.
    - Traps and switches. A trap saves every register of the user program and
      enters the handler in the kernel's space; the return restores what the
      context holds. A switch continues another task where it had stopped.
    - Locks. In every interleaving a writer of the reader-writer lock is alone,
      updates under the mutex are atomic, and a lazy static is initialised once.
      No operation of the kernel borrows a cell twice, waits for a lock that it
      holds itself, or gives the processor away while it holds one; the exit of
      the first process is the exception, and shown as such.
    - Files. The block caches are transparent; chains of clusters are allocated
      and freed without touching others; a file is a sequence of bytes under
      reading and writing; path lookup resolves names as the directory entries
      say; what is created is found and what is removed is gone. A user program
      that writes to a file and reads it again gets its bytes back. A program
      that executes [ecall] to read a file continues after it with the bytes in
      its buffer, their number in [a0] and its other registers as they were.
    - Pipes and the console. Pipes and the user's console buffer lose, duplicate
      and reorder nothing.
    - VirtIO. Against a device that may write anything to what it shares with
      the driver, a virtqueue is a set of requests with distinct tokens, and
      never panics. With a device that serves requests, the block driver is an
      array of blocks. Its set-up follows the sequence of the standard; a queue
      is refused exactly when it is in use, too large, or memory is missing, and
      otherwise its parts are aligned, in allocated memory, and apart. The
      queue that owns its buffers offers each to the device at its token, at
      the start and again after it was handled; the console receives the bytes
      in the order in which they were sent, and can always be sent more.
    - The interface. The wrappers of the library reach the kernel's calls with
      the arguments they were given, except those listed in
      [library_calls_astray]; the shell runs the line that was typed.

    A theorem that a loop returns is proved with the result: fuel appears only
    in definitions, and the theorems show that it is enough. Loops over the
    table have as much fuel as the table has entries ([fat_fuel]), loops over a
    directory as many as the volume has room for ([dir_fuel]); user buffers and
    strings take fuel as an argument and the theorems say how much suffices. The
    driver waits for a device that serves requests for two turns; a chain of
    descriptors is at most as long as the queue ([chain_fuel]). The blocking loops
    of the locks may run for ever; their theorems are about every state that
    can be reached.

    ** What is not modelled

    Firmware calls, the console's output device, logging, the clearing of .bss;
    the entry for traps from the kernel, which panics, and the enable bit of the
    timer; the revision of the VirtIO crate that the kernel is built with, which
    is fetched at build time: dependencies/virtio-drivers is another version of
    it, with another interface. So the block device of the file system, and its
    driver in [rust_main], stay parameters, and the theorems on VirtIO are about the copy in the repository;
    of this, the network, socket, graphics, sound and input drivers, PCI, and
    sending to the console are left out; the crate [zero] and
    [core::str::from_utf8] (parameters); memory orderings of atomic accesses;
    the locks of the crates that are not used, and the crates for flags and
    logging; the build script and the image tool, which run on the host, with
    their crates (clap, rand, fatfs); fat32/src/bitmap.rs, which no module
    declares, and the functions that format
    a volume, which nothing calls. *)

From stdpp Require Export functions base tactics list gmap numbers option sorting.

Open Scope Z_scope.

(** ** Outcomes and the state monad

    Kernel code either finishes, panics (a failed [assert!], [unwrap] of
    [None], an out-of-range index: the kernel stops) or is still running
    when the fuel given to a [loop] is used up. *)

Inductive outcome (A : Type) : Type :=
| Done (a : A)
| Panic
| NoFuel.
Arguments Done {A} a.
Arguments Panic {A}.
Arguments NoFuel {A}.

(** Code that works on a state [S] and returns an [A]. *)
Definition ST (S A : Type) : Type := S → outcome (A * S).

#[global] Instance st_ret S : MRet (ST S) := λ A a s, Done (a, s).
#[global] Instance st_bind S : MBind (ST S) := λ A B k m s,
  match m s with
  | Done (a, s1) => k a s1
  | Panic => Panic
  | NoFuel => NoFuel
  end.

Section st_ops.
Context {S : Type}.

(** [panic!(..)], or a failed bounds check. *)
Definition panic {A} : ST S A := λ _, Panic.

(** [assert!(b)]. *)
Definition rassert (b : bool) : ST S unit := if b then mret tt else panic.

(** [o.unwrap()]. *)
Definition unwrap {A} (o : option A) : ST S A :=
  match o with Some a => mret a | None => panic end.

Definition st_get : ST S S := λ s, Done (s, s).
Definition st_put (s : S) : ST S unit := λ _, Done (tt, s).
Definition st_gets {A} (f : S → A) : ST S A := λ s, Done (f s, s).
Definition st_modify (f : S → S) : ST S unit := λ s, Done (tt, f s).

(** [for x in l { body(x) }]. *)
Fixpoint for_each {A} (l : list A) (body : A → ST S unit) : ST S unit :=
  match l with
  | [] => mret tt
  | x :: l => body x ;; for_each l body
  end.

(** [for x in l { acc = body(acc, x) }]: a loop that updates locals. *)
Fixpoint for_fold {A B} (l : list A) (acc : B) (body : B → A → ST S B) : ST S B :=
  match l with
  | [] => mret acc
  | x :: l => acc' ← body acc x; for_fold l acc' body
  end.

(** A [for] loop whose body may [return] (or [break]) with a value:
    [inr] leaves the loop, [inl] goes on with the new locals. *)
Fixpoint for_brk {A B R} (l : list A) (acc : B) (body : B → A → ST S (B + R)) :
    ST S (B + R) :=
  match l with
  | [] => mret (inl acc)
  | x :: l =>
      r ← body acc x;
      match r with
      | inl acc' => for_brk l acc' body
      | inr out => mret (inr out)
      end
  end.

(** [loop { .. }]: [inl] goes round again with the new locals, [inr] leaves
    the loop; [fuel] bounds the number of turns. *)
Fixpoint loop {B R} (fuel : nat) (body : B → ST S (B + R)) (acc : B) : ST S R :=
  match fuel with
  | O => λ _, NoFuel
  | Datatypes.S fuel =>
      r ← body acc;
      match r with
      | inl acc' => loop fuel body acc'
      | inr out => mret out
      end
  end.

End st_ops.

(** Run code of a component on the part of a larger state that belongs to it. *)
Definition zoom {S T A} (proj : S → T) (inj : T → S → S) (m : ST T A) : ST S A :=
  λ s, match m (proj s) with
       | Done (a, t) => Done (a, inj t s)
       | Panic => Panic
       | NoFuel => NoFuel
       end.

Lemma zoom_Done {S T A} (proj : S → T) (inj : T → S → S) (m : ST T A) s a s' :
  zoom proj inj m s = Done (a, s') ↔ ∃ t, m (proj s) = Done (a, t) ∧ s' = inj t s.
Proof. unfold zoom. destruct (m (proj s)) as [[? ?]| |]; naive_solver. Qed.

Section st_lemmas.
Context {S : Type}.

Lemma bind_Done {A B} (m : ST S A) (k : A → ST S B) s b s' :
  (m ≫= k) s = Done (b, s') ↔
  ∃ a s1, m s = Done (a, s1) ∧ k a s1 = Done (b, s').
Proof.
  unfold mbind, st_bind. split.
  - destruct (m s) as [[a s1]| |] eqn:E; intros H; simplify_eq; eauto.
  - by intros (a & s1 & -> & ?).
Qed.

Lemma bind_step {A B} (m : ST S A) (k : A → ST S B) s a s1 :
  m s = Done (a, s1) → (m ≫= k) s = k a s1.
Proof. intros E. unfold mbind, st_bind. by rewrite E. Qed.

Lemma bind_Panic {A B} (m : ST S A) (k : A → ST S B) s :
  m s = Panic → (m ≫= k) s = Panic.
Proof. intros E. unfold mbind, st_bind. by rewrite E. Qed.

Lemma ret_Done {A} (a b : A) (s s' : S) :
  (mret a : ST S A) s = Done (b, s') ↔ b = a ∧ s' = s.
Proof. unfold mret, st_ret. naive_solver. Qed.

Lemma rassert_Done b (s s' : S) u :
  rassert b s = Done (u, s') ↔ b = true ∧ s' = s.
Proof. destruct b, u; unfold rassert, panic, mret, st_ret; naive_solver. Qed.

Lemma unwrap_Done {A} (o : option A) (s s' : S) a :
  unwrap o s = Done (a, s') ↔ o = Some a ∧ s' = s.
Proof. destruct o; unfold unwrap, panic, mret, st_ret; naive_solver. Qed.

Lemma for_each_app {A} (l1 l2 : list A) (body : A → ST S unit) s s1 u :
  for_each l1 body s = Done (u, s1) →
  for_each (l1 ++ l2) body s = for_each l2 body s1.
Proof.
  revert s. induction l1 as [|x l1 IH]; intros s; simpl.
  - by intros [_ ->]%ret_Done.
  - intros ([] & s2 & E1 & E2)%bind_Done. rewrite (bind_step _ _ _ _ _ E1). eauto.
Qed.

(** The rule of a [for] loop: an invariant indexed by what is left. *)
Lemma for_each_inv {A} (Inv : list A → S → Prop) (body : A → ST S unit) l s :
  (∀ x l' s, Inv (x :: l') s → ∃ s', body x s = Done (tt, s') ∧ Inv l' s') →
  Inv l s → ∃ s', for_each l body s = Done (tt, s') ∧ Inv [] s'.
Proof.
  intros Hstep. revert s. induction l as [|x l IH]; intros s HI; simpl; [by eauto|].
  destruct (Hstep _ _ _ HI) as (s1 & E1 & HI1).
  rewrite (bind_step _ _ _ _ _ E1). eauto.
Qed.

(** More fuel does not change a result. *)
Lemma loop_mono {B R} (body : B → ST S (B + R)) n m acc s r :
  loop n body acc s = Done r → (n ≤ m)%nat → loop m body acc s = Done r.
Proof.
  revert m acc s. induction n as [|n IH]; intros m acc s E Hle; [done|].
  destruct m as [|m]; [lia|]. simpl in *. revert E. unfold mbind, st_bind.
  destruct (body acc s) as [[[acc'|out] s1]| |]; auto. intros. apply IH; [done|lia].
Qed.

Lemma loop_again {B R} (body : B → ST S (B + R)) n acc acc' s s1 :
  body acc s = Done (inl acc', s1) →
  loop (Datatypes.S n) body acc s = loop n body acc' s1.
Proof. intros E. simpl. by rewrite (bind_step _ _ _ _ _ E). Qed.

Lemma loop_exit {B R} (body : B → ST S (B + R)) n acc out s s1 :
  body acc s = Done (inr out, s1) →
  loop (Datatypes.S n) body acc s = Done (out, s1).
Proof. intros E. simpl. by rewrite (bind_step _ _ _ _ _ E). Qed.

End st_lemmas.

(** ** Total correctness

    [wp m s Q]: started in [s], [m] finishes, without a panic, and [Q] holds of
    its result and final state. *)

Definition wp {S A} (m : ST S A) (s : S) (Q : A → S → Prop) : Prop :=
  ∃ a s', m s = Done (a, s') ∧ Q a s'.

Section wp.
Context {S : Type}.

Lemma wp_ret {A} (a : A) (s : S) (Q : A → S → Prop) : Q a s → wp (mret a) s Q.
Proof. intros HQ. by exists a, s. Qed.

Lemma wp_conseq {A} (m : ST S A) s (P Q : A → S → Prop) :
  wp m s P → (∀ a s', P a s' → Q a s') → wp m s Q.
Proof. intros (a & s' & E & HP) HPQ. exists a, s'. auto. Qed.

Lemma wp_bind {A B} (m : ST S A) (k : A → ST S B) s (Q : B → S → Prop) :
  wp m s (λ a s', wp (k a) s' Q) → wp (m ≫= k) s Q.
Proof.
  intros (a & s1 & E1 & b & s2 & E2 & HQ). exists b, s2. split; [|done]. by rewrite (bind_step _ _ _ _ _ E1).
Qed.

(** The usual step: the first part has a specification [P]. *)
Lemma wp_step {A B} (m : ST S A) (k : A → ST S B) s (P : A → S → Prop) (Q : B → S → Prop) :
  wp m s P → (∀ a s', P a s' → wp (k a) s' Q) → wp (m ≫= k) s Q.
Proof. intros Hm Hk. apply wp_bind, (wp_conseq _ _ _ _ Hm Hk). Qed.

(** A run that ends in a panic behind a part with a specification. *)
Lemma wp_panics {A B} (m : ST S A) (k : A → ST S B) s (P : A → S → Prop) :
  wp m s P → (∀ a s', P a s' → k a s' = Panic) → (m ≫= k) s = Panic.
Proof. intros (a & s' & E & HP) Hk. rewrite (bind_step _ _ _ _ _ E). by apply Hk. Qed.

Lemma wp_run {A} (m : ST S A) s a s' (Q : A → S → Prop) : m s = Done (a, s') → Q a s' → wp m s Q.
Proof. intros E HQ. by exists a, s'. Qed.

Lemma wp_unwrap {A} (a : A) (s : S) (Q : A → S → Prop) : Q a s → wp (unwrap (Some a)) s Q.
Proof. apply wp_ret. Qed.

Lemma wp_assert (b : bool) (s : S) (Q : unit → S → Prop) : b = true → Q tt s → wp (rassert b) s Q.
Proof. intros -> HQ. by apply wp_ret. Qed.

Lemma wp_zoom {T A} (proj : S → T) (inj : T → S → S) (m : ST T A) s (Q : A → S → Prop) :
  wp m (proj s) (λ a t, Q a (inj t s)) → wp (zoom proj inj m) s Q.
Proof. intros (a & t & E & HQ). exists a, (inj t s). split; [|done]. apply zoom_Done. eauto. Qed.

(** A loop with an invariant that carries a bound on the turns left. *)
Lemma wp_loop {B R} (body : B → ST S (B + R)) (I : nat → B → S → Prop) (Q : R → S → Prop) :
  (∀ n b s, I n b s →
     wp (body b) s (λ r s', match r with inl b' => ∃ n', (n' < n)%nat ∧ I n' b' s' | inr out => Q out s' end)) →
  ∀ fuel n b s, I n b s → (n < fuel)%nat → wp (loop fuel body b) s Q.
Proof.
  intros Hbody. induction fuel as [|fuel IH]; intros n b s HI Hn; [lia|]. simpl. apply wp_bind.
  apply (wp_conseq _ _ _ _ (Hbody n b s HI)). intros [b'|out] s'.
  - intros (n' & Hn' & HI'). apply (IH n'); [done|lia].
  - apply wp_ret.
Qed.

Lemma wp_for_fold {A B} (body : B → A → ST S B) (I : list A → B → S → Prop) :
  (∀ x l b s, I (x :: l) b s → wp (body b x) s (λ b' s', I l b' s')) →
  ∀ l b s, I l b s → wp (for_fold l b body) s (λ b' s', I [] b' s').
Proof.
  intros Hbody. induction l as [|x l IH]; intros b s HI; simpl; [by apply wp_ret|].
  apply wp_bind, (wp_conseq _ _ _ _ (Hbody _ _ _ _ HI)). intros b' s'. apply IH.
Qed.

End wp.

(** The state a run ends in. *)
Definition final {S X} (s : S) (o : outcome (X * S)) : S := match o with Done (_, s') => s' | _ => s end.

(** A run that ends, ends in its final state. *)
Definition finishes {S X} (o : outcome (X * S)) : bool := match o with Done _ => true | _ => false end.

Lemma finishes_unit {S} (s : S) (m : ST S unit) : finishes (m s) = true → m s = Done (tt, final s (m s)).
Proof. by destruct (m s) as [[[] ?]| |]. Qed.

Lemma finishes_any {S X} (s : S) (m : ST S X) : finishes (m s) = true → ∃ x, m s = Done (x, final s (m s)).
Proof. destruct (m s) as [[x ?]| |]; [by eauto|done|done]. Qed.

(** [st_inv] takes a finished run of a sequence apart into the finished runs
    of its commands. *)
Ltac st_inv1 :=
  match goal with
  | H : (_ ≫= _) _ = Done _ |- _ =>
      let a := fresh "a" in let s := fresh "s" in let E := fresh "E" in
      apply bind_Done in H as (a & s & E & H)
  | H : (mret _ : ST _ _) _ = Done (_, _) |- _ => apply ret_Done in H as [? ?]
  | H : mret _ _ = Done (_, _) |- _ => apply ret_Done in H as [? ?]
  | H : rassert _ _ = Done (_, _) |- _ => apply rassert_Done in H as [? ?]
  | H : unwrap _ _ = Done (_, _) |- _ => apply unwrap_Done in H as [? ?]
  | H : st_get _ = Done (_, _) |- _ => unfold st_get in H
  | H : st_put _ _ = Done (_, _) |- _ => unfold st_put in H
  | H : st_gets _ _ = Done (_, _) |- _ => unfold st_gets in H
  | H : st_modify _ _ = Done (_, _) |- _ => unfold st_modify in H
  | H : panic _ = Done _ |- _ => discriminate H
  | H : Done _ = Done _ |- _ => injection H as H; subst
  | u : unit |- _ => destruct u
  end.
Ltac st_inv := repeat (st_inv1; simplify_eq/=).

(** [st_step] runs the first command of a sequence whose result is known. *)
Ltac st_step := erewrite bind_step; [|solve [eassumption | reflexivity]].

(** ** Machine integers

    A [w]-bit unsigned integer is a [Z] in [0, 2^w). The kernel is built with
    [--release], so [+], [-], [*] and [<<] wrap around; division by zero,
    a failed bounds check and a failed assertion panic. *)

Definition wrap (w v : Z) : Z := v mod 2 ^ w.
Definition wadd (w a b : Z) : Z := wrap w (a + b).
Definition wsub (w a b : Z) : Z := wrap w (a - b).
Definition wmul (w a b : Z) : Z := wrap w (a * b).
Definition wshl (w a n : Z) : Z := wrap w (Z.shiftl a n).
(** [!a] *)
Definition wnot (w a : Z) : Z := 2 ^ w - 1 - a.
(** [a as i<w>]: the two's-complement reading of a word. *)
Definition to_signed (w a : Z) : Z :=
  let v := wrap w a in if v <? 2 ^ (w - 1) then v else v - 2 ^ w.

Declare Scope mach_scope.
Delimit Scope mach_scope with mach.
Notation "a ⊞ b" := (wadd 64 a b) (at level 50, left associativity) : mach_scope.
Notation "a ⊟ b" := (wsub 64 a b) (at level 50, left associativity) : mach_scope.
Notation "a ⊠ b" := (wmul 64 a b) (at level 40, left associativity) : mach_scope.
Notation "a ⊞₃₂ b" := (wadd 32 a b) (at level 50, left associativity) : mach_scope.
Notation "a ⊟₃₂ b" := (wsub 32 a b) (at level 50, left associativity) : mach_scope.
Notation "a ⊠₃₂ b" := (wmul 32 a b) (at level 40, left associativity) : mach_scope.
Open Scope mach_scope.

(** The value fits in [w] bits. *)
Definition fits (w v : Z) : Prop := 0 ≤ v < 2 ^ w.
Abbreviation is_byte := (fits 8).

(** [lia] with division and remainder by constants. *)
Ltac zlia := Z.to_euclidean_division_equations; lia.

Create HintDb mach.

Lemma wrap_small w v : fits w v → wrap w v = v.
Proof. apply Z.mod_small. Qed.

Lemma wrap_fits w v : 0 ≤ w → fits w (wrap w v).
Proof. intros. apply Z.mod_pos_bound. lia. Qed.

Lemma wadd_small w a b : fits w (a + b) → wadd w a b = a + b.
Proof. apply wrap_small. Qed.

Lemma wsub_small w a b : fits w (a - b) → wsub w a b = a - b.
Proof. apply wrap_small. Qed.

Lemma wmul_small w a b : fits w (a * b) → wmul w a b = a * b.
Proof. apply wrap_small. Qed.

Lemma to_signed_wrap w w' a : 0 ≤ w ≤ w' → to_signed w (wrap w' a) = to_signed w a.
Proof.
  intros Hw. unfold to_signed. assert (wrap w (wrap w' a) = wrap w a) as ->; [|done]. unfold wrap.
  replace w' with (w + (w' - w)) by lia. rewrite Z.pow_add_r by lia. apply Z.mod_mod_divide. apply Z.divide_factor_l.
Qed.

Lemma to_signed_small w a : 0 < w → - 2 ^ (w - 1) ≤ a < 2 ^ (w - 1) → to_signed w a = a.
Proof.
  intros Hw Ha. assert (2 ^ w = 2 * 2 ^ (w - 1)) as E by (rewrite <- Z.pow_succ_r by lia; f_equal; lia).
  unfold to_signed, wrap. rewrite E. destruct (decide (0 ≤ a)).
  - rewrite Z.mod_small by lia. destruct (Z.ltb_spec a (2 ^ (w - 1))); lia.
  - replace (a `mod` (2 * 2 ^ (w - 1))) with (a + 2 * 2 ^ (w - 1))
      by (apply (Z.mod_unique _ _ (-1)); [left|]; lia).
    destruct (Z.ltb_spec (a + 2 * 2 ^ (w - 1)) (2 ^ (w - 1))); lia.
Qed.

Lemma wadd_fits w a b : 0 ≤ w → fits w (wadd w a b).
Proof. apply wrap_fits. Qed.

Lemma wsub_fits w a b : 0 ≤ w → fits w (wsub w a b).
Proof. apply wrap_fits. Qed.

Lemma wshl_fits w a n : 0 ≤ w → fits w (wshl w a n).
Proof. apply wrap_fits. Qed.

#[export] Hint Resolve wrap_fits wadd_fits wsub_fits wshl_fits : mach.

(** Masking with [2^n - 1] is the remainder by [2^n]. *)
Lemma land_ones_mod v n : 0 ≤ n → Z.land v (2 ^ n - 1) = v mod 2 ^ n.
Proof. intros. rewrite <- Z.land_ones by done. by rewrite Z.ones_equiv, Z.sub_1_r. Qed.

(** [hi << n | lo] with [lo] below [2^n] is a sum. *)
Lemma lor_shiftl_add hi lo n :
  0 ≤ n → 0 ≤ lo < 2 ^ n → Z.lor (Z.shiftl hi n) lo = hi * 2 ^ n + lo.
Proof.
  intros Hn Hlo. rewrite Z.shiftl_mul_pow2 by done.
  assert (Z.land (hi * 2 ^ n) lo = 0) as Hland.
  { apply Z.bits_inj'. intros i Hi. rewrite Z.land_spec, Z.bits_0.
    destruct (decide (i < n)); [by rewrite Z.mul_pow2_bits_low by lia|].
    apply andb_false_intro2. rewrite <- (Z.mod_small lo (2 ^ n)) by done.
    apply Z.mod_pow2_bits_high. lia. }
  by rewrite Z.add_nocarry_lxor, Z.lxor_lor.
Qed.

(** ** Vectors

    A [Vec] is a list whose last element is the top: [push] appends. *)

Definition vec_pop {A} (l : list A) : option (A * list A) :=
  match rev l with
  | [] => None
  | x :: r => Some (x, rev r)
  end.

Lemma vec_pop_snoc {A} (l : list A) x : vec_pop (l ++ [x]) = Some (x, l).
Proof. unfold vec_pop. rewrite rev_app_distr. simpl. by rewrite rev_involutive. Qed.

Lemma vec_pop_Some {A} (l l' : list A) x : vec_pop l = Some (x, l') ↔ l = l' ++ [x].
Proof.
  split; [|intros ->; apply vec_pop_snoc].
  unfold vec_pop. destruct (rev l) as [|y r] eqn:E; [done|]. intros [= -> <-].
  rewrite <- (rev_involutive l), E. done.
Qed.

Lemma vec_pop_None {A} (l : list A) : vec_pop l = None ↔ l = [].
Proof.
  split; [|by intros ->]. unfold vec_pop.
  destruct (rev l) as [|y r] eqn:E; [|done]. intros _.
  by rewrite <- (rev_involutive l), E.
Qed.

(** The integers [lo, lo+1, .., hi-1]: the range [lo..hi]. *)
Definition zrange (lo hi : Z) : list Z := seqZ lo (hi - lo).

Lemma elem_of_zrange lo hi x : x ∈ zrange lo hi ↔ lo ≤ x < hi.
Proof. unfold zrange. rewrite elem_of_seqZ. lia. Qed.

Lemma zrange_cons lo hi : lo < hi → zrange lo hi = lo :: zrange (lo + 1) hi.
Proof.
  intros. unfold zrange. rewrite seqZ_cons by lia. f_equal. f_equal; lia.
Qed.

Lemma zrange_nil lo hi : hi ≤ lo → zrange lo hi = [].
Proof. intros. unfold zrange. apply seqZ_nil. lia. Qed.

Lemma zrange_app lo mid hi :
  lo ≤ mid ≤ hi → zrange lo hi = zrange lo mid ++ zrange mid hi.
Proof.
  intros. unfold zrange. replace (hi - lo) with ((mid - lo) + (hi - mid)) by lia.
  rewrite seqZ_app by lia. f_equal. f_equal. lia.
Qed.

Lemma zrange_shift k lo hi : Z.add k <$> zrange lo hi = zrange (k + lo) (k + hi).
Proof. unfold zrange. rewrite fmap_add_seqZ. f_equal. lia. Qed.

Lemma length_zrange lo hi : length (zrange lo hi) = Z.to_nat (hi - lo).
Proof. apply length_seqZ. Qed.

(** ** Byte strings: slices, updates and little-endian words *)

(** [l[off .. off+len]] (the bounds check is the caller's). *)
Definition slice {A} (off len : nat) (l : list A) : list A := take len (drop off l).

(** [l[off .. off + new.len()].copy_from_slice(new)]. *)
Definition splice {A} (off : nat) (new l : list A) : list A :=
  take off l ++ new ++ drop (off + length new) l.

Section slices.
Context {A : Type}.
Implicit Types l new : list A.

Lemma length_slice off len l : (off + len ≤ length l)%nat → length (slice off len l) = len.
Proof. intros. unfold slice. rewrite length_take, length_drop. lia. Qed.

Lemma length_splice off new l :
  (off + length new ≤ length l)%nat → length (splice off new l) = length l.
Proof.
  intros. unfold splice. rewrite !length_app, length_take, length_drop. lia.
Qed.

Lemma lookup_slice off len l i :
  slice off len l !! i = if decide (i < len)%nat then l !! (off + i)%nat else None.
Proof.
  unfold slice. case_decide.
  - rewrite lookup_take_lt by done. apply lookup_drop.
  - apply lookup_take_ge. lia.
Qed.

Lemma lookup_splice off new l i :
  (off + length new ≤ length l)%nat →
  splice off new l !! i =
    if decide (off ≤ i < off + length new)%nat then new !! (i - off)%nat else l !! i.
Proof.
  intros Hle. unfold splice. case_decide as Hi.
  - rewrite lookup_app_r by (rewrite length_take; lia).
    rewrite length_take, Nat.min_l by lia. apply lookup_app_l. lia.
  - destruct (decide (i < off)%nat).
    + rewrite lookup_app_l by (rewrite length_take; lia). by apply lookup_take_lt.
    + rewrite lookup_app_r by (rewrite length_take; lia).
      rewrite length_take, Nat.min_l by lia.
      rewrite lookup_app_r by lia. rewrite lookup_drop. f_equal. lia.
Qed.

(** Reading back what was written. *)
Lemma slice_splice_eq off new l :
  (off + length new ≤ length l)%nat → slice off (length new) (splice off new l) = new.
Proof.
  intros. apply list_eq. intros i. rewrite lookup_slice, lookup_splice by done.
  repeat case_decide; try lia; [f_equal; lia|].
  symmetry. apply lookup_ge_None. lia.
Qed.

(** Reading beside what was written. *)
Lemma slice_splice_ne off new l off' len' :
  (off + length new ≤ length l)%nat →
  (off' + len' ≤ off ∨ off + length new ≤ off')%nat →
  slice off' len' (splice off new l) = slice off' len' l.
Proof.
  intros. apply list_eq. intros i. rewrite !lookup_slice.
  case_decide; [|done]. rewrite lookup_splice by done. case_decide; [lia|done].
Qed.

Lemma Forall_slice (P : A → Prop) off len l : Forall P l → Forall P (slice off len l).
Proof. intros. by apply Forall_take, Forall_drop. Qed.

Lemma Forall_splice (P : A → Prop) off new l :
  Forall P new → Forall P l → Forall P (splice off new l).
Proof.
  intros. apply Forall_app; split; [by apply Forall_take|].
  apply Forall_app; split; [done|by apply Forall_drop].
Qed.

End slices.

Lemma filter_none {A} `{EqDecision A} (l : list A) c : c ∉ l → filter (λ x, x = c) l = [].
Proof.
  intros Hc. destruct (filter (λ x, x = c) l) as [|y r] eqn:E; [done|].
  assert (y ∈ filter (λ x, x = c) l) as [-> Hy]%list_elem_of_filter by (rewrite E; by left). done.
Qed.

(** [v.to_le_bytes()] of an [n]-byte integer, and back. *)
Fixpoint le_bytes (n : nat) (v : Z) : list Z :=
  match n with
  | O => []
  | S n => v mod 256 :: le_bytes n (v / 256)
  end.

Fixpoint le_val (l : list Z) : Z :=
  match l with
  | [] => 0
  | b :: l => b + 256 * le_val l
  end.

Lemma length_le_bytes n v : length (le_bytes n v) = n.
Proof. revert v. induction n; simpl; auto. Qed.

Lemma le_bytes_is_byte n v : Forall is_byte (le_bytes n v).
Proof.
  revert v. induction n as [|n IH]; intros v; simpl; constructor; [|done].
  apply Z.mod_pos_bound. lia.
Qed.

Lemma pow256_S n : 256 ^ Z.of_nat (S n) = 256 * 256 ^ Z.of_nat n.
Proof. rewrite Nat2Z.inj_succ, Z.pow_succ_r; lia. Qed.

Lemma le_val_le_bytes n v : le_val (le_bytes n v) = v mod 256 ^ Z.of_nat n.
Proof.
  revert v. induction n as [|n IH]; intros v; [simpl; by rewrite Z.mod_1_r|].
  rewrite pow256_S. simpl. rewrite IH, Z.rem_mul_r; lia.
Qed.

Lemma le_val_bound l : Forall is_byte l → 0 ≤ le_val l < 256 ^ Z.of_nat (length l).
Proof.
  unfold fits. induction 1 as [|b l Hb Hl IH]; [simpl; lia|].
  cbn [length le_val]. rewrite pow256_S. lia.
Qed.

Lemma le_bytes_le_val l : Forall is_byte l → le_bytes (length l) (le_val l) = l.
Proof.
  unfold fits. induction 1 as [|b l Hb Hl IH]; [done|]. simpl.
  replace ((b + 256 * le_val l) mod 256) with b by zlia.
  replace ((b + 256 * le_val l) / 256) with (le_val l) by zlia. by rewrite IH.
Qed.
