(* ===== verification/Address.v ===== *)
(** * Addresses and page numbers (os/src/mm/address.rs, os/src/config.rs)

    Physical and virtual addresses and page numbers are newtypes around
    [usize]; here each is a [Z] below [2^64]. The conversions mask to the Sv39
    widths, and a [VirtAddr] becomes a [usize] again by sign extension. *)

From S2P Require Import Prelude.

(** ** Constants (config.rs) *)

Definition USER_STACK_SIZE : Z := 4096 * 3.
Definition KERNEL_STACK_SIZE : Z := 4096 * 2.
Definition PAGE_SIZE : Z := 0x1000.
Definition PAGE_SIZE_BITS : Z := 0xc.
Definition usize_MAX : Z := 2 ^ 64 - 1.
Definition TRAMPOLINE : Z := (usize_MAX ⊟ PAGE_SIZE) ⊞ 1.
Definition TRAP_CONTEXT_BASE : Z := TRAMPOLINE ⊟ PAGE_SIZE.
Definition MEMORY_END : Z := 0x88000000.
Definition MMIO : list (Z * Z) := [(0x10001000, 0x1000)].
Definition BIGSTRIDE : Z := 2550.

Definition PA_WIDTH_SV39 : Z := 56.
Definition VA_WIDTH_SV39 : Z := 39.
Definition PPN_WIDTH_SV39 : Z := PA_WIDTH_SV39 - PAGE_SIZE_BITS.
Definition VPN_WIDTH_SV39 : Z := VA_WIDTH_SV39 - PAGE_SIZE_BITS.

(** ** Conversions *)

Definition PhysAddr_from (v : Z) : Z := Z.land v (2 ^ PA_WIDTH_SV39 - 1).
Definition PhysPageNum_from (v : Z) : Z := Z.land v (2 ^ PPN_WIDTH_SV39 - 1).
Definition VirtAddr_from (v : Z) : Z := Z.land v (2 ^ VA_WIDTH_SV39 - 1).
Definition VirtPageNum_from (v : Z) : Z := Z.land v (2 ^ VPN_WIDTH_SV39 - 1).

(** [impl From<VirtAddr> for usize]: sign extension from bit 38. *)
Definition usize_from_VirtAddr (v : Z) : Z :=
  if 2 ^ (VA_WIDTH_SV39 - 1) <=? v
  then Z.lor v (wnot 64 (2 ^ VA_WIDTH_SV39 - 1))
  else v.

(** [VirtAddr::floor], [ceil], [page_offset] and [aligned]. *)
Definition floor (v : Z) : Z := v / PAGE_SIZE.
Definition ceil (v : Z) : Z := ((v ⊟ 1) ⊞ PAGE_SIZE) / PAGE_SIZE.
Definition page_offset (v : Z) : Z := Z.land v (PAGE_SIZE - 1).
Definition aligned (v : Z) : bool := page_offset v =? 0.

(** [impl From<VirtAddr> for VirtPageNum]: the address must be aligned
    ([None] is the panic). *)
Definition VirtPageNum_from_VirtAddr (v : Z) : option Z :=
  if page_offset v =? 0 then Some (floor v) else None.

(** [impl From<VirtPageNum> for VirtAddr]. *)
Definition VirtAddr_from_VirtPageNum (v : Z) : Z := wshl 64 v PAGE_SIZE_BITS.

(** The same operations of [PhysAddr] and [PhysPageNum]. *)
Definition PhysAddr_floor (v : Z) : Z := v / PAGE_SIZE.
Definition PhysAddr_ceil (v : Z) : Z := ((v ⊟ 1) ⊞ PAGE_SIZE) / PAGE_SIZE.
Definition PhysAddr_page_offset (v : Z) : Z := Z.land v (PAGE_SIZE - 1).
Definition PhysAddr_aligned (v : Z) : bool := PhysAddr_page_offset v =? 0.
Definition PhysPageNum_from_PhysAddr (v : Z) : option Z :=
  if PhysAddr_page_offset v =? 0 then Some (PhysAddr_floor v) else None.
Definition PhysAddr_from_PhysPageNum (v : Z) : Z := wshl 64 v PAGE_SIZE_BITS.

(** [VirtPageNum::indexes]: the three 9-bit page-table indexes, filled from
    the last to the first. *)
Definition indexes (vpn : Z) : list Z :=
  let idx2 := Z.land vpn 511 in
  let vpn := Z.shiftr vpn 9 in
  let idx1 := Z.land vpn 511 in
  let vpn := Z.shiftr vpn 9 in
  let idx0 := Z.land vpn 511 in
  [idx0; idx1; idx2].

(** ** Ranges of page numbers *)

(** [StepByOne::step] *)
Definition step (v : Z) : Z := v ⊞ 1.

Record SimpleRange := mkSimpleRange { range_l : Z; range_r : Z }.
Abbreviation VPNRange := SimpleRange.

#[global] Instance SimpleRange_eq_dec : EqDecision SimpleRange.
Proof. solve_decision. Defined.

(** [SimpleRange::new] asserts [start <= end]. *)
Definition SimpleRange_new (start end_ : Z) : option SimpleRange :=
  if start <=? end_ then Some (mkSimpleRange start end_) else None.

Record SimpleRangeIterator := mkRangeIter { iter_current : Z; iter_end : Z }.

Definition into_iter (r : SimpleRange) : SimpleRangeIterator :=
  mkRangeIter (range_l r) (range_r r).

Definition next (it : SimpleRangeIterator) : option (Z * SimpleRangeIterator) :=
  if iter_current it =? iter_end it then None
  else Some (iter_current it, mkRangeIter (step (iter_current it)) (iter_end it)).

(** What [for vpn in range] visits; [None] when [fuel] steps do not reach the
    end of the range. *)
Fixpoint collect (fuel : nat) (it : SimpleRangeIterator) : option (list Z) :=
  match next it with
  | None => Some []
  | Some (x, it') =>
      match fuel with
      | O => None
      | S fuel => cons x <$> collect fuel it'
      end
  end.

(** The visited page numbers of a range built by [SimpleRange_new]; equal to
    what the iterator yields by [collect_range]. *)
Definition vpns (r : SimpleRange) : list Z := zrange (range_l r) (range_r r).

(** ** Arithmetic of the conversions *)

Lemma VirtAddr_from_mod v : VirtAddr_from v = v mod 2 ^ 39.
Proof. apply (land_ones_mod v 39). lia. Qed.

Lemma PhysAddr_from_mod v : PhysAddr_from v = v mod 2 ^ 56.
Proof. apply (land_ones_mod v 56). lia. Qed.

Lemma PhysPageNum_from_mod v : PhysPageNum_from v = v mod 2 ^ 44.
Proof. apply (land_ones_mod v 44). lia. Qed.

Lemma PhysPageNum_from_small v : fits 44 v → PhysPageNum_from v = v.
Proof. intros. rewrite PhysPageNum_from_mod. by apply Z.mod_small. Qed.

Lemma page_offset_mod v : page_offset v = v mod 4096.
Proof. apply (land_ones_mod v 12). lia. Qed.

Lemma page_offset_bound v : 0 ≤ page_offset v < 4096.
Proof. rewrite page_offset_mod. apply Z.mod_pos_bound. lia. Qed.

Lemma floor_offset v : v = floor v * 4096 + page_offset v.
Proof. rewrite page_offset_mod. unfold floor, PAGE_SIZE. zlia. Qed.

Lemma addr_of_page_num_mul v : fits 52 v → VirtAddr_from_VirtPageNum v = v * 4096.
Proof.
  intros [??]. unfold VirtAddr_from_VirtPageNum, wshl, PAGE_SIZE_BITS.
  rewrite Z.shiftl_mul_pow2 by lia. apply wrap_small. unfold fits. lia.
Qed.

Lemma ceil_small v : 0 ≤ v ≤ 2 ^ 63 → ceil v = (v + 4095) / 4096.
Proof.
  intros Hv. unfold ceil, PAGE_SIZE, wadd, wsub, wrap.
  destruct (decide (v = 0)) as [->|]; [done|].
  rewrite (Z.mod_small (v - 1)) by lia. rewrite Z.mod_small by lia. f_equal. lia.
Qed.

Lemma usize_from_VirtAddr_spec v :
  fits 39 v → usize_from_VirtAddr v = if decide (v < 2 ^ 38) then v else v + (2 ^ 64 - 2 ^ 39).
Proof.
  intros [??]. unfold usize_from_VirtAddr, VA_WIDTH_SV39.
  destruct (Z.leb_spec (2 ^ (39 - 1)) v); case_decide; try (simpl in *; lia).
  change (wnot 64 (2 ^ 39 - 1)) with (Z.shiftl (2 ^ 25 - 1) 39).
  rewrite Z.lor_comm, lor_shiftl_add by lia. lia.
Qed.

Lemma indexes_arith vpn :
  indexes vpn = [(vpn / 2 ^ 18) mod 512; (vpn / 2 ^ 9) mod 512; vpn mod 512].
Proof.
  unfold indexes. change 511 with (2 ^ 9 - 1). rewrite !land_ones_mod by lia.
  rewrite !Z.shiftr_div_pow2 by lia. rewrite Z.div_div by lia. done.
Qed.

Lemma indexes_inj vpn vpn' :
  fits 27 vpn → fits 27 vpn' → indexes vpn = indexes vpn' → vpn = vpn'.
Proof. intros [??] [??]. rewrite !indexes_arith. intros [= ???]. zlia. Qed.

Lemma vpns_cons l r :
  l < r → vpns (mkSimpleRange l r) = l :: vpns (mkSimpleRange (l + 1) r).
Proof. apply zrange_cons. Qed.

Lemma collect_zrange (n : nat) l r :
  0 ≤ l → l + Z.of_nat n = r → r < 2 ^ 64 → collect n (mkRangeIter l r) = Some (zrange l r).
Proof.
  revert l. induction n as [|n IH]; intros l Hl Hn Hr; unfold collect, next; fold collect; simpl.
  - rewrite (proj2 (Z.eqb_eq l r)) by lia. by rewrite zrange_nil by lia.
  - rewrite (proj2 (Z.eqb_neq l r)) by lia.
    unfold step. rewrite wadd_small by (unfold fits; lia).
    rewrite IH by lia. simpl. by rewrite (zrange_cons l r) by lia.
Qed.

(** ** Properties *)

(** Sv39 sign extension: masking an address to 39 bits and turning it back
    into a [usize] gives the address itself exactly for the canonical
    addresses, those of the low or of the high half. *)
Theorem sv39_canonical_roundtrip (v : Z) :
  fits 64 v →
  usize_from_VirtAddr (VirtAddr_from v) = v ↔ v < 2 ^ 38 ∨ 2 ^ 64 - 2 ^ 38 ≤ v.
Proof.
  intros [??]. rewrite VirtAddr_from_mod.
  rewrite usize_from_VirtAddr_spec by (split; zlia).
  case_decide; zlia.
Qed.

Lemma sv39_canonical_roundtrip_witness :
  usize_from_VirtAddr (VirtAddr_from TRAMPOLINE) = TRAMPOLINE.
Proof. apply sv39_canonical_roundtrip; vm_compute; intuition discriminate. Defined.

(** Page-table indexes: the three indexes of a 27-bit virtual page number
    are below 512 and determine it, so two pages never share the same path
    through the page table. *)
Theorem indexes_determine_vpn (vpn vpn' : Z) :
  fits 27 vpn → fits 27 vpn' →
  Forall (fits 9) (indexes vpn) ∧ (indexes vpn = indexes vpn' → vpn = vpn').
Proof.
  intros Hv Hv'. split; [|by apply indexes_inj].
  rewrite indexes_arith. repeat constructor; apply Z.mod_pos_bound; lia.
Qed.

Lemma indexes_determine_vpn_witness :
  Forall (fits 9) (indexes 0x7ffffff) ∧
  (indexes 0x7ffffff = indexes 0x40201 → 0x7ffffff = 0x40201).
Proof. apply indexes_determine_vpn; unfold fits; lia. Defined.

(** A range [l..r] of page numbers built by [SimpleRange::new] is walked
    from [l] to [r - 1] in order, each page once, and the walk ends after
    [r - l] steps; [new] panics when [l > r]. *)
Theorem collect_range (l r : Z) :
  fits 52 l → fits 52 r →
  match SimpleRange_new l r with
  | Some rng => collect (Z.to_nat (r - l)) (into_iter rng) = Some (vpns rng)
  | None => r < l
  end.
Proof.
  intros [??] [??]. unfold SimpleRange_new. destruct (Z.leb_spec l r); [|done].
  apply (collect_zrange _ l r); lia.
Qed.

Lemma collect_range_witness :
  collect 3 (into_iter (mkSimpleRange 0x10 0x13)) = Some [0x10; 0x11; 0x12].
Proof. apply (collect_range 0x10 0x13); unfold fits; lia. Defined.
