(* ===== verification/PhysMem.v ===== *)
(** * Physical memory (os/src/mm/address.rs: get_ref, get_mut, get_pte_array,
    get_bytes_array)

    The kernel reads and writes physical pages through the identity mapping.
    A page is a map from word index (0..511) to a 64-bit word, memory a map
    from page number to page; what is absent reads as zero, so the empty page
    is the zeroed page. [get_pte_array] is the word view of a page,
    [get_bytes_array] its little-endian byte view. *)

From S2P Require Import Prelude Address.

Abbreviation page := (gmap Z Z).
Abbreviation pmem := (gmap Z (gmap Z Z)).

Definition get_page (m : pmem) (ppn : Z) : page := default ∅ (m !! ppn).
Definition rd_word (pg : page) (i : Z) : Z := default 0 (pg !! i).

(** [ppn.get_pte_array()[i]] read and written. *)
Definition rd (m : pmem) (ppn i : Z) : Z := rd_word (get_page m ppn) i.
Definition wr (m : pmem) (ppn i v : Z) : pmem := <[ppn := <[i := v]> (get_page m ppn)]> m.

(** All bytes of the page set to zero. *)
Definition zero_page (m : pmem) (ppn : Z) : pmem := <[ppn := ∅]> m.

(** [dst.get_bytes_array().copy_from_slice(src.get_bytes_array())]. *)
Definition copy_page (m : pmem) (src dst : Z) : pmem := <[dst := get_page m src]> m.

(** Byte [off] of a word, and a word with byte [off] replaced. *)
Definition word_byte (w off : Z) : Z := (w / 256 ^ off) mod 256.
Definition word_set_byte (w off b : Z) : Z := w - word_byte w off * 256 ^ off + b * 256 ^ off.

(** [ppn.get_bytes_array()[off]] read and written. *)
Definition rd_byte (m : pmem) (ppn off : Z) : Z :=
  word_byte (rd m ppn (off / 8)) (off mod 8).
Definition wr_byte (m : pmem) (ppn off b : Z) : pmem :=
  wr m ppn (off / 8) (word_set_byte (rd m ppn (off / 8)) (off mod 8) b).

(** The byte at a physical address ([PhysAddr::get_ref::<u8>] and [get_mut]). *)
Definition rd_pa (m : pmem) (pa : Z) : Z := rd_byte m (pa / 4096) (pa mod 4096).
Definition wr_pa (m : pmem) (pa b : Z) : pmem := wr_byte m (pa / 4096) (pa mod 4096) b.

(** Store consecutive bytes from [pa] on (a plain [*ptr = value] of several
    bytes). *)
Fixpoint wr_bytes (m : pmem) (pa : Z) (bs : list Z) : pmem :=
  match bs with
  | [] => m
  | b :: bs => wr_bytes (wr_pa m pa b) (pa + 1) bs
  end.

(** Every stored word is a 64-bit word. *)
Definition mem_wf (m : pmem) : Prop := ∀ p i, fits 64 (rd m p i).

(** ** Lemmas *)

Lemma rd_wr m p i v p' i' :
  rd (wr m p i v) p' i' = if decide (p = p' ∧ i = i') then v else rd m p' i'.
Proof.
  unfold rd, wr, get_page, rd_word. destruct (decide (p = p')) as [->|Hp].
  - rewrite lookup_insert_eq. simpl. destruct (decide (i = i')) as [->|Hi].
    + rewrite lookup_insert_eq. by rewrite decide_True.
    + rewrite lookup_insert_ne by done. rewrite decide_False by naive_solver. done.
  - rewrite lookup_insert_ne by done. rewrite decide_False by naive_solver. done.
Qed.

Lemma rd_wr_eq m p i v : rd (wr m p i v) p i = v.
Proof. rewrite rd_wr. by rewrite decide_True. Qed.

Lemma rd_wr_ne m p i v p' i' : p ≠ p' ∨ i ≠ i' → rd (wr m p i v) p' i' = rd m p' i'.
Proof. intros. rewrite rd_wr. rewrite decide_False by naive_solver. done. Qed.

Lemma rd_zero_page m p p' i :
  rd (zero_page m p) p' i = if decide (p = p') then 0 else rd m p' i.
Proof.
  unfold rd, zero_page, get_page, rd_word. case_decide as Hp; subst.
  - by rewrite lookup_insert_eq.
  - by rewrite lookup_insert_ne.
Qed.

Lemma rd_copy_page m src dst p i :
  rd (copy_page m src dst) p i = if decide (dst = p) then rd m src i else rd m p i.
Proof.
  unfold rd, copy_page, get_page. case_decide as Hp; subst.
  - by rewrite lookup_insert_eq.
  - by rewrite lookup_insert_ne.
Qed.

Lemma mem_wf_wr m p i v : mem_wf m → fits 64 v → mem_wf (wr m p i v).
Proof. intros Hm Hv p' i'. rewrite rd_wr. by case_decide. Qed.

Lemma mem_wf_zero_page m p : mem_wf m → mem_wf (zero_page m p).
Proof. intros Hm p' i'. rewrite rd_zero_page. case_decide; [unfold fits; lia|done]. Qed.

Lemma mem_wf_copy_page m src dst : mem_wf m → mem_wf (copy_page m src dst).
Proof. intros Hm p' i'. rewrite rd_copy_page. by case_decide. Qed.

Lemma word_byte_is_byte w off : is_byte (word_byte w off).
Proof. apply Z.mod_pos_bound. lia. Qed.

(** Setting byte [off] of a word changes that byte only. *)
Lemma word_byte_set w off b off' :
  0 ≤ off < 8 → 0 ≤ off' < 8 → is_byte b →
  word_byte (word_set_byte w off b) off' = if decide (off = off') then b else word_byte w off'.
Proof.
  intros Hoff Hoff' [??]. unfold word_set_byte, word_byte.
  set (d := b - (w / 256 ^ off) mod 256).
  replace (w - (w / 256 ^ off) mod 256 * 256 ^ off + b * 256 ^ off)
    with (w + d * 256 ^ off) by (subst d; ring).
  assert (0 < 256 ^ off) by lia. assert (0 < 256 ^ off') by lia.
  case_decide as He; [subst off'|].
  - rewrite Z.div_add by lia. subst d. symmetry. apply Z.mod_unique with (w / 256 ^ off / 256); [left; lia|].
    pose proof (Z.div_mod (w / 256 ^ off) 256 ltac:(lia)). lia.
  - destruct (decide (off' < off)).
    + replace (256 ^ off) with (256 ^ (off - off' - 1) * 256 * 256 ^ off').
      2:{ change 256 with (256 ^ 1) at 2. rewrite <- !Z.pow_add_r by lia. f_equal. lia. }
      rewrite !Z.mul_assoc, Z.div_add by lia. by rewrite Z.mod_add by lia.
    + replace off' with (off + 1 + (off' - off - 1)) by lia.
      rewrite !Z.pow_add_r, <- !Z.div_div by lia. f_equal. f_equal.
      rewrite Z.div_add by lia. subst d.
      pose proof (Z.div_mod (w / 256 ^ off) 256 ltac:(lia)). change (256 ^ 1) with 256.
      symmetry. apply Z.div_unique with b; [left; lia|]. lia.
Qed.

(** The word whose byte was replaced is a 64-bit word again. *)
Lemma word_set_byte_fits w off b :
  fits 64 w → 0 ≤ off < 8 → is_byte b → fits 64 (word_set_byte w off b).
Proof.
  intros [??] Hoff [??]. unfold word_set_byte, word_byte.
  set (q := w / 256 ^ off). set (P := 256 ^ off).
  assert (0 < P) by (subst P; lia).
  assert (w = P * q + w mod P) by (subst q P; apply Z.div_mod; lia).
  assert (0 ≤ w mod P < P) by (apply Z.mod_pos_bound; lia).
  assert (q = 256 * (q / 256) + q mod 256) by (apply Z.div_mod; lia).
  assert (0 ≤ q mod 256 < 256) by (apply Z.mod_pos_bound; lia).
  assert (0 ≤ q) by (subst q; apply Z.div_pos; lia).
  assert (0 ≤ q / 256) by (apply Z.div_pos; lia).
  assert (2 ^ 64 = 256 ^ (8 - off - 1) * 256 * P) as Hpow.
  { subst P. change 256 with (256 ^ 1) at 2. rewrite <- !Z.pow_add_r by lia.
    change (2 ^ 64) with (256 ^ 8). f_equal. lia. }
  assert (q < 256 ^ (8 - off - 1) * 256).
  { subst q. apply Z.div_lt_upper_bound; [lia|]. fold P. lia. }
  assert (q / 256 < 256 ^ (8 - off - 1)) by (apply Z.div_lt_upper_bound; lia).
  unfold fits. rewrite Hpow.
  replace (w - q mod 256 * P + b * P) with (256 * (q / 256) * P + w mod P + b * P) by lia.
  split; [nia|].
  assert (q / 256 + 1 ≤ 256 ^ (8 - off - 1)) by lia.
  assert ((q / 256 + 1) * 256 * P ≤ 256 ^ (8 - off - 1) * 256 * P) by nia. nia.
Qed.

Lemma rd_byte_is_byte m p off : is_byte (rd_byte m p off).
Proof. apply word_byte_is_byte. Qed.

(** Bytes of memory behave like an array: a write is seen at its own address
    and nowhere else. *)
Lemma rd_byte_wr_byte m p off b p' off' :
  0 ≤ off → 0 ≤ off' → is_byte b →
  rd_byte (wr_byte m p off b) p' off' =
    if decide (p = p' ∧ off = off') then b else rd_byte m p' off'.
Proof.
  intros Hoff Hoff' Hb. unfold rd_byte, wr_byte. rewrite rd_wr.
  case_decide as Hw.
  - destruct Hw as [-> Hw]. rewrite word_byte_set by (try apply Z.mod_pos_bound; lia || done).
    repeat case_decide; try done; try zlia. by rewrite Hw.
  - rewrite decide_False; [done|]. intros [-> ->]. by apply Hw.
Qed.

Lemma rd_pa_wr_pa m pa b pa' :
  0 ≤ pa → 0 ≤ pa' → is_byte b →
  rd_pa (wr_pa m pa b) pa' = if decide (pa = pa') then b else rd_pa m pa'.
Proof.
  intros. unfold rd_pa, wr_pa.
  rewrite rd_byte_wr_byte by (try apply Z.mod_pos_bound; lia || done).
  repeat case_decide; try done; zlia.
Qed.

Lemma mem_wf_wr_pa m pa b : mem_wf m → 0 ≤ pa → is_byte b → mem_wf (wr_pa m pa b).
Proof.
  intros Hm Hpa Hb. apply mem_wf_wr; [done|]. apply word_set_byte_fits; [done| |done].
  apply Z.mod_pos_bound. lia.
Qed.

Lemma rd_pa_wr_bytes m pa bs pa' :
  0 ≤ pa → 0 ≤ pa' → Forall is_byte bs →
  rd_pa (wr_bytes m pa bs) pa' =
    if decide (pa ≤ pa' < pa + Z.of_nat (length bs))
    then default 0 (bs !! Z.to_nat (pa' - pa)) else rd_pa m pa'.
Proof.
  intros Hpa Hpa' Hbs. revert m pa Hpa.
  induction Hbs as [|b bs Hb Hbs IH]; intros m pa Hpa; simpl.
  - rewrite decide_False by lia. done.
  - rewrite IH by lia. rewrite rd_pa_wr_pa by done.
    destruct (decide (pa = pa')) as [->|Hne].
    + rewrite decide_False, decide_True by lia. by rewrite Z.sub_diag.
    + repeat case_decide; try lia; try done.
      replace (Z.to_nat (pa' - pa)) with (S (Z.to_nat (pa' - (pa + 1)))) by lia. done.
Qed.

(** A store inside page [p] leaves the words of the other pages alone. *)
Lemma rd_wr_bytes_ne m p off bs q i :
  0 ≤ off → off + Z.of_nat (length bs) ≤ 4096 → q ≠ p →
  rd (wr_bytes m (p * 4096 + off) bs) q i = rd m q i.
Proof.
  revert m off. induction bs as [|b bs IH]; intros m off Hoff Hlen Hne; simpl in *; [done|].
  rewrite <- Z.add_assoc, IH by lia. unfold wr_pa, wr_byte. apply rd_wr_ne. left.
  rewrite Z.div_add_l, Z.div_small by lia. lia.
Qed.

Lemma mem_wf_wr_bytes m pa bs :
  mem_wf m → 0 ≤ pa → Forall is_byte bs → mem_wf (wr_bytes m pa bs).
Proof.
  intros Hm Hpa Hbs. revert m pa Hm Hpa.
  induction Hbs as [|b bs Hb Hbs IH]; intros m pa Hm Hpa; simpl; [done|].
  apply IH; [by apply mem_wf_wr_pa|lia].
Qed.

Lemma rd_byte_pa m p off : 0 ≤ off < 4096 → rd_byte m p off = rd_pa m (p * 4096 + off).
Proof.
  intros. unfold rd_pa. by rewrite Z.div_add_l, Z.div_small, Z.add_0_r, Z.add_comm, Z.mod_add, Z.mod_small by lia.
Qed.

(** The bytes of page [p] after [bs] is stored at its start. *)
Lemma rd_byte_wr_bytes m p bs off :
  0 ≤ p → 0 ≤ off < 4096 → Forall is_byte bs →
  rd_byte (wr_bytes m (p * 4096) bs) p off = default (rd_byte m p off) (bs !! Z.to_nat off).
Proof.
  intros Hp Hoff Hbs. rewrite !rd_byte_pa by done. rewrite rd_pa_wr_bytes by (done || lia).
  replace (p * 4096 + off - p * 4096) with off by lia. case_decide.
  - destruct (lookup_lt_is_Some_2 bs (Z.to_nat off)) as [b ->]; [lia|done].
  - by rewrite lookup_ge_None_2 by lia.
Qed.
