(* ===== verification/Heap.v ===== *)
(** * The heap (src/dependencies/buddy_system_allocator-0.6.0, os/src/mm/heap_allocator.rs)

    The global allocator of the kernel, and of every user program: a buddy
    system with 32 size classes. The free blocks of a class are a linked list
    whose links are stored in the blocks themselves, so the state is the words
    of memory and the heads of the lists. Words are at aligned addresses.

    The blocks, free or handed out, tile the heap ([heap_inv]): the bytes of
    all blocks, put together, are a permutation of the bytes of the heap. No
    two buddies are free at once. *)

From S2P Require Import Prelude.

(** ** Integers *)

Fixpoint pos_trailing_zeros (p : positive) : Z :=
  match p with xO p => 1 + pos_trailing_zeros p | _ => 0 end.
Definition trailing_zeros (n : Z) : Z :=
  match n with Zpos p => pos_trailing_zeros p | _ => 64 end.
Definition leading_zeros (n : Z) : Z := if n =? 0 then 64 else 63 - Z.log2 n.
Definition next_power_of_two (n : Z) : Z := 2 ^ Z.log2_up n.
Definition prev_power_of_two (num : Z) : Z := 2 ^ (64 - leading_zeros num - 1).

(** ** State *)

(** [Layout]: the size and the alignment of a request. *)
Record Layout := mkLayout { layout_size : Z; layout_align : Z }.

Record Heap := mkHeap {
  free_list : list Z;
  h_user : Z;
  h_allocated : Z;
  h_total : Z;
}.

(** The heap and the words of memory. *)
Record heap_state := mkHS { hs_mem : gmap Z Z; hs_heap : Heap }.

Definition Heap_new : Heap := mkHeap (replicate 32 0) 0 0 0.
Definition Heap_empty : Heap := Heap_new.

Abbreviation H := (ST heap_state).

Definition word (m : gmap Z Z) (a : Z) : Z := default 0 (m !! a).
Definition load (a : Z) : H Z := st_gets (λ s, word (hs_mem s) a).
Definition store (a v : Z) : H unit := st_modify (λ s, mkHS (<[a := v]> (hs_mem s)) (hs_heap s)).

(** [self.free_list[i]], with its bounds check. *)
Definition get_head (i : nat) : H Z := l ← st_gets (λ s, free_list (hs_heap s)); unwrap (l !! i).
Definition set_head (i : nat) (v : Z) : H unit :=
  get_head i;;
  st_modify (λ s, mkHS (hs_mem s) (mkHeap (<[i := v]> (free_list (hs_heap s))) (h_user (hs_heap s))
                                     (h_allocated (hs_heap s)) (h_total (hs_heap s)))).
Definition set_stats (user allocated total : Z) : H unit :=
  st_modify (λ s, mkHS (hs_mem s) (mkHeap (free_list (hs_heap s)) user allocated total)).

(** ** linked_list.rs: the list of class [i] *)

Definition LinkedList_is_empty (i : nat) : H bool := head ← get_head i; mret (head =? 0).
Definition LinkedList_push (i : nat) (item : Z) : H unit :=
  head ← get_head i;
  store item head;;
  set_head i item.
Definition LinkedList_pop (i : nat) : H (option Z) :=
  e ← LinkedList_is_empty i;
  if e : bool then mret None
  else
    item ← get_head i;
    next ← load item;
    set_head i next;;
    mret (Some item).

(** [prev] is where the pointer to [curr] is: the head of the list or a node. *)
Record ListNode := mkNode { node_prev : option Z; node_curr : Z }.
Definition ListNode_pop (i : nat) (n : ListNode) : H Z :=
  next ← load (node_curr n);
  (match node_prev n with None => set_head i next | Some p => store p next end);;
  mret (node_curr n).

(** The state of an [IterMut] is the node it is at. *)
Definition iter_mut (i : nat) : H ListNode := head ← get_head i; mret (mkNode None head).
Definition IterMut_next (it : ListNode) : H (option ListNode * ListNode) :=
  if node_curr it =? 0 then mret (None, it)
  else
    next ← load (node_curr it);
    mret (Some it, mkNode (Some (node_curr it)) next).

(** ** lib.rs *)

(** [add_to_heap]; fuel: every turn takes a word at least. *)
Definition add_body (end_ : Z) (acc : Z * Z) : H (Z * Z + Z) :=
  let '(total, current_start) := acc in
  if current_start ⊞ 8 <=? end_ then
    let lowbit := Z.land current_start (wnot 64 current_start ⊞ 1) in
    let size := Z.min lowbit (prev_power_of_two (end_ ⊟ current_start)) in
    LinkedList_push (Z.to_nat (trailing_zeros size)) current_start;;
    mret (inl (total ⊞ size, current_start ⊞ size))
  else mret (inr total).
Definition add_to_heap (start end_ : Z) : H unit :=
  let start := Z.land (start ⊞ 8 ⊟ 1) (wnot 64 8 ⊞ 1) in
  let end_ := Z.land end_ (wnot 64 8 ⊞ 1) in
  rassert (start <=? end_);;
  total ← loop (S (Z.to_nat ((end_ - start) / 8))) (add_body end_) (0, start);
  s ← st_gets hs_heap;
  set_stats (h_user s) (h_allocated s) (h_total s ⊞ total).
Definition Heap_init (start size : Z) : H unit := add_to_heap start (start ⊞ size).

(** The size of the block for a request. *)
Definition block_size (layout : Layout) : Z :=
  Z.max (next_power_of_two (layout_size layout)) (Z.max (layout_align layout) 8).
Definition block_class (layout : Layout) : nat := Z.to_nat (trailing_zeros (block_size layout)).

(** One block of class [j] becomes two of class [j - 1]; [inr] is [Err(())]. *)
Definition split_block (j : nat) : H (unit + unit) :=
  o ← LinkedList_pop j;
  match o with
  | Some block =>
      LinkedList_push (j - 1) (block ⊞ 2 ^ Z.of_nat (j - 1));;
      LinkedList_push (j - 1) block;;
      mret (inl tt)
  | None => mret (inr tt)
  end.

(** The turn of the loop of [alloc] for class [i]. *)
Definition alloc_class (layout : Layout) (i : nat) : H (unit + option Z) :=
  let class := block_class layout in
  e ← LinkedList_is_empty i;
  if e : bool then mret (inl tt)
  else
    r ← for_brk (rev (seq (class + 1) (i - class))) tt (λ _ j, split_block j);
    match r with
    | inr _ => mret (inr None)
    | inl _ =>
        o ← LinkedList_pop class;
        result ← unwrap o;
        if result =? 0 then mret (inr None)
        else
          h ← st_gets hs_heap;
          set_stats (h_user h ⊞ layout_size layout) (h_allocated h ⊞ block_size layout) (h_total h);;
          mret (inr (Some result))
    end.
Definition alloc (layout : Layout) : H (option Z) :=
  l ← st_gets (λ s, free_list (hs_heap s));
  r ← for_brk (seq (block_class layout) (length l - block_class layout)) tt (λ _ i, alloc_class layout i);
  mret match r with inl _ => None | inr r => r end.

(** The search for the buddy; fuel: a list has at most as many blocks as the
    heap has words. *)
Definition find_body (class : nat) (buddy : Z) (it : ListNode) : H (ListNode + bool) :=
  '(o, it) ← IterMut_next it;
  match o with
  | None => mret (inr false)
  | Some block =>
      if node_curr block =? buddy then ListNode_pop class block;; mret (inr true)
      else mret (inl it)
  end.
Definition find_buddy (class : nat) (buddy : Z) : H bool :=
  total ← st_gets (λ s, h_total (hs_heap s));
  it ← iter_mut class;
  loop (S (S (Z.to_nat (total / 8)))) (find_body class buddy) it.

Definition merge_body (acc : Z * nat) : H (Z * nat + unit) :=
  let '(current_ptr, current_class) := acc in
  l ← st_gets (λ s, free_list (hs_heap s));
  if (current_class <? length l)%nat then
    let buddy := Z.lxor current_ptr (2 ^ Z.of_nat current_class) in
    flag ← find_buddy current_class buddy;
    if flag : bool then
      LinkedList_pop current_class;;
      let current_ptr := Z.min current_ptr buddy in
      LinkedList_push (current_class + 1) current_ptr;;
      mret (inl (current_ptr, (current_class + 1)%nat))
    else mret (inr tt)
  else mret (inr tt).
Definition dealloc (ptr : Z) (layout : Layout) : H unit :=
  let class := block_class layout in
  LinkedList_push class ptr;;
  loop 33 merge_body (ptr, class);;
  h ← st_gets hs_heap;
  set_stats (h_user h ⊟ layout_size layout) (h_allocated h ⊟ block_size layout) (h_total h).

(** ** os/src/mm/heap_allocator.rs *)

Definition KERNEL_HEAP_SIZE : Z := 0x2000000.
(** [heap_space] is the address of [HEAP_SPACE]. *)
Definition init_heap (heap_space : Z) : H unit := Heap_init heap_space KERNEL_HEAP_SIZE.

(** ** Blocks

    A block is its class and its address. *)

Abbreviation block := (nat * Z)%type (only parsing).
Definition size_of (k : nat) : Z := 2 ^ Z.of_nat k.
Definition buddy (k : nat) (a : Z) : Z := Z.lxor a (size_of k).
Definition block_bytes (b : block) : list Z := zrange b.2 (b.2 + size_of b.1).
Definition good_block (b : block) : Prop := (3 ≤ b.1 < 32)%nat ∧ 0 < b.2 ∧ b.2 mod size_of b.1 = 0.

(** The blocks tile the range [lo..hi]. *)
Record tiles (lo hi : Z) (bs : list block) : Prop := {
  ti_bytes : concat (block_bytes <$> bs) ≡ₚ zrange lo hi;
  ti_good : Forall good_block bs;
}.

(** No two buddies are among the blocks. *)
Definition coalesced (bs : list block) : Prop := ∀ k a, (k, a) ∈ bs → (k, buddy k a) ∉ bs.

Lemma elem_of_concat {X} (x : X) ls : x ∈ concat ls ↔ ∃ l, x ∈ l ∧ l ∈ ls.
Proof. induction ls as [|l ls IH]; simpl; [set_solver|]. rewrite elem_of_app, IH. set_solver. Qed.

Lemma size_of_pos k : 0 < size_of k.
Proof. unfold size_of. lia. Qed.
Lemma size_of_S k : size_of (S k) = 2 * size_of k.
Proof. unfold size_of. rewrite Nat2Z.inj_succ, Z.pow_succ_r by lia. done. Qed.

Lemma lxor_1 q : Z.lxor q 1 = if Z.even q then q + 1 else q - 1.
Proof.
  assert (∀ p, Z.even p = true → Z.lxor p 1 = p + 1) as Heven.
  { intros p Hp. symmetry. apply Z.add_nocarry_lxor. change 1 with (Z.ones 1). rewrite Z.land_ones by lia.
    apply Z.even_spec in Hp as [x ->]. zlia. }
  destruct (Z.even q) eqn:Eq; [by apply Heven|].
  rewrite <- (Z.sub_add 1 q) at 1. rewrite <- (Heven (q - 1)).
  - by rewrite Z.lxor_assoc, Z.lxor_nilpotent, Z.lxor_0_r.
  - by rewrite Z.even_sub, Eq.
Qed.

(** The buddy of a block is above or below it; the lower one is aligned to the
    next class. *)
Lemma buddy_cases k a :
  a mod size_of k = 0 →
  (buddy k a = a + size_of k ∧ a mod size_of (S k) = 0) ∨
  (buddy k a = a - size_of k ∧ (a - size_of k) mod size_of (S k) = 0).
Proof.
  intros Ha. pose proof (size_of_pos k) as Hs. apply Z.mod_divide in Ha as [q ->]; [|lia].
  assert (buddy k (q * size_of k) = Z.lxor q 1 * size_of k) as ->.
  { unfold buddy, size_of. rewrite <- (Z.mul_1_l (2 ^ _)) at 2. rewrite <- !Z.shiftl_mul_pow2 by lia. by rewrite Z.shiftl_lxor. }
  rewrite size_of_S, lxor_1. destruct (Z.even q) eqn:Eq.
  - left. split; [lia|]. apply Z.even_spec in Eq as [x ->]. replace (2 * x * size_of k) with (x * (2 * size_of k)) by lia.
    apply Z.mod_mul. lia.
  - right. split; [lia|]. assert (Z.odd q = true) as Ho by (by rewrite <- Z.negb_even, Eq). apply Z.odd_spec in Ho as [x ->].
    replace ((2 * x + 1) * size_of k - size_of k) with (x * (2 * size_of k)) by lia. apply Z.mod_mul. lia.
Qed.

Lemma buddy_ne k a : buddy k a ≠ a.
Proof.
  unfold buddy, size_of. intros E. assert (Z.lxor a (Z.lxor a (2 ^ Z.of_nat k)) = 0) as Hz by (rewrite E; apply Z.lxor_nilpotent).
  rewrite <- Z.lxor_assoc, Z.lxor_nilpotent, Z.lxor_0_l in Hz. lia.
Qed.

Lemma buddy_invol k a : buddy k (buddy k a) = a.
Proof. unfold buddy. by rewrite Z.lxor_assoc, Z.lxor_nilpotent, Z.lxor_0_r. Qed.

Lemma block_bytes_S k a : block_bytes (S k, a) = block_bytes (k, a) ++ block_bytes (k, a + size_of k).
Proof.
  unfold block_bytes; cbn [fst snd]. rewrite size_of_S. pose proof (size_of_pos k).
  rewrite (zrange_app a (a + size_of k)) by lia. do 2 f_equal. lia.
Qed.

Lemma elem_of_bytes b x : x ∈ block_bytes b ↔ b.2 ≤ x < b.2 + size_of b.1.
Proof. apply elem_of_zrange. Qed.

#[global] Instance concat_bytes_perm : Proper ((≡ₚ) ==> (≡ₚ)) (λ bs, concat (block_bytes <$> bs)).
Proof.
  intros bs bs' Hp. induction Hp as [|b bs bs' _ IH|b c bs|bs1 bs2 bs3 _ IH1 _ IH2]; simpl; [done|by rewrite IH| |by etrans].
  rewrite !(assoc_L app). f_equiv. apply Permutation_app_comm.
Qed.

#[global] Instance tiles_perm lo hi : Proper ((≡ₚ) ==> iff) (tiles lo hi).
Proof.
  intros bs bs' Hp. pose proof (concat_bytes_perm _ _ Hp) as Hc. cbv beta in Hc.
  split; intros [Hb Hg]; constructor.
  - by rewrite <- Hc.
  - by rewrite <- Hp.
  - by rewrite Hc.
  - by rewrite Hp.
Qed.

#[global] Instance coalesced_perm : Proper ((≡ₚ) ==> iff) coalesced.
Proof. intros bs bs' Hp. unfold coalesced. by setoid_rewrite Hp. Qed.

Section tiles.
Context (lo hi : Z).

Lemma tiles_NoDup bs : tiles lo hi bs → NoDup (concat (block_bytes <$> bs)).
Proof. intros [Hb _]. rewrite Hb. apply NoDup_seqZ. Qed.

(** Two different blocks have no byte in common. *)
Lemma tiles_apart b c bs x : tiles lo hi (b :: c :: bs) → x ∈ block_bytes b → x ∉ block_bytes c.
Proof.
  intros Ht Hb Hc. apply tiles_NoDup in Ht. simpl in Ht. apply NoDup_app in Ht as (_ & Hd & _).
  apply (Hd x Hb). apply elem_of_app. by left.
Qed.

Lemma good_address b : good_block b → b.2 ∈ block_bytes b.
Proof. intros _. apply elem_of_bytes. pose proof (size_of_pos b.1). lia. Qed.

Lemma tiles_rest b bs c x : tiles lo hi (b :: bs) → c ∈ bs → x ∈ block_bytes b → x ∉ block_bytes c.
Proof. intros Ht [bs' Hp]%elem_of_Permutation. rewrite Hp in Ht. by apply (tiles_apart b c bs'). Qed.

Lemma tiles_addresses bs : tiles lo hi bs → NoDup bs.*2.
Proof.
  intros Ht. pose proof (tiles_NoDup _ Ht) as Hnd. pose proof (ti_good _ _ _ Ht) as Hg. clear Ht.
  induction bs as [|b bs IH]; simpl in *; [constructor|]. apply Forall_cons in Hg as [Hb Hg].
  apply NoDup_app in Hnd as (_ & Hd & Hnd). constructor; [|by apply IH].
  intros (c & Ec & Hc)%list_elem_of_fmap. apply (Hd b.2); [by apply good_address|].
  apply elem_of_concat. exists (block_bytes c). split; [|by apply list_elem_of_fmap_2].
  rewrite Ec. apply good_address. rewrite Forall_forall in Hg. by apply Hg.
Qed.

Lemma tiles_inside bs b : tiles lo hi bs → b ∈ bs → lo ≤ b.2 ∧ b.2 + size_of b.1 ≤ hi.
Proof.
  intros [Hb _] Hin. pose proof (size_of_pos b.1).
  assert (∀ x, x ∈ block_bytes b → lo ≤ x < hi) as Hx.
  { intros x Hx. apply elem_of_zrange. rewrite <- Hb. apply elem_of_concat. exists (block_bytes b).
    split; [done|by apply list_elem_of_fmap_2]. }
  pose proof (Hx b.2 ltac:(apply elem_of_bytes; lia)). pose proof (Hx (b.2 + size_of b.1 - 1) ltac:(apply elem_of_bytes; lia)). lia.
Qed.

(** Every block has a word at least. *)
Lemma tiles_count bs : lo ≤ hi → tiles lo hi bs → Z.of_nat (length bs) ≤ (hi - lo) / 8.
Proof.
  intros Hle [Hb Hg]. apply Permutation_length in Hb. rewrite length_zrange in Hb.
  assert (8 * length bs ≤ length (concat (block_bytes <$> bs)))%nat as Hc; [|zlia]. clear Hb.
  induction Hg as [|b bs (Hk & _) Hg IH]; [simpl; lia|]. rewrite fmap_cons. cbn [concat length]. rewrite length_app. unfold block_bytes at 1. rewrite length_zrange.
  assert (2 ^ 3 ≤ size_of b.1) by (apply Z.pow_le_mono_r; lia). lia.
Qed.

(** A block is its two halves. *)
Lemma tiles_halves k a bs :
  tiles lo hi ((S k, a) :: bs) → (3 ≤ k)%nat → tiles lo hi ((k, a) :: (k, a + size_of k) :: bs).
Proof.
  intros [Hb [(Hk & Ha & Hal) Hg]%Forall_cons] H3. cbn [fst snd] in *. pose proof (size_of_pos k). rewrite size_of_S in Hal.
  constructor.
  - rewrite <- Hb. cbn [fmap list_fmap concat]. by rewrite block_bytes_S, (assoc_L app).
  - assert (a mod size_of k = 0) as Hak.
    { apply Z.mod_divide in Hal as [q ->]; [|lia]. replace (q * (2 * size_of k)) with (q * 2 * size_of k) by lia. apply Z.mod_mul. lia. }
    constructor; [|constructor; [|done]]; (split_and!; cbn [fst snd]; [lia|lia|lia|]); [done|].
    rewrite Z.add_mod, Hak, Z.mod_same, Z.mod_0_l by lia. done.
Qed.

Lemma tiles_join k a bs :
  tiles lo hi ((k, a) :: (k, a + size_of k) :: bs) → a mod size_of (S k) = 0 → (S k < 32)%nat → tiles lo hi ((S k, a) :: bs).
Proof.
  intros [Hb [(Hk & Ha & Hal) [_ Hg]%Forall_cons]%Forall_cons] Has Hk'. cbn [fst snd] in *. constructor.
  - rewrite <- Hb. cbn [fmap list_fmap concat]. by rewrite block_bytes_S, (assoc_L app).
  - constructor; [|done]. split_and!; cbn [fst snd]; lia.
Qed.

Lemma tiles_pair k a bs :
  tiles lo hi ((k, a) :: (k, buddy k a) :: bs) → hi - lo < 2 ^ 32 →
  (S k < 32)%nat ∧ tiles lo hi ((S k, Z.min a (buddy k a)) :: bs).
Proof.
  intros Ht Hsz. pose proof (ti_good _ _ _ Ht) as [(Hk & Ha & Hal) [(_ & Ha' & Hal') _]%Forall_cons]%Forall_cons. cbn [fst snd] in *.
  pose proof (size_of_pos k) as Hp.
  assert ((S k < 32)%nat) as Hk32.
  { destruct (decide (S k < 32)%nat) as [|Hge]; [done|]. exfalso. assert (k = 31%nat) as -> by lia.
    pose proof (tiles_inside _ (31%nat, a) Ht ltac:(set_solver)). pose proof (tiles_inside _ (31%nat, buddy 31 a) Ht ltac:(set_solver)).
    cbn [fst snd] in *. destruct (buddy_cases 31 a Hal) as [[E _]|[E _]]; rewrite E in *; unfold size_of in *; lia. }
  split; [done|]. destruct (buddy_cases k a Hal) as [[E Has]|[E Has]]; rewrite E in *.
  - rewrite Z.min_l by lia. by apply tiles_join.
  - rewrite Z.min_r by lia. apply tiles_join; [|done|done]. rewrite Z.sub_add. by rewrite (Permutation_swap (k, a - size_of k) (k, a) bs) in Ht.
Qed.

End tiles.

(** ** The linked lists *)

Fixpoint llist (m : gmap Z Z) (h : Z) (l : list Z) : Prop :=
  match l with
  | [] => h = 0
  | a :: l => h = a ∧ a ≠ 0 ∧ llist m (word m a) l
  end.

Lemma word_insert m a v x : word (<[a := v]> m) x = if decide (x = a) then v else word m x.
Proof.
  unfold word. destruct (decide (x = a)) as [->|]; [by rewrite lookup_insert_eq|by rewrite lookup_insert_ne].
Qed.

Lemma llist_frame m m' h l : (∀ x, x ∈ l → word m' x = word m x) → llist m h l → llist m' h l.
Proof.
  revert h. induction l as [|a l IH]; intros h Hx; simpl; [done|]. intros (-> & Ha & Hl). split_and!; [done|done|].
  rewrite Hx by set_solver. apply IH; [|done]. intros x Hin. apply Hx. set_solver.
Qed.

(** Taking the node after [p] out of the list. *)
Lemma llist_unlink m h l1 p b l2 :
  NoDup (l1 ++ p :: b :: l2) → llist m h (l1 ++ p :: b :: l2) → llist (<[p := word m b]> m) h (l1 ++ p :: l2).
Proof.
  revert h. induction l1 as [|a l1 IH]; intros h; simpl.
  - intros [Hp Hnd]%NoDup_cons (-> & Hp0 & _ & _ & Hl). split_and!; [done|done|].
    rewrite word_insert, decide_True by done. apply (llist_frame m); [|done].
    intros x Hx. rewrite word_insert, decide_False; [done|]. set_solver.
  - intros [Ha Hnd]%NoDup_cons (-> & Ha0 & Hl). split_and!; [done|done|].
    rewrite word_insert, decide_False by set_solver. by apply IH.
Qed.

(** The free blocks: [Ls] holds the list of every class. *)
Definition frees (Ls : list (list Z)) : list block := concat (imap (λ k l, pair k <$> l) Ls).

Lemma frees_app Ls1 Ls2 :
  frees (Ls1 ++ Ls2) = frees Ls1 ++ concat (imap (λ k l, pair (length Ls1 + k)%nat <$> l) Ls2).
Proof. unfold frees. by rewrite imap_app, concat_app. Qed.

(** The free blocks of class [k] and the others. *)
Lemma frees_split Ls k l :
  Ls !! k = Some l →
  ∃ rest, frees Ls ≡ₚ (pair k <$> l) ++ rest ∧ ∀ l', frees (<[k := l']> Ls) ≡ₚ (pair k <$> l') ++ rest.
Proof.
  intros Hk. pose proof (lookup_lt_Some _ _ _ Hk) as Hlt.
  exists (frees (take k Ls) ++ concat (imap (λ i l, pair (k + S i)%nat <$> l) (drop (S k) Ls))).
  assert (∀ l', frees (take k Ls ++ l' :: drop (S k) Ls) ≡ₚ
    (pair k <$> l') ++ frees (take k Ls) ++ concat (imap (λ i l, pair (k + S i)%nat <$> l) (drop (S k) Ls))) as Hgen.
  { intros l'. rewrite frees_app. cbn [imap concat]. rewrite length_take, Nat.min_l, Nat.add_0_r by lia.
    rewrite (assoc_L app), (Permutation_app_comm (frees _)), <- (assoc_L app). done. }
  split.
  - rewrite <- (take_drop_middle Ls k l Hk) at 1. apply Hgen.
  - intros l'. rewrite insert_take_drop by done. apply Hgen.
Qed.

Lemma elem_of_frees Ls k a : (k, a) ∈ frees Ls ↔ ∃ l, Ls !! k = Some l ∧ a ∈ l.
Proof.
  unfold frees. rewrite elem_of_concat. split.
  - intros (l & Hl & (i & x & -> & Hx)%elem_of_lookup_imap). apply list_elem_of_fmap in Hl as (y & [= -> ->] & Hy). eauto.
  - intros (l & Hl & Ha). exists (pair k <$> l). split; [by apply list_elem_of_fmap_2|].
    apply list_elem_of_lookup. exists k. by rewrite list_lookup_imap, Hl.
Qed.

(** An address is in one list only. *)
Lemma frees_class Ls i j li lj x :
  NoDup (frees Ls).*2 → Ls !! i = Some li → Ls !! j = Some lj → x ∈ li → x ∈ lj → i = j.
Proof.
  intros Hnd Hi Hj Hxi Hxj. destruct (decide (i = j)) as [|Hne]; [done|]. exfalso.
  destruct (frees_split Ls i li Hi) as (rest & Hp & _). rewrite Hp, fmap_app in Hnd.
  apply NoDup_app in Hnd as (_ & Hd & _). apply (Hd x).
  - rewrite <- list_fmap_compose. by apply list_elem_of_fmap; exists x.
  - assert ((j, x) ∈ frees Ls) as Hin by (apply elem_of_frees; eauto). rewrite Hp in Hin.
    apply elem_of_app in Hin as [(? & [= -> _] & _)%list_elem_of_fmap|Hin]; [done|].
    change x with (j, x).2. by apply list_elem_of_fmap_2.
Qed.

Lemma frees_list_NoDup Ls i l : NoDup (frees Ls).*2 → Ls !! i = Some l → NoDup l.
Proof.
  intros Hnd Hi. destruct (frees_split Ls i l Hi) as (rest & Hp & _). rewrite Hp, fmap_app in Hnd.
  apply NoDup_app in Hnd as (Hnd & _ & _). rewrite <- list_fmap_compose in Hnd.
  replace (compose snd (pair i) <$> l) with l in Hnd; [done|]. symmetry. by apply list_fmap_id.
Qed.

Definition rep (s : heap_state) (Ls : list (list Z)) : Prop := Forall2 (llist (hs_mem s)) (free_list (hs_heap s)) Ls.
Definition stats (s : heap_state) : Z * Z * Z := (h_user (hs_heap s), h_allocated (hs_heap s), h_total (hs_heap s)).

Lemma rep_lookup s Ls k l :
  rep s Ls → Ls !! k = Some l → ∃ h, free_list (hs_heap s) !! k = Some h ∧ llist (hs_mem s) h l.
Proof. intros Hr Hl. destruct (Forall2_lookup_r _ _ _ _ _ Hr Hl) as (h & Hh & Hll). eauto. Qed.

Lemma rep_update m heads Ls m' k h' l' :
  Forall2 (llist m) heads Ls → (∀ i l x, i ≠ k → Ls !! i = Some l → x ∈ l → word m' x = word m x) →
  llist m' h' l' → Forall2 (llist m') (<[k := h']> heads) (<[k := l']> Ls).
Proof.
  intros Hr Hx Hl. apply Forall2_same_length_lookup. rewrite !length_insert. split; [by eapply Forall2_length|].
  intros i h l Hh Hi. destruct (decide (i = k)) as [->|Hne].
  - apply list_lookup_insert_Some in Hh as [(_ & -> & _)|[? _]]; [|done]. apply list_lookup_insert_Some in Hi as [(_ & -> & _)|[? _]]; done.
  - rewrite list_lookup_insert_ne in Hh by done. rewrite list_lookup_insert_ne in Hi by done. apply (llist_frame m); [intros x Hin; by eapply (Hx i)|]. by eapply Forall2_lookup_lr.
Qed.

Lemma get_head_ok s k h : free_list (hs_heap s) !! k = Some h → get_head k s = Done (h, s).
Proof. intros Hh. unfold get_head. erewrite bind_step by reflexivity. by rewrite Hh. Qed.

Lemma set_head_ok s k h v :
  free_list (hs_heap s) !! k = Some h →
  set_head k v s = Done (tt, mkHS (hs_mem s) (mkHeap (<[k := v]> (free_list (hs_heap s))) (h_user (hs_heap s))
                                     (h_allocated (hs_heap s)) (h_total (hs_heap s)))).
Proof. intros Hh. unfold set_head. rewrite (bind_step _ _ _ _ _ (get_head_ok _ _ _ Hh)). done. Qed.

Lemma list_push_ok s Ls k l a :
  rep s Ls → Ls !! k = Some l → a ≠ 0 → a ∉ (frees Ls).*2 →
  wp (LinkedList_push k a) s (λ _ s', rep s' (<[k := a :: l]> Ls) ∧ stats s' = stats s ∧
    ∀ x, x ≠ a → word (hs_mem s') x = word (hs_mem s) x).
Proof.
  intros Hr Hl Ha Hn. destruct (rep_lookup _ _ _ _ Hr Hl) as (h & Hh & Hll).
  assert (∀ i l x, Ls !! i = Some l → x ∈ l → word (<[a := h]> (hs_mem s)) x = word (hs_mem s) x) as Hx.
  { intros i l' x Hi Hin. rewrite word_insert, decide_False; [done|]. intros ->. apply Hn.
    apply list_elem_of_fmap. exists (i, a). split; [done|]. apply elem_of_frees. eauto. }
  unfold LinkedList_push. apply wp_bind. eapply wp_run; [by apply get_head_ok|]. apply wp_bind. eapply wp_run; [reflexivity|].
  eapply wp_run; [by eapply set_head_ok|]. split_and!; [|done|].
  - apply (rep_update (hs_mem s)); [done|intros; eapply Hx; eauto|]. simpl. split_and!; [done|done|].
    rewrite word_insert, decide_True by done. apply (llist_frame (hs_mem s)); [|done]. intros. by eapply Hx.
  - intros x Hxa. simpl. by rewrite word_insert, decide_False.
Qed.

Lemma pop_ok s Ls k a l :
  rep s Ls → Ls !! k = Some (a :: l) →
  wp (LinkedList_pop k) s (λ r s', r = Some a ∧ rep s' (<[k := l]> Ls) ∧ stats s' = stats s ∧ hs_mem s' = hs_mem s).
Proof.
  intros Hr Hl. destruct (rep_lookup _ _ _ _ Hr Hl) as (h & Hh & -> & Ha & Hll).
  unfold LinkedList_pop, LinkedList_is_empty. apply wp_bind, wp_bind. eapply wp_run; [by apply get_head_ok|].
  apply wp_ret. rewrite (proj2 (Z.eqb_neq _ _)) by done. apply wp_bind. eapply wp_run; [by apply get_head_ok|].
  apply wp_bind. eapply wp_run; [reflexivity|]. apply wp_bind. eapply wp_run; [by eapply set_head_ok|]. apply wp_ret.
  split_and!; [done| |done|done]. by apply (rep_update (hs_mem s)).
Qed.

Lemma is_empty_ok s Ls k l :
  rep s Ls → Ls !! k = Some l → LinkedList_is_empty k s = Done (bool_decide (l = []), s).
Proof.
  intros Hr Hl. destruct (rep_lookup _ _ _ _ Hr Hl) as (h & Hh & Hll). unfold LinkedList_is_empty.
  rewrite (bind_step _ _ _ _ _ (get_head_ok _ _ _ Hh)). destruct l as [|a l]; simpl in Hll.
  - by subst h.
  - destruct Hll as (-> & Ha & _). by rewrite (proj2 (Z.eqb_neq _ _)).
Qed.

(** The search takes the buddy out of the list if it is there. *)
Lemma find_loop s Ls k l1 l2 curr b fuel :
  rep s Ls → NoDup (frees Ls).*2 → Ls !! k = Some (l1 ++ l2) → llist (hs_mem s) curr l2 → (length l2 < fuel)%nat →
  wp (loop fuel (find_body k b) (mkNode (last l1) curr)) s (λ r s',
    if (r : bool) then ∃ la lb, l1 ++ l2 = la ++ b :: lb ∧ rep s' (<[k := la ++ lb]> Ls) ∧ stats s' = stats s ∧
                  ∀ x, x ∉ (frees Ls).*2 → word (hs_mem s') x = word (hs_mem s) x
    else (b ∉ l2) ∧ s' = s).
Proof.
  intros Hr Hnd. revert l1 curr fuel. induction l2 as [|a l2 IH]; intros l1 curr fuel Hl Hll Hf; (destruct fuel as [|fuel]; [simpl in Hf; lia|]).
  { simpl in Hll. subst curr. apply wp_bind. eapply wp_run; [reflexivity|]. apply wp_ret. split; [apply not_elem_of_nil|done]. }
  destruct Hll as (-> & Ha & Hll). cbn [loop]. apply wp_bind. unfold find_body at 1, IterMut_next. cbn [node_curr].
  rewrite (proj2 (Z.eqb_neq _ _)) by done. apply wp_bind, wp_bind. eapply wp_run; [reflexivity|]. apply wp_ret. cbn [node_curr].
  destruct (rep_lookup _ _ _ _ Hr Hl) as (h & Hh & Hlist). destruct (Z.eqb_spec a b) as [->|Hne].
  - apply wp_bind. unfold ListNode_pop. apply wp_bind. eapply wp_run; [reflexivity|]. cbn [node_prev node_curr].
    pose proof (frees_list_NoDup _ _ _ Hnd Hl) as Hndl. destruct (last l1) as [p|] eqn:Elast.
    + apply last_Some in Elast as [l1' ->]. apply wp_bind. eapply wp_run; [reflexivity|]. apply wp_ret, wp_ret, wp_ret.
      assert (p ∈ (l1' ++ [p]) ++ b :: l2) as Hp by set_solver.
      exists (l1' ++ [p]), l2. split_and!; [done| |done|].
      * unfold rep; cbn [hs_mem hs_heap]. rewrite <- (list_insert_id (free_list (hs_heap s)) k h) by done. apply (rep_update (hs_mem s)); [done| |].
        -- intros i l x Hi Hli Hx. rewrite word_insert, decide_False; [done|]. intros ->. apply Hi. by apply (frees_class Ls i k l _ p Hnd Hli Hl).
        -- rewrite <- !(assoc_L app) in *. by apply llist_unlink.
      * intros x Hx. simpl. rewrite word_insert, decide_False; [done|]. intros ->. apply Hx.
        apply list_elem_of_fmap. exists (k, p). split; [done|]. apply elem_of_frees. eauto.
    + apply last_None in Elast as ->. apply wp_bind. eapply wp_run; [by eapply set_head_ok|]. apply wp_ret, wp_ret, wp_ret.
      exists [], l2. split_and!; [done| |done|done]. by apply (rep_update (hs_mem s)).
  - apply wp_ret. replace (Some a) with (last (l1 ++ [a])) by apply last_snoc.
    apply (wp_conseq _ _ _ _ (IH (l1 ++ [a]) (word (hs_mem s) a) fuel ltac:(by rewrite <- (assoc_L app)) Hll ltac:(simpl in Hf; lia))).
    intros [] s'; [by rewrite <- (assoc_L app)|]. intros [Hn ->]. split; [|done]. set_solver.
Qed.

Lemma find_buddy_ok s Ls k l b :
  rep s Ls → NoDup (frees Ls).*2 → Ls !! k = Some l → Z.of_nat (length l) ≤ h_total (hs_heap s) / 8 →
  wp (find_buddy k b) s (λ r s',
    if (r : bool) then ∃ la lb, l = la ++ b :: lb ∧ rep s' (<[k := la ++ lb]> Ls) ∧ stats s' = stats s ∧
                  ∀ x, x ∉ (frees Ls).*2 → word (hs_mem s') x = word (hs_mem s) x
    else (b ∉ l) ∧ s' = s).
Proof.
  intros Hr Hnd Hl Hlen. destruct (rep_lookup _ _ _ _ Hr Hl) as (h & Hh & Hll). unfold find_buddy.
  apply wp_bind. eapply wp_run; [reflexivity|]. apply wp_bind. unfold iter_mut. apply wp_bind.
  eapply wp_run; [by apply get_head_ok|]. apply wp_ret. by apply (find_loop s Ls k [] l h); [| | | |lia].
Qed.

(** ** Splitting and merging *)

(** The lists hold the blocks [bs]. *)
Record holds (s : heap_state) (Ls : list (list Z)) (bs : list block) : Prop := {
  ho_rep : rep s Ls;
  ho_len : length Ls = 32%nat;
  ho_frees : frees Ls ≡ₚ bs;
}.

Lemma push_free s Ls bs k a :
  holds s Ls bs → (k < 32)%nat → a ≠ 0 → a ∉ bs.*2 →
  wp (LinkedList_push k a) s (λ _ s', stats s' = stats s ∧ (∀ x, x ≠ a → word (hs_mem s') x = word (hs_mem s) x) ∧
    ∃ Ls' l, holds s' Ls' ((k, a) :: bs) ∧ Ls' !! k = Some (a :: l)).
Proof.
  intros [Hr Hlen Hf] Hk Ha Hn. destruct (lookup_lt_is_Some_2 Ls k ltac:(lia)) as [l Hl].
  apply (wp_conseq _ _ _ _ (list_push_ok s Ls k l a Hr Hl Ha ltac:(by rewrite Hf))). intros _ s' (Hr' & Es & Em).
  destruct (frees_split Ls k l Hl) as (rest & Hp & Hu). split_and!; [done|done|]. exists (<[k := a :: l]> Ls), l. split.
  - constructor; [done|by rewrite length_insert|]. rewrite Hu. cbn. by rewrite <- Hf, Hp.
  - apply list_lookup_insert_eq. lia.
Qed.

Lemma pop_free s Ls bs k a l :
  holds s Ls ((k, a) :: bs) → Ls !! k = Some (a :: l) →
  wp (LinkedList_pop k) s (λ r s', r = Some a ∧ stats s' = stats s ∧ hs_mem s' = hs_mem s ∧ holds s' (<[k := l]> Ls) bs).
Proof.
  intros [Hr Hlen Hf] Hl. apply (wp_conseq _ _ _ _ (pop_ok s Ls k a l Hr Hl)). intros r s' (-> & Hr' & Es & Em).
  destruct (frees_split Ls k _ Hl) as (rest & Hp & Hu). split_and!; [done|done|done|].
  constructor; [done|by rewrite length_insert|]. rewrite Hu. rewrite Hf in Hp. cbn in Hp. by apply Permutation_cons_inv in Hp.
Qed.

Lemma find_free s Ls bs k p l b :
  holds s Ls bs → NoDup bs.*2 → Ls !! k = Some (p :: l) → p ≠ b → Z.of_nat (length bs) ≤ h_total (hs_heap s) / 8 →
  wp (find_buddy k b) s (λ r s',
    if (r : bool) then stats s' = stats s ∧ (∀ x, x ∉ bs.*2 → word (hs_mem s') x = word (hs_mem s) x) ∧
      ∃ Ls' l' bs', bs ≡ₚ (k, b) :: (k, p) :: bs' ∧ holds s' Ls' ((k, p) :: bs') ∧ Ls' !! k = Some (p :: l')
    else ((k, b) ∉ bs) ∧ s' = s).
Proof.
  intros [Hr Hlen Hf] Hnd Hl Hne Hb. destruct (frees_split Ls k _ Hl) as (rest & Hp & Hu).
  assert (length (p :: l) ≤ length bs)%nat as Hle by (rewrite <- Hf, Hp, length_app, length_fmap; lia).
  apply (wp_conseq _ _ _ _ (find_buddy_ok s Ls k _ b Hr ltac:(by rewrite Hf) Hl ltac:(lia))). intros [] s'.
  - intros (la & lb & E & Hr' & Es & Em). destruct la as [|p' la]; [by injection E|]. injection E as <- ->. split_and!; [done|intros x Hx; apply Em; by rewrite Hf|].
    exists (<[k := p :: la ++ lb]> Ls), (la ++ lb), ((pair k <$> la ++ lb) ++ rest). split_and!.
    + rewrite <- Hf, Hp. cbn. rewrite !fmap_app. cbn. rewrite <- Permutation_middle. apply Permutation_swap.
    + constructor; [done|by rewrite length_insert|]. by rewrite Hu.
    + apply list_lookup_insert_eq. by eapply lookup_lt_Some.
  - intros [Hn ->]. split; [|done]. rewrite <- Hf, elem_of_frees. intros (l' & Hl' & Hin). congruence.
Qed.

(** The heap while one free block, the first of its list, is worked on: [b] is
    this block, [rest] the other free blocks and [L] the blocks handed out. *)
Record working (lo hi : Z) (Ls : list (list Z)) (b : block) (rest L : list block) (s : heap_state) : Prop := {
  wk_holds : holds s Ls (b :: rest);
  wk_head : ∃ l, Ls !! b.1 = Some (b.2 :: l);
  wk_tiles : tiles lo hi (b :: rest ++ L);
  wk_coalesced : coalesced rest;
}.

(** The words in the blocks handed out do not change. *)
Definition kept (L : list block) (s s' : heap_state) : Prop :=
  ∀ x, x ∈ concat (block_bytes <$> L) → word (hs_mem s') x = word (hs_mem s) x.

Lemma kept_trans L s1 s2 s3 : kept L s1 s2 → kept L s2 s3 → kept L s1 s3.
Proof. intros H12 H23 x Hx. by rewrite H23, H12. Qed.

Lemma coalesced_cons k a bs : coalesced bs → (k, buddy k a) ∉ bs → coalesced ((k, a) :: bs).
Proof.
  intros Hc Hn j x [[= -> ->]|Hx]%elem_of_cons [Hin|Hin]%elem_of_cons.
  - injection Hin. apply buddy_ne.
  - done.
  - injection Hin as -> E. apply Hn. by rewrite <- E, buddy_invol.
  - by apply (Hc j x).
Qed.

Lemma coalesced_tail b bs : coalesced (b :: bs) → coalesced bs.
Proof. intros Hc k a Ha Hb. apply (Hc k a); set_solver. Qed.

Lemma buddy_upper k a : a mod size_of (S k) = 0 → a mod size_of k = 0 → buddy k (a + size_of k) = a.
Proof.
  intros Ha Hk. pose proof (size_of_pos k). destruct (buddy_cases k a Hk) as [[<- _]|[_ Hm]]; [apply buddy_invol|]. exfalso.
  rewrite size_of_S in *. apply Z.mod_divide in Ha as [q ->]; [|lia]. apply Z.mod_divide in Hm as [r Hr]; [|lia].
  assert (size_of k * (2 * (q - r) - 1) = 0) as Hz by lia. apply Z.mul_eq_0 in Hz. lia.
Qed.

Section work.
Context (lo hi : Z) (L : list block).

(** A byte of a free block is in no block handed out. *)
Lemma free_not_live b bs x : tiles lo hi (b :: bs ++ L) → x ∈ block_bytes b → x ∉ concat (block_bytes <$> L).
Proof.
  intros Ht Hx Hin. apply elem_of_concat in Hin as (l & Hl & (c & -> & Hc)%list_elem_of_fmap).
  refine (tiles_rest lo hi b (bs ++ L) c x Ht _ Hx Hl). set_solver.
Qed.

Lemma tiles_frees bs : tiles lo hi (bs ++ L) → NoDup bs.*2.
Proof.
  intros Ht. pose proof (tiles_addresses _ _ _ Ht) as Hnd. rewrite fmap_app in Hnd. by apply NoDup_app in Hnd as (? & _).
Qed.

(** A word that changed is the first one of a free block. *)
Lemma kept_frees bs s s' :
  tiles lo hi (bs ++ L) → (∀ x, x ∉ bs.*2 → word (hs_mem s') x = word (hs_mem s) x) → kept L s s'.
Proof.
  intros Ht Hx x Hin. apply Hx. intros (b & -> & Hb)%list_elem_of_fmap.
  apply elem_of_Permutation in Hb as [bs' Hb]. rewrite Hb in Ht. apply (free_not_live b bs' b.2 Ht); [|done].
  apply good_address. by apply ti_good, Forall_cons in Ht as [? _].
Qed.

Context (Hlo : 0 < lo) (Hhi : hi < 2 ^ 64) (Hsize : hi - lo < 2 ^ 32).

Lemma split_block_ok s Ls j a rest :
  working lo hi Ls (S j, a) rest L s → (3 ≤ j)%nat →
  wp (split_block (S j)) s (λ r s', r = inl tt ∧ stats s' = stats s ∧ kept L s s' ∧
    ∃ Ls', working lo hi Ls' (j, a) ((j, a + size_of j) :: rest) L s').
Proof.
  intros [Hh [l Hl] Ht Hc] Hj. cbn [fst snd] in Hl. pose proof (tiles_halves _ _ _ _ _ Ht Hj) as Ht2.
  pose proof (size_of_pos j) as Hp. pose proof (tiles_inside _ _ _ (S j, a) Ht ltac:(set_solver)) as Hin. cbn [fst snd] in Hin.
  rewrite size_of_S in Hin. pose proof (tiles_frees ((j, a) :: (j, a + size_of j) :: rest) Ht2) as Hnd. cbn in Hnd.
  apply NoDup_cons in Hnd as [Hna Hnd]. apply NoDup_cons in Hnd as [Hnb Hnd].
  pose proof (ti_good _ _ _ Ht) as [(Hk & _ & Hal) _]%Forall_cons. cbn [fst snd] in *.
  pose proof (ti_good _ _ _ Ht2) as [(_ & _ & Hal2) _]%Forall_cons. cbn [fst snd] in *.
  unfold split_block. apply (wp_step _ _ _ _ _ (pop_free s Ls rest (S j) a l Hh Hl)). intros ? s1 (-> & Es1 & Em1 & Hh1).
  replace (S j - 1)%nat with j by lia. fold (size_of j). rewrite wadd_small by (unfold fits; lia).
  apply (wp_step _ _ _ _ _ (push_free s1 _ _ j (a + size_of j) Hh1 ltac:(lia) ltac:(lia) Hnb)).
  intros _ s2 (Es2 & Em2 & Ls2 & l2 & Hh2 & _).
  apply (wp_step _ _ _ _ _ (push_free s2 _ _ j a Hh2 ltac:(lia) ltac:(lia) Hna)).
  intros _ s3 (Es3 & Em3 & Ls3 & l3 & Hh3 & Hl3). apply wp_ret. split_and!; [done|by rewrite Es3, Es2, Es1| |].
  - apply (kept_frees ((j, a) :: (j, a + size_of j) :: rest)); [done|]. intros x Hx. cbn in Hx.
    rewrite Em3, Em2, Em1 by set_solver. done.
  - exists Ls3. constructor; [done|by exists l3|done|]. apply coalesced_cons; [done|]. rewrite buddy_upper by done.
    intros Hin'. apply Hna, elem_of_cons. right. change a with (j, a).2. by apply list_elem_of_fmap_2.
Qed.

(** The blocks of the classes above [class] are split down to it. *)
Lemma split_blocks_ok n : ∀ s Ls class a rest,
  working lo hi Ls ((class + n)%nat, a) rest L s → (3 ≤ class)%nat →
  wp (for_brk (rev (seq (class + 1) n)) tt (λ _ j, split_block j)) s (λ r s', r = inl tt ∧ stats s' = stats s ∧ kept L s s' ∧
    ∃ Ls' rest', working lo hi Ls' (class, a) rest' L s').
Proof.
  induction n as [|n IH]; intros s Ls class a rest Hw Hc.
  - apply wp_ret. rewrite Nat.add_0_r in Hw. split_and!; [done|done|done|]. by exists Ls, rest.
  - rewrite seq_S, rev_app_distr. cbn [rev app for_brk].
    replace (class + 1 + n)%nat with (S (class + n)) by lia. replace (class + S n)%nat with (S (class + n)) in Hw by lia.
    apply (wp_step _ _ _ _ _ (split_block_ok s Ls (class + n) a rest Hw ltac:(lia))). intros ? s1 (-> & Es1 & Hk1 & Ls1 & Hw1).
    apply (wp_conseq _ _ _ _ (IH s1 Ls1 class a _ Hw1 Hc)). intros r s' (-> & Es & Hk & Hw'). split_and!; [done|by rewrite Es|by eapply kept_trans|done].
Qed.

(** One turn of the merging. *)
Lemma merge_body_ok s Ls k p rest :
  working lo hi Ls (k, p) rest L s → h_total (hs_heap s) = hi - lo →
  wp (merge_body (p, k)) s (λ r s', stats s' = stats s ∧ kept L s s' ∧
    match r with
    | inl (p', k') => k' = S k ∧ ∃ Ls' rest', working lo hi Ls' (k', p') rest' L s'
    | inr _ => s' = s ∧ coalesced ((k, p) :: rest)
    end).
Proof.
  intros [Hh [l Hl] Ht Hc] Htot. cbn [fst snd] in Hl. fold (size_of k) (buddy k p).
  pose proof (tiles_frees ((k, p) :: rest) Ht) as Hnd. pose proof (tiles_inside _ _ _ (k, p) Ht ltac:(set_solver)) as Hin.
  pose proof (size_of_pos k) as Hsp. cbn [fst snd] in Hin. pose proof (tiles_count lo hi _ ltac:(lia) Ht) as Hcnt.
  cbn [length] in Hcnt. rewrite length_app in Hcnt.
  assert (length (free_list (hs_heap s)) = 32%nat) as Hlen by (rewrite (Forall2_length _ _ _ (ho_rep _ _ _ Hh)); apply Hh).
  pose proof (ti_good _ _ _ Ht) as [(Hk & Hp0 & _) _]%Forall_cons. cbn [fst snd] in *.
  unfold merge_body. apply wp_bind. eapply wp_run; [reflexivity|]. cbv beta. rewrite Hlen, (proj2 (Nat.ltb_lt _ _)) by lia.
  fold (size_of k) (buddy k p).
  apply (wp_step _ _ _ _ _ (find_free s Ls _ k p l (buddy k p) Hh Hnd Hl ltac:(intros E; by apply (buddy_ne k p)) ltac:(rewrite Htot; cbn [length]; lia))).
  intros [] s1.
  2:{ intros [Hn ->]. apply wp_ret. split_and!; [done|done|done|]. apply coalesced_cons; [done|]. set_solver. }
  intros (Es1 & Em1 & Ls1 & l1 & bs1 & Hp1 & Hh1 & Hl1).
  assert (rest ≡ₚ (k, buddy k p) :: bs1) as Hrest by (rewrite (Permutation_swap (k, p)) in Hp1; by apply Permutation_cons_inv in Hp1).
  rewrite Hrest in Ht. destruct (tiles_pair _ _ _ _ _ Ht Hsize) as [Hk' Ht'].
  pose proof (tiles_frees ((S k, Z.min p (buddy k p)) :: bs1) Ht') as Hnd'. cbn in Hnd'. apply NoDup_cons in Hnd' as [Hn' _].
  pose proof (ti_good _ _ _ Ht') as [(_ & Hm0 & _) _]%Forall_cons. cbn [fst snd] in Hm0.
  apply (wp_step _ _ _ _ _ (pop_free s1 Ls1 bs1 k p l1 Hh1 Hl1)). intros ? s2 (_ & Es2 & Em2 & Hh2).
  replace (k + 1)%nat with (S k) by lia.
  apply (wp_step _ _ _ _ _ (push_free s2 _ _ (S k) (Z.min p (buddy k p)) Hh2 Hk' ltac:(lia) Hn')).
  intros _ s3 (Es3 & Em3 & Ls3 & l3 & Hh3 & Hl3). apply wp_ret. split_and!; [by rewrite Es3, Es2, Es1| |done|].
  - apply (kept_frees ((k, p) :: (k, buddy k p) :: bs1)); [done|]. intros x Hx. cbn in Hx.
    assert (x ≠ Z.min p (buddy k p)) as Hxm by (destruct (Z.min_spec p (buddy k p)) as [[_ ->]|[_ ->]]; set_solver).
    rewrite Em3, Em2, Em1; [done| |done]. rewrite Hp1. set_solver.
  - exists Ls3, bs1. constructor; [done|by exists l3|done|]. rewrite Hrest in Hc. by apply coalesced_tail in Hc.
Qed.

(** The merging ends, and leaves no two buddies free. *)
Lemma merge_ok n : ∀ s Ls k p rest,
  working lo hi Ls (k, p) rest L s → h_total (hs_heap s) = hi - lo → (32 - k ≤ n)%nat →
  wp (loop (S n) merge_body (p, k)) s (λ _ s', stats s' = stats s ∧ kept L s s' ∧
    ∃ Ls' bs, holds s' Ls' bs ∧ tiles lo hi (bs ++ L) ∧ coalesced bs).
Proof.
  induction n as [|n IH]; intros s Ls k p rest Hw Htot Hn; cbn [loop];
    apply (wp_step _ _ _ _ _ (merge_body_ok s Ls k p rest Hw Htot)); intros [[p' k']|[]] s1 (Es1 & Hk1 & Hr).
  - exfalso. pose proof (ti_good _ _ _ (wk_tiles _ _ _ _ _ _ _ Hw)) as [([? ?] & _) _]%Forall_cons. cbn [fst snd] in *. lia.
  - apply wp_ret. destruct Hr as [-> Hc]. split_and!; [done|done|]. exists Ls, ((k, p) :: rest). split_and!; [apply Hw|apply Hw|done].
  - destruct Hr as (-> & Ls1 & rest1 & Hw1). assert (h_total (hs_heap s1) = hi - lo) as Htot1 by (unfold stats in Es1; congruence).
    apply (wp_conseq _ _ _ _ (IH s1 Ls1 (S k) p' rest1 Hw1 Htot1 ltac:(lia))). intros _ s' (Es & Hk & Hx).
    split_and!; [by rewrite Es|by eapply kept_trans|done].
  - apply wp_ret. destruct Hr as [-> Hc]. split_and!; [done|done|]. exists Ls, ((k, p) :: rest). split_and!; [apply Hw|apply Hw|done].
Qed.
End work.

(** ** Requests *)

(** A request that Rust's [Layout] admits. *)
Definition layout_ok (ly : Layout) : Prop :=
  0 ≤ layout_size ly < 2 ^ 63 ∧ ∃ n, 0 ≤ n < 64 ∧ layout_align ly = 2 ^ n.

Lemma trailing_zeros_pow2 n : 0 ≤ n → trailing_zeros (2 ^ n) = n.
Proof.
  revert n. apply natlike_ind; [done|]. intros n Hn IH. rewrite Z.pow_succ_r by done.
  destruct (2 ^ n) as [|p|p] eqn:E; [pose proof (Z.pow_pos_nonneg 2 n ltac:(lia) Hn); lia| |pose proof (Z.pow_pos_nonneg 2 n ltac:(lia) Hn); lia].
  change (1 + trailing_zeros (Z.pos p) = Z.succ n). rewrite IH. lia.
Qed.

Lemma pow2_max x y : 0 ≤ x → 0 ≤ y → Z.max (2 ^ x) (2 ^ y) = 2 ^ Z.max x y.
Proof.
  intros Hx Hy. destruct (Z.max_spec x y) as [[? ->]|[? ->]].
  - pose proof (Z.pow_le_mono_r 2 x y). lia.
  - pose proof (Z.pow_le_mono_r 2 y x). lia.
Qed.

Lemma block_size_ok ly :
  layout_ok ly →
  block_size ly = size_of (block_class ly) ∧ (3 ≤ block_class ly)%nat ∧ layout_size ly ≤ block_size ly ∧
  (layout_align ly | block_size ly).
Proof.
  intros ([Hs0 Hs] & n & Hn & Ha). pose proof (Z.log2_up_nonneg (layout_size ly)) as Hl.
  set (k := Z.max (Z.log2_up (layout_size ly)) (Z.max n 3)).
  assert (block_size ly = 2 ^ k) as Hb.
  { unfold block_size, next_power_of_two. rewrite Ha. change 8 with (2 ^ 3). by rewrite !pow2_max by lia. }
  assert (block_class ly = Z.to_nat k) as Hc by (unfold block_class; rewrite Hb, trailing_zeros_pow2 by lia; done).
  split_and!.
  - unfold size_of. rewrite Hb, Hc, Z2Nat.id by lia. done.
  - lia.
  - rewrite Hb. destruct (decide (layout_size ly ≤ 1)) as [|Hgt]; [pose proof (Z.pow_pos_nonneg 2 k); lia|].
    pose proof (Z.log2_up_spec (layout_size ly) ltac:(lia)). pose proof (Z.pow_le_mono_r 2 (Z.log2_up (layout_size ly)) k ltac:(lia) ltac:(lia)). lia.
  - rewrite Hb, Ha. exists (2 ^ (k - n)). rewrite <- Z.pow_add_r by lia. f_equal. lia.
Qed.

Fixpoint sumZ (l : list Z) : Z := match l with [] => 0 | x :: l => x + sumZ l end.
#[global] Instance sum_perm : Proper ((≡ₚ) ==> (=)) sumZ.
Proof. intros l l' Hp. induction Hp; simpl; lia. Qed.
Lemma sum_app l l' : sumZ (l ++ l') = sumZ l + sumZ l'.
Proof. induction l as [|x l IH]; simpl; [done|]. rewrite IH. lia. Qed.

Lemma tiles_sum lo hi bs : lo ≤ hi → tiles lo hi bs → sumZ ((λ b, size_of b.1) <$> bs) = hi - lo.
Proof.
  intros Hle [Hb _]. apply Permutation_length in Hb. rewrite length_zrange in Hb.
  assert (Z.of_nat (length (concat (block_bytes <$> bs))) = sumZ ((λ b, size_of b.1) <$> bs)) as <-; [|lia]. clear Hb.
  induction bs as [|b bs IH]; [done|]. rewrite !fmap_cons. cbn [concat sumZ]. rewrite length_app. unfold block_bytes at 1.
  rewrite length_zrange. pose proof (size_of_pos b.1). lia.
Qed.

(** ** The heap between calls *)

(** The blocks handed out: the requests with the addresses that were given. *)
Definition live (A : list (Layout * Z)) : list block := (λ x, (block_class x.1, x.2)) <$> A.

Record heap_inv (lo hi : Z) (bs : list block) (A : list (Layout * Z)) (s : heap_state) : Prop := {
  hv_lists : ∃ Ls, holds s Ls bs;
  hv_tiles : tiles lo hi (bs ++ live A);
  hv_coalesced : coalesced bs;
  hv_layouts : Forall (λ x, layout_ok x.1) A;
  hv_user : h_user (hs_heap s) = sumZ ((λ x, layout_size x.1) <$> A);
  hv_allocated : h_allocated (hs_heap s) = sumZ ((λ x, block_size x.1) <$> A);
  hv_total : h_total (hs_heap s) = hi - lo;
}.

Lemma heap_inv_perm lo hi bs A A' s : A ≡ₚ A' → heap_inv lo hi bs A s → heap_inv lo hi bs A' s.
Proof.
  intros Hp [Hl Ht Hc Hy Hu Ha Htot]. constructor; try done.
  - unfold live. by rewrite <- Hp.
  - by rewrite <- Hp.
  - by rewrite <- Hp.
  - by rewrite <- Hp.
Qed.

Section heap.
Context (lo hi : Z) (Hlo : 0 < lo) (Hle : lo ≤ hi) (Hhi : hi < 2 ^ 64) (Hsize : hi - lo < 2 ^ 32).

(** The statistics are sums of block sizes that fit in the heap. *)
Lemma live_sums bs A :
  tiles lo hi (bs ++ live A) → Forall (λ x, layout_ok x.1) A →
  0 ≤ sumZ ((λ x, layout_size x.1) <$> A) ≤ sumZ ((λ x, block_size x.1) <$> A) ∧ sumZ ((λ x, block_size x.1) <$> A) ≤ hi - lo.
Proof.
  intros Ht Hy. pose proof (tiles_sum _ _ _ Hle Ht) as Hs. rewrite fmap_app, sum_app in Hs.
  assert (0 ≤ sumZ ((λ b : block, size_of b.1) <$> bs)) as Hb.
  { clear. induction bs as [|b bs IH]; [done|]. rewrite fmap_cons. cbn [sumZ]. pose proof (size_of_pos b.1). lia. }
  assert (sumZ ((λ b : block, size_of b.1) <$> live A) = sumZ ((λ x, block_size x.1) <$> A)) as E.
  { clear - Hy. unfold live. induction Hy as [|x A Hx Hy IH]; [done|]. rewrite !fmap_cons. cbn [sumZ fst snd]. rewrite IH.
    by pose proof (block_size_ok _ Hx) as (-> & _). }
  split; [|lia]. clear - Hy. induction Hy as [|x A Hx Hy IH]; [simpl; lia|]. rewrite !fmap_cons. cbn [sumZ].
  pose proof (block_size_ok _ Hx) as (_ & _ & ? & _). destruct Hx as [? _]. lia.
Qed.

Lemma alloc_class_ok s Ls bs A ly i a l :
  heap_inv lo hi bs A s → layout_ok ly → holds s Ls bs → Ls !! i = Some (a :: l) → (block_class ly ≤ i)%nat →
  wp (alloc_class ly i) s (λ r s', r = inr (Some a) ∧ kept (live A) s s' ∧ ∃ bs', heap_inv lo hi bs' ((ly, a) :: A) s').
Proof.
  intros [_ Ht Hc Hy Hu Ha Htot] Hly Hh Hl Hi. pose proof (block_size_ok _ Hly) as (Hbs & H3 & _).
  unfold alloc_class. apply wp_bind. eapply wp_run; [by eapply is_empty_ok; [apply Hh|]|]. rewrite bool_decide_eq_false_2 by done.
  assert ((i, a) ∈ bs) as [rest Hr]%elem_of_Permutation by (rewrite <- (ho_frees _ _ _ Hh); apply elem_of_frees; exists (a :: l); set_solver).
  assert (working lo hi Ls ((block_class ly + (i - block_class ly))%nat, a) rest (live A) s) as Hw.
  { replace (block_class ly + (i - block_class ly))%nat with i by lia. constructor.
    - destruct Hh as [? ? Hf]. constructor; [done|done|by rewrite Hf].
    - by exists l.
    - by rewrite Hr in Ht.
    - rewrite Hr in Hc. by apply coalesced_tail in Hc. }
  apply (wp_step _ _ _ _ _ (split_blocks_ok lo hi (live A) Hlo Hhi Hsize _ s Ls _ a rest Hw H3)).
  intros ? s1 (-> & Es1 & Hk1 & Ls1 & rest1 & [Hh1 [l1 Hl1] Ht1 Hc1]). cbn [fst snd] in Hl1.
  apply (wp_step _ _ _ _ _ (pop_free s1 Ls1 rest1 _ a l1 Hh1 Hl1)). intros ? s2 (-> & Es2 & Em2 & Hh2).
  apply wp_bind. apply wp_unwrap.
  pose proof (ti_good _ _ _ Ht1) as [(_ & Ha0 & _) _]%Forall_cons. cbn [fst snd] in Ha0. rewrite (proj2 (Z.eqb_neq _ _)) by lia.
  apply wp_bind. eapply wp_run; [reflexivity|]. apply wp_bind. eapply wp_run; [reflexivity|]. apply wp_ret.
  assert (tiles lo hi (rest1 ++ live ((ly, a) :: A))) as Ht2 by (cbn; by rewrite <- Permutation_middle).
  pose proof (live_sums _ _ Ht2 ltac:(by constructor)) as Hsum. rewrite !fmap_cons in Hsum. cbn [sumZ fst] in Hsum. rewrite <- Hu, <- Ha in Hsum.
  assert (stats s2 = stats s) as Es by congruence. unfold stats in Es. injection Es as Eu Ea Et.
  split_and!; [done|intros x Hx; simpl; rewrite Em2; by apply Hk1|]. exists rest1. constructor; cbn [hs_heap h_user h_allocated h_total].
  - eexists. destruct Hh2. by constructor.
  - done.
  - done.
  - by constructor.
  - rewrite wadd_small, fmap_cons by (unfold fits; lia). cbn [sumZ fst]. lia.
  - rewrite wadd_small, fmap_cons by (unfold fits; lia). cbn [sumZ fst]. lia.
  - congruence.
Qed.

Lemma class_scan s Ls bs A ly n : ∀ i,
  heap_inv lo hi bs A s → layout_ok ly → holds s Ls bs → (block_class ly ≤ i)%nat → (i + n = 32)%nat →
  wp (for_brk (seq i n) tt (λ _ i, alloc_class ly i)) s (λ r s',
    match r with
    | inl _ => s' = s ∧ ∀ b, b ∈ bs → (b.1 < i)%nat
    | inr None => False
    | inr (Some a) => (∃ b, b ∈ bs ∧ (block_class ly ≤ b.1)%nat) ∧ kept (live A) s s' ∧
        ∃ bs', heap_inv lo hi bs' ((ly, a) :: A) s'
    end).
Proof.
  induction n as [|n IH]; intros i Hv Hly Hh Hi Hn.
  - apply wp_ret. split; [done|]. intros b Hb. pose proof (ti_good _ _ _ (hv_tiles _ _ _ _ _ Hv)) as Hg.
    rewrite Forall_forall in Hg. destruct (Hg b ltac:(set_solver)) as [? _]. lia.
  - destruct (lookup_lt_is_Some_2 Ls i ltac:(rewrite (ho_len _ _ _ Hh); lia)) as [l Hl]. cbn [seq for_brk].
    destruct l as [|a l].
    + apply (wp_step _ _ _ (λ r s', r = inl tt ∧ s' = s)).
      * unfold alloc_class. apply wp_bind. eapply wp_run; [by eapply is_empty_ok; [apply Hh|]|]. by apply wp_ret.
      * intros ? ? [-> ->]. apply (wp_conseq _ _ _ _ (IH (S i) Hv Hly Hh ltac:(lia) ltac:(lia))). intros [_|r] s'; [|done].
        intros [-> Hb]. split; [done|]. intros b Hin. pose proof (Hb b Hin). destruct (decide (b.1 = i)) as [E|]; [|lia].
        destruct b as [k x]. cbn in E. subst k. rewrite <- (ho_frees _ _ _ Hh) in Hin. apply elem_of_frees in Hin as (l & Hl' & Hx).
        rewrite Hl in Hl'. injection Hl' as <-. by apply not_elem_of_nil in Hx.
    + apply (wp_step _ _ _ _ _ (alloc_class_ok s Ls bs A ly i a l Hv Hly Hh Hl Hi)). intros ? s' (-> & Hk & Hx). apply wp_ret. split; [|done].
      exists (i, a). split; [|done]. rewrite <- (ho_frees _ _ _ Hh). apply elem_of_frees. exists (a :: l). set_solver.
Qed.

Lemma alloc_ok s bs A ly :
  heap_inv lo hi bs A s → layout_ok ly →
  wp (alloc ly) s (λ r s',
    match r with
    | None => s' = s ∧ ∀ b, b ∈ bs → (b.1 < block_class ly)%nat
    | Some a => (∃ b, b ∈ bs ∧ (block_class ly ≤ b.1)%nat) ∧ kept (live A) s s' ∧ ∃ bs', heap_inv lo hi bs' ((ly, a) :: A) s'
    end).
Proof.
  intros Hv Hly. destruct (hv_lists _ _ _ _ _ Hv) as [Ls Hh]. unfold alloc. apply wp_bind. eapply wp_run; [reflexivity|].
  rewrite (Forall2_length _ _ _ (ho_rep _ _ _ Hh)), (ho_len _ _ _ Hh).
  destruct (decide (block_class ly ≤ 32)%nat) as [Hc|Hc].
  - apply (wp_step _ _ _ _ _ (class_scan s Ls bs A ly (32 - block_class ly) (block_class ly) Hv Hly Hh ltac:(lia) ltac:(lia))). intros [?|[a|]] s'; [|by intros; apply wp_ret|done].
    intros [-> Hb]. by apply wp_ret.
  - replace (32 - block_class ly)%nat with 0%nat by lia. apply wp_ret. split; [done|]. intros b Hb.
    pose proof (ti_good _ _ _ (hv_tiles _ _ _ _ _ Hv)) as Hg. rewrite Forall_forall in Hg. destruct (Hg b ltac:(set_solver)) as [? _]. lia.
Qed.

Lemma dealloc_ok s bs A ly a :
  heap_inv lo hi bs ((ly, a) :: A) s →
  wp (dealloc a ly) s (λ _ s', kept (live A) s s' ∧ ∃ bs', heap_inv lo hi bs' A s').
Proof.
  intros [[Ls Hh] Ht Hc Hy Hu Ha Htot]. pose proof Hy as [Hly Hy']%Forall_cons. pose proof (live_sums _ _ Ht Hy) as Hsum. cbn in Hsum.
  cbn in Hu, Ha. pose proof Ht as Ht'. cbn in Ht'. rewrite <- Permutation_middle in Ht'.
  pose proof (tiles_frees lo hi (live A) ((block_class ly, a) :: bs) Ht') as Hnd. cbn in Hnd. apply NoDup_cons in Hnd as [Hna _].
  pose proof (ti_good _ _ _ Ht') as [(Hk & Ha0 & _) _]%Forall_cons. cbn [fst snd] in *.
  unfold dealloc. apply (wp_step _ _ _ _ _ (push_free s Ls bs (block_class ly) a Hh ltac:(lia) ltac:(lia) Hna)).
  intros _ s1 (Es1 & Em1 & Ls1 & l1 & Hh1 & Hl1). unfold stats in Es1. injection Es1 as Eu1 Ea1 Et1.
  assert (working lo hi Ls1 (block_class ly, a) bs (live A) s1) as Hw by (constructor; [done|by exists l1|done|done]).
  apply (wp_step _ _ _ _ _ (merge_ok lo hi (live A) Hlo Hhi Hsize 32 s1 Ls1 _ a bs Hw ltac:(congruence) ltac:(lia))).
  intros _ s2 (Es2 & Hk2 & Ls2 & bs2 & Hh2 & Ht2 & Hc2). unfold stats in Es2. injection Es2 as Eu2 Ea2 Et2.
  apply wp_bind. eapply wp_run; [reflexivity|]. eapply wp_run; [reflexivity|].
  pose proof (live_sums _ _ Ht2 Hy') as Hsum'. split.
  - apply (kept_trans _ s s1); [|done]. apply (kept_frees lo hi (live A) ((block_class ly, a) :: bs)); [done|]. intros x Hx. apply Em1. set_solver.
  - exists bs2. constructor; cbn [hs_heap h_user h_allocated h_total].
    + eexists. destruct Hh2. by constructor.
    + done.
    + done.
    + done.
    + rewrite Eu2, Eu1, Hu, wsub_small by (unfold fits; lia). lia.
    + rewrite Ea2, Ea1, Ha, wsub_small by (unfold fits; lia). lia.
    + congruence.
Qed.

End heap.

(** ** Initialisation *)

Lemma align_down v : 0 ≤ v < 2 ^ 64 → Z.land v (wnot 64 8 ⊞ 1) = v / 8 * 8.
Proof.
  intros Hv. change (wnot 64 8 ⊞ 1) with (Z.shiftl (Z.ones 61) 3). change 8 with (2 ^ 3).
  rewrite <- Z.shiftr_div_pow2, <- Z.shiftl_mul_pow2 by lia. apply Z.bits_inj'. intros i Hi.
  rewrite Z.land_spec, !Z.shiftl_spec by lia. destruct (decide (i < 3)) as [|Hge].
  - rewrite !(Z.testbit_neg_r _ (i - 3)) by lia. apply andb_false_r.
  - rewrite Z.shiftr_spec by lia. replace (i - 3 + 3) with i by lia. destruct (decide (i < 64)).
    + rewrite Z.ones_spec_low by lia. apply andb_true_r.
    + rewrite <- (Z.mod_small v (2 ^ 64)) by lia. by rewrite Z.mod_pow2_bits_high by lia.
Qed.

Lemma trailing_zeros_spec v :
  0 < v → ∃ q, 0 ≤ q ∧ 0 ≤ trailing_zeros v ∧ v = 2 ^ trailing_zeros v * (2 * q + 1).
Proof.
  intros Hv. destruct v as [|p|p]; try lia. cbn [trailing_zeros]. clear Hv. induction p as [p _|p (q & Hq & Ht & E)|].
  - exists (Z.pos p). split_and!; [lia|simpl; lia|]. cbn [pos_trailing_zeros]. lia.
  - exists q. cbn [pos_trailing_zeros]. split_and!; [done|lia|]. rewrite Z.pow_add_r by lia. lia.
  - exists 0. done.
Qed.

Lemma land_complement q m : 0 ≤ q < 2 ^ m → Z.land q (2 ^ m - 1 - q) = 0.
Proof.
  intros Hq. assert (0 ≤ m) as Hm by (destruct (decide (0 ≤ m)); [done|rewrite Z.pow_neg_r in Hq by lia; lia]).
  replace (2 ^ m - 1) with (Z.ones m) by (rewrite Z.ones_equiv; lia).
  rewrite Z.sub_nocarry_ldiff.
  - apply Z.bits_inj'. intros i Hi. rewrite Z.land_spec, Z.ldiff_spec, Z.bits_0. by destruct (Z.testbit q i); rewrite ?andb_false_r.
  - apply Z.bits_inj'. intros i Hi. rewrite Z.ldiff_spec, Z.bits_0. destruct (decide (i < m)).
    + rewrite Z.ones_spec_low by lia. apply andb_false_r.
    + rewrite <- (Z.mod_small q (2 ^ m)) by done. by rewrite Z.mod_pow2_bits_high by lia.
Qed.

(** [x & (!x + 1)] is the lowest bit of [x]. *)
Lemma lowbit_ok v : 0 < v < 2 ^ 64 → Z.land v (wnot 64 v ⊞ 1) = 2 ^ trailing_zeros v.
Proof.
  intros Hv. destruct (trailing_zeros_spec v ltac:(lia)) as (q & Hq & Ht & E).
  set (t := trailing_zeros v) in *. assert (wnot 64 v ⊞ 1 = 2 ^ 64 - v) as ->.
  { unfold wnot. rewrite wadd_small; unfold fits; lia. }
  assert (t < 64) as Ht64 by (apply (Z.pow_lt_mono_r_iff 2); nia).
  assert (2 ^ 64 = 2 ^ t * (2 * 2 ^ (63 - t))) as E64 by (rewrite <- Z.pow_succ_r, <- Z.pow_add_r by lia; f_equal; lia).
  assert (0 < 2 ^ t) by lia.
  replace (2 ^ 64 - v) with ((2 * (2 ^ (63 - t) - 1 - q) + 1) * 2 ^ t) by nia.
  rewrite E, (Z.mul_comm (2 ^ t)), <- !Z.shiftl_mul_pow2, <- Z.shiftl_land by lia.
  assert (Z.land (2 * q + 1) (2 * (2 ^ (63 - t) - 1 - q) + 1) = 1) as ->; [|rewrite Z.shiftl_mul_pow2 by lia; lia].
  apply Z.bits_inj'. intros i Hi. destruct (decide (i = 0)) as [->|].
  - by rewrite Z.land_spec, !Z.testbit_odd_0.
  - replace i with (Z.succ (i - 1)) by lia. rewrite Z.land_spec, !Z.testbit_odd_succ by lia. rewrite <- Z.land_spec, land_complement by nia.
    rewrite Z.bits_0. symmetry. apply Z.bits_above_log2; simpl; lia.
Qed.

(** The block at [a] is as large as its alignment and the end of the heap allow. *)
Definition maximal (end_ : Z) (b : block) : Prop := b.2 mod size_of (S b.1) ≠ 0 ∨ end_ < b.2 + size_of (S b.1).

Lemma greedy_block cs end_ :
  0 < cs → cs mod 8 = 0 → cs + 8 ≤ end_ → end_ - cs < 2 ^ 32 → end_ < 2 ^ 64 →
  let size := Z.min (Z.land cs (wnot 64 cs ⊞ 1)) (prev_power_of_two (end_ ⊟ cs)) in
  let k := Z.to_nat (trailing_zeros size) in
  size = size_of k ∧ good_block (k, cs) ∧ cs + size_of k ≤ end_ ∧ maximal end_ (k, cs).
Proof.
  intros Hcs Hal Hend Hsz He size k. destruct (trailing_zeros_spec cs Hcs) as (q & Hq & Ht & E). set (t := trailing_zeros cs) in *.
  pose proof (Z.log2_spec (end_ - cs) ltac:(lia)) as Hlog. set (g := Z.log2 (end_ - cs)) in *.
  assert (3 ≤ g < 32) as Hg by (split; [apply (Z.log2_le_pow2 _ 3); lia|apply Z.log2_lt_pow2; lia]).
  assert (3 ≤ t) as Ht3.
  { destruct (decide (3 ≤ t)) as [|Hlt]; [done|]. exfalso. assert (t = 0 ∨ t = 1 ∨ t = 2) as [Ht0|[Ht0|Ht0]] by lia; rewrite Ht0 in E; zlia. }
  assert (size = 2 ^ Z.min t g) as Esize.
  { unfold size. rewrite lowbit_ok by lia. fold t. unfold prev_power_of_two, leading_zeros. rewrite wsub_small by (unfold fits; lia).
    rewrite (proj2 (Z.eqb_neq _ _)) by lia. fold g. replace (64 - (63 - g) - 1) with g by lia.
    destruct (Z.min_spec t g) as [[? ->]|[? ->]]; [pose proof (Z.pow_le_mono_r 2 t g)|pose proof (Z.pow_le_mono_r 2 g t)]; lia. }
  assert (Z.of_nat k = Z.min t g) as Ek by (unfold k; rewrite Esize, trailing_zeros_pow2 by lia; lia).
  assert (size_of k = 2 ^ Z.min t g) as Esk by (unfold size_of; by rewrite Ek).
  assert (2 ^ Z.min t g ≤ 2 ^ g) by (apply Z.pow_le_mono_r; lia).
  split_and!; [by rewrite Esk| |lia|].
  - split_and!; cbn [fst snd]; [lia|lia|lia|]. rewrite Esk, E. apply Z.mod_divide; [lia|]. apply Z.divide_mul_l.
    exists (2 ^ (t - Z.min t g)). rewrite <- Z.pow_add_r by lia. f_equal. lia.
  - unfold maximal. cbn [fst snd]. rewrite size_of_S, Esk. destruct (decide (t ≤ g)) as [Htg|Htg].
    + left. rewrite Z.min_l by lia. intros Hm. apply Z.mod_divide in Hm as [r Hr]; [|lia].
      assert (2 ^ t * (2 * (q - r) + 1) = 0) as Hz by lia. apply Z.mul_eq_0 in Hz. lia.
    + right. rewrite Z.min_r by lia. rewrite Z.pow_succ_r in Hlog by lia. lia.
Qed.

Lemma maximal_coalesced lo end_ bs : tiles lo end_ bs → Forall (maximal end_) bs → coalesced bs.
Proof.
  intros Ht Hm. rewrite Forall_forall in Hm.
  assert (∀ k x, (k, x) ∈ bs → (k, x + size_of k) ∈ bs → x mod size_of (S k) = 0 → False) as Hpair.
  { intros k x Hx Hy Hal. pose proof (tiles_inside _ _ _ _ Ht Hy) as Hin. cbn [fst snd] in Hin.
    destruct (Hm _ Hx) as [?|Hgt]; [done|]. cbn [fst snd] in Hgt. rewrite size_of_S in Hgt. lia. }
  intros k a Ha Hb. pose proof (ti_good _ _ _ Ht) as Hg. rewrite Forall_forall in Hg. destruct (Hg _ Ha) as (_ & _ & Hal). cbn [fst snd] in Hal.
  destruct (buddy_cases k a Hal) as [[E Has]|[E Has]]; rewrite E in Hb; [by apply (Hpair k a)|].
  apply (Hpair k (a - size_of k)); [done|by rewrite Z.sub_add|done].
Qed.

Section init.
Context (start end_ : Z) (Hstart : 0 < start) (Hs8 : start mod 8 = 0) (He8 : end_ mod 8 = 0).
Context (Hle : start ≤ end_) (Hend : end_ + 8 < 2 ^ 64) (Hsz : end_ - start < 2 ^ 32).

Lemma add_loop n : ∀ s Ls bs cs,
  holds s Ls bs → tiles start cs bs → Forall (maximal end_) bs → start ≤ cs ≤ end_ → cs mod 8 = 0 → (end_ - cs) / 8 ≤ Z.of_nat n →
  wp (loop (S n) (add_body end_) (cs - start, cs)) s (λ r s', r = end_ - start ∧ stats s' = stats s ∧
    ∃ Ls' bs', holds s' Ls' bs' ∧ tiles start end_ bs' ∧ Forall (maximal end_) bs').
Proof.
  induction n as [|n IH]; intros s Ls bs cs Hh Ht Hm Hcs H8 Hn; cbn [loop]; apply wp_bind; unfold add_body at 1; cbv beta iota;
    (rewrite wadd_small by (unfold fits; lia)); destruct (Z.leb_spec (cs + 8) end_) as [Hlt|Hge].
  - zlia.
  - apply wp_ret, wp_ret. assert (cs = end_) as -> by zlia. split_and!; [done|done|]. by exists Ls, bs.
  - pose proof (greedy_block cs end_ ltac:(lia) H8 Hlt ltac:(lia) ltac:(lia)) as Hg. cbv zeta in Hg.
    set (size := Z.min _ _) in *. set (k := Z.to_nat (trailing_zeros size)) in *. destruct Hg as (Esize & Hgood & Hin & Hmax). clearbody k. clearbody size. subst size.
    pose proof (size_of_pos k) as Hp. destruct Hgood as (Hk & Hk0 & Hk8). cbn [fst snd] in *.
    assert (8 ≤ size_of k) as H8k by (change 8 with (2 ^ 3); apply Z.pow_le_mono_r; lia).
    assert (cs ∉ bs.*2) as Hncs.
    { intros (b & -> & Hb)%list_elem_of_fmap. pose proof (tiles_inside _ _ _ _ Ht Hb). pose proof (size_of_pos b.1). lia. }
    assert (tiles start (cs + size_of k) ((k, cs) :: bs)) as Ht1.
    { destruct Ht as [Hb Hg]. constructor; [|by constructor]. cbn [fmap list_fmap concat]. rewrite (zrange_app start cs) by lia.
      rewrite (Permutation_app_comm (block_bytes _)). by f_equiv. }
    assert ((cs + size_of k) mod 8 = 0) as Hal1.
    { assert (size_of k = 8 * 2 ^ (Z.of_nat k - 3)) as -> by (change 8 with (2 ^ 3); rewrite <- Z.pow_add_r by lia; unfold size_of; f_equal; lia). zlia. }
    apply (wp_step _ _ _ _ _ (push_free s Ls bs k cs Hh ltac:(lia) ltac:(lia) Hncs)).
    intros _ s1 (Es1 & _ & Ls1 & l1 & Hh1 & _). apply wp_ret. rewrite !wadd_small by (unfold fits; lia).
    replace (cs - start + size_of k) with (cs + size_of k - start) by lia.
    apply (wp_conseq _ _ _ _ (IH s1 Ls1 ((k, cs) :: bs) (cs + size_of k) Hh1 Ht1 ltac:(by constructor) ltac:(lia) Hal1 ltac:(zlia))).
    intros r s' (-> & Es & Hx). split_and!; [done|by rewrite Es|done].
  - apply wp_ret, wp_ret. assert (cs = end_) as -> by zlia. split_and!; [done|done|]. by exists Ls, bs.
Qed.

End init.

Lemma holds_empty m : holds (mkHS m Heap_empty) (replicate 32 []) [].
Proof. constructor; [|done|done]. repeat constructor. Qed.

(** The heap as [init] leaves it: the blocks are the largest that fit. *)
Lemma init_ok m start size :
  let lo := (start + 7) / 8 * 8 in let hi := (start + size) / 8 * 8 in
  0 < start → 0 ≤ size → start + size + 16 < 2 ^ 64 → lo ≤ hi → hi - lo < 2 ^ 32 →
  wp (Heap_init start size) (mkHS m Heap_empty) (λ _ s, ∃ bs, heap_inv lo hi bs [] s ∧ Forall (maximal hi) bs).
Proof.
  intros lo hi Hs Hz Hb Hle Hsz. assert (0 < lo ∧ lo mod 8 = 0 ∧ hi mod 8 = 0 ∧ hi + 8 < 2 ^ 64) as (Hlo & Hl8 & Hh8 & Hh) by (subst lo hi; zlia).
  unfold Heap_init, add_to_heap. rewrite (wadd_small 64 start size) by (unfold fits; lia).
  rewrite (wadd_small 64 start 8), wsub_small by (unfold fits; lia). rewrite !align_down by lia.
  replace (start + 8 - 1) with (start + 7) by lia. fold lo hi.
  apply (wp_step _ _ _ (λ _ s, s = mkHS m Heap_empty)); [apply wp_assert; [by apply Z.leb_le|done]|]. intros _ ? ->.
  replace (0, lo) with (lo - lo, lo) by (f_equal; lia).
  apply (wp_step _ _ _ _ _ (add_loop lo hi Hlo Hh8 Hh Hsz (Z.to_nat ((hi - lo) / 8)) (mkHS m Heap_empty) (replicate 32 []) [] lo (holds_empty m)
    ltac:(constructor; [by rewrite zrange_nil by lia|done]) ltac:(done) ltac:(lia) Hl8 ltac:(zlia))).
  intros r s (-> & Es & Ls & bs & Hh' & Ht & Hm). unfold stats in Es. injection Es as Eu Ea Et.
  apply wp_bind. eapply wp_run; [reflexivity|]. eapply wp_run; [reflexivity|]. exists bs. split; [|done].
  constructor; cbn [hs_heap h_user h_allocated h_total].
  - exists Ls. destruct Hh'. by constructor.
  - cbn. by rewrite app_nil_r.
  - by eapply maximal_coalesced.
  - done.
  - done.
  - done.
  - rewrite Et. cbn. rewrite wadd_small by (unfold fits; lia). lia.
Qed.

(** ** The tiling is unique

    Two blocks with a byte in common are nested, and a block that is tiled by
    smaller ones has two buddies in it. So there is one tiling without buddies. *)

Lemma nested b c y :
  good_block b → good_block c → y ∈ block_bytes b → y ∈ block_bytes c → (b.1 ≤ c.1)%nat →
  c.2 ≤ b.2 ∧ b.2 + size_of b.1 ≤ c.2 + size_of c.1.
Proof.
  intros (_ & _ & Hb) (_ & _ & Hc) Hyb%elem_of_bytes Hyc%elem_of_bytes Hk.
  pose proof (size_of_pos b.1) as Hpb. apply Z.mod_divide in Hb as [p Ep]; [|lia]. apply Z.mod_divide in Hc as [q Eq]; [|pose proof (size_of_pos c.1); lia].
  assert (size_of c.1 = 2 ^ (Z.of_nat c.1 - Z.of_nat b.1) * size_of b.1) as Er.
  { unfold size_of. rewrite <- Z.pow_add_r by lia. f_equal. lia. }
  set (r := 2 ^ (Z.of_nat c.1 - Z.of_nat b.1)) in *. rewrite Ep, Eq, Er in *. set (z := size_of b.1) in *.
  assert (q * r < p + 1) by (apply (Z.mul_lt_mono_pos_r z); lia). assert (p < (q + 1) * r) by (apply (Z.mul_lt_mono_pos_r z); lia).
  assert (q * r * z ≤ p * z) by (apply Z.mul_le_mono_nonneg_r; lia).
  assert ((p + 1) * z ≤ (q + 1) * r * z) by (apply Z.mul_le_mono_nonneg_r; lia). lia.
Qed.

Section unique.
Context (lo hi : Z).

Lemma tiles_same bs b c x : tiles lo hi bs → b ∈ bs → c ∈ bs → x ∈ block_bytes b → x ∈ block_bytes c → b = c.
Proof.
  intros Ht [bs' Hp]%elem_of_Permutation Hc Hxb Hxc. rewrite Hp in Ht, Hc. apply elem_of_cons in Hc as [->|Hc]; [done|].
  exfalso. by apply (tiles_rest lo hi b bs' c x Ht).
Qed.

Lemma tiles_cover bs x : tiles lo hi bs → lo ≤ x < hi → ∃ b, b ∈ bs ∧ x ∈ block_bytes b ∧ good_block b.
Proof.
  intros [Hb Hg] Hx%elem_of_zrange. rewrite <- Hb in Hx. apply elem_of_concat in Hx as (l & Hl & (b & -> & Hin)%list_elem_of_fmap).
  exists b. split_and!; [done|done|]. rewrite Forall_forall in Hg. by apply Hg.
Qed.

Lemma no_finer bs j : ∀ x b,
  tiles lo hi bs → coalesced bs → (j < 32)%nat → good_block (j, x) → lo ≤ x → x + size_of j ≤ hi →
  b ∈ bs → (b.1 < j)%nat → x ≤ b.2 < x + size_of j → False.
Proof.
  induction j as [|i IH]; intros x b Ht Hc Hj Hg Hlo Hhi Hb Hlt Hin; [lia|].
  pose proof (size_of_pos i) as Hp. rewrite size_of_S in *. destruct Hg as (Hj3 & Hx & Hal). cbn [fst snd] in *.
  pose proof (ti_good _ _ _ Ht) as Hgs. rewrite Forall_forall in Hgs. pose proof (Hgs b Hb) as Hgb. pose proof Hgb as (Hb3 & _).
  assert (x mod size_of i = 0) as Hali.
  { rewrite size_of_S in Hal. apply Z.mod_divide in Hal as [q ->]; [|lia]. replace (q * (2 * size_of i)) with (q * 2 * size_of i) by lia. apply Z.mod_mul. lia. }
  assert (∀ h, h = x ∨ h = x + size_of i → (i, h) ∈ bs) as Hhalf.
  { intros h Hh. assert (good_block (i, h)) as Hgh.
    { split_and!; cbn [fst snd]; [lia|lia|lia|]. destruct Hh as [->| ->]; [done|]. rewrite Z.add_mod, Hali, Z.mod_same, Z.mod_0_l by lia. done. }
    destruct (tiles_cover bs h Ht ltac:(lia)) as (d & Hd & Hhd & Hgd). destruct (Nat.lt_trichotomy d.1 i) as [Hdi|[Hdi|Hdi]].
    - exfalso. assert (h ∈ block_bytes (i, h)) as Hhh by (apply elem_of_bytes; cbn; lia).
      pose proof (nested d (i, h) h Hgd Hgh Hhd Hhh ltac:(cbn; lia)) as [? ?]. cbn [fst snd] in *. pose proof (size_of_pos d.1).
      apply (IH h d); try done; lia.
    - assert (h ∈ block_bytes (i, h)) as Hhh by (apply elem_of_bytes; cbn; lia).
      pose proof (nested d (i, h) h Hgd Hgh Hhd Hhh ltac:(cbn; lia)) as [? ?]. pose proof (nested (i, h) d h Hgh Hgd Hhh Hhd ltac:(cbn; lia)) as [? ?].
      cbn [fst snd] in *. destruct d as [d1 d2]. cbn [fst snd] in *. subst d1. by replace h with d2 by lia.
    - exfalso. assert (good_block (S i, x)) as HgS by (split_and!; cbn [fst snd]; [lia|lia|lia|done]).
      assert (h ∈ block_bytes (S i, x)) as HhS by (apply elem_of_bytes; cbn [fst snd]; rewrite size_of_S; lia).
      pose proof (nested (S i, x) d h HgS Hgd HhS Hhd ltac:(cbn; lia)) as [? ?]. cbn [fst snd] in *. rewrite size_of_S in *.
      assert (b = d) as ->; [|lia]. apply (tiles_same bs b d b.2 Ht Hb Hd); [by apply good_address|]. apply elem_of_bytes. lia. }
  apply (Hc i x (Hhalf x (or_introl eq_refl))).
  destruct (buddy_cases i x Hali) as [[-> _]|[_ Hm]]; [apply Hhalf; by right|]. exfalso. rewrite size_of_S in *.
  apply Z.mod_divide in Hal as [q ->]; [|lia]. apply Z.mod_divide in Hm as [r Hr]; [|lia].
  assert (size_of i * (2 * (q - r) - 1) = 0) as Hz by lia. apply Z.mul_eq_0 in Hz. lia.
Qed.

Lemma tiling_incl bs bs' b : tiles lo hi bs → tiles lo hi bs' → coalesced bs → coalesced bs' → b ∈ bs → b ∈ bs'.
Proof.
  intros Ht Ht' Hc Hc' Hb. pose proof (ti_good _ _ _ Ht) as Hgs. rewrite Forall_forall in Hgs. pose proof (Hgs b Hb) as Hgb.
  pose proof (tiles_inside _ _ _ b Ht Hb) as Hin. pose proof (size_of_pos b.1). pose proof (good_address b Hgb) as Hbb.
  destruct (tiles_cover bs' b.2 Ht' ltac:(lia)) as (c & Hcin & Hbc & Hgc). pose proof (tiles_inside _ _ _ c Ht' Hcin) as Hin'.
  destruct (Nat.lt_trichotomy b.1 c.1) as [Hlt|[Heq|Hlt]].
  - exfalso. pose proof (nested b c b.2 Hgb Hgc Hbb Hbc ltac:(lia)). destruct c as [j x]. cbn [fst snd] in *.
    apply (no_finer bs j x b); try done; [destruct Hgc as [[? ?] _]; cbn in *; lia|lia|lia|lia].
  - pose proof (nested b c b.2 Hgb Hgc Hbb Hbc ltac:(lia)). pose proof (nested c b b.2 Hgc Hgb Hbc Hbb ltac:(lia)).
    replace b with c; [done|]. destruct b, c. cbn [fst snd] in *. f_equal; lia.
  - exfalso. pose proof (nested c b b.2 Hgc Hgb Hbc Hbb ltac:(lia)). pose proof (size_of_pos c.1). destruct b as [k a]. cbn [fst snd] in *.
    apply (no_finer bs' k a c); try done; [destruct Hgb as [[? ?] _]; cbn in *; lia|lia|lia|lia].
Qed.

Lemma tiling_unique bs bs' : tiles lo hi bs → tiles lo hi bs' → coalesced bs → coalesced bs' → bs ≡ₚ bs'.
Proof.
  intros Ht Ht' Hc Hc'. apply NoDup_Permutation.
  - by eapply NoDup_fmap_1, tiles_addresses.
  - by eapply NoDup_fmap_1, tiles_addresses.
  - intros b. split; [by apply (tiling_incl bs bs')|by apply (tiling_incl bs' bs)].
Qed.

End unique.

(** ** Clients of the heap

    The steps of the programs that share the heap, with the requests that are
    out: they ask for memory, give it back, and write to what they hold. *)

Definition memory_of (A : list (Layout * Z)) : list Z := concat (block_bytes <$> live A).

Inductive heap_step : heap_state * list (Layout * Z) → heap_state * list (Layout * Z) → Prop :=
| step_alloc s A ly a s' :
    layout_ok ly → alloc ly s = Done (Some a, s') → heap_step (s, A) (s', (ly, a) :: A)
| step_oom s A ly s' : layout_ok ly → alloc ly s = Done (None, s') → heap_step (s, A) (s', A)
| step_dealloc s A A' ly a s' :
    A ≡ₚ (ly, a) :: A' → dealloc a ly s = Done (tt, s') → heap_step (s, A) (s', A')
| step_write s A x v :
    x ∈ memory_of A → heap_step (s, A) (mkHS (<[x := v]> (hs_mem s)) (hs_heap s), A).

Section clients.
Context (lo hi : Z) (Hlo : 0 < lo) (Hle : lo ≤ hi) (Hhi : hi < 2 ^ 64) (Hsize : hi - lo < 2 ^ 32).

Lemma write_ok s bs A x v :
  heap_inv lo hi bs A s → x ∈ memory_of A → heap_inv lo hi bs A (mkHS (<[x := v]> (hs_mem s)) (hs_heap s)).
Proof.
  intros [[Ls [Hr Hlen Hf]] Ht Hc Hy Hu Ha Htot] Hx. constructor; try done. exists Ls. constructor; [|done|done].
  unfold rep in *. cbn [hs_mem hs_heap]. apply Forall2_same_length_lookup. split; [by eapply Forall2_length|].
  intros i h l Hh Hl. apply (llist_frame (hs_mem s)); [|by eapply Forall2_lookup_lr].
  intros y Hy'. rewrite word_insert, decide_False; [done|]. intros ->.
  assert ((i, x) ∈ bs) as [bs' Hp]%elem_of_Permutation by (rewrite <- Hf; apply elem_of_frees; eauto).
  rewrite Hp in Ht. apply (free_not_live lo hi (live A) (i, x) bs' x Ht); [|done].
  apply elem_of_bytes. cbn. pose proof (size_of_pos i). lia.
Qed.

Lemma heap_step_ok s A s' A' bs : heap_inv lo hi bs A s → heap_step (s, A) (s', A') → ∃ bs', heap_inv lo hi bs' A' s'.
Proof.
  intros Hv Hst. inversion Hst as [? ? ly a ? Hly E|? ? ly ? Hly E|? ? ? ly a ? Hp E|? ? x v Hx]; subst.
  - destruct (alloc_ok lo hi Hlo Hle Hhi Hsize s bs A ly Hv Hly) as (r & s1 & E1 & Hr). rewrite E1 in E. injection E as -> ->. apply Hr.
  - destruct (alloc_ok lo hi Hlo Hle Hhi Hsize s bs A' ly Hv Hly) as (r & s1 & E1 & Hr). rewrite E1 in E. injection E as -> ->.
    destruct Hr as [-> _]. eauto.
  - destruct (dealloc_ok lo hi Hlo Hle Hhi Hsize s bs A' ly a (heap_inv_perm _ _ _ _ _ _ Hp Hv)) as ([] & s1 & E1 & Hr).
    rewrite E1 in E. injection E as ->. apply Hr.
  - exists bs. by apply write_ok.
Qed.

Lemma heap_reach x y bs : heap_inv lo hi bs x.2 x.1 → rtc heap_step x y → ∃ bs', heap_inv lo hi bs' y.2 y.1.
Proof.
  intros Hv Hr. revert bs Hv. induction Hr as [|[s1 A1] [s2 A2] y Hs _ IH]; intros bs Hv; [eauto|].
  destruct (heap_step_ok _ _ _ _ _ Hv Hs) as [bs' Hv']. by eapply IH.
Qed.

End clients.

(** The bytes that [init start size] manages are below [2^32] many and not at
    the very end of the address space. *)
Record heap_range (start size lo hi : Z) : Prop := {
  hr_lo : lo = (start + 7) / 8 * 8;
  hr_hi : hi = (start + size) / 8 * 8;
  hr_start : 0 < start;
  hr_size : 0 ≤ size < 2 ^ 32;
  hr_end : start + size + 16 < 2 ^ 64;
  hr_le : lo ≤ hi;
}.

Section properties.
Context (m : gmap Z Z) (start size lo hi : Z) (Hr : heap_range start size lo hi).

Lemma range_facts : 0 < lo ∧ hi < 2 ^ 64 ∧ hi - lo < 2 ^ 32 ∧ start ≤ lo ∧ hi ≤ start + size.
Proof. destruct Hr as [-> -> ? ? ? ?]. zlia. Qed.

Lemma reach_ok s0 s A :
  Heap_init start size (mkHS m Heap_empty) = Done (tt, s0) → rtc heap_step (s0, []) (s, A) →
  (∃ bs0, heap_inv lo hi bs0 [] s0) ∧ ∃ bs, heap_inv lo hi bs A s.
Proof.
  intros Ei Hst. pose proof range_facts as (Hlo & Hhi & Hsz & _). pose proof Hr as [El Eh ? ? ? ?].
  destruct (init_ok m start size) as ([] & s1 & E1 & bs0 & Hv0 & _); try (rewrite <- ?El, <- ?Eh; lia).
  rewrite <- El, <- Eh in Hv0. rewrite E1 in Ei. injection Ei as ->. split; [eauto|].
  by apply (heap_reach lo hi Hlo ltac:(done) Hhi Hsz (s0, []) (s, A) bs0).
Qed.

(** C15. Memory from the heap is safe to use. After initialisation and whatever
    its clients do, asking for memory, giving it back, and writing to what they
    hold, the pieces that are out are inside the heap, aligned and as large as
    was asked for, and no two of them share a byte. Every call returns (no
    panic, no endless loop), and neither [alloc] nor [dealloc] changes a word
    of a piece that stays out: the links are in free blocks only. *)
Theorem heap_allocations_safe s0 s A :
  Heap_init start size (mkHS m Heap_empty) = Done (tt, s0) → rtc heap_step (s0, []) (s, A) →
  NoDup (memory_of A) ∧
  (∀ ly a, (ly, a) ∈ A →
     start ≤ a ∧ a + layout_size ly ≤ start + size ∧ (layout_align ly | a) ∧ ∀ x, a ≤ x < a + layout_size ly → x ∈ memory_of A) ∧
  (∀ ly, layout_ok ly → ∃ r s', alloc ly s = Done (r, s') ∧ kept (live A) s s') ∧
  (∀ ly a A', A ≡ₚ (ly, a) :: A' → ∃ s', dealloc a ly s = Done (tt, s') ∧ kept (live A') s s').
Proof.
  intros Ei Hst. destruct (reach_ok s0 s A Ei Hst) as [_ [bs Hv]]. pose proof range_facts as (Hlo & Hhi & Hsz & Hsl & Hhe).
  pose proof (hr_le _ _ _ _ Hr) as Hle. pose proof (hv_tiles _ _ _ _ _ Hv) as Ht. split_and!.
  - apply tiles_NoDup in Ht. rewrite fmap_app, concat_app in Ht. by apply NoDup_app in Ht as (_ & _ & ?).
  - intros ly a Hin. assert ((block_class ly, a) ∈ live A) as Hb by (apply (list_elem_of_fmap_2 (λ x, (block_class x.1, x.2)) _ _ Hin)).
    pose proof (tiles_inside _ _ _ _ Ht ltac:(apply elem_of_app; right; exact Hb)) as Hi. cbn [fst snd] in Hi.
    pose proof (ti_good _ _ _ Ht) as Hg. rewrite Forall_forall in Hg. destruct (Hg (block_class ly, a) ltac:(apply elem_of_app; by right)) as (_ & _ & Hal).
    pose proof (hv_layouts _ _ _ _ _ Hv) as Hly. rewrite Forall_forall in Hly. specialize (Hly _ Hin). cbn [fst snd] in *.
    pose proof (block_size_ok _ Hly) as (Ebs & _ & Hs & Hd). rewrite Ebs in Hs, Hd. split_and!; [lia|lia| |].
    + apply (Z.divide_trans _ _ _ Hd). apply Z.mod_divide; [pose proof (size_of_pos (block_class ly)); lia|done].
    + intros x Hx. apply elem_of_concat. exists (block_bytes (block_class ly, a)). split; [apply elem_of_bytes; cbn [fst snd]; lia|by apply list_elem_of_fmap_2].
  - intros ly Hly. destruct (alloc_ok lo hi Hlo Hle Hhi Hsz s bs A ly Hv Hly) as (r & s' & E & Hx). exists r, s'. split; [done|].
    destruct r as [a|]; [apply Hx|]. by destruct Hx as [-> _].
  - intros ly a A' Hp. destruct (dealloc_ok lo hi Hlo Hle Hhi Hsz s bs A' ly a (heap_inv_perm _ _ _ _ _ _ Hp Hv)) as ([] & s' & E & Hk & _).
    by exists s'.
Qed.

Lemma alloc_iff s bs ly :
  heap_inv lo hi bs [] s → layout_ok ly →
  (∃ a s', alloc ly s = Done (Some a, s')) ↔ ∃ b, b ∈ bs ∧ (block_class ly ≤ b.1)%nat.
Proof.
  intros Hv Hly. pose proof range_facts as (Hlo & Hhi & Hsz & _).
  destruct (alloc_ok lo hi Hlo (hr_le _ _ _ _ Hr) Hhi Hsz s bs [] ly Hv Hly) as ([a|] & s1 & E & Hx).
  - split; [intros _; apply Hx|eauto].
  - split; [intros (a & s' & E'); congruence|]. intros (b & Hb & Hle). destruct Hx as [_ Hx]. specialize (Hx b Hb). lia.
Qed.

(** The heap does not fragment for good: when everything that was handed out
    is given back, in any order, the free blocks are those of the new heap, so
    a request is granted exactly if the new heap would have granted it; the
    statistics are back to 0. *)
Theorem heap_restored s0 s ly :
  Heap_init start size (mkHS m Heap_empty) = Done (tt, s0) → rtc heap_step (s0, []) (s, []) → layout_ok ly →
  ((∃ a s', alloc ly s = Done (Some a, s')) ↔ (∃ a s', alloc ly s0 = Done (Some a, s'))) ∧
  h_user (hs_heap s) = 0 ∧ h_allocated (hs_heap s) = 0.
Proof.
  intros Ei Hst Hly. destruct (reach_ok s0 s [] Ei Hst) as [[bs0 Hv0] [bs Hv]]. pose proof range_facts as (Hlo & Hhi & Hsz & _).
  pose proof (hr_le _ _ _ _ Hr) as Hle.
  pose proof (tiling_unique lo hi bs bs0 ltac:(rewrite <- (app_nil_r bs); apply Hv) ltac:(rewrite <- (app_nil_r bs0); apply Hv0)
    (hv_coalesced _ _ _ _ _ Hv) (hv_coalesced _ _ _ _ _ Hv0)) as Hp.
  split_and!; [|apply Hv|apply Hv]. rewrite (alloc_iff s bs ly Hv Hly), (alloc_iff s0 bs0 ly Hv0 Hly). by setoid_rewrite Hp.
Qed.

End properties.

(** ** Witnesses

    A heap of 72 bytes from address 13: two requests, a write, and the first
    piece is given back; then the second one. *)

Definition wit_blank : heap_state := mkHS ∅ Heap_empty.
Definition wit_ly1 : Layout := mkLayout 20 4.
Definition wit_ly2 : Layout := mkLayout 8 8.
Definition wit_h0 : heap_state := final wit_blank (Heap_init 13 72 wit_blank).
Definition wit_h1 : heap_state := final wit_h0 (alloc wit_ly1 wit_h0).
Definition wit_h2 : heap_state := final wit_h1 (alloc wit_ly2 wit_h1).
Definition wit_h3 : heap_state := mkHS (<[32 := 5]> (hs_mem wit_h2)) (hs_heap wit_h2).
Definition wit_h4 : heap_state := final wit_h3 (dealloc 32 wit_ly1 wit_h3).
Definition wit_h5 : heap_state := final wit_h4 (dealloc 64 wit_ly2 wit_h4).

Lemma wit_range : heap_range 13 72 16 80.
Proof. constructor; (reflexivity || lia). Qed.

Lemma wit_layouts : layout_ok wit_ly1 ∧ layout_ok wit_ly2.
Proof. split; (split; [simpl; lia|]); [exists 2|exists 3]; split; (lia || reflexivity). Qed.

Lemma wit_heap_init : Heap_init 13 72 wit_blank = Done (tt, wit_h0).
Proof. vm_compute. reflexivity. Qed.

Lemma wit_heap_reach : rtc heap_step (wit_h0, []) (wit_h4, [(wit_ly2, 64)]).
Proof.
  destruct wit_layouts as [H1 H2].
  apply (rtc_l _ _ (wit_h1, [(wit_ly1, 32)])); [apply step_alloc; [exact H1|vm_compute; reflexivity]|].
  apply (rtc_l _ _ (wit_h2, [(wit_ly2, 64); (wit_ly1, 32)])); [apply step_alloc; [exact H2|vm_compute; reflexivity]|].
  apply (rtc_l _ _ (wit_h3, [(wit_ly2, 64); (wit_ly1, 32)])).
  { apply step_write. apply elem_of_concat. exists (block_bytes (5%nat, 32)). split; [apply elem_of_bytes; vm_compute; split; congruence|].
    right. left. }
  apply rtc_once. apply (step_dealloc _ _ _ wit_ly1 32); [apply Permutation_swap|vm_compute; reflexivity].
Qed.

Lemma heap_allocations_safe_witness :
  NoDup (memory_of [(wit_ly2, 64)]) ∧ (∃ s', dealloc 64 wit_ly2 wit_h4 = Done (tt, s')).
Proof.
  destruct (heap_allocations_safe ∅ 13 72 16 80 wit_range wit_h0 wit_h4 [(wit_ly2, 64)] wit_heap_init wit_heap_reach) as (Hnd & _ & _ & Hd).
  split; [exact Hnd|]. destruct (Hd wit_ly2 64 [] (Permutation_refl _)) as (s' & E & _). exists s'. exact E.
Defined.

Lemma heap_restored_witness : ∃ a s', alloc (mkLayout 30 8) wit_h5 = Done (Some a, s').
Proof.
  apply (heap_restored ∅ 13 72 16 80 wit_range wit_h0 wit_h5 (mkLayout 30 8) wit_heap_init).
  - apply (rtc_r (R:=heap_step) _ _ _ wit_heap_reach). apply (step_dealloc _ _ _ wit_ly2 64); [reflexivity|vm_compute; reflexivity].
  - split; [simpl; lia|]. exists 3. split; [lia|reflexivity].
  - eexists _, _. vm_compute. reflexivity.
Defined.
