(* ===== verification/FrameAllocator.v ===== *)
(** * Physical frame allocation (os/src/mm/frame_allocator.rs)

    The [FrameAllocator] trait is a typeclass, the laws its clients rely on a
    second one; [StackFrameAllocator] is the implementation of the kernel.
    [frame_alloc] and [frame_dealloc] act on the memory-management state [mm]:
    the global allocator and physical memory. A [FrameTracker] is its page
    number; where the Rust code drops one, the model calls [frame_dealloc]. *)

From S2P Require Import Prelude Address PhysMem.

(** ** The trait *)

(** [trait FrameAllocator]; [None] from [fa_dealloc] is its panic. *)
Class FrameAllocator (A : Type) := {
  fa_new : A;
  fa_alloc : A → option Z * A;
  fa_dealloc : Z → A → option A;
}.

(** What the rest of the kernel relies on: [fa_owned a p] says that frame [p]
    has been handed out and not given back, [fa_avail a] counts the frames that
    can still be handed out. *)
Class FrameAllocatorLaws (A : Type) `{FrameAllocator A} := {
  fa_inv : A → Prop;
  fa_owned : A → Z → Prop;
  fa_avail : A → nat;
  fa_alloc_some a : fa_inv a → fa_avail a ≠ 0%nat →
    ∃ p a', fa_alloc a = (Some p, a') ∧ fa_inv a' ∧ fits 44 p ∧ ¬ fa_owned a p ∧
            (∀ x, fa_owned a' x ↔ fa_owned a x ∨ x = p) ∧
            fa_avail a = S (fa_avail a');
  fa_alloc_none a : fa_inv a → fa_avail a = 0%nat → fa_alloc a = (None, a);
  fa_dealloc_ok a p : fa_inv a → fa_owned a p →
    ∃ a', fa_dealloc p a = Some a' ∧ fa_inv a' ∧
          (∀ x, fa_owned a' x ↔ fa_owned a x ∧ x ≠ p) ∧
          fa_avail a' = S (fa_avail a);
}.

(** ** The stack implementation *)

Record StackFrameAllocator := mkStackFA {
  current : Z;
  end_ : Z;
  recycled : list Z;
}.

Definition StackFrameAllocator_init (l r : Z) (a : StackFrameAllocator) : StackFrameAllocator :=
  mkStackFA l r (recycled a).

Definition StackFrameAllocator_new : StackFrameAllocator := mkStackFA 0 0 [].

Definition StackFrameAllocator_alloc (a : StackFrameAllocator) :
    option Z * StackFrameAllocator :=
  match vec_pop (recycled a) with
  | Some (ppn, rest) => (Some (PhysPageNum_from ppn), mkStackFA (current a) (end_ a) rest)
  | None =>
      if current a =? end_ a then (None, a)
      else
        let a := mkStackFA (current a ⊞ 1) (end_ a) (recycled a) in
        (Some (PhysPageNum_from (current a ⊟ 1)), a)
  end.

Definition StackFrameAllocator_dealloc (ppn : Z) (a : StackFrameAllocator) :
    option StackFrameAllocator :=
  if (current a <=? ppn) || existsb (λ v, v =? ppn) (recycled a)
  then None
  else Some (mkStackFA (current a) (end_ a) (recycled a ++ [ppn])).

#[global] Instance stack_frame_allocator : FrameAllocator StackFrameAllocator := {
  fa_new := StackFrameAllocator_new;
  fa_alloc := StackFrameAllocator_alloc;
  fa_dealloc := StackFrameAllocator_dealloc;
}.

(** [init_frame_allocator]: from the end of the kernel image to the end of
    memory; [ekernel] is a linker symbol. *)
Definition init_frame_allocator (ekernel : Z) (a : StackFrameAllocator) : StackFrameAllocator :=
  StackFrameAllocator_init (PhysAddr_ceil (PhysAddr_from ekernel))
    (PhysAddr_floor (PhysAddr_from MEMORY_END)) a.

(** ** The memory-management state *)

Record mm (A : Type) := mkMM { frame_allocator : A; mem : pmem }.
Arguments mkMM {A} _ _.
Arguments frame_allocator {A} _.
Arguments mem {A} _.

Section ops.
Context {A : Type} `{FrameAllocator A}.

Definition set_mem (m : pmem) (s : mm A) : mm A := mkMM (frame_allocator s) m.

(** [frame_alloc]: take a frame and, in [FrameTracker::new], clear it. *)
Definition frame_alloc : ST (mm A) (option Z) := λ s,
  match fa_alloc (frame_allocator s) with
  | (Some ppn, a) => Done (Some ppn, mkMM a (zero_page (mem s) ppn))
  | (None, a) => Done (None, mkMM a (mem s))
  end.

(** [frame_dealloc], and [drop] of a [FrameTracker]. *)
Definition frame_dealloc (ppn : Z) : ST (mm A) unit := λ s,
  match fa_dealloc ppn (frame_allocator s) with
  | Some a => Done (tt, mkMM a (mem s))
  | None => Panic
  end.

End ops.

(** ** The stack allocator satisfies the laws *)

(** [lo] is the first frame the allocator was initialised with. *)
Definition stack_inv (lo : Z) (a : StackFrameAllocator) : Prop :=
  0 ≤ lo ≤ current a ∧ current a ≤ end_ a ≤ 2 ^ 44 ∧
  NoDup (recycled a) ∧ Forall (λ p, lo ≤ p < current a) (recycled a).

Definition stack_owned (lo : Z) (a : StackFrameAllocator) (p : Z) : Prop :=
  lo ≤ p < current a ∧ p ∉ recycled a.

Definition stack_avail (a : StackFrameAllocator) : nat :=
  (Z.to_nat (end_ a - current a) + length (recycled a))%nat.

Section stack_laws.
Variable lo : Z.

Lemma stack_alloc_some a :
  stack_inv lo a → stack_avail a ≠ 0%nat →
  ∃ p a', StackFrameAllocator_alloc a = (Some p, a') ∧ stack_inv lo a' ∧ fits 44 p ∧
          ¬ stack_owned lo a p ∧
          (∀ x, stack_owned lo a' x ↔ stack_owned lo a x ∨ x = p) ∧
          stack_avail a = S (stack_avail a').
Proof.
  intros (Hlo & Hend & Hnd & Hrec) Hav. unfold StackFrameAllocator_alloc.
  destruct (vec_pop (recycled a)) as [[p rest]|] eqn:Epop.
  - apply vec_pop_Some in Epop. rewrite Epop in *.
    apply NoDup_app in Hnd as (Hnd & Hdis & _).
    apply Forall_app in Hrec as [Hrec Hp]. rewrite Forall_singleton in Hp.
    assert (p ∉ rest) by (intros Hp'; apply (Hdis _ Hp'), list_elem_of_singleton; done).
    exists p, (mkStackFA (current a) (end_ a) rest).
    rewrite PhysPageNum_from_small by (unfold fits; lia).
    unfold stack_inv, stack_owned, stack_avail, fits; simpl. rewrite Epop, length_app; simpl.
    split_and!; try done; try lia; try set_solver.
    intros x. rewrite not_elem_of_app, list_elem_of_singleton.
    destruct (decide (x = p)); subst; naive_solver.
  - apply vec_pop_None in Epop. unfold stack_avail in Hav. rewrite Epop in *.
    rewrite (proj2 (Z.eqb_neq _ _)) by (simpl in Hav; lia). simpl.
    assert (current a ⊞ 1 = current a + 1) as -> by (apply wadd_small; unfold fits; simpl in Hav; lia).
    exists (current a), (mkStackFA (current a + 1) (end_ a) []).
    rewrite wsub_small, Z.add_simpl_r by (unfold fits; simpl in Hav; lia).
    rewrite PhysPageNum_from_small by (unfold fits; simpl in Hav; lia).
    unfold stack_inv, stack_owned, stack_avail, fits; simpl in *. rewrite Epop; simpl.
    split_and!; try done; try lia; try (by constructor).
    intros x. set_unfold. lia.
Qed.

Lemma stack_alloc_none a :
  stack_inv lo a → stack_avail a = 0%nat → StackFrameAllocator_alloc a = (None, a).
Proof.
  intros (Hlo & Hend & _) Hav. unfold stack_avail in Hav. unfold StackFrameAllocator_alloc.
  destruct (recycled a) eqn:Er; [|simpl in Hav; lia]. simpl.
  by rewrite (proj2 (Z.eqb_eq _ _)) by lia.
Qed.

Lemma recycled_existsb a p : existsb (λ v, v =? p) (recycled a) = true ↔ p ∈ recycled a.
Proof.
  rewrite existsb_exists, list_elem_of_In. split; [|by exists p; split; [|apply Z.eqb_refl]].
  by intros (x & ? & ->%Z.eqb_eq).
Qed.

Lemma stack_dealloc_iff a p :
  stack_inv lo a → lo ≤ p →
  (∃ a', StackFrameAllocator_dealloc p a = Some a') ↔ stack_owned lo a p.
Proof.
  intros _ Hp. unfold StackFrameAllocator_dealloc, stack_owned. rewrite <- recycled_existsb.
  destruct (Z.leb_spec (current a) p), (existsb _ _); simpl.
  all: split; [intros [? ?]|intros [??]]; try done; try lia; eauto.
Qed.

Lemma stack_dealloc_ok a p :
  stack_inv lo a → stack_owned lo a p →
  ∃ a', StackFrameAllocator_dealloc p a = Some a' ∧ stack_inv lo a' ∧
        (∀ x, stack_owned lo a' x ↔ stack_owned lo a x ∧ x ≠ p) ∧
        stack_avail a' = S (stack_avail a).
Proof.
  intros Hinv Hown.
  destruct (proj2 (stack_dealloc_iff a p Hinv ltac:(apply Hown)) Hown) as [a' E].
  exists a'. split; [done|]. destruct Hinv as (Hlo & Hend & Hnd & Hrec), Hown as [Hp Hnin].
  unfold StackFrameAllocator_dealloc in E. case_match; simplify_eq.
  unfold stack_inv, stack_owned, stack_avail; simpl. rewrite length_app; simpl.
  split_and!; try done; try lia.
  - apply NoDup_app. split_and!; [done| |apply NoDup_singleton]. set_solver.
  - apply Forall_app. split; [done|]. by apply Forall_singleton.
  - intros x. set_solver.
Qed.

#[refine] Instance stack_frame_laws : FrameAllocatorLaws StackFrameAllocator := {
  fa_inv := stack_inv lo;
  fa_owned := stack_owned lo;
  fa_avail := stack_avail;
}.
Proof.
- apply stack_alloc_some.
- apply stack_alloc_none.
- apply stack_dealloc_ok.
Defined.

End stack_laws.

(** ** What clients of [frame_alloc] and [frame_dealloc] use *)

Section client.
Context {A : Type} `{FrameAllocatorLaws A}.

Abbreviation owned s := (fa_owned (frame_allocator s)).
Abbreviation avail s := (fa_avail (frame_allocator s)).

(** The state invariant of the memory-management component. *)
Definition mm_inv (s : mm A) : Prop := fa_inv (frame_allocator s) ∧ mem_wf (mem s).

(** Two states agree on the contents of the pages that satisfy [P]. *)
Definition same_pages (P : Z → Prop) (s s' : mm A) : Prop :=
  ∀ p i, P p → rd (mem s') p i = rd (mem s) p i.

Lemma frame_alloc_ok s :
  mm_inv s → avail s ≠ 0%nat →
  ∃ p s', frame_alloc s = Done (Some p, s') ∧ mm_inv s' ∧ fits 44 p ∧ ¬ owned s p ∧
          (∀ x, owned s' x ↔ owned s x ∨ x = p) ∧ avail s = S (avail s') ∧
          (∀ i, rd (mem s') p i = 0) ∧ same_pages (λ q, q ≠ p) s s'.
Proof.
  intros [Ha Hm] Hav. destruct (fa_alloc_some _ Ha Hav) as (p & a' & E & Ha' & Hp & Hn & Ho & Hs).
  exists p, (mkMM a' (zero_page (mem s) p)). unfold frame_alloc. rewrite E.
  split_and!; simpl; try done.
  - split; [done|]. by apply mem_wf_zero_page.
  - intros i. rewrite rd_zero_page. by rewrite decide_True.
  - intros q i Hq. simpl. rewrite rd_zero_page. by rewrite decide_False.
Qed.

Lemma frame_dealloc_ok s p :
  mm_inv s → owned s p →
  ∃ s', frame_dealloc p s = Done (tt, s') ∧ mm_inv s' ∧ mem s' = mem s ∧
        (∀ x, owned s' x ↔ owned s x ∧ x ≠ p) ∧ avail s' = S (avail s).
Proof.
  intros [Ha Hm] Ho. destruct (fa_dealloc_ok _ _ Ha Ho) as (a' & E & Ha' & Ho' & Hs).
  exists (mkMM a' (mem s)). unfold frame_dealloc. by rewrite E.
Qed.

End client.

(** ** Properties *)

(** The allocator never hands out a frame twice: on a well-formed state
    [alloc] returns a frame of the managed range [lo, end) that is not in use
    and marks it used, and it returns [None] only when every frame of the
    range is in use. *)
Theorem stack_alloc_fresh (lo : Z) (a : StackFrameAllocator) :
  stack_inv lo a →
  match StackFrameAllocator_alloc a with
  | (Some p, a') =>
      stack_inv lo a' ∧ lo ≤ p < end_ a ∧ ¬ stack_owned lo a p ∧
      ∀ x, stack_owned lo a' x ↔ stack_owned lo a x ∨ x = p
  | (None, a') => a' = a ∧ ∀ x, lo ≤ x < end_ a → stack_owned lo a x
  end.
Proof.
  intros Hinv. destruct (decide (stack_avail a = 0%nat)) as [Hz|Hz].
  - rewrite (stack_alloc_none lo) by done. split; [done|]. intros x Hx.
    destruct Hinv as (? & ? & _). unfold stack_avail in Hz.
    destruct (recycled a) eqn:E; [|simpl in Hz; lia].
    split; [lia|]. rewrite E. set_solver.
  - destruct (stack_alloc_some lo a Hinv Hz) as (p & a' & E & Hinv' & Hfit & Hn & Ho & Hs).
    rewrite E. split_and!; try done.
    all: destruct (proj2 (Ho p) (or_intror eq_refl)) as [? _]; try lia.
    destruct Hinv as (_ & ? & _). unfold StackFrameAllocator_alloc in E.
    repeat case_match; simplify_eq/=; try lia.
    destruct Hinv' as (_ & ? & _). simpl in *. lia.
Qed.

Lemma stack_alloc_fresh_witness :
  let a := mkStackFA 0x80005 0x88000 [0x80001; 0x80003] in
  stack_inv 0x80000 a ∧
  ∃ a', StackFrameAllocator_alloc a = (Some 0x80003, a') ∧ ¬ stack_owned 0x80000 a 0x80003.
Proof.
  assert (Hinv : stack_inv 0x80000 (mkStackFA 0x80005 0x88000 [0x80001; 0x80003])).
  { unfold stack_inv; simpl. split_and!; try lia; [|repeat constructor; lia].
    by apply (bool_decide_unpack _). }
  split; [done|]. eexists. split; [reflexivity|].
  apply (stack_alloc_fresh 0x80000 _ Hinv).
Defined.

(** [dealloc] accepts exactly the frames in use: for a frame at or above
    the start of the managed range it panics if and only if the frame was
    never handed out or has already been given back (a double free). *)
Theorem stack_dealloc_exact (lo p : Z) (a : StackFrameAllocator) :
  stack_inv lo a → lo ≤ p →
  match StackFrameAllocator_dealloc p a with
  | Some a' =>
      stack_inv lo a' ∧ stack_owned lo a p ∧
      (∀ x, stack_owned lo a' x ↔ stack_owned lo a x ∧ x ≠ p)
  | None => ¬ stack_owned lo a p
  end.
Proof.
  intros Hinv Hp. pose proof (stack_dealloc_iff lo a p Hinv Hp) as Hiff.
  destruct (StackFrameAllocator_dealloc p a) as [a'|] eqn:E.
  - assert (stack_owned lo a p) as Hown by (apply Hiff; eauto).
    destruct (stack_dealloc_ok lo a p Hinv Hown) as (a'' & E' & ? & ? & _). by simplify_eq.
  - rewrite <- Hiff. by intros [??].
Qed.

Lemma stack_dealloc_exact_witness :
  let a := mkStackFA 0x80005 0x88000 [0x80001; 0x80003] in
  StackFrameAllocator_dealloc 0x80003 a = None ∧ ¬ stack_owned 0x80000 a 0x80003.
Proof.
  split; [reflexivity|].
  assert (Hinv : stack_inv 0x80000 (mkStackFA 0x80005 0x88000 [0x80001; 0x80003])).
  { unfold stack_inv; simpl. split_and!; try lia; [|repeat constructor; lia].
    by apply (bool_decide_unpack _). }
  exact (stack_dealloc_exact 0x80000 0x80003 _ Hinv ltac:(lia)).
Defined.
