(* ===== verification/PageTable.v ===== *)
(** * Sv39 page tables (os/src/mm/page_table.rs: PTEFlags, PageTableEntry,
    PageTable)

    A page table is its root frame and the frames it owns; its entries live in
    physical memory. [find_pte] and [find_pte_create] return the place of the
    leaf entry (page number and index) where the Rust code returns a reference
    to it. The abstract view of a page table is the finite map from virtual
    page numbers to valid entries, and [map], [unmap] and [translate] are shown
    to refine insertion, deletion and lookup on it. *)

From S2P Require Import Prelude Address PhysMem FrameAllocator.

(** ** Flags and entries *)

Definition PTE_V : Z := 1.
Definition PTE_R : Z := 2.
Definition PTE_W : Z := 4.
Definition PTE_X : Z := 8.
Definition PTE_U : Z := 16.
Definition PTE_G : Z := 32.
Definition PTE_A : Z := 64.
Definition PTE_D : Z := 128.

(** The union of the declared flags. *)
Definition PTEFlags_all : Z :=
  foldr Z.lor 0 [PTE_V; PTE_R; PTE_W; PTE_X; PTE_U; PTE_G; PTE_A; PTE_D].

(** [PTEFlags::from_bits]: [None] when an undeclared bit is set. *)
Definition PTEFlags_from_bits (b : Z) : option Z :=
  if Z.land b (wnot 8 PTEFlags_all) =? 0 then Some b else None.

(** A page-table entry is its 64 bits. *)
Definition PTE_new (ppn flags : Z) : Z := Z.lor (wshl 64 ppn 10) flags.
Definition PTE_empty : Z := 0.
Definition PTE_ppn (bits : Z) : Z := PhysPageNum_from (Z.land (Z.shiftr bits 10) (2 ^ 44 - 1)).
Definition PTE_flags (bits : Z) : option Z := PTEFlags_from_bits (wrap 8 bits).

(** [(self.flags() & f) != PTEFlags::empty()]. *)
Definition PTE_has (f bits : Z) : bool :=
  match PTE_flags bits with
  | Some fl => negb (Z.land fl f =? 0)
  | None => false
  end.
Definition is_valid (bits : Z) : bool := PTE_has PTE_V bits.
Definition readable (bits : Z) : bool := PTE_has PTE_R bits.
Definition writable (bits : Z) : bool := PTE_has PTE_W bits.
Definition executable (bits : Z) : bool := PTE_has PTE_X bits.

(** ** The page table *)

Record PageTable := mkPageTable { root_ppn : Z; pt_frames : list Z }.

(** [find_pte]: follow valid entries down to the leaf table. *)
Fixpoint walk (m : pmem) (idxs : list Z) (ppn : Z) : option (Z * Z) :=
  match idxs with
  | [] => None
  | [idx] => Some (ppn, idx)
  | idx :: rest =>
      let pte := rd m ppn idx in
      if is_valid pte then walk m rest (PTE_ppn pte) else None
  end.

Definition find_pte (m : pmem) (pt : PageTable) (vpn : Z) : option (Z * Z) :=
  walk m (indexes vpn) (root_ppn pt).

Definition translate (m : pmem) (pt : PageTable) (vpn : Z) : option Z :=
  '(p, i) ← find_pte m pt vpn; Some (rd m p i).

Definition translate_va (m : pmem) (pt : PageTable) (va : Z) : option Z :=
  '(p, i) ← find_pte m pt (floor va);
  let aligned_pa := PhysAddr_from_PhysPageNum (PTE_ppn (rd m p i)) in
  let offset := page_offset va in
  Some (PhysAddr_from (aligned_pa ⊞ offset)).

Definition token (pt : PageTable) : Z := Z.lor (wshl 64 8 60) (root_ppn pt).

Definition from_token (satp : Z) : PageTable :=
  mkPageTable (PhysPageNum_from (Z.land satp (2 ^ 44 - 1))) [].

Section ops.
Context {A : Type} `{FrameAllocator A}.

Definition PageTable_new : ST (mm A) PageTable :=
  o ← frame_alloc;
  frame ← unwrap o;
  mret (mkPageTable frame [frame]).

(** The loop of [find_pte_create]: missing inner tables are allocated and
    pushed to [frames]. *)
Fixpoint create_walk (idxs : list Z) (ppn : Z) (frames : list Z) :
    ST (mm A) (list Z * option (Z * Z)) :=
  match idxs with
  | [] => mret (frames, None)
  | [idx] => mret (frames, Some (ppn, idx))
  | idx :: rest =>
      pte ← st_gets (λ s, rd (mem s) ppn idx);
      if is_valid pte then create_walk rest (PTE_ppn pte) frames
      else
        o ← frame_alloc;
        frame ← unwrap o;
        let pte := PTE_new frame PTE_V in
        st_modify (λ s, set_mem (wr (mem s) ppn idx pte) s);;
        create_walk rest (PTE_ppn pte) (frames ++ [frame])
  end.

Definition find_pte_create (pt : PageTable) (vpn : Z) :
    ST (mm A) (PageTable * option (Z * Z)) :=
  '(frames, loc) ← create_walk (indexes vpn) (root_ppn pt) (pt_frames pt);
  mret (mkPageTable (root_ppn pt) frames, loc).

Definition PageTable_map (pt : PageTable) (vpn ppn flags : Z) : ST (mm A) PageTable :=
  '(pt, loc) ← find_pte_create pt vpn;
  '(p, i) ← unwrap loc;
  pte ← st_gets (λ s, rd (mem s) p i);
  rassert (negb (is_valid pte));;
  st_modify (λ s, set_mem (wr (mem s) p i (PTE_new ppn (Z.lor flags PTE_V))) s);;
  mret pt.

Definition PageTable_unmap (pt : PageTable) (vpn : Z) : ST (mm A) unit :=
  loc ← st_gets (λ s, find_pte (mem s) pt vpn);
  '(p, i) ← unwrap loc;
  pte ← st_gets (λ s, rd (mem s) p i);
  rassert (is_valid pte);;
  st_modify (λ s, set_mem (wr (mem s) p i PTE_empty) s).

End ops.

(** ** Entries *)

Lemma PTE_flags_total bits : PTE_flags bits = Some (wrap 8 bits).
Proof.
  unfold PTE_flags, PTEFlags_from_bits. change (wnot 8 PTEFlags_all) with 0.
  by rewrite Z.land_0_r.
Qed.

Lemma PTE_has_testbit k bits :
  0 ≤ k < 8 → PTE_has (2 ^ k) bits = Z.testbit bits k.
Proof.
  intros Hk. unfold PTE_has. rewrite PTE_flags_total. unfold wrap.
  assert (Z.land (bits mod 2 ^ 8) (2 ^ k) = if Z.testbit bits k then 2 ^ k else 0) as ->.
  { apply Z.bits_inj'. intros i Hi. rewrite Z.land_spec, Z.pow2_bits_eqb by lia.
    destruct (Z.eqb_spec k i) as [<-|Hne].
    - rewrite Z.mod_pow2_bits_low by lia.
      destruct (Z.testbit bits k) eqn:E; simpl; [by rewrite Z.pow2_bits_true by lia|by rewrite Z.bits_0].
    - rewrite andb_false_r. destruct (Z.testbit bits k);
        [by rewrite Z.pow2_bits_false by done|by rewrite Z.bits_0]. }
  destruct (Z.testbit bits k); [|done].
  by rewrite (proj2 (Z.eqb_neq _ _)) by lia.
Qed.

Lemma is_valid_testbit bits : is_valid bits = Z.testbit bits 0.
Proof. apply (PTE_has_testbit 0). lia. Qed.

Lemma is_valid_0 : is_valid 0 = false.
Proof. done. Qed.

Lemma PTE_new_add ppn flags :
  fits 44 ppn → fits 8 flags → PTE_new ppn flags = ppn * 1024 + flags.
Proof.
  intros [??] [??]. unfold PTE_new, wshl. rewrite wrap_small.
  - apply (lor_shiftl_add ppn flags 10); lia.
  - rewrite Z.shiftl_mul_pow2 by lia. unfold fits. lia.
Qed.

Lemma PTE_ppn_div bits : PTE_ppn bits = (bits / 1024) mod 2 ^ 44.
Proof.
  unfold PTE_ppn. rewrite PhysPageNum_from_mod, land_ones_mod by lia.
  rewrite Z.shiftr_div_pow2, Z.mod_mod by lia. done.
Qed.

Lemma PTE_ppn_fits bits : fits 44 (PTE_ppn bits).
Proof. rewrite PTE_ppn_div. apply Z.mod_pos_bound. lia. Qed.

Lemma PTE_ppn_new ppn flags : fits 44 ppn → fits 8 flags → PTE_ppn (PTE_new ppn flags) = ppn.
Proof.
  intros Hp Hf. rewrite PTE_ppn_div, PTE_new_add by done. destruct Hp, Hf.
  rewrite Z.div_add_l, (Z.div_small flags), Z.add_0_r by lia. apply Z.mod_small. lia.
Qed.

Lemma PTE_flags_new ppn flags :
  fits 44 ppn → fits 8 flags → PTE_flags (PTE_new ppn flags) = Some flags.
Proof.
  intros Hp Hf. rewrite PTE_flags_total, PTE_new_add by done. unfold wrap. f_equal.
  destruct Hf. zlia.
Qed.

Lemma is_valid_new ppn flags :
  fits 44 ppn → fits 8 flags → is_valid (PTE_new ppn flags) = Z.testbit flags 0.
Proof.
  intros. rewrite is_valid_testbit, PTE_new_add by done. rewrite !Z.bit0_odd.
  rewrite Z.odd_add, Z.odd_mul, andb_false_r. apply xorb_false_l.
Qed.

Lemma PTE_new_fits ppn flags : fits 44 ppn → fits 8 flags → fits 64 (PTE_new ppn flags).
Proof. intros [??] [??]. rewrite PTE_new_add by done. unfold fits. lia. Qed.

Lemma lor_V_fits flags : fits 8 flags → fits 8 (Z.lor flags PTE_V).
Proof.
  intros [??]. split; [apply Z.lor_nonneg; unfold PTE_V; lia|].
  destruct (decide (flags = 0)) as [->|]; [done|].
  apply Z.log2_lt_pow2; [|rewrite Z.log2_lor by (unfold PTE_V; lia)].
  - assert (0 ≤ Z.lor flags PTE_V) by (apply Z.lor_nonneg; unfold PTE_V; lia).
    assert (Z.lor flags PTE_V ≠ 0) by (intros [??]%Z.lor_eq_0_iff; done). lia.
  - apply Z.max_lub_lt; [apply Z.log2_lt_pow2; lia|done].
Qed.

Lemma lor_V_valid flags : Z.testbit (Z.lor flags PTE_V) 0 = true.
Proof. rewrite Z.lor_spec. apply orb_true_r. Qed.

(** ** The tree invariant

    [T] gives every frame of the page table its path: the indexes that lead to
    it from the root. A valid entry of an inner table leads to the table whose
    path is one index longer, so no two entries share a table. *)

Definition tree_ok (m : pmem) (T : gmap Z (list Z)) : Prop :=
  ∀ p π i, T !! p = Some π → (length π < 2)%nat → is_valid (rd m p i) = true →
    T !! PTE_ppn (rd m p i) = Some (π ++ [i]).

(** The valid leaf entry under table [p] along [idxs], if any. *)
Definition lookup_walk (m : pmem) (idxs : list Z) (p : Z) : option Z :=
  '(q, i) ← walk m idxs p;
  if is_valid (rd m q i) then Some (rd m q i) else None.

(** The valid entry of a page: what address translation uses. *)
Definition pt_lookup (m : pmem) (pt : PageTable) (vpn : Z) : option Z :=
  lookup_walk m (indexes vpn) (root_ppn pt).

(** A page with an entry: the physical address is its frame plus the offset. *)
Lemma translate_va_entry m pt va e :
  translate m pt (floor va) = Some e → translate_va m pt va = Some (PTE_ppn e * 4096 + page_offset va).
Proof.
  unfold translate, translate_va. destruct (find_pte _ _ _) as [[q i]|]; [|done].
  simpl. intros [= ->]. f_equal.
  pose proof (PTE_ppn_fits e) as [??]. pose proof (page_offset_bound va).
  change (PhysAddr_from_PhysPageNum (PTE_ppn e)) with (VirtAddr_from_VirtPageNum (PTE_ppn e)).
  rewrite addr_of_page_num_mul by (unfold fits; lia).
  rewrite wadd_small by (unfold fits; lia). rewrite PhysAddr_from_mod. apply Z.mod_small. lia.
Qed.

(** [pt_lookup] is [translate] followed by the validity test. *)
Lemma pt_lookup_translate m pt vpn :
  pt_lookup m pt vpn =
    match translate m pt vpn with
    | Some e => if is_valid e then Some e else None
    | None => None
    end.
Proof.
  unfold pt_lookup, lookup_walk, translate, find_pte.
  by destruct (walk _ _ _) as [[q i]|].
Qed.

Section tree.
Context (m : pmem) (T : gmap Z (list Z)).
Hypothesis Htree : tree_ok m T.

(** The walk from a table with path [π] ends at the table whose path is [π]
    and all indexes but the last. *)
Lemma walk_path idxs p π q i :
  T !! p = Some π → (length π + length idxs = 3)%nat →
  walk m idxs p = Some (q, i) → ∃ ρ, T !! q = Some ρ ∧ π ++ idxs = ρ ++ [i].
Proof.
  revert p π. induction idxs as [|idx rest IH]; intros p π Hp Hlen Hw; [done|].
  destruct rest as [|idx' rest].
  - simpl in Hw. simplify_eq. by exists π.
  - cbn [walk] in Hw. destruct (is_valid (rd m p idx)) eqn:Hv; [|done].
    destruct (IH (PTE_ppn (rd m p idx)) (π ++ [idx])) as (ρ & Hρ & E).
    + apply Htree; [done| |done]. simpl in Hlen. lia.
    + rewrite length_app. simpl in *. lia.
    + done.
    + exists ρ. by rewrite <- E, <- app_assoc.
Qed.

(** A memory that agrees on the inner tables has the same walks. *)
Lemma walk_inner_agree m' idxs p π :
  (∀ q ρ i, T !! q = Some ρ → (length ρ < 2)%nat → rd m' q i = rd m q i) →
  T !! p = Some π → (length π + length idxs = 3)%nat →
  walk m' idxs p = walk m idxs p.
Proof.
  intros Hag. revert p π. induction idxs as [|idx rest IH]; intros p π Hp Hlen; [done|].
  destruct rest as [|idx' rest]; [done|]. cbn [walk].
  rewrite (Hag p π) by (simpl in Hlen; done || lia).
  destruct (is_valid (rd m p idx)) eqn:Hv; [|done].
  apply (IH _ (π ++ [idx])).
  - apply Htree; [done| |done]. simpl in Hlen. lia.
  - rewrite length_app. simpl in *. lia.
Qed.

(** A memory that agrees on all tables has the same leaf entries. *)
Lemma lookup_walk_agree m' idxs p π :
  (∀ q i, is_Some (T !! q) → rd m' q i = rd m q i) →
  T !! p = Some π → (length π + length idxs = 3)%nat →
  lookup_walk m' idxs p = lookup_walk m idxs p.
Proof.
  intros Hag Hp Hlen. unfold lookup_walk.
  rewrite (walk_inner_agree m' idxs p π) by eauto.
  destruct (walk m idxs p) as [[q i]|] eqn:Hw; [|done]. simpl.
  destruct (walk_path idxs p π q i) as (ρ & ? & _); [done..|].
  by rewrite Hag by eauto.
Qed.

End tree.

(** A zeroed table maps nothing. *)
Lemma lookup_walk_zero m p idxs : (∀ i, rd m p i = 0) → lookup_walk m idxs p = None.
Proof.
  intros Hz. unfold lookup_walk. destruct idxs as [|idx [|idx' rest]]; simpl; [done| |].
  - by rewrite Hz.
  - by rewrite Hz.
Qed.

(** The entry of an inner table. *)
Lemma PTE_ppn_table f : fits 44 f → PTE_ppn (PTE_new f PTE_V) = f.
Proof. intros. apply PTE_ppn_new; [done|]. unfold fits, PTE_V. lia. Qed.

Lemma is_valid_table f : fits 44 f → is_valid (PTE_new f PTE_V) = true.
Proof. intros. rewrite is_valid_new; [done..|]. unfold fits, PTE_V. lia. Qed.

(** Adding a fresh, zeroed inner table [f] at a free slot [(p, i)] keeps the
    tree and changes no leaf entry. *)
Section add_table.
Context (m m' : pmem) (T : gmap Z (list Z)) (p i f : Z) (π : list Z).
Hypothesis Htree : tree_ok m T.
Hypothesis Hp : T !! p = Some π.
Hypothesis Hπ : (length π < 2)%nat.
Hypothesis Hinv : is_valid (rd m p i) = false.
Hypothesis Hf : T !! f = None.
Hypothesis Hfits : fits 44 f.
Hypothesis Hzero : ∀ j, rd m' f j = 0.
Hypothesis Hslot : rd m' p i = PTE_new f PTE_V.
Hypothesis Hag : ∀ q j, is_Some (T !! q) → (q, j) ≠ (p, i) → rd m' q j = rd m q j.

Lemma add_table_tree : tree_ok m' (<[f := π ++ [i]]> T).
Proof.
  intros q ρ j Hq Hρ Hv.
  destruct (decide (q = f)) as [->|Hqf]; [by rewrite Hzero in Hv|].
  rewrite lookup_insert_ne in Hq by done.
  destruct (decide ((q, j) = (p, i))) as [[= -> ->]|Hne].
  - rewrite Hslot, PTE_ppn_table, lookup_insert_eq by done. by simplify_eq.
  - rewrite Hag in * by eauto. rewrite lookup_insert_ne; [by apply Htree|].
    intros E. pose proof (Htree _ _ _ Hq Hρ Hv). congruence.
Qed.

Lemma add_table_lookup idxs q ρ :
  T !! q = Some ρ → (length ρ + length idxs = 3)%nat →
  lookup_walk m' idxs q = lookup_walk m idxs q.
Proof.
  revert q ρ. induction idxs as [|idx rest IH]; intros q ρ Hq Hlen; [done|].
  destruct rest as [|idx' rest].
  - unfold lookup_walk; simpl. rewrite Hag; [done|by eauto|].
    intros [= -> ->]. simplify_eq. simpl in Hlen. lia.
  - unfold lookup_walk; cbn [walk]; fold (walk m') (walk m).
    destruct (decide ((q, idx) = (p, i))) as [[= -> ->]|Hne].
    + rewrite Hslot, is_valid_table, PTE_ppn_table, Hinv by done.
      exact (lookup_walk_zero m' f (idx' :: rest) Hzero).
    + rewrite Hag by eauto. destruct (is_valid (rd m q idx)) eqn:Hv; [|done].
      apply (IH _ (ρ ++ [idx])).
      * apply Htree; [done| |done]. simpl in Hlen. lia.
      * rewrite length_app. simpl in *. lia.
Qed.

End add_table.

(** ** Growing the table: the specification of [find_pte_create] *)

Section spec.
Context {A : Type} `{FrameAllocatorLaws A}.

Abbreviation owned s := (fa_owned (frame_allocator s)).
Abbreviation avail s := (fa_avail (frame_allocator s)).

(** The frames of a page table carry a tree and belong to it alone. *)
Definition tables (s : mm A) (frames : list Z) (T : gmap Z (list Z)) : Prop :=
  mm_inv s ∧ tree_ok (mem s) T ∧ dom T = list_to_set frames ∧ NoDup frames ∧
  Forall (owned s) frames.

(** From [s] to [s'] fresh inner tables [new] were added: no leaf entry
    changed, and no owned page outside the tables was touched. *)
Definition grown (s s' : mm A) (frames new : list Z) (T T' : gmap Z (list Z)) : Prop :=
  T ⊆ T' ∧
  (∀ x, owned s' x ↔ owned s x ∨ x ∈ new) ∧ Forall (λ x, ¬ owned s x) new ∧
  avail s = (length new + avail s')%nat ∧
  (∀ idxs q ρ, T !! q = Some ρ → (length ρ + length idxs = 3)%nat →
     lookup_walk (mem s') idxs q = lookup_walk (mem s) idxs q) ∧
  (∀ q i, is_Some (T !! q) → is_valid (rd (mem s) q i) = true →
     rd (mem s') q i = rd (mem s) q i) ∧
  same_pages (λ x, owned s x ∧ x ∉ frames) s s'.

Lemma tables_lookup s frames T p : tables s frames T → is_Some (T !! p) ↔ p ∈ frames.
Proof. intros (_ & _ & Hd & _). rewrite <- elem_of_dom, Hd. apply elem_of_list_to_set. Qed.

Lemma grown_refl s frames T : grown s s frames [] T T.
Proof. split_and!; try done. set_solver. Qed.

Lemma grown_trans s1 s2 s3 frames new1 new2 T1 T2 T3 :
  grown s1 s2 frames new1 T1 T2 → grown s2 s3 (frames ++ new1) new2 T2 T3 →
  grown s1 s3 frames (new1 ++ new2) T1 T3.
Proof.
  intros (HT & Ho & Hn & Ha & Hl & Hk & Hs) (HT' & Ho' & Hn' & Ha' & Hl' & Hk' & Hs').
  split_and!.
  - by etrans.
  - intros x. rewrite Ho', Ho, elem_of_app. tauto.
  - apply Forall_app. split; [done|]. eapply Forall_impl; [exact Hn'|].
    simpl. intros x Hx. rewrite Ho in Hx. tauto.
  - rewrite length_app. lia.
  - intros idxs q ρ Hq Hlen. rewrite (Hl' _ _ ρ), (Hl _ _ ρ) by (done || by eapply lookup_weaken). done.
  - intros q i Hq Hv. rewrite <- (Hk q i) by done. apply Hk'; [|by rewrite Hk].
    destruct Hq as [ρ Hq]. exists ρ. by eapply lookup_weaken.
  - intros x i [Hx Hnx]. rewrite Hs', Hs; [done|done|]. rewrite Ho. split; [by left|].
    rewrite not_elem_of_app. split; [done|]. intros Hin.
    rewrite Forall_forall in Hn. by apply (Hn x).
Qed.

(** One missing table: the allocation and the store of its entry. *)
Lemma add_table_ok s frames T p π idx :
  tables s frames T → T !! p = Some π → (length π < 2)%nat →
  is_valid (rd (mem s) p idx) = false → avail s ≠ 0%nat →
  ∃ f s1,
    frame_alloc s = Done (Some f, s1) ∧ fits 44 f ∧
    let s2 := set_mem (wr (mem s1) p idx (PTE_new f PTE_V)) s1 in
    let T2 := <[f := π ++ [idx]]> T in
    tables s2 (frames ++ [f]) T2 ∧ grown s s2 frames [f] T T2 ∧
    rd (mem s2) p idx = PTE_new f PTE_V ∧ T2 !! f = Some (π ++ [idx]) ∧ ∀ j, rd (mem s2) f j = 0.
Proof.
  intros HT Hp Hπ Hinv Hav. pose proof HT as (Hmm & Htree & Hdom & Hnd & Hown).
  destruct (frame_alloc_ok s Hmm Hav) as (f & s1 & E & Hmm1 & Hf & Hnf & Ho & Ha & Hz & Hs).
  exists f, s1. split; [done|]. split; [done|].
  assert (∀ q, is_Some (T !! q) → owned s q) as HTown.
  { intros q Hq%(tables_lookup s frames T q HT). by eapply Forall_forall in Hown. }
  assert (T !! f = None) as HTf.
  { destruct (T !! f) eqn:E'; [|done]. destruct Hnf. apply HTown. by rewrite E'. }
  assert (∀ q, is_Some (T !! q) → q ≠ f) as Hne by (intros q [? Hq] ->; congruence).
  assert (f ∉ frames) as Hfnin.
  { rewrite <- (tables_lookup s frames T f HT), HTf. by intros [? ?]. }
  intros s2 T2.
  assert (∀ j, rd (mem s2) f j = 0) as Hz2.
  { intros j. simpl. rewrite rd_wr_ne; [done|]. left. apply Hne. eauto. }
  assert (rd (mem s2) p idx = PTE_new f PTE_V) as Hslot by apply rd_wr_eq.
  assert (∀ q j, is_Some (T !! q) → (q, j) ≠ (p, idx) → rd (mem s2) q j = rd (mem s) q j) as Hag.
  { intros q j Hq Hqj. simpl. rewrite rd_wr_ne, Hs; [done|by apply Hne|].
    destruct (decide (p = q)) as [->|]; [|by left]. right. congruence. }
  split_and!; [split_and!|split_and!|done|apply lookup_insert_eq|done].
  - split; [apply (proj1 Hmm1)|]. apply mem_wf_wr; [apply (proj2 Hmm1)|].
    apply PTE_new_fits; [done|]. unfold fits, PTE_V. lia.
  - by eapply (add_table_tree (mem s)).
  - subst T2. rewrite dom_insert_L, Hdom, list_to_set_app_L. set_solver.
  - apply NoDup_app. split_and!; [done| |apply NoDup_singleton]. set_solver.
  - apply Forall_app. rewrite Forall_singleton. simpl.
    split; [|by apply Ho; right]. eapply Forall_impl; [exact Hown|]. intros x Hx. apply Ho. by left.
  - by apply insert_subseteq.
  - intros x. simpl. rewrite Ho. set_solver.
  - by apply Forall_singleton.
  - simpl. lia.
  - intros idxs q ρ Hq Hlen. by eapply (add_table_lookup (mem s) _ T p idx f π).
  - intros q j Hq Hv. apply Hag; [done|]. intros [= -> ->]. congruence.
  - intros x j [Hx Hnx]. simpl. rewrite rd_wr_ne, Hs; [done|congruence|].
    left. intros ->. apply Hnx, (tables_lookup s frames T x HT). eauto.
Qed.

(** The number of tables that the walk lacks. *)
Fixpoint missing (m : pmem) (idxs : list Z) (p : Z) : nat :=
  match idxs with
  | idx :: (_ :: _) as rest => if is_valid (rd m p idx) then missing m rest (PTE_ppn (rd m p idx)) else length rest
  | _ => 0
  end.

Lemma missing_zero m idxs p : (∀ i, rd m p i = 0) → missing m idxs p = (length idxs - 1)%nat.
Proof. intros Hz. destruct idxs as [|i [|j idxs]]; [done|done|]. cbn [missing]. rewrite Hz, is_valid_0. simpl. lia. Qed.

Lemma create_walk_ok idxs p π frames s T :
  tables s frames T → T !! p = Some π → (length π + length idxs = 3)%nat →
  idxs ≠ [] → (length idxs ≤ S (avail s))%nat →
  ∃ new q i s' T',
    create_walk idxs p frames s = Done ((frames ++ new, Some (q, i)), s') ∧
    tables s' (frames ++ new) T' ∧ grown s s' frames new T T' ∧
    walk (mem s') idxs p = Some (q, i) ∧ (length new < length idxs)%nat ∧
    length new = missing (mem s) idxs p.
Proof.
  revert p π frames s T.
  induction idxs as [|idx rest IH]; intros p π frames s T HT Hp Hlen Hne Hav; [done|].
  destruct rest as [|idx' rest].
  - exists [], p, idx, s, T. rewrite app_nil_r. split_and!; [done|done|apply grown_refl|done|simpl; lia|done].
  - cbn [create_walk]. unfold st_gets at 1. erewrite bind_step by reflexivity.
    assert (length π < 2)%nat as Hπ by (simpl in Hlen; lia).
    assert (length (π ++ [idx]) + length (idx' :: rest) = 3)%nat as Hlen'
      by (rewrite length_app; simpl in *; lia).
    destruct (is_valid (rd (mem s) p idx)) eqn:Hv.
    + pose proof HT as (_ & Htree & _).
      destruct (IH (PTE_ppn (rd (mem s) p idx)) (π ++ [idx]) frames s T)
        as (new & q & i & s' & T' & E & HT' & Hg & Hw & Hnew & Hmiss);
        [done|by apply Htree|done|done|simpl in *; lia|].
      exists new, q, i, s', T'. split_and!; [done..| |simpl in *; lia|cbn [missing]; by rewrite Hv]. cbn [walk].
      destruct Hg as (_ & _ & _ & _ & _ & Hk & _). by rewrite Hk, Hv by eauto.
    + destruct (add_table_ok s frames T p π idx)
        as (f & s1 & E1 & Hf & HT2 & Hg2 & Hslot & Hf2 & Hz2); [done..|simpl in Hav; lia|].
      rewrite (bind_step _ _ _ _ _ E1). erewrite bind_step by reflexivity.
      erewrite bind_step by reflexivity. rewrite PTE_ppn_table by done.
      edestruct IH as (new & q & i & s' & T' & E & HT' & Hg & Hw & Hnew & Hmiss);
        [exact HT2|exact Hf2|done|done| |].
      { destruct Hg2 as (_ & _ & _ & Ha & _). simpl in *. lia. }
      exists (f :: new), q, i, s', T'. change (f :: new) with ([f] ++ new).
      rewrite (app_assoc frames).
      split_and!; [done|done|by eapply grown_trans| |simpl in *; lia|cbn [missing]; rewrite Hv, length_app; simpl; rewrite Hmiss, missing_zero by done; simpl; lia].
      cbn [walk]. destruct Hg as (_ & _ & _ & _ & _ & Hk & _).
      assert (is_Some (<[f := π ++ [idx]]> T !! p)).
      { rewrite lookup_insert_is_Some. destruct (decide (f = p)); [by left|by right; eauto]. }
      rewrite Hk, Hslot, is_valid_table, PTE_ppn_table by (rewrite ?Hslot, ?is_valid_table; done).
      done.
Qed.

(** ** [map] and [unmap] *)

(** The invariant of a page table. *)
Definition pt_inv (s : mm A) (pt : PageTable) (T : gmap Z (list Z)) : Prop :=
  tables s (pt_frames pt) T ∧ T !! root_ppn pt = Some [].

(** The leaf slot of a page lies in a table with a path of length two. *)
Lemma leaf_path s pt T vpn q i :
  pt_inv s pt T → find_pte (mem s) pt vpn = Some (q, i) →
  ∃ ρ, T !! q = Some ρ ∧ indexes vpn = ρ ++ [i] ∧ length ρ = 2%nat ∧ q ∈ pt_frames pt.
Proof.
  intros [HT Hroot] Hfind. pose proof HT as (_ & Htree & _).
  destruct (walk_path _ _ Htree (indexes vpn) _ [] q i Hroot eq_refl Hfind) as (ρ & Hq & Hρ).
  exists ρ. split_and!; [done|done| |by apply (tables_lookup s _ T q HT); eauto].
  apply (f_equal length) in Hρ. change (length ([] ++ indexes vpn)) with 3%nat in Hρ.
  rewrite length_app in Hρ. simpl in Hρ. lia.
Qed.

(** Storing [e] in the leaf slot of [vpn] keeps the tree and changes the entry
    of [vpn] only. *)
Lemma leaf_store s pt T vpn q i e :
  pt_inv s pt T → fits 27 vpn → fits 64 e →
  find_pte (mem s) pt vpn = Some (q, i) →
  let s' := set_mem (wr (mem s) q i e) s in
  pt_inv s' pt T ∧
  (∀ v, fits 27 v → pt_lookup (mem s') pt v =
     if decide (v = vpn) then (if is_valid e then Some e else None)
     else pt_lookup (mem s) pt v).
Proof.
  intros Hpt Hvpn He Hfind s'. pose proof Hpt as [(Hmm & Htree & Hrest) Hroot].
  destruct (leaf_path _ _ _ _ _ _ Hpt Hfind) as (ρ & Hq & Hρ & Hlenρ & _).
  assert (∀ p π j, T !! p = Some π → (length π < 2)%nat → rd (mem s') p j = rd (mem s) p j) as Hinner.
  { intros p π j Hp Hπ. apply rd_wr_ne. left. intros ->. simplify_eq. lia. }
  assert (tree_ok (mem s') T) as Htree'.
  { intros p π j Hp Hπ. rewrite (Hinner p π) by done. by apply Htree. }
  assert (∀ v, find_pte (mem s') pt v = find_pte (mem s) pt v) as Hsame.
  { intros v. by apply (walk_inner_agree (mem s) T Htree (mem s') (indexes v) _ [] Hinner). }
  split.
  - split; [|done]. split; [|done]. split; [apply (proj1 Hmm)|]. apply mem_wf_wr; [apply (proj2 Hmm)|done].
  - intros v Hv. unfold pt_lookup, lookup_walk. fold (find_pte (mem s') pt v) (find_pte (mem s) pt v).
    rewrite Hsame. case_decide as Hvv; [subst v|].
    + rewrite Hfind. simpl. by rewrite rd_wr_eq.
    + destruct (find_pte (mem s) pt v) as [[q' i']|] eqn:Hfind'; [|done]. simpl.
      rewrite rd_wr_ne; [done|].
      destruct (decide (q = q')) as [<-|]; [|by left]. right. intros <-.
      destruct (leaf_path _ _ _ _ _ _ Hpt Hfind') as (ρ' & Hq' & Hρ' & _).
      apply Hvv, indexes_inj; [done..|]. congruence.
Qed.

(** [map] on a page without an entry: the missing tables, then the store. *)
Lemma PageTable_map_run s pt T vpn ppn flags :
  pt_inv s pt T → (2 ≤ avail s)%nat → pt_lookup (mem s) pt vpn = None →
  ∃ new q i s1 T1,
    let pt' := mkPageTable (root_ppn pt) (pt_frames pt ++ new) in
    PageTable_map pt vpn ppn flags s = Done (pt', set_mem (wr (mem s1) q i (PTE_new ppn (Z.lor flags PTE_V))) s1) ∧
    tables s1 (pt_frames pt ++ new) T1 ∧ grown s s1 (pt_frames pt) new T T1 ∧
    find_pte (mem s1) pt vpn = Some (q, i) ∧ (length new ≤ 2)%nat ∧
    length new = missing (mem s) (indexes vpn) (root_ppn pt).
Proof.
  intros [HT Hroot] Hav Hnone.
  destruct (create_walk_ok (indexes vpn) (root_ppn pt) [] (pt_frames pt) s T)
    as (new & q & i & s1 & T1 & E & HT1 & Hg & Hw & Hnew & Hmiss); [done|done|done|done|simpl; lia|].
  exists new, q, i, s1, T1. split_and!; [|done|done|done|simpl in Hnew; lia|done].
  destruct Hg as (_ & _ & _ & _ & Hl & _).
  unfold PageTable_map, find_pte_create. rewrite (bind_step _ _ _ _ _ (bind_step _ _ _ _ _ E)).
  cbn. unfold mbind, st_bind, st_gets, unwrap, rassert, st_modify, mret, st_ret. simpl.
  assert (is_valid (rd (mem s1) q i) = false) as ->; [|done].
  specialize (Hl (indexes vpn) _ [] Hroot eq_refl). unfold pt_lookup in Hnone.
  rewrite Hnone in Hl. unfold lookup_walk in Hl. rewrite Hw in Hl. simpl in Hl.
  by destruct (is_valid _).
Qed.

Lemma PageTable_map_ok s pt T vpn ppn flags :
  pt_inv s pt T → fits 27 vpn → fits 44 ppn → fits 8 flags →
  (2 ≤ avail s)%nat → pt_lookup (mem s) pt vpn = None →
  ∃ new s' T',
    let pt' := mkPageTable (root_ppn pt) (pt_frames pt ++ new) in
    PageTable_map pt vpn ppn flags s = Done (pt', s') ∧ pt_inv s' pt' T' ∧
    (∀ x, owned s' x ↔ owned s x ∨ x ∈ new) ∧ Forall (λ x, ¬ owned s x) new ∧
    avail s = (length new + avail s')%nat ∧ (length new ≤ 2)%nat ∧
    same_pages (λ x, owned s x ∧ x ∉ pt_frames pt) s s' ∧
    (∀ v, fits 27 v → pt_lookup (mem s') pt' v =
       if decide (v = vpn) then Some (PTE_new ppn (Z.lor flags PTE_V))
       else pt_lookup (mem s) pt v).
Proof.
  intros Hpt Hvpn Hppn Hfl Hav Hnone. pose proof Hpt as [HT Hroot].
  destruct (PageTable_map_run s pt T vpn ppn flags Hpt Hav Hnone) as (new & q & i & s1 & T1 & E & HT1 & Hg & Hw & Hnew & _).
  destruct Hg as (Hsub & Ho & Hn & Ha & Hl & Hk & Hs).
  set (pt' := mkPageTable (root_ppn pt) (pt_frames pt ++ new)).
  set (e := PTE_new ppn (Z.lor flags PTE_V)) in *.
  assert (fits 64 e) as He by (apply PTE_new_fits, lor_V_fits; done).
  assert (is_valid e = true) as Hve.
  { subst e. rewrite is_valid_new by (done || by apply lor_V_fits). apply lor_V_valid. }
  assert (pt_inv s1 pt' T1) as Hpt1 by (split; [done|]; by eapply lookup_weaken).
  destruct (leaf_store s1 pt' T1 vpn q i e Hpt1 Hvpn He Hw) as [Hpt2 Hlk2].
  exists new, (set_mem (wr (mem s1) q i e) s1), T1. intros pt''. split_and!; try done.
  - intros x j [Hx Hnx]. simpl. rewrite rd_wr_ne; [by apply Hs|]. left. intros ->.
    destruct (leaf_path _ _ _ _ _ _ Hpt1 Hw) as (ρ & _ & _ & _ & Hx').
    simpl in Hx'. rewrite elem_of_app in Hx'. destruct Hx'; [done|].
    rewrite Forall_forall in Hn. by apply (Hn x).
  - intros v Hv. etrans; [exact (Hlk2 v Hv)|]. case_decide; [by rewrite Hve|].
    unfold pt_lookup. by apply (Hl _ _ []).
Qed.

Lemma PageTable_map_mapped s pt T vpn ppn flags e :
  pt_inv s pt T → (2 ≤ avail s)%nat → pt_lookup (mem s) pt vpn = Some e →
  PageTable_map pt vpn ppn flags s = Panic.
Proof.
  intros [HT Hroot] Hav Hsome.
  destruct (create_walk_ok (indexes vpn) (root_ppn pt) [] (pt_frames pt) s T)
    as (new & q & i & s1 & T1 & E & HT1 & Hg & Hw & Hnew); [done|done|done|done|simpl; lia|].
  destruct Hg as (_ & _ & _ & _ & Hl & _).
  unfold PageTable_map, find_pte_create. rewrite (bind_step _ _ _ _ _ (bind_step _ _ _ _ _ E)).
  cbn. unfold mbind, st_bind, st_gets, unwrap, rassert, st_modify, mret, st_ret. simpl.
  specialize (Hl (indexes vpn) _ [] Hroot eq_refl). unfold pt_lookup in Hsome.
  rewrite Hsome in Hl. unfold lookup_walk in Hl. rewrite Hw in Hl. simpl in Hl.
  by destruct (is_valid _).
Qed.

Lemma PageTable_unmap_ok s pt T vpn e :
  pt_inv s pt T → fits 27 vpn → pt_lookup (mem s) pt vpn = Some e →
  ∃ s', PageTable_unmap pt vpn s = Done (tt, s') ∧ pt_inv s' pt T ∧
    frame_allocator s' = frame_allocator s ∧
    same_pages (λ x, x ∉ pt_frames pt) s s' ∧
    (∀ v, fits 27 v → pt_lookup (mem s') pt v =
       if decide (v = vpn) then None else pt_lookup (mem s) pt v).
Proof.
  intros Hpt Hvpn Hsome. unfold pt_lookup, lookup_walk in Hsome.
  destruct (walk (mem s) (indexes vpn) (root_ppn pt)) as [[q i]|] eqn:Hw; [|done].
  simpl in Hsome. destruct (is_valid (rd (mem s) q i)) eqn:Hv; [|done].
  destruct (leaf_store s pt T vpn q i PTE_empty Hpt Hvpn) as [Hpt' Hlk]; [unfold fits, PTE_empty; lia|done|].
  exists (set_mem (wr (mem s) q i PTE_empty) s). split_and!; try done.
  - unfold PageTable_unmap, find_pte, mbind, st_bind, st_gets, unwrap. rewrite Hw.
    unfold mret, st_ret; simpl. by rewrite Hv.
  - intros x j Hx. simpl. apply rd_wr_ne. left. intros ->. apply Hx.
    by destruct (leaf_path _ _ _ _ _ _ Hpt Hw) as (ρ & _ & _ & _ & Hx').
Qed.

Lemma PageTable_unmap_unmapped (s : mm A) pt vpn :
  pt_lookup (mem s) pt vpn = None → PageTable_unmap pt vpn s = Panic.
Proof.
  unfold pt_lookup, lookup_walk, PageTable_unmap, find_pte, mbind, st_bind, st_gets, unwrap.
  destruct (walk _ _ _) as [[q i]|]; [|done]. unfold mret, st_ret; simpl.
  by destruct (is_valid _).
Qed.

Lemma PageTable_new_ok s :
  mm_inv s → avail s ≠ 0%nat →
  ∃ f s', PageTable_new s = Done (mkPageTable f [f], s') ∧
    pt_inv s' (mkPageTable f [f]) {[f := []]} ∧ fits 44 f ∧ ¬ owned s f ∧
    (∀ x, owned s' x ↔ owned s x ∨ x = f) ∧ avail s = S (avail s') ∧
    same_pages (λ q, q ≠ f) s s' ∧
    (∀ v, pt_lookup (mem s') (mkPageTable f [f]) v = None).
Proof.
  intros Hmm Hav.
  destruct (frame_alloc_ok s Hmm Hav) as (f & s' & E & Hmm' & Hf & Hnf & Ho & Ha & Hz & Hs).
  exists f, s'. split_and!; try done.
  - unfold PageTable_new. rewrite (bind_step _ _ _ _ _ E). done.
  - split; [|apply lookup_singleton_eq]. split_and!; [done| | |apply NoDup_singleton|].
    + intros p π i [<- <-]%lookup_singleton_Some _ Hv. by rewrite Hz in Hv.
    + rewrite dom_singleton_L. set_solver.
    + apply Forall_singleton. apply Ho. by right.
  - intros v. by apply lookup_walk_zero.
Qed.

(** A state in which the tables of [pt] are unchanged has the same entries. *)
Lemma pt_inv_frame s s' pt T :
  pt_inv s pt T → mm_inv s' → same_pages (λ x, x ∈ pt_frames pt) s s' →
  Forall (owned s') (pt_frames pt) →
  pt_inv s' pt T ∧ ∀ v, pt_lookup (mem s') pt v = pt_lookup (mem s) pt v.
Proof.
  intros [HT Hroot] Hmm' Hs Hown. pose proof HT as (Hmm & Htree & Hd & Hnd & _).
  assert (∀ q i, is_Some (T !! q) → rd (mem s') q i = rd (mem s) q i) as Hag.
  { intros q i Hq. apply Hs. by apply (tables_lookup s _ T q HT). }
  split.
  - split; [|done]. split_and!; try done. intros p π i Hp Hπ Hv.
    rewrite Hag in * by eauto. by apply Htree.
  - intros v. by apply (lookup_walk_agree (mem s) T Htree (mem s') (indexes v) _ [] Hag).
Qed.

(** ** The abstract page table *)

(** Page table [pt] implements the map [G] from page numbers to valid entries. *)
Definition represents (s : mm A) (pt : PageTable) (G : gmap Z Z) : Prop :=
  (∃ T, pt_inv s pt T) ∧ ∀ v, fits 27 v → pt_lookup (mem s) pt v = G !! v.

Lemma represents_empty s :
  mm_inv s → avail s ≠ 0%nat →
  ∃ f s', PageTable_new s = Done (mkPageTable f [f], s') ∧
    represents s' (mkPageTable f [f]) ∅ ∧ avail s = S (avail s').
Proof.
  intros Hmm Hav.
  destruct (PageTable_new_ok s Hmm Hav) as (f & s' & E & Hpt & _ & _ & _ & Ha & _ & Hl).
  exists f, s'. split_and!; [done| |done]. split; [by eauto|]. intros v _. by rewrite Hl.
Qed.

Lemma token_root pt : fits 44 (root_ppn pt) → root_ppn (from_token (token pt)) = root_ppn pt.
Proof.
  intros [??]. unfold from_token, token; simpl.
  change (wshl 64 8 60) with (Z.shiftl 524288 44). rewrite lor_shiftl_add by lia.
  rewrite land_ones_mod, PhysPageNum_from_mod by lia. zlia.
Qed.

(** ** Properties *)

(** C10. [PageTable::map] refines insertion into the abstract map: for an
    unmapped page it succeeds, the page gets the new entry and every other page
    keeps its own, and no owned page outside the table is touched; for a mapped
    page it panics. *)
Theorem map_refines_insert (s : mm A) (pt : PageTable) (G : gmap Z Z) (vpn ppn flags : Z) :
  represents s pt G → fits 27 vpn → fits 44 ppn → fits 8 flags → (2 ≤ avail s)%nat →
  match G !! vpn with
  | None =>
      ∃ pt' s', PageTable_map pt vpn ppn flags s = Done (pt', s') ∧
        represents s' pt' (<[vpn := PTE_new ppn (Z.lor flags PTE_V)]> G) ∧
        root_ppn pt' = root_ppn pt ∧
        same_pages (λ x, owned s x ∧ x ∉ pt_frames pt) s s'
  | Some _ => PageTable_map pt vpn ppn flags s = Panic
  end.
Proof.
  intros [[T Hpt] HG] Hv Hp Hf Hav. destruct (G !! vpn) as [e|] eqn:E.
  - by apply (PageTable_map_mapped s pt T vpn ppn flags e); rewrite ?HG.
  - destruct (PageTable_map_ok s pt T vpn ppn flags) as (new & s' & T' & E' & Hpt' & _ & _ & _ & _ & Hs & Hl);
      [done..|by rewrite HG|].
    eexists _, s'. split_and!; [exact E'| |done|done]. split; [by eauto|].
    intros v Hv'. rewrite Hl, lookup_insert by done. repeat case_decide; try congruence. by apply HG.
Qed.

(** [PageTable::unmap] refines deletion: a mapped page loses its entry and
    every other page keeps its own; an unmapped page makes it panic. *)
Theorem unmap_refines_delete (s : mm A) (pt : PageTable) (G : gmap Z Z) (vpn : Z) :
  represents s pt G → fits 27 vpn →
  match G !! vpn with
  | Some _ =>
      ∃ s', PageTable_unmap pt vpn s = Done (tt, s') ∧ represents s' pt (delete vpn G) ∧
        same_pages (λ x, x ∉ pt_frames pt) s s'
  | None => PageTable_unmap pt vpn s = Panic
  end.
Proof.
  intros [[T Hpt] HG] Hv. destruct (G !! vpn) as [e|] eqn:E.
  - destruct (PageTable_unmap_ok s pt T vpn e) as (s' & E' & Hpt' & _ & Hs & Hl); [done|done|by rewrite HG|].
    exists s'. split_and!; [done| |done]. split; [by eauto|].
    intros v Hv'. rewrite Hl, lookup_delete by done. repeat case_decide; try congruence. by apply HG.
  - by apply PageTable_unmap_unmapped; rewrite HG.
Qed.

(** Address translation through the token of a page table: a mapped
    virtual address becomes the physical address of its frame plus the page
    offset, and the entry found is the abstract one. *)
Theorem translate_refines_lookup (s : mm A) (pt : PageTable) (G : gmap Z Z) (va e : Z) :
  represents s pt G → fits 44 (root_ppn pt) → fits 39 va → G !! floor va = Some e →
  let pt' := from_token (token pt) in
  translate (mem s) pt' (floor va) = Some e ∧
  translate_va (mem s) pt' va = Some (PTE_ppn e * 4096 + page_offset va).
Proof.
  intros [_ HG] Hroot [??] He pt'.
  assert (fits 27 (floor va)) as Hv by (unfold fits, floor, PAGE_SIZE; zlia).
  specialize (HG _ Hv). rewrite He in HG. unfold pt_lookup, lookup_walk in HG.
  assert (find_pte (mem s) pt' (floor va) = walk (mem s) (indexes (floor va)) (root_ppn pt)) as Hfind.
  { subst pt'. unfold find_pte. by rewrite token_root. }
  assert (translate (mem s) pt' (floor va) = Some e) as Ht.
  { unfold translate. rewrite Hfind. destruct (walk _ _ _) as [[q i]|]; [|done]. simpl in *.
    by destruct (is_valid _). }
  split; [done|]. by apply translate_va_entry.
Qed.

End spec.

(** ** Witnesses *)

Definition wit_mm : mm StackFrameAllocator := mkMM (mkStackFA 0x80500 0x80510 []) ∅.

Lemma wit_mm_inv : @mm_inv _ _ (stack_frame_laws 0x80500) wit_mm.
Proof.
  split; simpl.
  - unfold stack_inv; simpl. split_and!; try lia; [apply NoDup_nil_2|by constructor].
  - intros p i. unfold rd, get_page. rewrite lookup_empty. unfold fits, rd_word; simpl.
    rewrite lookup_empty. simpl. lia.
Qed.

Lemma map_refines_insert_witness :
  ∃ pt s pt' s', PageTable_new wit_mm = Done (pt, s) ∧
    PageTable_map pt 0x10 0x80600 (Z.lor PTE_R PTE_U) s = Done (pt', s') ∧
    translate (mem s') pt' 0x10 = Some (PTE_new 0x80600 0x13).
Proof.
  destruct (@represents_empty _ _ (stack_frame_laws 0x80500) wit_mm wit_mm_inv ltac:(done))
    as (f & s & E & Hrep & Ha).
  destruct (@map_refines_insert _ _ (stack_frame_laws 0x80500) s _ ∅ 0x10 0x80600 (Z.lor PTE_R PTE_U) Hrep)
    as (pt' & s' & E' & Hrep' & _ & _);
    [unfold fits; lia|unfold fits; lia|split; [done|reflexivity]|change (16%nat = S (stack_avail (frame_allocator s))) in Ha; simpl; lia|].
  exists (mkPageTable f [f]), s, pt', s'. split_and!; [done|done|].
  destruct Hrep' as [_ Hl]. specialize (Hl 0x10 ltac:(unfold fits; lia)).
  rewrite lookup_insert_eq, pt_lookup_translate in Hl.
  destruct (translate _ _ _) as [e|]; [|done]. by destruct (is_valid e); simplify_eq.
Defined.

(** The state after [map] of page 0x10 to frame 0x80600 in a new table. *)
Lemma wit_mapped :
  ∃ pt s, @represents _ _ (stack_frame_laws 0x80500) s pt {[0x10 := PTE_new 0x80600 0x13]} ∧
    fits 44 (root_ppn pt) ∧ (13 ≤ stack_avail (frame_allocator s))%nat.
Proof.
  destruct (@PageTable_new_ok _ _ (stack_frame_laws 0x80500) wit_mm wit_mm_inv ltac:(done))
    as (f & s & E & Hpt & Hf & _ & _ & Ha & _ & Hl).
  destruct (@PageTable_map_ok _ _ (stack_frame_laws 0x80500) s _ _ 0x10 0x80600 (Z.lor PTE_R PTE_U) Hpt)
    as (new & s' & T' & E' & Hpt' & _ & _ & Ha' & Hlen & Hs & Hl');
    [unfold fits; lia|unfold fits; lia|split; [done|reflexivity]
    |change (16%nat = S (stack_avail (frame_allocator s))) in Ha; simpl; lia|by rewrite Hl|].
  change (16%nat = S (stack_avail (frame_allocator s))) in Ha. simpl in Ha'.
  eexists _, s'. split; [split; [by eauto|]|split; [exact Hf|lia]].
  intros v Hv. rewrite Hl', lookup_singleton by done. by repeat case_decide.
Qed.

Lemma unmap_refines_delete_witness :
  ∃ (pt : PageTable) (s s' : mm StackFrameAllocator),
    PageTable_unmap pt 0x10 s = Done (tt, s') ∧ PageTable_unmap pt 0x10 s' = Panic.
Proof.
  destruct wit_mapped as (pt & s & Hrep & _).
  destruct (@unmap_refines_delete _ _ (stack_frame_laws 0x80500) s pt _ 0x10 Hrep ltac:(unfold fits; lia))
    as (s' & E & Hrep' & _).
  exists pt, s, s'. split; [done|].
  exact (@unmap_refines_delete _ _ (stack_frame_laws 0x80500) s' pt _ 0x10 Hrep' ltac:(unfold fits; lia)).
Defined.

Lemma translate_refines_lookup_witness :
  ∃ (pt : PageTable) (s : mm StackFrameAllocator),
    translate_va (mem s) (from_token (token pt)) 0x10abc = Some 0x80600abc.
Proof.
  destruct wit_mapped as (pt & s & Hrep & Hroot & _). exists pt, s.
  apply (@translate_refines_lookup _ _ (stack_frame_laws 0x80500) s pt _ 0x10abc (PTE_new 0x80600 0x13) Hrep Hroot);
    [unfold fits; lia|reflexivity].
Defined.
