(* ===== verification/UserBuffer.v ===== *)
(** * Access to user memory (os/src/mm/page_table.rs: translated_byte_buffer,
    translated_str, translated_ref, translated_refmut, UserBuffer)

    The kernel reads user pointers by translating them through the page table
    of the process. A slice of a physical page is the page number, the offset
    and the length; a pointer into it is a physical address. *)

From S2P Require Import Prelude Address PhysMem FrameAllocator PageTable.

(** ** Slices of physical pages *)

Record slice_ref := mkSliceRef { sl_ppn : Z; sl_off : Z; sl_len : Z }.

(** [&mut ppn.get_bytes_array()[lo..hi]], with its bounds check. *)
Definition page_slice (ppn lo hi : Z) : option slice_ref :=
  if (lo <=? hi) && (hi <=? 4096) then Some (mkSliceRef ppn lo (hi - lo)) else None.

(** The physical addresses of the bytes of a slice. *)
Definition sref_addrs (b : slice_ref) : list Z :=
  let base := sl_ppn b * 4096 + sl_off b in zrange base (base + sl_len b).

(** ** Translation of user pointers *)

(** One turn of the [while] loop of [translated_byte_buffer]. *)
Definition tbb_body (page_table : PageTable) (end_ : Z) (acc : Z * list slice_ref) :
    ST pmem (Z * list slice_ref + list slice_ref) :=
  let '(start, v) := acc in
  if start <? end_ then
    let start_va := VirtAddr_from start in
    let vpn := floor start_va in
    m ← st_get;
    pte ← unwrap (translate m page_table vpn);
    let ppn := PTE_ppn pte in
    let vpn := step vpn in
    let end_va := VirtAddr_from_VirtPageNum vpn in
    let end_va := Z.min end_va (VirtAddr_from end_) in
    sl ← unwrap (if page_offset end_va =? 0
                 then page_slice ppn (page_offset start_va) 4096
                 else page_slice ppn (page_offset start_va) (page_offset end_va));
    mret (inl (usize_from_VirtAddr end_va, v ++ [sl]))
  else mret (inr v).

Definition translated_byte_buffer (fuel : nat) (token ptr len : Z) : ST pmem (list slice_ref) :=
  loop fuel (tbb_body (from_token token) (ptr ⊞ len)) (ptr, []).

(** [translated_str]; a [char] pushed to the string is its code point. *)
Definition str_body (page_table : PageTable) (acc : Z * list Z) : ST pmem (Z * list Z + list Z) :=
  let '(va, string) := acc in
  m ← st_get;
  pa ← unwrap (translate_va m page_table (VirtAddr_from va));
  let ch := rd_pa m pa in
  if ch =? 0 then mret (inr string)
  else mret (inl (va ⊞ 1, string ++ [ch])).

Definition translated_str (fuel : nat) (token ptr : Z) : ST pmem (list Z) :=
  loop fuel (str_body (from_token token)) (ptr, []).

(** [translated_ref] and [translated_refmut]: the physical address the
    reference points to. *)
Definition translated_ref (token ptr : Z) : ST pmem Z :=
  m ← st_get; unwrap (translate_va m (from_token token) (VirtAddr_from ptr)).
Definition translated_refmut (token ptr : Z) : ST pmem Z :=
  m ← st_get; unwrap (translate_va m (from_token token) (VirtAddr_from ptr)).

(** ** [UserBuffer] and its iterator *)

Record UserBuffer := mkUserBuffer { buffers : list slice_ref }.

Definition UserBuffer_len (u : UserBuffer) : Z :=
  foldl (λ total b, total ⊞ sl_len b) 0 (buffers u).

Record UserBufferIterator := mkUBIter {
  it_buffers : list slice_ref;
  current_buffer : nat;
  current_idx : Z;
}.

Definition UserBuffer_into_iter (u : UserBuffer) : UserBufferIterator :=
  mkUBIter (buffers u) 0 0.

(** [UserBufferIterator::next]: the pointer is the address of the byte. *)
Definition UserBufferIterator_next : ST UserBufferIterator (option Z) :=
  it ← st_get;
  if bool_decide (length (it_buffers it) ≤ current_buffer it)%nat then mret None
  else
    b ← unwrap (it_buffers it !! current_buffer it);
    rassert (current_idx it <? sl_len b);;
    let r := sl_ppn b * 4096 + sl_off b + current_idx it in
    (if current_idx it ⊞ 1 =? sl_len b
     then st_put (mkUBIter (it_buffers it) (S (current_buffer it)) 0)
     else st_put (mkUBIter (it_buffers it) (current_buffer it) (current_idx it ⊞ 1)));;
    mret (Some r).

(** ** The iterator visits every byte *)

(** Slices of a user buffer are non-empty parts of one page. *)
Definition sref_wf (b : slice_ref) : Prop :=
  0 ≤ sl_off b ∧ 0 < sl_len b ∧ sl_off b + sl_len b ≤ 4096.

Definition it_wf (it : UserBufferIterator) : Prop :=
  Forall sref_wf (it_buffers it) ∧ 0 ≤ current_idx it ∧
  match it_buffers it !! current_buffer it with
  | Some b => current_idx it < sl_len b
  | None => current_idx it = 0
  end.

(** The addresses still to come. *)
Definition it_rest (it : UserBufferIterator) : list Z :=
  match drop (current_buffer it) (it_buffers it) with
  | [] => []
  | b :: rest =>
      let base := sl_ppn b * 4096 + sl_off b in
      zrange (base + current_idx it) (base + sl_len b) ++ concat (sref_addrs <$> rest)
  end.

Lemma into_iter_wf u : Forall sref_wf (buffers u) → it_wf (UserBuffer_into_iter u).
Proof.
  intros Hwf. split_and!; simpl; [done|lia|].
  destruct (buffers u) as [|b rest]; simpl; [done|]. apply Forall_cons in Hwf as [(?&?&?) _]. lia.
Qed.

Lemma into_iter_rest u : it_rest (UserBuffer_into_iter u) = concat (sref_addrs <$> buffers u).
Proof. unfold it_rest; simpl. destruct (buffers u); simpl; [done|]. by rewrite Z.add_0_r. Qed.

(** One call of [next]. *)
Lemma next_ok it :
  it_wf it →
  match it_rest it with
  | [] => UserBufferIterator_next it = Done (None, it)
  | a :: r => ∃ it', UserBufferIterator_next it = Done (Some a, it') ∧ it_wf it' ∧ it_rest it' = r
  end.
Proof.
  intros (Hwf & Hidx & Hcur). unfold it_rest, UserBufferIterator_next.
  erewrite bind_step by reflexivity.
  destruct (it_buffers it !! current_buffer it) as [b|] eqn:Eb.
  - pose proof (proj1 (Forall_lookup _ _) Hwf _ _ Eb) as (? & ? & ?).
    rewrite (drop_S _ _ _ Eb), bool_decide_false by (apply lookup_lt_Some in Eb; lia).
    rewrite zrange_cons by lia. simpl.
    erewrite bind_step by reflexivity.
    rewrite (proj2 (Z.ltb_lt _ _)) by done. erewrite bind_step by reflexivity.
    rewrite wadd_small by (unfold fits; lia).
    destruct (Z.eqb_spec (current_idx it + 1) (sl_len b)) as [E|E].
    + eexists. split; [reflexivity|].
      rewrite zrange_nil by lia. simpl. split.
      * split_and!; simpl; [done|lia|]. destruct (it_buffers it !! S (current_buffer it)) as [b'|] eqn:Eb'; [|done].
        by pose proof (proj1 (Forall_lookup _ _) Hwf _ _ Eb') as (? & ? & ?).
      * destruct (drop _ _) as [|b' rest]; simpl; [done|]. by rewrite Z.add_0_r.
    + eexists. split; [reflexivity|]. split.
      * split_and!; simpl; [done|lia|]. rewrite Eb. lia.
      * simpl. rewrite (drop_S _ _ _ Eb). by rewrite Z.add_assoc.
  - apply lookup_ge_None in Eb. rewrite drop_ge, bool_decide_true by done. done.
Qed.

(** [for ptr in buf.into_iter()]: the visited addresses. *)
Definition ub_collect (fuel : nat) : ST UserBufferIterator (list Z) :=
  loop fuel (λ acc, o ← UserBufferIterator_next;
                    mret match o with Some a => inl (acc ++ [a]) | None => inr acc end) [].

Lemma ub_collect_ok it :
  it_wf it → ∃ it', ub_collect (S (length (it_rest it))) it = Done (it_rest it, it').
Proof.
  unfold ub_collect. intros Hwf.
  assert (∀ acc, ∃ it', loop (S (length (it_rest it))) (λ acc, o ← UserBufferIterator_next;
            mret match o with Some a => inl (acc ++ [a]) | None => inr acc end) acc it
            = Done (acc ++ it_rest it, it')) as Hgen; [|by apply Hgen].
  remember (it_rest it) as l eqn:El. revert it Hwf El.
  induction l as [|a l IH]; intros it Hwf El acc; pose proof (next_ok it Hwf) as Hnext; rewrite <- El in Hnext.
  - exists it. erewrite loop_exit; [by rewrite app_nil_r|]. by rewrite (bind_step _ _ _ _ _ Hnext).
  - destruct Hnext as (it1 & E & Hwf1 & Erest). symmetry in Erest.
    destruct (IH it1 Hwf1 Erest (acc ++ [a])) as [it' E'].
    exists it'. cbn [length]. rewrite (loop_again _ _ _ (acc ++ [a]) _ it1);
      [|by rewrite (bind_step _ _ _ _ _ E)].
    rewrite E'. by rewrite <- app_assoc.
Qed.

(** ** Translation of a buffer *)

Section translated.
Context (m : pmem) (pt : PageTable).

(** The pages of [lo..hi] have an entry. *)
Definition has_entries (lo hi : Z) : Prop :=
  ∀ va, lo ≤ va < hi → is_Some (translate m pt (floor va)).

(** The bytes of one page are consecutive in physical memory. *)
Lemma translate_range lo hi e :
  lo ≤ hi ≤ floor lo * 4096 + 4096 → translate m pt (floor lo) = Some e →
  translate_va m pt <$> zrange lo hi =
  Some <$> zrange (PTE_ppn e * 4096 + page_offset lo) (PTE_ppn e * 4096 + page_offset lo + (hi - lo)).
Proof.
  intros Hhi He.
  replace (PTE_ppn e * 4096 + page_offset lo) with ((PTE_ppn e * 4096 + page_offset lo - lo) + lo) by lia.
  replace (_ - lo + lo + (hi - lo)) with ((PTE_ppn e * 4096 + page_offset lo - lo) + hi) by lia.
  rewrite <- zrange_shift, <- list_fmap_compose. apply list_fmap_ext. intros i va Hva.
  apply list_elem_of_lookup_2, elem_of_zrange in Hva. unfold compose.
  pose proof (floor_offset lo). pose proof (page_offset_bound lo).
  pose proof (floor_offset va). pose proof (page_offset_bound va).
  assert (floor va = floor lo) as Hf by lia.
  rewrite (translate_va_entry m pt va e) by (by rewrite Hf). f_equal. lia.
Qed.

(** One turn of the loop takes the rest of the current page. *)
Lemma tbb_step start end_ v :
  0 ≤ start → start < end_ → end_ < 2 ^ 38 → has_entries start end_ →
  ∃ start' sl,
    tbb_body pt end_ (start, v) m = Done (inl (start', v ++ [sl]), m) ∧
    start' = Z.min (floor start * 4096 + 4096) end_ ∧ sref_wf sl ∧
    translate_va m pt <$> zrange start start' = Some <$> sref_addrs sl.
Proof.
  intros Hs Hlt He Hent. destruct (Hent start ltac:(lia)) as [e Ht].
  pose proof (floor_offset start). pose proof (page_offset_bound start).
  set (start' := Z.min (floor start * 4096 + 4096) end_).
  exists start', (mkSliceRef (PTE_ppn e) (page_offset start) (start' - start)).
  split_and!; [|done|unfold sref_wf; simpl; split_and!; lia|].
  - unfold tbb_body. rewrite (proj2 (Z.ltb_lt _ _)) by done.
    rewrite !VirtAddr_from_mod, (Z.mod_small start), (Z.mod_small end_) by lia.
    erewrite bind_step by reflexivity. rewrite Ht. erewrite bind_step by reflexivity.
    unfold step. rewrite wadd_small by (unfold fits; lia).
    rewrite addr_of_page_num_mul by (unfold fits; lia).
    replace ((floor start + 1) * 4096) with (floor start * 4096 + 4096) by lia. fold start'.
    pose proof (floor_offset start'). pose proof (page_offset_bound start').
    rewrite usize_from_VirtAddr_spec, decide_True by (unfold fits; lia).
    destruct (Z.eqb_spec (page_offset start') 0) as [E|E].
    + unfold page_slice. rewrite (proj2 (Z.leb_le (page_offset start) 4096)) by lia.
      erewrite bind_step by reflexivity. by assert (4096 - page_offset start = start' - start) as -> by lia.
    + unfold page_slice. rewrite (proj2 (Z.leb_le (page_offset start) (page_offset start'))), (proj2 (Z.leb_le _ 4096)) by lia.
      erewrite bind_step by reflexivity. by assert (page_offset start' - page_offset start = start' - start) as -> by lia.
  - unfold sref_addrs. cbn [sl_ppn sl_off sl_len]. by apply translate_range; [lia|].
Qed.

Lemma tbb_loop n start end_ v :
  0 ≤ start ≤ end_ → end_ < 2 ^ 38 → has_entries start end_ →
  (start < end_ → end_ ≤ floor start * 4096 + Z.of_nat n * 4096) →
  ∃ l, loop (S n) (tbb_body pt end_) (start, v) m = Done (v ++ l, m) ∧
    Forall sref_wf l ∧ Some <$> concat (sref_addrs <$> l) = translate_va m pt <$> zrange start end_.
Proof.
  revert start v. induction n as [|n IH]; intros start v Hs He Hent Hn.
  all: destruct (decide (start < end_)) as [Hlt|Hge].
  - specialize (Hn Hlt). pose proof (floor_offset start). pose proof (page_offset_bound start). lia.
  - exists []. rewrite zrange_nil, app_nil_r by lia. split_and!; [|done|done].
    apply loop_exit. unfold tbb_body. by rewrite (proj2 (Z.ltb_ge _ _)) by lia.
  - specialize (Hn Hlt). pose proof (floor_offset start). pose proof (page_offset_bound start).
    destruct (tbb_step start end_ v) as (start' & sl & E & Hs' & Hwf & Haddr); [lia..|done|].
    destruct (IH start' (v ++ [sl])) as (l & El & Hl & Ha); [lia|lia| | |].
    + intros va Hva. apply Hent. lia.
    + intros Hlt'. pose proof (floor_offset start'). pose proof (page_offset_bound start'). lia.
    + exists (sl :: l). rewrite (loop_again _ _ _ _ _ _ E), El, <- app_assoc.
      split_and!; [done|by constructor|]. rewrite fmap_cons. cbn [concat].
      rewrite fmap_app, Ha, <- Haddr, <- fmap_app. f_equal. symmetry. apply zrange_app. lia.
  - exists []. rewrite zrange_nil, app_nil_r by lia. split_and!; [|done|done].
    apply loop_exit. unfold tbb_body. by rewrite (proj2 (Z.ltb_ge _ _)) by lia.
Qed.

(** The loop of [translated_str] on a terminated string. *)
Lemma str_loop s va acc :
  0 ≤ va → va + Z.of_nat (length s) < 2 ^ 38 →
  (∀ i b, (s ++ [0]) !! i = Some b →
     ∃ pa, translate_va m pt (va + Z.of_nat i) = Some pa ∧ rd_pa m pa = b) →
  Forall (λ b, b ≠ 0) s →
  loop (S (length s)) (str_body pt) (va, acc) m = Done (acc ++ s, m).
Proof.
  revert va acc. induction s as [|b s IH]; intros va acc Hva Hlen Hs Hnz; simpl in Hlen.
  all: destruct (Hs 0%nat _ eq_refl) as (pa & Hpa & Hb); rewrite Z.add_0_r in Hpa.
  - apply loop_exit. unfold str_body. erewrite bind_step by reflexivity.
    rewrite VirtAddr_from_mod, Z.mod_small by lia. rewrite Hpa. erewrite bind_step by reflexivity.
    rewrite Hb, app_nil_r. done.
  - apply Forall_cons in Hnz as [Hb0 Hnz]. cbn [length].
    rewrite (loop_again _ _ _ (va + 1, acc ++ [b]) _ m).
    + rewrite IH; [by rewrite <- app_assoc|lia|lia| |done].
      intros i b' Hi. rewrite <- Z.add_assoc. replace (1 + Z.of_nat i) with (Z.of_nat (S i)) by lia. by apply Hs.
    + unfold str_body. erewrite bind_step by reflexivity.
      rewrite VirtAddr_from_mod, Z.mod_small by lia. rewrite Hpa. erewrite bind_step by reflexivity.
      rewrite Hb. rewrite (proj2 (Z.eqb_neq _ _)) by done. by rewrite wadd_small by (unfold fits; lia).
Qed.

End translated.

Lemma translated_byte_buffer_ok (m : pmem) (tok ptr len : Z) :
  0 ≤ ptr → 0 ≤ len → ptr + len < 2 ^ 38 → has_entries m (from_token tok) ptr (ptr + len) →
  ∃ v, translated_byte_buffer (Z.to_nat (len / 4096 + 3)) tok ptr len m = Done (v, m) ∧
    Forall sref_wf v ∧
    Some <$> concat (sref_addrs <$> v) = translate_va m (from_token tok) <$> zrange ptr (ptr + len).
Proof.
  intros Hp Hl Hend Hent. unfold translated_byte_buffer. rewrite wadd_small by (unfold fits; lia).
  replace (Z.to_nat (len / 4096 + 3)) with (S (Z.to_nat (len / 4096 + 2))) by zlia.
  apply (tbb_loop m (from_token tok) (Z.to_nat (len / 4096 + 2)) ptr (ptr + len) []); [lia|done|done|].
  intros _. pose proof (floor_offset ptr). pose proof (page_offset_bound ptr). zlia.
Qed.

(** ** Properties *)

(** C35. A user buffer below [2^38] whose pages all have an entry is translated
    exactly: the slices, one after the other, are the physical addresses of
    the bytes of the buffer in order, each inside one page and non-empty, and
    the iterator of the [UserBuffer] visits these addresses. The loop ends
    within one turn per page and one more. *)
Theorem translated_byte_buffer_exact (m : pmem) (tok ptr len : Z) :
  0 ≤ ptr → 0 ≤ len → ptr + len < 2 ^ 38 → has_entries m (from_token tok) ptr (ptr + len) →
  ∃ v it', translated_byte_buffer (Z.to_nat (len / 4096 + 3)) tok ptr len m = Done (v, m) ∧
    Forall sref_wf v ∧
    Some <$> concat (sref_addrs <$> v) = translate_va m (from_token tok) <$> zrange ptr (ptr + len) ∧
    ub_collect (S (Z.to_nat len)) (UserBuffer_into_iter (mkUserBuffer v))
      = Done (concat (sref_addrs <$> v), it').
Proof.
  intros Hp Hl Hend Hent. destruct (translated_byte_buffer_ok m tok ptr len Hp Hl Hend Hent) as (v & E & Hwf & Ha).
  assert (length (concat (sref_addrs <$> v)) = Z.to_nat len) as Hlen.
  { apply (f_equal length) in Ha. rewrite !length_fmap, length_zrange in Ha. rewrite Ha. f_equal. lia. }
  destruct (ub_collect_ok (UserBuffer_into_iter (mkUserBuffer v))) as [it' Eit]; [by apply into_iter_wf|].
  rewrite into_iter_rest in Eit. simpl in Eit. rewrite Hlen in Eit.
  exists v, it'. by split_and!.
Qed.

(** [translated_str] reads a user string up to its terminator: if the
    bytes at [ptr] are [s] followed by 0, and [s] has no 0, the result is [s]. *)
Theorem translated_str_exact (m : pmem) (tok ptr : Z) (s : list Z) :
  0 ≤ ptr → ptr + Z.of_nat (length s) < 2 ^ 38 →
  (∀ i b, (s ++ [0]) !! i = Some b →
     ∃ pa, translate_va m (from_token tok) (ptr + Z.of_nat i) = Some pa ∧ rd_pa m pa = b) →
  Forall (λ b, b ≠ 0) s →
  translated_str (S (length s)) tok ptr m = Done (s, m).
Proof. intros. by apply (str_loop m (from_token tok) s ptr []). Qed.

(** ** Witnesses

    A table at frame 1 that maps the pages 1 and 2 to the frames 0x200 and
    0x100, which hold the bytes of a string across the page boundary. *)

Definition wit_mem : pmem :=
  wr_pa (wr_pa (wr_pa
    (wr (wr (wr (wr ∅ 1 0 (PTE_new 2 PTE_V)) 2 0 (PTE_new 3 PTE_V))
       3 1 (PTE_new 0x200 0x13)) 3 2 (PTE_new 0x100 0x13))
    0x200ffe 72) 0x200fff 105) 0x100000 33.

Lemma wit_entries : has_entries wit_mem (from_token 1) 0x1ffe 0x2001.
Proof.
  intros va Hva.
  assert (va = 0x1ffe ∨ va = 0x1fff ∨ va = 0x2000) as [->|[->| ->]] by lia; eexists; vm_compute; reflexivity.
Qed.

Lemma translated_byte_buffer_exact_witness :
  ∃ v, translated_byte_buffer 3 1 0x1ffe 3 wit_mem = Done (v, wit_mem) ∧
    concat (sref_addrs <$> v) = [0x200ffe; 0x200fff; 0x100000].
Proof.
  destruct (translated_byte_buffer_exact wit_mem 1 0x1ffe 3) as (v & it & E & Hwf & Ha & _);
    [lia|lia|lia|apply wit_entries|].
  exists v. split; [exact E|].
  apply (inj (fmap Some)). rewrite Ha. vm_compute. reflexivity.
Defined.

Lemma translated_str_exact_witness :
  translated_str 4 1 0x1ffe wit_mem = Done ([72; 105; 33], wit_mem).
Proof.
  apply (translated_str_exact wit_mem 1 0x1ffe [72; 105; 33]); [lia|simpl; lia| |by repeat constructor].
  intros i b Hi.
  destruct i as [|[|[|[|i]]]]; try discriminate Hi; injection Hi as <-;
    [exists 0x200ffe|exists 0x200fff|exists 0x100000|exists 0x100001]; split; vm_compute; reflexivity.
Defined.
