(* ===== verification/MemorySet.v ===== *)
(** * Address spaces (os/src/mm/memory_set.rs: MapArea, MemorySet)

    An address space is a page table and a list of areas; a framed area owns
    the frames of its pages. Where the Rust code drops a [FrameTracker] (an
    entry removed from or replaced in [data_frames], an area dropped) the model
    calls [frame_dealloc]. The trampoline address and the section boundaries
    are linker symbols and are parameters, and so is the ELF parser, which
    Elf.v provides. *)

From S2P Require Import Prelude Address PhysMem FrameAllocator PageTable.

(** ** Areas *)

Inductive MapType := Identical | Framed.

#[global] Instance MapType_eq_dec : EqDecision MapType.
Proof. solve_decision. Defined.

(** [MapPermission] *)
Definition PERM_R : Z := 2.
Definition PERM_W : Z := 4.
Definition PERM_X : Z := 8.
Definition PERM_U : Z := 16.

Record MapArea := mkMapArea {
  vpn_range : VPNRange;
  data_frames : gmap Z Z;
  map_type : MapType;
  map_perm : Z;
}.

Definition set_frames (d : gmap Z Z) (a : MapArea) : MapArea :=
  mkMapArea (vpn_range a) d (map_type a) (map_perm a).
Definition set_range (r : VPNRange) (a : MapArea) : MapArea :=
  mkMapArea r (data_frames a) (map_type a) (map_perm a).

(** [MapArea::new]; [None] is the panic of [VPNRange::new]. *)
Definition MapArea_new (start_va end_va : Z) (t : MapType) (perm : Z) : option MapArea :=
  r ← SimpleRange_new (floor start_va) (ceil end_va);
  Some (mkMapArea r ∅ t perm).

Definition MapArea_from_another (another : MapArea) : option MapArea :=
  r ← SimpleRange_new (range_l (vpn_range another)) (range_r (vpn_range another));
  Some (mkMapArea r ∅ (map_type another) (map_perm another)).

Section area_ops.
Context {A : Type} `{FrameAllocator A}.

(** Dropping an [Option<FrameTracker>]. *)
Definition drop_opt (o : option Z) : ST (mm A) unit :=
  match o with Some f => frame_dealloc f | None => mret tt end.

(** Dropping a [BTreeMap] of frames: in the order of the keys. *)
Definition drop_frames (d : gmap Z Z) : ST (mm A) unit :=
  for_each (merge_sort Z.le (map_to_list d).*1) (λ vpn, drop_opt (d !! vpn)).

Definition map_one (ap : MapArea * PageTable) (vpn : Z) : ST (mm A) (MapArea * PageTable) :=
  let '(a, page_table) := ap in
  '(ppn, a) ← match map_type a with
              | Identical => mret (vpn, a)
              | Framed =>
                  o ← frame_alloc;
                  frame ← unwrap o;
                  drop_opt (data_frames a !! vpn);;
                  mret (frame, set_frames (<[vpn := frame]> (data_frames a)) a)
              end;
  pte_flags ← unwrap (PTEFlags_from_bits (map_perm a));
  page_table ← PageTable_map page_table vpn ppn pte_flags;
  mret (a, page_table).

Definition unmap_one (page_table : PageTable) (a : MapArea) (vpn : Z) : ST (mm A) MapArea :=
  a ← (if decide (map_type a = Framed) then
         drop_opt (data_frames a !! vpn);;
         mret (set_frames (delete vpn (data_frames a)) a)
       else mret a);
  PageTable_unmap page_table vpn;;
  mret a.

Definition MapArea_map (a : MapArea) (page_table : PageTable) : ST (mm A) (MapArea * PageTable) :=
  for_fold (vpns (vpn_range a)) (a, page_table) map_one.

Definition MapArea_unmap (a : MapArea) (page_table : PageTable) : ST (mm A) MapArea :=
  for_fold (vpns (vpn_range a)) a (unmap_one page_table).

Definition MapArea_shrink_to (a : MapArea) (page_table : PageTable) (new_end : Z) : ST (mm A) MapArea :=
  r ← unwrap (SimpleRange_new new_end (range_r (vpn_range a)));
  a ← for_fold (vpns r) a (unmap_one page_table);
  r ← unwrap (SimpleRange_new (range_l (vpn_range a)) new_end);
  mret (set_range r a).

Definition MapArea_append_to (a : MapArea) (page_table : PageTable) (new_end : Z) :
    ST (mm A) (MapArea * PageTable) :=
  r ← unwrap (SimpleRange_new (range_r (vpn_range a)) new_end);
  '(a, page_table) ← for_fold (vpns r) (a, page_table) map_one;
  r ← unwrap (SimpleRange_new (range_l (vpn_range a)) new_end);
  mret (set_range r a, page_table).

(** One turn of the loop of [copy_data]: [start] bytes are done, the next go to
    the page [current_vpn]. *)
Definition copy_body (page_table : PageTable) (data : list Z) (acc : Z * Z) :
    ST (mm A) (Z * Z + unit) :=
  let '(start, current_vpn) := acc in
  let len := Z.of_nat (length data) in
  let hi := Z.min len (start ⊞ PAGE_SIZE) in
  rassert (start <=? hi);;
  let src := slice (Z.to_nat start) (Z.to_nat (hi - start)) data in
  s ← st_get;
  pte ← unwrap (translate (mem s) page_table current_vpn);
  rassert (Z.of_nat (length src) <=? 4096);;
  st_put (set_mem (wr_bytes (mem s) (PTE_ppn pte * 4096) src) s);;
  let start := start ⊞ PAGE_SIZE in
  if len <=? start then mret (inr tt) else mret (inl (start, step current_vpn)).

Definition copy_data (a : MapArea) (page_table : PageTable) (data : list Z) : ST (mm A) unit :=
  rassert (bool_decide (map_type a = Framed));;
  loop (S (length data)) (copy_body page_table data) (0, range_l (vpn_range a)).

End area_ops.

(** ** Address spaces *)

Record MemorySet := mkMemorySet { page_table : PageTable; areas : list MapArea }.

Definition MemorySet_token (ms : MemorySet) : Z := token (page_table ms).

Definition MemorySet_translate (m : pmem) (ms : MemorySet) (vpn : Z) : option Z :=
  translate m (page_table ms) vpn.

(** The first area that starts at [start_vpn], with its position. *)
Definition find_area (start_vpn : Z) (l : list MapArea) : option (nat * MapArea) :=
  list_find (λ a, range_l (vpn_range a) = start_vpn) l.

(** What [xmas_elf] says of an ELF file. *)
Record ProgramHeader := mkPH {
  ph_is_load : option bool;       (* get_type(), [None] when it is an error *)
  ph_virtual_addr : Z;
  ph_mem_size : Z;
  ph_offset : Z;
  ph_file_size : Z;
  ph_read : bool;
  ph_write : bool;
  ph_execute : bool;
}.

Record ElfFile := mkElf {
  elf_magic : list Z;
  elf_headers : list (option ProgramHeader);   (* program_header(i), i < ph_count *)
  elf_entry : Z;
  elf_input : list Z;
}.

(** The linker symbols. *)
Record linker_symbols := mkLinker {
  stext : Z; etext : Z;
  srodata : Z; erodata : Z;
  sdata : Z; edata : Z;
  sbss_with_stack : Z; ebss : Z;
  ekernel : Z;
  strampoline : Z;
}.

Section ms_ops.
Context {A : Type} `{FrameAllocator A}.
Variable ld : linker_symbols.

Definition new_bare : ST (mm A) MemorySet :=
  pt ← PageTable_new; mret (mkMemorySet pt []).

Definition push (ms : MemorySet) (map_area : MapArea) (data : option (list Z)) : ST (mm A) MemorySet :=
  '(map_area, pt) ← MapArea_map map_area (page_table ms);
  match data with
  | Some data => copy_data map_area pt data
  | None => mret tt
  end;;
  mret (mkMemorySet pt (areas ms ++ [map_area])).

Definition insert_framed_area (ms : MemorySet) (start_va end_va perm : Z) : ST (mm A) MemorySet :=
  a ← unwrap (MapArea_new start_va end_va Framed perm);
  push ms a None.

(** Dropping an area drops its frames. *)
Definition drop_area (a : MapArea) : ST (mm A) unit := drop_frames (data_frames a).

Definition remove_area_with_start_vpn (ms : MemorySet) (start_vpn : Z) : ST (mm A) MemorySet :=
  match find_area start_vpn (areas ms) with
  | Some (idx, area) =>
      area ← MapArea_unmap area (page_table ms);
      drop_area area;;
      mret (mkMemorySet (page_table ms) (delete idx (areas ms)))
  | None => mret ms
  end.

Definition map_trampoline (ms : MemorySet) : ST (mm A) MemorySet :=
  vpn ← unwrap (VirtPageNum_from_VirtAddr (VirtAddr_from TRAMPOLINE));
  ppn ← unwrap (PhysPageNum_from_PhysAddr (PhysAddr_from (strampoline ld)));
  pt ← PageTable_map (page_table ms) vpn ppn (Z.lor PTE_R PTE_X);
  mret (mkMemorySet pt (areas ms)).

(** One [memory_set.push(MapArea::new(l.into(), r.into(), Identical, perm), None)]. *)
Definition push_identical (ms : MemorySet) (l r perm : Z) : ST (mm A) MemorySet :=
  a ← unwrap (MapArea_new (VirtAddr_from l) (VirtAddr_from r) Identical perm);
  push ms a None.

Definition new_kernel : ST (mm A) MemorySet :=
  ms ← new_bare;
  ms ← map_trampoline ms;
  ms ← push_identical ms (stext ld) (etext ld) (Z.lor PERM_R PERM_X);
  ms ← push_identical ms (srodata ld) (erodata ld) PERM_R;
  ms ← push_identical ms (sdata ld) (edata ld) (Z.lor PERM_R PERM_W);
  ms ← push_identical ms (sbss_with_stack ld) (ebss ld) (Z.lor PERM_R PERM_W);
  ms ← push_identical ms (ekernel ld) MEMORY_END (Z.lor PERM_R PERM_W);
  for_fold MMIO ms (λ ms pair, push_identical ms pair.1 (pair.1 ⊞ pair.2) (Z.lor PERM_R PERM_W)).

(** The permission of a segment. *)
Definition ph_perm (ph : ProgramHeader) : Z :=
  let map_perm := PERM_U in
  let map_perm := if ph_read ph then Z.lor map_perm PERM_R else map_perm in
  let map_perm := if ph_write ph then Z.lor map_perm PERM_W else map_perm in
  if ph_execute ph then Z.lor map_perm PERM_X else map_perm.

(** [&elf.input[lo..hi]]. *)
Definition input_slice (input : list Z) (lo hi : Z) : option (list Z) :=
  if (lo <=? hi) && (hi <=? Z.of_nat (length input))
  then Some (slice (Z.to_nat lo) (Z.to_nat (hi - lo)) input) else None.

(** The body of the loop over the program headers. *)
Definition load_segment (elf : ElfFile) (acc : MemorySet * Z) (h : option ProgramHeader) :
    ST (mm A) (MemorySet * Z) :=
  let '(ms, max_end_vpn) := acc in
  ph ← unwrap h;
  is_load ← unwrap (ph_is_load ph);
  if is_load : bool then
    let start_va := VirtAddr_from (ph_virtual_addr ph) in
    let end_va := VirtAddr_from (ph_virtual_addr ph ⊞ ph_mem_size ph) in
    map_area ← unwrap (MapArea_new start_va end_va Framed (ph_perm ph));
    let max_end_vpn := range_r (vpn_range map_area) in
    data ← unwrap (input_slice (elf_input elf) (ph_offset ph) (ph_offset ph ⊞ ph_file_size ph));
    ms ← push ms map_area (Some data);
    mret (ms, max_end_vpn)
  else mret (ms, max_end_vpn).

(** [from_elf]; [parse] is [xmas_elf::ElfFile::new]. *)
Definition from_elf (parse : list Z → option ElfFile) (elf_data : list Z) :
    ST (mm A) (MemorySet * Z * Z) :=
  ms ← new_bare;
  ms ← map_trampoline ms;
  elf ← unwrap (parse elf_data);
  rassert (bool_decide (elf_magic elf = [0x7f; 0x45; 0x4c; 0x46]));;
  '(ms, max_end_vpn) ← for_fold (elf_headers elf) (ms, 0) (load_segment elf);
  let max_end_va := VirtAddr_from_VirtPageNum max_end_vpn in
  let user_stack_bottom := usize_from_VirtAddr max_end_va in
  let user_stack_bottom := user_stack_bottom ⊞ PAGE_SIZE in
  let user_stack_top := user_stack_bottom ⊞ USER_STACK_SIZE in
  let perm := Z.lor (Z.lor PERM_R PERM_W) PERM_U in
  ms ← insert_framed_area ms (VirtAddr_from user_stack_bottom) (VirtAddr_from user_stack_top) perm;
  ms ← insert_framed_area ms (VirtAddr_from user_stack_top) (VirtAddr_from (user_stack_top ⊞ 4)) perm;
  ms ← insert_framed_area ms (VirtAddr_from TRAP_CONTEXT_BASE) (VirtAddr_from TRAMPOLINE)
         (Z.lor PERM_R PERM_W);
  mret (ms, user_stack_top, elf_entry elf).

(** The inner loop of [from_existed_user]: the page [vpn] of the old space is
    copied to the new one. *)
Definition copy_one (user_space memory_set : MemorySet) (vpn : Z) : ST (mm A) unit :=
  s ← st_get;
  src ← unwrap (MemorySet_translate (mem s) user_space vpn);
  dst ← unwrap (MemorySet_translate (mem s) memory_set vpn);
  st_put (set_mem (copy_page (mem s) (PTE_ppn src) (PTE_ppn dst)) s).

Definition copy_area (user_space memory_set : MemorySet) (area : MapArea) : ST (mm A) MemorySet :=
  new_area ← unwrap (MapArea_from_another area);
  memory_set ← push memory_set new_area None;
  for_each (vpns (vpn_range area)) (copy_one user_space memory_set);;
  mret memory_set.

Definition from_existed_user (user_space : MemorySet) : ST (mm A) MemorySet :=
  memory_set ← new_bare;
  memory_set ← map_trampoline memory_set;
  for_fold (areas user_space) memory_set (copy_area user_space).

Definition recycle_data_pages (ms : MemorySet) : ST (mm A) MemorySet :=
  for_each (areas ms) drop_area;;
  mret (mkMemorySet (page_table ms) []).

(** Dropping an address space: the page table's frames, then the areas. *)
Definition drop_MemorySet (ms : MemorySet) : ST (mm A) unit :=
  for_each (pt_frames (page_table ms)) frame_dealloc;;
  for_each (areas ms) drop_area.

Definition MemorySet_shrink_to (ms : MemorySet) (start new_end : Z) : ST (mm A) (bool * MemorySet) :=
  match find_area (floor start) (areas ms) with
  | Some (i, area) =>
      area ← MapArea_shrink_to area (page_table ms) (ceil new_end);
      mret (true, mkMemorySet (page_table ms) (<[i := area]> (areas ms)))
  | None => mret (false, ms)
  end.

Definition MemorySet_append_to (ms : MemorySet) (start new_end : Z) : ST (mm A) (bool * MemorySet) :=
  match find_area (floor start) (areas ms) with
  | Some (i, area) =>
      '(area, pt) ← MapArea_append_to area (page_table ms) (ceil new_end);
      mret (true, mkMemorySet pt (<[i := area]> (areas ms)))
  | None => mret (false, ms)
  end.

Definition MemorySet_map (ms : MemorySet) (vpn ppn flags : Z) : ST (mm A) (Z * MemorySet) :=
  pt ← PageTable_map (page_table ms) vpn ppn flags;
  mret (0, mkMemorySet pt (areas ms)).

Definition MemorySet_unmap (ms : MemorySet) (vpn : Z) : ST (mm A) Z :=
  PageTable_unmap (page_table ms) vpn;;
  mret 0.

(** [remap_test]: three pages of the kernel space have the rights they should. *)
Definition remap_test (kernel_space : MemorySet) : ST (mm A) unit :=
  s ← st_get;
  let mid lo hi := floor (VirtAddr_from ((lo ⊞ hi) / 2)) in
  text ← unwrap (MemorySet_translate (mem s) kernel_space (mid (stext ld) (etext ld)));
  rassert (negb (writable text));;
  rodata ← unwrap (MemorySet_translate (mem s) kernel_space (mid (srodata ld) (erodata ld)));
  rassert (negb (writable rodata));;
  data ← unwrap (MemorySet_translate (mem s) kernel_space (mid (sdata ld) (edata ld)));
  rassert (negb (executable data)).

End ms_ops.

(** ** Mapping an area *)

Section area_spec.
Context {A : Type} `{FrameAllocatorLaws A}.

Abbreviation owned s := (fa_owned (frame_allocator s)).
Abbreviation avail s := (fa_avail (frame_allocator s)).

(** The entry of a page of the area that lies in frame [ppn]. *)
Definition area_entry (a : MapArea) (ppn : Z) : Z := PTE_new ppn (Z.lor (map_perm a) PTE_V).

Lemma PTEFlags_from_bits_total b : PTEFlags_from_bits b = Some b.
Proof. unfold PTEFlags_from_bits. change (wnot 8 PTEFlags_all) with 0. by rewrite Z.land_0_r. Qed.

(** What happens to the other frames while tables [new] and data frames [D]
    are added to the table [pt]. *)
Definition extended (s s' : mm A) (pt : PageTable) (new : list Z) (D : gmap Z Z) : Prop :=
  (∀ x, owned s' x ↔ owned s x ∨ x ∈ new ∨ ∃ v, D !! v = Some x) ∧
  Forall (λ x, ¬ owned s x) new ∧
  (∀ v f, D !! v = Some f → (¬ owned s f) ∧ (f ∉ new) ∧ fits 44 f) ∧
  (∀ v w f, D !! v = Some f → D !! w = Some f → v = w) ∧
  avail s = (size D + length new + avail s')%nat ∧ (length new ≤ 2 * size D)%nat ∧
  (∀ v f i, D !! v = Some f → rd (mem s') f i = 0) ∧
  same_pages (λ x, owned s x ∧ x ∉ pt_frames pt) s s'.

Definition with_tables (pt : PageTable) (new : list Z) : PageTable :=
  mkPageTable (root_ppn pt) (pt_frames pt ++ new).

Lemma represents_frames s pt G :
  represents s pt G → mm_inv s ∧ NoDup (pt_frames pt) ∧ Forall (owned s) (pt_frames pt).
Proof. by intros [(T & ((? & ? & ? & ? & ?) & ?)) _]. Qed.

(** The table keeps its meaning when its own frames are not touched. *)
Lemma represents_frame s s' pt G :
  represents s pt G → mm_inv s' → same_pages (λ x, x ∈ pt_frames pt) s s' →
  (∀ x, x ∈ pt_frames pt → owned s' x) → represents s' pt G.
Proof.
  intros [[T Hpt] HG] Hmm' Hs Ho.
  destruct (pt_inv_frame s s' pt T) as [Hpt' Hl]; [done|done|done|by apply Forall_forall|].
  split; [by eauto|]. intros v Hv. rewrite Hl. by apply HG.
Qed.

Lemma represents_translate s pt G v e :
  represents s pt G → fits 27 v → G !! v = Some e → translate (mem s) pt v = Some e.
Proof.
  intros [_ HG] Hv HGv. specialize (HG v Hv). rewrite HGv, pt_lookup_translate in HG.
  destruct (translate _ _ _); [|done]. by case_match; simplify_eq.
Qed.

Lemma map_one_framed s a pt G v :
  represents s pt G → map_type a = Framed → fits 8 (map_perm a) → fits 27 v →
  G !! v = None → data_frames a !! v = None → (3 ≤ avail s)%nat →
  ∃ f new s',
    map_one (a, pt) v s = Done ((set_frames (<[v := f]> (data_frames a)) a, with_tables pt new), s') ∧
    represents s' (with_tables pt new) (<[v := area_entry a f]> G) ∧
    extended s s' pt new {[v := f]}.
Proof.
  intros Hrep Ht Hperm Hv HGv Hdv Hav.
  pose proof (represents_frames _ _ _ Hrep) as (Hmm & Hnd & Hown).
  destruct (frame_alloc_ok s Hmm ltac:(lia)) as (f & s1 & E1 & Hmm1 & Hf & Hnf & Ho1 & Ha1 & Hz1 & Hs1).
  assert (represents s1 pt G) as Hrep1.
  { rewrite Forall_forall in Hown. apply (represents_frame s); [done|done| |].
    - intros x i Hx. apply Hs1. intros ->. by apply Hnf, Hown.
    - intros x Hx. apply Ho1. left. by apply Hown. }
  assert (f ∉ pt_frames pt) as Hfpt.
  { intros Hin. eapply Forall_forall in Hown; [|exact Hin]. done. }
  destruct Hrep1 as [[T1 Hpt1] HG1].
  destruct (PageTable_map_ok s1 pt T1 v f (map_perm a))
    as (new & s2 & T2 & E2 & Hpt2 & Ho2 & Hn2 & Ha2 & Hlen2 & Hs2 & Hl2); [done..|lia|by rewrite HG1|].
  exists f, new, s2. split; [|split].
  - unfold map_one. rewrite Ht, Hdv. erewrite bind_step; [|by rewrite (bind_step _ _ _ _ _ E1)].
    cbn [map_perm set_frames]. rewrite PTEFlags_from_bits_total. erewrite bind_step by reflexivity.
    rewrite (bind_step _ _ _ _ _ E2). done.
  - split; [by eauto|]. intros w Hw. etrans; [exact (Hl2 w Hw)|]. rewrite lookup_insert.
    repeat case_decide; try congruence; [done|by apply HG1].
  - rewrite Forall_forall in Hn2. split_and!.
    + intros x. rewrite Ho2, Ho1. setoid_rewrite lookup_singleton_Some. naive_solver.
    + apply Forall_forall. intros x Hx Hox. apply (Hn2 x Hx), Ho1. by left.
    + intros w f' [<- <-]%lookup_singleton_Some. split_and!; [done| |done].
      intros Hin. apply (Hn2 f Hin), Ho1. by right.
    + by intros ??? [<- <-]%lookup_singleton_Some [<- _]%lookup_singleton_Some.
    + rewrite map_size_singleton. lia.
    + by rewrite map_size_singleton.
    + intros w f' i [<- <-]%lookup_singleton_Some. rewrite Hs2; [done|]. split; [|done].
      apply Ho1. by right.
    + intros x i [Hx Hxpt]. rewrite Hs2; [|split; [apply Ho1; by left|done]].
      apply Hs1. by intros ->.
Qed.

Lemma extended_refl s pt : extended s s pt [] ∅.
Proof.
  split_and!; try done.
  - intros x. set_solver.
Qed.

(** One more page [v] in front of the pages of [D]. *)
Lemma extended_cons s s1 s2 pt new1 new2 v f D :
  Forall (owned s) (pt_frames pt) →
  extended s s1 pt new1 {[v := f]} → extended s1 s2 (with_tables pt new1) new2 D →
  D !! v = None → extended s s2 pt (new1 ++ new2) (<[v := f]> D).
Proof.
  intros Hown (Ho1 & Hn1 & HD1 & _ & Ha1 & Hc1 & Hz1 & Hs1) (Ho2 & Hn2 & HD2 & Hi2 & Ha2 & Hc2 & Hz2 & Hs2) HDv.
  destruct (HD1 v f (lookup_singleton_eq _ _)) as (Hnf & Hfn & Hf).
  assert (owned s1 f) as Hof. { apply Ho1. right; right. exists v. apply lookup_singleton_eq. }
  assert (f ∉ pt_frames pt) as Hfpt.
  { intros Hin. eapply Forall_forall in Hown; [|exact Hin]. done. }
  rewrite Forall_forall in Hn1, Hn2. split_and!.
  - intros x. rewrite Ho2, Ho1, elem_of_app. setoid_rewrite lookup_singleton_Some.
    setoid_rewrite lookup_insert_Some. split; [|].
    + intros [[?|[?|(w & <- & <-)]]|[?|(w & Hw)]]; eauto 6.
      right; right. exists w. right. split; [|done]. intros ->. congruence.
    + intros [?|[[?|?]|(w & [[<- <-]|[? ?]])]]; eauto 8.
  - apply Forall_forall. intros x [Hx|Hx]%elem_of_app Hox; [by apply (Hn1 x)|].
    apply (Hn2 x Hx), Ho1. by left.
  - intros w f' [[<- <-]|[Hne Hw]]%lookup_insert_Some.
    + split_and!; [done| |done]. intros [?|Hin]%elem_of_app; [done|]. by apply (Hn2 f).
    + destruct (HD2 w f' Hw) as (Hnf' & Hfn' & Hf'). split_and!; [| |done].
      * intros Hx. apply Hnf', Ho1. by left.
      * intros [Hin|?]%elem_of_app; [|done]. apply Hnf', Ho1. eauto.
  - intros w w' f' [[<- <-]|[Hne Hw]]%lookup_insert_Some [[<- E]|[Hne' Hw']]%lookup_insert_Some; subst; try done.
    + destruct (HD2 _ _ Hw') as (Hx & _). done.
    + destruct (HD2 _ _ Hw) as (Hx & _). done.
    + by eapply Hi2.
  - rewrite map_size_insert_None, length_app by done. rewrite map_size_singleton in Ha1. lia.
  - rewrite map_size_insert_None, length_app by done. rewrite map_size_singleton in Hc1. lia.
  - intros w f' i [[<- <-]|[Hne Hw]]%lookup_insert_Some; [|by eapply Hz2].
    rewrite Hs2; [eapply Hz1, lookup_singleton_eq|]. split; [done|].
    simpl. rewrite elem_of_app. naive_solver.
  - intros x i [Hx Hxpt]. rewrite Hs2; [by apply Hs1|]. split; [apply Ho1; by left|].
    simpl. intros [?|Hin]%elem_of_app; [done|]. by apply (Hn1 x).
Qed.

Lemma map_loop_framed vs s a pt G :
  represents s pt G → map_type a = Framed → fits 8 (map_perm a) → NoDup vs →
  Forall (λ v, fits 27 v ∧ G !! v = None ∧ data_frames a !! v = None) vs →
  (3 * length vs ≤ avail s)%nat →
  ∃ D new s',
    for_fold vs (a, pt) map_one s =
      Done ((set_frames (D ∪ data_frames a) a, with_tables pt new), s') ∧
    dom D = list_to_set vs ∧
    represents s' (with_tables pt new) ((area_entry a <$> D) ∪ G) ∧
    extended s s' pt new D.
Proof.
  revert s a pt G. induction vs as [|v vs IH]; intros s a pt G Hrep Ht Hperm Hnd Hvs Hav.
  - exists ∅, [], s. rewrite fmap_empty, !(left_id_L ∅ (∪)).
    unfold with_tables. rewrite app_nil_r. destruct a, pt. split_and!; [done|done|done|apply extended_refl].
  - apply NoDup_cons in Hnd as [Hnin Hnd]. apply Forall_cons in Hvs as [(Hv & HGv & Hdv) Hvs].
    simpl in Hav.
    destruct (map_one_framed s a pt G v) as (f & new1 & s1 & E1 & Hrep1 & Hext1); [done..|lia|].
    destruct (IH s1 (set_frames (<[v:=f]> (data_frames a)) a) (with_tables pt new1) (<[v:=area_entry a f]> G))
      as (D & new2 & s2 & E2 & Hdom & Hrep2 & Hext2); [done..| | |].
    + rewrite Forall_forall in *. intros w Hw. destruct (Hvs w Hw) as (? & ? & ?).
      assert (v ≠ w) by (by intros ->). simpl. by rewrite !lookup_insert_ne.
    + destruct Hext1 as (_ & _ & _ & _ & Ha & Hc & _). rewrite map_size_singleton in Ha, Hc. lia.
    + assert (D !! v = None) as HDv by (apply not_elem_of_dom; rewrite Hdom; set_solver).
      exists (<[v:=f]> D), (new1 ++ new2), s2.
      assert (with_tables (with_tables pt new1) new2 = with_tables pt (new1 ++ new2)) as Ept
        by (unfold with_tables; simpl; by rewrite app_assoc).
      rewrite Ept in *. split_and!.
      * cbn [for_fold]. rewrite (bind_step _ _ _ _ _ E1), E2. unfold set_frames; simpl.
        by rewrite <- insert_union_l, insert_union_r.
      * rewrite dom_insert_L, Hdom. done.
      * rewrite fmap_insert, <- insert_union_l, insert_union_r; [done|]. by rewrite lookup_fmap, HDv.
      * apply represents_frames in Hrep as (_ & _ & ?). by eapply extended_cons.
Qed.

End area_spec.
