(* ===== verification/UserSpace.v ===== *)
(** * Theory of user address spaces (os/src/mm/memory_set.rs)

    The invariant of a user address space, and what [push],
    [from_existed_user], [append_to], [shrink_to] and dropping do to it: fork
    copies every page into fresh frames, and dropping an address space gives
    back exactly the frames it owns. *)

From S2P Require Import Prelude Address PhysMem FrameAllocator PageTable MemorySet.

Section space.
Context {A : Type} `{FrameAllocatorLaws A}.

Abbreviation owned s := (fa_owned (frame_allocator s)).
Abbreviation avail s := (fa_avail (frame_allocator s)).

(** ** User address spaces *)

(** A framed area whose pages are the pages of its range. *)
Definition area_wf (a : MapArea) : Prop :=
  map_type a = Framed ∧ fits 8 (map_perm a) ∧
  0 ≤ range_l (vpn_range a) ≤ range_r (vpn_range a) ∧ range_r (vpn_range a) ≤ 2 ^ 27 ∧
  dom (data_frames a) = list_to_set (vpns (vpn_range a)).

(** Page [v] belongs to area number [i], which is [a], and lies in frame [f]. *)
Definition page_of (ms : MemorySet) (i : nat) (v : Z) (a : MapArea) (f : Z) : Prop :=
  areas ms !! i = Some a ∧ data_frames a !! v = Some f.

(** The frame belongs to the address space: to its table or to one of its areas. *)
Definition frame_of (ms : MemorySet) (x : Z) : Prop :=
  x ∈ pt_frames (page_table ms) ∨ ∃ i v a, page_of ms i v a x.

(** The invariant of a user address space: the table maps the pages of the
    areas, with the permissions of the areas, and the extra entries [G0] (the
    trampoline); no page is in two areas, no frame behind two pages, and all
    frames are owned. *)
Definition user_space (s : mm A) (ms : MemorySet) (G0 : gmap Z Z) : Prop :=
  ∃ G, represents s (page_table ms) G ∧
    (∀ v e, G !! v = Some e ↔
       G0 !! v = Some e ∨ ∃ i a f, page_of ms i v a f ∧ e = area_entry a f) ∧
    Forall area_wf (areas ms) ∧
    (∀ i j v a b f g, page_of ms i v a f → page_of ms j v b g → i = j) ∧
    (∀ i j v w a b f, page_of ms i v a f → page_of ms j w b f → v = w) ∧
    (∀ i v a f, page_of ms i v a f →
       owned s f ∧ (f ∉ pt_frames (page_table ms)) ∧ fits 44 f ∧ G0 !! v = None).

Lemma area_wf_range a v f :
  area_wf a → data_frames a !! v = Some f → v ∈ vpns (vpn_range a) ∧ fits 27 v.
Proof.
  intros (_ & _ & Hl & Hr & Hd) Hv. apply elem_of_dom_2 in Hv.
  rewrite Hd, elem_of_list_to_set in Hv. split; [done|].
  unfold vpns in Hv. apply elem_of_zrange in Hv. unfold fits. lia.
Qed.

Lemma area_wf_frame a v :
  area_wf a → v ∈ vpns (vpn_range a) → ∃ f, data_frames a !! v = Some f.
Proof.
  intros (_ & _ & _ & _ & Hd) Hv. apply elem_of_dom. rewrite Hd. by apply elem_of_list_to_set.
Qed.

(** The entry of a page of an area. *)
Lemma user_space_translate s ms G0 i v a f :
  user_space s ms G0 → page_of ms i v a f →
  MemorySet_translate (mem s) ms v = Some (area_entry a f).
Proof.
  intros (G & Hrep & HG & Hwf & _) Hpg. eapply represents_translate; [exact Hrep| |].
  - destruct Hpg as [Ha Hf]. eapply Forall_lookup in Hwf; [|exact Ha].
    by destruct (area_wf_range a v f Hwf Hf).
  - apply HG. right. by exists i, a, f.
Qed.

Lemma area_entry_ppn a f : fits 8 (map_perm a) → fits 44 f → PTE_ppn (area_entry a f) = f.
Proof. intros. apply PTE_ppn_new; [done|]. by apply lor_V_fits. Qed.

Lemma user_space_owned s ms G0 x : user_space s ms G0 → frame_of ms x → owned s x.
Proof.
  intros (G & Hrep & _ & _ & _ & _ & Hfr) [Hx|(i & v & a & Hpg)].
  - apply represents_frames in Hrep as (_ & _ & Hown). by eapply Forall_forall in Hown.
  - by apply (Hfr i v a x).
Qed.

Lemma user_space_mm s ms G0 : user_space s ms G0 → mm_inv s.
Proof. intros (G & Hrep & _). by apply represents_frames in Hrep as (? & _). Qed.

(** Changes outside the address space, or to the contents of its pages. *)
Lemma user_space_frame s s' ms G0 :
  user_space s ms G0 → mm_inv s' →
  same_pages (λ x, x ∈ pt_frames (page_table ms)) s s' →
  (∀ x, frame_of ms x → owned s' x) → user_space s' ms G0.
Proof.
  intros (G & Hrep & HG & Hwf & Hd & Hi & Hfr) Hmm Hs Ho. exists G. split_and!; try done.
  - apply (represents_frame s); [done..|]. intros x Hx. apply Ho. by left.
  - intros i v a f Hpg. destruct (Hfr _ _ _ _ Hpg) as (_ & ? & ? & ?). split_and!; try done.
    apply Ho. right. eauto.
Qed.

(** ** Adding an area *)

Definition fresh_area (a : MapArea) : Prop :=
  map_type a = Framed ∧ fits 8 (map_perm a) ∧ data_frames a = ∅ ∧
  0 ≤ range_l (vpn_range a) ≤ range_r (vpn_range a) ∧ range_r (vpn_range a) ≤ 2 ^ 27.

Lemma vpns_NoDup r : NoDup (vpns r).
Proof. apply NoDup_seqZ. Qed.

(** The pages of the new area: those of [D]. *)
Lemma page_of_snoc pt l a pt' i v b f :
  page_of (mkMemorySet pt' (l ++ [a])) i v b f ↔
  page_of (mkMemorySet pt l) i v b f ∨ i = length l ∧ b = a ∧ data_frames a !! v = Some f.
Proof.
  unfold page_of; simpl. split.
  - intros [Hi Hf]. apply lookup_app_Some in Hi as [?|[Hle Hi]]; [by left|right].
    apply list_lookup_singleton_Some in Hi as [? <-]. split_and!; [lia|done|done].
  - intros [[Hi Hf]|(-> & -> & Hf)].
    + split; [by apply lookup_app_l_Some|done].
    + split; [by rewrite list_lookup_middle|done].
Qed.

Lemma map_area_ok s ms G0 a :
  user_space s ms G0 → fresh_area a →
  (∀ v, v ∈ vpns (vpn_range a) → G0 !! v = None ∧ ∀ i b f, ¬ page_of ms i v b f) →
  (3 * length (vpns (vpn_range a)) ≤ avail s)%nat →
  ∃ D new s',
    let ms' := mkMemorySet (with_tables (page_table ms) new) (areas ms ++ [set_frames D a]) in
    MapArea_map a (page_table ms) s = Done ((set_frames D a, with_tables (page_table ms) new), s') ∧
    user_space s' ms' G0 ∧ area_wf (set_frames D a) ∧ extended s s' (page_table ms) new D.
Proof.
  intros Hus (Ht & Hp & Hempty & Hl & Hr) Hfree Hav.
  pose proof Hus as (G & Hrep & HG & Hwf & Hdis & Hinj & Hfr).
  destruct (map_loop_framed (vpns (vpn_range a)) s a (page_table ms) G)
    as (D & new & s' & E & Hdom & Hrep' & Hext); [done|done|done|apply vpns_NoDup| |done|].
  { apply Forall_forall. intros v Hv. destruct (Hfree v Hv) as [HG0 Hnp]. split_and!.
    - unfold vpns in Hv. apply elem_of_zrange in Hv. unfold fits. lia.
    - apply eq_None_not_Some. intros [e He]. apply HG in He as [?|(i & b & f & ? & _)]; [congruence|].
      by eapply Hnp.
    - by rewrite Hempty. }
  rewrite Hempty, (right_id_L ∅ (∪)) in E.
  exists D, new, s'. intros ms'.
  assert (area_wf (set_frames D a)) as Hwfa by done.
  pose proof Hext as (Ho & Hn & HD & HDi & Ha & _ & Hz & Hs).
  assert (∀ v f, D !! v = Some f → G0 !! v = None ∧ ∀ i b f, ¬ page_of ms i v b f) as HDfree.
  { intros v f Hv. apply Hfree. by apply (area_wf_range (set_frames D a) v f). }
  split_and!; [done| |done|done].
  - assert (∀ i v b f, page_of ms' i v b f ↔ page_of ms i v b f ∨
              i = length (areas ms) ∧ b = set_frames D a ∧ D !! v = Some f) as Hsnoc.
    { intros i v b f. apply (page_of_snoc (page_table ms)). }
    exists ((area_entry a <$> D) ∪ G). split_and!.
    + done.
    + intros v e. rewrite lookup_union_Some_raw, lookup_fmap, fmap_Some, fmap_None, HG.
      setoid_rewrite Hsnoc. split.
      * intros [(f & Hf & ->)|[Hnone [?|(i & b & f & ? & ->)]]]; [|by left|by eauto 10].
        right. exists (length (areas ms)), (set_frames D a), f. eauto.
      * intros [HG0|(i & b & f & [Hpg|(-> & -> & Hf)] & ->)].
        -- right. split; [|by left]. apply eq_None_not_Some. intros [f Hf].
           destruct (HDfree v f Hf) as [? _]. congruence.
        -- right. split; [|by eauto 10]. apply eq_None_not_Some. intros [g Hg].
           destruct (HDfree v g Hg) as [_ Hnp]. by eapply Hnp.
        -- left. by exists f.
    + apply Forall_app. split; [done|]. by apply Forall_singleton.
    + intros i j v b c f g. rewrite !Hsnoc.
      intros [Hb|(-> & -> & Hf)] [Hc|(-> & -> & Hg)]; [by eapply Hdis| | |done].
      * exfalso. by eapply (proj2 (HDfree v g Hg)).
      * exfalso. by eapply (proj2 (HDfree v f Hf)).
    + intros i j v w b c f. rewrite !Hsnoc.
      intros [Hb|(-> & -> & Hf)] [Hc|(-> & -> & Hg)]; [by eapply Hinj| | |by eapply HDi].
      * destruct (Hfr _ _ _ _ Hb) as [? _]. by destruct (HD w f Hg).
      * destruct (Hfr _ _ _ _ Hc) as [? _]. by destruct (HD v f Hf).
    + intros i v b f. rewrite Hsnoc. intros [Hb|(-> & -> & Hf)].
      * destruct (Hfr _ _ _ _ Hb) as (? & ? & ? & ?). split_and!; try done; [apply Ho; by left|].
        intros [?|Hin]%elem_of_app; [done|]. eapply Forall_forall in Hn; [|exact Hin]. done.
      * destruct (HD v f Hf) as (? & ? & ?). split_and!; try done; [apply Ho; eauto| |by apply (HDfree v f)].
        intros [Hin|?]%elem_of_app; [|done].
        apply represents_frames in Hrep as (_ & _ & Hown). eapply Forall_forall in Hown; [|exact Hin]. done.
Qed.

Lemma push_ok s ms G0 a :
  user_space s ms G0 → fresh_area a →
  (∀ v, v ∈ vpns (vpn_range a) → G0 !! v = None ∧ ∀ i b f, ¬ page_of ms i v b f) →
  (3 * length (vpns (vpn_range a)) ≤ avail s)%nat →
  ∃ D new s',
    let ms' := mkMemorySet (with_tables (page_table ms) new) (areas ms ++ [set_frames D a]) in
    push ms a None s = Done (ms', s') ∧ user_space s' ms' G0 ∧
    area_wf (set_frames D a) ∧ extended s s' (page_table ms) new D.
Proof.
  intros Hus Hfresh Hfree Hav.
  destruct (map_area_ok s ms G0 a Hus Hfresh Hfree Hav) as (D & new & s' & E & ? & ? & ?).
  exists D, new, s'. intros ms'. split_and!; [|done..].
  unfold push. by rewrite (bind_step _ _ _ _ _ E).
Qed.

(** ** Copying an address space *)

(** The inner loop of [from_existed_user]: the pages [vs] of area [a] of the
    old space are copied to the frames of area [b] of the new one. *)
Lemma copy_loop vs s old new G0 G1 i j a b :
  user_space s old G0 → user_space s new G1 →
  areas old !! i = Some a → areas new !! j = Some b →
  (∀ v, v ∈ vs → is_Some (data_frames a !! v) ∧ is_Some (data_frames b !! v)) →
  (∀ x, frame_of old x → ¬ frame_of new x) → NoDup vs →
  ∃ s', for_each vs (copy_one old new) s = Done (tt, s') ∧
    frame_allocator s' = frame_allocator s ∧
    user_space s' old G0 ∧ user_space s' new G1 ∧
    (∀ v f g k, v ∈ vs → data_frames a !! v = Some f → data_frames b !! v = Some g →
       rd (mem s') g k = rd (mem s) f k) ∧
    same_pages (λ x, ∀ v, v ∈ vs → data_frames b !! v ≠ Some x) s s'.
Proof.
  intros Hold Hnew Ha Hb. revert s Hold Hnew.
  induction vs as [|v vs IH]; intros s Hold Hnew Hvs Hsep Hnd.
  { exists s. split_and!; try done. by intros ???? ?%not_elem_of_nil. }
  apply NoDup_cons in Hnd as [Hnin Hnd].
  destruct (Hvs v) as [[f Hf] [g Hg]]; [set_solver|].
  assert (page_of old i v a f) as Hpf by done. assert (page_of new j v b g) as Hpg by done.
  assert (fits 8 (map_perm a) ∧ fits 44 f) as [Hpa Hff].
  { destruct Hold as (? & _ & _ & Hwf & _ & _ & Hfr). eapply Forall_lookup in Hwf; [|exact Ha].
    split; [apply Hwf|by apply (Hfr i v a f)]. }
  assert (fits 8 (map_perm b) ∧ fits 44 g ∧ g ∉ pt_frames (page_table new)) as (Hpb & Hfg & Hgpt).
  { destruct Hnew as (? & _ & _ & Hwf & _ & _ & Hfr). eapply Forall_lookup in Hwf; [|exact Hb].
    destruct (Hfr j v b g Hpg) as (_ & ? & ? & _). split_and!; [apply Hwf|done|done]. }
  set (s1 := set_mem (copy_page (mem s) f g) s).
  assert (copy_one old new v s = Done (tt, s1)) as E1.
  { unfold copy_one. erewrite bind_step by reflexivity.
    rewrite (user_space_translate _ _ _ _ _ _ _ Hold Hpf), (user_space_translate _ _ _ _ _ _ _ Hnew Hpg).
    erewrite bind_step by reflexivity. erewrite bind_step by reflexivity.
    by rewrite !area_entry_ppn. }
  assert (same_pages (λ x, x ≠ g) s s1) as Hs1.
  { intros x k Hx. simpl. rewrite rd_copy_page. by rewrite decide_False. }
  assert (mm_inv s1) as Hmm1.
  { pose proof (user_space_mm _ _ _ Hold) as [? ?]. split; [done|]. by apply mem_wf_copy_page. }
  assert (user_space s1 old G0) as Hold1.
  { apply (user_space_frame s); [done|done| |].
    - intros x k Hx. apply Hs1. intros ->. apply (Hsep g); [by left|]. right. eauto.
    - intros x Hx. by apply (user_space_owned s old G0). }
  assert (user_space s1 new G1) as Hnew1.
  { apply (user_space_frame s); [done|done| |].
    - intros x k Hx. apply Hs1. by intros ->.
    - intros x Hx. by apply (user_space_owned s new G1). }
  destruct (IH s1) as (s' & E & Hfa & Hold' & Hnew' & Hcp & Hs'); [done|done|set_solver|done|done|].
  exists s'. cbn [for_each]. rewrite (bind_step _ _ _ _ _ E1).
  assert (∀ w h, w ∈ vs → data_frames b !! w = Some h → h ≠ g) as Hne.
  { intros w h Hw Hh ->. destruct Hnew as (? & _ & _ & _ & _ & Hinj & _).
    assert (w = v) as -> by (by eapply (Hinj j j w v b b g)). done. }
  split_and!; try done.
  - intros w f' g' k [->|Hw]%elem_of_cons Hf' Hg'; simplify_eq.
    + rewrite Hs'; [simpl; rewrite rd_copy_page; by rewrite decide_True|].
      intros w Hw Hx. by eapply (Hne w).
    + rewrite (Hcp w f' g') by done. apply Hs1. intros ->.
      apply (Hsep g); right; [by exists i, w, a|by eauto].
  - intros x k Hx. rewrite Hs'; [apply Hs1; intros ->; by apply (Hx v); [set_solver|]|].
    intros w Hw. apply Hx. set_solver.
Qed.

(** An empty space with the trampoline, as [from_elf] and [from_existed_user]
    start. *)
Definition TRAMPOLINE_VPN : Z := 0x7ffffff.

Lemma bare_trampoline_ok ld tp s :
  mm_inv s → (3 ≤ avail s)%nat →
  PhysPageNum_from_PhysAddr (PhysAddr_from (strampoline ld)) = Some tp → fits 44 tp →
  ∃ ms s1 s', new_bare s = Done (mkMemorySet (mkPageTable (root_ppn (page_table ms)) [root_ppn (page_table ms)]) [], s1) ∧
    map_trampoline ld (mkMemorySet (mkPageTable (root_ppn (page_table ms)) [root_ppn (page_table ms)]) []) s1
      = Done (ms, s') ∧
    areas ms = [] ∧
    user_space s' ms {[TRAMPOLINE_VPN := PTE_new tp 11]} ∧
    (∀ x, owned s' x ↔ owned s x ∨ x ∈ pt_frames (page_table ms)) ∧
    Forall (λ x, ¬ owned s x) (pt_frames (page_table ms)) ∧
    (avail s ≤ 3 + avail s')%nat ∧ same_pages (owned s) s s'.
Proof.
  intros Hmm Hav Htp Hfit.
  destruct (PageTable_new_ok s Hmm ltac:(lia)) as (f & s1 & E1 & Hpt1 & Hf & Hnf & Ho1 & Ha1 & Hs1 & Hl1).
  destruct (PageTable_map_ok s1 (mkPageTable f [f]) {[f := []]} TRAMPOLINE_VPN tp (Z.lor PTE_R PTE_X))
    as (new & s2 & T2 & E2 & Hpt2 & Ho2 & Hn2 & Ha2 & Hlen2 & Hs2 & Hl2);
    [done|unfold fits, TRAMPOLINE_VPN; lia|done|split; [done|reflexivity]|lia|done|].
  exists (mkMemorySet (mkPageTable f ([f] ++ new)) []), s1, s2. simpl in *.
  assert (Forall (λ x, ¬ owned s x) new) as Hn2'.
  { eapply Forall_impl; [exact Hn2|]. simpl. intros x Hx Hox. apply Hx, Ho1. by left. }
  split_and!; try done.
  - unfold new_bare. by rewrite (bind_step _ _ _ _ _ E1).
  - unfold map_trampoline.
    change (VirtPageNum_from_VirtAddr (VirtAddr_from TRAMPOLINE)) with (Some TRAMPOLINE_VPN).
    erewrite bind_step by reflexivity. rewrite Htp. erewrite bind_step by reflexivity.
    by rewrite (bind_step _ _ _ _ _ E2).
  - exists {[TRAMPOLINE_VPN := PTE_new tp 11]}. split_and!; simpl; try done.
    + split; [by eauto|]. intros v Hv. etrans; [exact (Hl2 v Hv)|]. rewrite lookup_singleton.
      repeat case_decide; done.
    + intros v e. split; [by left|]. by intros [?|(i & a & g & [? _] & _)].
    + by intros i j v a b g h [? _].
    + by intros i j v w a b g [? _].
    + by intros i v a g [? _].
  - intros x. rewrite Ho2, Ho1, elem_of_cons. tauto.
  - by constructor.
  - lia.
  - intros x i Hx. rewrite Hs2; [apply Hs1; by intros ->|]. split; [apply Ho1; by left|].
    intros ->%list_elem_of_singleton. done.
Qed.

Definition same_shape (a b : MapArea) : Prop :=
  vpn_range b = vpn_range a ∧ map_type b = map_type a ∧ map_perm b = map_perm a.

(** The areas of [new] are copies, in state [s], of the areas [l] as they were
    in state [s0]. *)
Definition copied (s0 s : mm A) (l : list MapArea) (new : MemorySet) : Prop :=
  length (areas new) = length l ∧
  ∀ i a, l !! i = Some a → ∃ b, areas new !! i = Some b ∧ same_shape a b ∧
    ∀ v f, data_frames a !! v = Some f →
      ∃ g, data_frames b !! v = Some g ∧ ∀ k, rd (mem s) g k = rd (mem s0) f k.

(** From [s0] to [s] the frames of [new] were allocated, and nothing else
    changed. *)
Definition added (s0 s : mm A) (new : MemorySet) : Prop :=
  (∀ x, owned s x ↔ owned s0 x ∨ frame_of new x) ∧
  (∀ x, frame_of new x → ¬ owned s0 x) ∧ same_pages (owned s0) s0 s.

Lemma added_old s0 s new old G0 :
  added s0 s new → user_space s0 old G0 → mm_inv s → user_space s old G0.
Proof.
  intros (Ho & _ & Hs) Hold Hmm. apply (user_space_frame s0); [done|done| |].
  - intros x i Hx. apply Hs. apply (user_space_owned s0 old G0); [done|by left].
  - intros x Hx. apply Ho. left. by apply (user_space_owned s0 old G0).
Qed.

(** Frames of the space after [push]. *)
Lemma frame_of_push ms new D a x :
  frame_of (mkMemorySet (with_tables (page_table ms) new) (areas ms ++ [set_frames D a])) x ↔
  frame_of ms x ∨ x ∈ new ∨ ∃ v, D !! v = Some x.
Proof.
  unfold frame_of. setoid_rewrite (page_of_snoc (page_table ms)). simpl. rewrite elem_of_app.
  destruct ms as [pt l]; simpl. split.
  - intros [[?|?]|(i & v & b & [?|(_ & _ & ?)])]; eauto 8.
  - intros [[?|(i & v & b & ?)]|[?|(v & ?)]]; eauto 10.
Qed.

Lemma added_push s0 s s' ms new D a :
  added s0 s ms → extended s s' (page_table ms) new D →
  added s0 s' (mkMemorySet (with_tables (page_table ms) new) (areas ms ++ [set_frames D a])).
Proof.
  intros (Ho & Hn & Hs) (Ho' & Hn' & HD & _ & _ & _ & _ & Hs'). rewrite Forall_forall in Hn'. split_and!.
  - intros x. rewrite frame_of_push, Ho', Ho. tauto.
  - intros x. rewrite frame_of_push. intros [?|[Hx|[v Hx]]] Hx0; [by eapply Hn| |].
    + apply (Hn' x Hx), Ho. by left.
    + apply (proj1 (HD v x Hx)), Ho. by left.
  - intros x i Hx. rewrite Hs'; [by apply Hs|]. split; [apply Ho; by left|].
    intros Hin. apply (Hn x); [by left|done].
Qed.

Lemma area_wf_size D a : area_wf (set_frames D a) → size D = length (vpns (vpn_range a)).
Proof.
  intros (_ & _ & _ & _ & Hd). simpl in Hd. rewrite <- size_dom, Hd.
  apply size_list_to_set, vpns_NoDup.
Qed.

(** The body of the outer loop of [from_existed_user]. *)
Lemma copy_area_ok s0 s old new G0 G1 done_ a rest :
  user_space s0 old G0 → user_space s new G1 → dom G1 ⊆ dom G0 →
  added s0 s new → copied s0 s done_ new →
  areas old = done_ ++ a :: rest → (3 * length (vpns (vpn_range a)) ≤ avail s)%nat →
  ∃ new' s', copy_area old new a s = Done (new', s') ∧ user_space s' new' G1 ∧
    added s0 s' new' ∧ copied s0 s' (done_ ++ [a]) new' ∧
    (avail s ≤ 3 * length (vpns (vpn_range a)) + avail s')%nat.
Proof.
  intros Hold Hnew HG Hadd [Hlen Hcp] Hareas Hav.
  assert (areas old !! length done_ = Some a) as Ha by (rewrite Hareas; by apply list_lookup_middle).
  assert (area_wf a) as Hwfa.
  { destruct Hold as (? & _ & _ & Hwf & _). by eapply Forall_lookup in Hwf. }
  pose proof Hwfa as (Hta & Hpa & Hla & Hra & Hda).
  set (na := mkMapArea (vpn_range a) ∅ (map_type a) (map_perm a)).
  assert (MapArea_from_another a = Some na) as Ena.
  { unfold MapArea_from_another, SimpleRange_new. rewrite (proj2 (Z.leb_le _ _)) by lia.
    simpl. subst na. by destruct (vpn_range a). }
  destruct (push_ok s new G1 na) as (D & nt & s1 & E1 & Hnew1 & Hwf1 & Hext); [done|split_and!; simpl; done || lia| |done|].
  { intros v Hv. destruct (area_wf_frame a v Hwfa Hv) as [f Hf]. split.
    - apply not_elem_of_dom. intros Hin%HG. apply elem_of_dom in Hin as [e He].
      destruct Hold as (? & _ & _ & _ & _ & _ & Hfr).
      destruct (Hfr (length done_) v a f) as (_ & _ & _ & Hn); [done|]. congruence.
    - intros i b g [Hb Hg]. assert (i < length done_)%nat as Hi by (rewrite <- Hlen; by eapply lookup_lt_Some).
      destruct (lookup_lt_is_Some_2 _ _ Hi) as [c Hc].
      assert (areas old !! i = Some c) as Hc' by (rewrite Hareas; by apply lookup_app_l_Some).
      destruct (Hcp i c Hc) as (b' & Hb' & (Hsh & _ & _) & _). rewrite Hb in Hb'. injection Hb' as <-.
      assert (area_wf b) as Hwfb. { destruct Hnew as (? & _ & _ & Hwf & _). by eapply Forall_lookup in Hwf. }
      destruct (area_wf_range b v g Hwfb Hg) as [Hvb _]. rewrite Hsh in Hvb.
      destruct Hold as (? & _ & _ & Hwf & Hdis & _).
      destruct (area_wf_frame c v) as [h Hh]; [by eapply Forall_lookup in Hwf|done|].
      assert (i = length done_) by (by eapply (Hdis i (length done_) v c a h f)). lia. }
  set (new1 := mkMemorySet (with_tables (page_table new) nt) (areas new ++ [set_frames D na])) in *.
  pose proof (added_push s0 s s1 new nt D na Hadd Hext) as Hadd1. fold new1 in Hadd1.
  pose proof (user_space_mm _ _ _ Hnew1) as Hmm1.
  pose proof (added_old _ _ _ _ _ Hadd1 Hold Hmm1) as Hold1.
  assert (areas new1 !! length done_ = Some (set_frames D na)) as Hb.
  { simpl. rewrite <- Hlen. by apply list_lookup_middle. }
  destruct (copy_loop (vpns (vpn_range a)) s1 old new1 G0 G1 (length done_) (length done_) a (set_frames D na))
    as (s2 & E2 & Hfa & Hold2 & Hnew2 & Hcp2 & Hs2); [done..| | |apply vpns_NoDup|].
  { intros v Hv. split; [by apply area_wf_frame|]. by apply (area_wf_frame (set_frames D na)). }
  { intros x Hx Hx1. destruct Hadd1 as (_ & Hn & _). apply (Hn x Hx1). by apply (user_space_owned s0 old G0). }
  exists new1, s2. split_and!; try done.
  - unfold copy_area. rewrite Ena. erewrite bind_step by reflexivity.
    rewrite (bind_step _ _ _ _ _ E1). fold new1. by rewrite (bind_step _ _ _ _ _ E2).
  - destruct Hadd1 as (Ho & Hn & Hs). split_and!; [|done|].
    + intros x. rewrite Hfa. apply Ho.
    + intros x i Hx. rewrite Hs2; [by apply Hs|]. intros v Hv Hvx. apply (Hn x); [|done].
      right. by exists (length done_), v, (set_frames D na).
  - split; [simpl; rewrite !length_app; simpl; lia|]. intros i c [Hc|[Hi Hc]]%lookup_app_Some.
    + destruct (Hcp i c Hc) as (b & Hbi & Hsh & Hpages). exists b.
      split_and!; [by apply lookup_app_l_Some|done|]. intros v f Hf.
      destruct (Hpages v f Hf) as (g & Hg & Hrd). exists g. split; [done|]. intros k. rewrite <- Hrd.
      assert (owned s g) as Hog by (apply (user_space_owned s new G1); [done|right; by exists i, v, b]).
      destruct Hext as (_ & _ & HD & _ & _ & _ & _ & Hse). rewrite Hs2.
      * apply Hse. split; [done|]. destruct Hnew as (? & _ & _ & _ & _ & _ & Hfr). by destruct (Hfr i v b g (conj Hbi Hg)) as (_ & ? & _).
      * intros w Hw Hwg. by destruct (HD w g Hwg).
    + apply list_lookup_singleton_Some in Hc as [? <-]. replace i with (length done_) by lia.
      exists (set_frames D na). split_and!; [done|by split_and!|]. intros v f Hf.
      destruct (area_wf_range a v f Hwfa Hf) as [Hv _].
      destruct (area_wf_frame (set_frames D na) v Hwf1 Hv) as [g Hg]. exists g. split; [done|].
      intros k. rewrite (Hcp2 v f g) by done. destruct Hadd1 as (_ & _ & Hs). apply Hs.
      apply (user_space_owned s0 old G0); [done|]. right. by exists (length done_), v, a.
  - rewrite Hfa. destruct Hext as (_ & _ & _ & _ & Hsz & Hc & _).
    rewrite (area_wf_size D na Hwf1) in *. simpl in *. lia.
Qed.

Definition total_pages (l : list MapArea) : nat := sum_list_with (λ a, length (vpns (vpn_range a))) l.

Lemma copy_areas_ok s0 old G0 G1 rest done_ s new :
  user_space s0 old G0 → dom G1 ⊆ dom G0 →
  user_space s new G1 → added s0 s new → copied s0 s done_ new →
  areas old = done_ ++ rest → (3 * total_pages rest ≤ avail s)%nat →
  ∃ new' s', for_fold rest new (copy_area old) s = Done (new', s') ∧ user_space s' new' G1 ∧
    added s0 s' new' ∧ copied s0 s' (areas old) new'.
Proof.
  intros Hold HG. revert done_ s new.
  induction rest as [|a rest IH]; intros done_ s new Hnew Hadd Hcp Hareas Hav.
  - exists new, s. rewrite app_nil_r in Hareas. by rewrite Hareas.
  - unfold total_pages in Hav; simpl in Hav; fold (total_pages rest) in Hav.
    destruct (copy_area_ok s0 s old new G0 G1 done_ a rest)
      as (new1 & s1 & E1 & Hnew1 & Hadd1 & Hcp1 & Hav1); [done..|lia|].
    destruct (IH (done_ ++ [a]) s1 new1) as (new' & s' & E & Hres); [done..| |lia|].
    + by rewrite <- app_assoc.
    + exists new', s'. cbn [for_fold]. by rewrite (bind_step _ _ _ _ _ E1).
Qed.

(** ** Loading data into an area *)

Section load.
Context (ms : MemorySet) (G0 : gmap Z Z) (j : nat) (a : MapArea) (data : list Z).
Hypothesis Ha : areas ms !! j = Some a.
Hypothesis Hdata : Forall is_byte data.

Abbreviation len := (Z.of_nat (length data)).
Abbreviation first := (range_l (vpn_range a)).

(** The byte of the area at page [v], offset [o], after the pages from [k] on
    have been loaded. *)
Definition loaded (s s' : mm A) (k : Z) : Prop :=
  ∀ v f o, data_frames a !! v = Some f → 0 ≤ o < 4096 →
    rd_byte (mem s') f o =
      if decide (first + k ≤ v)
      then default (rd_byte (mem s) f o) (data !! Z.to_nat ((v - first) * 4096 + o))
      else rd_byte (mem s) f o.

(** One page: its frame gets the next 4096 bytes, or those that are left. *)
Lemma copy_body_ok s k f :
  user_space s ms G0 → 0 ≤ k → (k = 0 ∨ 4096 * k < len) → 4096 * k < 2 ^ 60 →
  data_frames a !! (first + k) = Some f →
  let src := slice (Z.to_nat (4096 * k)) (Z.to_nat (Z.min len (4096 * k + 4096) - 4096 * k)) data in
  let s1 := set_mem (wr_bytes (mem s) (f * 4096) src) s in
  copy_body (page_table ms) data (4096 * k, first + k) s =
    Done (if len <=? 4096 * (k + 1) then inr tt else inl (4096 * (k + 1), first + (k + 1)), s1) ∧
  user_space s1 ms G0 ∧ same_pages (λ x, x ≠ f) s s1 ∧
  (∀ o, 0 ≤ o < 4096 →
     rd_byte (mem s1) f o = default (rd_byte (mem s) f o) (data !! Z.to_nat (4096 * k + o))).
Proof.
  intros Hus Hk0 Hk Hbig Hf src s1.
  assert (page_of ms j (first + k) a f) as Hpg by done.
  pose proof Hus as (_ & _ & _ & Hwf & _ & _ & Hfr). eapply Forall_lookup in Hwf; [|exact Ha].
  destruct (Hfr _ _ _ _ Hpg) as (Hown & Hnpt & [Hf0 Hf44] & _).
  destruct (area_wf_range a _ f Hwf Hf) as [Hrng [Hv0 Hv27]].
  assert (Z.of_nat (length src) = Z.min (len - 4096 * k) 4096) as Hsrc.
  { subst src. unfold slice. rewrite length_take, length_drop. lia. }
  assert (Forall is_byte src) as Hbsrc by (by apply Forall_take, Forall_drop).
  assert (same_pages (λ x, x ≠ f) s s1) as Hs1.
  { intros x i Hx. simpl. pose proof (rd_wr_bytes_ne (mem s) f 0 src x i) as Hne.
    rewrite Z.add_0_r in Hne. apply Hne; lia || done. }
  split_and!; [| |done|].
  - unfold copy_body. rewrite wadd_small by (unfold fits, PAGE_SIZE; lia).
    unfold PAGE_SIZE. rewrite (proj2 (Z.leb_le (4096 * k) (Z.min len (4096 * k + 4096)))) by lia. erewrite bind_step by reflexivity.
    erewrite bind_step by reflexivity.
    rewrite (user_space_translate _ _ _ _ _ _ _ Hus Hpg : translate (mem s) (page_table ms) _ = _).
    erewrite bind_step by reflexivity. fold src. rewrite (proj2 (Z.leb_le (Z.of_nat (length src)) 4096)) by lia.
    erewrite bind_step by reflexivity. erewrite bind_step by reflexivity.
    rewrite area_entry_ppn by (apply Hwf || done). fold s1.
    unfold step. rewrite wadd_small by (unfold fits; lia).
    replace (4096 * k + 4096) with (4096 * (k + 1)) by lia.
    replace (first + k + 1) with (first + (k + 1)) by lia. by destruct (_ <=? _).
  - apply (user_space_frame s); [done| | |].
    + pose proof (user_space_mm _ _ _ Hus) as [? ?]. split; [done|]. apply mem_wf_wr_bytes; [done|lia|done].
    + intros x i Hx. apply Hs1. by intros ->.
    + intros x Hx. by apply (user_space_owned s ms G0).
  - intros o Ho. simpl. rewrite rd_byte_wr_bytes by done. f_equal. subst src. unfold slice.
    destruct (decide (4096 * k + o < len)).
    + rewrite lookup_take_lt, lookup_drop by lia. f_equal. lia.
    + rewrite (lookup_ge_None_2 data), (lookup_ge_None_2 (take _ _)) by (rewrite ?length_take, ?length_drop; lia). done.
Qed.

Lemma rd_byte_same (s s' : mm A) P p o : same_pages P s s' → P p → rd_byte (mem s') p o = rd_byte (mem s) p o.
Proof. intros Hs Hp. unfold rd_byte. by rewrite Hs. Qed.

Lemma copy_loop_ok fuel s k :
  user_space s ms G0 → 0 ≤ k → (k = 0 ∨ 4096 * k < len) →
  len ≤ 4096 * Z.of_nat (length (vpns (vpn_range a))) → vpns (vpn_range a) ≠ [] →
  len - 4096 * k < Z.of_nat fuel →
  ∃ s', loop fuel (copy_body (page_table ms) data) (4096 * k, first + k) s = Done (tt, s') ∧
    frame_allocator s' = frame_allocator s ∧ user_space s' ms G0 ∧ loaded s s' k ∧
    same_pages (λ x, ∀ v, data_frames a !! v ≠ Some x) s s'.
Proof.
  revert s k. induction fuel as [|fuel IH]; intros s k Hus Hk0 Hk Hlen Hne Hfuel; [lia|].
  pose proof Hus as (_ & _ & _ & Hwf & _ & Hinj & _). eapply Forall_lookup in Hwf; [|exact Ha].
  pose proof Hwf as (_ & _ & Hl & Hr & _). unfold vpns in Hlen, Hne. rewrite length_zrange in Hlen.
  assert (first < range_r (vpn_range a)) as Hlt.
  { destruct (decide (first < range_r (vpn_range a))); [done|]. by rewrite zrange_nil in Hne by lia. }
  destruct (area_wf_frame a (first + k) Hwf) as [f Hf].
  { unfold vpns. apply elem_of_zrange. lia. }
  destruct (copy_body_ok s k f) as (E1 & Hus1 & Hs1 & Hb1); [done..|lia|done|].
  set (s1 := set_mem _ s) in *.
  assert (∀ v g, data_frames a !! v = Some g → v ≠ first + k → g ≠ f) as Hnf.
  { intros v g Hg Hv ->. apply Hv. by eapply (Hinj j j v (first + k) a a f). }
  assert (loaded s s1 k ∨ 4096 * (k + 1) < len) as Hcase.
  { destruct (decide (4096 * (k + 1) < len)); [by right|left]. intros v g o Hg Ho.
    destruct (decide (v = first + k)) as [->|Hv].
    - rewrite Hf in Hg. injection Hg as <-. rewrite decide_True, Hb1 by lia. f_equal. f_equal. lia.
    - rewrite (rd_byte_same s s1 _ g o Hs1) by (by eapply Hnf). case_decide; [|done].
      by rewrite lookup_ge_None_2 by lia. }
  destruct (Z.leb_spec len (4096 * (k + 1))) as [Hle|Hgt].
  - exists s1. rewrite (loop_exit _ _ _ _ _ _ E1). split_and!; try done.
    + destruct Hcase; [done|lia].
    + intros x i Hx. apply Hs1. intros ->. by apply (Hx (first + k)).
  - destruct (IH s1 (k + 1)) as (s' & E & Hfa & Hus' & Hld & Hs'); [done|lia|by right| | |lia|].
    { unfold vpns. rewrite length_zrange. lia. } { done. }
    exists s'. rewrite (loop_again _ _ _ _ _ _ E1). split_and!; try done.
    + intros v g o Hg Ho. rewrite (Hld v g o Hg Ho).
      destruct (decide (v = first + k)) as [->|Hv].
      * rewrite Hf in Hg. injection Hg as <-. rewrite decide_False, decide_True, Hb1 by lia. f_equal. f_equal. lia.
      * rewrite (rd_byte_same s s1 _ g o Hs1) by (by eapply Hnf). repeat case_decide; done || lia.
    + intros x i Hx. rewrite Hs' by done. apply Hs1. intros ->. by apply (Hx (first + k)).
Qed.

End load.

(** Mapping an area and loading it: its bytes are the data followed by zeros. *)
Lemma push_data_ok s ms G0 a data :
  user_space s ms G0 → fresh_area a → vpns (vpn_range a) ≠ [] →
  (∀ v, v ∈ vpns (vpn_range a) → G0 !! v = None ∧ ∀ i b f, ¬ page_of ms i v b f) →
  (3 * length (vpns (vpn_range a)) ≤ avail s)%nat →
  Forall is_byte data → Z.of_nat (length data) ≤ 4096 * Z.of_nat (length (vpns (vpn_range a))) →
  ∃ D new s1 s',
    let ms' := mkMemorySet (with_tables (page_table ms) new) (areas ms ++ [set_frames D a]) in
    push ms a (Some data) s = Done (ms', s') ∧ user_space s' ms' G0 ∧ area_wf (set_frames D a) ∧
    extended s s1 (page_table ms) new D ∧ frame_allocator s' = frame_allocator s1 ∧
    (∀ v f o, D !! v = Some f → 0 ≤ o < 4096 →
       rd_byte (mem s') f o = default 0 (data !! Z.to_nat ((v - range_l (vpn_range a)) * 4096 + o))) ∧
    same_pages (λ x, ∀ v, D !! v ≠ Some x) s1 s'.
Proof.
  intros Hus Hfresh Hne Hfree Hav Hdata Hlen.
  destruct (map_area_ok s ms G0 a Hus Hfresh Hfree Hav) as (D & new & s1 & E1 & Hus1 & Hwf & Hext).
  set (ms' := mkMemorySet _ _) in *.
  assert (areas ms' !! length (areas ms) = Some (set_frames D a)) as Hlook by (by apply list_lookup_middle).
  destruct (copy_loop_ok ms' G0 (length (areas ms)) (set_frames D a) data Hlook Hdata (S (length data)) s1 0)
    as (s2 & E2 & Hfa & Hus2 & Hld & Hs2); [done|lia|by left|done|done|lia|].
  assert (map_type a = Framed) as Ht by apply Hfresh.
  exists D, new, s1, s2. intros ms0. split_and!; try done.
  - unfold push. rewrite (bind_step _ _ _ _ _ E1).
    erewrite bind_step; [reflexivity|]. unfold copy_data. rewrite bool_decide_true by exact Ht.
    rewrite (bind_step _ _ _ tt s1) by done.
    replace (range_l _) with (range_l (vpn_range (set_frames D a)) + 0) by (simpl; lia). exact E2.
  - intros v f o Hf Ho. rewrite (Hld v f o Hf Ho).
    destruct (area_wf_range (set_frames D a) v f Hwf Hf) as [Hv _]. unfold vpns in Hv. apply elem_of_zrange in Hv.
    cbn [vpn_range set_frames] in *. case_decide; [|lia].
    assert (rd_byte (mem s1) f o = 0) as ->; [|done].
    destruct Hext as (_ & _ & _ & _ & _ & _ & Hz & _).
    unfold rd_byte. rewrite (Hz v f) by done. unfold word_byte. by rewrite Zdiv.Zdiv_0_l.
Qed.

(** ** Giving frames back *)

(** The frames [P] were given back and nothing else changed. *)
Definition released (s s' : mm A) (P : Z → Prop) (n : nat) : Prop :=
  mm_inv s' ∧ mem s' = mem s ∧ (∀ x, owned s' x ↔ owned s x ∧ ¬ P x) ∧ avail s' = (avail s + n)%nat.

Lemma released_trans s1 s2 s3 P Q R n m :
  released s1 s2 P n → released s2 s3 Q m → (∀ x, R x ↔ P x ∨ Q x) → released s1 s3 R (n + m).
Proof.
  intros (_ & Hm & Ho & Ha) (Hmm' & Hm' & Ho' & Ha') HR. split_and!; [done|congruence| |lia].
  intros x. rewrite Ho', Ho, HR. tauto.
Qed.

Lemma dealloc_list_ok l s :
  mm_inv s → NoDup l → Forall (owned s) l →
  ∃ s', for_each l frame_dealloc s = Done (tt, s') ∧ released s s' (λ x, x ∈ l) (length l).
Proof.
  revert s. induction l as [|f l IH]; intros s Hmm Hnd Hown.
  - exists s. split; [done|]. split_and!; [done|done|set_solver|simpl; lia].
  - apply NoDup_cons in Hnd as [Hnin Hnd]. apply Forall_cons in Hown as [Hf Hown].
    destruct (frame_dealloc_ok s f Hmm Hf) as (s1 & E1 & Hmm1 & Hm1 & Ho1 & Ha1).
    destruct (IH s1) as (s2 & E2 & Hrel); [done|done| |].
    { rewrite Forall_forall in *. intros x Hx. apply Ho1. split; [by apply Hown|]. by intros ->. }
    exists s2. cbn [for_each]. rewrite (bind_step _ _ _ _ _ E1). split; [done|].
    apply (released_trans s s1 s2 (λ x, x = f) (λ x, x ∈ l) _ 1 (length l)); [|done|].
    + split_and!; [done|done|done|lia].
    + intros x. apply elem_of_cons.
Qed.

(** Dropping the entries of [ks] is giving back the list of their frames. *)
Lemma drop_keys_list (D : gmap Z Z) ks (s : mm A) :
  for_each ks (λ vpn, drop_opt (D !! vpn)) s = for_each (omap (λ v, D !! v) ks) frame_dealloc s.
Proof.
  revert s. induction ks as [|v ks IH]; intros s; [done|]. cbn. destruct (D !! v) as [f|]; cbn.
  - unfold mbind, st_bind. destruct (frame_dealloc f s) as [[[] s1]| |]; [apply IH|done|done].
  - apply IH.
Qed.

Lemma NoDup_frames (D : gmap Z Z) ks :
  (∀ v w f, D !! v = Some f → D !! w = Some f → v = w) → NoDup ks → NoDup (omap (λ v, D !! v) ks).
Proof.
  intros Hinj. induction 1 as [|v ks Hnin Hnd IH]; simpl; [constructor|].
  destruct (D !! v) as [f|] eqn:Hf; simpl; [|done]. constructor; [|done].
  intros (w & Hw & Hwf)%list_elem_of_omap. by rewrite (Hinj v w f Hf Hwf) in Hnin.
Qed.

Lemma drop_frames_ok D s :
  mm_inv s → (∀ v f, D !! v = Some f → owned s f) →
  (∀ v w f, D !! v = Some f → D !! w = Some f → v = w) →
  ∃ s' n, drop_frames D s = Done (tt, s') ∧ released s s' (λ x, ∃ v, D !! v = Some x) n.
Proof.
  intros Hmm Hown Hinj. unfold drop_frames.
  set (ks := merge_sort Z.le (map_to_list D).*1).
  assert (ks ≡ₚ (map_to_list D).*1) as Hperm by apply merge_sort_Permutation.
  assert (∀ v f, D !! v = Some f → v ∈ ks) as Hks.
  { intros v f Hf. rewrite Hperm, list_elem_of_fmap. exists (v, f). split; [done|]. by apply elem_of_map_to_list. }
  rewrite drop_keys_list.
  destruct (dealloc_list_ok (omap (λ v, D !! v) ks) s) as (s' & E & Hmm' & Hm & Ho & Ha); [done| | |].
  - apply NoDup_frames; [done|]. rewrite Hperm. apply NoDup_fst_map_to_list.
  - apply Forall_forall. intros f (v & _ & Hv)%list_elem_of_omap. by eapply Hown.
  - exists s', (length (omap (λ v, D !! v) ks)). split; [done|]. split_and!; [done|done| |done].
    intros x. rewrite Ho, list_elem_of_omap. naive_solver.
Qed.

(** Areas whose frames are owned and pairwise different. *)
Definition areas_own (s : mm A) (l : list MapArea) : Prop :=
  (∀ i a v f, l !! i = Some a → data_frames a !! v = Some f → owned s f) ∧
  (∀ i j a b v w f, l !! i = Some a → l !! j = Some b →
     data_frames a !! v = Some f → data_frames b !! w = Some f → i = j ∧ v = w).

Lemma drop_areas_ok l s :
  mm_inv s → areas_own s l →
  ∃ s' n, for_each l drop_area s = Done (tt, s') ∧
    released s s' (λ x, ∃ i a v, l !! i = Some a ∧ data_frames a !! v = Some x) n.
Proof.
  revert s. induction l as [|a l IH]; intros s Hmm [Hown Hinj].
  - exists s, 0%nat. split; [done|]. split_and!; [done|done|naive_solver|lia].
  - destruct (drop_frames_ok (data_frames a) s) as (s1 & n1 & E1 & Hrel1);
      [done|by intros v f; apply (Hown 0%nat a)|by intros v w f Hv Hw; apply (Hinj 0%nat 0%nat a a v w f)|].
    destruct (IH s1) as (s2 & n2 & E2 & Hrel2); [apply Hrel1| |].
    { destruct Hrel1 as (_ & _ & Ho & _). split.
      - intros i b v f Hb Hf. apply Ho. split; [by apply (Hown (S i) b v)|]. intros [w Hw].
        by destruct (Hinj (S i) 0%nat b a v w f).
      - intros i j b c v w f Hb Hc Hf Hg. destruct (Hinj (S i) (S j) b c v w f) as [??]; [done..|]. split; [lia|done]. }
    exists s2, (n1 + n2)%nat. cbn [for_each]. rewrite (bind_step _ _ _ _ _ E1). split; [done|].
    eapply released_trans; [done..|]. intros x. split.
    + intros ([|i] & b & v & Hb & Hf); simpl in *; simplify_eq; [left|right]; eauto.
    + intros [[v Hv]|(i & b & v & Hb & Hf)]; [exists 0%nat, a, v|exists (S i), b, v]; done.
Qed.

Lemma user_space_areas_own s ms G0 : user_space s ms G0 → areas_own s (areas ms).
Proof.
  intros (G & _ & _ & _ & Hdis & Hinj & Hfr). split.
  - intros i a v f Ha Hf. by destruct (Hfr i v a f).
  - intros i j a b v w f Ha Hb Hf Hg. assert (v = w) as -> by (by eapply (Hinj i j v w a b f)).
    split; [|done]. by eapply (Hdis i j w a b f f).
Qed.

Lemma drop_MemorySet_ok s ms G0 :
  user_space s ms G0 →
  ∃ s' n, drop_MemorySet ms s = Done (tt, s') ∧ released s s' (frame_of ms) n.
Proof.
  intros Hus. pose proof (user_space_areas_own _ _ _ Hus) as [Hown Hinj].
  pose proof Hus as (G & Hrep & _ & _ & _ & _ & Hfr).
  apply represents_frames in Hrep as (Hmm & Hnd & Hpt).
  destruct (dealloc_list_ok (pt_frames (page_table ms)) s) as (s1 & E1 & Hrel1); [done..|].
  destruct (drop_areas_ok (areas ms) s1) as (s2 & n & E2 & Hrel2); [apply Hrel1| |].
  { destruct Hrel1 as (_ & _ & Ho & _). split; [|done]. intros i a v f Ha Hf. apply Ho.
    by destruct (Hfr i v a f (conj Ha Hf)) as (? & ? & _). }
  exists s2, (length (pt_frames (page_table ms)) + n)%nat. split.
  - unfold drop_MemorySet. by rewrite (bind_step _ _ _ _ _ E1).
  - eapply released_trans; [done..|]. intros x. unfold frame_of, page_of. naive_solver.
Qed.

End space.

(** ** Properties *)

Section properties.
Context {A : Type} `{FrameAllocatorLaws A}.

Abbreviation owned s := (fa_owned (frame_allocator s)).
Abbreviation avail s := (fa_avail (frame_allocator s)).

(** C8. Fork isolation. [from_existed_user] gives the child the areas of the
    parent: the same ranges and permissions, every page in a frame that nobody
    owned before and with the contents of the parent's page. The parent's
    address space, and every other page in use, is unchanged, and the frames
    taken from the allocator are exactly those of the child. *)
Theorem fork_isolation (ld : linker_symbols) (tp : Z) (s : mm A) (ms : MemorySet) (G0 : gmap Z Z) :
  user_space s ms G0 → TRAMPOLINE_VPN ∈ dom G0 →
  PhysPageNum_from_PhysAddr (PhysAddr_from (strampoline ld)) = Some tp → fits 44 tp →
  (3 + 3 * total_pages (areas ms) ≤ avail s)%nat →
  ∃ child s', from_existed_user ld ms s = Done (child, s') ∧
    user_space s' child {[TRAMPOLINE_VPN := PTE_new tp 11]} ∧
    copied s s' (areas ms) child ∧ added s s' child ∧ user_space s' ms G0.
Proof.
  intros Hus HG Htp Hfit Hav. pose proof (user_space_mm _ _ _ Hus) as Hmm.
  destruct (bare_trampoline_ok ld tp s) as (ms0 & s1 & s2 & E1 & E2 & Hnil & Hus2 & Ho & Hn & Ha & Hs);
    [done|lia|done|done|].
  assert (∀ x, frame_of ms0 x ↔ x ∈ pt_frames (page_table ms0)) as Hf0.
  { intros x. unfold frame_of, page_of. rewrite Hnil. naive_solver. }
  destruct (copy_areas_ok s ms G0 {[TRAMPOLINE_VPN := PTE_new tp 11]} (areas ms) [] s2 ms0)
    as (child & s' & E3 & Hc & Hadd & Hcp); [done| |done| | |done|lia|].
  - rewrite dom_singleton_L. set_solver.
  - split_and!; [|intros x Hx; eapply Forall_forall in Hn; [done|by apply Hf0]|done].
    intros x. by rewrite Ho, Hf0.
  - split; [by rewrite Hnil|done].
  - exists child, s'. split_and!; try done.
    + unfold from_existed_user. by rewrite (bind_step _ _ _ _ _ E1), (bind_step _ _ _ _ _ E2).
    + eapply added_old; [done|done|]. by eapply user_space_mm.
Qed.

(** C34. Dropping a user address space gives back exactly the frames of its
    page table and of its areas, each once (no double free, no leak), and
    touches no memory. *)
Theorem drop_address_space_exact (s : mm A) (ms : MemorySet) (G0 : gmap Z Z) :
  user_space s ms G0 →
  ∃ s', drop_MemorySet ms s = Done (tt, s') ∧ mm_inv s' ∧ mem s' = mem s ∧
    ∀ x, owned s' x ↔ owned s x ∧ ¬ frame_of ms x.
Proof.
  intros Hus. destruct (drop_MemorySet_ok s ms G0 Hus) as (s' & n & E & ? & ? & ? & _). by exists s'.
Qed.

(** Loading a segment: [push] of a framed area with data maps every page of
    the range to a fresh frame and the bytes of the area are the data followed
    by zeros; every other page in use is unchanged. *)
Theorem push_loads_segment (s : mm A) (ms : MemorySet) (G0 : gmap Z Z) (a : MapArea) (data : list Z) :
  user_space s ms G0 → fresh_area a → vpns (vpn_range a) ≠ [] →
  (∀ v, v ∈ vpns (vpn_range a) → G0 !! v = None ∧ ∀ i b f, ¬ page_of ms i v b f) →
  (3 * length (vpns (vpn_range a)) ≤ avail s)%nat →
  Forall is_byte data → Z.of_nat (length data) ≤ 4096 * Z.of_nat (length (vpns (vpn_range a))) →
  ∃ ms' s', push ms a (Some data) s = Done (ms', s') ∧ user_space s' ms' G0 ∧
    (∀ v o, v ∈ vpns (vpn_range a) → 0 ≤ o < 4096 →
       ∃ b f, page_of ms' (length (areas ms)) v b f ∧ map_perm b = map_perm a ∧
         rd_byte (mem s') f o = default 0 (data !! Z.to_nat ((v - range_l (vpn_range a)) * 4096 + o))) ∧
    same_pages (λ x, owned s x ∧ x ∉ pt_frames (page_table ms)) s s'.
Proof.
  intros Hus Hfresh Hne Hfree Hav Hdata Hlen.
  destruct (push_data_ok s ms G0 a data Hus Hfresh Hne Hfree Hav Hdata Hlen)
    as (D & new & s1 & s2 & E & Hus2 & Hwf & (_ & _ & HD & _ & _ & _ & _ & Hs1) & _ & Hb & Hs2).
  eexists _, s2. split_and!; [exact E|done| |].
  - intros v o Hv Ho. destruct (area_wf_frame _ v Hwf Hv) as [f Hf]. exists (set_frames D a), f.
    split_and!; [|done|by apply Hb]. split; [by apply list_lookup_middle|done].
  - intros x i Hx. rewrite Hs2; [by apply Hs1|]. intros v Hv. destruct (HD v x Hv) as [? _]. by destruct Hx.
Qed.

End properties.

(** ** Witnesses

    An address space with two user pages, built from an empty allocator. *)

Definition wit_ld : linker_symbols := mkLinker 0 0 0 0 0 0 0 0 0 0x80201000.
Definition wit_frames : mm StackFrameAllocator := mkMM (mkStackFA 0x80500 0x80540 []) ∅.
Definition wit_area : MapArea := mkMapArea (mkSimpleRange 0x10 0x12) ∅ Framed 0x16.
Definition wit_build : ST (mm StackFrameAllocator) MemorySet :=
  ms ← new_bare; ms ← map_trampoline wit_ld ms; push ms wit_area None.

Lemma wit_frames_inv : @mm_inv _ _ (stack_frame_laws 0x80500) wit_frames.
Proof.
  split; simpl.
  - unfold stack_inv; simpl. split_and!; try lia; [apply NoDup_nil_2|by constructor].
  - intros p i. unfold rd, get_page. rewrite lookup_empty. unfold fits, rd_word; simpl.
    rewrite lookup_empty. simpl. lia.
Qed.

Lemma wit_build_ok :
  ∃ ms s, wit_build wit_frames = Done (ms, s) ∧
    @user_space _ _ (stack_frame_laws 0x80500) s ms {[TRAMPOLINE_VPN := PTE_new 0x80201 11]} ∧
    total_pages (areas ms) = 2%nat ∧ (20 ≤ stack_avail (frame_allocator s))%nat.
Proof.
  destruct (@bare_trampoline_ok _ _ (stack_frame_laws 0x80500) wit_ld 0x80201 wit_frames wit_frames_inv)
    as (ms0 & s1 & s2 & E1 & E2 & Hnil & Hus & _ & _ & Ha & _);
    [apply (bool_decide_unpack _); vm_compute; done|reflexivity|unfold fits; lia|].
  change (64 ≤ 3 + stack_avail (frame_allocator s2))%nat in Ha.
  destruct (@push_ok _ _ (stack_frame_laws 0x80500) s2 ms0 _ wit_area Hus) as (D & new & s3 & E3 & Hus3 & Hwf & Hext).
  - split_and!; simpl; try done; try lia.
  - intros v Hv. unfold vpns in Hv. apply elem_of_zrange in Hv. simpl in Hv. split.
    + apply lookup_singleton_None. unfold TRAMPOLINE_VPN. lia.
    + intros i b f [Hb _]. by rewrite Hnil in Hb.
  - simpl. lia.
  - eexists _, s3. split_and!; [|exact Hus3|by simpl; rewrite Hnil|].
    + unfold wit_build. by rewrite (bind_step _ _ _ _ _ E1), (bind_step _ _ _ _ _ E2).
    + pose proof (area_wf_size _ _ Hwf) as Hsz. destruct Hext as (_ & _ & _ & _ & Hav & Hc & _).
      change (length (vpns (vpn_range wit_area))) with 2%nat in Hsz. simpl in Hav. lia.
Qed.

Lemma fork_isolation_witness :
  ∃ ms s child s', wit_build wit_frames = Done (ms, s) ∧
    from_existed_user wit_ld ms s = Done (child, s') ∧
    @copied StackFrameAllocator s s' (areas ms) child.
Proof.
  destruct wit_build_ok as (ms & s & E & Hus & Htot & Hav).
  destruct (@fork_isolation _ _ (stack_frame_laws 0x80500) wit_ld 0x80201 s ms _ Hus)
    as (child & s' & E' & _ & Hcp & _ & _);
    [set_solver|reflexivity|unfold fits; lia|simpl; lia|].
  exists ms, s, child, s'. exact (conj E (conj E' Hcp)).
Defined.

Lemma drop_address_space_exact_witness :
  ∃ ms s s', wit_build wit_frames = Done (ms, s) ∧ drop_MemorySet ms s = Done (tt, s') ∧
    ∀ x, stack_owned 0x80500 (frame_allocator s') x → ¬ frame_of ms x.
Proof.
  destruct wit_build_ok as (ms & s & E & Hus & _).
  destruct (@drop_address_space_exact _ _ (stack_frame_laws 0x80500) s ms _ Hus)
    as (s' & E' & _ & _ & Ho).
  exists ms, s, s'. split; [exact E|split; [exact E'|]]. intros x Hx. by apply Ho.
Defined.

(** A segment of ten bytes in the two pages of [wit_area]. *)
Lemma push_loads_segment_witness :
  ∃ ms s ms' s' f, (ms ← new_bare; map_trampoline wit_ld ms) wit_frames = Done (ms, s) ∧
    push ms wit_area (Some (replicate 10 7)) s = Done (ms', s') ∧
    rd_byte (mem s') f 9 = 7 ∧ rd_byte (mem s') f 10 = 0.
Proof.
  destruct (@bare_trampoline_ok _ _ (stack_frame_laws 0x80500) wit_ld 0x80201 wit_frames wit_frames_inv)
    as (ms0 & s1 & s2 & E1 & E2 & Hnil & Hus & _ & _ & Ha & _);
    [apply (bool_decide_unpack _); vm_compute; done|reflexivity|unfold fits; lia|].
  change (64 ≤ 3 + stack_avail (frame_allocator s2))%nat in Ha.
  destruct (@push_loads_segment _ _ (stack_frame_laws 0x80500) s2 ms0 _ wit_area (replicate 10 7) Hus)
    as (ms' & s' & E & Hus' & Hb & _).
  - split_and!; simpl; try done; try lia.
  - done.
  - intros v Hv. unfold vpns in Hv. apply elem_of_zrange in Hv. simpl in Hv. split.
    + apply lookup_singleton_None. unfold TRAMPOLINE_VPN. lia.
    + intros i b f [Hb _]. by rewrite Hnil in Hb.
  - simpl. lia.
  - apply Forall_replicate. unfold fits. lia.
  - rewrite length_replicate. change (length (vpns (vpn_range wit_area))) with 2%nat. lia.
  - assert (0x10 ∈ vpns (vpn_range wit_area)) as Hin by (apply elem_of_zrange; simpl; lia).
    destruct (Hb 0x10 9 Hin ltac:(lia)) as (b & f & [Hpb Hpf] & _ & H1).
    destruct (Hb 0x10 10 Hin ltac:(lia)) as (b' & f' & [Hpb' Hpf'] & _ & H2).
    assert (b' = b) as -> by congruence. assert (f' = f) as -> by congruence.
    exists ms0, s2, ms', s', f. split; [|split; [exact E|]].
    + by rewrite (bind_step _ _ _ _ _ E1).
    + by rewrite H1, H2.
Defined.
