(* ===== verification/KernelSpace.v ===== *)
(** * The kernel address space (os/src/mm/memory_set.rs, mm/mod.rs)

    [mm::init] and what [new_kernel] builds: the sections of the kernel, the
    physical memory and the device registers mapped to themselves, and the
    trampoline. The number of page tables that this takes is bounded, so that
    the frames at boot are enough. *)

From S2P Require Import Prelude Address PhysMem FrameAllocator PageTable MemorySet UserSpace.

(** [MemorySet::activate]: the value that it writes to [satp]. *)
Definition activate (ms : MemorySet) : Z := token (page_table ms).

(** [mm::init] without the heap (Heap.v): the frame allocator, then the first
    use of [KERNEL_SPACE]. *)
Definition mm_init (ld : linker_symbols) : ST (mm StackFrameAllocator) (MemorySet * Z) :=
  st_modify (λ s, mkMM (init_frame_allocator (ekernel ld) (frame_allocator s)) (mem s));;
  kernel_space ← new_kernel ld;
  mret (kernel_space, activate kernel_space).

(** ** Counting page tables *)

(** The table at path [π] exists. *)
Definition present (m : pmem) (root : Z) (π : list Z) : Prop := is_Some (walk m (π ++ [0]) root).

(** The tables of [P] that do not exist. *)
Definition lacking (m : pmem) (root : Z) (P : gset (list Z)) : gset (list Z) :=
  filter (λ π, ¬ present m root π) P.

(** The two tables below the root on the way to a page. *)
Definition tables_of (vpn : Z) : gset (list Z) := {[ take 1 (indexes vpn); take 2 (indexes vpn) ]}.

Lemma lacking_present m root π : present m root π → lacking m root {[π]} = ∅.
Proof. unfold lacking. set_solver. Qed.

Lemma lacking_absent m root π : ¬ present m root π → lacking m root {[π]} = {[π]}.
Proof. unfold lacking. set_solver. Qed.

Lemma missing_lacking m root vpn : missing m (indexes vpn) root = size (lacking m root (tables_of vpn)).
Proof.
  unfold tables_of, indexes. cbn [take missing length].
  set (i0 := Z.land (Z.shiftr (Z.shiftr vpn 9) 9) 511). set (i1 := Z.land (Z.shiftr vpn 9) 511).
  assert ([i0] ≠ [i0; i1]) as Hne by done.
  assert (lacking m root {[ [i0]; [i0; i1] ]} = lacking m root {[ [i0] ]} ∪ lacking m root {[ [i0; i1] ]}) as -> by (unfold lacking; set_solver).
  rewrite size_union by (unfold lacking; set_solver).
  assert (present m root [i0] ↔ is_Some (walk m [i0; 0] root)) as H0 by done.
  assert (present m root [i0; i1] ↔ is_Some (walk m [i0; i1; 0] root)) as H1 by done. cbn [walk] in H0, H1.
  destruct (is_valid (rd m root i0)) eqn:E0; [destruct (is_valid (rd m (PTE_ppn (rd m root i0)) i1)) eqn:E1|].
  - by rewrite !lacking_present, !size_empty by (apply H0 || apply H1; by eexists).
  - rewrite lacking_present, lacking_absent, size_empty, size_singleton; [done| |apply H0; by eexists]. intros [? ?]%H1. done.
  - rewrite !lacking_absent, !size_singleton; [done| |]; [intros [? ?]%H1|intros [? ?]%H0]; done.
Qed.

Lemma lacking_less m m' root P Q :
  Q ⊆ P → (∀ π, π ∈ P → present m root π → present m' root π) → (∀ π, π ∈ Q → present m' root π) →
  (size (lacking m' root P) + size (lacking m root Q) ≤ size (lacking m root P))%nat.
Proof.
  intros HQ Hmono Hin. rewrite <- size_union.
  - apply subseteq_size. unfold lacking. set_solver.
  - unfold lacking. set_solver.
Qed.

(** Valid entries of inner tables that stay keep the walks. *)
Lemma walk_keeps m m' T idxs : ∀ p π x,
  tree_ok m T → (∀ q ρ i, T !! q = Some ρ → (length ρ < 2)%nat → is_valid (rd m q i) = true → rd m' q i = rd m q i) →
  T !! p = Some π → (length π + length idxs ≤ 3)%nat → walk m idxs p = Some x → walk m' idxs p = Some x.
Proof.
  induction idxs as [|i [|j idxs] IH]; intros p π x Htree Hk Hp Hlen Hw; [done|done|].
  cbn [walk] in *. destruct (is_valid (rd m p i)) eqn:Hv; [|done]. simpl in Hlen.
  rewrite (Hk p π i) by (done || lia). rewrite Hv. apply (IH _ (π ++ [i])); [done|done| | |done].
  - apply Htree; [done|lia|done].
  - rewrite length_app. simpl. lia.
Qed.

Section kernel.
Context {A : Type} `{FrameAllocatorLaws A}.

Abbreviation avail s := (fa_avail (frame_allocator s)).

(** The table maps the pages as [E] says, and besides the tables of [P] that
    are lacking there are [k] frames. *)
Definition kmapped (k : nat) (P : gset (list Z)) (s : mm A) (pt : PageTable) (E : Z → option Z) : Prop :=
  (2 ≤ k)%nat ∧ (∀ π, π ∈ P → length π ≤ 2)%nat ∧ (∃ T, pt_inv s pt T) ∧ (∀ v, fits 27 v → pt_lookup (mem s) pt v = E v) ∧
  (k + size (lacking (mem s) (root_ppn pt) P) ≤ avail s)%nat.

Lemma kmapped_ext k P s pt E E' : kmapped k P s pt E → (∀ v, fits 27 v → E v = E' v) → kmapped k P s pt E'.
Proof. intros (? & ? & ? & HE & ?) Hext. split_and!; try done. intros v Hv. by rewrite HE, Hext. Qed.

(** One page. *)
Lemma kmapped_map k P s pt E vpn ppn flags :
  kmapped k P s pt E → fits 27 vpn → fits 44 ppn → fits 8 flags → tables_of vpn ⊆ P → E vpn = None →
  ∃ pt' s', PageTable_map pt vpn ppn flags s = Done (pt', s') ∧
    kmapped k P s' pt' (λ v, if decide (v = vpn) then Some (PTE_new ppn (Z.lor flags PTE_V)) else E v).
Proof.
  intros (Hk & HP2 & [T Hpt] & HE & Hav) Hvpn Hppn Hfl HP Hnone.
  assert (pt_lookup (mem s) pt vpn = None) as Hl by (by rewrite HE).
  destruct (PageTable_map_ok s pt T vpn ppn flags) as (new & s' & T' & E1 & Hpt' & _ & _ & Ha & _ & _ & Hl'); [done..|lia|done|].
  destruct (PageTable_map_run s pt T vpn ppn flags) as (new1 & q & i & s1 & T1 & E2 & HT1 & Hg & Hw & _ & Hmiss); [done|lia|done|].
  assert (new1 = new ∧ s' = set_mem (wr (mem s1) q i (PTE_new ppn (Z.lor flags PTE_V))) s1) as [-> Hs'].
  { rewrite E1 in E2. injection E2 as Hnew ->. apply app_inv_head in Hnew. done. }
  eexists _, s'. split; [exact E1|]. split_and!; [done|done|by eauto| |].
  - intros v Hv. rewrite Hl' by done. case_decide; [done|]. by apply HE.
  - rewrite missing_lacking in Hmiss. cbn [root_ppn].
    pose proof (leaf_path s1 (mkPageTable (root_ppn pt) (pt_frames pt ++ new)) T1 vpn q i) as Hleaf.
    destruct Hpt as [HT Hroot]. pose proof HT as (_ & Htree & _). destruct Hg as (Hsub & _ & _ & _ & _ & Hkeep & _).
    destruct Hleaf as (ρ & Hq & Hidx & Hlρ & _); [by split; [done|eapply lookup_weaken]|done|].
    assert (∀ r ρ' j, T1 !! r = Some ρ' → (length ρ' < 2)%nat → rd (mem s') r j = rd (mem s1) r j) as Hinner.
    { intros r ρ' j Hr Hlr. rewrite Hs'. apply rd_wr_ne. left. intros ->. simplify_eq. lia. }
    assert (∀ idxs x, (length idxs ≤ 3)%nat → walk (mem s) idxs (root_ppn pt) = Some x → walk (mem s') idxs (root_ppn pt) = Some x) as Hmono.
    { intros idxs x Hlen. eapply (walk_keeps (mem s) (mem s') T idxs _ []); [done| |done|done].
      intros r ρ' j Hr Hlr Hv. rewrite (Hinner r ρ') by (done || by eapply lookup_weaken). apply Hkeep; [by eauto|done]. }
    assert (is_Some (walk (mem s') (indexes vpn) (root_ppn pt))) as [y Hy].
    { exists (q, i). eapply (walk_keeps (mem s1) (mem s') T1 (indexes vpn) _ []); [apply HT1| |by eapply lookup_weaken|done|done].
      intros r ρ' j Hr Hlr _. by apply (Hinner r ρ'). }
    assert (size (lacking (mem s') (root_ppn pt) P) + size (lacking (mem s) (root_ppn pt) (tables_of vpn)) ≤
      size (lacking (mem s) (root_ppn pt) P))%nat; [|lia]. apply lacking_less; [done| |].
    + intros π Hπ [x Hx]. exists x. apply Hmono; [|done]. rewrite length_app. specialize (HP2 π Hπ). simpl. lia.
    + intros π Hπ. revert Hy. unfold tables_of, indexes in *. set_unfold in Hπ. unfold present.
      destruct Hπ as [-> | ->]; cbn [take app walk]; destruct (is_valid _); [|done| |done]; destruct (is_valid _); try done; by eexists.
Qed.

(** Pages [lo .. hi) mapped to themselves. *)
Definition identity (lo hi perm : Z) (E : Z → option Z) (v : Z) : option Z :=
  if decide (lo ≤ v < hi) then Some (PTE_new v (Z.lor perm PTE_V)) else E v.

Lemma kmapped_identical k P a n : ∀ lo s pt E,
  kmapped k P s pt E → map_type a = Identical → fits 8 (map_perm a) → 0 ≤ lo → lo + Z.of_nat n ≤ 2 ^ 27 →
  (∀ v, lo ≤ v < lo + Z.of_nat n → E v = None ∧ tables_of v ⊆ P) →
  ∃ pt' s', for_fold (zrange lo (lo + Z.of_nat n)) (a, pt) map_one s = Done ((a, pt'), s') ∧
    kmapped k P s' pt' (identity lo (lo + Z.of_nat n) (map_perm a) E).
Proof.
  induction n as [|n IH]; intros lo s pt E Hk Ha Hp Hlo Hhi Hfree.
  - exists pt, s. rewrite zrange_nil by lia. split; [done|]. apply (kmapped_ext _ _ _ _ _ _ Hk).
    intros v _. unfold identity. by rewrite decide_False by lia.
  - rewrite zrange_cons by lia. cbn [for_fold]. destruct (Hfree lo) as [HE HP]; [lia|].
    destruct (kmapped_map k P s pt E lo lo (map_perm a)) as (pt1 & s1 & E1 & Hk1); [done|unfold fits; lia|unfold fits; lia|done..|].
    destruct (IH (lo + 1) s1 pt1 _ Hk1) as (pt' & s' & E' & Hk'); [done|done|lia|lia| |].
    { intros v Hv. rewrite decide_False by lia. apply Hfree. lia. }
    replace (lo + 1 + Z.of_nat n) with (lo + Z.of_nat (S n)) in E', Hk' by lia.
    exists pt', s'. split.
    + rewrite (bind_step _ _ _ (a, pt1) s1); [exact E'|]. unfold map_one. rewrite Ha. erewrite bind_step by reflexivity.
      cbn beta iota. rewrite PTEFlags_from_bits_total. erewrite bind_step by reflexivity. by rewrite (bind_step _ _ _ _ _ E1).
    + apply (kmapped_ext _ _ _ _ _ _ Hk'). intros v _. unfold identity. repeat case_decide; subst; done || lia.
Qed.

(** An area of the kernel. *)
Lemma push_identical_ok k P s ms E l r perm :
  kmapped k P s (page_table ms) E → fits 8 perm → 0 ≤ l → l mod 4096 = 0 → l < r → r mod 4096 = 0 → r < 2 ^ 39 →
  (∀ v, l / 4096 ≤ v < r / 4096 → E v = None ∧ tables_of v ⊆ P) →
  ∃ ms' s', push_identical ms l r perm s = Done (ms', s') ∧
    kmapped k P s' (page_table ms') (identity (l / 4096) (r / 4096) perm E).
Proof.
  intros Hk Hp Hl0 Hl Hlr Hr Hr39 Hfree.
  assert (VirtAddr_from l = l ∧ VirtAddr_from r = r) as [El Er] by (rewrite !VirtAddr_from_mod, !Z.mod_small by lia; done).
  assert (ceil r = r / 4096) as Hc.
  { unfold ceil, PAGE_SIZE. rewrite wsub_small by (unfold fits; lia). rewrite wadd_small by (unfold fits; lia). zlia. }
  destruct (kmapped_identical k P (mkMapArea (mkSimpleRange (l / 4096) (r / 4096)) ∅ Identical perm) (Z.to_nat (r / 4096 - l / 4096)) (l / 4096) s
    (page_table ms) E Hk) as (pt' & s' & E1 & Hk'); [done|done|zlia|zlia| |].
  { intros v Hv. apply Hfree. zlia. }
  replace (l / 4096 + Z.of_nat (Z.to_nat (r / 4096 - l / 4096))) with (r / 4096) in E1, Hk' by zlia.
  eexists (mkMemorySet pt' _), s'. split; [|exact Hk']. unfold push_identical, MapArea_new, SimpleRange_new. rewrite El, Er, Hc. unfold floor, PAGE_SIZE.
  rewrite (proj2 (Z.leb_le _ _)) by zlia. erewrite bind_step by reflexivity. unfold push, MapArea_map, vpns. by rewrite (bind_step _ _ _ _ _ E1).
Qed.

(** ** The sections of the kernel *)

(** What the linker script lays out: non-empty sections one after the other,
    on page boundaries, between the base address and the end of memory. *)
Record linked (ld : linker_symbols) : Prop := {
  lk_aligned : Forall (λ x, x mod 4096 = 0) [stext ld; etext ld; srodata ld; erodata ld; sdata ld; edata ld; sbss_with_stack ld; ebss ld; ekernel ld; strampoline ld];
  lk_text : 0x80200000 ≤ stext ld < etext ld;
  lk_rodata : etext ld ≤ srodata ld < erodata ld;
  lk_data : erodata ld ≤ sdata ld < edata ld;
  lk_bss : edata ld ≤ sbss_with_stack ld < ebss ld;
  lk_end : ebss ld ≤ ekernel ld < MEMORY_END;
  lk_trampoline : stext ld ≤ strampoline ld < etext ld;
}.

Lemma trampoline_ppn ld : linked ld → PhysPageNum_from_PhysAddr (PhysAddr_from (strampoline ld)) = Some (strampoline ld / 4096).
Proof.
  intros [Hal ? ? ? ? ? ?]. unfold MEMORY_END in *. repeat (apply Forall_cons in Hal as [? Hal]).
  unfold PhysPageNum_from_PhysAddr. change PhysAddr_page_offset with page_offset. change PhysAddr_floor with floor.
  rewrite PhysAddr_from_mod, page_offset_mod, (Z.mod_small (strampoline ld)) by lia. unfold floor, PAGE_SIZE.
  by rewrite (proj2 (Z.eqb_eq _ 0)) by done.
Qed.

(** The page tables of the kernel space below the root: those of the
    trampoline, of the device registers and of the physical memory. *)
Definition KERNEL_TABLES : gset (list Z) :=
  list_to_set ([[511]; [511; 511]; [0]; [0; 128]; [2]] ++ ((λ k, [2; k]) <$> zrange 1 64)).

(** The page table of the kernel, as the source describes it. *)
Definition kernel_entry (ld : linker_symbols) : Z → option Z :=
  identity 0x10001 0x10002 (Z.lor PERM_R PERM_W)
  (identity (ekernel ld / 4096) (MEMORY_END / 4096) (Z.lor PERM_R PERM_W)
  (identity (sbss_with_stack ld / 4096) (ebss ld / 4096) (Z.lor PERM_R PERM_W)
  (identity (sdata ld / 4096) (edata ld / 4096) (Z.lor PERM_R PERM_W)
  (identity (srodata ld / 4096) (erodata ld / 4096) PERM_R
  (identity (stext ld / 4096) (etext ld / 4096) (Z.lor PERM_R PERM_X)
  (λ v, if decide (v = TRAMPOLINE_VPN) then Some (PTE_new (strampoline ld / 4096) (Z.lor PTE_R (Z.lor PTE_X PTE_V))) else None)))))).

Lemma memory_tables v : 0x80200 ≤ v < 0x88000 → tables_of v ⊆ KERNEL_TABLES.
Proof.
  intros Hv. unfold tables_of, indexes. cbn [take].
  assert (Z.land (Z.shiftr (Z.shiftr v 9) 9) 511 = 2) as ->.
  { rewrite !Z.shiftr_div_pow2 by lia. change 511 with (Z.ones 9). rewrite Z.land_ones by lia. zlia. }
  assert (1 ≤ Z.land (Z.shiftr v 9) 511 < 64).
  { rewrite !Z.shiftr_div_pow2 by lia. change 511 with (Z.ones 9). rewrite Z.land_ones by lia. zlia. }
  unfold KERNEL_TABLES. intros π [->%elem_of_singleton| ->%elem_of_singleton]%elem_of_union; apply elem_of_list_to_set, elem_of_app.
  - left. repeat constructor.
  - right. apply (list_elem_of_fmap_2 (λ k, [2; k])). by apply elem_of_zrange.
Qed.

(** The empty table with the trampoline. *)
Lemma kmapped_trampoline ld k s :
  mm_inv s → linked ld → (2 ≤ k)%nat → (S (k + size KERNEL_TABLES) ≤ avail s)%nat →
  ∃ ms0 s0 ms s', new_bare s = Done (ms0, s0) ∧ map_trampoline ld ms0 s0 = Done (ms, s') ∧
    kmapped k KERNEL_TABLES s' (page_table ms)
      (λ v, if decide (v = TRAMPOLINE_VPN) then Some (PTE_new (strampoline ld / 4096) (Z.lor PTE_R (Z.lor PTE_X PTE_V))) else None).
Proof.
  intros Hmm Hld Hk Hav. pose proof Hld as [Hal ? ? ? ? ? ?]. destruct (PageTable_new_ok s Hmm ltac:(lia)) as (f & s1 & E1 & Hpt1 & _ & _ & _ & Ha1 & _ & Hl1).
  unfold MEMORY_END in *. repeat (apply Forall_cons in Hal as [? Hal]).
  destruct (kmapped_map k KERNEL_TABLES s1 (mkPageTable f [f]) (λ _, None) TRAMPOLINE_VPN (strampoline ld / 4096) (Z.lor PTE_R PTE_X))
    as (pt' & s' & E2 & Hks).
  - split_and!; [done| |by eauto|by intros v _|].
    + intros π Hπ. unfold KERNEL_TABLES in Hπ. apply elem_of_list_to_set in Hπ.
      assert (Forall (λ π : list Z, (length π ≤ 2)%nat) ([[511]; [511; 511]; [0]; [0; 128]; [2]] ++ ((λ k, [2; k]) <$> zrange 1 64))) as HF.
      { apply Forall_app. split; [by repeat constructor|]. apply Forall_fmap, Forall_true. intros. simpl. lia. }
      rewrite Forall_forall in HF. by apply HF.
    + assert (size (lacking (mem s1) f KERNEL_TABLES) ≤ size KERNEL_TABLES)%nat; [|cbn [root_ppn]; lia].
      apply subseteq_size. unfold lacking. set_solver.
  - unfold fits, TRAMPOLINE_VPN. lia.
  - unfold fits. zlia.
  - unfold fits. vm_compute. done.
  - apply (bool_decide_unpack _). vm_compute. done.
  - done.
  - exists (mkMemorySet (mkPageTable f [f]) []), s1, (mkMemorySet pt' []), s'. split_and!.
    + unfold new_bare. by rewrite (bind_step _ _ _ _ _ E1).
    + unfold map_trampoline. change (VirtPageNum_from_VirtAddr (VirtAddr_from TRAMPOLINE)) with (Some TRAMPOLINE_VPN).
      erewrite bind_step by reflexivity.
      rewrite trampoline_ppn by done.
      erewrite bind_step by reflexivity. by rewrite (bind_step _ _ _ _ _ E2).
    + exact Hks.
Qed.

(** A page outside the ranges so far. *)
Ltac skip_ranges := unfold identity, TRAMPOLINE_VPN, MEMORY_END; repeat (rewrite decide_False by zlia); done.

(** [new_kernel] builds the table that [kernel_entry] describes. *)
Lemma new_kernel_ok ld k s :
  mm_inv s → linked ld → (2 ≤ k)%nat → (S (k + size KERNEL_TABLES) ≤ avail s)%nat →
  ∃ ms s', new_kernel ld s = Done (ms, s') ∧ kmapped k KERNEL_TABLES s' (page_table ms) (kernel_entry ld).
Proof.
  intros Hmm Hld Hk Hav. destruct (kmapped_trampoline ld k s Hmm Hld Hk Hav) as (ms0 & s0 & ms1 & s1 & E0 & E1 & K1).
  destruct Hld as [Hal ? ? ? ? ? ?]. unfold MEMORY_END in *. repeat (apply Forall_cons in Hal as [? Hal]).
  assert (∀ l r (E : Z → option Z), 0x80200000 ≤ l → r ≤ 0x88000000 → l mod 4096 = 0 → r mod 4096 = 0 → (∀ v, l / 4096 ≤ v < r / 4096 → E v = None) →
    ∀ v, l / 4096 ≤ v < r / 4096 → E v = None ∧ tables_of v ⊆ KERNEL_TABLES) as Hfree.
  { intros l r E ? ? ? ? HE v Hv. split; [by apply HE|]. apply memory_tables. zlia. }
  unfold new_kernel. rewrite (bind_step _ _ _ _ _ E0), (bind_step _ _ _ _ _ E1).
  destruct (push_identical_ok k _ s1 ms1 _ (stext ld) (etext ld) (Z.lor PERM_R PERM_X) K1) as (ms2 & s2 & E2 & K2); [by vm_compute|lia|done|lia|done|lia|apply Hfree; lia || done || (intros v Hv; skip_ranges)|].
  destruct (push_identical_ok k _ s2 ms2 _ (srodata ld) (erodata ld) PERM_R K2) as (ms3 & s3 & E3 & K3); [by vm_compute|lia|done|lia|done|lia|apply Hfree; lia || done || (intros v Hv; skip_ranges)|].
  destruct (push_identical_ok k _ s3 ms3 _ (sdata ld) (edata ld) (Z.lor PERM_R PERM_W) K3) as (ms4 & s4 & E4 & K4); [by vm_compute|lia|done|lia|done|lia|apply Hfree; lia || done || (intros v Hv; skip_ranges)|].
  destruct (push_identical_ok k _ s4 ms4 _ (sbss_with_stack ld) (ebss ld) (Z.lor PERM_R PERM_W) K4) as (ms5 & s5 & E5 & K5); [by vm_compute|lia|done|lia|done|lia|apply Hfree; lia || done || (intros v Hv; skip_ranges)|].
  destruct (push_identical_ok k _ s5 ms5 _ (ekernel ld) MEMORY_END (Z.lor PERM_R PERM_W) K5) as (ms6 & s6 & E6 & K6); [by vm_compute|lia|done|unfold MEMORY_END; lia|done|unfold MEMORY_END; lia|apply Hfree; unfold MEMORY_END; lia || done || (intros v Hv; skip_ranges)|].
  destruct (push_identical_ok k _ s6 ms6 _ 0x10001000 0x10002000 (Z.lor PERM_R PERM_W) K6) as (ms7 & s7 & E7 & K7); [by vm_compute|lia|done|lia|done|lia| |].
  { intros v Hv. change (0x10001000 / 4096) with 0x10001 in Hv. change (0x10002000 / 4096) with 0x10002 in Hv. assert (v = 0x10001) as -> by lia.
    split; [skip_ranges|]. apply (bool_decide_unpack _). vm_compute. done. }
  exists ms7, s7. split; [|exact K7].
  rewrite (bind_step _ _ _ _ _ E2), (bind_step _ _ _ _ _ E3), (bind_step _ _ _ _ _ E4), (bind_step _ _ _ _ _ E5), (bind_step _ _ _ _ _ E6).
  cbn [MMIO for_fold fst snd]. by rewrite (bind_step _ _ _ _ _ E7).
Qed.

(** An entry of the kernel's table. *)
Lemma kmapped_entry k P s ms E v e :
  kmapped k P s (page_table ms) E → fits 27 v → E v = Some e → MemorySet_translate (mem s) ms v = Some e.
Proof.
  intros (_ & _ & _ & HE & _) Hv He. rewrite <- HE, pt_lookup_translate in He by done. unfold MemorySet_translate.
  destruct (translate _ _ _) as [e'|]; [|done]. by destruct (is_valid e').
Qed.

End kernel.

Lemma kmapped_flags `{FrameAllocatorLaws A} k P (s : mm A) ms E v fl :
  kmapped k P s (page_table ms) E → fits 27 v → fits 8 fl → E v = Some (PTE_new v fl) →
  MemorySet_translate (mem s) ms v = Some (PTE_new v fl) ∧ PTE_flags (PTE_new v fl) = Some fl.
Proof.
  intros K Hv Hfl HE. split; [by eapply kmapped_entry|]. apply PTE_flags_new; [unfold fits in *; lia|done].
Qed.

(** The middle of a section is a page of it. *)
Lemma section_mid lo hi : 0 ≤ lo < hi → hi < 2 ^ 39 → lo mod 4096 = 0 → hi mod 4096 = 0 →
  lo / 4096 ≤ floor (VirtAddr_from ((lo ⊞ hi) / 2)) < hi / 4096.
Proof.
  intros. rewrite wadd_small by (unfold fits; lia). rewrite VirtAddr_from_mod, Z.mod_small by zlia. unfold floor, PAGE_SIZE. zlia.
Qed.

Lemma remap_test_ok `{FrameAllocatorLaws A} ld k (s : mm A) ms :
  linked ld → kmapped k KERNEL_TABLES s (page_table ms) (kernel_entry ld) → remap_test ld ms s = Done (tt, s).
Proof.
  intros [Hal ? ? ? ? ? ?] K. unfold MEMORY_END in *. repeat (apply Forall_cons in Hal as [? Hal]).
  pose proof (section_mid (stext ld) (etext ld) ltac:(lia) ltac:(lia) ltac:(done) ltac:(done)) as Hm1.
  pose proof (section_mid (srodata ld) (erodata ld) ltac:(lia) ltac:(lia) ltac:(done) ltac:(done)) as Hm2.
  pose proof (section_mid (sdata ld) (edata ld) ltac:(lia) ltac:(lia) ltac:(done) ltac:(done)) as Hm3.
  unfold remap_test. erewrite bind_step by reflexivity.
  set (v1 := floor _) in Hm1 |- *. set (v2 := floor _) in Hm2 |- *. set (v3 := floor _) in Hm3 |- *. clearbody v1 v2 v3.
  destruct (kmapped_flags k _ s ms _ v1 11 K) as [T1 F1]; [unfold fits; zlia|done|unfold kernel_entry, identity, MEMORY_END; repeat (rewrite decide_False by zlia); by rewrite decide_True by zlia|].
  destruct (kmapped_flags k _ s ms _ v2 3 K) as [T2 F2]; [unfold fits; zlia|done|unfold kernel_entry, identity, MEMORY_END; repeat (rewrite decide_False by zlia); by rewrite decide_True by zlia|].
  destruct (kmapped_flags k _ s ms _ v3 7 K) as [T3 F3]; [unfold fits; zlia|done|unfold kernel_entry, identity, MEMORY_END; repeat (rewrite decide_False by zlia); by rewrite decide_True by zlia|].
  rewrite T1. erewrite bind_step by reflexivity. unfold writable, executable, PTE_has.
  rewrite F1. erewrite bind_step by reflexivity. rewrite T2. erewrite bind_step by reflexivity. rewrite F2. erewrite bind_step by reflexivity.
  rewrite T3. erewrite bind_step by reflexivity. by rewrite F3.
Qed.

(** The root of a table lies in a frame of the allocator. *)
Lemma stack_root_fits lo (s : mm StackFrameAllocator) pt T : @pt_inv _ _ (stack_frame_laws lo) s pt T → fits 44 (root_ppn pt).
Proof.
  intros [HTb Hroot]. pose proof HTb as (Hmm & _ & _ & _ & Hown). rewrite Forall_forall in Hown.
  destruct (Hown (root_ppn pt)) as [Ho _]; [apply (tables_lookup _ _ _ _ HTb); by eexists|].
  destruct Hmm as [(? & ? & _) _]. unfold fits. lia.
Qed.

(** [mm::init] at boot; [k] frames are left besides the tables. *)
Lemma mm_init_ok ld k (m : pmem) :
  linked ld → mem_wf m → (2 ≤ k)%nat → (Z.of_nat k + 69) * 4096 ≤ MEMORY_END - ekernel ld →
  ∃ ms s', mm_init ld (mkMM StackFrameAllocator_new m) = Done ((ms, activate ms), s') ∧
    @kmapped _ _ (stack_frame_laws (ekernel ld / 4096)) k KERNEL_TABLES s' (page_table ms) (kernel_entry ld).
Proof.
  intros Hld Hm Hk Hfree.
  set (s0 := mkMM (init_frame_allocator (ekernel ld) StackFrameAllocator_new) m).
  pose proof Hld as [Hal ? ? ? ? ? ?]. unfold MEMORY_END in *. repeat (apply Forall_cons in Hal as [? Hal]).
  assert (init_frame_allocator (ekernel ld) StackFrameAllocator_new = mkStackFA (ekernel ld / 4096) 0x88000 []) as Hfa.
  { unfold init_frame_allocator, StackFrameAllocator_init, StackFrameAllocator_new, PhysAddr_ceil, PAGE_SIZE. cbn [recycled].
    rewrite PhysAddr_from_mod, (Z.mod_small (ekernel ld)) by lia. rewrite wsub_small by (unfold fits; lia).
    rewrite wadd_small by (unfold fits; lia). f_equal. zlia. }
  destruct (@new_kernel_ok _ _ (stack_frame_laws (ekernel ld / 4096)) ld k s0) as (ms & s' & E & K).
  - split; [|done]. unfold s0. cbn. rewrite Hfa. split_and!; cbn; try zlia; constructor.
  - done.
  - done.
  - unfold s0. cbn [frame_allocator]. rewrite Hfa. change (size KERNEL_TABLES) with 68%nat. cbn. unfold stack_avail; cbn. zlia.
  - exists ms, s'. split; [|done]. unfold mm_init. erewrite bind_step by reflexivity. by rewrite (bind_step _ _ _ _ _ E).
Qed.

(** The kernel's address space is made without giving a frame back, so the
    frames that are free afterwards are consecutive. *)
Section fresh.

Definition takes_only {X} (m : ST (mm StackFrameAllocator) X) : Prop :=
  ∀ s x s', m s = Done (x, s') → recycled (frame_allocator s) = [] → recycled (frame_allocator s') = [].

Lemma takes_bind {X Y} (m : ST (mm StackFrameAllocator) X) (f : X → ST (mm StackFrameAllocator) Y) :
  takes_only m → (∀ x, takes_only (f x)) → takes_only (m ≫= f).
Proof. intros Hm Hf s y s' (x & s1 & E & E')%bind_Done Hs. by eapply Hf, Hm. Qed.

Lemma takes_ret {X} (x : X) : takes_only (mret x).
Proof. by intros s ? s' [= _ ->]. Qed.

Lemma takes_unwrap {X} (o : option X) : takes_only (unwrap o).
Proof. destruct o; [apply takes_ret|by intros s ? s' [=]]. Qed.

Lemma takes_gets {X} (f : mm StackFrameAllocator → X) : takes_only (st_gets f).
Proof. by intros s ? s' [= _ ->]. Qed.

Lemma takes_set_mem (f : mm StackFrameAllocator → pmem) : takes_only (st_modify (λ s, set_mem (f s) s)).
Proof. by intros s ? s' [= _ <-]. Qed.

Lemma takes_alloc : takes_only frame_alloc.
Proof.
  intros s x s' E Hs. unfold frame_alloc in E. cbn in E. unfold StackFrameAllocator_alloc in E. rewrite Hs in E. cbn in E.
  destruct (_ =? _); injection E as <- <-; done.
Qed.

Lemma takes_fold {X Y} (body : Y → X → ST (mm StackFrameAllocator) Y) (I : Y → Prop) :
  (∀ y x, I y → takes_only (body y x) ∧ ∀ s y' s', body y x s = Done (y', s') → I y') →
  ∀ l y, I y → takes_only (for_fold l y body).
Proof.
  intros Hb. induction l as [|x l IH]; intros y Hy; [apply takes_ret|]. intros s z s' (y' & s1 & E & E')%bind_Done Hs.
  destruct (Hb y x Hy) as [Ht HI]. eapply (IH y'); [by eapply HI|done|]. by eapply Ht.
Qed.

Lemma takes_walk idxs : ∀ ppn frames, takes_only (create_walk idxs ppn frames).
Proof.
  induction idxs as [|i [|j idxs] IH]; intros ppn frames; [apply takes_ret..|].
  apply takes_bind; [apply takes_gets|]. intros pte. destruct (is_valid pte); [apply IH|].
  apply takes_bind; [apply takes_alloc|]. intros o. apply takes_bind; [apply takes_unwrap|]. intros frame.
  apply takes_bind; [apply takes_set_mem|]. intros _. apply IH.
Qed.

Lemma takes_map pt vpn ppn flags : takes_only (PageTable_map pt vpn ppn flags).
Proof.
  apply takes_bind; [apply takes_bind; [apply takes_walk|]; intros [??]; apply takes_ret|]. intros [pt' loc].
  apply takes_bind; [apply takes_unwrap|]. intros [p i]. apply takes_bind; [apply takes_gets|]. intros pte.
  apply takes_bind; [unfold rassert; destruct (negb _); [apply takes_ret|by intros s ? s' [=]]|]. intros _.
  apply takes_bind; [apply takes_set_mem|]. intros _. apply takes_ret.
Qed.

Lemma takes_identical ms l r perm : takes_only (push_identical ms l r perm).
Proof.
  unfold push_identical. destruct (MapArea_new _ _ _ _) as [a|] eqn:Ea; [|by intros s ? s' [=]].
  assert (map_type a = Identical) as Ht.
  { unfold MapArea_new in Ea. by repeat (case_match || simplify_option_eq). }
  intros s ms' s' (a' & s1 & [= -> ->] & E)%bind_Done. revert E. generalize s1 ms' s'.
  refine (_ : takes_only (push ms a' None)). unfold push. apply takes_bind.
  - unfold MapArea_map. apply (takes_fold _ (λ ap, map_type ap.1 = Identical)); [|done]. intros [b pt] vpn Hb. cbn [fst] in Hb.
    unfold map_one. rewrite Hb. split.
    + apply takes_bind; [apply takes_ret|]. intros [ppn b']. apply takes_bind; [apply takes_unwrap|]. intros fl.
      apply takes_bind; [apply takes_map|]. intros pt'. apply takes_ret.
    + intros s2 ap s3 ([ppn b'] & s4 & [= <- <- <-] & (fl & s5 & _ & (pt' & s6 & _ & [= <- <-])%bind_Done)%bind_Done)%bind_Done. done.
  - intros [b pt]. apply takes_bind; [apply takes_ret|]. intros _. apply takes_ret.
Qed.

Lemma takes_new_kernel ld : takes_only (new_kernel ld).
Proof.
  apply takes_bind.
  { apply takes_bind; [|intros; apply takes_ret]. apply takes_bind; [apply takes_alloc|]. intros o.
    apply takes_bind; [apply takes_unwrap|]. intros. apply takes_ret. }
  intros ms. apply takes_bind.
  { apply takes_bind; [apply takes_unwrap|]. intros vpn. apply takes_bind; [apply takes_unwrap|]. intros ppn.
    apply takes_bind; [apply takes_map|]. intros. apply takes_ret. }
  intros ms1. do 5 (apply takes_bind; [apply takes_identical|]; intros ?).
  apply (takes_fold _ (λ _, True)); [|done]. intros y pair _. split; [apply takes_identical|done].
Qed.

Lemma mm_init_recycled ld m x s :
  mm_init ld (mkMM StackFrameAllocator_new m) = Done (x, s) → recycled (frame_allocator s) = [].
Proof.
  intros (u & s1 & [= _ <-] & (ms & s2 & E & [= _ <-])%bind_Done)%bind_Done.
  apply (takes_new_kernel ld _ _ _ E). reflexivity.
Qed.

End fresh.

(** ** Properties *)

(** C16. Booting the memory system. For a kernel laid out by the linker script,
    and at least 72 free frames behind it, [mm::init] succeeds; the table it
    activates maps exactly the text (readable, executable), the read-only data,
    the data, the bss, the free memory and the device registers (readable,
    writable), all to themselves, and the trampoline; [remap_test] passes; and
    every address of the free memory is translated to itself, which is what
    the kernel's access to page frames relies on. *)
Theorem kernel_space_exact (ld : linker_symbols) (m : pmem) :
  linked ld → mem_wf m → 72 * 4096 ≤ MEMORY_END - ekernel ld →
  ∃ ms satp s', mm_init ld (mkMM StackFrameAllocator_new m) = Done ((ms, satp), s') ∧
    (∀ v, fits 27 v → pt_lookup (mem s') (page_table ms) v = kernel_entry ld v) ∧
    remap_test ld ms s' = Done (tt, s') ∧
    (∀ pa, ekernel ld ≤ pa < MEMORY_END → translate_va (mem s') (from_token satp) pa = Some pa).
Proof.
  intros Hld Hm Hfree. destruct (mm_init_ok ld 2 m) as (ms & s' & E & K); [done|done|lia|lia|].
  pose proof Hld as [Hal ? ? ? ? ? ?]. unfold MEMORY_END in *. repeat (apply Forall_cons in Hal as [? Hal]).
  exists ms, (activate ms), s'. pose proof K as (_ & _ & [T HT] & HE & _). split_and!; [done|done| |].
  - exact (remap_test_ok ld 2 s' ms Hld K).
  - intros pa Hpa.
      assert (fits 27 (floor pa)) as Hv by (unfold floor, PAGE_SIZE, fits; zlia).
      assert (kernel_entry ld (floor pa) = Some (PTE_new (floor pa) 7)) as Hke.
      { unfold kernel_entry, identity, floor, PAGE_SIZE, MEMORY_END. rewrite decide_False, decide_True by zlia. done. }
      pose proof (kmapped_entry _ _ _ _ _ _ _ K Hv Hke) as Ht. unfold MemorySet_translate in Ht.
      rewrite (translate_va_entry _ _ _ (PTE_new (floor pa) 7)).
    + rewrite PTE_ppn_new by (unfold fits in *; lia). f_equal. symmetry. apply floor_offset.
    + rewrite <- Ht. unfold translate, find_pte, activate. rewrite (token_root (page_table ms)); [done|]. by eapply stack_root_fits.
Qed.

(** ** Witness *)

Definition wit_kernel : linker_symbols :=
  mkLinker 0x80200000 0x80210000 0x80210000 0x80214000 0x80214000 0x80215000 0x80215000 0x82226000 0x82226000 0x80201000.

Lemma kernel_space_exact_witness :
  ∃ ms satp s', mm_init wit_kernel (mkMM StackFrameAllocator_new ∅) = Done ((ms, satp), s') ∧
    pt_lookup (mem s') (page_table ms) 0x80205 = Some (PTE_new 0x80205 11) ∧
    translate_va (mem s') (from_token satp) 0x85000123 = Some 0x85000123.
Proof.
  destruct (kernel_space_exact wit_kernel ∅) as (ms & satp & s' & E & Hl & _ & Ht).
  - split; [apply (bool_decide_unpack _); vm_compute; done|vm_compute; split; done..].
  - exact (proj2 wit_frames_inv).
  - vm_compute. done.
  - exists ms, satp, s'. split; [exact E|]. split; [|apply Ht; vm_compute; split; done].
    etrans; [apply Hl; unfold fits; lia|]. vm_compute. reflexivity.
Defined.
