(* ===== verification/Drivers.v ===== *)
(** * The block device driver (os/src/drivers/block/virtio_blk.rs)

    What the kernel gives to the virtio driver: memory for its queues and the
    translation of addresses (the [Hal] trait); the driver itself is an
    external crate and is the [BlockDevice] of BlockCache.v. *)

From S2P Require Import Prelude Address PhysMem FrameAllocator PageTable MemorySet UserSpace KernelSpace.

(** ** os/src/drivers/block/virtio_blk.rs *)

(** The memory, and the frames that [QUEUE_FRAMES] keeps alive. *)
Record hal (A : Type) := mkHal { hal_mm : mm A; queue_frames : list Z }.
Arguments mkHal {A} _ _.
Arguments hal_mm {A} _.
Arguments queue_frames {A} _.

Section hal.
Context {A : Type} `{FrameAllocator A}.

Definition on_hal_mm {X} (m : ST (mm A) X) : ST (hal A) X :=
  zoom hal_mm (λ s h, mkHal s (queue_frames h)) m.

Definition dma_body (ppn_base i : Z) : ST (hal A) Z :=
  o ← on_hal_mm frame_alloc;
  frame ← unwrap o;
  let ppn_base := if i =? 0 then frame else ppn_base in
  rassert (frame =? ppn_base ⊞ i);;
  st_modify (λ h, mkHal (hal_mm h) (queue_frames h ++ [frame]));;
  mret ppn_base.

Definition dma_alloc (pages : Z) : ST (hal A) Z :=
  ppn_base ← for_fold (zrange 0 pages) 0 dma_body;
  mret (PhysAddr_from_PhysPageNum ppn_base).

Definition dma_dealloc (pa pages : Z) : ST (hal A) Z :=
  ppn_base ← unwrap (PhysPageNum_from_PhysAddr (PhysAddr_from pa));
  for_fold (zrange 0 pages) ppn_base (λ ppn_base _, on_hal_mm (frame_dealloc ppn_base);; mret (step ppn_base));;
  mret 0.

Definition phys_to_virt (addr : Z) : Z := addr.

(** [kernel_token] is a parameter here; the table is that of [KERNEL_SPACE]. *)
Definition virt_to_phys (kernel_token vaddr : Z) : ST (hal A) Z :=
  h ← st_get;
  unwrap (translate_va (mem (hal_mm h)) (from_token kernel_token) (VirtAddr_from vaddr)).

End hal.

(** ** Memory of the driver *)

Lemma zero_pages_rd l m p i : rd (foldl zero_page m l) p i = if decide (p ∈ l) then 0 else rd m p i.
Proof.
  revert m. induction l as [|q l IH]; intros m; cbn [foldl]; [by rewrite decide_False by set_solver|].
  rewrite IH, rd_zero_page. repeat case_decide; set_solver.
Qed.

(** Frames from the untouched part of the memory follow each other. *)
Lemma dma_loop n : ∀ i base c e m q, 0 ≤ i → 0 ≤ c → (i = 0 ∨ base + i = c) → c + Z.of_nat n ≤ e → e ≤ 2 ^ 44 →
  for_fold (zrange i (i + Z.of_nat n)) base dma_body (mkHal (mkMM (mkStackFA c e []) m) q) =
  Done (if (i =? 0) && (0 <? n)%nat then c else base,
        mkHal (mkMM (mkStackFA (c + Z.of_nat n) e []) (foldl zero_page m (zrange c (c + Z.of_nat n)))) (q ++ zrange c (c + Z.of_nat n))).
Proof.
  induction n as [|n IH]; intros i base c e m q Hi Hc Hb He He44.
  - rewrite !zrange_nil by lia. cbn. by rewrite andb_false_r, Z.add_0_r, app_nil_r.
  - rewrite (zrange_cons i), (zrange_cons c) by lia. cbn [for_fold foldl].
    assert (frame_alloc (mkMM (mkStackFA c e []) m) = Done (Some c, mkMM (mkStackFA (c + 1) e []) (zero_page m c))) as Ea.
    { unfold frame_alloc. cbn. rewrite (proj2 (Z.eqb_neq c e)) by lia. cbn. rewrite wadd_small by (unfold fits; lia).
      rewrite wsub_small by (unfold fits; lia). rewrite Z.add_simpl_r, PhysPageNum_from_mod, Z.mod_small by lia. done. }
    rewrite (bind_step _ _ _ (if i =? 0 then c else base) (mkHal (mkMM (mkStackFA (c + 1) e []) (zero_page m c)) (q ++ [c]))).
    + replace (i + Z.of_nat (S n)) with (i + 1 + Z.of_nat n) by lia.
      replace (c + Z.of_nat (S n)) with (c + 1 + Z.of_nat n) by lia.
      rewrite IH; [|lia|lia|right; destruct (Z.eqb_spec i 0); lia|lia|done].
      rewrite (proj2 (Z.eqb_neq (i + 1) 0)) by lia. cbn [andb]. rewrite <- (assoc_L app). f_equal. f_equal. destruct (Z.eqb_spec i 0); done.
    + unfold dma_body, on_hal_mm, zoom, mbind, st_bind. cbn [hal_mm]. rewrite Ea. cbn.
      replace (c =? (if i =? 0 then c else base) ⊞ i) with true; [done|]. symmetry. apply Z.eqb_eq.
      destruct (Z.eqb_spec i 0); rewrite wadd_small by (unfold fits; lia); lia.
Qed.

Lemma dma_free_loop n : ∀ lo c e m r, 0 ≤ lo → lo + Z.of_nat n ≤ c → c ≤ 2 ^ 44 → (∀ x, lo ≤ x → x ∉ r) → ∀ q i,
  for_fold (zrange i (i + Z.of_nat n)) lo (λ ppn_base _, on_hal_mm (frame_dealloc ppn_base);; mret (step ppn_base)) (mkHal (mkMM (mkStackFA c e r) m) q) =
  Done (lo + Z.of_nat n, mkHal (mkMM (mkStackFA c e (r ++ zrange lo (lo + Z.of_nat n))) m) q).
Proof.
  induction n as [|n IH]; intros lo c e m r Hlo Hc Hc44 Hr q i.
  - rewrite !zrange_nil by lia. cbn. by rewrite Z.add_0_r, app_nil_r.
  - rewrite (zrange_cons i), (zrange_cons lo) by lia. cbn [for_fold].
    rewrite (bind_step _ _ _ (lo + 1) (mkHal (mkMM (mkStackFA c e (r ++ [lo])) m) q)).
    + replace (i + Z.of_nat (S n)) with (i + 1 + Z.of_nat n) by lia. replace (lo + Z.of_nat (S n)) with (lo + 1 + Z.of_nat n) by lia.
      rewrite IH; [|lia|lia|done|]; [by rewrite <- (assoc_L app)|].
      intros x Hx [?|?%list_elem_of_singleton]%elem_of_app; [by apply (Hr x); [lia|]|lia].
    + unfold on_hal_mm, zoom, mbind, st_bind, frame_dealloc. cbn [hal_mm frame_allocator fa_dealloc stack_frame_allocator]. unfold StackFrameAllocator_dealloc.
      cbn [current recycled end_]. rewrite (proj2 (Z.leb_gt c lo)) by lia.
      assert (existsb (λ v, v =? lo) r = false) as ->.
      { apply not_true_iff_false. rewrite existsb_exists. intros (x & Hx & ->%Z.eqb_eq). apply (Hr lo); [lia|]. by apply list_elem_of_In. }
      cbn. unfold step. by rewrite wadd_small by (unfold fits; lia).
Qed.

(** Memory for the device. While no frame has been given back, [dma_alloc]
    returns the physical address of consecutive, zeroed frames that nobody has,
    and keeps them; no other page changes, and [dma_dealloc] of the same range
    gives exactly these frames back. Once freed frames are reused in another
    order, the assertion that they are consecutive panics. *)
Theorem dma_alloc_contiguous (c e pages : Z) (m : pmem) (q : list Z) :
  0 ≤ c → 0 < pages → c + pages ≤ e → e ≤ 2 ^ 44 →
  (∃ h, dma_alloc pages (mkHal (mkMM (mkStackFA c e []) m) q) = Done (c * 4096, h) ∧
     queue_frames h = q ++ zrange c (c + pages) ∧
     frame_allocator (hal_mm h) = mkStackFA (c + pages) e [] ∧
     (∀ p i, rd (mem (hal_mm h)) p i = if decide (c ≤ p < c + pages) then 0 else rd m p i) ∧
     dma_dealloc (c * 4096) pages h =
       Done (0, mkHal (mkMM (mkStackFA (c + pages) e (zrange c (c + pages))) (mem (hal_mm h))) (queue_frames h))) ∧
  (∀ r x y, fits 44 x → fits 44 y → x ≠ y + 1 → 2 ≤ pages →
     dma_alloc pages (mkHal (mkMM (mkStackFA c e (r ++ [x; y])) m) q) = Panic).
Proof.
  intros Hc Hp He He44. split.
  - eexists. split_and!.
    + unfold dma_alloc. replace pages with (0 + Z.of_nat (Z.to_nat pages)) at 1 by lia.
      rewrite (bind_step _ _ _ _ _ (dma_loop (Z.to_nat pages) 0 0 c e m q ltac:(lia) Hc ltac:(by left) ltac:(lia) He44)).
      replace (Z.of_nat (Z.to_nat pages)) with pages by lia. rewrite (proj2 (Nat.ltb_lt 0 (Z.to_nat pages))) by lia. cbn [Z.eqb andb].
      change (PhysAddr_from_PhysPageNum c) with (VirtAddr_from_VirtPageNum c). rewrite addr_of_page_num_mul by (unfold fits; lia). reflexivity.
    + done.
    + done.
    + intros p i. cbn [hal_mm mem]. rewrite zero_pages_rd. apply decide_ext, elem_of_zrange.
    + unfold dma_dealloc. cbn [hal_mm queue_frames mem].
      assert (PhysPageNum_from_PhysAddr (PhysAddr_from (c * 4096)) = Some c) as ->.
      { rewrite PhysAddr_from_mod, Z.mod_small by lia. unfold PhysPageNum_from_PhysAddr.
        change PhysAddr_page_offset with page_offset. rewrite page_offset_mod, Z.mod_mul by lia. cbn.
        unfold PhysAddr_floor, PAGE_SIZE. by rewrite Z.div_mul. }
      erewrite bind_step by reflexivity. replace pages with (0 + Z.of_nat (Z.to_nat pages)) at 1 by lia.
      rewrite (bind_step _ _ _ _ _ (dma_free_loop (Z.to_nat pages) c (c + pages) e _ [] Hc ltac:(lia) ltac:(lia) ltac:(set_solver) _ 0)).
      by replace (Z.of_nat (Z.to_nat pages)) with pages by lia.
  - intros r x y Hx Hy Hxy H2. unfold dma_alloc. rewrite (zrange_cons 0), (zrange_cons (0 + 1)) by lia. cbn [for_fold].
    assert (∀ r c z m, fits 44 z → frame_alloc (mkMM (mkStackFA c e (r ++ [z])) m) = Done (Some z, mkMM (mkStackFA c e r) (zero_page m z))) as Ea.
    { intros r' c' z m' [? ?]. unfold frame_alloc. cbn [frame_allocator fa_alloc stack_frame_allocator]. unfold StackFrameAllocator_alloc. cbn [recycled].
      rewrite vec_pop_snoc, PhysPageNum_from_mod, Z.mod_small by lia. done. }
    apply bind_Panic.
    rewrite (bind_step _ _ _ y (mkHal (mkMM (mkStackFA c e (r ++ [x])) (zero_page m y)) (q ++ [y]))).
    + apply bind_Panic. unfold dma_body, on_hal_mm, zoom, mbind, st_bind. cbn [hal_mm]. rewrite Ea by done. cbn.
      change (0 + 1) with 1. change (1 =? 0) with false. cbn iota. rewrite wadd_small by (unfold fits in *; lia).
      by rewrite (proj2 (Z.eqb_neq x (y + 1))).
    + unfold dma_body, on_hal_mm, zoom, mbind, st_bind. cbn [hal_mm]. change [x; y] with ([x] ++ [y]). rewrite (assoc_L app), Ea by done. cbn.
      rewrite wadd_small by (unfold fits in *; lia). by rewrite Z.add_0_r, Z.eqb_refl.
Qed.

Lemma dma_alloc_contiguous_witness :
  ∃ h, dma_alloc 2 (mkHal (mkMM (mkStackFA 0x80500 0x80510 []) ∅) []) = Done (0x80500000, h) ∧ queue_frames h = [0x80500; 0x80501].
Proof.
  destruct (dma_alloc_contiguous 0x80500 0x80510 2 ∅ []) as [(h & E & Hq & _) _]; [lia..|].
  exists h. split; [exact E|exact Hq].
Defined.
