(* ===== verification/Loader.v ===== *)
(** * The programs in the kernel image (os/src/loader.rs, os/src/link_app.S)

    The loader reads the table that the build links into the kernel: the number
    of programs, their start addresses, and their names. [_num_app] and
    [_app_names] are linker symbols. A loop that looks for the end of a string
    has fuel; [core::str::from_utf8] is a parameter. *)

From S2P Require Import Prelude Address PhysMem.

(** The [n] bytes at [pa]. *)
Definition bytes_at (m : pmem) (pa n : Z) : list Z := rd_pa m <$> zrange pa (pa + n).

Section loader.
Context (m : pmem) (num_app_sym app_names_sym : Z) (from_utf8 : list Z → bool) (fuel : nat).

Definition get_num_app : Z := le_val (bytes_at m num_app_sym 8).

(** [app_start[i]]. *)
Definition app_start (i : Z) : Z := le_val (bytes_at m (num_app_sym + 8 * (i + 1)) 8).

(** [None] is the failed assertion. *)
Definition get_app_data (app_id : Z) : option (list Z) :=
  if app_id <? get_num_app
  then Some (bytes_at m (app_start app_id) (app_start (app_id + 1) ⊟ app_start app_id))
  else None.

(** [while end.read_volatile() != 0 { end = end.add(1) }] *)
Fixpoint string_end (fuel : nat) (end_ : Z) : outcome Z :=
  match fuel with
  | O => NoFuel
  | S fuel => if rd_pa m end_ =? 0 then Done end_ else string_end fuel (end_ + 1)
  end.

(** The loop of [APP_NAMES]. *)
Fixpoint app_names (n : nat) (start : Z) : outcome (list (list Z)) :=
  match n with
  | O => Done []
  | S n =>
      match string_end fuel start with
      | Done end_ =>
          let str := bytes_at m start (end_ - start) in
          if from_utf8 str then
            match app_names n (end_ + 1) with Done v => Done (str :: v) | Panic => Panic | NoFuel => NoFuel end
          else Panic
      | Panic => Panic
      | NoFuel => NoFuel
      end
  end.

Definition APP_NAMES : outcome (list (list Z)) := app_names (Z.to_nat get_num_app) app_names_sym.

Definition get_app_data_by_name (name : list Z) : outcome (option (list Z)) :=
  match APP_NAMES with
  | Done names =>
      match list_find (λ n, n = name) names with
      | Some (i, _) => match get_app_data (Z.of_nat i) with Some d => Done (Some d) | None => Panic end
      | None => Done None
      end
  | Panic => Panic
  | NoFuel => NoFuel
  end.

(** ** What the build puts into the image

    The programs with their names, and the address of each; the last address
    is the end of the last program. Behind a program there may be padding. *)

Definition name_bytes (apps : list (list Z * list Z)) : list Z := concat ((λ a, a.1 ++ [0]) <$> apps).

Record image (apps : list (list Z * list Z)) (starts : list Z) : Prop := {
  im_count : bytes_at m num_app_sym 8 = le_bytes 8 (Z.of_nat (length apps));
  im_size : Z.of_nat (length apps) < 2 ^ 64;
  im_starts : length starts = S (length apps);
  im_start : ∀ i a, starts !! i = Some a → fits 64 a ∧ bytes_at m (num_app_sym + 8 * (Z.of_nat i + 1)) 8 = le_bytes 8 a;
  im_names : bytes_at m app_names_sym (Z.of_nat (length (name_bytes apps))) = name_bytes apps;
  im_plain : Forall (λ a, Forall (λ b, b ≠ 0) a.1 ∧ from_utf8 a.1 = true ∧ (length a.1 < fuel)%nat) apps;
  im_data : ∀ i a lo hi, apps !! i = Some a → starts !! i = Some lo → starts !! S i = Some hi →
    lo + Z.of_nat (length a.2) ≤ hi ∧ bytes_at m lo (Z.of_nat (length a.2)) = a.2;
}.

Lemma bytes_at_app_split pa n k : 0 ≤ n → 0 ≤ k → bytes_at m pa (n + k) = bytes_at m pa n ++ bytes_at m (pa + n) k.
Proof. intros. unfold bytes_at. rewrite (zrange_app pa (pa + n)), fmap_app by lia. do 3 f_equal. lia. Qed.

Lemma bytes_at_split pa l1 l2 :
  bytes_at m pa (Z.of_nat (length (l1 ++ l2))) = l1 ++ l2 →
  bytes_at m pa (Z.of_nat (length l1)) = l1 ∧ bytes_at m (pa + Z.of_nat (length l1)) (Z.of_nat (length l2)) = l2.
Proof.
  rewrite length_app, Nat2Z.inj_add, bytes_at_app_split by lia. intros E. apply app_inj_1 in E; [done|].
  unfold bytes_at. rewrite length_fmap, length_zrange. lia.
Qed.

Lemma string_end_ok s : ∀ n pa, bytes_at m pa (Z.of_nat (length (s ++ [0]))) = s ++ [0] → Forall (λ b, b ≠ 0) s → (length s < n)%nat →
  string_end n pa = Done (pa + Z.of_nat (length s)).
Proof.
  induction s as [|b s IH]; intros n pa Hb Hs Hn; (destruct n as [|n]; [simpl in Hn; lia|]); cbn [string_end].
  - unfold bytes_at in Hb. rewrite zrange_cons in Hb by (simpl; lia). cbn in Hb. injection Hb as -> _. cbn. by rewrite Z.add_0_r.
  - apply Forall_cons in Hs as [Hb0 Hs]. apply (bytes_at_split pa [b] (s ++ [0])) in Hb as [Hb1 Hb2].
    unfold bytes_at in Hb1. rewrite zrange_cons in Hb1 by (simpl; lia). rewrite fmap_cons in Hb1. injection Hb1 as -> _.
    rewrite (proj2 (Z.eqb_neq b 0)) by done. rewrite IH; [|done|done|simpl in Hn; lia]. f_equal. simpl. lia.
Qed.

Lemma app_names_ok apps : ∀ pa, bytes_at m pa (Z.of_nat (length (name_bytes apps))) = name_bytes apps →
  Forall (λ a, Forall (λ b, b ≠ 0) a.1 ∧ from_utf8 a.1 = true ∧ (length a.1 < fuel)%nat) apps →
  app_names (length apps) pa = Done (apps.*1).
Proof.
  induction apps as [|a apps IH]; intros pa Hb Hp; [done|]. apply Forall_cons in Hp as [(Hz & Hu & Hf) Hp].
  unfold name_bytes in Hb. rewrite fmap_cons in Hb. cbn [concat] in Hb. apply bytes_at_split in Hb as [Hb1 Hb2]. cbn [length app_names].
  rewrite (string_end_ok a.1) by done. rewrite Z.add_simpl_l.
  pose proof (bytes_at_split pa a.1 [0] Hb1) as [Hs _]. rewrite Hs, Hu.
  rewrite length_app in Hb2. cbn [length] in Hb2. rewrite Nat2Z.inj_add in Hb2. rewrite <- Z.add_assoc. by rewrite IH.
Qed.

(** The loader finds the programs of the image: asked for a name, it returns
    the bytes of the first program of that name, followed by what the linker
    put between it and the next, and nothing for a name that is not there. *)
Theorem loader_finds_program (apps : list (list Z * list Z)) (starts : list Z) (name : list Z) :
  image apps starts →
  match list_find (λ a, a.1 = name) apps with
  | Some (i, a) => ∃ pad, get_app_data_by_name name = Done (Some (a.2 ++ pad))
  | None => get_app_data_by_name name = Done None
  end.
Proof.
  intros [Hcount Hsize Hstarts Hstart Hnames Hplain Hdata].
  assert (get_num_app = Z.of_nat (length apps)) as Hn.
  { unfold get_num_app. rewrite Hcount, le_val_le_bytes. apply Z.mod_small. change (256 ^ Z.of_nat 8) with (2 ^ 64). lia. }
  unfold get_app_data_by_name, APP_NAMES. rewrite Hn, Nat2Z.id, (app_names_ok apps) by done.
  assert (list_find (λ n, n = name) apps.*1 = prod_map id fst <$> list_find (λ a, a.1 = name) apps) as ->.
  { rewrite list_find_fmap. done. }
  destruct (list_find (λ a, a.1 = name) apps) as [[i a]|] eqn:Ef; [|done]. cbn.
  apply list_find_Some in Ef as (Ha & _ & _). unfold get_app_data. rewrite Hn. pose proof (lookup_lt_Some _ _ _ Ha).
  rewrite (proj2 (Z.ltb_lt (Z.of_nat i) (Z.of_nat (length apps)))) by lia.
  destruct (lookup_lt_is_Some_2 starts i) as [lo Hlo]; [lia|]. destruct (lookup_lt_is_Some_2 starts (S i)) as [hi Hhi]; [lia|].
  destruct (Hdata i a lo hi Ha Hlo Hhi) as [Hle Hd]. destruct (Hstart _ _ Hlo) as [Hl64 El], (Hstart _ _ Hhi) as [Hh64 Eh].
  assert (∀ j x, fits 64 x → bytes_at m (num_app_sym + 8 * (Z.of_nat j + 1)) 8 = le_bytes 8 x → app_start (Z.of_nat j) = x) as Has.
  { intros j x Hx E. unfold app_start. rewrite E, le_val_le_bytes. apply Z.mod_small. exact Hx. }
  rewrite (Has i lo) by done. replace (Z.of_nat i + 1) with (Z.of_nat (S i)) by lia. rewrite (Has (S i) hi) by done.
  exists (bytes_at m (lo + Z.of_nat (length a.2)) (hi - lo - Z.of_nat (length a.2))).
  rewrite wsub_small by (unfold fits in *; lia). replace (hi - lo) with (Z.of_nat (length a.2) + (hi - lo - Z.of_nat (length a.2))) at 1 by lia.
  rewrite bytes_at_app_split by lia. by rewrite Hd.
Qed.

End loader.

(** One program, "a", of three bytes, with five bytes of padding. *)
Definition wit_image : pmem :=
  wr_bytes (wr_bytes (wr_bytes ∅ 0x1000 (le_bytes 8 1 ++ le_bytes 8 0x2000 ++ le_bytes 8 0x2008)) 0x2000 [1; 2; 3]) 0x3000 [97; 0].

Lemma loader_finds_program_witness :
  (∃ pad, get_app_data_by_name wit_image 0x1000 0x3000 (λ _, true) 10 [97] = Done (Some ([1; 2; 3] ++ pad))) ∧
  get_app_data_by_name wit_image 0x1000 0x3000 (λ _, true) 10 [98] = Done None.
Proof.
  assert (image wit_image 0x1000 0x3000 (λ _, true) 10 [([97], [1; 2; 3])] [0x2000; 0x2008]) as Him.
  { split; [vm_compute; reflexivity|reflexivity|reflexivity| |vm_compute; reflexivity| |].
    - intros i a Ha. destruct i as [|[|i]]; [injection Ha as <-|injection Ha as <-|discriminate]; (split; [unfold fits; lia|vm_compute; reflexivity]).
    - constructor; [|constructor]. split; [repeat constructor; lia|]. split; [done|]. cbn. lia.
    - intros i a lo hi Ha Hlo Hhi. destruct i as [|i]; [|discriminate]. injection Ha as <-. injection Hlo as <-. injection Hhi as <-.
      split; [cbn; lia|vm_compute; reflexivity]. }
  split.
  - exact (loader_finds_program wit_image 0x1000 0x3000 (λ _, true) 10 _ _ [97] Him).
  - exact (loader_finds_program wit_image 0x1000 0x3000 (λ _, true) 10 _ _ [98] Him).
Defined.
