(* ===== verification/Elf.v ===== *)
(** * ELF files (src/dependencies/xmas-elf-0.9.1: header.rs, program.rs, lib.rs)

    The part of the ELF parser that the loader uses: [ElfFile::new], the
    getters of the header, [program_header] and the getters of a program
    header. The function [read] of the crate [zero], which takes a structure
    from the start of a slice or panics, is a parameter. [Err] is [None];
    panics are those of the monad's [outcome]. *)

From S2P Require Import Prelude Address PhysMem FrameAllocator PageTable MemorySet.

(** ** header.rs *)

Definition MAGIC : list Z := [0x7f; 0x45; 0x4c; 0x46].

Inductive Class := ClassNone | ThirtyTwo | SixtyFour | ClassOther (c : Z).
Definition as_class (c : Z) : Class :=
  if c =? 0 then ClassNone else if c =? 1 then ThirtyTwo else if c =? 2 then SixtyFour else ClassOther c.

(** The fields of the first part that are used. *)
Record HeaderPt1 := mkPt1 { pt1_magic : list Z; pt1_class : Z }.

Record HeaderPt2_ := mkPt2 {
  pt2_type : Z; pt2_machine : Z; pt2_version : Z;
  pt2_entry_point : Z; pt2_ph_offset : Z; pt2_sh_offset : Z;
  pt2_flags : Z; pt2_header_size : Z;
  pt2_ph_entry_size : Z; pt2_ph_count : Z;
  pt2_sh_entry_size : Z; pt2_sh_count : Z; pt2_sh_str_index : Z;
}.
Inductive HeaderPt2 := Header32 (h : HeaderPt2_) | Header64 (h : HeaderPt2_).
Record Header := mkHeader { pt1 : HeaderPt1; pt2 : HeaderPt2 }.

(** The little-endian field of [n] bytes at [off]. *)
Definition at_off (off n : nat) (l : list Z) : Z := le_val (slice off n l).

(** The layouts that [repr(C)] gives to the structures; [p] is the size of [P]. *)
Definition pt1_of (l : list Z) : HeaderPt1 := mkPt1 (slice 0 4 l) (at_off 4 1 l).
Definition pt2_size (p : nat) : nat := 24 + 3 * p.
Definition pt2_of (p : nat) (l : list Z) : HeaderPt2_ :=
  let q := (8 + 3 * p)%nat in
  mkPt2 (at_off 0 2 l) (at_off 2 2 l) (at_off 4 4 l)
    (at_off 8 p l) (at_off (8 + p) p l) (at_off (8 + 2 * p) p l)
    (at_off q 4 l) (at_off (q + 4) 2 l) (at_off (q + 6) 2 l) (at_off (q + 8) 2 l)
    (at_off (q + 10) 2 l) (at_off (q + 12) 2 l) (at_off (q + 14) 2 l).

Definition pt2_fields (h : HeaderPt2) : HeaderPt2_ := match h with Header32 h => h | Header64 h => h end.
Definition entry_point (h : HeaderPt2) : Z := pt2_entry_point (pt2_fields h).
Definition ph_table (h : HeaderPt2) : Z := pt2_ph_offset (pt2_fields h).
Definition ph_entry_size (h : HeaderPt2) : Z := pt2_ph_entry_size (pt2_fields h).
Definition ph_count (h : HeaderPt2) : Z := pt2_ph_count (pt2_fields h).

Section parser.
(** [zero::read] for a structure of [size] bytes; [None] is its panic. *)
Context (read : nat → list Z → option (list Z)).

Definition parse_header (input : list Z) : outcome (option Header) :=
  let len := length input in
  if (len <? 16)%nat then Done None
  else
    match read 16 (take 16 input) with
    | None => Panic
    | Some b =>
        let header_1 := pt1_of b in
        if negb (bool_decide (pt1_magic header_1 = MAGIC)) then Done None
        else
          match as_class (pt1_class header_1) with
          | ClassNone | ClassOther _ => Done None
          | ThirtyTwo =>
              if (len <? 16 + pt2_size 4)%nat then Done None
              else match read (pt2_size 4) (slice 16 (pt2_size 4) input) with
                   | None => Panic
                   | Some b2 => Done (Some (mkHeader header_1 (Header32 (pt2_of 4 b2))))
                   end
          | SixtyFour =>
              if (len <? 16 + pt2_size 8)%nat then Done None
              else match read (pt2_size 8) (slice 16 (pt2_size 8) input) with
                   | None => Panic
                   | Some b2 => Done (Some (mkHeader header_1 (Header64 (pt2_of 8 b2))))
                   end
          end
    end.

(** ** program.rs *)

Record PhFields := mkPhFields {
  pf_type : Z; pf_flags : Z; pf_offset : Z; pf_virtual_addr : Z;
  pf_physical_addr : Z; pf_file_size : Z; pf_mem_size : Z; pf_align : Z;
}.
Inductive ProgramHeader_ := Ph32 (h : PhFields) | Ph64 (h : PhFields).

Definition ph32_of (l : list Z) : PhFields :=
  mkPhFields (at_off 0 4 l) (at_off 24 4 l) (at_off 4 4 l) (at_off 8 4 l) (at_off 12 4 l) (at_off 16 4 l) (at_off 20 4 l) (at_off 28 4 l).
Definition ph64_of (l : list Z) : PhFields :=
  mkPhFields (at_off 0 4 l) (at_off 4 4 l) (at_off 8 8 l) (at_off 16 8 l) (at_off 24 8 l) (at_off 32 8 l) (at_off 40 8 l) (at_off 48 8 l).
Definition ph_fields (h : ProgramHeader_) : PhFields := match h with Ph32 h => h | Ph64 h => h end.

Inductive Type_ := Null | Load | Dynamic | Interp | Note | ShLib | Phdr | Tls | GnuRelro | OsSpecific (t : Z) | ProcessorSpecific (t : Z).
Definition TYPE_LOOS : Z := 0x60000000.
Definition TYPE_HIOS : Z := 0x6fffffff.
Definition TYPE_LOPROC : Z := 0x70000000.
Definition TYPE_HIPROC : Z := 0x7fffffff.
Definition TYPE_GNU_RELRO : Z := TYPE_LOOS + 0x474e552.
Definition as_type (t : Z) : option Type_ :=
  if t =? 0 then Some Null else if t =? 1 then Some Load else if t =? 2 then Some Dynamic else if t =? 3 then Some Interp
  else if t =? 4 then Some Note else if t =? 5 then Some ShLib else if t =? 6 then Some Phdr else if t =? 7 then Some Tls
  else if t =? TYPE_GNU_RELRO then Some GnuRelro
  else if (TYPE_LOOS <=? t) && (t <=? TYPE_HIOS) then Some (OsSpecific t)
  else if (TYPE_LOPROC <=? t) && (t <=? TYPE_HIPROC) then Some (ProcessorSpecific t)
  else None.
Definition is_load (t : Type_) : bool := match t with Load => true | _ => false end.

Definition FLAG_X : Z := 1.
Definition FLAG_W : Z := 2.
Definition FLAG_R : Z := 4.
Definition is_execute (f : Z) : bool := Z.land f FLAG_X =? FLAG_X.
Definition is_write (f : Z) : bool := Z.land f FLAG_W =? FLAG_W.
Definition is_read (f : Z) : bool := Z.land f FLAG_R =? FLAG_R.

Definition parse_program_header (input : list Z) (header : Header) (index : Z) : outcome (option ProgramHeader_) :=
  let p := pt2 header in
  if negb ((index <? ph_count p) && (0 <? ph_table p) && (0 <? ph_entry_size p)) then Done None
  else
    let start := ph_table p ⊞ (index * ph_entry_size p) in
    let end_ := start ⊞ ph_entry_size p in
    match input_slice input start end_, as_class (pt1_class (pt1 header)) with
    | Some b, ThirtyTwo => match read 32 b with Some b => Done (Some (Ph32 (ph32_of b))) | None => Panic end
    | Some b, SixtyFour => match read 56 b with Some b => Done (Some (Ph64 (ph64_of b))) | None => Panic end
    | _, _ => Panic
    end.

(** ** What the loader asks for

    [Err] and a panic are the same to it: it unwraps. *)

Definition ph_view (h : ProgramHeader_) : ProgramHeader :=
  let f := ph_fields h in
  mkPH (is_load <$> as_type (pf_type f)) (pf_virtual_addr f) (pf_mem_size f) (pf_offset f) (pf_file_size f)
    (is_read (pf_flags f)) (is_write (pf_flags f)) (is_execute (pf_flags f)).

Definition ElfFile_new (input : list Z) : option ElfFile :=
  match parse_header input with
  | Done (Some header) =>
      Some (mkElf (pt1_magic (pt1 header))
        ((λ i, match parse_program_header input header i with Done (Some h) => Some (ph_view h) | _ => None end)
           <$> zrange 0 (ph_count (pt2 header)))
        (entry_point (pt2 header)) input)
  | _ => None
  end.

End parser.

(** ** ELF64 executables

    A file as a linker writes it: the header, the table of program headers
    right behind it, and the segments. *)

(** Fields one after the other, each with its size. *)
Definition fields_bytes (fs : list (nat * Z)) : list Z := concat ((λ f, le_bytes f.1 f.2) <$> fs).
Definition fields_size (fs : list (nat * Z)) : nat := sum_list_with fst fs.

Definition pt1_bytes : list Z := MAGIC ++ [2; 1; 1; 0; 0] ++ replicate 7 0.
Definition pt2_layout (h : HeaderPt2_) : list (nat * Z) :=
  [(2%nat, pt2_type h); (2%nat, pt2_machine h); (4%nat, pt2_version h); (8%nat, pt2_entry_point h); (8%nat, pt2_ph_offset h);
   (8%nat, pt2_sh_offset h); (4%nat, pt2_flags h); (2%nat, pt2_header_size h); (2%nat, pt2_ph_entry_size h); (2%nat, pt2_ph_count h);
   (2%nat, pt2_sh_entry_size h); (2%nat, pt2_sh_count h); (2%nat, pt2_sh_str_index h)].
Definition ph64_layout (h : PhFields) : list (nat * Z) :=
  [(4%nat, pf_type h); (4%nat, pf_flags h); (8%nat, pf_offset h); (8%nat, pf_virtual_addr h); (8%nat, pf_physical_addr h);
   (8%nat, pf_file_size h); (8%nat, pf_mem_size h); (8%nat, pf_align h)].
Definition fields_fit (fs : list (nat * Z)) : Prop := Forall (λ f, 0 ≤ f.2 < 256 ^ Z.of_nat f.1) fs.

Definition elf64_image (h : HeaderPt2_) (phs : list PhFields) (body : list Z) : list Z :=
  pt1_bytes ++ fields_bytes (pt2_layout h) ++ concat (fields_bytes ∘ ph64_layout <$> phs) ++ body.

(** The header says where the table is. *)
Record elf64_ok (h : HeaderPt2_) (phs : list PhFields) : Prop := {
  eo_header : fields_fit (pt2_layout h);
  eo_phs : Forall (λ p, fields_fit (ph64_layout p)) phs;
  eo_offset : pt2_ph_offset h = 64;
  eo_entry : pt2_ph_entry_size h = 56;
  eo_count : pt2_ph_count h = Z.of_nat (length phs);
}.

Lemma length_fields fs : length (fields_bytes fs) = fields_size fs.
Proof.
  unfold fields_bytes. induction fs as [|[n v] fs IH]; [done|]. rewrite fmap_cons. cbn [concat]. rewrite length_app, IH.
  cbn [fst snd]. by rewrite length_le_bytes.
Qed.

(** A field is read back. *)
Lemma at_off_field fs i n v rest off :
  fields_fit fs → fs !! i = Some (n, v) → off = fields_size (take i fs) →
  at_off off n (fields_bytes fs ++ rest) = v.
Proof.
  intros Hf Hi ->. pose proof (Forall_lookup_1 _ _ _ _ Hf Hi) as Hv. cbn [fst snd] in Hv. unfold at_off.
  assert (fields_bytes fs = fields_bytes (take i fs) ++ le_bytes n v ++ fields_bytes (drop (S i) fs)) as ->.
  { rewrite <- (take_drop_middle fs i _ Hi) at 1. unfold fields_bytes. by rewrite fmap_app, concat_app. }
  unfold slice. rewrite <- !(assoc_L app). rewrite drop_app_ge by (rewrite length_fields; lia).
  rewrite length_fields, Nat.sub_diag, drop_0, take_app_ge by (rewrite length_le_bytes; lia).
  rewrite length_le_bytes, Nat.sub_diag, take_0, app_nil_r, le_val_le_bytes. by apply Z.mod_small.
Qed.

Ltac read_field i := erewrite (at_off_field _ i); [|eassumption|reflexivity|reflexivity].

Lemma pt2_of_layout h rest : fields_fit (pt2_layout h) → pt2_of 8 (fields_bytes (pt2_layout h) ++ rest) = h.
Proof.
  intros Hf. unfold pt2_of. cbn [Nat.add Nat.mul].
  read_field 0%nat. read_field 1%nat. read_field 2%nat. read_field 3%nat. read_field 4%nat. read_field 5%nat. read_field 6%nat.
  read_field 7%nat. read_field 8%nat. read_field 9%nat. read_field 10%nat. read_field 11%nat. read_field 12%nat. by destruct h.
Qed.

Lemma ph64_of_layout h rest : fields_fit (ph64_layout h) → ph64_of (fields_bytes (ph64_layout h) ++ rest) = h.
Proof.
  intros Hf. unfold ph64_of.
  read_field 0%nat. read_field 1%nat. read_field 2%nat. read_field 3%nat. read_field 4%nat. read_field 5%nat. read_field 6%nat.
  read_field 7%nat. by destruct h.
Qed.

(** The [i]-th of equally long pieces. *)
Lemma slice_pieces {X} (f : X → list Z) (n : nat) (l : list X) i x rest :
  (∀ x, length (f x) = n) → l !! i = Some x → slice (n * i) n (concat (f <$> l) ++ rest) = f x.
Proof.
  intros Hn. revert i. induction l as [|y l IH]; intros i Hi; [done|]. rewrite fmap_cons. cbn [concat]. rewrite <- (assoc_L app).
  destruct i as [|i]; simpl in Hi.
  - injection Hi as ->. unfold slice. rewrite Nat.mul_0_r, drop_0, take_app_le, take_ge by (rewrite Hn; lia). done.
  - rewrite <- (IH i Hi). unfold slice. replace (n * S i)%nat with (n + n * i)%nat by lia.
    rewrite drop_app_ge by (rewrite Hn; lia). rewrite Hn. do 2 f_equal. lia.
Qed.

Lemma length_elf64_image h phs body :
  length (elf64_image h phs body) = (64 + (56 * length phs + length body))%nat.
Proof.
  unfold elf64_image. rewrite !length_app, length_fields. cbn [fields_size pt2_layout sum_list_with fst].
  assert (length (concat (fields_bytes ∘ ph64_layout <$> phs)) = 56 * length phs)%nat as ->; [|simpl; lia].
  induction phs as [|p phs IH]; [done|]. rewrite fmap_cons. cbn [concat length]. rewrite length_app, IH. unfold compose. rewrite length_fields. simpl. lia.
Qed.

Lemma elf64_header (read : nat → list Z → option (list Z)) h phs body :
  (∀ n l, (n ≤ length l)%nat → read n l = Some (take n l)) → elf64_ok h phs →
  parse_header read (elf64_image h phs body) = Done (Some (mkHeader (mkPt1 MAGIC 2) (Header64 h))).
Proof.
  intros Hread [Hh _ _ _ _]. pose proof (length_elf64_image h phs body) as Hlen. set (image := elf64_image h phs body) in *.
  unfold parse_header. rewrite (proj2 (Nat.ltb_ge (length image) 16)) by lia. rewrite Hread by (rewrite length_take; lia).
  assert (pt1_of (take 16 (take 16 image)) = mkPt1 MAGIC 2) as -> by done. cbn [pt1_magic pt1_class]. rewrite bool_decide_true by done.
  change (as_class 2) with SixtyFour. cbn [negb]. change (16 + pt2_size 8)%nat with 64%nat.
  rewrite (proj2 (Nat.ltb_ge (length image) 64)) by lia. change (pt2_size 8) with 48%nat. unfold slice.
  rewrite Hread by (rewrite length_take, length_drop; lia). rewrite take_take. change (48 `min` 48)%nat with 48%nat.
  do 4 f_equal. unfold image, elf64_image. change (drop 16 (pt1_bytes ++ ?x)) with x.
  rewrite take_app_ge by (rewrite length_fields; cbn; lia). by apply pt2_of_layout.
Qed.

Lemma elf64_program_header (read : nat → list Z → option (list Z)) h phs body i p :
  (∀ n l, (n ≤ length l)%nat → read n l = Some (take n l)) → elf64_ok h phs → phs !! i = Some p →
  parse_program_header read (elf64_image h phs body) (mkHeader (mkPt1 MAGIC 2) (Header64 h)) (Z.of_nat i) = Done (Some (Ph64 p)).
Proof.
  intros Hread [Hh Hps Ho He Hc] Hi. pose proof (length_elf64_image h phs body) as Hlen. pose proof (lookup_lt_Some _ _ _ Hi) as Hlt.
  pose proof (Forall_lookup_1 _ _ 9%nat _ Hh eq_refl) as Hcf. cbn [fst snd] in Hcf. rewrite Hc in Hcf. change (256 ^ Z.of_nat 2) with 65536 in Hcf.
  unfold parse_program_header, ph_count, ph_table, ph_entry_size. cbn [pt2 pt1 pt2_fields pt1_class].
  rewrite Hc, Ho, He. rewrite (proj2 (Z.ltb_lt (Z.of_nat i) (Z.of_nat (length phs)))) by lia. cbn [negb andb Z.ltb Z.compare].
  change (as_class 2) with SixtyFour. rewrite !(wadd_small 64 64 (Z.of_nat i * 56)) by (unfold fits; lia).
  rewrite (wadd_small 64 (64 + Z.of_nat i * 56) 56) by (unfold fits; lia).
  unfold input_slice. rewrite Hlen, (proj2 (Z.leb_le _ _)), (proj2 (Z.leb_le _ _)) by lia. cbn [andb].
  assert (slice (Z.to_nat (64 + Z.of_nat i * 56)) (Z.to_nat (64 + Z.of_nat i * 56 + 56 - (64 + Z.of_nat i * 56))) (elf64_image h phs body)
    = fields_bytes (ph64_layout p)) as ->.
  { replace (Z.to_nat (64 + Z.of_nat i * 56)) with (64 + 56 * i)%nat by lia.
    replace (Z.to_nat _) with 56%nat by lia. unfold elf64_image. unfold slice. rewrite <- drop_drop, (assoc_L app), drop_app_ge
      by (rewrite length_app, length_fields; cbn; lia).
    rewrite length_app, length_fields. change (64 - (length pt1_bytes + fields_size (pt2_layout h)))%nat with 0%nat. rewrite drop_0.
    apply (slice_pieces (fields_bytes ∘ ph64_layout) 56 phs i p body); [|done]. intros x. unfold compose. by rewrite length_fields. }
  rewrite Hread by (rewrite length_fields; cbn; lia). rewrite take_ge by (rewrite length_fields; cbn; lia). do 3 f_equal.
  rewrite <- (app_nil_r (fields_bytes _)). apply ph64_of_layout. by apply (Forall_lookup_1 _ _ _ _ Hps Hi).
Qed.

(** The parser reads an ELF64 executable back: for a file made of a header,
    its program headers and anything behind them, [ElfFile::new] succeeds, the
    entry point is that of the header, and every program header has the type,
    addresses, sizes, offset and permissions that were written. *)
Theorem elf64_roundtrip (read : nat → list Z → option (list Z)) h phs body :
  (∀ n l, (n ≤ length l)%nat → read n l = Some (take n l)) → elf64_ok h phs →
  ElfFile_new read (elf64_image h phs body) =
  Some (mkElf MAGIC ((λ p, Some (ph_view (Ph64 p))) <$> phs) (pt2_entry_point h) (elf64_image h phs body)).
Proof.
  intros Hread Hok. unfold ElfFile_new. rewrite (elf64_header read h phs body Hread Hok). cbn [pt1 pt2 pt1_magic].
  unfold ph_count, entry_point. cbn [pt2_fields]. rewrite (eo_count _ _ Hok). do 2 f_equal. apply list_eq. intros i.
  rewrite !list_lookup_fmap. destruct (phs !! i) as [p|] eqn:Hi; simpl.
  - unfold zrange. rewrite lookup_seqZ_lt by (apply lookup_lt_Some in Hi; lia). cbn [fmap option_fmap option_map].
    rewrite Z.add_0_l. by rewrite (elf64_program_header read h phs body i p Hread Hok Hi).
  - apply lookup_ge_None in Hi. rewrite (proj2 (lookup_ge_None _ _)) by (rewrite length_zrange; lia). done.
Qed.

(** A program of one code segment. *)
Definition sample_header : HeaderPt2_ := mkPt2 2 243 1 0x10000 64 0 5 64 56 1 64 0 0.
Definition sample_segment : PhFields := mkPhFields 1 5 120 0x10000 0x10000 0x20 0x40 0x1000.

Lemma elf64_roundtrip_witness :
  elf64_ok sample_header [sample_segment] ∧
  ElfFile_new (λ n l, if (n <=? length l)%nat then Some (take n l) else None) (elf64_image sample_header [sample_segment] (repeat 0 100)) =
  Some (mkElf MAGIC [Some (mkPH (Some true) 0x10000 0x40 120 0x20 true false true)] 0x10000
    (elf64_image sample_header [sample_segment] (repeat 0 100))).
Proof.
  assert (elf64_ok sample_header [sample_segment]) as Hok.
  { split; [by repeat constructor; vm_compute|by repeat constructor; vm_compute|done..]. }
  split; [exact Hok|].
  exact (elf64_roundtrip (λ n l, if (n <=? length l)%nat then Some (take n l) else None) sample_header [sample_segment] (repeat 0 100)
    (λ n l H, f_equal (λ b : bool, if b then Some (take n l) else None) (proj2 (Nat.leb_le n (length l)) H)) Hok).
Defined.
