(* ===== verification/ElfLoad.v ===== *)
(** * Loading a program (os/src/mm/memory_set.rs, [from_elf])

    What [MemorySet::from_elf] builds from an ELF file: the segments at their
    addresses with their contents and permissions, the user stack behind them,
    the page of the trap context and the trampoline. *)

From S2P Require Import Prelude Address PhysMem FrameAllocator PageTable MemorySet UserSpace Elf.

(** ** What an address space should contain *)

(** Pages [sg_lo .. sg_hi) with a permission, holding data followed by zeros. *)
Record segment := mkSeg { sg_lo : Z; sg_hi : Z; sg_perm : Z; sg_data : list Z }.

Definition segment_ok (g : segment) : Prop :=
  fits 8 (sg_perm g) ∧ 0 ≤ sg_lo g < sg_hi g ∧ sg_hi g ≤ 2 ^ 27 ∧
  Forall is_byte (sg_data g) ∧ Z.of_nat (length (sg_data g)) ≤ 4096 * (sg_hi g - sg_lo g).
Definition segment_area (g : segment) : MapArea := mkMapArea (mkSimpleRange (sg_lo g) (sg_hi g)) ∅ Framed (sg_perm g).
Definition segment_pages (g : segment) : nat := Z.to_nat (sg_hi g - sg_lo g).
Definition apart (g h : segment) : Prop := sg_hi g ≤ sg_lo h ∨ sg_hi h ≤ sg_lo g.

Section load.
Context {A : Type} `{FrameAllocatorLaws A}.

Abbreviation owned s := (fa_owned (frame_allocator s)).
Abbreviation avail s := (fa_avail (frame_allocator s)).

Definition holds (s : mm A) (a : MapArea) (g : segment) : Prop :=
  vpn_range a = mkSimpleRange (sg_lo g) (sg_hi g) ∧ map_perm a = sg_perm g ∧
  ∀ v f o, data_frames a !! v = Some f → 0 ≤ o < 4096 →
    rd_byte (mem s) f o = default 0 (sg_data g !! Z.to_nat ((v - sg_lo g) * 4096 + o)).

(** The areas of the space are the segments of [plan]. *)
Definition laid (s : mm A) (ms : MemorySet) (plan : list segment) : Prop := Forall2 (holds s) (areas ms) plan.

Lemma laid_page s ms plan G0 i v a f :
  user_space s ms G0 → laid s ms plan → page_of ms i v a f → ∃ g, plan !! i = Some g ∧ sg_lo g ≤ v < sg_hi g.
Proof.
  intros (_ & _ & _ & Hwf & _) Hl [Ha Hf]. destruct (Forall2_lookup_l _ _ _ _ _ Hl Ha) as (g & Hg & Hr & _). exists g. split; [done|].
  eapply Forall_lookup in Hwf; [|exact Ha]. destruct (area_wf_range a v f Hwf Hf) as [Hv _].
  unfold vpns in Hv. rewrite Hr in Hv. by apply elem_of_zrange in Hv.
Qed.

(** Mapping an area, with or without data. *)
Lemma push_segment s ms G0 g data :
  user_space s ms G0 → segment_ok g → (data = Some (sg_data g) ∨ data = None ∧ sg_data g = []) →
  (∀ v, sg_lo g ≤ v < sg_hi g → G0 !! v = None ∧ ∀ i b f, ¬ page_of ms i v b f) →
  (3 * segment_pages g ≤ avail s)%nat →
  ∃ D new s1 s',
    let ms' := mkMemorySet (with_tables (page_table ms) new) (areas ms ++ [set_frames D (segment_area g)]) in
    push ms (segment_area g) data s = Done (ms', s') ∧ user_space s' ms' G0 ∧ area_wf (set_frames D (segment_area g)) ∧
    extended s s1 (page_table ms) new D ∧ frame_allocator s' = frame_allocator s1 ∧
    holds s' (set_frames D (segment_area g)) g ∧ same_pages (λ x, ∀ v, D !! v ≠ Some x) s1 s'.
Proof.
  intros Hus (Hp & Hlo & Hhi & Hb & Hlen) Hdata Hfree Hav.
  assert (fresh_area (segment_area g)) as Hfresh by (split_and!; simpl; try done; lia).
  assert (length (vpns (vpn_range (segment_area g))) = segment_pages g) as Hn by apply length_zrange.
  assert (∀ v, v ∈ vpns (vpn_range (segment_area g)) → G0 !! v = None ∧ ∀ i b f, ¬ page_of ms i v b f) as Hfree'.
  { intros v Hv. apply Hfree. by apply elem_of_zrange in Hv. }
  destruct Hdata as [->|[-> Hnil]].
  - destruct (push_data_ok s ms G0 (segment_area g) (sg_data g)) as (D & new & s1 & s' & E & ? & ? & ? & ? & ? & ?);
      [done|done| |done|by rewrite Hn|done|rewrite Hn; unfold segment_pages; lia|].
    { intros Hnil. rewrite Hnil in Hn. unfold segment_pages in Hn. simpl in Hn. lia. }
    exists D, new, s1, s'. split_and!; done.
  - destruct (push_ok s ms G0 (segment_area g)) as (D & new & s' & E & ? & ? & Hext); [done|done|done|by rewrite Hn|].
    exists D, new, s', s'. split_and!; try done. split_and!; [done..|]. intros v f o Hf Ho. rewrite Hnil, lookup_nil.
    destruct Hext as (_ & _ & _ & _ & _ & _ & Hz & _). unfold rd_byte. rewrite (Hz v f) by done.
    unfold word_byte. by rewrite Zdiv.Zdiv_0_l.
Qed.

(** One more segment. *)
Lemma push_plan_ok s0 s ms G0 plan g data :
  user_space s ms G0 → added s0 s ms → laid s ms plan →
  segment_ok g → (data = Some (sg_data g) ∨ data = None ∧ sg_data g = []) →
  (∀ v, sg_lo g ≤ v < sg_hi g → G0 !! v = None) → Forall (apart g) plan →
  (3 * segment_pages g ≤ avail s)%nat →
  ∃ ms' s', push ms (segment_area g) data s = Done (ms', s') ∧ user_space s' ms' G0 ∧ added s0 s' ms' ∧
    laid s' ms' (plan ++ [g]) ∧ (avail s ≤ 3 * segment_pages g + avail s')%nat.
Proof.
  intros Hus Hadd Hlaid Hok Hdata HG Hap Hav.
  destruct (push_segment s ms G0 g data Hus Hok Hdata) as (D & new & s1 & s' & E & Hus' & Hwf & Hext & Hfa & Hold & Hs'); [|done|].
  { intros v Hv. split; [by apply HG|]. intros i b f Hpg.
    destruct (laid_page _ _ _ _ _ _ _ _ Hus Hlaid Hpg) as (h & Hh & Hvh).
    eapply Forall_lookup in Hap; [|exact Hh]. unfold apart in Hap. lia. }
  pose proof (added_push s0 s s1 ms new D (segment_area g) Hadd Hext) as (Ho1 & Hn1 & Hs1).
  eexists _, s'. split_and!; [exact E|exact Hus'| | |].
  - split_and!; [by rewrite Hfa|exact Hn1|]. intros x i Hx. rewrite Hs'; [by apply Hs1|]. intros v Hv.
    apply (Hn1 x); [|done]. apply frame_of_push. right. right. by exists v.
  - apply Forall2_app; [|by apply Forall2_cons]. cbn [areas]. destruct Hus as (_ & _ & _ & _ & _ & _ & Hfr).
    destruct Hext as (_ & _ & HD & _ & _ & _ & _ & Hs).
    apply Forall2_same_length_lookup_2; [exact (Forall2_length _ _ _ Hlaid)|]. intros i a h Ha Hh.
    destruct (Forall2_lookup_lr _ _ _ _ _ _ Hlaid Ha Hh) as (? & ? & Hbytes). split_and!; [done..|].
    intros v f o Hf Hb. rewrite <- (Hbytes v f o Hf Hb). destruct (Hfr i v a f) as (Hof & Hnf & _); [done|].
    unfold rd_byte. rewrite Hs'; [by rewrite Hs|]. intros w Hw. by destruct (HD w f Hw).
  - pose proof (area_wf_size _ _ Hwf) as Hsz. destruct Hext as (_ & _ & _ & _ & Ha & Hc & _).
    rewrite Hfa. unfold segment_pages. unfold vpns in Hsz. rewrite length_zrange in Hsz. cbn [segment_area vpn_range range_l range_r] in Hsz. lia.
Qed.

(** ** The loop over the program headers *)

Definition ph_lo (ph : ProgramHeader) : Z := ph_virtual_addr ph / 4096.
Definition ph_hi (ph : ProgramHeader) : Z := (ph_virtual_addr ph + ph_mem_size ph + 4095) / 4096.
Definition ph_data (elf : ElfFile) (ph : ProgramHeader) : list Z :=
  slice (Z.to_nat (ph_offset ph)) (Z.to_nat (ph_file_size ph)) (elf_input elf).
Definition ph_segment (elf : ElfFile) (ph : ProgramHeader) : segment :=
  mkSeg (ph_lo ph) (ph_hi ph) (ph_perm ph) (ph_data elf ph).

(** The headers of type LOAD. *)
Definition load_header (h : option ProgramHeader) : option ProgramHeader :=
  ph ← h; match ph_is_load ph with Some true => Some ph | _ => None end.
Definition loads (l : list (option ProgramHeader)) : list ProgramHeader := omap load_header l.

Fixpoint ascending (lo : Z) (l : list ProgramHeader) : Prop :=
  match l with
  | [] => True
  | ph :: l => lo ≤ ph_lo ph ∧ ascending (ph_hi ph) l
  end.
Definition image_end (lo : Z) (l : list ProgramHeader) : Z := foldl (λ _ ph, ph_hi ph) lo l.

(** A segment that can be loaded: page-aligned, below 2^38 with room for the
    stack, and with its contents in the file. *)
Definition ph_ok (elf : ElfFile) (ph : ProgramHeader) : Prop :=
  0 ≤ ph_virtual_addr ph ∧ ph_virtual_addr ph mod 4096 = 0 ∧ 0 < ph_mem_size ph ∧
  ph_virtual_addr ph + ph_mem_size ph ≤ 2 ^ 38 - 5 * 4096 ∧
  0 ≤ ph_offset ph ∧ 0 ≤ ph_file_size ph ≤ ph_mem_size ph ∧
  ph_offset ph + ph_file_size ph ≤ Z.of_nat (length (elf_input elf)).

(** What a linker guarantees of an executable. *)
Record loadable (elf : ElfFile) : Prop := {
  lo_magic : elf_magic elf = [0x7f; 0x45; 0x4c; 0x46];
  lo_bytes : Forall is_byte (elf_input elf);
  lo_size : Z.of_nat (length (elf_input elf)) < 2 ^ 64;
  lo_typed : Forall (λ h, ∃ ph, h = Some ph ∧ is_Some (ph_is_load ph)) (elf_headers elf);
  lo_segments : Forall (ph_ok elf) (loads (elf_headers elf));
  lo_order : ascending 0 (loads (elf_headers elf));
}.

Lemma ph_perm_fits ph : fits 8 (ph_perm ph).
Proof. unfold ph_perm. destruct (ph_read ph), (ph_write ph), (ph_execute ph); vm_compute; done. Qed.

Lemma VirtAddr_from_small v : 0 ≤ v < 2 ^ 39 → VirtAddr_from v = v.
Proof. intros. rewrite VirtAddr_from_mod. by apply Z.mod_small. Qed.

Lemma ceil_pos v : 0 < v < 2 ^ 39 → ceil v = (v + 4095) / 4096.
Proof.
  intros. unfold ceil, PAGE_SIZE. rewrite wsub_small by (unfold fits; lia). rewrite wadd_small by (unfold fits; lia). f_equal. lia.
Qed.

Lemma ph_segment_ok elf ph : Forall is_byte (elf_input elf) → ph_ok elf ph → segment_ok (ph_segment elf ph) ∧ ph_hi ph + 5 ≤ 2 ^ 26.
Proof.
  intros Hb (? & ? & ? & ? & ? & ? & ?). unfold segment_ok, ph_segment, ph_data, ph_lo, ph_hi; cbn [sg_lo sg_hi sg_perm sg_data].
  split; [|zlia]. split_and!; [apply ph_perm_fits|zlia|zlia|zlia|by apply Forall_take, Forall_drop|].
  rewrite length_slice by lia. zlia.
Qed.

(** The area that the loop makes for a header. *)
Lemma ph_area elf ph : ph_ok elf ph →
  MapArea_new (VirtAddr_from (ph_virtual_addr ph)) (VirtAddr_from (ph_virtual_addr ph ⊞ ph_mem_size ph)) Framed (ph_perm ph) =
  Some (segment_area (ph_segment elf ph)).
Proof.
  intros (? & ? & ? & ? & _). rewrite wadd_small by (unfold fits; lia). rewrite !VirtAddr_from_small by lia.
  unfold MapArea_new. rewrite ceil_pos by lia. unfold floor, PAGE_SIZE, SimpleRange_new. rewrite (proj2 (Z.leb_le _ _)) by zlia. done.
Qed.

Lemma load_segments_ok elf G0 s0 l : ∀ s ms plan e,
  Forall is_byte (elf_input elf) → Z.of_nat (length (elf_input elf)) < 2 ^ 64 →
  Forall (λ h, ∃ ph, h = Some ph ∧ is_Some (ph_is_load ph)) l → Forall (ph_ok elf) (loads l) → ascending e (loads l) →
  user_space s ms G0 → added s0 s ms → laid s ms plan → Forall (λ g, sg_hi g ≤ e) plan →
  (∀ v, v < 2 ^ 26 → G0 !! v = None) →
  (3 * sum_list_with segment_pages (ph_segment elf <$> loads l) ≤ avail s)%nat →
  ∃ ms' s', for_fold l (ms, e) (load_segment elf) s = Done ((ms', image_end e (loads l)), s') ∧
    user_space s' ms' G0 ∧ added s0 s' ms' ∧ laid s' ms' (plan ++ (ph_segment elf <$> loads l)) ∧
    (avail s ≤ 3 * sum_list_with segment_pages (ph_segment elf <$> loads l) + avail s')%nat.
Proof.
  induction l as [|h l IH]; intros s ms plan e Hb Hlen Hty Hseg Hasc Hus Hadd Hlaid Hplan HG Hav.
  - exists ms, s. cbn. rewrite app_nil_r. split_and!; try done; lia.
  - apply Forall_cons in Hty as [(ph & -> & [b Eb]) Hty]. cbn [for_fold].
    destruct b.
    + assert (loads (Some ph :: l) = ph :: loads l) as El by (unfold loads, omap; cbn; by rewrite Eb).
      rewrite El in *. apply Forall_cons in Hseg as [Hph Hseg]. destruct Hasc as [Hlo Hasc].
      rewrite fmap_cons in *. cbn [sum_list_with] in *.
      destruct (ph_segment_ok elf ph Hb Hph) as [Hok Hhi].
      destruct (push_plan_ok s0 s ms G0 plan (ph_segment elf ph) (Some (ph_data elf ph))) as (ms1 & s1 & E & Hus1 & Hadd1 & Hlaid1 & Hav1);
        [done..|by left| | |lia|].
      { intros v Hv. apply HG. cbn [ph_segment sg_lo sg_hi] in Hv. lia. }
      { eapply Forall_impl; [exact Hplan|]. intros g Hg. right. cbn [ph_segment sg_lo]. cbn beta in Hg. lia. }
      destruct (IH s1 ms1 (plan ++ [ph_segment elf ph]) (ph_hi ph)) as (ms' & s' & E' & ? & ? & Hl' & ?); try done; [|lia|].
      { apply Forall_app. split; [|by apply Forall_singleton]. eapply Forall_impl; [exact Hplan|]. intros g Hg. cbn beta in Hg.
        destruct Hok as (_ & ? & _). cbn [ph_segment sg_lo sg_hi] in *. lia. }
      exists ms', s'. rewrite <- (assoc_L app) in Hl'. split_and!; try done; [|lia].
      rewrite (bind_step _ _ _ (ms1, ph_hi ph) s1); [exact E'|].
      unfold load_segment. erewrite bind_step by reflexivity. rewrite Eb. erewrite bind_step by reflexivity.
      rewrite (ph_area elf) by done. erewrite bind_step by reflexivity.
      assert (input_slice (elf_input elf) (ph_offset ph) (ph_offset ph ⊞ ph_file_size ph) = Some (ph_data elf ph)) as ->.
      { destruct Hph as (? & ? & ? & ? & ? & ? & ?). rewrite wadd_small by (unfold fits; lia). unfold input_slice.
        rewrite (proj2 (Z.leb_le _ _)), (proj2 (Z.leb_le _ _)) by lia. cbn [andb]. unfold ph_data. do 3 f_equal. lia. }
      erewrite bind_step by reflexivity. by rewrite (bind_step _ _ _ _ _ E).
    + assert (loads (Some ph :: l) = loads l) as El by (unfold loads, omap; cbn; by rewrite Eb). rewrite El in *.
      destruct (IH s ms plan e) as (ms' & s' & E' & Hrest); try done. exists ms', s'. split; [|done].
      rewrite (bind_step _ _ _ (ms, e) s); [exact E'|]. unfold load_segment. erewrite bind_step by reflexivity. rewrite Eb. done.
Qed.

(** ** The whole loader *)

(** The stack (three pages, one page above the image), the page above it, and
    the trap context. *)
Definition runtime_plan (e : Z) : list segment :=
  [mkSeg (e + 1) (e + 4) 22 []; mkSeg (e + 4) (e + 5) 22 []; mkSeg 0x7fffffe 0x7ffffff 6 []].

Definition elf_plan (elf : ElfFile) : list segment :=
  let l := loads (elf_headers elf) in (ph_segment elf <$> l) ++ runtime_plan (image_end 0 l).

(** An area without data above all others. *)
Lemma insert_above s0 s ms tp plan lo hi p a b :
  let G0 := {[TRAMPOLINE_VPN := PTE_new tp 11]} in
  user_space s ms G0 → added s0 s ms → laid s ms plan → Forall (λ g, sg_hi g ≤ lo) plan →
  0 ≤ lo < hi → hi ≤ TRAMPOLINE_VPN → fits 8 p → floor a = lo → ceil b = hi → (3 * Z.to_nat (hi - lo) ≤ avail s)%nat →
  ∃ ms' s', insert_framed_area ms a b p s = Done (ms', s') ∧ user_space s' ms' G0 ∧ added s0 s' ms' ∧
    laid s' ms' (plan ++ [mkSeg lo hi p []]) ∧ Forall (λ g, sg_hi g ≤ hi) (plan ++ [mkSeg lo hi p []]) ∧
    (avail s ≤ 3 * Z.to_nat (hi - lo) + avail s')%nat.
Proof.
  intros G0 Hus Hadd Hlaid Hplan Hlo Hhi Hp Ha Hb Hav.
  destruct (push_plan_ok s0 s ms G0 plan (mkSeg lo hi p []) None) as (ms' & s' & E & ? & ? & ? & ?);
    [done|done|done| |by right| | |done|].
  - unfold TRAMPOLINE_VPN in Hhi. split_and!; simpl; done || lia || constructor.
  - cbn [sg_lo sg_hi]. intros v Hv. apply lookup_singleton_None. lia.
  - eapply Forall_impl; [exact Hplan|]. intros g Hg. by right.
  - exists ms', s'. split_and!; try done.
    + unfold insert_framed_area, MapArea_new, SimpleRange_new. rewrite Ha, Hb.
      rewrite (proj2 (Z.leb_le _ _)) by lia. by erewrite bind_step by reflexivity.
    + apply Forall_app. split; [|by apply Forall_singleton]. eapply Forall_impl; [exact Hplan|]. intros g Hg. cbn beta in *. lia.
Qed.

Lemma ascending_bounds elf l : ∀ e, Forall is_byte (elf_input elf) → Forall (ph_ok elf) l → ascending e l → 0 ≤ e → e + 5 ≤ 2 ^ 26 →
  e ≤ image_end e l ∧ image_end e l + 5 ≤ 2 ^ 26 ∧ Forall (λ ph, ph_hi ph ≤ image_end e l) l.
Proof.
  induction l as [|ph l IH]; intros e Hb Hok Hasc He0 He; [by cbn|].
  apply Forall_cons in Hok as [Hph Hok]. destruct Hasc as [Hlo Hasc].
  destruct (ph_segment_ok elf ph Hb Hph) as [(_ & Hr & _) Hhi]. cbn [ph_segment sg_lo sg_hi] in Hr.
  destruct (IH (ph_hi ph)) as (H1 & H2 & H3); [done..|lia|lia|].
  change (image_end e (ph :: l)) with (image_end (ph_hi ph) l). split_and!; [lia|done|by constructor].
Qed.

Lemma runtime_areas_ok s0 s ms tp plan e :
  let G0 := {[TRAMPOLINE_VPN := PTE_new tp 11]} in
  user_space s ms G0 → added s0 s ms → laid s ms plan → Forall (λ g, sg_hi g ≤ e) plan → 0 ≤ e → e + 5 ≤ 2 ^ 26 → (15 ≤ avail s)%nat →
  ∃ ms1 s1 ms2 s2 ms3 s3,
    insert_framed_area ms (VirtAddr_from ((e + 1) * 4096)) (VirtAddr_from ((e + 4) * 4096)) 22 s = Done (ms1, s1) ∧
    insert_framed_area ms1 (VirtAddr_from ((e + 4) * 4096)) (VirtAddr_from ((e + 4) * 4096 + 4)) 22 s1 = Done (ms2, s2) ∧
    insert_framed_area ms2 (VirtAddr_from TRAP_CONTEXT_BASE) (VirtAddr_from TRAMPOLINE) 6 s2 = Done (ms3, s3) ∧
    user_space s3 ms3 G0 ∧ added s0 s3 ms3 ∧ laid s3 ms3 (plan ++ runtime_plan e) ∧ (avail s ≤ 15 + avail s3)%nat.
Proof.
  intros G0 Hus Hadd Hlaid Hplan He0 He Hav.
  destruct (insert_above s0 s ms tp plan (e + 1) (e + 4) 22 (VirtAddr_from ((e + 1) * 4096)) (VirtAddr_from ((e + 4) * 4096)))
    as (ms1 & s1 & E1 & Hus1 & Hadd1 & Hlaid1 & Hp1 & Hav1); try done; try (unfold fits, TRAMPOLINE_VPN; lia).
  { eapply Forall_impl; [exact Hplan|]. intros g Hg. cbn beta in *. lia. }
  { rewrite VirtAddr_from_small by lia. unfold floor, PAGE_SIZE. zlia. }
  { rewrite VirtAddr_from_small, ceil_pos by lia. zlia. }
  destruct (insert_above s0 s1 ms1 tp _ (e + 4) (e + 5) 22 (VirtAddr_from ((e + 4) * 4096)) (VirtAddr_from ((e + 4) * 4096 + 4))
    Hus1 Hadd1 Hlaid1 Hp1) as (ms2 & s2 & E2 & Hus2 & Hadd2 & Hlaid2 & Hp2 & Hav2); try (unfold fits, TRAMPOLINE_VPN; lia).
  { rewrite VirtAddr_from_small by lia. unfold floor, PAGE_SIZE. zlia. }
  { rewrite VirtAddr_from_small, ceil_pos by lia. zlia. }
  destruct (insert_above s0 s2 ms2 tp _ 0x7fffffe 0x7ffffff 6 (VirtAddr_from TRAP_CONTEXT_BASE) (VirtAddr_from TRAMPOLINE)
    Hus2 Hadd2 Hlaid2) as (ms3 & s3 & E3 & Hus3 & Hadd3 & Hlaid3 & _ & Hav3); try done; try (unfold fits, TRAMPOLINE_VPN; lia).
  { eapply Forall_impl; [exact Hp2|]. intros g Hg. cbn beta in *. lia. }
  exists ms1, s1, ms2, s2, ms3, s3. split_and!; try done; [by rewrite <- !(assoc_L app) in Hlaid3|lia].
Qed.

(** [from_elf] builds the space of the plan. *)
Lemma from_elf_ok ld tp parse s elf_data elf :
  mm_inv s → PhysPageNum_from_PhysAddr (PhysAddr_from (strampoline ld)) = Some tp → fits 44 tp →
  parse elf_data = Some elf → loadable elf →
  (3 + 3 * sum_list_with segment_pages (elf_plan elf) ≤ avail s)%nat →
  ∃ ms s', from_elf ld parse elf_data s =
      Done ((ms, (image_end 0 (loads (elf_headers elf)) + 4) * 4096, elf_entry elf), s') ∧
    user_space s' ms {[TRAMPOLINE_VPN := PTE_new tp 11]} ∧ added s s' ms ∧ laid s' ms (elf_plan elf) ∧
    (avail s ≤ 3 + 3 * sum_list_with segment_pages (elf_plan elf) + avail s')%nat.
Proof.
  intros Hmm Htp Hfit Hparse [Hmag Hbytes Hlen Hty Hsegs Hasc] Hav.
  unfold elf_plan in *. set (l := loads (elf_headers elf)) in *. rewrite sum_list_with_app in Hav.
  destruct (ascending_bounds elf l 0 Hbytes Hsegs Hasc) as (He0 & He & Hends); [lia..|].
  set (e := image_end 0 l) in *.
  assert (sum_list_with segment_pages (runtime_plan e) = 5)%nat as Hrt.
  { unfold segment_pages. cbn [runtime_plan sum_list_with sg_lo sg_hi]. lia. }
  destruct (bare_trampoline_ok ld tp s) as (ms0 & s1 & s2 & E1 & E2 & Hnil & Hus2 & Ho & Hn & Ha & Hs); [done|lia|done|done|].
  destruct (load_segments_ok elf {[TRAMPOLINE_VPN := PTE_new tp 11]} s (elf_headers elf) s2 ms0 [] 0)
    as (ms3 & s3 & E3 & Hus3 & Hadd3 & Hlaid3 & Hav3); try done.
  { split_and!; [|intros x Hx; eapply Forall_forall in Hn; [done|]|done].
    - intros x. rewrite Ho. unfold frame_of, page_of. rewrite Hnil. naive_solver.
    - destruct Hx as [|(i & v & a & [Hx _])]; [done|]. by rewrite Hnil in Hx. }
  { unfold laid. rewrite Hnil. constructor. }
  { intros v Hv. apply lookup_singleton_None. unfold TRAMPOLINE_VPN. lia. }
  { fold l. lia. }
  fold l e in E3, Hlaid3, Hav3. cbn [app] in Hlaid3.
  destruct (runtime_areas_ok s s3 ms3 tp (ph_segment elf <$> l) e) as (ms4 & s4 & ms5 & s5 & ms6 & s6 & E4 & E5 & E6 & Hus6 & Hadd6 & Hlaid6 & Hav6);
    [done..| |done|done|lia|].
  { apply Forall_fmap. exact Hends. }
  exists ms6, s6. split_and!; [|done..|rewrite sum_list_with_app; lia].
  unfold from_elf. rewrite (bind_step _ _ _ _ _ E1), (bind_step _ _ _ _ _ E2), Hparse. erewrite bind_step by reflexivity.
  rewrite Hmag. rewrite (bind_step _ _ _ tt s2) by reflexivity. rewrite (bind_step _ _ _ _ _ E3).
  rewrite (addr_of_page_num_mul e) by (unfold fits; lia). unfold usize_from_VirtAddr.
  change (2 ^ (VA_WIDTH_SV39 - 1)) with (2 ^ 38). rewrite (proj2 (Z.leb_gt (2 ^ 38) (e * 4096))) by lia.
  rewrite (wadd_small 64 (e * 4096) PAGE_SIZE) by (unfold fits, PAGE_SIZE; lia).
  rewrite (wadd_small 64 (e * 4096 + PAGE_SIZE) USER_STACK_SIZE) by (unfold fits, PAGE_SIZE, USER_STACK_SIZE; lia).
  unfold PAGE_SIZE, USER_STACK_SIZE. replace (e * 4096 + 4096 + 4096 * 3) with ((e + 4) * 4096) by lia. replace (e * 4096 + 4096) with ((e + 1) * 4096) by lia.
  rewrite (wadd_small 64 _ 4) by (unfold fits; lia).
  by rewrite (bind_step _ _ _ _ _ E4), (bind_step _ _ _ _ _ E5), (bind_step _ _ _ _ _ E6).
Qed.

(** Where a page of a segment is. *)
Lemma laid_frame s ms plan G0 g v :
  user_space s ms G0 → laid s ms plan → g ∈ plan → sg_lo g ≤ v < sg_hi g →
  ∃ i a f, page_of ms i v a f ∧ map_perm a = sg_perm g ∧
    ∀ o, 0 ≤ o < 4096 → rd_byte (mem s) f o = default 0 (sg_data g !! Z.to_nat ((v - sg_lo g) * 4096 + o)).
Proof.
  intros Hus Hlaid [i Hg]%list_elem_of_lookup Hv. destruct (Forall2_lookup_r _ _ _ _ _ Hlaid Hg) as (a & Ha & Hr & Hp & Hb).
  destruct Hus as (_ & _ & _ & Hwf & _). eapply Forall_lookup in Hwf; [|exact Ha].
  destruct (area_wf_frame a v Hwf) as [f Hf]; [unfold vpns; rewrite Hr; by apply elem_of_zrange|].
  exists i, a, f. split_and!; [done|done|]. intros o. by apply Hb.
Qed.

Lemma laid_byte s ms plan G0 g v :
  user_space s ms G0 → laid s ms plan → g ∈ plan → sg_lo g ≤ v < sg_hi g →
  ∃ f, MemorySet_translate (mem s) ms v = Some (PTE_new f (Z.lor (sg_perm g) PTE_V)) ∧
    ∀ o, 0 ≤ o < 4096 → rd_byte (mem s) f o = default 0 (sg_data g !! Z.to_nat ((v - sg_lo g) * 4096 + o)).
Proof.
  intros Hus Hlaid Hg Hv. destruct (laid_frame s ms plan G0 g v Hus Hlaid Hg Hv) as (i & a & f & Hpg & Hp & Hb).
  exists f. split; [|done]. rewrite <- Hp. by eapply user_space_translate.
Qed.

(** The entry of a page gives user mode the access that the segment asks for. *)
Definition grants (ph : ProgramHeader) (e : Z) : Prop :=
  is_valid e = true ∧ PTE_has PTE_U e = true ∧
  readable e = ph_read ph ∧ writable e = ph_write ph ∧ executable e = ph_execute ph.

Lemma seg_flags_fit ph : fits 8 (Z.lor (ph_perm ph) PTE_V).
Proof. unfold ph_perm. destruct (ph_read ph), (ph_write ph), (ph_execute ph); vm_compute; done. Qed.

Lemma grants_perm ph f : fits 44 f → grants ph (PTE_new f (Z.lor (ph_perm ph) PTE_V)).
Proof.
  intros Hf. unfold grants, is_valid, readable, writable, executable, PTE_has, ph_perm.
  destruct (ph_read ph), (ph_write ph), (ph_execute ph); rewrite PTE_flags_new by (done || (unfold fits; vm_compute; done)); done.
Qed.

(** Every byte of the program is where it belongs. *)
Definition program_loaded (s : mm A) (ms : MemorySet) (elf : ElfFile) : Prop :=
  ∀ ph k, ph ∈ loads (elf_headers elf) → 0 ≤ k < ph_mem_size ph →
    ∃ e, MemorySet_translate (mem s) ms ((ph_virtual_addr ph + k) / 4096) = Some e ∧ grants ph e ∧
      rd_byte (mem s) (PTE_ppn e) ((ph_virtual_addr ph + k) mod 4096) =
        if decide (k < ph_file_size ph) then default 0 (elf_input elf !! Z.to_nat (ph_offset ph + k)) else 0.

(** It stays there while only the page of the trap context changes. *)
Lemma program_in_place s s' ms elf G0 :
  user_space s ms G0 → laid s ms (elf_plan elf) → loadable elf → user_space s' ms G0 →
  (∀ i v a f, page_of ms i v a f → v ≠ 0x7fffffe → ∀ j, rd (mem s') f j = rd (mem s) f j) →
  program_loaded s' ms elf.
Proof.
  intros Hus Hlaid [_ _ _ _ Hsegs _] Hus' Hsame ph k Hph Hk. rewrite Forall_forall in Hsegs.
  destruct (Hsegs ph Hph) as (? & ? & ? & ? & ? & ? & ?). set (v := (ph_virtual_addr ph + k) / 4096).
  destruct (laid_frame s ms _ _ (ph_segment elf ph) v Hus Hlaid) as (j & a & f & Hpg & Hp & Hb).
  { unfold elf_plan. apply elem_of_app. left. apply list_elem_of_fmap_2. exact Hph. }
  { subst v. cbn [ph_segment sg_lo sg_hi]. unfold ph_lo, ph_hi. zlia. }
  assert (fits 44 f) as Hf by (destruct Hus as (_ & _ & _ & _ & _ & _ & Hfr); apply (Hfr _ _ _ _ Hpg)).
  pose proof (user_space_translate _ _ _ _ _ _ _ Hus' Hpg) as Ht. unfold area_entry in Ht. rewrite Hp in Ht.
  eexists. split; [exact Ht|]. split; [by apply grants_perm|]. rewrite PTE_ppn_new by (done || apply seg_flags_fit).
  assert (v ≠ 0x7fffffe) as Hv by (subst v; zlia). specialize (Hb ((ph_virtual_addr ph + k) mod 4096) ltac:(zlia)).
  unfold rd_byte in *. rewrite (Hsame j v a f Hpg Hv), Hb. subst v. cbn [ph_segment sg_lo sg_data]. unfold ph_lo, ph_data, slice.
  replace (Z.to_nat _) with (Z.to_nat k) by zlia. case_decide.
  - rewrite lookup_take_lt, lookup_drop by lia. do 2 f_equal. lia.
  - by rewrite lookup_take_ge by lia.
Qed.

End load.

Section properties.
Context {A : Type} `{FrameAllocatorLaws A}.

Abbreviation avail s := (fa_avail (frame_allocator s)).

(** C9. Loading a program. For an executable whose segments are page-aligned,
    in ascending order and inside the file, and with enough free frames,
    [from_elf] succeeds: every address of every LOAD segment is mapped with the
    permissions of the segment and holds the byte of the file, or 0 behind the
    file's part; the stack below the returned stack pointer and the page of the
    trap context are mapped and zero; the entry point is the file's; all frames
    are new and the memory of everything else is unchanged. *)
Theorem from_elf_loads_program (ld : linker_symbols) (tp : Z) (parse : list Z → option ElfFile) (s : mm A) (elf_data : list Z) (elf : ElfFile) :
  mm_inv s → PhysPageNum_from_PhysAddr (PhysAddr_from (strampoline ld)) = Some tp → fits 44 tp →
  parse elf_data = Some elf → loadable elf →
  (3 + 3 * sum_list_with segment_pages (elf_plan elf) ≤ avail s)%nat →
  ∃ ms user_sp s', from_elf ld parse elf_data s = Done ((ms, user_sp, elf_entry elf), s') ∧
    user_space s' ms {[TRAMPOLINE_VPN := PTE_new tp 11]} ∧ added s s' ms ∧
    program_loaded s' ms elf ∧
    (∀ k, 0 < k ≤ USER_STACK_SIZE →
       ∃ f, MemorySet_translate (mem s') ms ((user_sp - k) / 4096) = Some (PTE_new f (Z.lor PTE_U (Z.lor PTE_W (Z.lor PTE_R PTE_V)))) ∧
         rd_byte (mem s') f ((user_sp - k) mod 4096) = 0) ∧
    (∀ ph, ph ∈ loads (elf_headers elf) → ph_virtual_addr ph + ph_mem_size ph ≤ user_sp - USER_STACK_SIZE - PAGE_SIZE) ∧
    ∃ f, MemorySet_translate (mem s') ms (floor (VirtAddr_from TRAP_CONTEXT_BASE)) = Some (PTE_new f (Z.lor PTE_W (Z.lor PTE_R PTE_V))) ∧
      ∀ o, 0 ≤ o < 4096 → rd_byte (mem s') f o = 0.
Proof.
  intros Hmm Htp Hfit Hparse Hload Hav.
  destruct (from_elf_ok ld tp parse s elf_data elf) as (ms & s' & E & Hus & Hadd & Hlaid & _); [done..|].
  pose proof Hload as [_ Hbytes _ _ Hsegs Hasc]. destruct (ascending_bounds elf _ 0 Hbytes Hsegs Hasc) as (He0 & _ & Hends); [lia..|].
  set (l := loads (elf_headers elf)) in *. set (e := image_end 0 l) in *. rewrite Forall_forall in Hsegs, Hends.
  eexists ms, _, s'. split; [exact E|]. split_and!; [done|done| | | |].
  - by apply (program_in_place s' s' ms elf {[TRAMPOLINE_VPN := PTE_new tp 11]}).
  - unfold USER_STACK_SIZE. intros k Hk.
    destruct (laid_byte s' ms _ _ (mkSeg (e + 1) (e + 4) 22 []) (((e + 4) * 4096 - k) / 4096) Hus Hlaid)
      as (f & Ht & Hb); [|cbn [sg_lo sg_hi]; zlia|].
    { unfold elf_plan. apply elem_of_app. right. apply elem_of_cons. by left. }
    exists f. split; [exact Ht|]. rewrite Hb by zlia. done.
  - intros ph Hph. specialize (Hends ph Hph). cbn beta in Hends. unfold ph_hi, USER_STACK_SIZE, PAGE_SIZE in *. zlia.
  - destruct (laid_byte s' ms _ _ (mkSeg 0x7fffffe 0x7ffffff 6 []) 0x7fffffe Hus Hlaid) as (f & Ht & Hb); [|cbn [sg_lo sg_hi]; lia|].
    { unfold elf_plan. apply elem_of_app. right. do 2 apply elem_of_cons, or_intror. by apply list_elem_of_singleton. }
    exists f. split; [exact Ht|]. intros o Ho. by rewrite Hb.
Qed.

End properties.

(** ** Witness

    The sample file of Elf.v, parsed by [ElfFile_new]. *)

Definition sample_image : list Z := elf64_image sample_header [sample_segment] (repeat 7 100).
Definition sample_read (n : nat) (l : list Z) : option (list Z) := if (n <=? length l)%nat then Some (take n l) else None.
Definition sample_elf : ElfFile := mkElf MAGIC [Some (mkPH (Some true) 0x10000 0x40 120 0x20 true false true)] 0x10000 sample_image.

Lemma sample_loadable : loadable sample_elf.
Proof.
  split; [done| |vm_compute; done| | |by vm_compute].
  - apply (bool_decide_unpack _). vm_compute. done.
  - constructor; [|constructor]. eexists. split; [done|]. by eexists.
  - constructor; [|constructor]. vm_compute. split_and!; done.
Qed.

Lemma from_elf_loads_program_witness :
  ∃ ms sp s' e, from_elf wit_ld (ElfFile_new sample_read) sample_image wit_frames = Done ((ms, sp, 0x10000), s') ∧
    MemorySet_translate (mem s') ms 0x10 = Some e ∧ writable e = false ∧ rd_byte (mem s') (PTE_ppn e) 0x1f = 7.
Proof.
  assert (ElfFile_new sample_read sample_image = Some sample_elf) as Hparse by (vm_compute; reflexivity).
  destruct (@from_elf_loads_program _ _ (stack_frame_laws 0x80500) wit_ld 0x80201 (ElfFile_new sample_read) wit_frames sample_image sample_elf
    wit_frames_inv) as (ms & sp & s' & E & _ & _ & Hseg & _);
    [reflexivity|unfold fits; lia|exact Hparse|exact sample_loadable|apply (bool_decide_unpack _); vm_compute; done|].
  destruct (Hseg (mkPH (Some true) 0x10000 0x40 120 0x20 true false true) 0x1f) as (e & Ht & (_ & _ & _ & Hw & _) & Hb);
    [by apply list_elem_of_singleton|simpl; lia|].
  exists ms, sp, s', e. split; [exact E|]. split; [exact Ht|]. split; [exact Hw|]. etrans; [exact Hb|]. vm_compute. reflexivity.
Defined.
