(* ===== verification/TaskId.v ===== *)
(** * Identifiers and kernel stacks (os/src/task/id.rs)

    [RecycleAllocator] hands out process ids and kernel-stack ids; a kernel
    stack is a framed area of the kernel space at a place computed from its id.
    Dropping a [PidHandle] or a [KernelStack] gives the id back. *)

From S2P Require Import Prelude Address PhysMem FrameAllocator PageTable MemorySet.

Record RecycleAllocator := mkRecycle { ra_current : Z; ra_recycled : list Z }.

Definition RecycleAllocator_new : RecycleAllocator := mkRecycle 1 [].

Definition RecycleAllocator_alloc : ST RecycleAllocator Z :=
  a ← st_get;
  match vec_pop (ra_recycled a) with
  | Some (id, rest) => st_put (mkRecycle (ra_current a) rest);; mret id
  | None =>
      let a := mkRecycle (ra_current a ⊞ 1) (ra_recycled a) in
      st_put a;; mret (ra_current a ⊟ 1)
  end.

Definition RecycleAllocator_dealloc (id : Z) : ST RecycleAllocator unit :=
  a ← st_get;
  rassert (id <? ra_current a);;
  rassert (negb (existsb (λ i, i =? id) (ra_recycled a)));;
  st_put (mkRecycle (ra_current a) (ra_recycled a ++ [id])).

(** The bottom and the top of a kernel stack. *)
Definition kernel_stack_position (app_id : Z) : Z * Z :=
  let top := TRAMPOLINE ⊟ (app_id ⊠ (KERNEL_STACK_SIZE ⊞ PAGE_SIZE)) in
  let bottom := top ⊟ KERNEL_STACK_SIZE in
  (bottom, top).

Definition get_top (kstack : Z) : Z := (kernel_stack_position kstack).2.

(** What kernel stacks live in: memory, [KERNEL_SPACE] and [KSTACK_ALLOCATOR]. *)
Record kspace (A : Type) := mkKspace {
  ks_mm : mm A;
  ks_space : MemorySet;
  ks_alloc : RecycleAllocator;
}.
Arguments mkKspace {A} _ _ _.
Arguments ks_mm {A} _.
Arguments ks_space {A} _.
Arguments ks_alloc {A} _.

Section kstacks.
Context {A : Type} `{FrameAllocator A}.

Definition ks_on_mm {X} (m : ST (mm A) X) : ST (kspace A) X :=
  zoom ks_mm (λ x s, mkKspace x (ks_space s) (ks_alloc s)) m.
Definition ks_on_alloc {X} (m : ST RecycleAllocator X) : ST (kspace A) X :=
  zoom ks_alloc (λ x s, mkKspace (ks_mm s) (ks_space s) x) m.
Definition ks_set_space (ms : MemorySet) : ST (kspace A) unit :=
  st_modify (λ s, mkKspace (ks_mm s) ms (ks_alloc s)).

Definition kstack_alloc : ST (kspace A) Z :=
  kstack_id ← ks_on_alloc RecycleAllocator_alloc;
  let '(kstack_bottom, kstack_top) := kernel_stack_position kstack_id in
  ms ← st_gets ks_space;
  ms ← ks_on_mm (insert_framed_area ms (VirtAddr_from kstack_bottom) (VirtAddr_from kstack_top)
                   (Z.lor PERM_R PERM_W));
  ks_set_space ms;;
  mret kstack_id.

(** [drop] of a [KernelStack]. *)
Definition KernelStack_drop (kstack : Z) : ST (kspace A) unit :=
  let '(kernel_stack_bottom, _) := kernel_stack_position kstack in
  let kernel_stack_bottom_va := VirtAddr_from kernel_stack_bottom in
  vpn ← unwrap (VirtPageNum_from_VirtAddr kernel_stack_bottom_va);
  ms ← st_gets ks_space;
  ms ← ks_on_mm (remove_area_with_start_vpn ms vpn);
  ks_set_space ms;;
  ks_on_alloc (RecycleAllocator_dealloc kstack).

End kstacks.

(** ** Identifiers are unique *)

Definition recycle_inv (a : RecycleAllocator) : Prop :=
  1 ≤ ra_current a < 2 ^ 64 - 1 ∧ NoDup (ra_recycled a) ∧
  Forall (λ i, 1 ≤ i < ra_current a) (ra_recycled a).

(** The ids handed out and not given back. *)
Definition id_in_use (a : RecycleAllocator) (i : Z) : Prop :=
  1 ≤ i < ra_current a ∧ i ∉ ra_recycled a.

Lemma recycle_alloc_ok a :
  recycle_inv a → ra_current a < 2 ^ 64 - 2 →
  ∃ i a', RecycleAllocator_alloc a = Done (i, a') ∧ recycle_inv a' ∧ 1 ≤ i < 2 ^ 64 ∧
    ¬ id_in_use a i ∧ (∀ x, id_in_use a' x ↔ id_in_use a x ∨ x = i).
Proof.
  intros (Hc & Hnd & Hr) Hb. unfold RecycleAllocator_alloc. erewrite bind_step by reflexivity.
  destruct (vec_pop (ra_recycled a)) as [[i rest]|] eqn:E.
  - apply vec_pop_Some in E. rewrite E in *. apply NoDup_app in Hnd as (Hnd & Hdis & _).
    apply Forall_app in Hr as [Hr Hi]. rewrite Forall_singleton in Hi.
    assert (i ∉ rest) by (intros Hin; apply (Hdis _ Hin), list_elem_of_singleton; done).
    eexists i, _. split; [reflexivity|]. unfold recycle_inv, id_in_use; simpl. rewrite E.
    split_and!; try done; try lia; [set_solver|].
    intros x. rewrite not_elem_of_app, list_elem_of_singleton.
    destruct (decide (x = i)); subst; naive_solver.
  - apply vec_pop_None in E. rewrite E in *.
    rewrite wadd_small by (unfold fits; lia).
    eexists _, _. split; [reflexivity|]. simpl. rewrite wsub_small, Z.add_simpl_r by (unfold fits; lia).
    unfold recycle_inv, id_in_use; simpl. rewrite E. split_and!; try done; try lia.
    intros x. set_unfold. lia.
Qed.

Lemma recycle_dealloc_ok a i :
  recycle_inv a → id_in_use a i →
  ∃ a', RecycleAllocator_dealloc i a = Done (tt, a') ∧ recycle_inv a' ∧
    ∀ x, id_in_use a' x ↔ id_in_use a x ∧ x ≠ i.
Proof.
  intros (Hc & Hnd & Hr) [Hi Hnin]. unfold RecycleAllocator_dealloc. erewrite bind_step by reflexivity.
  rewrite (proj2 (Z.ltb_lt i _)) by lia. erewrite bind_step by reflexivity.
  assert (existsb (λ j, j =? i) (ra_recycled a) = false) as ->.
  { apply not_true_is_false. rewrite existsb_exists. intros (j & Hj & ->%Z.eqb_eq).
    apply Hnin. by apply list_elem_of_In. }
  erewrite bind_step by reflexivity. eexists. split; [reflexivity|].
  unfold recycle_inv, id_in_use; simpl. split_and!; try lia.
  - apply NoDup_app. split_and!; [done|set_solver|apply NoDup_singleton].
  - apply Forall_app. split; [done|]. by apply Forall_singleton.
  - intros x. set_solver.
Qed.

Lemma recycle_dealloc_panic a i :
  ¬ id_in_use a i → 1 ≤ i → RecycleAllocator_dealloc i a = Panic.
Proof.
  intros Hn Hi. unfold RecycleAllocator_dealloc. erewrite bind_step by reflexivity.
  destruct (Z.ltb_spec i (ra_current a)); [|done]. erewrite bind_step by reflexivity.
  assert (existsb (λ j, j =? i) (ra_recycled a) = true) as ->; [|done].
  apply existsb_exists. exists i. split; [|apply Z.eqb_refl].
  apply list_elem_of_In, dec_stable. intros Hnin. by apply Hn.
Qed.

(** ** Kernel stacks do not overlap *)

Lemma kernel_stack_position_value i :
  0 ≤ i ≤ 2 ^ 24 →
  kernel_stack_position i = (2 ^ 64 - 4096 - i * 12288 - 8192, 2 ^ 64 - 4096 - i * 12288).
Proof.
  intros. unfold kernel_stack_position.
  change TRAMPOLINE with (2 ^ 64 - 4096). change (KERNEL_STACK_SIZE ⊞ PAGE_SIZE) with 12288.
  change KERNEL_STACK_SIZE with 8192.
  rewrite wmul_small by (unfold fits; lia). rewrite (wsub_small 64 (2 ^ 64 - 4096)) by (unfold fits; lia).
  rewrite wsub_small by (unfold fits; lia). done.
Qed.

(** ** Properties *)

(** Process and kernel-stack ids are unique: [alloc] never returns an id in
    use, [dealloc] accepts the ids in use and panics on every other one, and
    the two change the set of ids in use by exactly that id. *)
Theorem recycle_ids_unique (a : RecycleAllocator) :
  recycle_inv a → ra_current a < 2 ^ 64 - 2 →
  (∃ i a', RecycleAllocator_alloc a = Done (i, a') ∧ recycle_inv a' ∧ ¬ id_in_use a i ∧
     ∀ x, id_in_use a' x ↔ id_in_use a x ∨ x = i) ∧
  (∀ i, 1 ≤ i →
     (id_in_use a i ∧ ∃ a', RecycleAllocator_dealloc i a = Done (tt, a') ∧ recycle_inv a' ∧
        ∀ x, id_in_use a' x ↔ id_in_use a x ∧ x ≠ i) ∨
     (¬ id_in_use a i ∧ RecycleAllocator_dealloc i a = Panic)).
Proof.
  intros Hinv Hb. split.
  - destruct (recycle_alloc_ok a Hinv Hb) as (i & a' & ? & ? & _ & ? & ?). by exists i, a'.
  - intros i Hi. destruct (decide (1 ≤ i < ra_current a ∧ i ∉ ra_recycled a)) as [Hu|Hu].
    + left. split; [done|]. by apply recycle_dealloc_ok.
    + right. split; [done|]. by apply recycle_dealloc_panic.
Qed.

Lemma recycle_ids_unique_witness :
  let a := mkRecycle 5 [3; 2] in
  recycle_inv a ∧ (∃ a', RecycleAllocator_alloc a = Done (2, a') ∧ ¬ id_in_use a 2).
Proof.
  assert (Hinv : recycle_inv (mkRecycle 5 [3; 2])).
  { unfold recycle_inv; simpl. split_and!; try lia; [by apply (bool_decide_unpack _)|repeat constructor; lia]. }
  split; [exact Hinv|].
  destruct (recycle_ids_unique (mkRecycle 5 [3; 2]) Hinv ltac:(simpl; lia)) as [(i & a' & E & _ & Hn & _) _].
  exists a'. revert Hn. injection E as <- <-. done.
Defined.

(** C38. Kernel stacks are 8 KiB and pairwise disjoint, with at least a page
    that belongs to no stack between two of them and below the trampoline, for
    the stacks 1 to 2^24; all of them are in the upper 256 GiB of the address
    space, the part that Sv39 can map. *)
Theorem kernel_stacks_disjoint (i j : Z) :
  1 ≤ i → i < j → j ≤ 2 ^ 24 →
  let '(bi, ti) := kernel_stack_position i in
  let '(bj, tj) := kernel_stack_position j in
  ti - bi = KERNEL_STACK_SIZE ∧ tj + PAGE_SIZE ≤ bi ∧ ti + PAGE_SIZE ≤ TRAMPOLINE ∧
  page_offset bi = 0 ∧ 2 ^ 64 - 2 ^ 38 ≤ bj.
Proof.
  intros Hi Hij Hj. rewrite !kernel_stack_position_value by lia.
  change TRAMPOLINE with (2 ^ 64 - 4096). unfold KERNEL_STACK_SIZE, PAGE_SIZE.
  split_and!; try lia. rewrite page_offset_mod. zlia.
Qed.

Lemma kernel_stacks_disjoint_witness :
  (kernel_stack_position 2).2 + PAGE_SIZE ≤ (kernel_stack_position 1).1.
Proof.
  pose proof (kernel_stacks_disjoint 1 2 ltac:(lia) ltac:(lia) ltac:(lia)) as H.
  destruct (kernel_stack_position 1), (kernel_stack_position 2). apply H.
Defined.
