(* ===== verification/FdTable.v ===== *)
(** * File-descriptor tables (os/src/task/task.rs: alloc_fd; os/src/syscall/fs.rs:
    sys_close, sys_dup, sys_dup3 and the table updates of sys_openat, sys_pipe2)

    A table is a vector of optional files; what a file is does not matter
    here. The system calls return the new descriptor or [-1]. *)

From S2P Require Import Prelude.

Section fd.
Context {F : Type}.

Abbreviation fd_table := (list (option F)).

(** The first position of [l] that holds [None]. *)
Fixpoint find_none (l : fd_table) : option nat :=
  match l with
  | [] => None
  | None :: _ => Some 0%nat
  | Some _ :: l => S <$> find_none l
  end.

Definition alloc_fd : ST fd_table nat :=
  t ← st_get;
  match find_none t with
  | Some fd => mret fd
  | None => st_put (t ++ [None]);; mret (length (t ++ [None]) - 1)%nat
  end.

(** [fd_table[fd] = f], with its bounds check. *)
Definition set_fd (fd : nat) (f : option F) : ST fd_table unit :=
  t ← st_get;
  rassert (bool_decide (fd < length t)%nat);;
  st_put (<[fd := f]> t).

(** [fd < fd_table.len() && !fd_table[fd].is_none()], with the file. *)
Definition open_fd (t : fd_table) (fd : Z) : option F :=
  if fd <? Z.of_nat (length t) then mjoin (t !! Z.to_nat fd) else None.

Definition sys_close (fd : Z) : ST fd_table Z :=
  t ← st_get;
  if Z.of_nat (length t) <=? fd then mret (-1)
  else match t !! Z.to_nat fd with
       | Some (Some _) => st_put (<[Z.to_nat fd := None]> t);; mret 0
       | Some None => mret (-1)
       | None => panic
       end.

Definition sys_dup (fd : Z) : ST fd_table Z :=
  t ← st_get;
  match open_fd t fd with
  | Some _ =>
      newfd ← alloc_fd;
      t ← st_get;
      f ← unwrap (t !! Z.to_nat fd);
      set_fd newfd f;;
      mret (Z.of_nat newfd)
  | None => mret (-1)
  end.

(** [for _ in fd_table.len()..newfd + 1 { fd_table.push(None) }]. *)
Definition grow_to (n : Z) (t : fd_table) : fd_table :=
  t ++ replicate (Z.to_nat (n - Z.of_nat (length t))) None.

Definition sys_dup3 (fd newfd : Z) : ST fd_table Z :=
  t ← st_get;
  match open_fd t fd with
  | Some _ =>
      st_modify (grow_to (newfd ⊞ 1));;
      t ← st_get;
      f ← unwrap (t !! Z.to_nat fd);
      set_fd (Z.to_nat newfd) f;;
      mret (to_signed 64 newfd)
  | None => mret (-1)
  end.

(** The end of [sys_openat]: a descriptor for the file just opened. *)
Definition install_fd (f : F) : ST fd_table Z :=
  fd ← alloc_fd;
  set_fd fd (Some f);;
  mret (Z.of_nat fd).

(** The two descriptors of [sys_pipe2]. *)
Definition install_pipe (pipe_read pipe_write : F) : ST fd_table (Z * Z) :=
  read_fd ← alloc_fd;
  set_fd read_fd (Some pipe_read);;
  write_fd ← alloc_fd;
  set_fd write_fd (Some pipe_write);;
  mret (Z.of_nat read_fd, Z.of_nat write_fd).

(** ** Lemmas *)

(** [fd] is the lowest descriptor that is not open. *)
Definition lowest_free (t : fd_table) (fd : nat) : Prop :=
  mjoin (t !! fd) = None ∧ (fd ≤ length t)%nat ∧
  ∀ i, (i < fd)%nat → is_Some (mjoin (t !! i)).

Lemma find_none_spec t :
  match find_none t with
  | Some fd => lowest_free t fd ∧ (fd < length t)%nat
  | None => lowest_free t (length t)
  end.
Proof.
  unfold lowest_free. induction t as [|[f|] t IH]; simpl.
  - split_and!; [done|done|lia].
  - destruct (find_none t) as [fd|]; simpl.
    + destruct IH as [(? & ? & Hlow) ?]. split_and!; [done|lia| |lia].
      intros [|i] Hi; [by exists f|]. apply Hlow. lia.
    + destruct IH as (? & ? & Hlow). split_and!; [done|lia|].
      intros [|i] Hi; [by exists f|]. apply Hlow. lia.
  - split_and!; [done|lia|lia|lia].
Qed.

Lemma alloc_fd_ok t :
  ∃ fd t', alloc_fd t = Done (fd, t') ∧ lowest_free t fd ∧ (fd < length t')%nat ∧
    t' `prefix_of` t ++ [None] ∧ t `prefix_of` t' ∧ ∀ i, mjoin (t' !! i) = mjoin (t !! i).
Proof.
  unfold alloc_fd. erewrite bind_step by reflexivity. pose proof (find_none_spec t) as Hf.
  destruct (find_none t) as [fd|].
  - destruct Hf. eexists fd, t. split_and!; try done. by apply prefix_app_r.
  - eexists _, _. split; [reflexivity|]. rewrite length_app. simpl.
    replace (length t + 1 - 1)%nat with (length t) by lia. split_and!; [done|lia|done|by apply prefix_app_r|].
    intros i. destruct (decide (i < length t)%nat).
    + by rewrite lookup_app_l.
    + rewrite lookup_app_r, (lookup_ge_None_2 t) by lia. by destruct (i - length t)%nat.
Qed.

Lemma set_fd_ok t fd f :
  (fd < length t)%nat → set_fd fd f t = Done (tt, <[fd := f]> t).
Proof.
  intros. unfold set_fd. erewrite bind_step by reflexivity. by rewrite bool_decide_true.
Qed.

Lemma lookup_set_fd (t : fd_table) fd f i :
  (fd < length t)%nat → mjoin (<[fd := f]> t !! i) = if decide (i = fd) then f else mjoin (t !! i).
Proof.
  intros. case_decide as E; subst.
  - by rewrite list_lookup_insert_eq.
  - by rewrite list_lookup_insert_ne.
Qed.

Lemma open_fd_Some t fd f :
  0 ≤ fd → open_fd t fd = Some f → t !! Z.to_nat fd = Some (Some f) ∧ fd < Z.of_nat (length t).
Proof.
  unfold open_fd. intros Hfd. destruct (Z.ltb_spec fd (Z.of_nat (length t))); [|done].
  destruct (t !! Z.to_nat fd) as [o|]; simpl; [|done]. by intros ->.
Qed.

(** ** Properties *)

(** [install_fd] (the end of [sys_openat]) gives the file the lowest
    descriptor that is not open and changes no other one. *)
Theorem install_fd_lowest (t : fd_table) (f : F) :
  ∃ fd t', install_fd f t = Done (Z.of_nat fd, t') ∧ lowest_free t fd ∧
    ∀ i, mjoin (t' !! i) = if decide (i = fd) then Some f else mjoin (t !! i).
Proof.
  destruct (alloc_fd_ok t) as (fd & t1 & E & Hlow & Hlen & _ & _ & Hsame).
  exists fd, (<[fd := Some f]> t1). split_and!; [|done|].
  - unfold install_fd. rewrite (bind_step _ _ _ _ _ E), (bind_step _ _ _ _ _ (set_fd_ok _ _ _ Hlen)). done.
  - intros i. rewrite lookup_set_fd by done. case_decide; [done|]. apply Hsame.
Qed.

(** [sys_dup] of an open descriptor opens the lowest free one on the same
    file and changes no other; [sys_dup3] does so for the descriptor asked
    for, growing the table if needed; [sys_close] closes exactly its argument.
    On a descriptor that is not open all three return -1 and change nothing. *)
Theorem fd_calls_exact (t : fd_table) (fd newfd : Z) :
  0 ≤ fd < 2 ^ 63 → 0 ≤ newfd < 2 ^ 63 →
  match open_fd t fd with
  | Some f =>
      (∃ n t', sys_dup fd t = Done (Z.of_nat n, t') ∧ lowest_free t n ∧
         ∀ i, mjoin (t' !! i) = if decide (i = n) then Some f else mjoin (t !! i)) ∧
      (∃ t', sys_dup3 fd newfd t = Done (newfd, t') ∧
         ∀ i, mjoin (t' !! i) = if decide (i = Z.to_nat newfd) then Some f else mjoin (t !! i)) ∧
      (∃ t', sys_close fd t = Done (0, t') ∧
         ∀ i, mjoin (t' !! i) = if decide (i = Z.to_nat fd) then None else mjoin (t !! i))
  | None =>
      sys_dup fd t = Done (-1, t) ∧ sys_dup3 fd newfd t = Done (-1, t) ∧ sys_close fd t = Done (-1, t)
  end.
Proof.
  intros Hfd Hnew. destruct (open_fd t fd) as [f|] eqn:Eo.
  - destruct (open_fd_Some t fd f) as [Hf Hlt]; [lia|done|]. split_and!.
    + destruct (alloc_fd_ok t) as (n & t1 & E & Hlow & Hlen & _ & Hpre & Hsame).
      exists n, (<[n := Some f]> t1). split_and!; [|done|].
      * unfold sys_dup. erewrite bind_step by reflexivity. rewrite Eo, (bind_step _ _ _ _ _ E).
        erewrite bind_step by reflexivity. rewrite (prefix_lookup_Some _ _ _ _ Hf Hpre).
        erewrite bind_step by reflexivity. by rewrite (bind_step _ _ _ _ _ (set_fd_ok _ _ _ Hlen)).
      * intros i. rewrite lookup_set_fd by done. case_decide; [done|]. apply Hsame.
    + set (t1 := grow_to (newfd + 1) t).
      assert (Z.to_nat newfd < length t1)%nat as Hlen.
      { subst t1. unfold grow_to. rewrite length_app, length_replicate. lia. }
      exists (<[Z.to_nat newfd := Some f]> t1). split.
      * unfold sys_dup3. erewrite bind_step by reflexivity. rewrite Eo, wadd_small by (unfold fits; lia).
        erewrite bind_step by reflexivity. erewrite bind_step by reflexivity. fold t1.
        rewrite (prefix_lookup_Some t t1 _ _ Hf) by (by apply prefix_app_r).
        erewrite bind_step by reflexivity. rewrite (bind_step _ _ _ _ _ (set_fd_ok _ _ _ Hlen)).
        unfold to_signed. rewrite wrap_small by (unfold fits; lia).
        by rewrite (proj2 (Z.ltb_lt newfd (2 ^ (64 - 1)))) by lia.
      * intros i. rewrite lookup_set_fd by done. case_decide; [done|]. subst t1. unfold grow_to.
        destruct (decide (i < length t)%nat).
        -- by rewrite lookup_app_l.
        -- rewrite lookup_app_r, (lookup_ge_None_2 t) by lia.
           destruct (replicate _ _ !! _) as [o|] eqn:E; [|done]. by apply lookup_replicate in E as [-> _].
    + exists (<[Z.to_nat fd := None]> t). split.
      * unfold sys_close. erewrite bind_step by reflexivity.
        rewrite (proj2 (Z.leb_gt (Z.of_nat (length t)) fd)) by lia. by rewrite Hf.
      * intros i. apply lookup_set_fd. lia.
  - unfold sys_dup, sys_dup3, sys_close. erewrite !bind_step by reflexivity. rewrite Eo.
    split_and!; [done|done|]. unfold open_fd in Eo.
    destruct (Z.ltb_spec fd (Z.of_nat (length t))) as [Hlt|]; [|by rewrite (proj2 (Z.leb_le _ fd)) by lia].
    rewrite (proj2 (Z.leb_gt _ fd)) by lia.
    destruct (lookup_lt_is_Some_2 t (Z.to_nat fd)) as [o Ho]; [lia|]. rewrite Ho in *. simpl in Eo. by subst.
Qed.

End fd.

(** ** Witnesses *)

Lemma fd_calls_exact_witness :
  ∃ t', sys_dup3 1 5 [Some 10; Some 11; None] = Done (5, t') ∧
    ∀ i, mjoin (t' !! i) = if decide (i = 5%nat) then Some 11 else mjoin ([Some 10; Some 11; None] !! i).
Proof.
  destruct (fd_calls_exact [Some 10; Some 11; None] 1 5 ltac:(lia) ltac:(lia)) as (_ & (t' & E & Ht) & _).
  exists t'. split; [exact E|exact Ht].
Defined.
