(* ===== verification/Trap.v ===== *)
(** * Trap contexts (os/src/trap/context.rs)

    The registers of a process while it is in the kernel: 37 words at the start
    of its trap-context page, in the layout of the [repr(C)] struct. *)

From S2P Require Import Prelude Address PhysMem.

Record TrapContext := mkTrapContext {
  tc_x : list Z;
  tc_sstatus : Z;
  tc_sepc : Z;
  tc_kernel_satp : Z;
  tc_kernel_sp : Z;
  tc_trap_handler : Z;
}.

Definition set_sp (sp : Z) (cx : TrapContext) : TrapContext :=
  mkTrapContext (<[2%nat := sp]> (tc_x cx)) (tc_sstatus cx) (tc_sepc cx) (tc_kernel_satp cx)
    (tc_kernel_sp cx) (tc_trap_handler cx).

(** [app_init_context]; [sstatus] is what the register holds, of which
    [set_spp(SPP::User)] clears bit 8. *)
Definition app_init_context (sstatus entry sp kernel_satp kernel_sp trap_handler : Z) : TrapContext :=
  let cx := mkTrapContext (replicate 32 0) (Z.clearbit sstatus 8) entry kernel_satp kernel_sp trap_handler in
  set_sp sp cx.

(** The words of the struct, and the struct stored in a page. *)
Definition trap_words (cx : TrapContext) : list Z :=
  tc_x cx ++ [tc_sstatus cx; tc_sepc cx; tc_kernel_satp cx; tc_kernel_sp cx; tc_trap_handler cx].

Fixpoint wr_words (m : pmem) (ppn i : Z) (ws : list Z) : pmem :=
  match ws with
  | [] => m
  | w :: ws => wr_words (wr m ppn i w) ppn (i + 1) ws
  end.

(** [*trap_cx = cx] and reading through [get_trap_cx]. *)
Definition write_trap_cx (m : pmem) (ppn : Z) (cx : TrapContext) : pmem := wr_words m ppn 0 (trap_words cx).

Definition read_trap_cx (m : pmem) (ppn : Z) : TrapContext :=
  mkTrapContext (rd m ppn <$> zrange 0 32) (rd m ppn 32) (rd m ppn 33) (rd m ppn 34) (rd m ppn 35) (rd m ppn 36).

(** The word index of [x[i]] and of the field [kernel_sp]. *)
Definition TC_X (i : Z) : Z := i.
Definition TC_SEPC : Z := 33.
Definition TC_KERNEL_SP : Z := 35.

Lemma rd_wr_words m p i ws q j :
  rd (wr_words m p i ws) q j =
    if decide (q = p ∧ i ≤ j < i + Z.of_nat (length ws))
    then default 0 (ws !! Z.to_nat (j - i)) else rd m q j.
Proof.
  revert m i. induction ws as [|w ws IH]; intros m i; simpl.
  - rewrite decide_False by lia. done.
  - rewrite IH, rd_wr. destruct (decide (p = q ∧ i = j)) as [[-> ->]|Hne].
    + rewrite decide_False, decide_True by lia. by rewrite Z.sub_diag.
    + destruct (decide (q = p ∧ i + 1 ≤ j < i + 1 + Z.of_nat (length ws))) as [[-> ?]|].
      * rewrite decide_True by lia. by replace (Z.to_nat (j - i)) with (S (Z.to_nat (j - (i + 1)))) by lia.
      * rewrite decide_False by lia. done.
Qed.

Lemma mem_wf_wr_words m p i ws : mem_wf m → Forall (fits 64) ws → mem_wf (wr_words m p i ws).
Proof.
  intros Hm Hws. revert m i Hm. induction Hws as [|w ws Hw Hws IH]; intros m i Hm; simpl; [done|].
  apply IH. by apply mem_wf_wr.
Qed.

(** ** Properties *)

(** A trap context survives being stored: reading the page back gives the
    context that was written, and no other page changes. *)
Theorem trap_context_roundtrip (m : pmem) (ppn : Z) (cx : TrapContext) :
  length (tc_x cx) = 32%nat →
  read_trap_cx (write_trap_cx m ppn cx) ppn = cx ∧
  ∀ q i, q ≠ ppn → rd (write_trap_cx m ppn cx) q i = rd m q i.
Proof.
  intros Hlen. unfold write_trap_cx. split.
  - assert (∀ j, 0 ≤ j < 37 → rd (wr_words m ppn 0 (trap_words cx)) ppn j =
              default 0 (trap_words cx !! Z.to_nat j)) as Hrd.
    { intros j Hj. rewrite rd_wr_words, decide_True; [by rewrite Z.sub_0_r|].
      unfold trap_words. rewrite length_app, Hlen. simpl. lia. }
    destruct cx as [x st se sa sp th]. unfold read_trap_cx, trap_words in *.
    cbn [tc_x tc_sstatus tc_sepc tc_kernel_satp tc_kernel_sp tc_trap_handler] in *. f_equal.
    + apply list_eq. intros i. rewrite list_lookup_fmap.
      destruct (decide (i < 32)%nat).
      * unfold zrange. rewrite lookup_seqZ_lt by lia. simpl. rewrite Hrd by lia.
        rewrite lookup_app_l by lia. rewrite Z.add_0_l, Nat2Z.id.
        by destruct (lookup_lt_is_Some_2 x i) as [w ->]; [lia|].
      * rewrite (lookup_ge_None_2 (zrange 0 32)), (lookup_ge_None_2 x) by (rewrite ?length_zrange; lia). done.
    + rewrite Hrd, lookup_app_r, Hlen by lia. done.
    + rewrite Hrd, lookup_app_r, Hlen by lia. done.
    + rewrite Hrd, lookup_app_r, Hlen by lia. done.
    + rewrite Hrd, lookup_app_r, Hlen by lia. done.
    + rewrite Hrd, lookup_app_r, Hlen by lia. done.
  - intros q i Hq. rewrite rd_wr_words. by rewrite decide_False by naive_solver.
Qed.

Lemma trap_context_roundtrip_witness :
  read_trap_cx (write_trap_cx ∅ 0x80300 (app_init_context 0 0x10000 0x5000 0x8000000000080123 0x1000 0x80200000)) 0x80300
  = app_init_context 0 0x10000 0x5000 0x8000000000080123 0x1000 0x80200000.
Proof. apply (trap_context_roundtrip ∅ 0x80300). reflexivity. Defined.
