(* ===== verification/Asm.v ===== *)
(** * Assembly (os/src/trap/trap.S, os/src/task/switch.S, os/src/entry.asm;
    [trap_return] of os/src/trap/mod.rs)

    The entry to and the exit from the kernel, and the switch between two kernel
    stacks, as programs of the machine they run on: the registers, the control
    registers that the code uses, the privilege mode, and physical memory seen
    through the page table that [satp] names. A load, store or fetch that the
    page table does not permit, a misaligned address or one that is not
    canonical is a trap inside the kernel, which ends in a panic
    ([trap_from_kernel]). The programs are straight-line code, so the position
    in them is not part of the state; every instruction is fetched through the
    page table of its time, since the code changes it under itself. The machine
    has no translation cache: [sfence.vma] and [fence.i] do nothing. *)

From S2P Require Import Prelude Address PhysMem FrameAllocator PageTable Trap.

Module Riscv.

(** ** The machine *)

Record machine := mkMachine {
  x : list Z;
  pc : Z;
  user : bool;
  satp : Z;
  sscratch : Z;
  sstatus : Z;
  sepc : Z;
  stvec : Z;
  memory : pmem;
}.

Definition set_x l m := mkMachine l (pc m) (user m) (satp m) (sscratch m) (sstatus m) (sepc m) (stvec m) (memory m).
Definition set_pc v m := mkMachine (x m) v (user m) (satp m) (sscratch m) (sstatus m) (sepc m) (stvec m) (memory m).
Definition set_memory p m := mkMachine (x m) (pc m) (user m) (satp m) (sscratch m) (sstatus m) (sepc m) (stvec m) p.

Inductive csr := Satp | Sscratch | Sstatus | Sepc | Stvec.

Definition get_csr (c : csr) (m : machine) : Z :=
  match c with Satp => satp m | Sscratch => sscratch m | Sstatus => sstatus m | Sepc => sepc m | Stvec => stvec m end.
Definition set_csr (c : csr) (v : Z) (m : machine) : machine :=
  match c with
  | Satp => mkMachine (x m) (pc m) (user m) v (sscratch m) (sstatus m) (sepc m) (stvec m) (memory m)
  | Sscratch => mkMachine (x m) (pc m) (user m) (satp m) v (sstatus m) (sepc m) (stvec m) (memory m)
  | Sstatus => mkMachine (x m) (pc m) (user m) (satp m) (sscratch m) v (sepc m) (stvec m) (memory m)
  | Sepc => mkMachine (x m) (pc m) (user m) (satp m) (sscratch m) (sstatus m) v (stvec m) (memory m)
  | Stvec => mkMachine (x m) (pc m) (user m) (satp m) (sscratch m) (sstatus m) (sepc m) v (memory m)
  end.

(** [x0] is zero. *)
Definition reg (n : nat) (m : machine) : Z := match n with O => 0 | S _ => default 0 (x m !! n) end.
Definition set_reg (n : nat) (v : Z) (m : machine) : machine := match n with O => m | S _ => set_x (<[n := v]> (x m)) m end.

Abbreviation ra := 1%nat.
Abbreviation sp := 2%nat.
Abbreviation t0 := 5%nat.
Abbreviation t1 := 6%nat.
Abbreviation t2 := 7%nat.
Abbreviation a0 := 10%nat.
Abbreviation a1 := 11%nat.
(** [s0], .., [s11] *)
Definition s_ (n : nat) : nat := if decide (n < 2)%nat then (8 + n)%nat else (16 + n)%nat.

Inductive instr :=
| Sd (rs : nat) (off : Z) (base : nat)
| Ld (rd : nat) (off : Z) (base : nat)
| Csrrw (rd : nat) (c : csr) (rs : nat)
| Csrr (rd : nat) (c : csr)
| Csrw (c : csr) (rs : nat)
| Mv (rd rs : nat)
| Li (rd : nat) (v : Z)
| SfenceVma
| Jr (rs : nat)
| Sret.

(** The entry of a page, if supervisor mode may use it. *)
Definition page_for (need : Z → bool) (vpn : Z) : ST machine Z :=
  m ← st_get;
  rassert (satp m / 2 ^ 60 =? 8);;
  e ← unwrap (translate (memory m) (from_token (satp m)) vpn);
  rassert (is_valid e && need e && negb (PTE_has PTE_U e));;
  mret (PTE_ppn e).

Definition canonical (va : Z) : bool := (va / 2 ^ 38 =? 0) || (va / 2 ^ 38 =? 2 ^ 26 - 1).

(** The word at a virtual address: the page and the index in it. *)
Definition access (need : Z → bool) (va : Z) : ST machine (Z * Z) :=
  rassert (canonical va && (va mod 8 =? 0));;
  p ← page_for need (wrap 27 (va / 4096));
  mret (p, va mod 4096 / 8).

(** [sret]: back to the mode in SPP (bit 8), with the interrupt enable of SPIE
    (bit 5). *)
Definition sret_status (s : Z) : Z :=
  Z.clearbit (Z.setbit (if Z.testbit s 5 then Z.setbit s 1 else Z.clearbit s 1) 5) 8.
Definition do_sret (m : machine) : machine :=
  mkMachine (x m) (sepc m) (negb (Z.testbit (sstatus m) 8)) (satp m) (sscratch m) (sret_status (sstatus m)) (sepc m) (stvec m) (memory m).

Definition exec_instr (i : instr) : ST machine unit :=
  m ← st_get;
  match i with
  | Sd rs off base =>
      '(p, j) ← access writable (reg base m ⊞ off);
      st_put (set_memory (wr (memory m) p j (reg rs m)) m)
  | Ld rd_ off base =>
      '(p, j) ← access readable (reg base m ⊞ off);
      st_put (set_reg rd_ (rd (memory m) p j) m)
  | Csrrw rd_ c rs => st_put (set_reg rd_ (get_csr c m) (set_csr c (reg rs m) m))
  | Csrr rd_ c => st_put (set_reg rd_ (get_csr c m) m)
  | Csrw c rs => st_put (set_csr c (reg rs m) m)
  | Mv rd_ rs => st_put (set_reg rd_ (reg rs m) m)
  | Li rd_ v => st_put (set_reg rd_ v m)
  | SfenceVma => mret tt
  | Jr rs => st_put (set_pc (reg rs m) m)
  | Sret => st_put (do_sret m)
  end.

(** The code is on the virtual page [vpn], which must be the frame [ppn]. *)
Definition fetch_code (vpn ppn : Z) : ST machine unit :=
  p ← page_for executable vpn; rassert (p =? ppn).

Definition run (vpn ppn : Z) (code : list instr) : ST machine unit :=
  for_each code (λ i, fetch_code vpn ppn;; exec_instr i).

(** ** trap.S *)

Definition SAVE_GP (n : nat) : instr := Sd n (Z.of_nat n * 8) sp.
Definition LOAD_GP (n : nat) : instr := Ld n (Z.of_nat n * 8) sp.

Definition __alltraps : list instr :=
  [Csrrw sp Sscratch sp; Sd 1 (1 * 8) sp; Sd 3 (3 * 8) sp] ++
  (SAVE_GP <$> seq 5 27) ++
  [Csrr t0 Sstatus; Csrr t1 Sepc; Sd t0 (32 * 8) sp; Sd t1 (33 * 8) sp; Csrr t2 Sscratch; Sd t2 (2 * 8) sp;
   Ld t0 (34 * 8) sp; Ld t1 (36 * 8) sp; Ld sp (35 * 8) sp; Csrw Satp t0; SfenceVma; Jr t1].

Definition __restore : list instr :=
  [Csrw Satp a1; SfenceVma; Csrw Sscratch a0; Mv sp a0; Ld t0 (32 * 8) sp; Ld t1 (33 * 8) sp; Csrw Sstatus t0; Csrw Sepc t1;
   Ld 1 (1 * 8) sp; Ld 3 (3 * 8) sp] ++
  (LOAD_GP <$> seq 5 27) ++
  [Ld sp (2 * 8) sp; Sret].

(** What the hardware does at a trap from user mode. *)
Definition trap_status (s : Z) : Z :=
  Z.clearbit (Z.clearbit (if Z.testbit s 1 then Z.setbit s 5 else Z.clearbit s 5) 1) 8.
Definition take_trap (m : machine) : machine :=
  mkMachine (x m) (stvec m) false (satp m) (sscratch m) (trap_status (sstatus m)) (pc m) (stvec m) (memory m).

(** [set_user_trap_entry] *)
Definition set_user_trap_entry (m : machine) : machine := set_csr Stvec TRAMPOLINE m.

(** [trap_return]: the symbols of the assembly are parameters; [user_satp] is
    the token of the running task. [tp] is the frame of the trampoline. The
    instructions have no branches and are run one after the other; before each
    of them the page of the code is looked up in the page table in force, and
    [pc] is not advanced within the page. *)
Definition trap_return (alltraps restore tp user_satp : Z) : ST machine unit :=
  st_modify set_user_trap_entry;;
  let restore_va := restore ⊟ alltraps ⊞ TRAMPOLINE in
  st_modify (λ m, set_pc restore_va (set_reg a1 user_satp (set_reg a0 TRAP_CONTEXT_BASE m)));;
  run 0x7ffffff tp __restore.

(** The kernel's entry for a trap from user mode. *)
Definition trap_entry (tp : Z) : ST machine unit :=
  st_modify take_trap;; run 0x7ffffff tp __alltraps.

(** ** switch.S *)

Definition SAVE_SN (n : nat) : instr := Sd (s_ n) ((Z.of_nat n + 2) * 8) a0.
Definition LOAD_SN (n : nat) : instr := Ld (s_ n) ((Z.of_nat n + 2) * 8) a1.

Definition __switch : list instr :=
  [Sd sp 8 a0; Sd ra 0 a0] ++ (SAVE_SN <$> seq 0 12) ++
  [Ld ra 0 a1] ++ (LOAD_SN <$> seq 0 12) ++ [Ld sp 8 a1; Jr ra].

(** ** entry.asm: [la sp, boot_stack_top; call rust_main] *)
Definition _start (boot_stack_top rust_main : Z) : list instr := [Li sp boot_stack_top; Li ra rust_main; Jr ra].

(** ** Memory through the page tables of the trampoline *)

Section trampoline.
Context (cx tp : Z).

(** Only the page of the trap context differs. *)
Definition off_page (m0 m : pmem) : Prop := ∀ q i, q ≠ cx → rd m q i = rd m0 q i.

(** The page [vpn] is the frame [f] and permits [need], whatever is written to
    the trap context. *)
Definition sees (m0 : pmem) (sat vpn f : Z) (need : Z → bool) : Prop :=
  sat / 2 ^ 60 = 8 ∧
  ∀ m, off_page m0 m → ∃ e, translate m (from_token sat) vpn = Some e ∧
    is_valid e = true ∧ need e = true ∧ PTE_has PTE_U e = false ∧ PTE_ppn e = f.

Definition sees_code (m0 : pmem) (sat : Z) : Prop := sees m0 sat 0x7ffffff tp executable.
Definition sees_context (m0 : pmem) (sat : Z) : Prop := sees m0 sat 0x7fffffe cx (λ e, readable e && writable e).

Lemma page_ok m0 sat vpn f need m :
  sees m0 sat vpn f need → satp m = sat → off_page m0 (memory m) → page_for need vpn m = Done (f, m).
Proof.
  intros [Hm Hs] Hsat Hoff. destruct (Hs _ Hoff) as (e & Ht & Hv & Hn & Hu & Hp). unfold page_for.
  erewrite bind_step by reflexivity. rewrite Hsat, Hm. erewrite bind_step by reflexivity.
  rewrite Ht. erewrite bind_step by reflexivity. rewrite Hv, Hn, Hu. erewrite bind_step by reflexivity. by rewrite Hp.
Qed.

Lemma sees_weaken m0 sat vpn f (p q : Z → bool) : (∀ e, p e = true → q e = true) → sees m0 sat vpn f p → sees m0 sat vpn f q.
Proof. intros Hpq [? Hs]. split; [done|]. intros m Hm. destruct (Hs m Hm) as (e & ? & ? & ? & ? & ?). exists e. auto. Qed.

(** One instruction of the trampoline. *)
Lemma run_step m0 i code m m' :
  sees_code m0 (satp m) → off_page m0 (memory m) → exec_instr i m = Done (tt, m') →
  run 0x7ffffff tp (i :: code) m = run 0x7ffffff tp code m'.
Proof.
  intros Hc Hoff E. unfold run. cbn [for_each]. rewrite (bind_step _ _ m tt m'); [done|].
  rewrite (bind_step _ _ m tt m); [done|]. unfold fetch_code. rewrite (bind_step _ _ _ _ _ (page_ok _ _ _ _ _ _ Hc eq_refl Hoff)).
  by rewrite Z.eqb_refl.
Qed.

Lemma run_app code1 code2 m m' :
  run 0x7ffffff tp code1 m = Done (tt, m') → run 0x7ffffff tp (code1 ++ code2) m = run 0x7ffffff tp code2 m'.
Proof. apply for_each_app. Qed.

(** A word of the trap context. *)
Lemma access_context m0 need k m :
  sees_context m0 (satp m) → off_page m0 (memory m) → (∀ e, readable e && writable e = true → need e = true) → 0 ≤ k < 512 →
  access need (TRAP_CONTEXT_BASE ⊞ k * 8) m = Done ((cx, k), m).
Proof.
  intros Hs Hoff Hn Hk. unfold access. change TRAP_CONTEXT_BASE with (2 ^ 64 - 8192). rewrite wadd_small by (unfold fits; lia).
  assert (canonical (2 ^ 64 - 8192 + k * 8) && ((2 ^ 64 - 8192 + k * 8) mod 8 =? 0) = true) as ->.
  { unfold canonical. apply andb_true_intro. split; [apply orb_true_intro; right|]; apply Z.eqb_eq; zlia. }
  erewrite bind_step by reflexivity.
  replace (wrap 27 ((2 ^ 64 - 8192 + k * 8) / 4096)) with 0x7fffffe by (unfold wrap; zlia).
  rewrite (bind_step _ _ _ _ _ (page_ok m0 _ _ cx need m (sees_weaken _ _ _ _ _ _ Hn Hs) eq_refl Hoff)).
  unfold mret, st_ret. do 2 f_equal. f_equal. zlia.
Qed.

Lemma sd_context m0 rs k base m :
  sees_context m0 (satp m) → off_page m0 (memory m) → reg base m = TRAP_CONTEXT_BASE → 0 ≤ k < 512 →
  exec_instr (Sd rs (k * 8) base) m = Done (tt, set_memory (wr (memory m) cx k (reg rs m)) m).
Proof.
  intros Hs Hoff Hb Hk. unfold exec_instr. erewrite bind_step by reflexivity. rewrite Hb.
  by rewrite (bind_step _ _ _ _ _ (access_context m0 writable k m Hs Hoff (λ e He, proj2 (andb_prop _ _ He)) Hk)).
Qed.

Lemma ld_context m0 n k base m :
  sees_context m0 (satp m) → off_page m0 (memory m) → reg base m = TRAP_CONTEXT_BASE → 0 ≤ k < 512 →
  exec_instr (Ld n (k * 8) base) m = Done (tt, set_reg n (rd (memory m) cx k) m).
Proof.
  intros Hs Hoff Hb Hk. unfold exec_instr. erewrite bind_step by reflexivity. rewrite Hb.
  by rewrite (bind_step _ _ _ _ _ (access_context m0 readable k m Hs Hoff (λ e He, proj1 (andb_prop _ _ He)) Hk)).
Qed.

(** Runs of stores and loads. *)
Definition save_all (m : machine) (ns : list nat) (p : pmem) : pmem :=
  foldl (λ p n, wr p cx (Z.of_nat n) (reg n m)) p ns.
Definition load_all (p : pmem) (ns : list nat) (l : list Z) : list Z :=
  foldl (λ l n, <[n := rd p cx (Z.of_nat n)]> l) l ns.

Lemma rd_save_all m ns p q j :
  rd (save_all m ns p) q j = if decide (q = cx ∧ 0 ≤ j ∧ Z.to_nat j ∈ ns) then reg (Z.to_nat j) m else rd p q j.
Proof.
  revert p. induction ns as [|n ns IH]; intros p; simpl.
  - rewrite decide_False; [done|]. intros (_ & _ & []%not_elem_of_nil).
  - rewrite IH. destruct (decide (q = cx ∧ 0 ≤ j ∧ Z.to_nat j ∈ ns)) as [(-> & ? & ?)|Hno].
    + rewrite decide_True; [done|]. split_and!; [done|done|by right].
    + rewrite rd_wr. destruct (decide (cx = q ∧ Z.of_nat n = j)) as [[<- <-]|Hne].
      * rewrite decide_True, Nat2Z.id; [done|]. rewrite Nat2Z.id. split_and!; [done|lia|left].
      * rewrite decide_False; [done|]. intros (-> & Hj & [E|?]%elem_of_cons); [|by apply Hno]. apply Hne. split; [done|lia].
Qed.

Lemma length_load_all p ns l : length (load_all p ns l) = length l.
Proof. revert l. induction ns as [|n ns IH]; intros l; simpl; [done|]. by rewrite IH, length_insert. Qed.

Lemma lookup_load_all p ns l n :
  Forall (λ k, k < length l)%nat ns → load_all p ns l !! n = if decide (n ∈ ns) then Some (rd p cx (Z.of_nat n)) else l !! n.
Proof.
  revert l. induction ns as [|k ns IH]; intros l Hns; simpl; [done|]. apply Forall_cons in Hns as [Hk Hns].
  rewrite IH by (by rewrite length_insert). destruct (decide (n ∈ ns)).
  - rewrite decide_True by by right. done.
  - destruct (decide (n = k)) as [->|].
    + rewrite decide_True by left. by apply list_lookup_insert_eq.
    + rewrite decide_False by (intros [?|?]%elem_of_cons; done). by apply list_lookup_insert_ne.
Qed.

Lemma off_page_wr m0 p k v : off_page m0 p → off_page m0 (wr p cx k v).
Proof. intros Hp q i Hq. rewrite rd_wr, decide_False by naive_solver. by apply Hp. Qed.

Lemma saves_ok m0 ns m :
  Forall (λ n, n < 512)%nat ns → sees_code m0 (satp m) → sees_context m0 (satp m) → off_page m0 (memory m) →
  reg sp m = TRAP_CONTEXT_BASE →
  run 0x7ffffff tp (SAVE_GP <$> ns) m = Done (tt, set_memory (save_all m ns (memory m)) m).
Proof.
  intros Hns Hc Hs Hoff Hsp. destruct m as [X p u sa ss st se sv mem]. cbn [memory satp] in *.
  assert (∀ mem', off_page m0 mem' → run 0x7ffffff tp (SAVE_GP <$> ns) (mkMachine X p u sa ss st se sv mem') =
    Done (tt, mkMachine X p u sa ss st se sv (save_all (mkMachine X p u sa ss st se sv mem) ns mem'))) as Hg; [|by apply Hg].
  induction Hns as [|n ns Hn _ IH]; intros mem' Hmem'; [done|]. cbn [fmap list_fmap].
  rewrite (run_step m0 _ _ (mkMachine X p u sa ss st se sv mem') _ Hc Hmem' (sd_context m0 n (Z.of_nat n) sp (mkMachine X p u sa ss st se sv mem') Hs Hmem' Hsp ltac:(lia))).
  exact (IH _ (off_page_wr _ _ _ _ Hmem')).
Qed.

Lemma loads_ok m0 ns m :
  Forall (λ n, 0 < n < 512 ∧ n ≠ sp)%nat ns → sees_code m0 (satp m) → sees_context m0 (satp m) → off_page m0 (memory m) →
  reg sp m = TRAP_CONTEXT_BASE →
  run 0x7ffffff tp (LOAD_GP <$> ns) m = Done (tt, set_x (load_all (memory m) ns (x m)) m).
Proof.
  intros Hns Hc Hs Hoff. destruct m as [X p u sa ss st se sv mem].
  cbn [set_x x pc user satp sscratch sstatus sepc stvec memory] in *. revert X. induction Hns as [|n ns [Hn Hnsp] _ IH]; intros X Hsp; [done|]. cbn [fmap list_fmap].
  rewrite (run_step m0 _ _ (mkMachine X p u sa ss st se sv mem) _ Hc Hoff (ld_context m0 n (Z.of_nat n) sp (mkMachine X p u sa ss st se sv mem) Hs Hoff Hsp ltac:(lia))).
  destruct n as [|n]; [lia|]. cbn [set_reg set_x x pc user satp sscratch sstatus sepc stvec memory].
  etrans; [apply (IH (<[S n := rd mem cx (Z.of_nat (S n))]> X))|reflexivity].
  cbn [reg x] in *. by rewrite list_lookup_insert_ne by done.
Qed.

Lemma read_trap_x p n : (n < 32)%nat → tc_x (read_trap_cx p cx) !! n = Some (rd p cx (Z.of_nat n)).
Proof. intros Hn. cbn [read_trap_cx tc_x]. rewrite list_lookup_fmap. unfold zrange. rewrite lookup_seqZ_lt by lia. by rewrite Z.add_0_l. Qed.

(** One instruction that does not use memory, and one that does. *)
Ltac settle :=
  cbv beta iota delta [set_reg set_csr get_csr reg set_x set_pc set_memory do_sret x pc user satp sscratch sstatus sepc stvec memory].
Ltac regs :=
  repeat first [rewrite list_lookup_insert_ne by lia | rewrite list_lookup_insert_eq by (rewrite ?length_insert; lia)];
  cbn [default from_option id].
Ltac plain Hc Hoff := erewrite run_step; [|exact Hc|exact Hoff|reflexivity]; settle.
Ltac on_context Hc Hs Hoff l :=
  erewrite run_step; [|exact Hc|exact Hoff|eapply l; [exact Hs|exact Hoff|settle; regs; reflexivity || assumption|lia]]; settle.

Lemma saved_regs : Forall (λ n, n < 512)%nat (1 :: 3 :: seq 5 27)%nat.
Proof. apply (bool_decide_unpack _). vm_compute. done. Qed.

Lemma lookup_sp X v : length X = 32%nat → default 0 (<[2%nat := v]> X !! 2%nat) = v.
Proof. intros HX. by rewrite list_lookup_insert_eq by lia. Qed.

Lemma entry_tail m0 X q sa ss st se sv mem :
  let mem' := wr (wr (wr mem cx 32 st) cx 33 se) cx 2 ss in
  length X = 32%nat → X !! 2%nat = Some TRAP_CONTEXT_BASE →
  sees_code m0 sa → sees_context m0 sa → off_page m0 mem → sees_code m0 (rd mem' cx 34) →
  ∃ X', run 0x7ffffff tp (drop 30 __alltraps) (mkMachine X q false sa ss st se sv mem) =
      Done (tt, mkMachine X' (rd mem' cx 36) false (rd mem' cx 34) ss st se sv mem') ∧
    X' !! 2%nat = Some (rd mem' cx 35).
Proof.
  intros mem' Hlen H2 Hc Hs Hoff Hk.
  assert (default 0 (X !! 2%nat) = TRAP_CONTEXT_BASE) as H2' by by rewrite H2.
  change (drop 30 __alltraps) with [Csrr t0 Sstatus; Csrr t1 Sepc; Sd t0 (32 * 8) sp; Sd t1 (33 * 8) sp; Csrr t2 Sscratch; Sd t2 (2 * 8) sp;
     Ld t0 (34 * 8) sp; Ld t1 (36 * 8) sp; Ld sp (35 * 8) sp; Csrw Satp t0; SfenceVma; Jr t1].
  plain Hc Hoff. plain Hc Hoff. on_context Hc Hs Hoff sd_context. regs.
  pose proof (off_page_wr _ _ 32 st Hoff) as Hoff1. on_context Hc Hs Hoff1 sd_context. regs.
  pose proof (off_page_wr _ _ 33 se Hoff1) as Hoff2. plain Hc Hoff2. on_context Hc Hs Hoff2 sd_context. regs.
  pose proof (off_page_wr _ _ 2 ss Hoff2) as Hoff3. fold mem' in Hoff3 |- *.
  do 3 on_context Hc Hs Hoff3 ld_context. plain Hc Hoff3. regs. plain Hk Hoff3. plain Hk Hoff3. regs.
  eexists. split; [reflexivity|]. by regs.
Qed.

Lemma trap_entry_ok m :
  let c := read_trap_cx (memory m) cx in
  length (x m) = 32%nat → sscratch m = TRAP_CONTEXT_BASE →
  sees_code (memory m) (satp m) → sees_context (memory m) (satp m) → sees_code (memory m) (tc_kernel_satp c) →
  ∃ m', trap_entry tp m = Done (tt, m') ∧
    pc m' = tc_trap_handler c ∧ reg sp m' = tc_kernel_sp c ∧ satp m' = tc_kernel_satp c ∧ user m' = false ∧
    off_page (memory m) (memory m') ∧
    (∀ n, (0 < n < 32)%nat → n ≠ 4%nat → tc_x (read_trap_cx (memory m') cx) !! n = x m !! n) ∧
    tc_sepc (read_trap_cx (memory m') cx) = pc m ∧ tc_sstatus (read_trap_cx (memory m') cx) = trap_status (sstatus m) ∧
    tc_kernel_satp (read_trap_cx (memory m') cx) = tc_kernel_satp c ∧
    tc_kernel_sp (read_trap_cx (memory m') cx) = tc_kernel_sp c ∧
    tc_trap_handler (read_trap_cx (memory m') cx) = tc_trap_handler c.
Proof.
  intros c. destruct m as [X p u sa ss st se sv mem]. cbn [x pc user satp sscratch sstatus sepc stvec memory] in *.
  intros Hlen -> Hc Hs Hk. unfold trap_entry. erewrite bind_step by reflexivity. unfold take_trap. cbn [x pc user satp sscratch sstatus sepc stvec memory].
  assert (off_page mem mem) as Hoff by by intros ???.
  change __alltraps with (Csrrw sp Sscratch sp :: (SAVE_GP <$> (1 :: 3 :: seq 5 27)%nat) ++ drop 30 __alltraps).
  plain Hc Hoff. set (v2 := default 0 (X !! 2%nat)). set (X1 := <[2%nat := TRAP_CONTEXT_BASE]> X).
  set (M1 := mkMachine X1 sv false sa v2 (trap_status st) p sv mem).
  rewrite (run_app _ _ M1 _ (saves_ok mem _ M1 saved_regs Hc Hs Hoff (lookup_sp X _ Hlen))).
  set (mem1 := save_all M1 (1 :: 3 :: seq 5 27)%nat (memory M1)).
  assert (off_page mem mem1) as Hoff1.
  { intros q i Hq. unfold mem1. rewrite rd_save_all, decide_False; [done|]. by intros []. }
  set (mem2 := wr (wr (wr mem1 cx 32 (trap_status st)) cx 33 p) cx 2 v2).
  assert (∀ j, 32 ≤ j → rd mem2 cx j = if decide (j = 33) then p else if decide (j = 32) then trap_status st else rd mem cx j) as Hhigh.
  { intros j Hj. unfold mem2. rewrite !rd_wr. rewrite decide_False by lia. destruct (decide (j = 33)) as [->|]; [by rewrite decide_True|].
    rewrite decide_False by lia. destruct (decide (j = 32)) as [->|]; [by rewrite decide_True|].
    rewrite decide_False by lia. unfold mem1. rewrite rd_save_all, decide_False; [done|]. intros (_ & _ & Hin).
    rewrite !elem_of_cons, elem_of_seq in Hin. lia. }
  destruct (entry_tail mem X1 sv sa v2 (trap_status st) p sv mem1) as (X' & E & HX'); [|by apply list_lookup_insert_eq; lia|done|done|done| |].
  { unfold X1. by rewrite length_insert. }
  { fold mem2. rewrite Hhigh by lia. exact Hk. }
  fold mem2 in E, HX'.
  assert (rd mem2 cx 32 = trap_status st) as H32 by (by apply Hhigh). assert (rd mem2 cx 33 = p) as H33 by (by apply Hhigh).
  assert (rd mem2 cx 34 = rd mem cx 34) as H34 by (by apply Hhigh). assert (rd mem2 cx 35 = rd mem cx 35) as H35 by (by apply Hhigh).
  assert (rd mem2 cx 36 = rd mem cx 36) as H36 by (by apply Hhigh).
  eexists. split; [exact E|]. cbn [x pc user satp memory reg]. rewrite HX'. clear E HX' Hhigh.
  split_and!; [exact H36|exact H35|exact H34|reflexivity| | |exact H33|exact H32|exact H34|exact H35|exact H36].
  - by do 3 apply off_page_wr.
  - intros n Hn Hn4. rewrite read_trap_x by lia. unfold mem2. rewrite rd_wr.
    destruct (lookup_lt_is_Some_2 X n) as [v Hv]; [lia|]. rewrite Hv. f_equal.
    destruct (decide (n = 2%nat)) as [->|Hn2]; [rewrite decide_True by done; unfold v2; by rewrite Hv|].
    rewrite decide_False, !rd_wr, !decide_False by lia. unfold mem1. rewrite rd_save_all, Nat2Z.id, decide_True.
    + destruct n; [lia|]. cbn [reg M1 x]. unfold X1. by rewrite list_lookup_insert_ne, Hv by done.
    + split_and!; [done|lia|]. rewrite !elem_of_cons, elem_of_seq. lia.
Qed.

Lemma loaded_regs : Forall (λ n, 0 < n < 512 ∧ n ≠ sp)%nat (1 :: 3 :: seq 5 27)%nat.
Proof. apply (bool_decide_unpack _). vm_compute. done. Qed.

Lemma elem_of_loaded n : (n ∈ (1 :: 3 :: seq 5 27)%nat) ↔ (0 < n < 32 ∧ n ≠ 2 ∧ n ≠ 4)%nat.
Proof. rewrite !elem_of_cons, elem_of_seq. lia. Qed.

Lemma trap_return_ok alltraps restore m ut :
  let c := read_trap_cx (memory m) cx in
  length (x m) = 32%nat → sees_code (memory m) (satp m) → sees_code (memory m) ut → sees_context (memory m) ut →
  ∃ m', trap_return alltraps restore tp ut m = Done (tt, m') ∧
    memory m' = memory m ∧ length (x m') = 32%nat ∧ pc m' = tc_sepc c ∧
    user m' = negb (Z.testbit (tc_sstatus c) 8) ∧ sstatus m' = sret_status (tc_sstatus c) ∧
    satp m' = ut ∧ sscratch m' = TRAP_CONTEXT_BASE ∧ stvec m' = TRAMPOLINE ∧
    (∀ n, (0 < n < 32)%nat → n ≠ 4%nat → x m' !! n = tc_x c !! n) ∧ x m' !! 4%nat = x m !! 4%nat.
Proof.
  intros c. destruct m as [X p u sa ss st se sv mem]. cbn [x pc user satp sscratch sstatus sepc stvec memory] in *.
  intros Hlen Hk Hc Hs. unfold trap_return. erewrite bind_step by reflexivity. erewrite bind_step by reflexivity. unfold set_user_trap_entry. settle.
  assert (off_page mem mem) as Hoff by by intros ???.
  change __restore with ([Csrw Satp a1; SfenceVma; Csrw Sscratch a0; Mv sp a0; Ld t0 (32 * 8) sp; Ld t1 (33 * 8) sp; Csrw Sstatus t0; Csrw Sepc t1] ++
    (LOAD_GP <$> (1 :: 3 :: seq 5 27)%nat) ++ [Ld sp (2 * 8) sp; Sret]). cbn [app].
  plain Hk Hoff. regs. plain Hc Hoff. plain Hc Hoff. regs. plain Hc Hoff. regs. do 2 on_context Hc Hs Hoff ld_context.
  plain Hc Hoff. regs. plain Hc Hoff. regs.
  set (X1 := <[6%nat := _]> _). set (pc0 := _ ⊞ TRAMPOLINE).
  set (M1 := mkMachine X1 pc0 u ut TRAP_CONTEXT_BASE (rd mem cx 32) (rd mem cx 33) TRAMPOLINE mem).
  assert (length X1 = 32%nat) as Hlen1 by (unfold X1; by rewrite !length_insert).
  assert (X1 !! 2%nat = Some TRAP_CONTEXT_BASE) as Hsp1 by (unfold X1; by regs).
  assert (X1 !! 4%nat = X !! 4%nat) as Htp1 by (unfold X1; by regs).
  assert (∀ n, load_all mem (1 :: 3 :: seq 5 27)%nat X1 !! n =
    if decide (n ∈ (1 :: 3 :: seq 5 27)%nat) then Some (rd mem cx (Z.of_nat n)) else X1 !! n) as Hload.
  { intros n. apply lookup_load_all. rewrite Hlen1. apply (bool_decide_unpack _). vm_compute. done. }
  rewrite (run_app _ _ M1 _ (loads_ok mem _ M1 loaded_regs Hc Hs Hoff (f_equal (default 0) Hsp1))).
  pose proof (length_load_all mem (1 :: 3 :: seq 5 27)%nat X1) as Hlen2. rewrite Hlen1 in Hlen2.
  cbv beta iota delta [set_x M1 x pc user satp sscratch sstatus sepc stvec memory]. set (X2 := load_all _ _ _) in *. clearbody X1 X2.
  assert (default 0 (X2 !! 2%nat) = TRAP_CONTEXT_BASE) as Hsp2 by (by rewrite Hload, decide_False, Hsp1 by (rewrite elem_of_loaded; lia)).
  on_context Hc Hs Hoff ld_context. plain Hc Hoff. eexists. split; [reflexivity|].
  split_and!; try done; [by rewrite length_insert| |].
  - intros n Hn Hn4. unfold c. rewrite read_trap_x by lia. destruct (decide (n = 2%nat)) as [->|]; [by regs|].
    rewrite list_lookup_insert_ne, Hload, decide_True by (done || (rewrite elem_of_loaded; lia)). done.
  - rewrite list_lookup_insert_ne, Hload, decide_False by (done || (rewrite elem_of_loaded; lia)). done.
Qed.

End trampoline.

(** ** The address spaces around a trap *)

Section spaces.
Context {A : Type} `{FrameAllocatorLaws A}.

(** The page table [pt] of a task and that of the kernel, [ks]: both map the
    trampoline to the frame [tp], the task's maps the trap context to [cx],
    which is in neither table. *)
Record trap_world (s : mm A) (pt ks : PageTable) (tp cx : Z) : Prop := {
  tw_user : ∃ G, represents s pt G ∧ G !! 0x7ffffff = Some (PTE_new tp 11) ∧ G !! 0x7fffffe = Some (PTE_new cx 7);
  tw_kernel : ∃ K, represents s ks K ∧ K !! 0x7ffffff = Some (PTE_new tp 11);
  tw_apart : (cx ∉ pt_frames pt) ∧ cx ∉ pt_frames ks;
  tw_roots : fits 44 (root_ppn pt) ∧ fits 44 (root_ppn ks);
  tw_frames : fits 44 tp ∧ fits 44 cx;
}.

(** The memory has the tables of [s]. *)
Definition same_tables (s : mm A) (pt ks : PageTable) (m : pmem) : Prop :=
  ∀ q i, q ∈ pt_frames pt ∨ q ∈ pt_frames ks → rd m q i = rd (mem s) q i.

Lemma represents_agree s pt G m v e :
  represents s pt G → (∀ q i, q ∈ pt_frames pt → rd m q i = rd (mem s) q i) → fits 27 v → G !! v = Some e →
  translate m pt v = Some e ∧ is_valid e = true.
Proof.
  intros [[T [HT Hroot]] HG] Hag Hv HGv. pose proof HT as (_ & Htree & _). specialize (HG v Hv).
  assert (pt_lookup m pt v = Some e) as Hl.
  { rewrite <- HGv, <- HG. apply (lookup_walk_agree (mem s) T Htree m (indexes v) _ []); [|done|done].
    intros q i Hq. apply Hag. by apply (tables_lookup s _ T q HT). }
  rewrite pt_lookup_translate in Hl. destruct (translate m pt v) as [e'|]; [|done]. by destruct (is_valid e') eqn:?; simplify_eq.
Qed.

Lemma token_mode pt : fits 44 (root_ppn pt) → token pt / 2 ^ 60 = 8.
Proof. intros [??]. unfold token. change (wshl 64 8 60) with (Z.shiftl 524288 44). rewrite lor_shiftl_add by lia. zlia. Qed.

Lemma entry_flags f fl need :
  fits 44 f → fits 8 fl → (∀ e, PTE_flags e = Some fl → need e = true ∧ PTE_has PTE_U e = false) →
  need (PTE_new f fl) = true ∧ PTE_has PTE_U (PTE_new f fl) = false.
Proof. intros Hf Hfl Hn. by apply Hn, PTE_flags_new. Qed.

Lemma represents_sees s pt G cx m0 v f fl need :
  represents s pt G → (∀ q i, q ∈ pt_frames pt → rd m0 q i = rd (mem s) q i) → fits 44 (root_ppn pt) → fits 27 v →
  G !! v = Some (PTE_new f fl) → cx ∉ pt_frames pt → fits 44 f → fits 8 fl →
  (∀ e, PTE_flags e = Some fl → need e = true ∧ PTE_has PTE_U e = false) →
  sees cx m0 (token pt) v f need.
Proof.
  intros Hrep Hag Hroot Hv HG Hcx Hf Hfl Hneed. split; [by apply token_mode|]. intros m Hoff. exists (PTE_new f fl).
  destruct (represents_agree s pt G m v (PTE_new f fl)) as [Ht Hval]; [done| |done|done|].
  { intros q i Hq. rewrite Hoff by (by intros ->). by apply Hag. }
  destruct (entry_flags f fl need) as [Hn Hu]; [done..|].
  split_and!; [|done|done|done|by apply PTE_ppn_new]. unfold translate, find_pte in *. by rewrite token_root.
Qed.

Lemma trap_world_sees s pt ks tp cx m0 :
  trap_world s pt ks tp cx → same_tables s pt ks m0 →
  sees_code cx tp m0 (token pt) ∧ sees_code cx tp m0 (token ks) ∧ sees_context cx m0 (token pt).
Proof.
  intros [(G & Hu & Hut & Huc) (K & Hk & Hkt) [Hc1 Hc2] [Hr1 Hr2] [Htp Hcx]] Hag.
  split_and!; (eapply represents_sees; [eassumption|by intros; apply Hag; auto|done|by unfold fits|eassumption|done|done|by unfold fits|]);
    intros e He; unfold readable, writable, executable, PTE_has; by rewrite He.
Qed.

Lemma trap_status_user st : Z.testbit (trap_status st) 8 = false.
Proof. apply Z.clearbit_eq. Qed.

Lemma status_cycle st : Z.testbit (sret_status (trap_status st)) 1 = Z.testbit st 1.
Proof.
  unfold sret_status, trap_status. set (u := Z.clearbit (Z.clearbit _ 1) 8).
  assert (Z.testbit u 5 = Z.testbit st 1) as Hu.
  { unfold u. rewrite !Z.clearbit_neq by lia. destruct (Z.testbit st 1); [apply Z.setbit_eq|apply Z.clearbit_eq]; lia. }
  rewrite Z.clearbit_neq, Z.setbit_neq by lia. rewrite Hu. destruct (Z.testbit st 1); [apply Z.setbit_eq|apply Z.clearbit_eq]; lia.
Qed.

(** C4. Into the kernel and back. A trap of a task in user mode runs through the
    trampoline without a fault, although the page table changes under it: it
    ends at the trap handler, on the kernel stack and in the kernel's address
    space that the trap context names, and the context holds the registers of
    the task ([tp] aside), its program counter and status; no other page
    changes. Whatever the kernel then does, short of changing the page tables,
    [trap_return] ends in the task's address space with the registers and
    program counter of the context as it is then, and with everything set for
    the next trap. If the kernel leaves the context alone, the task goes on in
    user mode where it was interrupted, with interrupts enabled as before. *)
Theorem trap_cycle (s : mm A) (pt ks : PageTable) (tp cx alltraps restore : Z) (m : machine) :
  trap_world s pt ks tp cx → memory m = mem s → tc_kernel_satp (read_trap_cx (mem s) cx) = token ks →
  user m = true → length (x m) = 32%nat → satp m = token pt → sscratch m = TRAP_CONTEXT_BASE →
  ∃ m1, trap_entry tp m = Done (tt, m1) ∧
    (let c := read_trap_cx (mem s) cx in let c1 := read_trap_cx (memory m1) cx in
     user m1 = false ∧ pc m1 = tc_trap_handler c ∧ reg sp m1 = tc_kernel_sp c ∧ satp m1 = token ks ∧
     (∀ n, (0 < n < 32)%nat → n ≠ 4%nat → tc_x c1 !! n = x m !! n) ∧ tc_sepc c1 = pc m ∧
     (∀ q i, q ≠ cx → rd (memory m1) q i = rd (mem s) q i)) ∧
    ∀ m2, length (x m2) = 32%nat → satp m2 = token ks → same_tables s pt ks (memory m2) →
      ∃ m3, trap_return alltraps restore tp (token pt) m2 = Done (tt, m3) ∧
        (let c := read_trap_cx (memory m2) cx in
         user m3 = negb (Z.testbit (tc_sstatus c) 8) ∧ pc m3 = tc_sepc c ∧
         (∀ n, (0 < n < 32)%nat → n ≠ 4%nat → x m3 !! n = tc_x c !! n)) ∧
        satp m3 = token pt ∧ sscratch m3 = TRAP_CONTEXT_BASE ∧ stvec m3 = TRAMPOLINE ∧ memory m3 = memory m2 ∧
        ((∀ i, rd (memory m2) cx i = rd (memory m1) cx i) →
         user m3 = true ∧ pc m3 = pc m ∧ (∀ n, (0 < n < 32)%nat → n ≠ 4%nat → x m3 !! n = x m !! n) ∧
         Z.testbit (sstatus m3) 1 = Z.testbit (sstatus m) 1).
Proof.
  intros Hw Hm Hks _ Hlen Hsat Hss.
  destruct (trap_world_sees _ _ _ _ _ (mem s) Hw) as (Hcu & Hck & Hx); [by intros ???|].
  destruct (trap_entry_ok cx tp m) as (m1 & E1 & Hpc & Hsp & Hsat1 & Hus1 & Hoff & Hx1 & Hse & Hst & Hk1); rewrite ?Hm, ?Hsat, ?Hks; try done.
  rewrite Hm in *. exists m1. split; [done|]. split; [split_and!; congruence || done|].
  intros m2 Hlen2 Hsat2 Htab. destruct (trap_world_sees _ _ _ _ _ (memory m2) Hw Htab) as (Hcu2 & Hck2 & Hx2).
  destruct (trap_return_ok cx tp alltraps restore m2 (token pt)) as (m3 & E3 & Hmem3 & _ & Hpc3 & Hus3 & Hst3 & Hsat3 & Hss3 & Hsv3 & Hx3 & _);
    rewrite ?Hsat2; try done.
  exists m3. split; [done|]. split; [done|]. split_and!; [done..|]. intros Hsame.
  assert (read_trap_cx (memory m2) cx = read_trap_cx (memory m1) cx) as Ec.
  { unfold read_trap_cx. rewrite !Hsame. f_equal. apply list_fmap_ext. intros. apply Hsame. }
  rewrite Ec in *. split_and!.
  - rewrite Hus3, Hst. by rewrite trap_status_user.
  - by rewrite Hpc3.
  - intros n Hn Hn4. rewrite Hx3, Hx1 by done. done.
  - rewrite Hst3, Hst. apply status_cycle.
Qed.

End spaces.

(** ** Witness: one table that maps the trampoline, a trap context and a page *)

Lemma wit_world :
  ∃ (s : mm StackFrameAllocator) pt, @trap_world _ _ (stack_frame_laws 0x80500) s pt pt 0x80201 5 ∧
    tc_kernel_satp (read_trap_cx (mem s) 5) = token pt ∧ pt_lookup (mem s) pt 1 = Some (PTE_new 6 23) ∧ 6 ∉ pt_frames pt.
Proof.
  set (L := stack_frame_laws 0x80500).
  destruct (@represents_empty _ _ L wit_mm wit_mm_inv ltac:(done)) as (f & s & E & Hrep & Ha).
  change (16%nat = S (stack_avail (frame_allocator s))) in Ha.
  assert (f = 0x80500) as -> by (vm_compute in E; congruence). clear E.
  destruct Hrep as [[T0 HT0] HG0].
  destruct (@PageTable_map_ok _ _ L s _ T0 0x7ffffff 0x80201 10 HT0) as (new1 & s1 & T1 & _ & HT1 & _ & _ & Hav1 & Hn1 & _ & HG1);
    [unfold fits; lia..|simpl; lia|by rewrite HG0 by (unfold fits; lia)|].
  change (stack_avail (frame_allocator s) = (length new1 + stack_avail (frame_allocator s1))%nat) in Hav1.
  destruct (@PageTable_map_ok _ _ L s1 _ T1 0x7fffffe 5 6 HT1) as (new2 & s' & T' & _ & HT' & _ & _ & Hav2 & Hn2 & _ & HG2);
    [unfold fits; lia..|simpl; lia|rewrite HG1, decide_False, HG0 by (unfold fits; lia); done|].
  change (stack_avail (frame_allocator s1) = (length new2 + stack_avail (frame_allocator s'))%nat) in Hav2.
  destruct (@PageTable_map_ok _ _ L s' _ T' 1 6 22 HT') as (new3 & s2 & T2 & _ & HT2 & _ & _ & _ & _ & _ & HG2');
    [unfold fits; lia..|simpl; lia|rewrite HG2, decide_False, HG1, decide_False, HG0 by (unfold fits; lia); done|].
  cbn [root_ppn pt_frames] in *. set (pt := mkPageTable 0x80500 _) in HT2.
  pose proof HT2 as [(Hmm & _ & _ & _ & Hown) _]. rewrite Forall_forall in Hown.
  assert (5 ∉ pt_frames pt) as H5 by (intros H; destruct (Hown 5 H); lia).
  assert (6 ∉ pt_frames pt) as H6 by (intros H; destruct (Hown 6 H); lia).
  set (s3 := mkMM (frame_allocator s2) (wr (mem s2) 5 34 (token pt))).
  destruct (@pt_inv_frame _ _ L s2 s3 pt T2) as [HT3 HG3]; [done| | |by apply Forall_forall|].
  { destruct Hmm. split; [done|]. apply mem_wf_wr; [done|]. vm_compute. done. }
  { intros q i Hq. cbn [mem s3]. rewrite rd_wr, decide_False; [done|]. by intros [<- _]. }
  set (G := <[1 := PTE_new 6 23]> (<[0x7fffffe := PTE_new 5 7]> (<[0x7ffffff := PTE_new 0x80201 11]> (∅ : gmap Z Z)))).
  assert (@represents _ _ L s3 pt G) as Hrep.
  { split; [by eexists|]. intros v Hv. rewrite HG3, HG2' by done. unfold G. rewrite !lookup_insert.
    destruct (decide (1 = v)) as [<-|]; [by rewrite decide_True|]. rewrite decide_False, HG2 by done.
    destruct (decide (0x7fffffe = v)) as [<-|]; [by rewrite decide_True|]. rewrite decide_False, HG1 by done.
    destruct (decide (0x7ffffff = v)) as [<-|]; [by rewrite decide_True|]. rewrite decide_False by done. by rewrite HG0. }
  exists s3, pt. split; [|split; [cbn [read_trap_cx tc_kernel_satp mem s3]; by rewrite rd_wr, decide_True|split; [|exact H6]]].
  2: { destruct Hrep as [_ Hl]. rewrite Hl by (unfold fits; lia). reflexivity. }
  split; [exists G; by split_and!|exists G; by split_and!|done|by split; unfold fits; cbn; lia|split; unfold fits; lia].
Qed.

Lemma trap_cycle_witness :
  ∃ (s : mm StackFrameAllocator) pt m1, @trap_world _ _ (stack_frame_laws 0x80500) s pt pt 0x80201 5 ∧
    trap_entry 0x80201 (mkMachine (replicate 32 9) 0x10010 true (token pt) TRAP_CONTEXT_BASE 0 0 TRAMPOLINE (mem s)) = Done (tt, m1) ∧
    tc_sepc (read_trap_cx (memory m1) 5) = 0x10010 ∧ tc_x (read_trap_cx (memory m1) 5) !! 17%nat = Some 9.
Proof.
  destruct wit_world as (s & pt & Hw & Hk & _).
  destruct (@trap_cycle _ _ (stack_frame_laws 0x80500) s pt pt 0x80201 5 0 0x80
    (mkMachine (replicate 32 9) 0x10010 true (token pt) TRAP_CONTEXT_BASE 0 0 TRAMPOLINE (mem s)) Hw)
    as (m1 & E & (_ & _ & _ & _ & Hx & Hpc & _) & _); [reflexivity|exact Hk|reflexivity..|].
  exists s, pt, m1. split; [exact Hw|]. split; [exact E|]. split; [exact Hpc|]. rewrite Hx by lia. reflexivity.
Defined.

End Riscv.
