(* ===== verification/Pipe.v ===== *)
(** * Pipes (os/src/fs/pipe.rs)

    The ring buffer refines a queue of at most 32 bytes. [read] and [write] are
    loops that give up the processor when the buffer is empty or full; one turn
    of such a loop is one step here, and [pipe_step] interleaves the turns of
    any number of readers and writers with closing and with everything else
    that happens to memory. *)

From S2P Require Import Prelude Address PhysMem FrameAllocator PageTable UserBuffer.

(** ** The ring buffer *)

Definition RING_BUFFER_SIZE : Z := 32.

Inductive RingBufferStatus := FULL | EMPTY | NORMAL.

#[global] Instance RingBufferStatus_eq_dec : EqDecision RingBufferStatus.
Proof. solve_decision. Defined.

(** [write_end] is the identity of the weak reference's target. *)
Record PipeRingBuffer := mkRing {
  arr : list Z;
  head : Z;
  tail : Z;
  status : RingBufferStatus;
  write_end : option nat;
}.

Definition PipeRingBuffer_new : PipeRingBuffer :=
  mkRing (replicate (Z.to_nat RING_BUFFER_SIZE) 0) 0 0 EMPTY None.

Definition set_write_end (w : nat) (rb : PipeRingBuffer) : PipeRingBuffer :=
  mkRing (arr rb) (head rb) (tail rb) (status rb) (Some w).

Definition read_byte : ST PipeRingBuffer Z :=
  rb ← st_get;
  c ← unwrap (arr rb !! Z.to_nat (head rb));
  let head' := (head rb ⊞ 1) mod RING_BUFFER_SIZE in
  let status' := if head' =? tail rb then EMPTY else NORMAL in
  st_put (mkRing (arr rb) head' (tail rb) status' (write_end rb));;
  mret c.

Definition write_byte (byte : Z) : ST PipeRingBuffer bool :=
  rb ← st_get;
  rassert (bool_decide (Z.to_nat (tail rb) < length (arr rb))%nat);;
  let arr' := <[Z.to_nat (tail rb) := byte]> (arr rb) in
  let tail' := (tail rb ⊞ 1) mod RING_BUFFER_SIZE in
  if head rb =? tail' then
    st_put (mkRing arr' (head rb) tail' FULL (write_end rb));; mret false
  else
    st_put (mkRing arr' (head rb) tail' NORMAL (write_end rb));; mret true.

Definition available_read (rb : PipeRingBuffer) : Z :=
  if decide (status rb = EMPTY) then 0
  else if head rb <? tail rb then tail rb ⊟ head rb
  else (tail rb ⊞ RING_BUFFER_SIZE) ⊟ head rb.

Definition available_write (rb : PipeRingBuffer) : Z :=
  if decide (status rb = FULL) then 0
  else if head rb <=? tail rb then (head rb ⊞ RING_BUFFER_SIZE) ⊟ tail rb
  else head rb ⊟ tail rb.

(** [upgrade] of the weak reference fails when no strong one is left; [alive]
    says which write ends have one. [None] is the panic of [unwrap]. *)
Definition all_write_ends_closed (alive : nat → bool) (rb : PipeRingBuffer) : option bool :=
  negb ∘ alive <$> write_end rb.

(** ** The two ends *)

Record Pipe := mkPipe { pipe_readable : bool; pipe_writable : bool; pipe_buffer : nat }.

Definition read_end_with_buffer (b : nat) : Pipe := mkPipe true false b.
Definition write_end_with_buffer (b : nat) : Pipe := mkPipe false true b.

(** [make_pipe]: the buffer knows the write end's identity [w]. *)
Definition make_pipe (b w : nat) : PipeRingBuffer * Pipe * Pipe :=
  (set_write_end w PipeRingBuffer_new, read_end_with_buffer b, write_end_with_buffer b).

(** What a turn of the loop of [read] or [write] ends with: the call returns,
    it gives up the processor and tries again, or it goes round at once. *)
Inductive turn := Return (n : Z) | Suspend | Again.

(** What a turn works on: memory, the iterator over the caller's buffer, the
    ring buffer and the count of bytes so far. [op_log] is not in the code: it
    records the bytes that the turn moves. *)
Record op_state := mkOp {
  op_mem : pmem;
  op_iter : UserBufferIterator;
  op_ring : PipeRingBuffer;
  op_size : Z;
  op_log : list Z;
}.

Definition on_iter {X} (m : ST UserBufferIterator X) : ST op_state X :=
  zoom op_iter (λ it s, mkOp (op_mem s) it (op_ring s) (op_size s) (op_log s)) m.
Definition on_ring {X} (m : ST PipeRingBuffer X) : ST op_state X :=
  zoom op_ring (λ rb s, mkOp (op_mem s) (op_iter s) rb (op_size s) (op_log s)) m.
Definition store_byte (a c : Z) (s : op_state) : op_state :=
  mkOp (wr_pa (op_mem s) a c) (op_iter s) (op_ring s) (op_size s) (op_log s).
(** [read_size += 1] or [write_size += 1], for the byte [c]. *)
Definition count_byte (c : Z) (s : op_state) : op_state :=
  mkOp (op_mem s) (op_iter s) (op_ring s) (op_size s ⊞ 1) (op_log s ++ [c]).

(** The [for] loop of [read]: at most [n] bytes; [inr] is the early return. *)
Fixpoint read_some (n : nat) : ST op_state (unit + Z) :=
  match n with
  | O => mret (inl tt)
  | S n =>
      o ← on_iter UserBufferIterator_next;
      match o with
      | Some byte_ref =>
          c ← on_ring read_byte;
          st_modify (store_byte byte_ref c);;
          st_modify (count_byte c);;
          read_some n
      | None => s ← st_get; mret (inr (op_size s))
      end
  end.

(** One turn of the loop of [Pipe::read]. *)
Definition read_turn (alive : nat → bool) : ST op_state turn :=
  s ← st_get;
  let loop_read := available_read (op_ring s) in
  if loop_read =? 0 then
    closed ← unwrap (all_write_ends_closed alive (op_ring s));
    if closed : bool then mret (Return (op_size s)) else mret Suspend
  else
    r ← read_some (Z.to_nat loop_read);
    mret match r with inl _ => Again | inr n => Return n end.

Fixpoint write_some (n : nat) : ST op_state (unit + Z) :=
  match n with
  | O => mret (inl tt)
  | S n =>
      o ← on_iter UserBufferIterator_next;
      match o with
      | Some byte_ref =>
          byte ← st_gets (λ s, rd_pa (op_mem s) byte_ref);
          on_ring (write_byte byte);;
          st_modify (count_byte byte);;
          write_some n
      | None => s ← st_get; mret (inr (op_size s))
      end
  end.

(** One turn of the loop of [Pipe::write]. *)
Definition write_turn : ST op_state turn :=
  s ← st_get;
  let loop_write := available_write (op_ring s) in
  if loop_write =? 0 then mret Suspend
  else
    r ← write_some (Z.to_nat loop_write);
    mret match r with inl _ => Again | inr n => Return n end.

(** The start of [read] and [write]: the assertion and the iterator. *)
Definition read_start (p : Pipe) (u : UserBuffer) : option UserBufferIterator :=
  if pipe_readable p then Some (UserBuffer_into_iter u) else None.
Definition write_start (p : Pipe) (u : UserBuffer) : option UserBufferIterator :=
  if pipe_writable p then Some (UserBuffer_into_iter u) else None.

(** ** The ring buffer is a bounded queue *)

(** The ring buffer holds the queue [q]: its bytes lie from [head] on, around
    the end of the array, and the status tells the full from the empty one. *)
Definition ring_holds (rb : PipeRingBuffer) (q : list Z) : Prop :=
  length (arr rb) = 32%nat ∧ 0 ≤ head rb < 32 ∧ (length q ≤ 32)%nat ∧
  tail rb = (head rb + Z.of_nat (length q)) mod 32 ∧
  (status rb = EMPTY ↔ q = []) ∧ (status rb = FULL ↔ length q = 32%nat) ∧
  ∀ i c, q !! i = Some c → arr rb !! Z.to_nat ((head rb + Z.of_nat i) mod 32) = Some c.

Lemma ring_holds_new w : ring_holds (set_write_end w PipeRingBuffer_new) [].
Proof.
  unfold ring_holds; simpl. split_and!; try done; try lia.
Qed.

Lemma available_read_length rb q : ring_holds rb q → available_read rb = Z.of_nat (length q).
Proof.
  intros (_ & Hh & Hlen & Ht & He & _ & _). unfold available_read, RING_BUFFER_SIZE.
  destruct (decide (status rb = EMPTY)) as [E|E].
  - apply He in E. by subst.
  - assert (length q ≠ 0%nat) by (intros ->%nil_length_inv; tauto).
    destruct (Z.ltb_spec (head rb) (tail rb)).
    + rewrite wsub_small by (unfold fits; zlia). zlia.
    + rewrite wadd_small by (unfold fits; zlia). rewrite wsub_small by (unfold fits; zlia). zlia.
Qed.

Lemma available_write_length rb q : ring_holds rb q → available_write rb = 32 - Z.of_nat (length q).
Proof.
  intros (_ & Hh & Hlen & Ht & _ & Hf & _). unfold available_write, RING_BUFFER_SIZE.
  destruct (decide (status rb = FULL)) as [E|E].
  - apply Hf in E. lia.
  - assert (length q ≠ 32%nat) by tauto.
    destruct (Z.leb_spec (head rb) (tail rb)).
    + rewrite wadd_small by (unfold fits; zlia). rewrite wsub_small by (unfold fits; zlia). zlia.
    + rewrite wsub_small by (unfold fits; zlia). zlia.
Qed.

Lemma read_byte_ok rb c q :
  ring_holds rb (c :: q) →
  ∃ rb', read_byte rb = Done (c, rb') ∧ ring_holds rb' q ∧ write_end rb' = write_end rb.
Proof.
  intros (Ha & Hh & Hlen & Ht & He & Hf & Hq). simpl in Hlen, Ht.
  unfold read_byte. erewrite bind_step by reflexivity.
  pose proof (Hq 0%nat c eq_refl) as Hc. rewrite Z.add_0_r, Z.mod_small in Hc by lia. rewrite Hc.
  erewrite bind_step by reflexivity. unfold RING_BUFFER_SIZE.
  rewrite wadd_small by (unfold fits; lia).
  eexists. split; [reflexivity|]. split; [|done].
  unfold ring_holds; simpl. split_and!; try lia.
  - apply Z.mod_pos_bound. lia.
  - apply Z.mod_pos_bound. lia.
  - rewrite Ht. rewrite Z.add_mod_idemp_l by lia. f_equal. lia.
  - destruct (Z.eqb_spec ((head rb + 1) mod 32) (tail rb)) as [E|E].
    + split; [intros _|done]. apply nil_length_inv. zlia.
    + split; [done|]. intros ->. simpl in Ht. by rewrite Ht in E.
  - assert (length q ≠ 32%nat) by lia. destruct (_ =? _); split; done || lia.
  - intros i c' Hi. rewrite Z.add_mod_idemp_l by lia.
    replace (head rb + 1 + Z.of_nat i) with (head rb + Z.of_nat (S i)) by lia. by apply Hq.
Qed.

Lemma write_byte_ok rb q c :
  ring_holds rb q → (length q < 32)%nat →
  ∃ rb', write_byte c rb = Done (bool_decide (length q < 31)%nat, rb') ∧
    ring_holds rb' (q ++ [c]) ∧ write_end rb' = write_end rb.
Proof.
  intros (Ha & Hh & Hlen & Ht & He & Hf & Hq) Hlt.
  assert (0 ≤ tail rb < 32) as Htb by (rewrite Ht; apply Z.mod_pos_bound; lia).
  unfold write_byte. erewrite bind_step by reflexivity.
  rewrite bool_decide_true by lia. erewrite bind_step by reflexivity.
  unfold RING_BUFFER_SIZE. rewrite wadd_small by (unfold fits; lia).
  assert (ring_holds (mkRing (<[Z.to_nat (tail rb) := c]> (arr rb)) (head rb) ((tail rb + 1) mod 32)
            (if decide (length q = 31%nat) then FULL else NORMAL) (write_end rb)) (q ++ [c])) as Hring.
  { unfold ring_holds; simpl. rewrite length_insert, length_app. simpl. split_and!; try lia.
    - rewrite Ht, Z.add_mod_idemp_l by lia. f_equal. lia.
    - split; [by case_decide|]. by destruct q.
    - case_decide; split; done || lia.
    - intros i c' [Hi|[Hi Hc']]%lookup_app_Some.
      + pose proof (lookup_lt_Some _ _ _ Hi). rewrite list_lookup_insert_ne; [by apply Hq|].
        rewrite Ht. intros E%Z2Nat.inj; [|apply Z.mod_pos_bound; lia..]. zlia.
      + apply list_lookup_singleton_Some in Hc' as [Hi' <-].
        replace (Z.of_nat i) with (Z.of_nat (length q)) by lia. rewrite <- Ht.
        apply list_lookup_insert_eq. lia. }
  destruct (Z.eqb_spec (head rb) ((tail rb + 1) mod 32)) as [E|E].
  - assert (length q = 31%nat) as Hl by zlia. rewrite bool_decide_false by lia.
    rewrite decide_True in Hring by done. eexists. split; [reflexivity|]. done.
  - assert (length q ≠ 31%nat) as Hl by zlia. rewrite bool_decide_true by lia.
    rewrite decide_False in Hring by done. eexists. split; [reflexivity|]. done.
Qed.

(** ** The loops of [read] and [write] *)

(** [bs] stored at the addresses [l], as far as both go. *)
Fixpoint store_all (m : pmem) (l bs : list Z) : pmem :=
  match l, bs with
  | a :: l, b :: bs => store_all (wr_pa m a b) l bs
  | _, _ => m
  end.

Lemma on_iter_next s :
  it_wf (op_iter s) →
  match it_rest (op_iter s) with
  | [] => on_iter UserBufferIterator_next s = Done (None, s)
  | a :: r => ∃ it', on_iter UserBufferIterator_next s =
                Done (Some a, mkOp (op_mem s) it' (op_ring s) (op_size s) (op_log s)) ∧
                it_wf it' ∧ it_rest it' = r
  end.
Proof.
  intros Hwf. pose proof (next_ok _ Hwf) as Hn. unfold on_iter, zoom.
  destruct (it_rest (op_iter s)); [rewrite Hn; by destruct s|].
  destruct Hn as (it' & -> & ? & ?). by exists it'.
Qed.

(** The [for] loop of [read] moves bytes from the front of the queue to the
    buffer until [n] are moved or the buffer is used up. *)
Lemma read_some_ok n s q :
  ring_holds (op_ring s) q → it_wf (op_iter s) → (n ≤ length q)%nat →
  let rest := it_rest (op_iter s) in
  let k := Nat.min n (length rest) in
  ∃ s', read_some n s = Done (if decide (n ≤ length rest)%nat then inl tt else inr (op_size s'), s') ∧
    ring_holds (op_ring s') (drop k q) ∧ write_end (op_ring s') = write_end (op_ring s) ∧
    it_wf (op_iter s') ∧ it_rest (op_iter s') = drop k rest ∧
    op_log s' = op_log s ++ take k q ∧ op_mem s' = store_all (op_mem s) rest (take k q).
Proof.
  revert s q. induction n as [|n IH]; intros s q Hring Hwf Hn rest k; subst rest k.
  - exists s. simpl. rewrite app_nil_r, drop_0. split_and!; try done. by destruct (it_rest _).
  - pose proof (on_iter_next s Hwf) as Hnext. cbn [read_some].
    destruct (it_rest (op_iter s)) as [|a r] eqn:Hrest.
    + exists s. rewrite (bind_step _ _ _ _ _ Hnext). simpl. rewrite app_nil_r, drop_0. by split_and!.
    + destruct Hnext as (it' & E & Hwf' & Hr). rewrite (bind_step _ _ _ _ _ E).
      destruct q as [|c q]; [simpl in Hn; lia|].
      destruct (read_byte_ok _ c q Hring) as (rb' & Er & Hring' & Hw).
      erewrite bind_step; [|unfold on_ring, zoom; simpl; rewrite Er; reflexivity].
      erewrite bind_step by reflexivity. erewrite bind_step by reflexivity.
      set (s1 := count_byte _ _).
      destruct (IH s1 q) as (s' & E' & H1 & H2 & H3 & H4 & H5 & H6); [done|done|simpl in Hn; lia|].
      exists s'. subst s1. simpl in *. rewrite Hr in *. rewrite E'. split_and!; try done.
      * repeat case_decide; done || lia.
      * congruence.
      * by rewrite H5, <- app_assoc.
Qed.

(** The [for] loop of [write] moves bytes from the buffer to the end of the
    queue. *)
Lemma write_some_ok n s q :
  ring_holds (op_ring s) q → it_wf (op_iter s) → (length q + n ≤ 32)%nat →
  let rest := it_rest (op_iter s) in
  let bs := take n (rd_pa (op_mem s) <$> rest) in
  ∃ s', write_some n s = Done (if decide (n ≤ length rest)%nat then inl tt else inr (op_size s'), s') ∧
    ring_holds (op_ring s') (q ++ bs) ∧ write_end (op_ring s') = write_end (op_ring s) ∧
    it_wf (op_iter s') ∧ it_rest (op_iter s') = drop n rest ∧
    op_log s' = op_log s ++ bs ∧ op_mem s' = op_mem s.
Proof.
  revert s q. induction n as [|n IH]; intros s q Hring Hwf Hn rest bs; subst rest bs.
  - exists s. simpl. rewrite !app_nil_r, drop_0. by split_and!.
  - pose proof (on_iter_next s Hwf) as Hnext. cbn [write_some].
    destruct (it_rest (op_iter s)) as [|a r] eqn:Hrest.
    + exists s. rewrite (bind_step _ _ _ _ _ Hnext). simpl. rewrite !app_nil_r. by split_and!.
    + destruct Hnext as (it' & E & Hwf' & Hr). rewrite (bind_step _ _ _ _ _ E).
      erewrite bind_step by reflexivity. cbn [op_mem].
      set (c := rd_pa (op_mem s) a).
      destruct (write_byte_ok _ q c Hring ltac:(lia)) as (rb' & Er & Hring' & Hw).
      erewrite bind_step; [|unfold on_ring, zoom; simpl; rewrite Er; reflexivity].
      erewrite bind_step by reflexivity. set (s1 := count_byte _ _).
      destruct (IH s1 (q ++ [c])) as (s' & E' & H1 & H2 & H3 & H4 & H5 & H6); [done|done|rewrite length_app; simpl; lia|].
      exists s'. subst s1. simpl in *. rewrite Hr in *. rewrite E'. split_and!; try done.
      * repeat case_decide; done || lia.
      * by rewrite <- app_assoc in H1.
      * congruence.
      * by rewrite H5, <- app_assoc.
Qed.

(** ** Any number of readers and writers *)

(** A call of [read] or [write] that has not returned yet. *)
Inductive pending := Reading (it : UserBufferIterator) (n : Z) | Writing (it : UserBufferIterator) (n : Z).

(** [ps_sent] and [ps_received] record what went into and came out of the pipe. *)
Record pipe_sys := mkPipeSys {
  ps_mem : pmem;
  ps_ring : PipeRingBuffer;
  ps_alive : bool;
  ps_calls : gmap nat pending;
  ps_sent : list Z;
  ps_received : list Z;
}.

(** The call after a turn: gone when it returned. *)
Definition after_turn (t : turn) (p : nat) (c : pending) (calls : gmap nat pending) : gmap nat pending :=
  match t with Return _ => delete p calls | _ => <[p := c]> calls end.

Inductive pipe_step : pipe_sys → pipe_sys → Prop :=
| step_begin_read m rb al cs sn rc p pipe u it :
    cs !! p = None → read_start pipe u = Some it → Forall sref_wf (buffers u) →
    pipe_step (mkPipeSys m rb al cs sn rc) (mkPipeSys m rb al (<[p := Reading it 0]> cs) sn rc)
| step_begin_write m rb al cs sn rc p pipe u it :
    cs !! p = None → write_start pipe u = Some it → Forall sref_wf (buffers u) →
    pipe_step (mkPipeSys m rb al cs sn rc) (mkPipeSys m rb al (<[p := Writing it 0]> cs) sn rc)
| step_read m rb al cs sn rc p it n t s' :
    cs !! p = Some (Reading it n) →
    read_turn (λ _, al) (mkOp m it rb n []) = Done (t, s') →
    pipe_step (mkPipeSys m rb al cs sn rc)
      (mkPipeSys (op_mem s') (op_ring s') al (after_turn t p (Reading (op_iter s') (op_size s')) cs)
         sn (rc ++ op_log s'))
| step_write m rb al cs sn rc p it n t s' :
    cs !! p = Some (Writing it n) →
    write_turn (mkOp m it rb n []) = Done (t, s') →
    pipe_step (mkPipeSys m rb al cs sn rc)
      (mkPipeSys (op_mem s') (op_ring s') al (after_turn t p (Writing (op_iter s') (op_size s')) cs)
         (sn ++ op_log s') rc)
| step_close m rb al cs sn rc :
    pipe_step (mkPipeSys m rb al cs sn rc) (mkPipeSys m rb false cs sn rc)
| step_memory m m' rb al cs sn rc :
    pipe_step (mkPipeSys m rb al cs sn rc) (mkPipeSys m' rb al cs sn rc).

(** A pipe just made by [make_pipe]. *)
Definition pipe_init (m : pmem) (b w : nat) : pipe_sys :=
  mkPipeSys m (make_pipe b w).1.1 true ∅ [] [].

Definition pending_iter (c : pending) : UserBufferIterator :=
  match c with Reading it _ | Writing it _ => it end.

Definition pipe_inv (s : pipe_sys) : Prop :=
  (∃ q, ring_holds (ps_ring s) q ∧ ps_sent s = ps_received s ++ q) ∧
  is_Some (write_end (ps_ring s)) ∧ map_Forall (λ _ c, it_wf (pending_iter c)) (ps_calls s).

Lemma read_turn_ok alive s q :
  ring_holds (op_ring s) q → it_wf (op_iter s) → is_Some (write_end (op_ring s)) →
  let k := Nat.min (length q) (length (it_rest (op_iter s))) in
  ∃ t s', read_turn alive s = Done (t, s') ∧
    ring_holds (op_ring s') (drop k q) ∧ write_end (op_ring s') = write_end (op_ring s) ∧
    it_wf (op_iter s') ∧ it_rest (op_iter s') = drop k (it_rest (op_iter s)) ∧
    op_log s' = op_log s ++ take k q ∧
    op_mem s' = store_all (op_mem s) (it_rest (op_iter s)) (take k q).
Proof.
  intros Hring Hwf [w Hw] k. unfold read_turn. erewrite bind_step by reflexivity.
  rewrite (available_read_length _ q Hring).
  destruct (Z.eqb_spec (Z.of_nat (length q)) 0) as [E|E].
  - destruct q; [|simpl in E; lia]. unfold all_write_ends_closed. rewrite Hw.
    erewrite bind_step by reflexivity. subst k. simpl. rewrite app_nil_r, drop_0.
    destruct (alive w); eexists _, s; (split; [reflexivity|]); split_and!; try done; by destruct (it_rest _).
  - rewrite Nat2Z.id.
    destruct (read_some_ok (length q) s q) as (s' & E' & Hres); [done|done|lia|].
    rewrite (bind_step _ _ _ _ _ E'). eexists _, s'. split; [reflexivity|]. done.
Qed.

Lemma write_turn_ok s q :
  ring_holds (op_ring s) q → it_wf (op_iter s) →
  let bs := take (32 - length q) (rd_pa (op_mem s) <$> it_rest (op_iter s)) in
  ∃ t s', write_turn s = Done (t, s') ∧
    ring_holds (op_ring s') (q ++ bs) ∧ write_end (op_ring s') = write_end (op_ring s) ∧
    it_wf (op_iter s') ∧ it_rest (op_iter s') = drop (32 - length q) (it_rest (op_iter s)) ∧
    op_log s' = op_log s ++ bs ∧ op_mem s' = op_mem s.
Proof.
  intros Hring Hwf bs. unfold write_turn. erewrite bind_step by reflexivity.
  rewrite (available_write_length _ q Hring).
  assert (length q ≤ 32)%nat as Hlen by apply Hring.
  destruct (Z.eqb_spec (32 - Z.of_nat (length q)) 0) as [E|E].
  - eexists Suspend, s. subst bs. replace (32 - length q)%nat with 0%nat by lia.
    rewrite take_0, !app_nil_r, drop_0. by split_and!.
  - replace (Z.to_nat (32 - Z.of_nat (length q))) with (32 - length q)%nat by lia.
    destruct (write_some_ok (32 - length q) s q) as (s' & E' & Hres); [done|done|lia|].
    rewrite (bind_step _ _ _ _ _ E'). eexists _, s'. split; [reflexivity|]. done.
Qed.

Lemma after_turn_wf t p c calls :
  map_Forall (λ _ c, it_wf (pending_iter c)) calls → it_wf (pending_iter c) →
  map_Forall (λ _ c, it_wf (pending_iter c)) (after_turn t p c calls).
Proof.
  intros Hc Hp. destruct t; simpl; [by apply map_Forall_delete|by apply map_Forall_insert_2..].
Qed.

Lemma pipe_inv_step s s' : pipe_inv s → pipe_step s s' → pipe_inv s'.
Proof.
  intros ((q & Hring & Hq) & Hw & Hc) Hstep. unfold pipe_inv. destruct Hstep; simpl in *.
  - unfold read_start in *. case_match; simplify_eq. split_and!; [by eauto|done|].
    apply map_Forall_insert_2; [|done]. by apply into_iter_wf.
  - unfold write_start in *. case_match; simplify_eq. split_and!; [by eauto|done|].
    apply map_Forall_insert_2; [|done]. by apply into_iter_wf.
  - pose proof (Hc _ _ H) as Hit. simpl in Hit.
    destruct (read_turn_ok (λ _, al) (mkOp m it rb n []) q) as (t' & s1 & E & H1 & H2 & H3 & _ & H5 & _); [done..|].
    rewrite E in H0. simplify_eq. simpl in *. split_and!; [|by rewrite H2|by apply after_turn_wf].
    eexists. split; [done|]. simpl. rewrite H5, <- app_assoc. by rewrite take_drop.
  - pose proof (Hc _ _ H) as Hit. simpl in Hit.
    destruct (write_turn_ok (mkOp m it rb n []) q) as (t' & s1 & E & H1 & H2 & H3 & _ & H5 & _); [done..|].
    rewrite E in H0. simplify_eq. simpl in *. split_and!; [|by rewrite H2|by apply after_turn_wf].
    eexists. split; [done|]. simpl. by rewrite H5, <- app_assoc.
  - split_and!; [by eauto|done|done].
  - split_and!; [by eauto|done|done].
Qed.

Lemma pipe_inv_reach m b w s : rtc pipe_step (pipe_init m b w) s → pipe_inv s.
Proof.
  intros Hreach. assert (pipe_inv (pipe_init m b w)) as Hinit.
  { split_and!; simpl; [|done|apply map_Forall_empty]. exists []. split; [apply ring_holds_new|done]. }
  induction Hreach as [|s1 s2 s3 Hstep _ IH]; [done|]. apply IH. by eapply pipe_inv_step.
Qed.

(** ** Properties *)

(** The ring buffer refines a queue of at most 32 bytes: a byte is written
    at the end whenever the queue is not full, read from the front whenever it
    is not empty, the two counters are the length and the free room, and
    [write_byte] returns [false] exactly when it fills the buffer. *)
Theorem ring_buffer_refines_queue (rb : PipeRingBuffer) (q : list Z) (c : Z) :
  ring_holds rb q →
  available_read rb = Z.of_nat (length q) ∧ available_write rb = 32 - Z.of_nat (length q) ∧
  ((length q < 32)%nat → ∃ rb', write_byte c rb = Done (bool_decide (length q < 31)%nat, rb') ∧
     ring_holds rb' (q ++ [c])) ∧
  (∀ d q', q = d :: q' → ∃ rb', read_byte rb = Done (d, rb') ∧ ring_holds rb' q').
Proof.
  intros Hring. split_and!.
  - by apply available_read_length.
  - by apply available_write_length.
  - intros Hlt. destruct (write_byte_ok rb q c Hring Hlt) as (rb' & ? & ? & _). eauto.
  - intros d q' ->. destruct (read_byte_ok rb d q' Hring) as (rb' & ? & ? & _). eauto.
Qed.

(** C20. A pipe is a byte stream: however the turns of readers and writers, the
    closing of the write end and other changes of memory are interleaved, what
    was sent is what was received followed by the at most 32 bytes in the
    buffer (nothing is lost, duplicated or reordered), and no pending call can
    make the kernel panic. Sent and received are the bytes put into and taken
    from the ring, logged in the order of the calls of [write_byte] and
    [read_byte]. *)
Theorem pipe_stream (m : pmem) (b w : nat) (s : pipe_sys) :
  rtc pipe_step (pipe_init m b w) s →
  (∃ q, (length q ≤ 32)%nat ∧ ps_sent s = ps_received s ++ q) ∧
  ∀ p c, ps_calls s !! p = Some c →
    match c with
    | Reading it n => ∃ t s', read_turn (λ _, ps_alive s) (mkOp (ps_mem s) it (ps_ring s) n []) = Done (t, s')
    | Writing it n => ∃ t s', write_turn (mkOp (ps_mem s) it (ps_ring s) n []) = Done (t, s')
    end.
Proof.
  intros Hreach. destruct (pipe_inv_reach _ _ _ _ Hreach) as ((q & Hring & Hq) & Hw & Hc). split.
  - exists q. split; [apply Hring|done].
  - intros p c Hp. specialize (Hc p c Hp). destruct c as [it n|it n]; simpl in Hc.
    + destruct (read_turn_ok (λ _, ps_alive s) (mkOp (ps_mem s) it (ps_ring s) n []) q)
        as (t & s' & E & _); [done..|]. eauto.
    + destruct (write_turn_ok (mkOp (ps_mem s) it (ps_ring s) n []) q) as (t & s' & E & _); [done..|]. eauto.
Qed.

(** A [read] whose buffer is exactly filled by the bytes at hand does not
    return: its turn ends by going round again with an empty buffer, and while
    a write end is open the next turn suspends. *)
Theorem exact_read_suspends (alive : nat → bool) (s : op_state) (q : list Z) (w : nat) :
  ring_holds (op_ring s) q → q ≠ [] → it_wf (op_iter s) →
  length (it_rest (op_iter s)) = length q → write_end (op_ring s) = Some w → alive w = true →
  ∃ s', read_turn alive s = Done (Again, s') ∧ it_rest (op_iter s') = [] ∧
    read_turn alive s' = Done (Suspend, s').
Proof.
  intros Hring Hne Hwf Hlen Hw Hal.
  destruct (read_some_ok (length q) s q) as (s' & E & H1 & H2 & H3 & H4 & _); [done|done|lia|].
  rewrite Hlen, Nat.min_id, decide_True in * by lia. rewrite drop_ge in H1 by lia.
  exists s'. split_and!.
  - unfold read_turn. erewrite bind_step by reflexivity. rewrite (available_read_length _ q Hring).
    rewrite (proj2 (Z.eqb_neq _ 0)) by (destruct q; simpl; done || lia).
    by rewrite Nat2Z.id, (bind_step _ _ _ _ _ E).
  - rewrite H4. apply drop_ge. lia.
  - unfold read_turn. erewrite bind_step by reflexivity. rewrite (available_read_length _ [] H1).
    unfold all_write_ends_closed. rewrite H2, Hw. simpl. by rewrite Hal.
Qed.

(** ** Witnesses *)

(** A ring buffer that holds three bytes around the end of the array. *)
Definition wit_ring : PipeRingBuffer :=
  mkRing ([7; 8] ++ replicate 29 0 ++ [6]) 31 2 NORMAL (Some 5%nat).

Lemma wit_ring_holds : ring_holds wit_ring [6; 7; 8].
Proof.
  unfold ring_holds; simpl. split_and!; try done; try lia.
  intros i c. destruct i as [|[|[|i]]]; simpl; intros; by simplify_eq.
Qed.

Lemma ring_buffer_refines_queue_witness :
  available_read wit_ring = 3 ∧ available_write wit_ring = 29 ∧
  ∃ rb', read_byte wit_ring = Done (6, rb') ∧ ring_holds rb' [7; 8].
Proof.
  destruct (ring_buffer_refines_queue wit_ring [6; 7; 8] 9 wit_ring_holds) as (H1 & H2 & _ & H4).
  split_and!; [exact H1|exact H2|]. by apply H4.
Defined.

Definition wit_buffer : UserBuffer := mkUserBuffer [mkSliceRef 0x80300 0xffe 2; mkSliceRef 0x80400 0 1].

Lemma wit_buffer_wf : Forall sref_wf (buffers wit_buffer).
Proof. repeat constructor; simpl; lia. Qed.

Lemma pipe_stream_witness :
  ∃ s, rtc pipe_step (pipe_init ∅ 0 5) s ∧ length (ps_sent s) = 3%nat ∧
    ∃ q, (length q ≤ 32)%nat ∧ ps_sent s = ps_received s ++ q.
Proof.
  eexists. match goal with |- ?P ∧ _ => assert P as Hreach end.
  { eapply rtc_l; [apply (step_begin_write _ _ _ _ _ _ 1%nat (write_end_with_buffer 0) wit_buffer);
                    [reflexivity|reflexivity|apply wit_buffer_wf]|].
    eapply rtc_l; [|apply rtc_refl].
    eapply (step_write _ _ _ _ _ _ 1%nat); [reflexivity|]. vm_compute. reflexivity. }
  split; [exact Hreach|split; [reflexivity|]].
  exact (proj1 (pipe_stream _ _ _ _ Hreach)).
Defined.

Lemma exact_read_suspends_witness :
  ∃ s', read_turn (λ _, true) (mkOp ∅ (UserBuffer_into_iter wit_buffer) wit_ring 0 []) = Done (Again, s') ∧
    read_turn (λ _, true) s' = Done (Suspend, s').
Proof.
  destruct (exact_read_suspends (λ _, true) (mkOp ∅ (UserBuffer_into_iter wit_buffer) wit_ring 0 [])
              [6; 7; 8] 5 wit_ring_holds) as (s' & E & _ & E');
    [done|apply into_iter_wf, wit_buffer_wf|reflexivity|done|done|].
  exists s'. split; [exact E|exact E'].
Defined.
