(* ===== verification/Process.v ===== *)
(** * Processes and scheduling (os/src/task/task.rs, manager.rs, processor.rs,
    mod.rs; the process system calls of os/src/syscall/process.rs)

    The kernel state holds the task control blocks behind their [Arc]s, the
    ready queue, the running task, the allocators, the kernel space and
    memory. [__switch] is the point where an operation ends: what runs next is
    the idle loop ([run_tasks]) and then the task it picks. The ELF parser, the
    addresses of assembly code and the control registers are parameters. *)

From S2P Require Import Prelude Address PhysMem FrameAllocator PageTable UserBuffer MemorySet.
From S2P Require Import TaskId FdTable Trap Pipe.

(** ** Task control blocks *)

Inductive TaskStatus := UnInit | Ready | Running | Zombie.

#[global] Instance TaskStatus_eq_dec : EqDecision TaskStatus.
Proof. solve_decision. Defined.

(** The files a descriptor can refer to; [arc] identifies the shared object. *)
Inductive file :=
| FStdin
| FStdout
| FPipe (p : Pipe) (arc : nat)
| FInode (arc : nat).

Record TaskInfo := mkTaskInfo { ti_start : Z; ti_all : Z; ti_stime : Z; ti_cutime : Z; ti_cstime : Z }.

Definition TaskInfo_new (now : Z) : TaskInfo := mkTaskInfo now 0 0 0 0.

(** [update_sys], [update_cu] and [update_cs] take [self] by value: they change
    a copy, which is dropped. *)
Definition update_sys (ti : TaskInfo) (ms : Z) : TaskInfo :=
  mkTaskInfo (ti_start ti) (ti_all ti) (ti_stime ti ⊞ ms) (ti_cutime ti) (ti_cstime ti).
Definition update_cu (ti : TaskInfo) (time : Z) : TaskInfo :=
  mkTaskInfo (ti_start ti) (ti_all ti) (ti_stime ti) time (ti_cstime ti).
Definition update_cs (ti : TaskInfo) (time : Z) : TaskInfo :=
  mkTaskInfo (ti_start ti) (ti_all ti) (ti_stime ti) (ti_cutime ti) time.

Record TaskContext := mkTaskContext { cx_ra : Z; cx_sp : Z; cx_s : list Z }.

Definition TaskContext_zero_init : TaskContext := mkTaskContext 0 0 (replicate 12 0).
Definition goto_trap_return (trap_return kstack_ptr : Z) : TaskContext :=
  mkTaskContext trap_return kstack_ptr (replicate 12 0).

Record TaskControlBlock := mkTCB {
  pid : Z;
  ppid : Z;
  kernel_stack : Z;
  trap_cx_ppn : Z;
  base_size : Z;
  task_cx : TaskContext;
  task_status : TaskStatus;
  memory_set : MemorySet;
  parent : option nat;
  children : list nat;
  exit_code : Z;
  fd_table : list (option file);
  heap_bottom : Z;
  program_brk : Z;
  task_info : TaskInfo;
  stride : Z;
  pri : Z;
  pwd : list Z;
}.

Definition set_status (x : TaskStatus) (t : TaskControlBlock) : TaskControlBlock :=
  mkTCB (pid t) (ppid t) (kernel_stack t) (trap_cx_ppn t) (base_size t) (task_cx t) x
    (memory_set t) (parent t) (children t) (exit_code t) (fd_table t) (heap_bottom t)
    (program_brk t) (task_info t) (stride t) (pri t) (pwd t).
Definition set_image (ms : MemorySet) (cx_ppn : Z) (t : TaskControlBlock) : TaskControlBlock :=
  mkTCB (pid t) (ppid t) (kernel_stack t) cx_ppn (base_size t) (task_cx t) (task_status t)
    ms (parent t) (children t) (exit_code t) (fd_table t) (heap_bottom t)
    (program_brk t) (task_info t) (stride t) (pri t) (pwd t).
Definition set_parent (x : option nat) (t : TaskControlBlock) : TaskControlBlock :=
  mkTCB (pid t) (ppid t) (kernel_stack t) (trap_cx_ppn t) (base_size t) (task_cx t) (task_status t)
    (memory_set t) x (children t) (exit_code t) (fd_table t) (heap_bottom t)
    (program_brk t) (task_info t) (stride t) (pri t) (pwd t).
Definition set_children (x : list nat) (t : TaskControlBlock) : TaskControlBlock :=
  mkTCB (pid t) (ppid t) (kernel_stack t) (trap_cx_ppn t) (base_size t) (task_cx t) (task_status t)
    (memory_set t) (parent t) x (exit_code t) (fd_table t) (heap_bottom t)
    (program_brk t) (task_info t) (stride t) (pri t) (pwd t).
Definition set_exit_code (x : Z) (t : TaskControlBlock) : TaskControlBlock :=
  mkTCB (pid t) (ppid t) (kernel_stack t) (trap_cx_ppn t) (base_size t) (task_cx t) (task_status t)
    (memory_set t) (parent t) (children t) x (fd_table t) (heap_bottom t)
    (program_brk t) (task_info t) (stride t) (pri t) (pwd t).
Definition set_fd_table (x : list (option file)) (t : TaskControlBlock) : TaskControlBlock :=
  mkTCB (pid t) (ppid t) (kernel_stack t) (trap_cx_ppn t) (base_size t) (task_cx t) (task_status t)
    (memory_set t) (parent t) (children t) (exit_code t) x (heap_bottom t)
    (program_brk t) (task_info t) (stride t) (pri t) (pwd t).
Definition set_brk (x : Z) (t : TaskControlBlock) : TaskControlBlock :=
  mkTCB (pid t) (ppid t) (kernel_stack t) (trap_cx_ppn t) (base_size t) (task_cx t) (task_status t)
    (memory_set t) (parent t) (children t) (exit_code t) (fd_table t) (heap_bottom t)
    x (task_info t) (stride t) (pri t) (pwd t).
Definition set_info (x : TaskInfo) (t : TaskControlBlock) : TaskControlBlock :=
  mkTCB (pid t) (ppid t) (kernel_stack t) (trap_cx_ppn t) (base_size t) (task_cx t) (task_status t)
    (memory_set t) (parent t) (children t) (exit_code t) (fd_table t) (heap_bottom t)
    (program_brk t) x (stride t) (pri t) (pwd t).
Definition set_stride (x : Z) (t : TaskControlBlock) : TaskControlBlock :=
  mkTCB (pid t) (ppid t) (kernel_stack t) (trap_cx_ppn t) (base_size t) (task_cx t) (task_status t)
    (memory_set t) (parent t) (children t) (exit_code t) (fd_table t) (heap_bottom t)
    (program_brk t) (task_info t) x (pri t) (pwd t).
Definition set_pri (x : Z) (t : TaskControlBlock) : TaskControlBlock :=
  mkTCB (pid t) (ppid t) (kernel_stack t) (trap_cx_ppn t) (base_size t) (task_cx t) (task_status t)
    (memory_set t) (parent t) (children t) (exit_code t) (fd_table t) (heap_bottom t)
    (program_brk t) (task_info t) (stride t) x (pwd t).
Definition set_pwd (x : list Z) (t : TaskControlBlock) : TaskControlBlock :=
  mkTCB (pid t) (ppid t) (kernel_stack t) (trap_cx_ppn t) (base_size t) (task_cx t) (task_status t)
    (memory_set t) (parent t) (children t) (exit_code t) (fd_table t) (heap_bottom t)
    (program_brk t) (task_info t) (stride t) (pri t) x.

Definition is_zombie (t : TaskControlBlock) : bool := bool_decide (task_status t = Zombie).

(** [memory_set] alone replaced. *)
Definition set_memory (ms : MemorySet) (t : TaskControlBlock) : TaskControlBlock :=
  set_image ms (trap_cx_ppn t) t.

(** ** The kernel state *)

Record kernel (A : Type) := mkKernel {
  k_mm : mm A;
  kernel_space : MemorySet;
  kstack_allocator : RecycleAllocator;
  pid_allocator : RecycleAllocator;
  tcbs : gmap nat TaskControlBlock;
  ready_queue : list nat;
  processor : option nat;
  k_time : Z;
}.
Arguments mkKernel {A} _ _ _ _ _ _ _ _.
Arguments k_mm {A} _.
Arguments kernel_space {A} _.
Arguments kstack_allocator {A} _.
Arguments pid_allocator {A} _.
Arguments tcbs {A} _.
Arguments ready_queue {A} _.
Arguments processor {A} _.
Arguments k_time {A} _.

(** The [Arc] of [INITPROC]. *)
Definition INITPROC : nat := 0.
Definition IDLE_PID : Z := 0.

(** What is outside the Rust code: the linker symbols, [xmas_elf], the
    addresses of [trap_return] and [trap_handler], and what [sstatus] holds
    when a context is made. *)
Record platform := mkPlatform {
  pf_ld : linker_symbols;
  pf_parse : list Z → option ElfFile;
  pf_trap_return : Z;
  pf_trap_handler : Z;
  pf_sstatus : Z;
}.

Section ops.
Context {A : Type} `{FrameAllocator A}.
Variable pf : platform.

Abbreviation K := (ST (kernel A)).

Definition on_mm {X} (m : ST (mm A) X) : K X :=
  zoom k_mm (λ x k, mkKernel x (kernel_space k) (kstack_allocator k) (pid_allocator k)
                      (tcbs k) (ready_queue k) (processor k) (k_time k)) m.
Definition on_mem {X} (m : ST pmem X) : K X :=
  on_mm (zoom mem (λ x s, mkMM (frame_allocator s) x) m).
Definition on_kspace {X} (m : ST (kspace A) X) : K X :=
  zoom (λ k, mkKspace (k_mm k) (kernel_space k) (kstack_allocator k))
    (λ x k, mkKernel (ks_mm x) (ks_space x) (ks_alloc x) (pid_allocator k)
              (tcbs k) (ready_queue k) (processor k) (k_time k)) m.
Definition on_pid {X} (m : ST RecycleAllocator X) : K X :=
  zoom pid_allocator (λ x k, mkKernel (k_mm k) (kernel_space k) (kstack_allocator k) x
                               (tcbs k) (ready_queue k) (processor k) (k_time k)) m.
Definition set_tcbs (x : gmap nat TaskControlBlock) (k : kernel A) : kernel A :=
  mkKernel (k_mm k) (kernel_space k) (kstack_allocator k) (pid_allocator k) x
    (ready_queue k) (processor k) (k_time k).
Definition set_queue (x : list nat) (k : kernel A) : kernel A :=
  mkKernel (k_mm k) (kernel_space k) (kstack_allocator k) (pid_allocator k) (tcbs k)
    x (processor k) (k_time k).
Definition set_processor (x : option nat) (k : kernel A) : kernel A :=
  mkKernel (k_mm k) (kernel_space k) (kstack_allocator k) (pid_allocator k) (tcbs k)
    (ready_queue k) x (k_time k).

Definition get_time : K Z := st_gets k_time.
Definition get_tcb (t : nat) : K TaskControlBlock := k ← st_get; unwrap (tcbs k !! t).
Definition update_tcb (t : nat) (f : TaskControlBlock → TaskControlBlock) : K unit :=
  tcb ← get_tcb t; st_modify (λ k, set_tcbs (<[t := f tcb]> (tcbs k)) k).

(** [Arc::new(tcb)]. *)
Definition arc_new (tcb : TaskControlBlock) : K nat :=
  k ← st_get;
  let t := fresh (dom (tcbs k)) in
  st_put (set_tcbs (<[t := tcb]> (tcbs k)) k);;
  mret t.

(** The references to a task in the queue, the processor, the children of all
    tasks and [INITPROC]: the strong count of its [Arc] that no local variable
    holds. (Those of suspended calls are counted in System.v.) *)
Definition strong_count (k : kernel A) (t : nat) : nat :=
  length (filter (λ x, x = t) (ready_queue k)) +
  length (filter (λ x, x = t) (option_list (processor k))) +
  length (filter (λ x, x = t) (mjoin ((children ∘ snd) <$> map_to_list (tcbs k)))) +
  (if decide (t = INITPROC) then 1 else 0).

(** ** processor.rs: the current task *)

Definition current_task : K nat := o ← st_gets processor; unwrap o.
Definition take_current_task : K (option nat) :=
  o ← st_gets processor; st_modify (set_processor None);; mret o.
Definition current_user_token : K Z :=
  t ← current_task; tcb ← get_tcb t; mret (MemorySet_token (memory_set tcb)).

(** [update_time]: the copy that [update_sys] changes is dropped. *)
Definition update_time (ms : Z) : K unit :=
  t ← current_task; tcb ← get_tcb t;
  let _ := update_sys (task_info tcb) ms in mret tt.

(** ** task.rs *)

(** The trap-context page of an address space. *)
Definition trap_cx_page (ms : MemorySet) : K Z :=
  vpn ← unwrap (VirtPageNum_from_VirtAddr (VirtAddr_from TRAP_CONTEXT_BASE));
  k ← st_get;
  pte ← unwrap (MemorySet_translate (mem (k_mm k)) ms vpn);
  mret (PTE_ppn pte).

Definition pid_alloc : K Z := on_pid RecycleAllocator_alloc.

(** [*trap_cx = TrapContext::app_init_context(..)] at page [ppn]. *)
Definition init_trap_cx (ppn entry sp kernel_sp : Z) : K unit :=
  k ← st_get;
  let cx := app_init_context (pf_sstatus pf) entry sp (MemorySet_token (kernel_space k)) kernel_sp
              (pf_trap_handler pf) in
  on_mem (st_modify (λ m, write_trap_cx m ppn cx)).

Definition std_fds : list (option file) := [Some FStdin; Some FStdout; Some FStdout].

Definition TaskControlBlock_new (elf_data : list Z) : K TaskControlBlock :=
  '(ms, user_sp, entry_point) ← on_mm (from_elf (pf_ld pf) (pf_parse pf) elf_data);
  cx_ppn ← trap_cx_page ms;
  pid_handle ← pid_alloc;
  kstack ← on_kspace kstack_alloc;
  let kernel_stack_top := get_top kstack in
  now ← get_time;
  let tcb := mkTCB pid_handle 0 kstack cx_ppn user_sp
               (goto_trap_return (pf_trap_return pf) kernel_stack_top) Ready ms None [] 0 std_fds
               user_sp (user_sp ⊞ PAGE_SIZE) (TaskInfo_new now) 0 16 [47] in
  init_trap_cx cx_ppn entry_point user_sp kernel_stack_top;;
  mret tcb.

Definition exec (t : nat) (elf_data : list Z) : K unit :=
  '(ms, user_sp, entry_point) ← on_mm (from_elf (pf_ld pf) (pf_parse pf) elf_data);
  cx_ppn ← trap_cx_page ms;
  tcb ← get_tcb t;
  on_mm (drop_MemorySet (memory_set tcb));;
  update_tcb t (set_image ms cx_ppn);;
  init_trap_cx cx_ppn entry_point user_sp (get_top (kernel_stack tcb)).

(** The child of [fork] and [spawn]: a new block that is pushed to the
    parent's children. *)
Definition add_child (t : nat) (child : TaskControlBlock) : K nat :=
  c ← arc_new child;
  update_tcb t (λ tcb, set_children (children tcb ++ [c]) tcb);;
  mret c.

Definition fork (t : nat) : K nat :=
  p ← get_tcb t;
  ms ← on_mm (from_existed_user (pf_ld pf) (memory_set p));
  cx_ppn ← trap_cx_page ms;
  pid_handle ← pid_alloc;
  kstack ← on_kspace kstack_alloc;
  let kernel_stack_top := get_top kstack in
  now ← get_time;
  c ← add_child t
        (mkTCB pid_handle (pid p) kstack cx_ppn (base_size p)
           (goto_trap_return (pf_trap_return pf) kernel_stack_top) Ready ms (Some t) [] 0 (fd_table p)
           (heap_bottom p) (program_brk p) (TaskInfo_new now) 0 16 (pwd p));
  on_mem (st_modify (λ m, wr m cx_ppn TC_KERNEL_SP kernel_stack_top));;
  mret c.

Definition spawn (t : nat) (elf_data : list Z) : K nat :=
  p ← get_tcb t;
  '(ms, user_sp, entry_point) ← on_mm (from_elf (pf_ld pf) (pf_parse pf) elf_data);
  cx_ppn ← trap_cx_page ms;
  pid_handle ← pid_alloc;
  kstack ← on_kspace kstack_alloc;
  let kernel_stack_top := get_top kstack in
  now ← get_time;
  c ← add_child t
        (mkTCB pid_handle (pid p) kstack cx_ppn user_sp
           (goto_trap_return (pf_trap_return pf) kernel_stack_top) Ready ms (Some t) [] 0 std_fds
           (heap_bottom p) (program_brk p) (TaskInfo_new now) 0 16 (pwd p));
  init_trap_cx cx_ppn entry_point user_sp kernel_stack_top;;
  mret c.

Definition set_priority (t : nat) (prio : Z) : K unit := update_tcb t (set_pri prio).

(** [stride += BIGSTRIDE / pri]: [isize], truncating; division by zero panics. *)
Definition next_stride (stride pri : Z) : option Z :=
  if pri =? 0 then None else Some (to_signed 64 (stride + Z.quot BIGSTRIDE pri)).

Definition update_stri (t : nat) : K unit :=
  tcb ← get_tcb t;
  s ← unwrap (next_stride (stride tcb) (pri tcb));
  update_tcb t (set_stride s).

Definition change_program_brk (t : nat) (new_add : Z) : K (option Z) :=
  tcb ← get_tcb t;
  let old_break := program_brk tcb in
  if new_add =? 0 then mret (Some old_break)
  else
    let size := to_signed 64 (new_add - to_signed 64 old_break) in
    let new_brk := to_signed 64 (to_signed 64 old_break + size) in
    if new_brk <? to_signed 64 (heap_bottom tcb) then mret None
    else if PAGE_SIZE <? size then
      '(result, ms) ← (if size <? 0
                       then on_mm (MemorySet_shrink_to (memory_set tcb) (heap_bottom tcb) (wrap 64 new_brk))
                       else on_mm (MemorySet_append_to (memory_set tcb) (heap_bottom tcb) (wrap 64 new_brk)));
      update_tcb t (set_memory ms);;
      if result : bool then
        update_tcb t (set_brk (wrap 64 new_brk));; mret (Some old_break)
      else mret None
    else
      update_tcb t (set_brk (wrap 64 new_brk));; mret (Some (wrap 64 new_brk)).

(** [TaskControlBlock::map] and [unmap]. *)
Definition task_map (t : nat) (vpn ppn flags : Z) : K Z :=
  tcb ← get_tcb t;
  '(_, ms) ← on_mm (MemorySet_map (memory_set tcb) vpn ppn flags);
  update_tcb t (set_memory ms);;
  mret 0.
Definition task_unmap (t : nat) (vpn : Z) : K Z :=
  tcb ← get_tcb t;
  on_mm (MemorySet_unmap (memory_set tcb) vpn);;
  mret 0.

(** Dropping the last [Arc] of a task drops its fields in order; [fuel] bounds
    the depth of the tree of children that go with it. *)
Fixpoint drop_task (fuel : nat) (t : nat) : K unit :=
  match fuel with
  | O => λ _, NoFuel
  | S fuel =>
      tcb ← get_tcb t;
      st_modify (λ k, set_tcbs (delete t (tcbs k)) k);;
      on_pid (RecycleAllocator_dealloc (pid tcb));;
      on_kspace (KernelStack_drop (kernel_stack tcb));;
      on_mm (drop_MemorySet (memory_set tcb));;
      for_each (children tcb) (λ c,
        k ← st_get;
        if decide (strong_count k c = 0%nat) then drop_task fuel c else mret tt)
  end.

(** ** manager.rs *)

Definition add_task (t : nat) : K unit := st_modify (λ k, set_queue (ready_queue k ++ [t]) k).

(** The loop of [fetch]: the last task among those with the least stride. *)
Definition scan_min (strides : list Z) (first : Z) : nat * Z :=
  foldl (λ '(id, stride) '(i, s), if s <=? stride then (i, s) else (id, stride))
    (0%nat, first) (imap pair strides).

Definition fetch : K (option nat) :=
  k ← st_get;
  t0 ← unwrap (ready_queue k !! 0%nat);
  inner1 ← get_tcb t0;
  strides ← for_fold (ready_queue k) [] (λ acc t, tcb ← get_tcb t; mret (acc ++ [stride tcb]));
  let '(id, _) := scan_min strides (stride inner1) in
  st_put (set_queue (delete id (ready_queue k)) k);;
  mret (ready_queue k !! id).

(** ** processor.rs and mod.rs: switching *)

(** One turn of [run_tasks], up to [__switch] to the task. *)
Definition run_tasks_turn : K unit :=
  o ← fetch;
  match o with
  | Some t =>
      update_tcb t (set_status Running);;
      now ← get_time;
      update_tcb t (λ tcb, set_info (mkTaskInfo now (ti_all (task_info tcb)) (ti_stime (task_info tcb))
                                       (ti_cutime (task_info tcb)) (ti_cstime (task_info tcb))) tcb);;
      update_stri t;;
      st_modify (set_processor (Some t))
  | None => mret tt
  end.

(** [task_info.all += ms - task_info.start]. *)
Definition charge_time (now : Z) (ti : TaskInfo) : TaskInfo :=
  mkTaskInfo (ti_start ti) (ti_all ti ⊞ (now ⊟ ti_start ti)) (ti_stime ti) (ti_cutime ti) (ti_cstime ti).

(** [suspend_current_and_run_next], up to [schedule]. *)
Definition suspend_current : K unit :=
  o ← take_current_task;
  t ← unwrap o;
  update_tcb t (set_status Ready);;
  ms ← get_time;
  update_tcb t (λ tcb, set_info (charge_time ms (task_info tcb)) tcb);;
  add_task t.

(** [exit_current_and_run_next], up to [schedule]. [INITPROC] itself cannot
    exit: its block is borrowed twice. *)
Definition exit_current (code : Z) : K unit :=
  o ← take_current_task;
  t ← unwrap o;
  tcb ← get_tcb t;
  rassert (negb (pid tcb =? IDLE_PID));;
  ms ← get_time;
  update_tcb t (λ tcb, set_info (charge_time ms (task_info tcb)) tcb);;
  update_tcb t (set_status Zombie);;
  update_tcb t (set_exit_code code);;
  rassert (bool_decide (t ≠ INITPROC));;
  for_each (children tcb) (λ child,
    update_tcb child (set_parent (Some INITPROC));;
    update_tcb INITPROC (λ ip, set_children (children ip ++ [child]) ip));;
  update_tcb t (set_children []);;
  ms ← on_mm (recycle_data_pages (memory_set tcb));
  update_tcb t (set_memory ms);;
  update_tcb t (set_fd_table []).

(** [INITPROC], created when it is first used, and [add_initproc]. *)
Definition add_initproc (elf_data : list Z) : K unit :=
  tcb ← TaskControlBlock_new elf_data;
  st_modify (λ k, set_tcbs (<[INITPROC := tcb]> (tcbs k)) k);;
  add_task INITPROC.

(** ** syscall/process.rs *)

Definition sys_getpid : K Z := t ← current_task; tcb ← get_tcb t; mret (to_signed 64 (pid tcb)).
Definition sys_getppid : K Z := t ← current_task; tcb ← get_tcb t; mret (to_signed 64 (ppid tcb)).

Definition sys_fork (flags stack ptid tls ctid : Z) : K Z :=
  t ← current_task;
  new_task ← fork t;
  tcb ← get_tcb new_task;
  on_mem (st_modify (λ m, wr m (trap_cx_ppn tcb) (TC_X 10) 0));;
  (if negb (stack =? 0) then on_mem (st_modify (λ m, wr m (trap_cx_ppn tcb) (TC_X 2) stack)) else mret tt);;
  add_task new_task;;
  mret (to_signed 64 (pid tcb)).

(** The end of [sys_spawn] and of [sys_exec], for the data of the file. *)
Definition sys_spawn_data (all_data : list Z) : K Z :=
  t ← current_task;
  new_task ← spawn t all_data;
  tcb ← get_tcb new_task;
  add_task new_task;;
  mret (to_signed 64 (pid tcb)).
Definition sys_exec_data (all_data : list Z) : K Z :=
  t ← current_task;
  exec t all_data;;
  mret 0.

Definition sys_set_priority (prio : Z) : K Z :=
  if prio <=? 1 then mret (-1)
  else t ← current_task; set_priority t prio;; mret prio.

Definition sys_brk (size : Z) : K Z :=
  t ← current_task;
  o ← change_program_brk t (to_signed 64 size);
  mret match o with Some new_brk => to_signed 64 new_brk | None => -1 end.

(** [pid == -1 || pid as usize == p.getpid()]. *)
Definition pid_matches (want : Z) (tcb : TaskControlBlock) : bool := (want =? -1) || (wrap 64 want =? pid tcb).

(** The control blocks of a list of tasks. *)
Definition get_tcbs (l : list nat) : K (list (nat * TaskControlBlock)) :=
  for_fold l [] (λ acc c, tcb ← get_tcb c; mret (acc ++ [(c, tcb)])).

(** The end of [waitpid], once the child is out of the children: its exit code,
    an [i32], shifted, is stored as four bytes, and the last reference to it is
    dropped. *)
Definition reap (token exit_code_ptr : Z) (fuel child : nat) (ctcb : TaskControlBlock) : K Z :=
  let found_pid := pid ctcb in
  (if negb (exit_code_ptr =? 0) then
     pa ← on_mem (translated_refmut token exit_code_ptr);
     on_mem (st_modify (λ m, wr_bytes m pa (le_bytes 4 (wshl 32 (wrap 32 (exit_code ctcb)) 8))))
   else mret tt);;
  drop_task fuel child;;
  mret (to_signed 64 found_pid).

Definition waitpid (want exit_code_ptr : Z) : K Z :=
  t ← current_task;
  inner ← get_tcb t;
  cs ← get_tcbs (children inner);
  if negb (existsb (λ '(_, c), pid_matches want c) cs) then mret (-1)
  else
    match list_find (λ '(_, c), is_zombie c && pid_matches want c = true) cs with
    | Some (idx, (child, ctcb)) =>
        update_tcb t (λ inner, set_children (delete idx (children inner)) inner);;
        k ← st_get;
        rassert (bool_decide (strong_count k child = 0%nat));;
        reap (MemorySet_token (memory_set inner)) exit_code_ptr (S (size (tcbs k))) child ctcb
    | None => mret (-2)
    end.

End ops.
