(* ===== verification/Switch.v ===== *)
(** * Switching kernel stacks (os/src/task/switch.S)

    [__switch] stores the callee-saved registers of the running kernel thread in
    its [TaskContext] and loads those of another one. The contexts are in kernel
    memory, which the kernel's page table maps to itself; they may cross a page
    boundary. *)

From S2P Require Import Prelude Address PhysMem FrameAllocator PageTable MemorySet Trap Asm Process.
Import Riscv.

(** The kernel's own code stays mapped while it runs. *)
Definition run_kernel (code : list instr) : ST machine unit := for_each code exec_instr.

(** The word at an address of identity-mapped memory. *)
Definition rdw (m : pmem) (va : Z) : Z := rd m (va / 4096) (va mod 4096 / 8).
Definition wrw (m : pmem) (va v : Z) : pmem := wr m (va / 4096) (va mod 4096 / 8) v.

(** The struct [TaskContext] in memory: [ra], [sp], [s0], .., [s11]. *)
Definition read_task_cx (m : pmem) (va : Z) : TaskContext :=
  mkTaskContext (rdw m va) (rdw m (va + 8)) ((λ n, rdw m (va + (Z.of_nat n + 2) * 8)) <$> seq 0 12).

(** The registers that a call preserves. *)
Definition callee_saved (m : machine) : TaskContext :=
  mkTaskContext (reg ra m) (reg sp m) ((λ n, reg (s_ n) m) <$> seq 0 12).

Lemma rdw_wrw m va vb v : va mod 8 = 0 → vb mod 8 = 0 → rdw (wrw m va v) vb = if decide (va = vb) then v else rdw m vb.
Proof.
  intros Ha Hb. unfold rdw, wrw. rewrite rd_wr. destruct (decide (va = vb)) as [->|Hne]; [by rewrite decide_True|].
  rewrite decide_False; [done|]. intros [? ?]. apply Hne. zlia.
Qed.

Section switch.
Context {A : Type} `{FrameAllocatorLaws A}.
Context (s : mm A) (ks : PageTable) (K : gmap Z Z).
Hypothesis (Hks : represents s ks K) (Hroot : fits 44 (root_ppn ks)).

(** The [TaskContext] at [c] is kernel data: aligned, and on pages that are
    mapped to themselves, readable and writable, and not part of the table. *)
Definition context_at (c : Z) : Prop :=
  c mod 8 = 0 ∧ 0 ≤ c ∧ c + 112 ≤ 2 ^ 38 ∧
  ∀ v, c / 4096 ≤ v ≤ (c + 111) / 4096 → K !! v = Some (PTE_new v 7) ∧ v ∉ pt_frames ks.

(** The tables are those of [s]. *)
Definition tables_kept (m : machine) : Prop :=
  satp m = token ks ∧ ∀ q i, q ∈ pt_frames ks → rd (memory m) q i = rd (mem s) q i.

Lemma access_word c k need m :
  context_at c → tables_kept m → 0 ≤ k < 14 → (∀ e, PTE_flags e = Some 7 → need e = true) →
  access need (c ⊞ k * 8) m = Done (((c + k * 8) / 4096, (c + k * 8) mod 4096 / 8), m).
Proof.
  intros (Hal & Hc0 & Hc1 & HK) [Hsat Htab] Hk Hn. unfold access. rewrite wadd_small by (unfold fits; lia).
  assert (canonical (c + k * 8) && ((c + k * 8) mod 8 =? 0) = true) as ->.
  { unfold canonical. apply andb_true_intro. split; [apply orb_true_intro; left|]; apply Z.eqb_eq; zlia. }
  erewrite bind_step by reflexivity. set (v := (c + k * 8) / 4096). rewrite (wrap_small 27 v) by (unfold fits, v; zlia).
  destruct (HK v) as [HKv Hv]; [unfold v; zlia|]. assert (fits 27 v) as Hfv by (unfold fits, v; zlia).
  destruct (represents_agree s ks K (memory m) v (PTE_new v 7) Hks Htab Hfv HKv) as [Ht Hval].
  assert (fits 44 v) as Hf44 by (unfold fits in *; lia). assert (PTE_flags (PTE_new v 7) = Some 7) as Hfl by (apply PTE_flags_new; [done|by unfold fits]).
  unfold page_for. erewrite bind_step; [|erewrite bind_step by reflexivity]; [reflexivity|].
  rewrite Hsat, token_mode by done. erewrite bind_step by reflexivity.
  assert (translate (memory m) (from_token (token ks)) v = Some (PTE_new v 7)) as ->.
  { unfold translate, find_pte in *. by rewrite token_root. }
  erewrite bind_step by reflexivity. rewrite Hval, (Hn _ Hfl). unfold PTE_has at 1. rewrite Hfl. erewrite bind_step by reflexivity.
  by rewrite PTE_ppn_new by (done || by unfold fits).
Qed.

Lemma sd_word c k rs base m :
  context_at c → tables_kept m → 0 ≤ k < 14 → reg base m = c →
  exec_instr (Sd rs (k * 8) base) m = Done (tt, set_memory (wrw (memory m) (c + k * 8) (reg rs m)) m).
Proof.
  intros Hc Hm Hk Hb. unfold exec_instr. erewrite bind_step by reflexivity. rewrite Hb.
  rewrite (bind_step _ _ _ _ _ (access_word c k writable m Hc Hm Hk ltac:(intros e He; unfold writable, PTE_has; by rewrite He))). done.
Qed.

Lemma ld_word c k n base m :
  context_at c → tables_kept m → 0 ≤ k < 14 → reg base m = c →
  exec_instr (Ld n (k * 8) base) m = Done (tt, set_reg n (rdw (memory m) (c + k * 8)) m).
Proof.
  intros Hc Hm Hk Hb. unfold exec_instr. erewrite bind_step by reflexivity. rewrite Hb.
  rewrite (bind_step _ _ _ _ _ (access_word c k readable m Hc Hm Hk ltac:(intros e He; unfold readable, PTE_has; by rewrite He))). done.
Qed.

(** Runs of stores and loads of registers to and from words. *)
Definition store_words (c : Z) (m : machine) (l : list (nat * Z)) (p : pmem) : pmem :=
  foldl (λ p '(r, k), wrw p (c + k * 8) (reg r m)) p l.
Definition load_words (c : Z) (p : pmem) (l : list (nat * Z)) (X : list Z) : list Z :=
  foldl (λ X '(r, k), <[r := rdw p (c + k * 8)]> X) X l.

Lemma wrw_tables c k v m : context_at c → 0 ≤ k < 14 → tables_kept m → tables_kept (set_memory (wrw (memory m) (c + k * 8) v) m).
Proof.
  intros (_ & _ & _ & HK) Hk [Hsat Hm]. split; [done|]. intros q i Hq. cbn [memory set_memory]. unfold wrw.
  rewrite rd_wr, decide_False; [by apply Hm|]. intros [<- _]. destruct (HK ((c + k * 8) / 4096)); [zlia|done].
Qed.

Lemma stores_ok c l m :
  context_at c → tables_kept m → reg a0 m = c → Forall (λ rk, 0 ≤ rk.2 < 14) l →
  run_kernel ((λ '(r, k), Sd r (k * 8) a0) <$> l) m = Done (tt, set_memory (store_words c m l (memory m)) m) ∧
  tables_kept (set_memory (store_words c m l (memory m)) m).
Proof.
  intros Hc Hm Ha Hl. destruct m as [X p u sa ss st se sv mem0].
  assert (∀ mem1, tables_kept (mkMachine X p u sa ss st se sv mem1) →
    run_kernel ((λ '(r, k), Sd r (k * 8) a0) <$> l) (mkMachine X p u sa ss st se sv mem1) =
      Done (tt, mkMachine X p u sa ss st se sv (store_words c (mkMachine X p u sa ss st se sv mem0) l mem1)) ∧
    tables_kept (mkMachine X p u sa ss st se sv (store_words c (mkMachine X p u sa ss st se sv mem0) l mem1))) as Hg; [|by apply Hg].
  induction Hl as [|[r k] l Hk _ IH]; intros mem1 Hm1; [done|]. cbn [fmap list_fmap]. unfold run_kernel. cbn [for_each].
  rewrite (bind_step _ _ _ _ _ (sd_word c k r a0 (mkMachine X p u sa ss st se sv mem1) Hc Hm1 Hk Ha)).
  exact (IH _ (wrw_tables c k _ _ Hc Hk Hm1)).
Qed.

Lemma loads_words_ok c l m :
  context_at c → tables_kept m → reg a1 m = c → Forall (λ rk, 0 ≤ rk.2 < 14 ∧ (0 < rk.1)%nat ∧ rk.1 ≠ a1) l →
  run_kernel ((λ '(r, k), Ld r (k * 8) a1) <$> l) m = Done (tt, set_x (load_words c (memory m) l (x m)) m).
Proof.
  intros Hc Hm Ha Hl. destruct m as [X p u sa ss st se sv mem0].
  cbn [set_x x pc user satp sscratch sstatus sepc stvec memory] in *. revert X Hm Ha.
  induction Hl as [|[r k] l (Hk & Hr & Hra) _ IH]; intros X Hm Ha; [done|]. cbn [fmap list_fmap fst snd] in *. unfold run_kernel. cbn [for_each].
  rewrite (bind_step _ _ _ _ _ (ld_word c k r a1 (mkMachine X p u sa ss st se sv mem0) Hc Hm Hk Ha)).
  destruct r as [|r]; [lia|].
  etrans; [apply (IH (<[S r := rdw mem0 (c + k * 8)]> X)); [exact Hm|]|reflexivity].
  cbn [reg x] in *. by rewrite list_lookup_insert_ne by done.
Qed.

Lemma rdw_store_words c m l p vb :
  vb mod 8 = 0 → c mod 8 = 0 → NoDup l.*2 →
  (∀ r k, (r, k) ∈ l → vb = c + k * 8 → rdw (store_words c m l p) vb = reg r m) ∧
  ((∀ r k, (r, k) ∈ l → vb ≠ c + k * 8) → rdw (store_words c m l p) vb = rdw p vb).
Proof.
  intros Hb Hc. revert p. induction l as [|[r0 k0] l IH]; intros p Hnd; [split; [by intros ?? []%not_elem_of_nil|done]|].
  cbn in Hnd. apply NoDup_cons in Hnd as [Hk0 Hnd].
  change (store_words c m ((r0, k0) :: l) p) with (store_words c m l (wrw p (c + k0 * 8) (reg r0 m))).
  destruct (IH (wrw p (c + k0 * 8) (reg r0 m)) Hnd) as [IH1 IH2]. split.
  - intros r k [[= -> ->]|Hin]%elem_of_cons Hvb; [|by eapply IH1].
    rewrite IH2; [rewrite rdw_wrw, decide_True by (done || zlia); done|]. intros r k Hin ->.
    apply Hk0. apply list_elem_of_fmap. exists (r, k). split; [cbn; lia|done].
  - intros Hno. rewrite IH2 by (intros; eapply Hno; by right). rewrite rdw_wrw, decide_False; [done| |zlia|done].
    intros E. by apply (Hno r0 k0); [left|].
Qed.

Lemma lookup_load_words c p l X r k :
  NoDup l.*1 → Forall (λ rk, rk.1 < length X)%nat l → (r, k) ∈ l → load_words c p l X !! r = Some (rdw p (c + k * 8)).
Proof.
  revert X. induction l as [|[r0 k0] l IH]; intros X Hnd Hl; [by intros []%not_elem_of_nil|].
  cbn in Hnd. apply NoDup_cons in Hnd as [Hr0 Hnd]. apply Forall_cons in Hl as [Hr Hl].
  change (load_words c p ((r0, k0) :: l) X) with (load_words c p l (<[r0 := rdw p (c + k0 * 8)]> X)).
  intros [[= -> ->]|Hin]%elem_of_cons; [|apply IH; [done|by rewrite length_insert|done]].
  clear IH. assert (length (<[r0 := rdw p (c + k0 * 8)]> X) = length X) as Hlen by apply length_insert.
  assert (<[r0 := rdw p (c + k0 * 8)]> X !! r0 = Some (rdw p (c + k0 * 8))) as HX by (by apply list_lookup_insert_eq).
  revert HX. generalize (<[r0 := rdw p (c + k0 * 8)]> X). clear Hnd Hl Hlen. induction l as [|[r1 k1] l IH]; intros Y HY; [done|].
  cbn in Hr0. apply not_elem_of_cons in Hr0 as [? ?]. apply IH; [done|]. by rewrite list_lookup_insert_ne by done.
Qed.

Lemma length_load_words c p l X : length (load_words c p l X) = length X.
Proof.
  revert X. induction l as [|[r k] l IH]; intros X; [done|].
  change (load_words c p ((r, k) :: l) X) with (load_words c p l (<[r := rdw p (c + k * 8)]> X)). by rewrite IH, length_insert.
Qed.

(** The words of a context and the registers they hold. *)
Definition callee_words : list (nat * Z) := (λ n, (s_ n, Z.of_nat n + 2)) <$> seq 0 12.

Lemma switch_ok cur nxt m :
  context_at cur → context_at nxt → cur + 112 ≤ nxt ∨ nxt + 112 ≤ cur → tables_kept m → length (x m) = 32%nat →
  reg a0 m = cur → reg a1 m = nxt →
  ∃ m', run_kernel __switch m = Done (tt, m') ∧ tables_kept m' ∧ length (x m') = 32%nat ∧
    read_task_cx (memory m') cur = callee_saved m ∧ callee_saved m' = read_task_cx (memory m) nxt ∧
    pc m' = cx_ra (read_task_cx (memory m) nxt) ∧
    ∀ vb, vb mod 8 = 0 → ¬ cur ≤ vb < cur + 112 → rdw (memory m') vb = rdw (memory m) vb.
Proof.
  intros Hcur Hnxt Hdis Hm Hlen Ha0 Ha1. set (saved := (sp, 1) :: (ra, 0) :: callee_words). set (loaded := (ra, 0) :: callee_words ++ [(sp, 1)]).
  change __switch with (((λ '(r, k), Sd r (k * 8) a0) <$> saved) ++ ((λ '(r, k), Ld r (k * 8) a1) <$> loaded) ++ [Jr ra]).
  destruct (stores_ok cur saved m Hcur Hm Ha0) as [E1 Hm1]; [apply (bool_decide_unpack _); vm_compute; done|].
  set (m1 := set_memory (store_words cur m saved (memory m)) m) in *.
  pose proof (loads_words_ok nxt loaded m1 Hnxt Hm1 Ha1 ltac:(apply (bool_decide_unpack _); vm_compute; done)) as E2.
  set (X2 := load_words nxt (memory m1) loaded (x m1)) in E2.
  assert (∀ vb, vb mod 8 = 0 → ¬ cur ≤ vb < cur + 112 → rdw (memory m1) vb = rdw (memory m) vb) as Hother.
  { intros vb Hvb Hout. apply rdw_store_words; [done|apply Hcur|apply (bool_decide_unpack _); vm_compute; done|].
    assert (Forall (λ rk : nat * Z, 0 ≤ rk.2 < 14) saved) as Hall by (apply (bool_decide_unpack _); vm_compute; done).
    rewrite Forall_forall in Hall. intros r k Hin ->. specialize (Hall _ Hin). cbn in Hall. lia. }
  assert (∀ r k, (r, k) ∈ loaded → 0 ≤ k < 14 → X2 !! r = Some (rdw (memory m) (nxt + k * 8))) as Hload.
  { intros r k Hin Hk. destruct Hnxt as (Hal & _). rewrite <- Hother by zlia. apply lookup_load_words; [..|done].
    - apply (bool_decide_unpack _). vm_compute. done.
    - cbn [m1 set_memory x]. rewrite Hlen. apply (bool_decide_unpack _). vm_compute. done. }
  eexists. split; [|split_and!].
  - unfold run_kernel. rewrite (for_each_app _ _ _ _ _ _ E1), (for_each_app _ _ _ _ _ _ E2). reflexivity.
  - exact Hm1.
  - exact (eq_trans (length_load_words nxt (memory m1) loaded (x m1)) Hlen).
  - assert (∀ r k, (r, k) ∈ saved → rdw (memory m1) (cur + k * 8) = reg r m) as Hst.
    { intros r k Hin. destruct Hcur as (Hal & _). apply (rdw_store_words cur m saved (memory m) (cur + k * 8)) with k;
        [zlia|done|apply (bool_decide_unpack _); vm_compute; done|done|done]. }
    unfold read_task_cx, callee_saved. f_equal.
    + rewrite <- (Hst ra 0) by (right; left). f_equal. lia.
    + exact (Hst sp 1 ltac:(left)).
    + apply list_fmap_ext. intros i n Hn. apply Hst. right. right. apply list_elem_of_fmap. exists n. split; [done|]. by apply list_elem_of_lookup_2 in Hn.
  - assert (∀ n, reg (S n) (set_pc (reg ra (set_x X2 m1)) (set_x X2 m1)) = default 0 (X2 !! S n)) as Hreg by done.
    unfold callee_saved, read_task_cx. f_equal.
    + rewrite Hreg, (Hload ra 0); [cbn; f_equal; lia|left|lia].
    + rewrite Hreg, (Hload sp 1); [done| |lia]. right. apply elem_of_app. right. left.
    + apply list_fmap_ext. intros i n Hn. apply lookup_seq in Hn as [-> Hn].
      assert (∃ k, s_ (0 + i) = S k) as [k Hk] by (unfold s_; case_decide; eauto). rewrite Hk, Hreg, <- Hk.
      rewrite (Hload (s_ (0 + i)) (Z.of_nat (0 + i) + 2)); [done| |lia]. right. apply elem_of_app. left.
      apply list_elem_of_fmap. exists (0 + i)%nat. split; [done|]. apply elem_of_seq. lia.
  - cbn [set_pc pc read_task_cx cx_ra set_x reg x]. rewrite (Hload ra 0); [cbn; f_equal; lia|left|lia].
  - exact Hother.
Qed.

(** C22. A switch is a call that returns later. [__switch] stores the preserved
    registers in the context of the running thread, loads those of the next one
    and goes on where that one left off, and touches no other memory. Whoever
    later switches back, from whatever thread, finds the first thread's
    registers and stack pointer again and returns to where it called
    [__switch], as long as its context was left alone. *)
Theorem switch_returns (cur nxt : Z) (m : machine) :
  context_at cur → context_at nxt → cur + 112 ≤ nxt ∨ nxt + 112 ≤ cur → tables_kept m → length (x m) = 32%nat →
  reg a0 m = cur → reg a1 m = nxt →
  ∃ m1, run_kernel __switch m = Done (tt, m1) ∧
    callee_saved m1 = read_task_cx (memory m) nxt ∧ pc m1 = cx_ra (read_task_cx (memory m) nxt) ∧
    (∀ vb, vb mod 8 = 0 → ¬ cur ≤ vb < cur + 112 → rdw (memory m1) vb = rdw (memory m) vb) ∧
    ∀ other m2, context_at other → other + 112 ≤ cur ∨ cur + 112 ≤ other → tables_kept m2 → length (x m2) = 32%nat →
      reg a0 m2 = other → reg a1 m2 = cur → (∀ vb, cur ≤ vb < cur + 112 → rdw (memory m2) vb = rdw (memory m1) vb) →
      ∃ m3, run_kernel __switch m2 = Done (tt, m3) ∧ callee_saved m3 = callee_saved m ∧ pc m3 = reg ra m.
Proof.
  intros Hcur Hnxt Hdis Hm Hlen Ha0 Ha1.
  destruct (switch_ok cur nxt m) as (m1 & E1 & _ & _ & Hsave & Hload & Hpc & Hrest); [done..|].
  exists m1. split_and!; [done..|]. intros other m2 Hother Hdis2 Hm2 Hlen2 Hb0 Hb1 Hsame.
  destruct (switch_ok other cur m2) as (m3 & E3 & _ & _ & _ & Hload3 & Hpc3 & _); [done..|].
  assert (read_task_cx (memory m2) cur = callee_saved m) as Ec.
  { rewrite <- Hsave. unfold read_task_cx. f_equal; [apply Hsame; lia|apply Hsame; lia|].
    apply list_fmap_ext. intros i n [-> Hi]%lookup_seq. apply Hsame. lia. }
  exists m3. split_and!; [done|by rewrite Hload3|by rewrite Hpc3, Ec].
Qed.

End switch.

(** ** Witness: a table that maps one page to itself, with two contexts on it *)

Lemma wit_kernel_page :
  ∃ (s : mm StackFrameAllocator) ks K, @represents _ _ (stack_frame_laws 0x80500) s ks K ∧ fits 44 (root_ppn ks) ∧
    context_at ks K 0x10000 ∧ context_at ks K 0x10100.
Proof.
  set (L := stack_frame_laws 0x80500).
  destruct (@represents_empty _ _ L wit_mm wit_mm_inv ltac:(done)) as (f & s & E & Hrep & Ha).
  change (16%nat = S (stack_avail (frame_allocator s))) in Ha.
  assert (f = 0x80500) as -> by (vm_compute in E; congruence). clear E. destruct Hrep as [[T0 HT0] HG0].
  destruct (@PageTable_map_ok _ _ L s _ T0 0x10 0x10 6 HT0) as (new1 & s1 & T1 & _ & HT1 & _ & _ & _ & _ & _ & HG1);
    [unfold fits; lia..|simpl; lia|by rewrite HG0 by (unfold fits; lia)|].
  cbn [root_ppn pt_frames] in *. set (pt := mkPageTable 0x80500 _) in HT1, HG1.
  set (K := <[0x10 := PTE_new 0x10 7]> (∅ : gmap Z Z)).
  pose proof HT1 as [(_ & _ & _ & _ & Hown) _]. rewrite Forall_forall in Hown.
  assert (∀ c, c = 0x10000 ∨ c = 0x10100 → context_at pt K c) as Hctx.
  { intros c Hc. split_and!; [zlia..|]. intros v Hv. assert (v = 0x10) as -> by zlia.
    split; [apply lookup_insert_eq|]. intros H. destruct (Hown _ H). lia. }
  exists s1, pt, K. split_and!; [|unfold fits; cbn; lia|auto..]. split; [by eexists|].
  intros v Hv. rewrite HG1 by done. unfold K. rewrite lookup_insert.
  destruct (decide (0x10 = v)) as [<-|]; [by rewrite decide_True|]. rewrite decide_False by done. by rewrite HG0.
Qed.

Lemma switch_returns_witness :
  ∃ (s : mm StackFrameAllocator) ks m1, run_kernel __switch (mkMachine (<[10%nat := 0x10000]> (<[11%nat := 0x10100]> (replicate 32 9))) 0 false (token ks) 0 0 0 0 (mem s)) = Done (tt, m1) ∧
    read_task_cx (mem s) 0x10100 = callee_saved m1.
Proof.
  destruct wit_kernel_page as (s & ks & K & Hrep & Hroot & H1 & H2).
  destruct (@switch_returns _ _ (stack_frame_laws 0x80500) s ks K Hrep Hroot 0x10000 0x10100
    (mkMachine (<[10%nat := 0x10000]> (<[11%nat := 0x10100]> (replicate 32 9))) 0 false (token ks) 0 0 0 0 (mem s)))
    as (m1 & E & Hl & _); [exact H1|exact H2|lia|split; [reflexivity|by intros ???]|reflexivity..|].
  exists s, ks, m1. split; [exact E|]. symmetry. exact Hl.
Defined.
