(* ===== verification/ProcessTree.v ===== *)
(** * Theory of processes: the process tree and the scheduler's queues

    The kernel state is viewed as a process table (id, status, parent and
    children of every task), the ready queue and the running task. [astep] is
    the abstract machine of process management on that view; the operations of
    [Process] refine it, and its invariant says that no task is lost or queued
    twice and that the tree of parents and children is consistent; it gives the
    cases of [waitpid]: no such child, none that ended, and the reaped one. *)

From S2P Require Import Prelude Address PhysMem FrameAllocator PageTable UserBuffer MemorySet.
From S2P Require Import TaskId FdTable Trap Pipe Process.

(** ** The abstract machine *)

Record pview := mkPV {
  v_pid : Z;
  v_status : TaskStatus;
  v_parent : option nat;
  v_children : list nat;
}.

Record aproc := mkAproc {
  a_tasks : gmap nat pview;
  a_queue : list nat;
  a_current : option nat;
}.

Definition v_set_status (x : TaskStatus) (v : pview) : pview := mkPV (v_pid v) x (v_parent v) (v_children v).
Definition v_set_parent (x : option nat) (v : pview) : pview := mkPV (v_pid v) (v_status v) x (v_children v).
Definition v_set_children (x : list nat) (v : pview) : pview := mkPV (v_pid v) (v_status v) (v_parent v) x.

(** The children of an exiting task become children of [INITPROC]. *)
Definition adopt (T : gmap nat pview) (c : nat) : gmap nat pview :=
  let T := alter (v_set_parent (Some INITPROC)) c T in
  alter (λ v, v_set_children (v_children v ++ [c]) v) INITPROC T.

(** Steps that change who runs, and nothing about which tasks there are. *)
Inductive asched : aproc → aproc → Prop :=
| a_run T q1 t q2 :
    is_Some (T !! t) →
    asched (mkAproc T (q1 ++ t :: q2) None)
      (mkAproc (alter (v_set_status Running) t T) (q1 ++ q2) (Some t))
| a_suspend T q t :
    is_Some (T !! t) →
    asched (mkAproc T q (Some t)) (mkAproc (alter (v_set_status Ready) t T) (q ++ [t]) None)
| a_exit T q t v :
    T !! t = Some v → t ≠ INITPROC →
    asched (mkAproc T q (Some t))
      (mkAproc (alter (v_set_children []) t
                  (foldl adopt (alter (v_set_status Zombie) t T) (v_children v))) q None)
| a_idle s : asched s s.

Inductive astep : aproc → aproc → Prop :=
| a_sched s s' : asched s s' → astep s s'
| a_fork T q t c p v :
    T !! t = Some v → T !! c = None → (∀ u w, T !! u = Some w → v_pid w ≠ p) →
    astep (mkAproc T q (Some t))
      (mkAproc (alter (λ v, v_set_children (v_children v ++ [c]) v) t
                  (<[c := mkPV p Ready (Some t) []]> T)) (q ++ [c]) (Some t))
| a_reap T q t i c v vc :
    T !! t = Some v → v_children v !! i = Some c → T !! c = Some vc → v_status vc = Zombie →
    astep (mkAproc T q (Some t))
      (mkAproc (delete c (alter (λ v, v_set_children (delete i (v_children v)) v) t T)) q (Some t)).

(** ** The invariant *)

Implicit Types T : gmap nat pview.
Implicit Types t u c : nat.

(** The tree of parents and children, and the ids. *)
Record tree_inv (T : gmap nat pview) : Prop := mkTreeInv {
  ti_child t v c : T !! t = Some v → c ∈ v_children v →
    c ≠ INITPROC ∧ c ≠ t ∧ ∃ vc, T !! c = Some vc ∧ v_parent vc = Some t;
  ti_nodup t v : T !! t = Some v → NoDup (v_children v);
  ti_parent t v : T !! t = Some v → t ≠ INITPROC → ∃ p vp, T !! p = Some vp ∧ t ∈ v_children vp;
  ti_root : is_Some (T !! INITPROC);
  ti_pids t u v w : T !! t = Some v → T !! u = Some w → v_pid v = v_pid w → t = u;
}.

(** Who is queued, running or dead. *)
Record sched_inv (s : aproc) : Prop := mkSchedInv {
  si_nodup : NoDup (a_queue s);
  si_queue t : t ∈ a_queue s ↔ ∃ v, a_tasks s !! t = Some v ∧ v_status v = Ready;
  si_current t : a_current s = Some t ↔ ∃ v, a_tasks s !! t = Some v ∧ v_status v = Running;
  si_init t v : a_tasks s !! t = Some v → v_status v ≠ UnInit;
  si_root v : a_tasks s !! INITPROC = Some v → v_status v ≠ Zombie;
  si_zombie t v : a_tasks s !! t = Some v → v_status v = Zombie → v_children v = [];
}.

Definition ainv (s : aproc) : Prop := tree_inv (a_tasks s) ∧ sched_inv s.

Lemma lookup_alter_iff (f : pview → pview) (t : nat) (T : gmap nat pview) (u : nat) v :
  alter f t T !! u = Some v ↔
  (u = t ∧ ∃ w, T !! t = Some w ∧ v = f w) ∨ (u ≠ t ∧ T !! u = Some v).
Proof.
  rewrite lookup_alter_Some. split.
  - intros [(<- & w & ? & ->)|[? ?]]; [left; eauto|right; by split].
  - intros [(-> & w & ? & ->)|[? ?]]; [left; eauto|right; by split].
Qed.

(** The tree does not depend on the status. *)
Definition shape (v : pview) : Z * option nat * list nat := (v_pid v, v_parent v, v_children v).

Lemma shape_lookup (T T' : gmap nat pview) (t : nat) v :
  shape <$> T' = shape <$> T → T !! t = Some v →
  ∃ v', T' !! t = Some v' ∧ v_pid v' = v_pid v ∧ v_parent v' = v_parent v ∧ v_children v' = v_children v.
Proof.
  intros E Ht. assert ((shape <$> T') !! t = Some (shape v)) as Hs by (rewrite E, lookup_fmap, Ht; done).
  rewrite lookup_fmap, fmap_Some in Hs. destruct Hs as (v' & Hv' & [= -> -> ->]). eauto.
Qed.

Lemma tree_inv_shape T T' : shape <$> T' = shape <$> T → tree_inv T → tree_inv T'.
Proof.
  intros E [Hch Hnd Hpar [vr Hroot] Hpid]. symmetry in E.
  constructor.
  - intros t v c Ht Hc. destruct (shape_lookup _ _ t v E Ht) as (w & Hw & _ & _ & Ec).
    rewrite <- Ec in Hc. destruct (Hch t w c Hw Hc) as (? & ? & vc & Hvc & Hp). split; [done|]. split; [done|].
    destruct (shape_lookup _ _ c vc (eq_sym E) Hvc) as (vc' & ? & _ & ? & _). exists vc'. split; [done|congruence].
  - intros t v Ht. destruct (shape_lookup _ _ t v E Ht) as (w & Hw & _ & _ & <-). by eapply Hnd.
  - intros t v Ht Hne. destruct (shape_lookup _ _ t v E Ht) as (w & Hw & _).
    destruct (Hpar t w Hw Hne) as (p & vp & Hp & Htp).
    destruct (shape_lookup _ _ p vp (eq_sym E) Hp) as (vp' & ? & _ & _ & Ec). exists p, vp'. by rewrite Ec.
  - destruct (shape_lookup _ _ _ vr (eq_sym E) Hroot) as (v' & ? & _). eauto.
  - intros t u v w Ht Hu Ep. destruct (shape_lookup _ _ t v E Ht) as (v' & Hv' & Ev & _).
    destruct (shape_lookup _ _ u w E Hu) as (w' & Hw' & Ew & _). eapply Hpid; [done|done|congruence].
Qed.

Lemma shape_status st (t : nat) (T : gmap nat pview) : shape <$> alter (v_set_status st) t T = shape <$> T.
Proof.
  apply map_eq. intros u. rewrite !lookup_fmap, lookup_alter.
  case_decide; [subst|done]. by destruct (T !! u).
Qed.

(** A task cannot be queued and running. *)
Lemma sched_current_queue s t : sched_inv s → a_current s = Some t → t ∉ a_queue s.
Proof.
  intros Hi Hc Hq. apply (si_queue s Hi) in Hq as (v & Hv & Hs).
  apply (si_current s Hi) in Hc as (w & Hw & Hs'). congruence.
Qed.

(** A child has one parent. *)
Lemma tree_one_parent T t u v w c :
  tree_inv T → T !! t = Some v → T !! u = Some w → c ∈ v_children v → c ∈ v_children w → t = u.
Proof.
  intros Hi Ht Hu Hct Hcu.
  destruct (ti_child T Hi t v c Ht Hct) as (_ & _ & vc & Hc & Hp).
  destruct (ti_child T Hi u w c Hu Hcu) as (_ & _ & vc' & Hc' & Hp'). congruence.
Qed.

Lemma ainv_run T q1 t q2 :
  ainv (mkAproc T (q1 ++ t :: q2) None) →
  ainv (mkAproc (alter (v_set_status Running) t T) (q1 ++ q2) (Some t)).
Proof.
  intros [Htree [Hnd Hq Hc Hin Hroot Hz]]; simpl in *. split; simpl.
  { eapply tree_inv_shape; [apply shape_status|done]. }
  apply NoDup_app in Hnd as (Hnd1 & Hdis & Hnd2). apply NoDup_cons in Hnd2 as [Ht2 Hnd2].
  assert (t ∉ q1) as Ht1. { intros Hin1. apply (Hdis t Hin1). set_solver. }
  constructor; simpl.
  - apply NoDup_app. split_and!; [done| |done]. intros x Hx Hx2. apply (Hdis x Hx). set_solver.
  - intros u. setoid_rewrite lookup_alter_iff.
    assert (u ∈ q1 ++ q2 ↔ u ≠ t ∧ u ∈ q1 ++ t :: q2) as -> by (set_unfold; naive_solver).
    rewrite Hq. split.
    + intros (Hne & v & Hv & Hs). eauto.
    + intros (v & [(-> & w & Hw & ->)|[Hne Hu]] & Hs); [done|eauto].
  - intros u. setoid_rewrite lookup_alter_iff. split.
    + intros [= <-]. destruct (proj1 (Hq t)) as (v & Hv & _); [set_solver|]. exists (v_set_status Running v). eauto 6.
    + intros (v & [(-> & _)|[Hne Hu]] & Hs); [done|]. exfalso.
      assert (None = Some u) by (apply Hc; eauto). done.
  - intros u v [(-> & w & Hw & ->)|[Hne Hu]]%lookup_alter_iff; [done|by eapply Hin].
  - intros v [(_ & w & Hw & ->)|[Hne Hu]]%lookup_alter_iff; [done|by eapply Hroot].
  - intros u v [(-> & w & Hw & ->)|[Hne Hu]]%lookup_alter_iff; [done|by eapply Hz].
Qed.

Lemma ainv_suspend T q t :
  ainv (mkAproc T q (Some t)) → ainv (mkAproc (alter (v_set_status Ready) t T) (q ++ [t]) None).
Proof.
  intros [Htree Hs0]. pose proof (sched_current_queue _ t Hs0 eq_refl) as Htq.
  destruct Hs0 as [Hnd Hq Hc Hin Hroot Hz]; simpl in *. split; simpl.
  { eapply tree_inv_shape; [apply shape_status|done]. }
  destruct (proj1 (Hc t) eq_refl) as (vt & Hvt & Hst).
  constructor; simpl.
  - apply NoDup_app. split_and!; [done| |apply NoDup_singleton]. by intros x Hx ->%list_elem_of_singleton.
  - intros u. setoid_rewrite lookup_alter_iff. rewrite elem_of_app, list_elem_of_singleton, Hq. split.
    + intros [(v & Hv & Hs)| ->]; [|exists (v_set_status Ready vt); eauto 6].
      exists v. split; [right; split; [|done]|done]. intros ->. congruence.
    + intros (v & [(-> & _)|[Hne Hu]] & Hs); [by right|left; eauto].
  - intros u. setoid_rewrite lookup_alter_iff. split; [done|].
    intros (v & [(-> & w & Hw & ->)|[Hne Hu]] & Hs); [done|]. exfalso. apply Hne.
    assert (Some t = Some u) by (apply Hc; eauto). congruence.
  - intros u v [(-> & w & Hw & ->)|[Hne Hu]]%lookup_alter_iff; [done|by eapply Hin].
  - intros v [(_ & w & Hw & ->)|[Hne Hu]]%lookup_alter_iff; [done|by eapply Hroot].
  - intros u v [(-> & w & Hw & ->)|[Hne Hu]]%lookup_alter_iff; [done|by eapply Hz].
Qed.

(** Forking adds a leaf to the tree. *)
Lemma tree_fork T t c p v :
  tree_inv T → T !! t = Some v → T !! c = None → (∀ u w, T !! u = Some w → v_pid w ≠ p) →
  tree_inv (alter (λ v, v_set_children (v_children v ++ [c]) v) t (<[c := mkPV p Ready (Some t) []]> T)).
Proof.
  intros [Hch Hnd Hpar Hroot Hpid] Ht Hc Hp.
  assert (t ≠ c) as Htc by congruence.
  assert (c ≠ INITPROC) as Hci by (intros ->; destruct Hroot; congruence).
  set (T' := alter _ _ _).
  assert (∀ u w, T' !! u = Some w ↔
            (u = t ∧ w = v_set_children (v_children v ++ [c]) v) ∨
            (u = c ∧ w = mkPV p Ready (Some t) []) ∨ (u ≠ t ∧ u ≠ c ∧ T !! u = Some w)) as HT'.
  { intros u w. subst T'. rewrite lookup_alter_iff, lookup_insert_ne, Ht by done.
    rewrite lookup_insert_Some. naive_solver. }
  assert (∀ u w, T !! u = Some w → ∃ w', T' !! u = Some w' ∧ v_parent w' = v_parent w ∧ v_pid w' = v_pid w ∧
            ∀ x, x ∈ v_children w → x ∈ v_children w') as Hold.
  { intros u w Hu. destruct (decide (u = t)) as [->|Hut].
    - assert (w = v) as -> by congruence. eexists. split_and!; [apply HT'; by left|done|done|]. set_solver.
    - exists w. split_and!; [|done..]. apply HT'. right; right. split_and!; [done| |done]. congruence. }
  assert (∀ u w x, T !! u = Some w → x ∈ v_children w → x ≠ INITPROC ∧ x ≠ u ∧ ∃ vx, T' !! x = Some vx ∧ v_parent vx = Some u) as Hchild.
  { intros u w x Hu Hx. destruct (Hch u w x Hu Hx) as (? & ? & vx & Hvx & Hpx). split; [done|]. split; [done|].
    destruct (Hold x vx Hvx) as (vx' & ? & ? & _). exists vx'. split; [done|congruence]. }
  constructor.
  - intros u w x [[-> ->]|[[-> ->]|(? & ? & Hu)]]%HT' Hx; simpl in Hx.
    + apply elem_of_app in Hx as [Hx| ->%list_elem_of_singleton]; [by apply (Hchild t v)|].
      split; [done|]. split; [done|]. eexists. split; [apply HT'; by right; left|done].
    + by apply not_elem_of_nil in Hx.
    + by apply (Hchild u w).
  - intros u w [[-> ->]|[[-> ->]|(? & ? & Hu)]]%HT'; simpl; [|apply NoDup_nil_2|by eapply Hnd].
    apply NoDup_app. split_and!; [by eapply Hnd| |apply NoDup_singleton].
    intros x Hx ->%list_elem_of_singleton. destruct (Hch t v c Ht Hx) as (_ & _ & ? & ? & _). congruence.
  - intros u w [[-> ->]|[[-> ->]|(? & ? & Hu)]]%HT' Hne.
    + destruct (Hpar t v Ht Hne) as (q & vq & Hq & Htq). destruct (Hold q vq Hq) as (vq' & ? & _ & _ & Hsub). eauto.
    + eexists t, _. split; [apply HT'; by left|]. simpl. set_solver.
    + destruct (Hpar u w Hu Hne) as (q & vq & Hq & Htq). destruct (Hold q vq Hq) as (vq' & ? & _ & _ & Hsub). eauto.
  - destruct Hroot as [vr Hr]. destruct (Hold _ _ Hr) as (? & ? & _). eauto.
  - intros u u' w w' [[-> ->]|[[-> ->]|(? & ? & Hu)]]%HT' [[-> ->]|[[-> ->]|(? & ? & Hu')]]%HT' E; simpl in E; try done.
    + exfalso. by eapply (Hp t v).
    + by eapply (Hpid t u' v w').
    + exfalso. by eapply (Hp t v).
    + exfalso. by eapply (Hp u' w').
    + by eapply (Hpid u t w v).
    + exfalso. by eapply (Hp u w).
    + by eapply (Hpid u u' w w').
Qed.

Lemma ainv_fork T q t c p v :
  ainv (mkAproc T q (Some t)) → T !! t = Some v → T !! c = None → (∀ u w, T !! u = Some w → v_pid w ≠ p) →
  ainv (mkAproc (alter (λ v, v_set_children (v_children v ++ [c]) v) t
                   (<[c := mkPV p Ready (Some t) []]> T)) (q ++ [c]) (Some t)).
Proof.
  intros [Htree [Hnd Hq Hc Hin Hroot Hz]] Ht Hfresh Hp; simpl in *.
  split; [by apply (tree_fork T t c p v)|].
  assert (t ≠ c) as Htc by congruence.
  destruct (proj1 (Hc t) eq_refl) as (vt & Hvt & Hst). assert (vt = v) as -> by congruence.
  constructor; simpl.
  - apply NoDup_app. split_and!; [done| |apply NoDup_singleton].
    intros x Hx ->%list_elem_of_singleton. apply Hq in Hx as (? & ? & _). congruence.
  - intros u. setoid_rewrite lookup_alter_iff. setoid_rewrite lookup_insert_Some.
    rewrite elem_of_app, list_elem_of_singleton, Hq. split.
    + intros [(w & Hw & Hs)| ->]; [|exists (mkPV p Ready (Some t) []); naive_solver].
      exists w. split; [right; split; [|right; split; [congruence|done]]|done]. intros ->. congruence.
    + intros (w & [(-> & w' & [[? _]|[_ Hw']] & ->)|[Hne [[<- <-]|[Hnc Hu]]]] & Hs); [done| |by right|left; eauto].
      simpl in Hs. congruence.
  - intros u. setoid_rewrite lookup_alter_iff. setoid_rewrite lookup_insert_Some. split.
    + intros [= <-]. exists (v_set_children (v_children v ++ [c]) v). split; [|done].
      left. split; [done|]. exists v. split; [|done]. right. split; [congruence|done].
    + intros (w & [(-> & _)|[Hne [[<- <-]|[Hnc Hu]]]] & Hs); [done|done|]. apply Hc. eauto.
  - intros u w [(-> & w' & [[? _]|[_ Hw']]%lookup_insert_Some & ->)|[Hne [[<- <-]|[Hnc Hu]]%lookup_insert_Some]]%lookup_alter_iff;
      [done| |done|by eapply Hin]. simpl. by eapply Hin.
  - intros w [(E & w' & [[? _]|[_ Hw']]%lookup_insert_Some & ->)|[Hne [[_ <-]|[Hnc Hu]]%lookup_insert_Some]]%lookup_alter_iff;
      [done| |done|by eapply Hroot]. simpl. rewrite <- E in Hw'. by eapply Hroot.
  - intros u w [(-> & w' & [[? _]|[_ Hw']]%lookup_insert_Some & ->)|[Hne [[<- <-]|[Hnc Hu]]%lookup_insert_Some]]%lookup_alter_iff;
      [done| |done|by eapply Hz]. simpl. intros Hs. congruence.
Qed.

(** ** Exit *)

(** What [exit] of task [t] with children [cs] does to the block of [u]. *)
Definition exit_view (t : nat) (cs : list nat) (u : nat) (v : pview) : pview :=
  let v := if decide (u = t) then v_set_children [] (v_set_status Zombie v) else v in
  let v := if decide (u = INITPROC) then v_set_children (v_children v ++ cs) v else v in
  if decide (u ∈ cs) then v_set_parent (Some INITPROC) v else v.

Lemma adopt_lookup T cs u :
  INITPROC ∉ cs →
  foldl adopt T cs !! u =
    (λ v, if decide (u ∈ cs) then v_set_parent (Some INITPROC) v
          else if decide (u = INITPROC) then v_set_children (v_children v ++ cs) v else v) <$> T !! u.
Proof.
  revert T. induction cs as [|c cs IH] using rev_ind; intros T Hn.
  - simpl. destruct (T !! u) as [v|]; [|done]. simpl. case_decide; [|done].
    destruct v; simpl. unfold v_set_children; simpl. by rewrite app_nil_r.
  - rewrite foldl_app. simpl. unfold adopt at 1. specialize (IH T ltac:(set_solver)).
    destruct (decide (u = INITPROC)) as [->|Hu]; [|destruct (decide (u = c)) as [->|Hc]].
    + rewrite lookup_alter_eq, lookup_alter_ne, IH by set_solver. destruct (T !! INITPROC) as [v|]; [|done]. simpl.
      rewrite !(decide_False (P := INITPROC ∈ _)) by set_solver.
      unfold v_set_children; simpl. by rewrite <- app_assoc.
    + rewrite lookup_alter_ne, lookup_alter_eq, IH by done. destruct (T !! c) as [v|]; [|done]. simpl.
      rewrite (decide_True (P := c ∈ cs ++ [c])) by set_solver. by case_decide.
    + rewrite !lookup_alter_ne, IH by done. destruct (T !! u) as [v|]; [|done]. simpl.
      destruct (decide (u ∈ cs)); [rewrite decide_True by set_solver|rewrite decide_False by set_solver]; done.
Qed.

Lemma exit_lookup T t cs u :
  INITPROC ∉ cs → t ∉ cs → t ≠ INITPROC →
  alter (v_set_children []) t (foldl adopt (alter (v_set_status Zombie) t T) cs) !! u
  = exit_view t cs u <$> T !! u.
Proof.
  intros Hi Ht Hti. unfold exit_view. destruct (decide (u = t)) as [->|Hne].
  - rewrite lookup_alter_eq, adopt_lookup, lookup_alter_eq by done. destruct (T !! t) as [v|]; [|done]. simpl.
    by rewrite !(decide_False (P := t ∈ cs)), !(decide_False (P := t = INITPROC)) by done.
  - rewrite lookup_alter_ne, adopt_lookup, lookup_alter_ne by done. destruct (T !! u) as [v|]; [|done]. simpl.
    destruct (decide (u ∈ cs)); [|done]. by rewrite (decide_False (P := u = INITPROC)) by (by intros ->).
Qed.

Section exit.
Context (T : gmap nat pview) (q : list nat) (t : nat) (v : pview).
Hypothesis Hinv : ainv (mkAproc T q (Some t)).
Hypothesis Ht : T !! t = Some v.
Hypothesis Hti : t ≠ INITPROC.

Abbreviation cs := (v_children v).
Abbreviation T' := (alter (v_set_children []) t (foldl adopt (alter (v_set_status Zombie) t T) cs)).

Lemma exit_cs : (INITPROC ∉ cs) ∧ (t ∉ cs).
Proof.
  destruct Hinv as [Htree Hs]; simpl in *. split.
  - intros Hin. by destruct (ti_child T Htree t v _ Ht Hin).
  - intros Hin. by destruct (ti_child T Htree t v _ Ht Hin) as (_ & ? & _).
Qed.

Lemma exit_Some u w : T' !! u = Some w ↔ ∃ z, T !! u = Some z ∧ w = exit_view t cs u z.
Proof.
  destruct exit_cs as [??]. rewrite exit_lookup by done. rewrite fmap_Some. naive_solver.
Qed.

Lemma exit_view_status u z :
  v_status (exit_view t cs u z) = if decide (u = t) then Zombie else v_status z.
Proof. unfold exit_view. by repeat case_decide. Qed.

Lemma exit_view_pid u z : v_pid (exit_view t cs u z) = v_pid z.
Proof. unfold exit_view. by repeat case_decide. Qed.

Lemma exit_view_parent u z :
  v_parent (exit_view t cs u z) = if decide (u ∈ cs) then Some INITPROC else v_parent z.
Proof. unfold exit_view. by repeat case_decide. Qed.

Lemma exit_view_children u z :
  v_children (exit_view t cs u z) =
    if decide (u = t) then [] else if decide (u = INITPROC) then v_children z ++ cs else v_children z.
Proof. unfold exit_view. repeat case_decide; subst; done. Qed.

(** A child of another task is not among the adopted ones. *)
Lemma exit_other u z x : T !! u = Some z → u ≠ t → x ∈ v_children z → x ∉ cs.
Proof.
  intros Hu Hne Hx Hcs. apply Hne. destruct Hinv as [Htree _]. by eapply (tree_one_parent T u t z v x).
Qed.

Lemma exit_tree : tree_inv T'.
Proof.
  destruct Hinv as [[Hch Hnd Hpar [vr Hr] Hpid] _]; simpl in *. destruct exit_cs as [Hic Htc].
  assert (∀ x y, (∃ vx, T !! x = Some vx ∧ v_parent vx = Some y) → x ∉ cs →
            ∃ vx, T' !! x = Some vx ∧ v_parent vx = Some y) as Hkeep.
  { intros x y (vx & Hx & Hp) Hn. eexists. split; [by apply exit_Some; eauto|].
    by rewrite exit_view_parent, decide_False. }
  constructor.
  - intros u w x (z & Hz & ->)%exit_Some. rewrite exit_view_children.
    destruct (decide (u = t)) as [->|Hut]; [by intros ?%not_elem_of_nil|].
    destruct (decide (u = INITPROC)) as [->|Hui].
    + intros [Hx|Hx]%elem_of_app.
      * destruct (Hch _ _ x Hz Hx) as (? & ? & ?). split_and!; [done|done|]. apply Hkeep; [done|by eapply exit_other].
      * destruct (Hch t v x Ht Hx) as (? & ? & vx & Hvx & _). split_and!; [done|done|].
        eexists. split; [by apply exit_Some; eauto|]. by rewrite exit_view_parent, decide_True.
    + intros Hx. destruct (Hch _ _ x Hz Hx) as (? & ? & ?). split_and!; [done|done|].
      apply Hkeep; [done|by eapply exit_other].
  - intros u w (z & Hz & ->)%exit_Some. rewrite exit_view_children.
    repeat case_decide; [apply NoDup_nil_2| |by eapply Hnd]. subst.
    apply NoDup_app. split_and!; [by eapply Hnd| |by eapply Hnd]. intros x Hx. by eapply exit_other.
  - intros u w (z & Hz & ->)%exit_Some Hne. destruct (Hpar u z Hz Hne) as (p & vp & Hp & Hup).
    destruct (decide (p = t)) as [->|Hpt].
    + assert (vp = v) as -> by congruence. eexists INITPROC, _. split; [by apply exit_Some; eauto|].
      rewrite exit_view_children, decide_False, decide_True by done. apply elem_of_app. by right.
    + eexists p, _. split; [by apply exit_Some; eauto|].
      rewrite exit_view_children, decide_False by done. case_decide; [apply elem_of_app; by left|done].
  - exists (exit_view t cs INITPROC vr). apply exit_Some. eauto.
  - intros u u' w w' (z & Hz & ->)%exit_Some (z' & Hz' & ->)%exit_Some. rewrite !exit_view_pid. by apply Hpid.
Qed.

Lemma ainv_exit : ainv (mkAproc T' q None).
Proof.
  split; [exact exit_tree|]. destruct Hinv as [_ [Hnd Hq Hc Hin Hroot Hz]]; simpl in *.
  destruct (proj1 (Hc t) eq_refl) as (vt & Hvt & Hst).
  constructor; simpl.
  - done.
  - intros u. rewrite Hq. split.
    + intros (z & Hu & Hs). eexists. split; [by apply exit_Some; eauto|].
      rewrite exit_view_status, decide_False by congruence. done.
    + intros (w & (z & Hu & ->)%exit_Some & Hs). rewrite exit_view_status in Hs. case_decide; [done|eauto].
  - intros u. split; [done|]. intros (w & (z & Hu & ->)%exit_Some & Hs). rewrite exit_view_status in Hs.
    case_decide as Hut; [done|]. exfalso. apply Hut.
    assert (Some t = Some u) by (apply Hc; eauto). congruence.
  - intros u w (z & Hu & ->)%exit_Some. rewrite exit_view_status. case_decide; [done|by eapply Hin].
  - intros w (z & Hu & ->)%exit_Some. rewrite exit_view_status, decide_False by done. by eapply Hroot.
  - intros u w (z & Hu & ->)%exit_Some. rewrite exit_view_status, exit_view_children.
    repeat case_decide; subst; [done| |by eapply Hz]. intros Hs. by destruct (Hroot z Hu).
Qed.

End exit.

(** ** Reaping a zombie *)

Lemma elem_of_delete_NoDup (l : list nat) i c x :
  NoDup l → l !! i = Some c → x ∈ delete i l ↔ x ∈ l ∧ x ≠ c.
Proof.
  intros Hnd Hi. rewrite delete_take_drop. pose proof (take_drop_middle l i c Hi) as E.
  rewrite <- E in Hnd. apply NoDup_app in Hnd as (_ & Hdis & Hnd). apply NoDup_cons in Hnd as [Hc _].
  assert (x ∈ l ↔ x ∈ take i l ++ c :: drop (S i) l) as -> by (by rewrite E).
  rewrite !elem_of_app, elem_of_cons. split.
  - intros [Hx|Hx]; (split; [tauto|]); intros ->; [|done]. apply (Hdis c Hx). set_solver.
  - tauto.
Qed.

Section reap.
Context (T : gmap nat pview) (q : list nat) (t i c : nat) (v vc : pview).
Hypothesis Hinv : ainv (mkAproc T q (Some t)).
Hypothesis Ht : T !! t = Some v.
Hypothesis Hi : v_children v !! i = Some c.
Hypothesis Hc : T !! c = Some vc.
Hypothesis Hz : v_status vc = Zombie.

Abbreviation T' := (delete c (alter (λ v, v_set_children (delete i (v_children v)) v) t T)).

Lemma reap_Some u w :
  T' !! u = Some w ↔ u ≠ c ∧ ∃ z, T !! u = Some z ∧
    w = if decide (u = t) then v_set_children (delete i (v_children z)) z else z.
Proof.
  rewrite lookup_delete_Some, lookup_alter_iff. split.
  - intros [Hne [(-> & z & Hz' & ->)|[Hut Hu]]]; split; try done; eexists; (split; [done|]); by case_decide.
  - intros [Hne (z & Hu & ->)]. split; [done|]. case_decide; subst; [left|right]; eauto.
Qed.

Lemma ainv_reap : ainv (mkAproc T' q (Some t)).
Proof.
  destruct Hinv as [[Hch Hnd Hpar [vr Hr] Hpid] [Hndq Hq Hcur Hin Hroot Hzom]]; simpl in *.
  assert (c ∈ v_children v) as Hcv by (by apply list_elem_of_lookup_2 with i).
  destruct (Hch t v c Ht Hcv) as (Hci & Hct & _).
  assert (∀ u z x, T !! u = Some z → u ≠ c → x ∈ v_children (if decide (u = t) then v_set_children (delete i (v_children z)) z else z)
            ↔ x ∈ v_children z ∧ x ≠ c) as Hmem.
  { intros u z x Hu Huc. case_decide as Hut; subst.
    - assert (z = v) as -> by congruence. apply elem_of_delete_NoDup; [by eapply Hnd|done].
    - split; [|tauto]. intros Hx. split; [done|]. intros ->. apply Hut.
      destruct (Hch u z c Hu Hx) as (_ & _ & w & Hw & Hp). destruct (Hch t v c Ht Hcv) as (_ & _ & w' & Hw' & Hp'). congruence. }
  assert (∀ u z, v_status (if decide (u = t) then v_set_children (delete i (v_children z)) z else z) = v_status z ∧
            v_pid (if decide (u = t) then v_set_children (delete i (v_children z)) z else z) = v_pid z ∧
            v_parent (if decide (u = t) then v_set_children (delete i (v_children z)) z else z) = v_parent z) as Hsame.
  { intros. by case_decide. }
  split; simpl.
  - constructor.
    + intros u w x (Huc & z & Hu & ->)%reap_Some. rewrite Hmem by done. intros [Hx Hxc].
      destruct (Hch u z x Hu Hx) as (? & ? & wx & Hwx & Hpx). split_and!; [done|done|].
      eexists. split; [apply reap_Some; eauto|]. destruct (Hsame x wx) as (_ & _ & ->). done.
    + intros u w (Huc & z & Hu & ->)%reap_Some. case_decide as Hut; [|by eapply Hnd]. simpl.
      eapply sublist_NoDup; [by eapply Hnd|apply sublist_delete].
    + intros u w (Huc & z & Hu & ->)%reap_Some Hne. destruct (Hpar u z Hu Hne) as (p & vp & Hp & Hup).
      assert (p ≠ c) as Hpc. { intros ->. rewrite (Hzom c vp) in Hup; [by apply not_elem_of_nil in Hup|done|congruence]. }
      eexists p, _. split; [apply reap_Some; eauto|]. by apply Hmem.
    + eexists. apply reap_Some. eauto.
    + intros u u' w w' (Huc & z & Hu & ->)%reap_Some (Huc' & z' & Hu' & ->)%reap_Some.
      destruct (Hsame u z) as (_ & -> & _), (Hsame u' z') as (_ & -> & _). by apply Hpid.
  - constructor; simpl.
    + done.
    + intros u. rewrite Hq. setoid_rewrite reap_Some. split.
      * intros (z & Hu & Hs). eexists. split; [split; [congruence|eauto]|]. by rewrite (proj1 (Hsame u z)).
      * intros (w & (Huc & z & Hu & ->) & Hs). rewrite (proj1 (Hsame u z)) in Hs. eauto.
    + intros u. rewrite Hcur. setoid_rewrite reap_Some. split.
      * intros (z & Hu & Hs). eexists. split; [split; [congruence|eauto]|]. by rewrite (proj1 (Hsame u z)).
      * intros (w & (Huc & z & Hu & ->) & Hs). rewrite (proj1 (Hsame u z)) in Hs. eauto.
    + intros u w (Huc & z & Hu & ->)%reap_Some. rewrite (proj1 (Hsame u z)). by eapply Hin.
    + intros w (Huc & z & Hu & ->)%reap_Some. rewrite (proj1 (Hsame _ z)). by eapply Hroot.
    + intros u w (Huc & z & Hu & ->)%reap_Some. rewrite (proj1 (Hsame u z)). intros Hs.
      specialize (Hzom u z Hu Hs). case_decide; simpl; by rewrite Hzom.
Qed.

End reap.

(** Every step of the abstract machine keeps the invariant. *)
Lemma ainv_step s s' : ainv s → astep s s' → ainv s'.
Proof.
  intros Hinv Hstep. destruct Hstep as [s s' Hstep| |].
  - destruct Hstep; [by apply ainv_run|by apply ainv_suspend|by apply ainv_exit|done].
  - by eapply ainv_fork.
  - by eapply ainv_reap.
Qed.

(** ** The kernel refines the abstract machine *)

Definition pv (t : TaskControlBlock) : pview := mkPV (pid t) (task_status t) (parent t) (children t).

Section refine.
Context {A : Type} `{FrameAllocator A}.
Variable pf : platform.

Definition view (k : kernel A) : aproc := mkAproc (pv <$> tcbs k) (ready_queue k) (processor k).

Definition on_tasks (F : gmap nat pview → gmap nat pview) (s : aproc) : aproc :=
  mkAproc (F (a_tasks s)) (a_queue s) (a_current s).

(** Neither the process view nor the ids change. *)
Definition keeps (k k' : kernel A) : Prop :=
  view k' = view k ∧ pid_allocator k' = pid_allocator k.

Lemma keeps_refl k : keeps k k.
Proof. done. Qed.

Lemma keeps_trans k1 k2 k3 : keeps k1 k2 → keeps k2 k3 → keeps k1 k3.
Proof. intros [? ?] [? ?]. split; congruence. Qed.

Lemma on_mm_keeps {X} (m : ST (mm A) X) k x k' : on_mm m k = Done (x, k') → keeps k k'.
Proof. intros (t & _ & ->)%zoom_Done. done. Qed.

Lemma on_mem_keeps {X} (m : ST pmem X) (k : kernel A) x k' : on_mem m k = Done (x, k') → keeps k k'.
Proof. apply on_mm_keeps. Qed.

Lemma on_kspace_keeps {X} (m : ST (kspace A) X) k x k' : on_kspace m k = Done (x, k') → keeps k k'.
Proof. intros (t & _ & ->)%zoom_Done. done. Qed.

Lemma get_tcb_Done t (k : kernel A) tcb k' :
  get_tcb t k = Done (tcb, k') → k' = k ∧ tcbs k !! t = Some tcb.
Proof. unfold get_tcb. intros. by st_inv. Qed.

Lemma trap_cx_page_Done ms (k : kernel A) p k' : trap_cx_page ms k = Done (p, k') → k' = k.
Proof. unfold trap_cx_page. intros. by st_inv. Qed.

Lemma init_trap_cx_keeps ppn entry sp ksp (k : kernel A) r k' :
  init_trap_cx pf ppn entry sp ksp k = Done (r, k') → keeps k k'.
Proof. unfold init_trap_cx. intros E. st_inv. by apply on_mem_keeps in E. Qed.

Lemma update_tcb_Done t f (k : kernel A) r k' :
  update_tcb t f k = Done (r, k') →
  ∃ tcb, tcbs k !! t = Some tcb ∧ k' = set_tcbs (<[t := f tcb]> (tcbs k)) k.
Proof.
  unfold update_tcb. intros E. apply bind_Done in E as (tcb & k1 & [-> Htcb]%get_tcb_Done & E).
  injection E as _ <-. eauto.
Qed.

(** An update of one block. *)
Lemma update_tcb_view g t f (k : kernel A) r k' :
  update_tcb t f k = Done (r, k') → (∀ x, pv (f x) = g (pv x)) →
  view k' = on_tasks (alter g t) (view k) ∧ pid_allocator k' = pid_allocator k ∧
  is_Some (a_tasks (view k) !! t).
Proof.
  intros (tcb & Htcb & ->)%update_tcb_Done Hg. split_and!; [|done|].
  - unfold view, on_tasks; simpl. f_equal. rewrite fmap_insert, Hg.
    apply map_eq. intros x. rewrite lookup_insert, lookup_alter.
    case_decide; [subst|done]. by rewrite lookup_fmap, Htcb.
  - simpl. rewrite lookup_fmap, Htcb. by eexists.
Qed.

Lemma update_tcb_keeps t f (k : kernel A) r k' :
  update_tcb t f k = Done (r, k') → (∀ x, pv (f x) = pv x) → keeps k k'.
Proof.
  intros E Hf. destruct (update_tcb_view id t f k r k' E Hf) as (Hv & Hp & _). split; [|done].
  rewrite Hv. unfold on_tasks. destruct (view k) as [T q c]; simpl. f_equal.
  apply map_eq. intros x. rewrite lookup_alter. case_decide; [subst|done]. by destruct (T !! x).
Qed.

Lemma add_task_view t (k : kernel A) r k' :
  add_task t k = Done (r, k') →
  view k' = mkAproc (a_tasks (view k)) (a_queue (view k) ++ [t]) (a_current (view k)) ∧
  pid_allocator k' = pid_allocator k.
Proof. unfold add_task, st_modify. intros E. by injection E as _ <-. Qed.

Lemma take_current_view (k : kernel A) o k' :
  take_current_task k = Done (o, k') →
  o = processor k ∧ view k' = mkAproc (a_tasks (view k)) (a_queue (view k)) None ∧
  pid_allocator k' = pid_allocator k.
Proof. unfold take_current_task. intros. by st_inv. Qed.

(** Adding a child: a fresh block, pushed to the parent's children. *)
Lemma add_child_view t child (k : kernel A) c k' :
  add_child t child k = Done (c, k') → is_Some (a_tasks (view k) !! t) →
  view k' = on_tasks (λ T, alter (λ v, v_set_children (v_children v ++ [c]) v) t (<[c := pv child]> T)) (view k) ∧
  pid_allocator k' = pid_allocator k ∧ a_tasks (view k) !! c = None ∧ tcbs k' !! c = Some child.
Proof.
  unfold add_child, arc_new. intros E Ht. st_inv.
  set (c := fresh (dom (tcbs s1))) in *.
  assert (tcbs s1 !! c = None) as Hc by (apply not_elem_of_dom, is_fresh).
  assert (t ≠ c) as Htc.
  { intros ->. destruct Ht as [? Ht]. simpl in Ht. by rewrite lookup_fmap, Hc in Ht. }
  pose proof (update_tcb_view (λ v, v_set_children (v_children v ++ [c]) v) _ _ _ _ _ E1 (λ x, eq_refl))
    as (Hv & Hp & _).
  split_and!; [|done|by rewrite lookup_fmap, Hc|].
  - rewrite Hv. unfold on_tasks, view; simpl. by rewrite fmap_insert.
  - apply update_tcb_Done in E1 as (tcb & _ & ->). simpl. by rewrite lookup_insert_ne, lookup_insert_eq.
Qed.

(** ** The operations *)

Lemma suspend_refines (k : kernel A) k' :
  suspend_current k = Done (tt, k') →
  asched (view k) (view k') ∧ pid_allocator k' = pid_allocator k.
Proof.
  unfold suspend_current. intros E.
  apply bind_Done in E as (o & k1 & (-> & Hv1 & Hp1)%take_current_view & E).
  apply bind_Done in E as (t & k1' & [Hcur ->]%unwrap_Done & E).
  apply bind_Done in E as ([] & k2 & E2 & E).
  apply (update_tcb_view (v_set_status Ready)) in E2 as (Hv2 & Hp2 & Hs2); [|done].
  apply bind_Done in E as (now & k2' & [= <- <-] & E).
  apply bind_Done in E as ([] & k3 & [Hv3 Hp3]%update_tcb_keeps & E); [|done].
  apply add_task_view in E as [Hv4 Hp4].
  split; [|congruence]. rewrite Hv4, Hv3, Hv2, Hv1 in *. simpl in *.
  unfold view at 1. rewrite Hcur. by apply a_suspend.
Qed.

(** The task that is suspended is the last of the queue. *)
Lemma suspend_queue (k : kernel A) (u : unit) k' :
  suspend_current k = Done (u, k') → ∃ t, processor k = Some t ∧ ready_queue k' = ready_queue k ++ [t].
Proof.
  unfold suspend_current. intros E.
  apply bind_Done in E as (o & k1 & (-> & Hv1 & _)%take_current_view & E).
  apply bind_Done in E as (t & k1' & [Hcur ->]%unwrap_Done & E).
  apply bind_Done in E as ([] & k2 & E2 & E).
  apply (update_tcb_view (v_set_status Ready)) in E2 as (Hv2 & _ & _); [|done].
  apply bind_Done in E as (now & k2' & [= <- <-] & E).
  apply bind_Done in E as ([] & k3 & [Hv3 _]%update_tcb_keeps & E); [|done].
  destruct u. apply add_task_view in E as [Hv4 _]. exists t. split; [done|].
  apply (f_equal a_queue) in Hv4. rewrite Hv3, Hv2, Hv1 in Hv4. exact Hv4.
Qed.

(** The loop of [exit]: every child is adopted. *)
Lemma adopt_loop cs (k : kernel A) k' :
  for_each cs (λ child,
    update_tcb child (set_parent (Some INITPROC));;
    update_tcb INITPROC (λ ip, set_children (children ip ++ [child]) ip)) k = Done (tt, k') →
  view k' = on_tasks (λ T, foldl adopt T cs) (view k) ∧ pid_allocator k' = pid_allocator k.
Proof.
  revert k. induction cs as [|c cs IH]; intros k; cbn [for_each].
  - intros [_ ->]%ret_Done. done.
  - intros E. apply bind_Done in E as ([] & k1 & E1 & E). apply bind_Done in E1 as ([] & k2 & E1 & E2).
    apply (update_tcb_view (v_set_parent (Some INITPROC))) in E1 as (Hv1 & Hp1 & _); [|done].
    apply (update_tcb_view (λ v, v_set_children (v_children v ++ [c]) v)) in E2 as (Hv2 & Hp2 & _); [|done].
    apply IH in E as [Hv3 Hp3]. split; [|congruence]. rewrite Hv3, Hv2, Hv1. done.
Qed.

Lemma exit_refines code (k : kernel A) k' :
  exit_current code k = Done (tt, k') →
  asched (view k) (view k') ∧ pid_allocator k' = pid_allocator k.
Proof.
  unfold exit_current. intros E.
  apply bind_Done in E as (o & k1 & (-> & Hv1 & Hp1)%take_current_view & E).
  apply bind_Done in E as (t & k1' & [Hcur ->]%unwrap_Done & E).
  apply bind_Done in E as (tcb & k1' & [-> Htcb]%get_tcb_Done & E).
  apply bind_Done in E as ([] & k1' & [_ ->]%rassert_Done & E).
  apply bind_Done in E as (now & k1' & [= <- <-] & E).
  apply bind_Done in E as ([] & k2 & [Hv2 Hp2]%update_tcb_keeps & E); [|done].
  apply bind_Done in E as ([] & k3 & E3 & E).
  apply (update_tcb_view (v_set_status Zombie)) in E3 as (Hv3 & Hp3 & _); [|done].
  apply bind_Done in E as ([] & k4 & [Hv4 Hp4]%update_tcb_keeps & E); [|done].
  apply bind_Done in E as ([] & k4' & [Hinit%bool_decide_eq_true ->]%rassert_Done & E).
  apply bind_Done in E as ([] & k5 & [Hv5 Hp5]%adopt_loop & E).
  apply bind_Done in E as ([] & k6 & E6 & E).
  apply (update_tcb_view (v_set_children [])) in E6 as (Hv6 & Hp6 & _); [|done].
  apply bind_Done in E as (ms & k7 & [Hv7 Hp7]%on_mm_keeps & E).
  apply bind_Done in E as ([] & k8 & [Hv8 Hp8]%update_tcb_keeps & E); [|done].
  apply update_tcb_keeps in E as [Hv9 Hp9]; [|done].
  split; [|congruence]. rewrite Hv9, Hv8, Hv7, Hv6, Hv5, Hv4, Hv3, Hv2.
  assert (a_tasks (view k) !! t = Some (pv tcb)) as Ht.
  { change (a_tasks (view k)) with (a_tasks (mkAproc (a_tasks (view k)) (a_queue (view k)) None)).
    rewrite <- Hv1. simpl. by rewrite lookup_fmap, Htcb. }
  rewrite Hv1. unfold view at 1. rewrite Hcur. by apply (a_exit _ _ t (pv tcb)).
Qed.

(** What [fetch] takes out of the queue. *)
Lemma fetch_Done (k : kernel A) o k' :
  fetch k = Done (o, k') →
  ∃ id, o = ready_queue k !! id ∧ k' = set_queue (delete id (ready_queue k)) k.
Proof.
  unfold fetch. intros E.
  apply bind_Done in E as (k0 & k1 & [= <- <-] & E).
  apply bind_Done in E as (t0 & k1 & [_ ->]%unwrap_Done & E).
  apply bind_Done in E as (tcb & k1 & [-> _]%get_tcb_Done & E).
  apply bind_Done in E as (strides & k1 & _ & E).
  destruct (scan_min strides (stride tcb)) as [id m].
  apply bind_Done in E as ([] & k2 & [= <-] & E). injection E as <- <-. by exists id.
Qed.

Lemma update_stri_keeps t (k : kernel A) r k' : update_stri t k = Done (r, k') → keeps k k'.
Proof.
  unfold update_stri. intros E. apply bind_Done in E as (tcb & k1 & [-> _]%get_tcb_Done & E).
  apply bind_Done in E as (x & k1 & [_ ->]%unwrap_Done & E). by apply update_tcb_keeps in E.
Qed.

Lemma run_refines (k : kernel A) k' :
  processor k = None → run_tasks_turn k = Done (tt, k') →
  asched (view k) (view k') ∧ pid_allocator k' = pid_allocator k.
Proof.
  unfold run_tasks_turn. intros Hcur E.
  apply bind_Done in E as (o & k1 & (id & -> & ->)%fetch_Done & E).
  destruct (ready_queue k !! id) as [t|] eqn:Ht.
  - apply bind_Done in E as ([] & k2 & E2 & E).
    apply (update_tcb_view (v_set_status Running)) in E2 as (Hv2 & Hp2 & Hs2); [|done].
    apply bind_Done in E as (now & k2' & [= <- <-] & E).
    apply bind_Done in E as ([] & k3 & [Hv3 Hp3]%update_tcb_keeps & E); [|done].
    apply bind_Done in E as ([] & k4 & [Hv4 Hp4]%update_stri_keeps & E).
    injection E as <-. simpl in *. split; [|congruence].
    assert (view k = mkAproc (a_tasks (view k)) (take id (ready_queue k) ++ t :: drop (S id) (ready_queue k)) None) as ->.
    { rewrite take_drop_middle by done. unfold view. by rewrite Hcur. }
    change (view (set_processor (Some t) k4)) with (mkAproc (a_tasks (view k4)) (a_queue (view k4)) (Some t)).
    rewrite Hv4, Hv3, Hv2. simpl. rewrite delete_take_drop. by apply a_run.
  - injection E as <-. split; [|done].
    assert (view (set_queue (delete id (ready_queue k)) k) = view k) as ->; [|apply a_idle].
    apply lookup_ge_None in Ht. unfold view; simpl.
    by rewrite delete_take_drop, take_ge, drop_ge, app_nil_r by lia.
Qed.

Lemma pid_alloc_view (k : kernel A) p k' :
  pid_alloc k = Done (p, k') →
  view k' = view k ∧ RecycleAllocator_alloc (pid_allocator k) = Done (p, pid_allocator k').
Proof. unfold pid_alloc. intros (a & E & ->)%zoom_Done. done. Qed.

(** The child that [fork] and [spawn] add to the tree. *)
Definition forked (k k' : kernel A) (t c : nat) : Prop :=
  ∃ p, RecycleAllocator_alloc (pid_allocator k) = Done (p, pid_allocator k') ∧
    a_tasks (view k) !! c = None ∧
    view k' = on_tasks (λ T, alter (λ v, v_set_children (v_children v ++ [c]) v) t
                               (<[c := mkPV p Ready (Some t) []]> T)) (view k).

Lemma fork_view t (k : kernel A) c k' : fork pf t k = Done (c, k') → forked k k' t c.
Proof.
  unfold fork. intros E.
  apply bind_Done in E as (tcb & k0 & [-> Ht]%get_tcb_Done & E).
  apply bind_Done in E as (ms & k1 & [Hv1 Hp1]%on_mm_keeps & E).
  apply bind_Done in E as (ppn & k1' & ->%trap_cx_page_Done & E).
  apply bind_Done in E as (p & k2 & [Hv2 Hp2]%pid_alloc_view & E).
  apply bind_Done in E as (ks & k3 & [Hv3 Hp3]%on_kspace_keeps & E).
  apply bind_Done in E as (now & k3' & [= <- <-] & E).
  apply bind_Done in E as (c' & k4 & E4 & E).
  apply bind_Done in E as ([] & k5 & [Hv5 Hp5]%on_mem_keeps & E). injection E as <- <-.
  assert (view k3 = view k) as Hv by congruence.
  apply add_child_view in E4 as (Hv4 & Hp4 & Hc & _).
  2:{ rewrite Hv. simpl. rewrite lookup_fmap, Ht. by eexists. }
  exists p. rewrite Hv in Hv4, Hc. split_and!; [|done|by rewrite Hv5, Hv4].
  rewrite Hp5, Hp4, Hp3, <- Hp2. congruence.
Qed.

Lemma spawn_view t data (k : kernel A) c k' : spawn pf t data k = Done (c, k') → forked k k' t c.
Proof.
  unfold spawn. intros E.
  apply bind_Done in E as (tcb & k0 & [-> Ht]%get_tcb_Done & E).
  apply bind_Done in E as ([[ms sp] en] & k1 & [Hv1 Hp1]%on_mm_keeps & E).
  apply bind_Done in E as (ppn & k1' & ->%trap_cx_page_Done & E).
  apply bind_Done in E as (p & k2 & [Hv2 Hp2]%pid_alloc_view & E).
  apply bind_Done in E as (ks & k3 & [Hv3 Hp3]%on_kspace_keeps & E).
  apply bind_Done in E as (now & k3' & [= <- <-] & E).
  apply bind_Done in E as (c' & k4 & E4 & E).
  apply bind_Done in E as ([] & k5 & [Hv5 Hp5]%init_trap_cx_keeps & E). injection E as <- <-.
  assert (view k3 = view k) as Hv by congruence.
  apply add_child_view in E4 as (Hv4 & Hp4 & Hc & _).
  2:{ rewrite Hv. simpl. rewrite lookup_fmap, Ht. by eexists. }
  exists p. rewrite Hv in Hv4, Hc. split_and!; [|done|by rewrite Hv5, Hv4].
  rewrite Hp5, Hp4, Hp3, <- Hp2. congruence.
Qed.

(** A finished call of [sys_fork] or [sys_spawn]: the child is queued. *)
Definition forked_queued (k k' : kernel A) : Prop :=
  ∃ t c p, processor k = Some t ∧
    RecycleAllocator_alloc (pid_allocator k) = Done (p, pid_allocator k') ∧
    a_tasks (view k) !! c = None ∧
    view k' = mkAproc (alter (λ v, v_set_children (v_children v ++ [c]) v) t
                         (<[c := mkPV p Ready (Some t) []]> (a_tasks (view k))))
                (a_queue (view k) ++ [c]) (Some t).

Lemma current_task_Done (k : kernel A) t k' : current_task k = Done (t, k') → k' = k ∧ processor k = Some t.
Proof. unfold current_task. intros. by st_inv. Qed.

Lemma forked_add_task (k k1 k2 k' : kernel A) t c r :
  processor k = Some t → forked k k1 t c → keeps k1 k2 → add_task c k2 = Done (r, k') → forked_queued k k'.
Proof.
  intros Ht (p & Ep & Hc & Hv) [Hv2 Hp2] [Hv3 Hp3]%add_task_view. exists t, c, p.
  split_and!; [done| |done|].
  - rewrite Hp3, Hp2. done.
  - rewrite Hv3, Hv2, Hv. simpl. by rewrite Ht.
Qed.

Lemma sys_fork_view fl st a b d (k : kernel A) r k' :
  sys_fork pf fl st a b d k = Done (r, k') → forked_queued k k'.
Proof.
  unfold sys_fork. intros E.
  apply bind_Done in E as (t & k0 & [-> Ht]%current_task_Done & E).
  apply bind_Done in E as (c & k1 & Hf%fork_view & E).
  apply bind_Done in E as (tcb & k1' & [-> _]%get_tcb_Done & E).
  apply bind_Done in E as ([] & k2 & Hk2%on_mem_keeps & E).
  apply bind_Done in E as ([] & k3 & E3 & E).
  apply bind_Done in E as ([] & k4 & E4 & E). injection E as _ <-.
  assert (keeps k2 k3) as Hk3. { destruct (negb _); [by apply on_mem_keeps in E3|by injection E3 as <-]. }
  eapply forked_add_task; [done|done|by eapply keeps_trans|done].
Qed.

Lemma sys_spawn_view data (k : kernel A) r k' : sys_spawn_data pf data k = Done (r, k') → forked_queued k k'.
Proof.
  unfold sys_spawn_data. intros E.
  apply bind_Done in E as (t & k0 & [-> Ht]%current_task_Done & E).
  apply bind_Done in E as (c & k1 & Hf%spawn_view & E).
  apply bind_Done in E as (tcb & k1' & [-> _]%get_tcb_Done & E).
  apply bind_Done in E as ([] & k4 & E4 & E). injection E as _ <-.
  eapply forked_add_task; [done|done|apply keeps_refl|done].
Qed.

(** ** [waitpid] *)

Lemma get_tcbs_Done l acc (k : kernel A) cs k' :
  for_fold l acc (λ acc c, tcb ← get_tcb c; mret (acc ++ [(c, tcb)])) k = Done (cs, k') →
  k' = k ∧ ∃ new, cs = acc ++ new ∧ new.*1 = l ∧ Forall (λ x, tcbs k !! x.1 = Some x.2) new.
Proof.
  revert acc. induction l as [|c l IH]; intros acc; cbn [for_fold].
  - intros [-> ->]%ret_Done. split; [done|]. exists []. by rewrite app_nil_r.
  - intros E. apply bind_Done in E as (acc1 & k1 & E1 & E).
    apply bind_Done in E1 as (tcb & k2 & [-> Htcb]%get_tcb_Done & [-> ->]%ret_Done).
    apply IH in E as (-> & new & -> & Hl & Hf). split; [done|]. exists ((c, tcb) :: new).
    rewrite <- app_assoc. split_and!; [done|simpl; by f_equal|by constructor].
Qed.

(** Dropping a task without children. *)
Lemma drop_task_view n c (k : kernel A) k' tcb :
  drop_task (S n) c k = Done (tt, k') → tcbs k !! c = Some tcb → children tcb = [] →
  view k' = on_tasks (delete c) (view k) ∧
  RecycleAllocator_dealloc (pid tcb) (pid_allocator k) = Done (tt, pid_allocator k').
Proof.
  intros E Hc Hch. cbn [drop_task] in E.
  apply bind_Done in E as (tcb' & k0 & [-> Hc']%get_tcb_Done & E). rewrite Hc in Hc'. injection Hc' as <-.
  apply bind_Done in E as ([] & k1 & E1 & E). injection E1 as <-.
  apply bind_Done in E as ([] & k2 & E2 & E). apply zoom_Done in E2 as (a & E2 & ->).
  apply bind_Done in E as ([] & k3 & [Hv3 Hp3]%on_kspace_keeps & E).
  apply bind_Done in E as ([] & k4 & [Hv4 Hp4]%on_mm_keeps & E).
  rewrite Hch in E. injection E as <-. split.
  - rewrite Hv4, Hv3. unfold view, on_tasks; simpl. by rewrite fmap_delete.
  - rewrite Hp4, Hp3. exact E2.
Qed.

(** Dropping tasks changes neither the queue nor the running task. *)
Lemma keeps_queue (k k' : kernel A) : keeps k k' → ready_queue k' = ready_queue k ∧ processor k' = processor k.
Proof. intros [Hv _]. split; [exact (f_equal a_queue Hv)|exact (f_equal a_current Hv)]. Qed.

Lemma drop_task_queue n : ∀ c (k : kernel A) (u : unit) k',
  drop_task n c k = Done (u, k') → ready_queue k' = ready_queue k ∧ processor k' = processor k.
Proof.
  induction n as [|n IH]; intros c k u k' E; [done|]. cbn [drop_task] in E.
  apply bind_Done in E as (tcb & k0 & [-> _]%get_tcb_Done & E).
  apply bind_Done in E as ([] & k1 & E1 & E). injection E1 as <-.
  apply bind_Done in E as ([] & k2 & E2 & E). apply zoom_Done in E2 as (a & _ & ->).
  apply bind_Done in E as ([] & k3 & [Hq3 Hp3]%on_kspace_keeps%keeps_queue & E).
  apply bind_Done in E as ([] & k4 & [Hq4 Hp4]%on_mm_keeps%keeps_queue & E).
  assert (∀ l (k5 : kernel A) (u5 : unit) k6, for_each l (λ c, k ← st_get; if decide (strong_count k c = 0%nat) then drop_task n c else mret tt) k5 = Done (u5, k6) →
    ready_queue k6 = ready_queue k5 ∧ processor k6 = processor k5) as Hl.
  { induction l as [|x l IHl]; intros k5 u5 k6 E5; [by injection E5 as _ <-|].
    apply bind_Done in E5 as ([] & k7 & E7 & [-> ->]%IHl). apply bind_Done in E7 as (k8 & k9 & [= <- <-] & E7).
    case_decide; [by eapply IH|by injection E7 as <-]. }
  destruct (Hl _ _ _ _ E) as [-> ->]. rewrite Hq4, Hp4, Hq3, Hp3. done.
Qed.

Lemma waitpid_queue want ptr (k : kernel A) r k' :
  waitpid want ptr k = Done (r, k') → ready_queue k' = ready_queue k ∧ processor k' = processor k.
Proof.
  intros E. unfold waitpid, reap in E.
  apply bind_Done in E as (t & k0 & [-> Ht]%current_task_Done & E).
  apply bind_Done in E as (inner & k0 & [-> Hinner]%get_tcb_Done & E).
  apply bind_Done in E as (cs & k0 & (-> & cs' & -> & Hl & Hcs)%get_tcbs_Done & E).
  destruct (negb _); [by injection E as _ <-|].
  destruct (list_find _ _) as [[idx [child ctcb]]|]; [|by injection E as _ <-].
  apply bind_Done in E as ([] & k1 & E1 & E).
  pose proof (update_tcb_Done _ _ _ _ _ E1) as (inner' & Hinner' & ->).
  apply bind_Done in E as (k1' & k1'' & [= <- <-] & E).
  apply bind_Done in E as ([] & k1' & [_ ->]%rassert_Done & E).
  apply bind_Done in E as ([] & k2 & E2 & E).
  apply bind_Done in E as ([] & k3 & [Hq3 Hp3]%drop_task_queue & E). injection E as _ <-. rewrite Hq3, Hp3.
  destruct (negb _); [|by injection E2 as <-].
  apply bind_Done in E2 as (pa & k4 & [Hq4 Hp4]%on_mem_keeps%keeps_queue & [Hq5 Hp5]%on_mem_keeps%keeps_queue).
  by rewrite Hq5, Hp5, Hq4, Hp4.
Qed.

(** What a finished [waitpid] did: nothing, or one zombie child is gone. *)
Lemma waitpid_view want ptr (k : kernel A) r k' :
  ainv (view k) → waitpid want ptr k = Done (r, k') →
  keeps k k' ∨
  ∃ t i c v vc, processor k = Some t ∧ a_tasks (view k) !! t = Some v ∧ v_children v !! i = Some c ∧
    a_tasks (view k) !! c = Some vc ∧ v_status vc = Zombie ∧ r = to_signed 64 (v_pid vc) ∧
    RecycleAllocator_dealloc (v_pid vc) (pid_allocator k) = Done (tt, pid_allocator k') ∧
    view k' = on_tasks (λ T, delete c (alter (λ v, v_set_children (delete i (v_children v)) v) t T)) (view k).
Proof.
  intros [Htree Hsched] E. unfold waitpid, reap in E.
  apply bind_Done in E as (t & k0 & [-> Ht]%current_task_Done & E).
  apply bind_Done in E as (inner & k0 & [-> Hinner]%get_tcb_Done & E).
  apply bind_Done in E as (cs & k0 & (-> & cs' & -> & Hl & Hcs)%get_tcbs_Done & E). rewrite app_nil_l in E.
  destruct (negb _); [injection E as _ <-; left; apply keeps_refl|].
  destruct (list_find _ cs') as [[idx [child ctcb]]|] eqn:Hfind; [|injection E as _ <-; left; apply keeps_refl].
  right. apply list_find_Some in Hfind as (Hidx & Hz & _).
  apply andb_true_iff in Hz as [Hz%bool_decide_eq_true _].
  assert (children inner !! idx = Some child) as Hchild by (rewrite <- Hl, list_lookup_fmap, Hidx; done).
  assert (tcbs k !! child = Some ctcb) as Hctcb by exact (proj1 (Forall_lookup _ _) Hcs _ _ Hidx).
  assert (a_tasks (view k) !! t = Some (pv inner)) as Hvt by (simpl; by rewrite lookup_fmap, Hinner).
  assert (a_tasks (view k) !! child = Some (pv ctcb)) as Hvc by (simpl; by rewrite lookup_fmap, Hctcb).
  apply bind_Done in E as ([] & k1 & E1 & E).
  pose proof (update_tcb_Done _ _ _ _ _ E1) as (inner' & Hinner' & Hk1).
  apply (update_tcb_view (λ v, v_set_children (delete idx (v_children v)) v)) in E1 as (Hv1 & Hp1 & _); [|done].
  apply bind_Done in E as (k1' & k1'' & [= <- <-] & E).
  apply bind_Done in E as ([] & k1' & [_ ->]%rassert_Done & E).
  apply bind_Done in E as ([] & k2 & E2 & E).
  assert (keeps k1 k2 ∧ tcbs k2 = tcbs k1) as [[Hv2 Hp2] Ht2].
  { destruct (negb _); [|injection E2 as <-; done].
    apply bind_Done in E2 as (pa & k3 & E3 & E2).
    pose proof (on_mem_keeps _ _ _ _ E3). pose proof (on_mem_keeps _ _ _ _ E2).
    apply zoom_Done in E3 as (? & _ & ->). apply zoom_Done in E2 as (? & _ & ->).
    split; [by eapply keeps_trans|done]. }
  apply bind_Done in E as ([] & k3 & E3 & E). injection E as Hr <-.
  assert (child ≠ t) as Hne.
  { intros ->. destruct (ti_child _ Htree t _ t Hvt) as (_ & ? & _); [|done]. by apply list_elem_of_lookup_2 with idx. }
  assert (tcbs k2 !! child = Some ctcb) as Hctcb2.
  { rewrite Ht2, Hk1. simpl. by rewrite lookup_insert_ne. }
  assert (children ctcb = []) as Hnil by exact (si_zombie _ Hsched child _ Hvc Hz).
  destruct (drop_task_view _ _ _ _ _ E3 Hctcb2 Hnil) as [Hv3 Hp3].
  exists t, idx, child, (pv inner), (pv ctcb). split_and!; try done.
  - by rewrite <- Hp1, <- Hp2.
  - rewrite Hv3, Hv2, Hv1. done.
Qed.

(** ** Operations that change neither the tree nor the queues *)

Lemma exec_keeps t data (k : kernel A) r k' : exec pf t data k = Done (r, k') → keeps k k'.
Proof.
  unfold exec. intros E.
  apply bind_Done in E as ([[ms sp] en] & k1 & Hk1%on_mm_keeps & E).
  apply bind_Done in E as (ppn & k1' & ->%trap_cx_page_Done & E).
  apply bind_Done in E as (tcb & k1' & [-> _]%get_tcb_Done & E).
  apply bind_Done in E as ([] & k2 & Hk2%on_mm_keeps & E).
  apply bind_Done in E as ([] & k3 & Hk3%update_tcb_keeps & E); [|done].
  apply init_trap_cx_keeps in E. eauto using keeps_trans.
Qed.

Lemma brk_keeps t x (k : kernel A) r k' : change_program_brk t x k = Done (r, k') → keeps k k'.
Proof.
  unfold change_program_brk. intros E. apply bind_Done in E as (tcb & k1 & [-> _]%get_tcb_Done & E).
  destruct (x =? 0); [by injection E as _ <-|]. destruct (_ <? _); [by injection E as _ <-|].
  destruct (_ <? _).
  - apply bind_Done in E as ([res ms] & k2 & E2 & E).
    assert (keeps k k2) as Hk2 by (destruct (_ <? _); by apply on_mm_keeps in E2).
    apply bind_Done in E as ([] & k3 & Hk3%update_tcb_keeps & E); [|done].
    destruct res; [|injection E as _ <-; by eapply keeps_trans].
    apply bind_Done in E as ([] & k4 & Hk4%update_tcb_keeps & E); [|done].
    injection E as _ <-. eauto using keeps_trans.
  - apply bind_Done in E as ([] & k3 & Hk3%update_tcb_keeps & E); [|done]. by injection E as _ <-.
Qed.

(** ** Steps of the kernel *)

(** The process-management operations, in the situations in which the kernel
    runs them; [step_user] is everything else (user code, other system calls),
    which leaves the process view alone. *)
Inductive kernel_step : kernel A → kernel A → Prop :=
| step_run k k' : processor k = None → run_tasks_turn k = Done (tt, k') → kernel_step k k'
| step_yield k k' : suspend_current k = Done (tt, k') → kernel_step k k'
| step_exit code k k' : exit_current code k = Done (tt, k') → kernel_step k k'
| step_fork fl st a b d r k k' :
    ra_current (pid_allocator k) < 2 ^ 64 - 2 →
    sys_fork pf fl st a b d k = Done (r, k') → kernel_step k k'
| step_spawn data r k k' :
    ra_current (pid_allocator k) < 2 ^ 64 - 2 →
    sys_spawn_data pf data k = Done (r, k') → kernel_step k k'
| step_exec data r k k' : sys_exec_data pf data k = Done (r, k') → kernel_step k k'
| step_wait want ptr r k k' : waitpid want ptr k = Done (r, k') → kernel_step k k'
| step_brk x r k k' : sys_brk x k = Done (r, k') → kernel_step k k'
| step_priority x r k k' : sys_set_priority x k = Done (r, k') → kernel_step k k'
| step_user k k' : keeps k k' → kernel_step k k'.

(** The invariant of the kernel: that of the process view, and the ids of the
    tasks are in use. *)
Definition kinv (k : kernel A) : Prop :=
  ainv (view k) ∧ recycle_inv (pid_allocator k) ∧
  ∀ t v, a_tasks (view k) !! t = Some v → id_in_use (pid_allocator k) (v_pid v).

Lemma kinv_keeps k k' : keeps k k' → kinv k → kinv k'.
Proof. unfold kinv. by intros [-> ->]. Qed.

Lemma alter_pids (f : pview → pview) (x : nat) T :
  (∀ v, v_pid (f v) = v_pid v) →
  ∀ t v, alter f x T !! t = Some v → ∃ w, T !! t = Some w ∧ v_pid w = v_pid v.
Proof. intros Hf t v [(-> & w & Hw & ->)|[_ Ht]]%lookup_alter_iff; eauto. Qed.

Lemma adopt_pids cs T : ∀ t v, foldl adopt T cs !! t = Some v → ∃ w, T !! t = Some w ∧ v_pid w = v_pid v.
Proof.
  revert T. induction cs as [|c cs IH]; intros T t v; simpl; [by eauto|].
  intros (w & Hw & <-)%IH. unfold adopt in Hw.
  apply alter_pids in Hw as (w1 & Hw1 & <-); [|done]. apply alter_pids in Hw1 as (w2 & Hw2 & <-); [|done]. eauto.
Qed.

(** Scheduling keeps the ids of the tasks. *)
Lemma asched_pids s s' :
  asched s s' → ∀ t v, a_tasks s' !! t = Some v → ∃ w, a_tasks s !! t = Some w ∧ v_pid w = v_pid v.
Proof.
  intros Hstep. destruct Hstep; simpl in *; [by apply alter_pids..| |by eauto].
  intros u w Hw. apply alter_pids in Hw as (w1 & Hw1 & <-); [|done].
  apply adopt_pids in Hw1 as (w2 & Hw2 & <-). apply alter_pids in Hw2 as (w3 & Hw3 & <-); [|done]. eauto.
Qed.

Lemma kinv_sched k k' :
  kinv k → asched (view k) (view k') → pid_allocator k' = pid_allocator k → astep (view k) (view k') ∧ kinv k'.
Proof.
  intros (Hi & Hr & Hu) Hstep Hp. assert (astep (view k) (view k')) as Ha by (by apply a_sched).
  split; [done|]. unfold kinv. rewrite Hp. split_and!; [by eapply ainv_step|done|].
  intros t v Hv. destruct (asched_pids _ _ Hstep t v Hv) as (w & Hw & <-). by eapply Hu.
Qed.

Lemma kinv_fork k k' :
  kinv k → ra_current (pid_allocator k) < 2 ^ 64 - 2 → forked_queued k k' →
  astep (view k) (view k') ∧ kinv k'.
Proof.
  intros (Hi & Hr & Hu) Hb (t & c & p & Ht & Ep & Hc & Hv).
  destruct (recycle_alloc_ok _ Hr Hb) as (p' & a' & Ep' & Hr' & _ & Hn & Hu'). rewrite Ep in Ep'. injection Ep' as <- <-.
  destruct (proj1 (si_current _ (proj2 Hi) t) Ht) as (v & Hvt & _).
  assert (∀ u w, a_tasks (view k) !! u = Some w → v_pid w ≠ p) as Hfresh.
  { intros u w Hw <-. by apply Hn, (Hu u w). }
  assert (astep (view k) (view k')) as Ha.
  { rewrite Hv. unfold view at 1. rewrite Ht. by apply (a_fork _ _ t c p v). }
  split; [done|]. split_and!; [by eapply ainv_step|done|].
  intros u w. rewrite Hv. simpl. intros (w1 & Hw1 & <-)%alter_pids; [|done]. apply Hu'.
  apply lookup_insert_Some in Hw1 as [[<- <-]|[_ Hw1]]; [by right|left]. by apply (Hu u w1).
Qed.

Lemma kinv_wait want ptr k r k' :
  kinv k → waitpid want ptr k = Done (r, k') →
  (astep (view k) (view k') ∨ view k' = view k) ∧ kinv k'.
Proof.
  intros Hk E. pose proof Hk as (Hi & Hr & Hu).
  destruct (waitpid_view _ _ _ _ _ Hi E) as [Hkeep|(t & i & c & v & vc & Ht & Hvt & Hic & Hc & Hz & _ & Ep & Hv)].
  { split; [right; apply Hkeep|by eapply kinv_keeps]. }
  destruct (recycle_dealloc_ok _ (v_pid vc) Hr (Hu c vc Hc)) as (a' & Ep' & Hr' & Hu').
  rewrite Ep in Ep'. injection Ep' as <-.
  assert (astep (view k) (view k')) as Ha.
  { rewrite Hv. unfold view at 1, on_tasks. simpl. rewrite Ht. by apply (a_reap _ _ t i c v vc). }
  split; [by left|]. split_and!; [by eapply ainv_step|done|].
  intros u w. rewrite Hv. simpl. intros [Huc (w1 & Hw1 & <-)%alter_pids]%lookup_delete_Some; [|done].
  apply Hu'. split; [by apply (Hu u w1)|]. intros Eq. apply Huc. symmetry.
  by eapply (ti_pids _ (proj1 Hi) u c w1 vc).
Qed.

Lemma kernel_step_refines k k' :
  kinv k → kernel_step k k' → (astep (view k) (view k') ∨ view k' = view k) ∧ kinv k'.
Proof.
  intros Hk Hstep. destruct Hstep as [k k' Hp E|k k' E|code k k' E|fl st a b d r k k' Hb E|data r k k' Hb E
    |data r k k' E|want ptr r k k' E|x r k k' E|x r k k' E|k k' Hkeep].
  - destruct (run_refines k k' Hp E) as [Hs Ep]. destruct (kinv_sched k k' Hk Hs Ep). by split; [left|].
  - destruct (suspend_refines k k' E) as [Hs Ep]. destruct (kinv_sched k k' Hk Hs Ep). by split; [left|].
  - destruct (exit_refines code k k' E) as [Hs Ep]. destruct (kinv_sched k k' Hk Hs Ep). by split; [left|].
  - apply sys_fork_view in E. destruct (kinv_fork k k' Hk Hb E). by split; [left|].
  - apply sys_spawn_view in E. destruct (kinv_fork k k' Hk Hb E). by split; [left|].
  - assert (keeps k k') as Hkeep.
    { unfold sys_exec_data in E. apply bind_Done in E as (t & k0 & [-> _]%current_task_Done & E).
      apply bind_Done in E as ([] & k1 & Hk1%exec_keeps & E). by injection E as _ <-. }
    split; [right; apply Hkeep|by eapply kinv_keeps].
  - by eapply kinv_wait.
  - assert (keeps k k') as Hkeep.
    { unfold sys_brk in E. apply bind_Done in E as (t & k0 & [-> _]%current_task_Done & E).
      apply bind_Done in E as (o & k1 & Hk1%brk_keeps & E). by injection E as _ <-. }
    split; [right; apply Hkeep|by eapply kinv_keeps].
  - assert (keeps k k') as Hkeep.
    { unfold sys_set_priority in E. destruct (x <=? 1); [by injection E as _ <-|].
      apply bind_Done in E as (t & k0 & [-> _]%current_task_Done & E).
      apply bind_Done in E as ([] & k1 & Hk1%update_tcb_keeps & E); [|done]. by injection E as _ <-. }
    split; [right; apply Hkeep|by eapply kinv_keeps].
  - split; [right; apply Hkeep|by eapply kinv_keeps].
Qed.

(** ** The start *)

(** The state after [add_initproc]: one task, ready. *)
Definition booted (k : kernel A) : Prop :=
  ∃ tcb, tcbs k = {[INITPROC := tcb]} ∧ task_status tcb = Ready ∧ parent tcb = None ∧ children tcb = [] ∧
    ready_queue k = [INITPROC] ∧ processor k = None ∧
    recycle_inv (pid_allocator k) ∧ id_in_use (pid_allocator k) (pid tcb).

Lemma booted_kinv k : booted k → kinv k.
Proof.
  intros (tcb & Et & Hs & Hpar & Hch & Hq & Hp & Hr & Hu).
  assert (view k = mkAproc {[INITPROC := pv tcb]} [INITPROC] None) as Hv.
  { unfold view. by rewrite Et, Hq, Hp, map_fmap_singleton. }
  assert (∀ t v, a_tasks (view k) !! t = Some v → t = INITPROC ∧ v = pv tcb) as Hone.
  { intros t v. rewrite Hv. simpl. by intros [<- <-]%lookup_singleton_Some. }
  unfold kinv. split_and!; [|done|by intros t v [-> ->]%Hone].
  split; [constructor|constructor].
  - intros t v c [-> ->]%Hone Hc. simpl in Hc. rewrite Hch in Hc. by apply not_elem_of_nil in Hc.
  - intros t v [-> ->]%Hone. simpl. rewrite Hch. apply NoDup_nil_2.
  - by intros t v [-> ->]%Hone.
  - rewrite Hv. simpl. rewrite lookup_singleton_eq. by eexists.
  - by intros t u v w [-> ->]%Hone [-> ->]%Hone.
  - rewrite Hv. apply NoDup_singleton.
  - intros t. rewrite Hv. simpl. rewrite list_elem_of_singleton. split.
    + intros ->. exists (pv tcb). by rewrite lookup_singleton_eq.
    + by intros (v & [<- _]%lookup_singleton_Some & _).
  - intros t. rewrite Hv. simpl. split; [done|].
    intros (v & [_ <-]%lookup_singleton_Some & Hsv). simpl in Hsv. congruence.
  - intros t v [-> ->]%Hone. simpl. congruence.
  - intros v [_ ->]%Hone. simpl. congruence.
  - by intros t v [-> ->]%Hone.
Qed.

Lemma kinv_reach k0 k : booted k0 → rtc kernel_step k0 k → kinv k.
Proof.
  intros Hb Hreach. apply booted_kinv in Hb.
  induction Hreach as [|k1 k2 k3 Hstep _ IH]; [done|].
  apply IH. by apply (kernel_step_refines k1).
Qed.

(** ** References *)

(** Nobody but [waitpid] refers to the zombie it took out of [children]. *)
Lemma reaped_unreferenced k t tcb i c ctcb :
  ainv (view k) → processor k = Some t → tcbs k !! t = Some tcb → children tcb !! i = Some c →
  tcbs k !! c = Some ctcb → task_status ctcb = Zombie →
  strong_count (set_tcbs (<[t := set_children (delete i (children tcb)) tcb]> (tcbs k)) k) c = 0%nat.
Proof.
  intros [Htree Hsched] Hp Ht Hi Hc Hz.
  assert (a_tasks (view k) !! t = Some (pv tcb)) as Hvt by (simpl; by rewrite lookup_fmap, Ht).
  assert (a_tasks (view k) !! c = Some (pv ctcb)) as Hvc by (simpl; by rewrite lookup_fmap, Hc).
  assert (c ∈ children tcb) as Hin by (by apply list_elem_of_lookup_2 with i).
  destruct (ti_child _ Htree t (pv tcb) c Hvt Hin) as (Hci & Hct & _).
  unfold strong_count. simpl. rewrite decide_False by done.
  rewrite !filter_none; [done| | |].
  - intros Hx. apply list_elem_of_join in Hx as (l & Hcl & Hl).
    apply list_elem_of_fmap in Hl as ([u utcb] & -> & Hu%elem_of_map_to_list). simpl in Hcl.
    apply lookup_insert_Some in Hu as [[<- <-]|[Hut Hu]]; simpl in Hcl.
    + apply (elem_of_delete_NoDup _ _ c) in Hcl as [_ ?]; [done| |done]. exact (ti_nodup _ Htree t _ Hvt).
    + apply Hut. eapply (tree_one_parent _ t u (pv tcb) (pv utcb) c Htree); [done| |done|done].
      simpl. by rewrite lookup_fmap, Hu.
  - rewrite Hp. simpl. rewrite list_elem_of_singleton. done.
  - intros Hq. apply (si_queue _ Hsched) in Hq as (v & Hv & Hs). rewrite Hvc in Hv. injection Hv as <-.
    simpl in Hs. congruence.
Qed.

Lemma get_tcbs_ok (k : kernel A) l : Forall (λ c, is_Some (tcbs k !! c)) l →
  ∃ cs, get_tcbs l k = Done (cs, k) ∧ cs.*1 = l ∧ Forall (λ x, tcbs k !! x.1 = Some x.2) cs.
Proof.
  intros Hl. unfold get_tcbs.
  assert (∀ acc, ∃ cs, for_fold l acc (λ acc c, tcb ← get_tcb c; mret (acc ++ [(c, tcb)])) k = Done (cs, k)) as Hrun.
  { induction Hl as [|c l [tcb Hc] _ IH]; intros acc; [by eexists|]. destruct (IH (acc ++ [(c, tcb)])) as [cs E]. exists cs.
    cbn [for_fold]. erewrite bind_step; [exact E|]. erewrite bind_step; [reflexivity|]. unfold get_tcb. erewrite bind_step by reflexivity. by rewrite Hc. }
  destruct (Hrun []) as [cs E]. exists cs. split; [done|]. destruct (get_tcbs_Done _ _ _ _ _ E) as (_ & new & -> & ? & ?). done.
Qed.

(** [waitpid] in a state of the invariant: what it does for every state of the
    children of the running task. *)
Section wait.
Context (k : kernel A) (t : nat) (tcb : TaskControlBlock) (want ptr : Z).
Context (Hinv : ainv (view k)) (Hp : processor k = Some t) (Ht : tcbs k !! t = Some tcb).

Lemma children_exist : Forall (λ c, is_Some (tcbs k !! c)) (children tcb).
Proof.
  apply Forall_forall. intros c Hc. assert (a_tasks (view k) !! t = Some (pv tcb)) as Hvt by (simpl; by rewrite lookup_fmap, Ht).
  destruct (ti_child _ (proj1 Hinv) t _ c Hvt Hc) as (_ & _ & vc & Hvc & _). simpl in Hvc. rewrite lookup_fmap in Hvc.
  by destruct (tcbs k !! c).
Qed.

(** The running task, and the children with their control blocks. *)
Lemma waitpid_start : ∃ cs, cs.*1 = children tcb ∧ Forall (λ x, tcbs k !! x.1 = Some x.2) cs ∧
  waitpid want ptr k =
  (if negb (existsb (λ '(_, c), pid_matches want c) cs) then mret (-1)
   else
    match list_find (λ '(_, c), is_zombie c && pid_matches want c = true) cs with
    | Some (idx, (child, ctcb)) =>
        update_tcb t (λ inner, set_children (delete idx (children inner)) inner);;
        k ← st_get;
        rassert (bool_decide (strong_count k child = 0%nat));;
        reap (MemorySet_token (memory_set tcb)) ptr (S (size (tcbs k))) child ctcb
    | None => mret (-2)
    end) k.
Proof.
  destruct (get_tcbs_ok k (children tcb) children_exist) as (cs & E & Hl & Hf). exists cs. split; [done|]. split; [done|].
  unfold waitpid. erewrite bind_step by (unfold current_task; erewrite bind_step by reflexivity; rewrite Hp; reflexivity).
  erewrite bind_step by (unfold get_tcb; erewrite bind_step by reflexivity; rewrite Ht; reflexivity).
  by rewrite (bind_step _ _ _ _ _ E).
Qed.

Lemma waitpid_none :
  (∀ c ctcb, c ∈ children tcb → tcbs k !! c = Some ctcb → pid_matches want ctcb = false) → waitpid want ptr k = Done (-1, k).
Proof.
  destruct waitpid_start as (cs & Hl & Hf & ->). intros Hno. rewrite Forall_forall in Hf.
  assert (existsb (λ '(_, c), pid_matches want c) cs = false) as ->; [|done].
  apply not_true_is_false. intros ([c ctcb] & Hin%list_elem_of_In & Hm)%existsb_exists. rewrite (Hno c ctcb) in Hm; [done| |by apply (Hf (c, ctcb))].
  rewrite <- Hl. apply list_elem_of_fmap. by exists (c, ctcb).
Qed.

Lemma existsb_matches cs c ctcb : cs.*1 = children tcb → Forall (λ x, tcbs k !! x.1 = Some x.2) cs →
  c ∈ children tcb → tcbs k !! c = Some ctcb → pid_matches want ctcb = true → existsb (λ '(_, c), pid_matches want c) cs = true.
Proof.
  intros Hl Hf Hc Hctcb Hm. rewrite <- Hl in Hc. apply list_elem_of_fmap in Hc as ([c' x] & -> & Hin). rewrite Forall_forall in Hf.
  pose proof (Hf _ Hin) as Hx. simpl in *. simplify_eq. apply existsb_exists. exists (c', ctcb). split; [by apply list_elem_of_In|done].
Qed.

Lemma waitpid_alive c ctcb :
  c ∈ children tcb → tcbs k !! c = Some ctcb → pid_matches want ctcb = true →
  (∀ c ctcb, c ∈ children tcb → tcbs k !! c = Some ctcb → pid_matches want ctcb = true → task_status ctcb ≠ Zombie) →
  waitpid want ptr k = Done (-2, k).
Proof.
  destruct waitpid_start as (cs & Hl & Hf & ->). intros Hc Hctcb Hm Hno.
  rewrite (existsb_matches cs c ctcb) by done. cbn [negb]. assert (list_find (λ '(_, c), is_zombie c && pid_matches want c = true) cs = None) as ->; [|done].
  apply list_find_None, Forall_forall. intros [c' x] Hin [Hz%bool_decide_eq_true Hx]%andb_true_iff. rewrite Forall_forall in Hf.
  eapply (Hno c' x); [rewrite <- Hl; apply list_elem_of_fmap; by exists (c', x)|by apply (Hf (c', x))|done|done].
Qed.

(** The state without the child. *)
Definition orphaned (i : nat) : kernel A := set_tcbs (<[t := set_children (delete i (children tcb)) tcb]> (tcbs k)) k.

Lemma waitpid_reaps i c ctcb :
  children tcb !! i = Some c → tcbs k !! c = Some ctcb → task_status ctcb = Zombie → pid_matches want ctcb = true →
  (∀ j c' ctcb', (j < i)%nat → children tcb !! j = Some c' → tcbs k !! c' = Some ctcb' →
     pid_matches want ctcb' = true → task_status ctcb' ≠ Zombie) →
  strong_count (orphaned i) c = 0%nat ∧
  waitpid want ptr k = reap (MemorySet_token (memory_set tcb)) ptr (S (size (tcbs (orphaned i)))) c ctcb (orphaned i).
Proof.
  intros Hi Hc Hz Hm Hfirst. assert (strong_count (orphaned i) c = 0%nat) as Hs by (by eapply reaped_unreferenced). split; [done|].
  destruct waitpid_start as (cs & Hl & Hf & ->). rewrite (existsb_matches cs c ctcb); [|done|done|by eapply list_elem_of_lookup_2|done|done]. cbn [negb].
  assert (∀ j c', children tcb !! j = Some c' → ∃ x, cs !! j = Some (c', x) ∧ tcbs k !! c' = Some x) as Hcs.
  { intros j c' Hj. rewrite <- Hl, list_lookup_fmap in Hj. destruct (cs !! j) as [[? x]|] eqn:Ej; [|done]. injection Hj as ->. exists x. split; [done|].
    exact (proj1 (Forall_lookup _ _) Hf _ _ Ej). }
  assert (list_find (λ '(_, c), is_zombie c && pid_matches want c = true) cs = Some (i, (c, ctcb))) as ->.
  { destruct (Hcs i c Hi) as (x & Ex & Hx). simplify_eq. apply list_find_Some. split; [done|].
    split; [by rewrite Hm; apply andb_true_iff; split; [apply bool_decide_eq_true|]|].
    intros j [c' y] Hj Hlt [Hzy%bool_decide_eq_true Hmy]%andb_true_iff.
    apply (Hfirst j c' y); [done| |exact (proj1 (Forall_lookup _ _) Hf _ _ Hj)|done|done]. by rewrite <- Hl, list_lookup_fmap, Hj. }
  erewrite bind_step; [|unfold update_tcb; erewrite bind_step by (unfold get_tcb; erewrite bind_step by reflexivity; rewrite Ht; reflexivity); reflexivity].
  fold (orphaned i). erewrite bind_step by reflexivity. rewrite bool_decide_eq_true_2 by done. by erewrite bind_step by reflexivity.
Qed.

(** What is left of the child when [reap] returns. *)
Lemma reap_Done i c ctcb r k' :
  c ≠ t → tcbs k !! c = Some ctcb → children ctcb = [] →
  reap (MemorySet_token (memory_set tcb)) ptr (S (size (tcbs (orphaned i)))) c ctcb (orphaned i) = Done (r, k') →
  r = to_signed 64 (pid ctcb) ∧ tcbs k' = delete c (tcbs (orphaned i)).
Proof.
  intros Hne Hc Hch E. unfold reap in E. apply bind_Done in E as ([] & k1 & E1 & E). apply bind_Done in E as ([] & k2 & E2 & E). injection E as <- <-.
  split; [done|]. assert (tcbs k1 = tcbs (orphaned i)) as Hk1.
  { destruct (negb _); [|by injection E1 as <-]. apply bind_Done in E1 as (pa & k3 & E3 & E1).
    apply zoom_Done in E3 as (? & _ & ->). by apply zoom_Done in E1 as (? & _ & ->). }
  cbn [drop_task] in E2. apply bind_Done in E2 as (x & k3 & [-> Hx]%get_tcb_Done & E2).
  assert (x = ctcb) as ->. { rewrite Hk1 in Hx. simpl in Hx. rewrite lookup_insert_ne in Hx by done. congruence. }
  apply bind_Done in E2 as ([] & k3 & E3 & E2). injection E3 as <-.
  apply bind_Done in E2 as ([] & k4 & E4 & E2). apply zoom_Done in E4 as (? & _ & ->).
  apply bind_Done in E2 as ([] & k5 & E5 & E2). apply bind_Done in E2 as ([] & k6 & E6 & E2).
  rewrite Hch in E2. injection E2 as <-. apply zoom_Done in E6 as (? & _ & ->). apply zoom_Done in E5 as (? & _ & ->). cbn. by rewrite Hk1.
Qed.
End wait.

(** In a state of the invariant a task is in the ready queue, once, exactly when
    it is ready, and so on. *)
Lemma kinv_tasks (k : kernel A) (t : nat) (tcb : TaskControlBlock) :
  kinv k → tcbs k !! t = Some tcb →
  NoDup (ready_queue k) ∧
  (t ∈ ready_queue k ↔ task_status tcb = Ready) ∧
  (processor k = Some t ↔ task_status tcb = Running) ∧
  (task_status tcb = Ready ∨ task_status tcb = Running ∨ task_status tcb = Zombie ∧ children tcb = []) ∧
  (t ≠ INITPROC → exists! p, ∃ ptcb, tcbs k !! p = Some ptcb ∧ t ∈ children ptcb ∧ NoDup (children ptcb)).
Proof.
  intros ([Htree Hsched] & _) Ht.
  assert (a_tasks (view k) !! t = Some (pv tcb)) as Hvt by (simpl; by rewrite lookup_fmap, Ht).
  assert (∀ u v, a_tasks (view k) !! u = Some v → ∃ utcb, tcbs k !! u = Some utcb ∧ v = pv utcb) as Hpv.
  { intros u v. simpl. rewrite lookup_fmap, fmap_Some. naive_solver. }
  split_and!.
  - apply (si_nodup _ Hsched).
  - rewrite (si_queue _ Hsched t). rewrite Hvt. split; [by intros (v & [= <-] & ?)|intros; by exists (pv tcb)].
  - rewrite (si_current _ Hsched t). rewrite Hvt. split; [by intros (v & [= <-] & ?)|intros; by exists (pv tcb)].
  - pose proof (si_init _ Hsched t _ Hvt) as Hn. pose proof (si_zombie _ Hsched t _ Hvt) as Hz. simpl in *.
    destruct (task_status tcb); naive_solver.
  - intros Hne. destruct (ti_parent _ Htree t _ Hvt Hne) as (p & vp & Hp & Htp).
    destruct (Hpv p vp Hp) as (ptcb & Hptcb & ->). exists p. split.
    + exists ptcb. split_and!; [done|done|]. exact (ti_nodup _ Htree p _ Hp).
    + intros q (qtcb & Hq & Htq & _).
      eapply (tree_one_parent _ p q (pv ptcb) (pv qtcb) t Htree); [done| |done|done].
      simpl. by rewrite lookup_fmap, Hq.
Qed.

End refine.

(** ** Properties *)

Section properties.
Context {A : Type} `{FrameAllocator A}.
Variable pf : platform.

(** Process management refines the abstract machine: every step of the
    kernel (scheduling, exit, fork, spawn, exec, waitpid, brk, priorities) is a
    step of [astep] on the process view, or leaves the view unchanged, and the
    invariant is kept. *)
Theorem kernel_refines_process_machine (k k' : kernel A) :
  kinv k → kernel_step pf k k' →
  (astep (view k) (view k') ∨ view k' = view k) ∧ kinv k'.
Proof. apply kernel_step_refines. Qed.

(** Process ids are unique among the tasks of every reachable state. *)
Theorem pids_unique (k0 k : kernel A) (t u : nat) (tcb ucb : TaskControlBlock) :
  booted k0 → rtc (kernel_step pf) k0 k →
  tcbs k !! t = Some tcb → tcbs k !! u = Some ucb → pid tcb = pid ucb → t = u.
Proof.
  intros Hb Hreach Ht Hu E. destruct (kinv_reach pf k0 k Hb Hreach) as ([Htree _] & _).
  eapply (ti_pids _ Htree t u (pv tcb) (pv ucb)); [simpl; by rewrite lookup_fmap, Ht|simpl; by rewrite lookup_fmap, Hu|done].
Qed.

End properties.

(** ** Witnesses

    A machine with 256 frames and a program without segments: the first task
    runs, forks, and yields to its child, which exits. *)

Definition wit_pf : platform :=
  mkPlatform (mkLinker 0 0 0 0 0 0 0 0 0 0x80201000)
    (λ _, Some (mkElf [0x7f; 0x45; 0x4c; 0x46] [] 0x1000 [])) 0x80200100 0x80200200 0.

Definition wit_blank : kernel StackFrameAllocator :=
  mkKernel (mkMM (mkStackFA 0x80500 0x80600 []) ∅) (mkMemorySet (mkPageTable 0 []) [])
    RecycleAllocator_new RecycleAllocator_new ∅ [] None 0.

Definition wit_boot : ST (kernel StackFrameAllocator) unit :=
  ms ← on_mm new_bare;
  ms ← on_mm (map_trampoline (pf_ld wit_pf) ms);
  st_modify (λ k, mkKernel (k_mm k) ms (kstack_allocator k) (pid_allocator k) (tcbs k)
                    (ready_queue k) (processor k) (k_time k));;
  add_initproc wit_pf [].

Definition wit_k0 := final wit_blank (wit_boot wit_blank).
Definition wit_k1 := final wit_k0 (run_tasks_turn wit_k0).
Definition wit_k2 := final wit_k1 (sys_fork wit_pf 0 0 0 0 0 wit_k1).
Definition wit_k3 := final wit_k2 (suspend_current wit_k2).
Definition wit_k4 := final wit_k3 (run_tasks_turn wit_k3).
Definition wit_k5 := final wit_k4 (exit_current 7 wit_k4).
Definition wit_k6 := final wit_k5 (run_tasks_turn wit_k5).

Lemma wit_booted : booted wit_k0.
Proof.
  assert ((λ x, (pid x, task_status x, parent x, children x)) <$> tcbs wit_k0 !! INITPROC
          = Some (1, Ready, None, [])) as Hv by (vm_compute; reflexivity).
  assert (dom (tcbs wit_k0) = {[INITPROC]}) as Hd by (vm_compute; reflexivity).
  assert (ready_queue wit_k0 = [INITPROC]) as Hq by (vm_compute; reflexivity).
  assert (processor wit_k0 = None) as Hp by (vm_compute; reflexivity).
  assert (pid_allocator wit_k0 = mkRecycle 2 []) as Ha by (vm_compute; reflexivity).
  revert Hv Hd Hq Hp Ha. generalize wit_k0. intros k Hv Hd Hq Hp Ha.
  unfold booted. rewrite Ha. clear Ha.
  apply fmap_Some in Hv as (tcb & E & [= Ep Es Epa Ec]). exists tcb.
  rewrite <- Ep. split_and!; try done.
  - apply map_eq. intros i. destruct (decide (i = INITPROC)) as [->|Hi].
    + by rewrite E, lookup_singleton_eq.
    + rewrite lookup_singleton_ne by done. apply not_elem_of_dom. rewrite Hd. set_solver.
  - unfold recycle_inv; simpl. split_and!; [lia|lia|apply NoDup_nil_2|constructor].
  - unfold id_in_use; simpl. split; [lia|set_solver].
Qed.

Lemma wit_run k :
  processor k = None → finishes (run_tasks_turn k) = true →
  kernel_step wit_pf k (final k (run_tasks_turn k)).
Proof. intros Hp Hf. apply step_run; [exact Hp|by apply finishes_unit]. Qed.

Lemma wit_yield k :
  finishes (suspend_current k) = true → kernel_step wit_pf k (final k (suspend_current k)).
Proof. intros Hf. by apply step_yield, finishes_unit. Qed.

Lemma wit_exit k :
  finishes (exit_current 7 k) = true → kernel_step wit_pf k (final k (exit_current 7 k)).
Proof. intros Hf. by apply (step_exit _ 7), finishes_unit. Qed.

Lemma wit_fork k :
  ra_current (pid_allocator k) < 2 ^ 64 - 2 → finishes (sys_fork wit_pf 0 0 0 0 0 k) = true →
  kernel_step wit_pf k (final k (sys_fork wit_pf 0 0 0 0 0 k)).
Proof. intros Hp [r E]%finishes_any. by eapply step_fork. Qed.

Lemma wit_reach : rtc (kernel_step wit_pf) wit_k0 wit_k6.
Proof.
  apply (rtc_l _ _ wit_k1); [unfold wit_k1; apply wit_run; vm_compute; reflexivity|].
  apply (rtc_l _ _ wit_k2); [unfold wit_k2; apply wit_fork; vm_compute; reflexivity|].
  apply (rtc_l _ _ wit_k3); [unfold wit_k3; apply wit_yield; vm_compute; reflexivity|].
  apply (rtc_l _ _ wit_k4); [unfold wit_k4; apply wit_run; vm_compute; reflexivity|].
  apply (rtc_l _ _ wit_k5); [unfold wit_k5; apply wit_exit; vm_compute; reflexivity|].
  apply (rtc_l _ _ wit_k6); [unfold wit_k6; apply wit_run; vm_compute; reflexivity|].
  apply rtc_refl.
Qed.

Lemma kernel_refines_process_machine_witness :
  astep (view wit_k0) (view wit_k1) ∨ view wit_k1 = view wit_k0.
Proof.
  apply (kernel_refines_process_machine wit_pf wit_k0 wit_k1).
  - apply booted_kinv, wit_booted.
  - unfold wit_k1. apply wit_run; vm_compute; reflexivity.
Defined.

(** The exited child, task 1, is a zombie in the last state. *)
Lemma wit_zombie :
  ∃ tcb ctcb, tcbs wit_k6 !! 0%nat = Some tcb ∧ children tcb !! 0%nat = Some 1%nat ∧
    tcbs wit_k6 !! 1%nat = Some ctcb ∧ task_status ctcb = Zombie ∧ pid tcb = 1 ∧ pid ctcb = 2.
Proof.
  assert ((λ x, (children x !! 0%nat, pid x)) <$> tcbs wit_k6 !! 0%nat = Some (Some 1%nat, 1)) as H0
    by (vm_compute; reflexivity).
  assert ((λ x, (task_status x, pid x)) <$> tcbs wit_k6 !! 1%nat = Some (Zombie, 2)) as H1
    by (vm_compute; reflexivity).
  revert H0 H1. generalize wit_k6. intros k H0 H1.
  apply fmap_Some in H0 as (tcb & Ht & [= ??]). apply fmap_Some in H1 as (ctcb & Hc & [= ??]).
  exists tcb, ctcb. by split_and!.
Qed.

Lemma pids_unique_witness :
  ∃ tcb, tcbs wit_k6 !! 1%nat = Some tcb ∧ ∀ u ucb, tcbs wit_k6 !! u = Some ucb → pid ucb = 2 → u = 1%nat.
Proof.
  destruct wit_zombie as (tcb & ctcb & _ & _ & Hc & _ & _ & Hp). exists ctcb. split; [exact Hc|].
  intros u ucb Hu Eu. apply (pids_unique wit_pf wit_k0 wit_k6 u 1 ucb ctcb wit_booted wit_reach Hu Hc).
  rewrite Eu, Hp. reflexivity.
Defined.
