(* ===== verification/Scheduler.v ===== *)
(** * The stride scheduler (os/src/task/manager.rs [fetch], processor.rs
    [run_tasks], task.rs [update_stri], mod.rs [suspend_current_and_run_next])

    What [fetch] picks, and what follows for tasks that keep yielding: no task
    waits for ever, the shares are proportional to the priorities, and where
    this ends, at priorities above [BIGSTRIDE]. *)

From S2P Require Import Prelude Address PhysMem FrameAllocator PageTable UserBuffer MemorySet.
From S2P Require Import TaskId FdTable Trap Pipe Process.

(** ** The scan *)

Lemma scan_min_snoc ss x first :
  scan_min (ss ++ [x]) first =
  if x <=? (scan_min ss first).2 then (length ss, x) else scan_min ss first.
Proof.
  unfold scan_min. rewrite imap_app, foldl_app; simpl.
  rewrite Nat.add_0_r. by destruct (foldl _ _ (imap pair ss)) as [id m].
Qed.

(** [scan_min] gives the last of the least elements. *)
Lemma scan_min_spec ss first :
  hd_error ss = Some first →
  ∃ id m, scan_min ss first = (id, m) ∧ ss !! id = Some m ∧ (∀ j x, ss !! j = Some x → m ≤ x) ∧
    ∀ j, ss !! j = Some m → (j ≤ id)%nat.
Proof.
  induction ss as [|x ss IH] using rev_ind; [done|]. intros Hhd. rewrite scan_min_snoc.
  destruct ss as [|y ss]; simpl in Hhd.
  - injection Hhd as ->. simpl. rewrite Z.leb_refl. exists 0%nat, first.
    split_and!; [done|done| |].
    + intros [|j] z; simpl; [by intros [= ->]|done].
    + intros [|j]; simpl; [lia|done].
  - destruct (IH Hhd) as (id & m & -> & Hid & Hmin & Hlast).
    assert ((id < length (y :: ss))%nat) as Hlt by by eapply lookup_lt_Some.
    cbn [snd]. destruct (Z.leb_spec x m).
    + exists (length (y :: ss)), x. split_and!; [done|by apply list_lookup_middle| |].
      * intros j z [Hj|[_ Hj]]%lookup_app_Some; [apply Hmin in Hj; lia|].
        apply list_lookup_singleton_Some in Hj as [_ ->]. lia.
      * intros j Hj%lookup_lt_Some. rewrite length_app in Hj. simpl in *. lia.
    + exists id, m. split_and!; [done|by apply lookup_app_l_Some| |].
      * intros j z [Hj|[_ Hj]]%lookup_app_Some; [by eapply Hmin|].
        apply list_lookup_singleton_Some in Hj as [_ ->]. lia.
      * intros j [Hj|[_ Hj]]%lookup_app_Some; [by apply Hlast|].
        apply list_lookup_singleton_Some in Hj as [_ ->]. lia.
Qed.

(** ** One turn of the scheduler *)

Section sched.
Context {A : Type} `{FrameAllocator A}.
Implicit Types (k : kernel A) (t u : nat) (q : list nat) (S : gmap nat (Z * Z)).

(** What the scheduler reads of the tasks: stride and priority. *)
Definition strides k : gmap nat (Z * Z) := (λ tcb, (stride tcb, pri tcb)) <$> tcbs k.

Lemma strides_Some k t s p :
  strides k !! t = Some (s, p) ↔ ∃ tcb, tcbs k !! t = Some tcb ∧ stride tcb = s ∧ pri tcb = p.
Proof.
  unfold strides. rewrite lookup_fmap, fmap_Some. split.
  - intros (tcb & ? & [= -> ->]). eauto.
  - intros (tcb & ? & <- & <-). eauto.
Qed.

(** Every task of the queue has a block. *)
Definition queued q S : Prop := ∀ t, t ∈ q → ∃ s p, S !! t = Some (s, p).

(** [t], at [i], is the choice of [fetch]: the last one of least stride. *)
Definition chosen q S (i t : nat) (s p : Z) : Prop :=
  q !! i = Some t ∧ S !! t = Some (s, p) ∧
  (∀ u su pu, u ∈ q → S !! u = Some (su, pu) → s ≤ su) ∧
  ∀ j u pu, q !! j = Some u → S !! u = Some (s, pu) → (j ≤ i)%nat.

Lemma get_strides k q acc :
  queued q (strides k) →
  ∃ ss, for_fold q acc (λ acc t, tcb ← get_tcb t; mret (acc ++ [stride tcb])) k = Done (acc ++ ss, k) ∧
    Forall2 (λ t s, ∃ p, strides k !! t = Some (s, p)) q ss.
Proof.
  revert acc. induction q as [|t q IH]; intros acc Hq.
  { exists []. rewrite app_nil_r. by split; [|constructor]. }
  destruct (Hq t) as (s & p & Ht); [by left|].
  destruct (proj1 (strides_Some _ _ _ _) Ht) as (tcb & Htcb & <- & <-).
  destruct (IH (acc ++ [stride tcb])) as (ss & Hss & HF).
  { intros u Hu. apply Hq. by right. }
  exists (stride tcb :: ss). split; [|constructor; eauto].
  cbn [for_fold]. erewrite bind_step; [|].
  2:{ erewrite bind_step; [reflexivity|]. unfold get_tcb. erewrite bind_step; [|reflexivity].
      rewrite Htcb. reflexivity. }
  rewrite Hss, <- app_assoc. reflexivity.
Qed.

(** [fetch] on a queue of tasks. *)
Lemma fetch_ok k :
  ready_queue k ≠ [] → queued (ready_queue k) (strides k) →
  ∃ i t s p, chosen (ready_queue k) (strides k) i t s p ∧
    fetch k = Done (Some t, set_queue (delete i (ready_queue k)) k).
Proof.
  intros Hne Hq. destruct (ready_queue k) as [|t0 q] eqn:Eq; [done|].
  destruct (Hq t0) as (s0 & p0 & Ht0); [by left|].
  destruct (proj1 (strides_Some _ _ _ _) Ht0) as (tcb & Htcb & <- & <-).
  destruct (get_strides k (t0 :: q) [] Hq) as (ss & Hss & HF).
  assert (hd_error ss = Some (stride tcb)) as Hhd.
  { destruct ss as [|s1 ss]; [by apply Forall2_cons_nil_inv in HF|].
    apply Forall2_cons in HF as [[p Hp] _]. simpl in *. rewrite Hp in Ht0. by injection Ht0 as -> ->. }
  destruct (scan_min_spec _ _ Hhd) as (id & m & Es & Hid & Hmin & Hlast).
  destruct (Forall2_lookup_r _ _ _ _ _ HF Hid) as (t & Ht & p & Hp).
  exists id, t, m, p. split.
  - split_and!; [done|done| |].
    + intros u su pu [j Hj]%list_elem_of_lookup Hu.
      destruct (Forall2_lookup_l _ _ _ _ _ HF Hj) as (x & Hx & px & Hpx).
      rewrite Hpx in Hu. injection Hu as -> ->. by eapply Hmin.
    + intros j u pu Hj Hu. destruct (Forall2_lookup_l _ _ _ _ _ HF Hj) as (x & Hx & px & Hpx).
      rewrite Hpx in Hu. injection Hu as -> ->. by apply Hlast.
  - unfold fetch. erewrite bind_step; [|reflexivity]. rewrite Eq. cbn [lookup list_lookup].
    erewrite bind_step; [|reflexivity].
    erewrite bind_step; [|unfold get_tcb; erewrite bind_step; [rewrite Htcb; reflexivity|reflexivity]].
    erewrite bind_step; [|exact Hss]. cbn [app]. rewrite Es.
    erewrite bind_step; [|reflexivity]. rewrite <- Ht. reflexivity.
Qed.

(** The empty queue is not handled: [get(0).unwrap()]. *)
Lemma fetch_empty k : ready_queue k = [] → fetch k = Panic.
Proof. intros Hq. unfold fetch, mbind, st_bind; simpl. by rewrite Hq. Qed.

Lemma update_tcb_run k t tcb f :
  tcbs k !! t = Some tcb → update_tcb t f k = Done (tt, set_tcbs (<[t := f tcb]> (tcbs k)) k).
Proof.
  intros Ht. unfold update_tcb. erewrite bind_step; [|unfold get_tcb; erewrite bind_step; [rewrite Ht; reflexivity|reflexivity]].
  reflexivity.
Qed.

(** The pass of a priority: what a turn adds to the stride. *)
Definition pass (p : Z) : Z := BIGSTRIDE ÷ p.

Lemma next_stride_ok s p :
  p ≠ 0 → - 2 ^ 63 ≤ s + pass p < 2 ^ 63 → next_stride s p = Some (s + pass p).
Proof.
  intros Hp Hr. unfold next_stride. destruct (Z.eqb_spec p 0); [done|].
  fold (pass p). by rewrite to_signed_small by (simpl in *; lia).
Qed.

Lemma pass_bounds p : 2 ≤ p → 0 ≤ pass p ≤ 1275.
Proof.
  intros Hp. unfold pass, BIGSTRIDE. rewrite Z.quot_div_nonneg by lia. split; [apply Z.div_pos; lia|].
  apply Z.div_le_upper_bound; lia.
Qed.

Lemma pass_pos p : 2 ≤ p ≤ BIGSTRIDE → 1 ≤ pass p.
Proof.
  intros Hp. unfold pass. rewrite Z.quot_div_nonneg by (unfold BIGSTRIDE in *; lia).
  apply Z.div_le_lower_bound; lia.
Qed.

Lemma strides_insert k t tcb k' :
  tcbs k' = <[t := tcb]> (tcbs k) → strides k' = <[t := (stride tcb, pri tcb)]> (strides k).
Proof. intros E. unfold strides. by rewrite E, fmap_insert. Qed.

Lemma update_stri_run k t tcb s :
  tcbs k !! t = Some tcb → next_stride (stride tcb) (pri tcb) = Some s →
  update_stri t k = Done (tt, set_tcbs (<[t := set_stride s tcb]> (tcbs k)) k).
Proof.
  intros Ht Hs. unfold update_stri.
  erewrite bind_step; [|unfold get_tcb; erewrite bind_step; [rewrite Ht; reflexivity|reflexivity]].
  rewrite Hs. erewrite bind_step; [|reflexivity]. by apply update_tcb_run.
Qed.

(** One turn of the idle loop runs the choice of [fetch] and charges its
    stride. *)
Lemma run_turn_ok k :
  ready_queue k ≠ [] → queued (ready_queue k) (strides k) →
  ∃ i t s p, chosen (ready_queue k) (strides k) i t s p ∧
    (p ≠ 0 → - 2 ^ 63 ≤ s + pass p < 2 ^ 63 →
     ∃ k', run_tasks_turn k = Done (tt, k') ∧ ready_queue k' = delete i (ready_queue k) ∧
       processor k' = Some t ∧ strides k' = <[t := (s + pass p, p)]> (strides k)).
Proof.
  intros Hne Hq. destruct (fetch_ok k Hne Hq) as (i & t & s & p & Hc & Hf).
  exists i, t, s, p. split; [done|]. intros Hp Hr.
  destruct Hc as (_ & Hs & _). apply strides_Some in Hs as (tcb & Ht & <- & <-).
  unfold run_tasks_turn. rewrite (bind_step _ _ _ _ _ Hf).
  erewrite bind_step; [|by apply update_tcb_run].
  erewrite bind_step; [|reflexivity].
  erewrite bind_step; [|apply update_tcb_run; simpl; apply lookup_insert_eq].
  erewrite bind_step; [|apply update_stri_run; [simpl; apply lookup_insert_eq|by apply next_stride_ok]].
  eexists. split; [reflexivity|]. split_and!; [done|done|].
  erewrite strides_insert; [|simpl; rewrite !insert_insert_eq; reflexivity]. done.
Qed.

(** Yielding puts the running task at the end of the queue. *)
Lemma suspend_ok k t s p :
  processor k = Some t → strides k !! t = Some (s, p) →
  ∃ k', suspend_current k = Done (tt, k') ∧ ready_queue k' = ready_queue k ++ [t] ∧
    processor k' = None ∧ strides k' = strides k.
Proof.
  intros Hp (tcb & Ht & <- & <-)%strides_Some. unfold suspend_current.
  erewrite bind_step; [|unfold take_current_task; erewrite bind_step; [erewrite bind_step; reflexivity|reflexivity]].
  rewrite Hp. erewrite bind_step; [|reflexivity].
  erewrite bind_step; [|by apply update_tcb_run].
  erewrite bind_step; [|reflexivity].
  erewrite bind_step; [|apply update_tcb_run; simpl; apply lookup_insert_eq].
  eexists. split; [reflexivity|]. split_and!; [done|done|].
  erewrite (strides_insert k); [|simpl; rewrite insert_insert_eq; reflexivity].
  apply insert_id, strides_Some. simpl. eauto.
Qed.

(** ** Rounds

    A round runs the chosen task until it yields. Meanwhile the task may do
    anything that leaves the queue, the strides and the priorities alone. *)
Definition round k t k' : Prop :=
  ∃ k1 k2, run_tasks_turn k = Done (tt, k1) ∧ processor k1 = Some t ∧
    ready_queue k2 = ready_queue k1 ∧ processor k2 = processor k1 ∧ strides k2 = strides k1 ∧
    suspend_current k2 = Done (tt, k').

Inductive rounds : kernel A → list nat → kernel A → Prop :=
| rounds_nil k : rounds k [] k
| rounds_cons k t k1 picks k2 : round k t k1 → rounds k1 picks k2 → rounds k (t :: picks) k2.

(** The tasks of a queue have blocks, with priorities that [sys_set_priority]
    accepts, up to [hi], and strides that did not wrap. *)
Definition good (hi : Z) q S : Prop :=
  NoDup q ∧ ∀ t, t ∈ q → ∃ s p, S !! t = Some (s, p) ∧ 2 ≤ p ≤ hi ∧ 0 ≤ s.

(** Some task of the queue is a pass away from the largest [isize]. *)
Definition room q S : Prop := ∃ u su pu, u ∈ q ∧ S !! u = Some (su, pu) ∧ su + 1275 < 2 ^ 63.

(** What a round does. *)
Definition round_effect k t k' : Prop :=
  ∃ i s p, chosen (ready_queue k) (strides k) i t s p ∧
    ready_queue k' = delete i (ready_queue k) ++ [t] ∧ processor k' = None ∧
    strides k' = <[t := (s + pass p, p)]> (strides k).

Lemma good_queued hi q S : good hi q S → queued q S.
Proof. intros [_ Hg] t (s & p & Ht & _)%Hg. eauto. Qed.

Lemma turn_effect hi k :
  good hi (ready_queue k) (strides k) → room (ready_queue k) (strides k) →
  ∃ i t s p k', chosen (ready_queue k) (strides k) i t s p ∧
    run_tasks_turn k = Done (tt, k') ∧ ready_queue k' = delete i (ready_queue k) ∧
    processor k' = Some t ∧ strides k' = <[t := (s + pass p, p)]> (strides k).
Proof.
  intros Hg (u & su & pu & Hu & Hsu & Hb).
  assert (ready_queue k ≠ []) as Hne by (intros E; rewrite E in Hu; by apply not_elem_of_nil in Hu).
  destruct (run_turn_ok k Hne (good_queued _ _ _ Hg)) as (i & t & s & p & Hc & Hrun).
  exists i, t, s, p. pose proof Hc as (Hi & Ht & Hmin & _).
  destruct (proj2 Hg t) as (s' & p' & Ht' & Hp & Hs); [by eapply list_elem_of_lookup_2|].
  rewrite Ht in Ht'. injection Ht' as <- <-. specialize (Hmin _ _ _ Hu Hsu).
  pose proof (pass_bounds p ltac:(lia)). destruct Hrun as (k' & ? & ? & ? & ?); [lia|lia|]. eauto 10.
Qed.

Lemma round_effect_ok hi k t k' :
  good hi (ready_queue k) (strides k) → room (ready_queue k) (strides k) →
  round k t k' → round_effect k t k'.
Proof.
  intros Hg Hr (k1 & k2 & Hrun & Hp1 & Eq & Ep & Es & Hsus).
  destruct (turn_effect _ _ Hg Hr) as (i & u & s & p & k1' & Hc & Hrun' & Hq' & Hp' & Hs').
  rewrite Hrun in Hrun'. injection Hrun' as <-. rewrite Hp1 in Hp'. injection Hp' as <-.
  destruct (suspend_ok k2 t (s + pass p) p) as (k3 & Hsus' & Hq3 & Hp3 & Hs3).
  { by rewrite Ep. } { by rewrite Es, Hs', lookup_insert_eq. }
  rewrite Hsus in Hsus'. injection Hsus' as <-.
  exists i, s, p. rewrite Hq3, Eq, Hq', Hs3, Es, Hs'. done.
Qed.

(** A round is always possible. *)
Lemma round_exists hi k :
  good hi (ready_queue k) (strides k) → room (ready_queue k) (strides k) → ∃ t k', round k t k'.
Proof.
  intros Hg Hr. destruct (turn_effect _ _ Hg Hr) as (i & u & s & p & k1 & Hc & Hrun & Hq & Hp & Hs).
  destruct (suspend_ok k1 u (s + pass p) p Hp) as (k2 & Hsus & _).
  { by rewrite Hs, lookup_insert_eq. }
  exists u, k2, k1, k1. done.
Qed.

Lemma chosen_split q S i t s p :
  chosen q S i t s p → ∃ l1 l2, q = l1 ++ t :: l2 ∧ delete i q = l1 ++ l2.
Proof.
  intros [Hi _]. exists (take i q), (drop (Datatypes.S i) q).
  split; [symmetry; by apply take_drop_middle|by rewrite delete_take_drop].
Qed.

Lemma round_perm k t k' : round_effect k t k' → ready_queue k' ≡ₚ ready_queue k.
Proof.
  intros (i & s & p & Hc & Eq & _). destruct (chosen_split _ _ _ _ _ _ Hc) as (l1 & l2 & E1 & E2).
  rewrite Eq, E1, <- E1, E2, E1. rewrite <- app_assoc. solve_Permutation.
Qed.

(** A round changes the stride of the task it runs. *)
Lemma round_lookup k t k' u su pu :
  round_effect k t k' → strides k !! u = Some (su, pu) →
  strides k' !! u = Some (if decide (u = t) then su + pass pu else su, pu).
Proof.
  intros (i & s & p & (_ & Ht & _) & _ & _ & ->) Hu. destruct (decide (u = t)) as [->|Hne].
  - rewrite lookup_insert_eq. rewrite Ht in Hu. by injection Hu as -> ->.
  - by rewrite lookup_insert_ne by done.
Qed.

Lemma round_least k t k' s p u su pu :
  round_effect k t k' → strides k !! t = Some (s, p) →
  u ∈ ready_queue k → strides k !! u = Some (su, pu) → s ≤ su.
Proof.
  intros (i & s' & p' & (_ & Ht & Hmin & _) & _) Hs. rewrite Hs in Ht. injection Ht as <- <-. apply Hmin.
Qed.

Lemma round_good hi k t k' :
  round_effect k t k' → good hi (ready_queue k) (strides k) → good hi (ready_queue k') (strides k').
Proof.
  intros He [Hnd Hg]. pose proof (round_perm _ _ _ He) as Hperm. split; [by rewrite Hperm|].
  intros u Hu. rewrite Hperm in Hu. destruct (Hg u Hu) as (su & pu & Hsu & Hpu & Hs).
  exists (if decide (u = t) then su + pass pu else su), pu. split; [by eapply round_lookup|].
  pose proof (pass_bounds pu ltac:(lia)). destruct (decide (u = t)); lia.
Qed.

(** ** Waiting

    While [t] waits, each turn of another task [u] brings the stride of [u]
    nearer to that of [t]; the turns [u] can take before [t] are bounded by
    the distance. *)
Definition ahead S (s : Z) (u : nat) : nat :=
  match S !! u with Some (su, _) => Z.to_nat (s - su + 1) | None => 0 end.
Definition wait_bound q S (s : Z) : nat := sum_list_with (ahead S s) q.

Lemma ahead_other S s u t x : u ≠ t → ahead (<[t := x]> S) s u = ahead S s u.
Proof. intros Hne. unfold ahead. by rewrite lookup_insert_ne by done. Qed.

Lemma wait_bound_other q S s t x : t ∉ q → wait_bound q (<[t := x]> S) s = wait_bound q S s.
Proof.
  unfold wait_bound. induction q as [|u q IH]; intros Ht; [done|]. simpl.
  apply not_elem_of_cons in Ht as [Hne Ht]. by rewrite ahead_other, IH by done.
Qed.

Lemma wait_bound_round hi k t k' u su pu :
  round_effect k u k' → good hi (ready_queue k) (strides k) → hi ≤ BIGSTRIDE →
  t ∈ ready_queue k → strides k !! t = Some (su, pu) → t ≠ u →
  (wait_bound (ready_queue k') (strides k') su < wait_bound (ready_queue k) (strides k) su)%nat.
Proof.
  intros He [Hnd Hg] Hhi Ht Hst Hne. pose proof He as (i & s & p & Hc & Eq & _ & Es).
  destruct (chosen_split _ _ _ _ _ _ Hc) as (l1 & l2 & E1 & E2).
  pose proof Hc as (Hi & Hu & Hmin & _). specialize (Hmin _ _ _ Ht Hst).
  destruct (Hg u) as (s' & p' & Hu' & Hp & Hs); [by eapply list_elem_of_lookup_2|].
  rewrite Hu in Hu'. injection Hu' as <- <-.
  rewrite Eq, Es, E2, E1. rewrite E1 in Hnd.
  apply NoDup_app in Hnd as (_ & Hnot & [Hnot2 _]%NoDup_cons).
  assert (u ∉ l1 ++ l2) as Hni.
  { intros [Hin|Hin]%elem_of_app; [|done]. apply (Hnot u Hin). by left. }
  unfold wait_bound at 1. rewrite sum_list_with_app. fold (wait_bound (l1 ++ l2) (<[u := (s + pass p, p)]> (strides k)) su).
  rewrite wait_bound_other by done. unfold wait_bound. rewrite !sum_list_with_app. simpl.
  assert (ahead (<[u := (s + pass p, p)]> (strides k)) su u = Z.to_nat (su - (s + pass p) + 1)) as ->
    by (unfold ahead; by rewrite lookup_insert_eq).
  assert (ahead (strides k) su u = Z.to_nat (su - s + 1)) as -> by (unfold ahead; by rewrite Hu).
  pose proof (pass_pos p ltac:(lia)). lia.
Qed.

(** ** Shares *)

Definition turns t (picks : list nat) : Z := Z.of_nat (length (filter (λ x, x = t) picks)).

Lemma turns_cons t u picks : turns t (u :: picks) = (if decide (t = u) then 1 else 0) + turns t picks.
Proof.
  unfold turns. rewrite filter_cons. destruct (decide (u = t)), (decide (t = u)); simpl; subst; lia || done.
Qed.

(** The strides of the queue are within a pass of each other, with room for
    [n] more turns. *)
Definition level (n : nat) q S : Prop :=
  ∀ t u s p su pu, t ∈ q → u ∈ q → S !! t = Some (s, p) → S !! u = Some (su, pu) →
    su ≤ s + 1275 ∧ s + 1275 * (Z.of_nat n + 1) < 2 ^ 63.

Lemma level_room n q S hi : good hi q S → level n q S → q ≠ [] → room q S.
Proof.
  intros [_ Hg] Hl Hne. destruct q as [|t q]; [done|].
  destruct (Hg t) as (s & p & Ht & _); [by left|]. exists t, s, p. split_and!; [by left|done|].
  destruct (Hl t t s p s p); [by left..|done|done|]. lia.
Qed.

Lemma level_round hi n k t k' :
  round_effect k t k' → good hi (ready_queue k) (strides k) →
  level (Datatypes.S n) (ready_queue k) (strides k) → level n (ready_queue k') (strides k').
Proof.
  intros He [Hnd Hg] Hl u v s p sv pv Hu Hv Hsu Hsv. pose proof (round_perm _ _ _ He) as Hperm.
  rewrite Hperm in Hu, Hv.
  destruct (Hg u Hu) as (s0 & p0 & Hu0 & Hp0 & _), (Hg v Hv) as (s1 & p1 & Hv1 & Hp1 & _).
  assert (t ∈ ready_queue k) as Ht.
  { destruct He as (i & ? & ? & (Hi & _) & _). by eapply list_elem_of_lookup_2. }
  destruct (Hg t Ht) as (s2 & p2 & Ht2 & Hp2 & _).
  rewrite (round_lookup _ _ _ _ _ _ He Hu0) in Hsu. injection Hsu as <- <-.
  rewrite (round_lookup _ _ _ _ _ _ He Hv1) in Hsv. injection Hsv as <- <-.
  pose proof (round_least _ _ _ _ _ _ _ _ He Ht2 Hu Hu0). pose proof (round_least _ _ _ _ _ _ _ _ He Ht2 Hv Hv1).
  pose proof (Hl _ _ _ _ _ _ Hu Hv Hu0 Hv1). pose proof (Hl _ _ _ _ _ _ Ht Hv Ht2 Hv1).
  pose proof (pass_bounds p0 ltac:(lia)). pose proof (pass_bounds p1 ltac:(lia)).
  destruct (decide (u = t)) as [->|], (decide (v = t)) as [->|]; simplify_eq; lia.
Qed.

(** ** A task that is never charged *)

Lemma pass_zero p : BIGSTRIDE < p → pass p = 0.
Proof. intros Hp. apply Z.quot_small. unfold BIGSTRIDE in *. lia. Qed.

(** [t] is at the end of the queue and has the least stride. *)
Definition last_least k t s p : Prop :=
  good (2 ^ 63 - 1) (ready_queue k) (strides k) ∧ last (ready_queue k) = Some t ∧
  strides k !! t = Some (s, p) ∧ s + 1275 < 2 ^ 63 ∧
  ∀ u su pu, u ∈ ready_queue k → strides k !! u = Some (su, pu) → s ≤ su.

Lemma round_last_least k t k' s p :
  good (2 ^ 63 - 1) (ready_queue k) (strides k) → round_effect k t k' →
  strides k !! t = Some (s, p) → BIGSTRIDE < p → s + 1275 < 2 ^ 63 → last_least k' t s p.
Proof.
  intros Hg He Hs Hp Hb. pose proof (round_lookup _ _ _ _ _ _ He Hs) as Hs'.
  rewrite decide_True, pass_zero, Z.add_0_r in Hs' by done.
  split_and!; [by eapply round_good| |done|done|].
  - destruct He as (i & ? & ? & _ & -> & _). by rewrite last_snoc.
  - intros u su pu Hu Hsu. rewrite (round_perm _ _ _ He) in Hu.
    destruct (proj2 Hg u Hu) as (s0 & p0 & Hu0 & Hp0 & _).
    pose proof (round_least _ _ _ _ _ _ _ _ He Hs Hu Hu0).
    rewrite (round_lookup _ _ _ _ _ _ He Hu0) in Hsu. injection Hsu as <- <-.
    pose proof (pass_bounds p0 ltac:(lia)). destruct (decide (u = t)); lia.
Qed.

Lemma last_least_room k t s p : last_least k t s p → room (ready_queue k) (strides k).
Proof. intros (_ & Hl & Hs & Hb & _). exists t, s, p. split_and!; [by apply last_Some_elem_of|done|done]. Qed.

Lemma last_least_round k t s p u k' : last_least k t s p → round_effect k u k' → u = t.
Proof.
  intros (_ & Hl & Hs & _ & Hmin) (i & su & pu & (Hi & Hu & Hle & Hlast) & _).
  rewrite last_lookup in Hl.
  assert (t ∈ ready_queue k) as Ht by by eapply list_elem_of_lookup_2.
  pose proof (Hle _ _ _ Ht Hs). pose proof (Hmin u su pu ltac:(by eapply list_elem_of_lookup_2) Hu).
  assert (su = s) as -> by lia. specialize (Hlast _ _ _ Hl Hs).
  pose proof (lookup_lt_Some _ _ _ Hi). assert (i = pred (length (ready_queue k))) as -> by lia.
  rewrite Hl in Hi. by injection Hi.
Qed.

(** ** Properties *)

(** [fetch] on a non-empty queue takes out the task with the least stride,
    the last one among equals, and keeps the order of the others; on an empty
    queue it panics, so the [None] branch of [run_tasks] is never taken. *)
Theorem fetch_least_stride k :
  queued (ready_queue k) (strides k) →
  (ready_queue k = [] ∧ fetch k = Panic) ∨
  ∃ i t s p l1 l2, chosen (ready_queue k) (strides k) i t s p ∧
    ready_queue k = l1 ++ t :: l2 ∧ fetch k = Done (Some t, set_queue (l1 ++ l2) k).
Proof.
  intros Hq. destruct (decide (ready_queue k = [])) as [E|Hne]; [left; split; [done|by apply fetch_empty]|].
  right. destruct (fetch_ok k Hne Hq) as (i & t & s & p & Hc & Hf).
  destruct (chosen_split _ _ _ _ _ _ Hc) as (l1 & l2 & E1 & E2). rewrite E2 in Hf. eauto 10.
Qed.

(** C21. No task starves while the tasks keep yielding and no task is added: a
    task of the queue is run within [wait_bound] rounds, and until then a next
    round is always possible. Priorities are between 2 and [BIGSTRIDE]. *)
Theorem stride_no_starvation k t s p picks k' :
  good BIGSTRIDE (ready_queue k) (strides k) → t ∈ ready_queue k →
  strides k !! t = Some (s, p) → s + 1275 < 2 ^ 63 →
  rounds k picks k' → t ∉ picks →
  (length picks < wait_bound (ready_queue k) (strides k) s)%nat ∧ ∃ u k'', round k' u k''.
Proof.
  intros Hg Ht Hs Hb Hr. revert Hg Ht Hs. induction Hr as [k|k u k1 picks k2 Hu Hr IH]; intros Hg Ht Hs Hnot.
  - split; [|by eapply round_exists; [|exists t, s, p]].
    unfold wait_bound. apply list_elem_of_split in Ht as (l1 & l2 & ->).
    rewrite sum_list_with_app. simpl. unfold ahead at 2. rewrite Hs. simpl. lia.
  - apply not_elem_of_cons in Hnot as [Hne Hnot].
    assert (round_effect k u k1) as He by (eapply round_effect_ok; [done|by exists t, s, p|done]).
    pose proof (round_lookup _ _ _ _ _ _ He Hs) as Hs1. rewrite decide_False in Hs1 by done.
    destruct IH as [IH Hex]; [by eapply round_good|by rewrite (round_perm _ _ _ He)|done|done|].
    split; [|done]. pose proof (wait_bound_round _ _ _ _ _ _ _ He Hg (Z.le_refl _) Ht Hs Hne). simpl. lia.
Qed.

(** C31. The turns are proportional: over any number of rounds from strides
    within one pass of each other, the turns of two tasks, weighted with their
    passes, differ by at most two passes of the lowest priority. *)
Theorem stride_proportional_share k picks k' t u s p su pu :
  good BIGSTRIDE (ready_queue k) (strides k) → level (length picks) (ready_queue k) (strides k) →
  t ∈ ready_queue k → u ∈ ready_queue k →
  strides k !! t = Some (s, p) → strides k !! u = Some (su, pu) →
  rounds k picks k' →
  turns t picks * pass p ≤ turns u picks * pass pu + 2550.
Proof.
  intros Hg Hl Ht Hu Hs Hsu Hr.
  assert (∃ s' su', strides k' !! t = Some (s', p) ∧ strides k' !! u = Some (su', pu) ∧
    s' = s + turns t picks * pass p ∧ su' = su + turns u picks * pass pu ∧ s' ≤ su' + 1275)
    as (s' & su' & _ & _ & E1 & E2 & Hle).
  { revert s su Hg Hl Ht Hu Hs Hsu. induction Hr as [k|k v k1 picks k2 Hv Hr IH]; intros s su Hg Hl Ht Hu Hs Hsu.
    - exists s, su. destruct (Hl _ _ _ _ _ _ Hu Ht Hsu Hs). unfold turns; simpl. split_and!; lia || done.
    - assert (round_effect k v k1) as He.
      { eapply round_effect_ok; [done|eapply level_room; [done..|]|done]. by intros E; rewrite E in Ht; apply not_elem_of_nil in Ht. }
      edestruct IH as (s' & su' & H1 & H2 & E1 & E2 & Hle);
        [by eapply round_good|by eapply level_round|by rewrite (round_perm _ _ _ He)..|by eapply round_lookup|by eapply round_lookup|].
      exists s', su'. split_and!; [done|done| | |done]; rewrite turns_cons.
      + destruct (decide (t = v)); lia.
      + destruct (decide (u = v)); lia. }
  destruct (Hl _ _ _ _ _ _ Ht Hu Hs Hsu). lia.
Qed.

(** A priority above [BIGSTRIDE], which [sys_set_priority] accepts, has
    pass 0: once such a task is run, it is run in every later round, and all
    other tasks starve for as long as it only yields. *)
Theorem zero_pass_monopoly k t k1 s p picks k2 :
  good (2 ^ 63 - 1) (ready_queue k) (strides k) → room (ready_queue k) (strides k) →
  strides k !! t = Some (s, p) → BIGSTRIDE < p →
  round k t k1 → rounds k1 picks k2 → Forall (λ u, u = t) picks.
Proof.
  intros Hg Hroom Hs Hp Hr Hrs.
  assert (round_effect k t k1) as He by by eapply round_effect_ok.
  assert (s + 1275 < 2 ^ 63) as Hb.
  { destruct Hroom as (u & su & pu & Hu & Hsu & Hb). pose proof (round_least _ _ _ _ _ _ _ _ He Hs Hu Hsu). lia. }
  pose proof (round_last_least _ _ _ _ _ Hg He Hs Hp Hb) as Hll. clear k Hg Hroom Hs Hr He.
  induction Hrs as [k|k u k1 picks k2 Hu Hrs IH]; constructor.
  - eapply last_least_round; [done|]. eapply round_effect_ok; [apply Hll|by eapply last_least_room|done].
  - assert (round_effect k u k1) as He by (eapply round_effect_ok; [apply Hll|by eapply last_least_room|done]).
    pose proof (last_least_round _ _ _ _ _ _ Hll He) as ->. apply IH.
    destruct Hll as (Hg & _ & Hs & _). by eapply round_last_least.
Qed.

End sched.

(** ** Witnesses

    Three tasks with strides 0, 5 and 0; in [wit_greedy] the first one has
    priority 3000. *)

Definition wit_tcb (s p : Z) : TaskControlBlock :=
  mkTCB 1 0 0 0 0 TaskContext_zero_init Ready (mkMemorySet (mkPageTable 0 []) []) None [] 0 [] 0 0
    (TaskInfo_new 0) s p [].
Definition wit_tasks (p0 : Z) : kernel StackFrameAllocator :=
  mkKernel (mkMM (mkStackFA 0 0 []) ∅) (mkMemorySet (mkPageTable 0 []) []) RecycleAllocator_new
    RecycleAllocator_new {[0%nat := wit_tcb 0 p0; 1%nat := wit_tcb 5 16; 2%nat := wit_tcb 0 5]}
    [2%nat; 1%nat; 0%nat] None 0.
Definition wit_round (k : kernel StackFrameAllocator) : kernel StackFrameAllocator :=
  let k1 := final k (run_tasks_turn k) in final k1 (suspend_current k1).

Lemma wit_round_ok (k : kernel StackFrameAllocator) t :
  finishes (run_tasks_turn k) = true → processor (final k (run_tasks_turn k)) = Some t →
  finishes (suspend_current (final k (run_tasks_turn k))) = true → round k t (wit_round k).
Proof.
  intros H1 Hp H2. exists (final k (run_tasks_turn k)), (final k (run_tasks_turn k)).
  split_and!; [by apply finishes_unit|done|done|done|done|by apply finishes_unit].
Qed.

Lemma wit_good hi p0 :
  2 ≤ p0 ≤ hi → 16 ≤ hi → good hi (ready_queue (wit_tasks p0)) (strides (wit_tasks p0)).
Proof.
  intros Hp Hhi. split; [by apply (bool_decide_unpack _)|].
  intros t Ht. repeat (apply elem_of_cons in Ht as [->|Ht]).
  - exists 0, 5. split; [reflexivity|lia].
  - exists 5, 16. split; [reflexivity|lia].
  - exists 0, p0. split; [reflexivity|lia].
  - by apply not_elem_of_nil in Ht.
Qed.

Lemma fetch_least_stride_witness :
  ∃ i t s p, chosen (ready_queue (wit_tasks 16)) (strides (wit_tasks 16)) i t s p.
Proof.
  destruct (fetch_least_stride (wit_tasks 16)) as [[E _]|(i & t & s & p & _ & _ & Hc & _)].
  - apply (good_queued 16), wit_good; lia.
  - discriminate E.
  - exists i, t, s, p. exact Hc.
Defined.

Lemma stride_no_starvation_witness :
  (1 < wait_bound (ready_queue (wit_tasks 16)) (strides (wit_tasks 16)) 5)%nat.
Proof.
  apply (stride_no_starvation (wit_tasks 16) 1 5 16 [0%nat] (wit_round (wit_tasks 16))).
  - apply wit_good; unfold BIGSTRIDE; lia.
  - right. left.
  - reflexivity.
  - lia.
  - eapply rounds_cons; [apply wit_round_ok; vm_compute; reflexivity|apply rounds_nil].
  - apply (bool_decide_unpack _). exact I.
Defined.

Lemma stride_proportional_share_witness :
  turns 0 [0%nat; 2%nat] * pass 16 ≤ turns 1 [0%nat; 2%nat] * pass 16 + 2550.
Proof.
  apply (stride_proportional_share (wit_tasks 16) [0%nat; 2%nat]
           (wit_round (wit_round (wit_tasks 16))) 0 1 0 16 5 16).
  - apply wit_good; unfold BIGSTRIDE; lia.
  - assert (∀ t s p, t ∈ ready_queue (wit_tasks 16) → strides (wit_tasks 16) !! t = Some (s, p) → 0 ≤ s ≤ 5) as Hs.
    { intros t s p Ht Hs. repeat (apply elem_of_cons in Ht as [->|Ht]); [vm_compute in Hs; injection Hs as <- <-; lia..|].
      by apply not_elem_of_nil in Ht. }
    intros t u s p su pu Ht Hu Hst Hsu. apply Hs in Hst, Hsu; [|assumption..]. simpl length. lia.
  - right. right. left.
  - right. left.
  - reflexivity.
  - reflexivity.
  - eapply rounds_cons; [apply wit_round_ok; vm_compute; reflexivity|].
    eapply rounds_cons; [apply wit_round_ok; vm_compute; reflexivity|apply rounds_nil].
Defined.

Lemma zero_pass_monopoly_witness :
  rounds (wit_round (wit_tasks 3000)) [0%nat; 0%nat] (wit_round (wit_round (wit_round (wit_tasks 3000)))) ∧
  Forall (λ u, u = 0%nat) [0%nat; 0%nat].
Proof.
  assert (rounds (wit_round (wit_tasks 3000)) [0%nat; 0%nat]
            (wit_round (wit_round (wit_round (wit_tasks 3000))))) as Hr.
  { eapply rounds_cons; [apply wit_round_ok; vm_compute; reflexivity|].
    eapply rounds_cons; [apply wit_round_ok; vm_compute; reflexivity|apply rounds_nil]. }
  split; [exact Hr|].
  apply (zero_pass_monopoly (wit_tasks 3000) 0 (wit_round (wit_tasks 3000)) 0 3000 _
           (wit_round (wit_round (wit_round (wit_tasks 3000))))).
  - apply wit_good; lia.
  - exists 0%nat, 0, 3000. split; [right; right; left|split; [reflexivity|lia]].
  - reflexivity.
  - unfold BIGSTRIDE. lia.
  - apply wit_round_ok; vm_compute; reflexivity.
  - exact Hr.
Defined.
