(* ===== verification/UserMap.v ===== *)
(** * Mapping system calls (os/src/syscall/process.rs [sys_mmap], [sys_munmap];
    task.rs [change_program_brk])

    The page loops of the two calls, on the page table of the running task.
    What [sys_mmap] reads of the file is in Syscall.v. *)

From S2P Require Import Prelude Address PhysMem FrameAllocator PageTable UserBuffer MemorySet.
From S2P Require Import TaskId FdTable Trap Pipe Process.

Section ops.
Context {A : Type} `{FrameAllocator A}.

Abbreviation K := (ST (kernel A)).

(** [processor::map_one] and [unmap_one]. *)
Definition current_map_one (vpn ppn flags : Z) : K Z := t ← current_task; task_map t vpn ppn flags.
Definition current_unmap_one (vpn : Z) : K Z := t ← current_task; task_unmap t vpn.

(** [PageTable::from_token(token).translate(vpn)]. *)
Definition translate_token (tok vpn : Z) : K (option Z) :=
  k ← st_get; mret (translate (mem (k_mm k)) (from_token tok) vpn).

(** [(_port as u8) << 5 >> 4] as page flags, with [U]. *)
Definition mmap_flags (port : Z) : option Z :=
  bits ← PTEFlags_from_bits (Z.shiftr (wshl 8 (wrap 8 port) 5) 4);
  Some (Z.lor PTE_U bits).

(** The body of the loop of [sys_mmap]. The frame is a local: it is given back
    at the end of the body, on either path. *)
Definition mmap_page (tok flag : Z) (_ : unit) (vpn : Z) : K (unit + Z) :=
  o ← on_mm frame_alloc;
  frame ← unwrap o;
  result ← translate_token tok vpn;
  match result with
  | Some pey =>
      if negb (is_valid pey) then
        current_map_one vpn frame flag;; on_mm (frame_dealloc frame);; mret (inl tt)
      else on_mm (frame_dealloc frame);; mret (inr (-1))
  | None => current_map_one vpn frame flag;; on_mm (frame_dealloc frame);; mret (inl tt)
  end.

(** [sys_mmap] up to the end of its loop: [inr] is an early return, [inl] the
    first page and the token for the rest. *)
Definition mmap_pages (start len port : Z) : K (Z * Z + Z) :=
  tok ← current_user_token;
  t ← current_task;
  inner ← get_tcb t;
  if negb (start `mod` 4096 =? 0) || negb (Z.land port (wnot 64 7) =? 0) || (Z.land port 7 =? 0)
  then mret (inr (-1))
  else
    let start := if start =? 0 then program_brk inner ⊞ (PAGE_SIZE ⊠ 8) else start in
    let start_va := floor (VirtAddr_from start) in
    let end_va := ceil (VirtAddr_from (start ⊞ len)) in
    vir ← unwrap (SimpleRange_new start_va end_va);
    flag ← unwrap (mmap_flags port);
    r ← for_brk (vpns vir) tt (mmap_page tok flag);
    mret match r with inl _ => inl (tok, start_va) | inr e => inr e end.

Definition munmap_page (_ : unit) (vpn : Z) : K (unit + Z) :=
  tok ← current_user_token;
  result ← translate_token tok vpn;
  match result with
  | Some pey =>
      if negb (is_valid pey) then mret (inr (-1))
      else current_unmap_one vpn;; mret (inl tt)
  | None => mret (inr (-1))
  end.

Definition sys_munmap (start len : Z) : K Z :=
  if negb (start `mod` 4096 =? 0) then mret (-1)
  else
    let start_va := floor (VirtAddr_from start) in
    let end_va := ceil (VirtAddr_from (start ⊞ len)) in
    vir ← unwrap (SimpleRange_new start_va end_va);
    r ← for_brk (vpns vir) tt munmap_page;
    mret match r with inl _ => 0 | inr e => e end.

End ops.

(** ** The page table of the running task *)

Section running.
Context {A : Type} `{FrameAllocatorLaws A}.
Implicit Types (k : kernel A) (G : gmap Z Z).

Abbreviation k_fa k := (frame_allocator (k_mm k)).

(** The running task [t] has token [tok] and maps the pages [G]. *)
Definition running_maps k (t : nat) (tok : Z) G : Prop :=
  processor k = Some t ∧
  ∃ tcb, tcbs k !! t = Some tcb ∧ token (page_table (memory_set tcb)) = tok ∧
    fits 44 (root_ppn (page_table (memory_set tcb))) ∧
    represents (k_mm k) (page_table (memory_set tcb)) G.

Lemma on_mm_run {X} k (m : ST (mm A) X) x s' :
  m (k_mm k) = Done (x, s') →
  on_mm m k = Done (x, mkKernel s' (kernel_space k) (kstack_allocator k) (pid_allocator k)
                         (tcbs k) (ready_queue k) (processor k) (k_time k)).
Proof. intros E. unfold on_mm, zoom. by rewrite E. Qed.

Lemma get_tcb_run k t tcb : tcbs k !! t = Some tcb → get_tcb t k = Done (tcb, k).
Proof. intros Ht. unfold get_tcb. erewrite bind_step; [|reflexivity]. by rewrite Ht. Qed.

Lemma current_task_run k t : processor k = Some t → current_task k = Done (t, k).
Proof. intros Hp. unfold current_task. erewrite bind_step; [|reflexivity]. by rewrite Hp. Qed.

Lemma current_user_token_run k t tok G :
  running_maps k t tok G → current_user_token k = Done (tok, k).
Proof.
  intros (Hp & tcb & Ht & <- & _). unfold current_user_token.
  erewrite bind_step; [|by apply current_task_run]. by erewrite bind_step; [|by apply get_tcb_run].
Qed.

(** [translate] of the running task's table is lookup in [G]. *)
Lemma translate_token_run k t tok G vpn :
  running_maps k t tok G → fits 27 vpn →
  ∃ o, translate_token tok vpn k = Done (o, k) ∧
    (o ≫= λ e, if is_valid e then Some e else None) = G !! vpn.
Proof.
  intros (Hp & tcb & Ht & <- & Hroot & _ & HG) Hv. eexists. split; [reflexivity|].
  rewrite <- (HG _ Hv), pt_lookup_translate.
  unfold translate, find_pte. rewrite token_root by done. by destruct (walk _ _ _) as [[q i]|].
Qed.

(** ** [sys_munmap] *)

Lemma unmap_current k t tok G vpn e :
  running_maps k t tok G → fits 27 vpn → G !! vpn = Some e →
  ∃ k', current_unmap_one vpn k = Done (0, k') ∧ running_maps k' t tok (delete vpn G) ∧ k_fa k' = k_fa k.
Proof.
  intros (Hp & tcb & Ht & Htok & Hroot & [T Hpt] & HG) Hv HGv.
  destruct (PageTable_unmap_ok _ _ _ vpn e Hpt Hv) as (s' & E & Hpt' & Hfa & _ & Hl); [by rewrite HG|].
  eexists. split.
  { unfold current_unmap_one. erewrite bind_step; [|by apply current_task_run].
    unfold task_unmap. erewrite bind_step; [|by apply get_tcb_run].
    erewrite bind_step; [|apply on_mm_run; unfold MemorySet_unmap; erewrite bind_step; [reflexivity|exact E]].
    reflexivity. }
  split; [|done]. split; [done|]. exists tcb. split_and!; [done|done|done|].
  split; [by eauto|]. intros v Hv'. rewrite Hl by done. rewrite lookup_delete.
  repeat case_decide; try congruence. by apply HG.
Qed.

Lemma munmap_page_ok k t tok G vpn :
  running_maps k t tok G → fits 27 vpn →
  match G !! vpn with
  | Some _ => ∃ k', munmap_page tt vpn k = Done (inl tt, k') ∧
                running_maps k' t tok (delete vpn G) ∧ k_fa k' = k_fa k
  | None => munmap_page tt vpn k = Done (inr (-1), k)
  end.
Proof.
  intros Hk Hv. destruct (translate_token_run _ _ _ _ _ Hk Hv) as (o & Eo & HG).
  unfold munmap_page. rewrite (bind_step _ _ _ _ _ (current_user_token_run _ _ _ _ Hk)).
  rewrite (bind_step _ _ _ _ _ Eo). destruct (G !! vpn) as [e|] eqn:E.
  - destruct (unmap_current _ _ _ _ _ _ Hk Hv E) as (k' & E' & Hk' & Hfa).
    destruct o as [e'|]; [|done]. simpl in HG. destruct (is_valid e'); [|done]. simpl.
    rewrite (bind_step _ _ _ _ _ E'). eauto.
  - destruct o as [e'|]; [|done]. simpl in HG. by destruct (is_valid e').
Qed.

(** The pages of [l] are gone from [G]. *)
Definition without (l : list Z) G G' : Prop :=
  ∀ v, G' !! v = if decide (v ∈ l) then None else G !! v.

Lemma munmap_loop l k t tok G :
  running_maps k t tok G → Forall (fits 27) l → NoDup l →
  ∃ l1 l2 k' G', l = l1 ++ l2 ∧ Forall (λ v, is_Some (G !! v)) l1 ∧
    for_brk l tt munmap_page k = Done (match l2 with [] => inl tt | _ => inr (-1) end, k') ∧
    (∀ v l', l2 = v :: l' → G !! v = None) ∧
    running_maps k' t tok G' ∧ without l1 G G' ∧ k_fa k' = k_fa k.
Proof.
  revert k G. induction l as [|v l IH]; intros k G Hk Hf Hnd.
  { exists [], [], k, G. split_and!; [done|done|done|done|done| |done]. intros w. by rewrite decide_False by set_solver. }
  apply Forall_cons in Hf as [Hv Hf]. apply NoDup_cons in Hnd as [Hnin Hnd].
  pose proof (munmap_page_ok _ _ _ _ _ Hk Hv) as Hpage. cbn [for_brk].
  destruct (G !! v) as [e|] eqn:E.
  - destruct Hpage as (k1 & E1 & Hk1 & Hfa1).
    destruct (IH _ _ Hk1 Hf Hnd) as (l1 & l2 & k' & G' & -> & Hl1 & E2 & Hstop & Hk' & HG' & Hfa').
    exists (v :: l1), l2, k', G'. rewrite (bind_step _ _ _ _ _ E1), E2.
    split_and!; [done| |done| |done| |congruence].
    + constructor; [by eauto|]. eapply Forall_impl; [exact Hl1|]. intros w [x Hw].
      rewrite lookup_delete in Hw. case_decide; [done|]. by eauto.
    + intros w l' ->. specialize (Hstop _ _ eq_refl). rewrite lookup_delete in Hstop. case_decide; [|done].
      subst. by destruct Hnin; apply elem_of_app; right; left.
    + intros w. rewrite HG'. rewrite lookup_delete.
      destruct (decide (v = w)), (decide (w ∈ l1)), (decide (w ∈ v :: l1)); set_solver.
  - exists [], (v :: l), k, G. rewrite (bind_step _ _ _ _ _ Hpage).
    split_and!; [done|done|done|by intros ? ? [= <- <-]|done| |done].
    intros w. by rewrite decide_False by set_solver.
Qed.

(** ** [sys_mmap] *)

(** A fresh frame does not disturb the running task. *)
Lemma alloc_current k t tok G :
  running_maps k t tok G → fa_avail (k_fa k) ≠ 0%nat →
  ∃ f a k', fa_alloc (k_fa k) = (Some f, a) ∧ on_mm frame_alloc k = Done (Some f, k') ∧
    running_maps k' t tok G ∧ fits 44 f ∧
    (∀ x, fa_owned (k_fa k') x ↔ fa_owned (k_fa k) x ∨ x = f) ∧ ¬ fa_owned (k_fa k) f ∧
    fa_avail (k_fa k) = S (fa_avail (k_fa k')).
Proof.
  intros (Hp & tcb & Ht & Htok & Hroot & Hrep) Hav.
  pose proof (represents_frames _ _ _ Hrep) as (Hmm & Hnd & Hown).
  destruct (frame_alloc_ok _ Hmm Hav) as (f & s1 & E1 & Hmm1 & Hf & Hnf & Ho1 & Ha1 & Hz1 & Hs1).
  destruct (fa_alloc (k_fa k)) as [o a] eqn:Ea. pose proof E1 as E1'. unfold frame_alloc in E1'.
  rewrite Ea in E1'. destruct o as [f'|]; [|done]. injection E1' as -> <-.
  eexists f, a, _. split_and!; [done|by apply on_mm_run| |done|done|done|done].
  split; [done|]. exists tcb. split_and!; [done|done|done|]. simpl.
  rewrite Forall_forall in Hown. apply (represents_frame (k_mm k)); [done|done| |].
  - intros x i Hx. apply Hs1. intros ->. by apply Hnf, Hown.
  - intros x Hx. apply Ho1. left. by apply Hown.
Qed.

(** Giving back a frame that is not one of the page table's. *)
Lemma dealloc_current k t tok G f :
  running_maps k t tok G → fa_owned (k_fa k) f →
  (∀ tcb, tcbs k !! t = Some tcb → f ∉ pt_frames (page_table (memory_set tcb))) →
  ∃ k', on_mm (frame_dealloc f) k = Done (tt, k') ∧ running_maps k' t tok G ∧
    fa_dealloc f (k_fa k) = Some (k_fa k') ∧ ¬ fa_owned (k_fa k') f ∧
    fa_avail (k_fa k') = S (fa_avail (k_fa k)).
Proof.
  intros (Hp & tcb & Ht & Htok & Hroot & Hrep) Hf Hnpt. specialize (Hnpt _ Ht).
  pose proof (represents_frames _ _ _ Hrep) as (Hmm & Hnd & Hown).
  destruct (frame_dealloc_ok _ _ Hmm Hf) as (s1 & E1 & Hmm1 & Hm1 & Ho1 & Ha1).
  eexists. split; [by apply on_mm_run|]. split_and!.
  - split; [done|]. exists tcb. split_and!; [done|done|done|]. simpl.
    rewrite Forall_forall in Hown. apply (represents_frame (k_mm k)); [done|done| |].
    + intros x i Hx. by rewrite Hm1.
    + intros x Hx. apply Ho1. split; [by apply Hown|]. by intros ->.
  - unfold frame_dealloc in E1. destruct (fa_dealloc f _); [|done]. by injection E1 as <-.
  - simpl. rewrite Ho1. tauto.
  - done.
Qed.

Lemma map_current k t tok G vpn f flags :
  running_maps k t tok G → fits 27 vpn → fits 44 f → fits 8 flags → G !! vpn = None →
  (2 ≤ fa_avail (k_fa k))%nat → fa_owned (k_fa k) f →
  (∀ tcb, tcbs k !! t = Some tcb → f ∉ pt_frames (page_table (memory_set tcb))) →
  ∃ k', current_map_one vpn f flags k = Done (0, k') ∧
    running_maps k' t tok (<[vpn := PTE_new f (Z.lor flags PTE_V)]> G) ∧
    fa_owned (k_fa k') f ∧ (fa_avail (k_fa k) ≤ 2 + fa_avail (k_fa k'))%nat ∧
    ∀ tcb, tcbs k' !! t = Some tcb → f ∉ pt_frames (page_table (memory_set tcb)).
Proof.
  intros (Hp & tcb & Ht & Htok & Hroot & [T Hpt] & HG) Hv Hf Hfl HGv Hav Hown Hnpt.
  destruct (PageTable_map_ok _ _ _ vpn f flags Hpt Hv Hf Hfl Hav)
    as (new & s' & T' & E & Hpt' & Ho & Hnew & Ha & Hlen & _ & Hl); [by rewrite HG|].
  eexists. split.
  { unfold current_map_one. erewrite bind_step; [|by apply current_task_run].
    unfold task_map. erewrite bind_step; [|by apply get_tcb_run].
    erewrite bind_step; [|apply on_mm_run; unfold MemorySet_map; erewrite bind_step; [reflexivity|exact E]].
    cbn beta iota. erewrite bind_step; [reflexivity|].
    unfold update_tcb. erewrite bind_step; [reflexivity|]. by apply get_tcb_run. }
  split_and!; [|apply Ho; by left|simpl; lia|].
  - split; [done|]. eexists. split; [apply lookup_insert_eq|]. split_and!; [done|done|].
    split; [by eauto|]. intros v Hv'. cbn [memory_set set_memory page_table k_mm set_tcbs].
    rewrite Hl by done. rewrite lookup_insert. repeat case_decide; try congruence. by apply HG.
  - intros tcb'. simpl. rewrite lookup_insert_eq. intros [= <-]. simpl.
    rewrite not_elem_of_app. split; [by apply Hnpt|]. intros Hin.
    rewrite Forall_forall in Hnew. by apply (Hnew f).
Qed.

(** One page of [sys_mmap]: the frame that is mapped is free again. *)
Lemma mmap_page_ok k t tok G vpn flags :
  running_maps k t tok G → fits 27 vpn → fits 8 flags → (3 ≤ fa_avail (k_fa k))%nat →
  ∃ f a a' k', fa_alloc (k_fa k) = (Some f, a) ∧ fa_dealloc f a' = Some (k_fa k') ∧
    ¬ fa_owned (k_fa k') f ∧ (fa_avail (k_fa k) ≤ 2 + fa_avail (k_fa k'))%nat ∧
    match G !! vpn with
    | None => mmap_page tok flags tt vpn k = Done (inl tt, k') ∧
                running_maps k' t tok (<[vpn := PTE_new f (Z.lor flags PTE_V)]> G)
    | Some _ => mmap_page tok flags tt vpn k = Done (inr (-1), k') ∧ running_maps k' t tok G
    end.
Proof.
  intros Hk Hv Hfl Hav.
  destruct (alloc_current _ _ _ _ Hk ltac:(lia)) as (f & a & k1 & Ea & E1 & Hk1 & Hf & Ho1 & Hn & Ha1).
  assert (fa_owned (k_fa k1) f) as Hof by (apply Ho1; by right).
  assert (∀ tcb, tcbs k1 !! t = Some tcb → f ∉ pt_frames (page_table (memory_set tcb))) as Hnpt.
  { intros tcb Ht Hin. apply zoom_Done in E1 as (s1 & _ & ->). simpl in Ht.
    destruct Hk as (_ & tcb' & Ht' & _ & _ & Hrep). rewrite Ht in Ht'. injection Ht' as <-.
    pose proof (represents_frames _ _ _ Hrep) as (_ & _ & Hown).
    by apply Hn, (proj1 (Forall_forall _ _) Hown). }
  destruct (translate_token_run _ _ _ _ _ Hk1 Hv) as (o & Eo & HG).
  destruct (G !! vpn) as [e|] eqn:E.
  - destruct (dealloc_current _ _ _ _ f Hk1 Hof Hnpt) as (k2 & E2 & Hk2 & Ed & Hnf & Ha2).
    exists f, a, (k_fa k1), k2. split_and!; [done|done|done|lia| |done].
    unfold mmap_page. rewrite (bind_step _ _ _ _ _ E1). cbn [unwrap].
    erewrite bind_step; [|reflexivity]. rewrite (bind_step _ _ _ _ _ Eo).
    destruct o as [e'|]; [|done]. simpl in HG. destruct (is_valid e'); [|done]. simpl.
    by rewrite (bind_step _ _ _ _ _ E2).
  - destruct (map_current _ _ _ _ _ _ _ Hk1 Hv Hf Hfl E ltac:(lia) Hof Hnpt) as (k2 & E2 & Hk2 & Hof2 & Ha2 & Hnpt2).
    destruct (dealloc_current _ _ _ _ f Hk2 Hof2 Hnpt2) as (k3 & E3 & Hk3 & Ed & Hnf & Ha3).
    exists f, a, (k_fa k2), k3. split_and!; [done|done|done|lia| |done].
    unfold mmap_page. rewrite (bind_step _ _ _ _ _ E1). cbn [unwrap].
    erewrite bind_step; [|reflexivity]. rewrite (bind_step _ _ _ _ _ Eo).
    destruct o as [e'|]; [simpl in HG; destruct (is_valid e'); [done|]|]; simpl.
    all: rewrite (bind_step _ _ _ _ _ E2); by rewrite (bind_step _ _ _ _ _ E3).
Qed.

(** The pages of [l] are added to [G] with entry [e]. *)
Definition with_entry (l : list Z) (e : Z) G G' : Prop :=
  ∀ v, G' !! v = if decide (v ∈ l) then Some e else G !! v.

End running.

(** ** The pages of a call *)

Definition call_pages (start len : Z) : list Z := zrange (start / 4096) ((start + len + 4095) / 4096).

Lemma call_range start len :
  0 ≤ start → 0 ≤ len → start + len < 2 ^ 39 →
  ∃ r, SimpleRange_new (floor (VirtAddr_from start)) (ceil (VirtAddr_from (start ⊞ len))) = Some r ∧
    vpns r = call_pages start len ∧ Forall (fits 27) (vpns r) ∧ NoDup (vpns r).
Proof.
  intros Hs Hl Hb. rewrite wadd_small by (unfold fits; lia). rewrite !VirtAddr_from_mod, !Z.mod_small by lia.
  rewrite ceil_small by lia. unfold SimpleRange_new, floor, PAGE_SIZE.
  rewrite (proj2 (Z.leb_le (start / 4096) _)) by zlia.
  eexists. split; [done|]. split_and!; [done| |apply NoDup_seqZ].
  apply Forall_forall. intros v. unfold vpns. rewrite elem_of_zrange. simpl. unfold fits. zlia.
Qed.

(** The allocator of the kernel gives a returned frame out again first. *)
Section aliasing.
Variable lo : Z.
#[local] Instance stack_laws_at_lo : FrameAllocatorLaws StackFrameAllocator := stack_frame_laws lo.
Implicit Types (k : kernel StackFrameAllocator) (G : gmap Z Z).

Abbreviation k_fa k := (frame_allocator (k_mm k)).

Lemma stack_alloc_returned f a a' f' a'' :
  fits 44 f → StackFrameAllocator_dealloc f a = Some a' → StackFrameAllocator_alloc a' = (Some f', a'') → f' = f.
Proof.
  intros Hf. unfold StackFrameAllocator_dealloc. case_match; [done|]. intros [= <-].
  unfold StackFrameAllocator_alloc; simpl. rewrite vec_pop_snoc. intros [= <- <-]. by apply PhysPageNum_from_small.
Qed.

(** The loop of [sys_mmap] maps every page to the one frame [f] that the
    allocator gives out next. *)
Lemma mmap_loop l k t tok G flags f a :
  running_maps k t tok G → Forall (fits 27) l → NoDup l → fits 8 flags →
  (2 * length l + 1 ≤ stack_avail (k_fa k))%nat →
  StackFrameAllocator_alloc (k_fa k) = (Some f, a) → fits 44 f →
  ∃ l1 l2 k' G', l = l1 ++ l2 ∧ Forall (λ v, G !! v = None) l1 ∧
    for_brk l tt (mmap_page tok flags) k = Done (match l2 with [] => inl tt | _ => inr (-1) end, k') ∧
    (∀ v l', l2 = v :: l' → is_Some (G !! v)) ∧
    running_maps k' t tok G' ∧ with_entry l1 (PTE_new f (Z.lor flags PTE_V)) G G' ∧
    (l ≠ [] → ¬ stack_owned lo (k_fa k') f).
Proof.
  revert k G a. induction l as [|v l IH]; intros k G a Hk Hf Hnd Hfl Hav Ea Hff.
  { exists [], [], k, G. by split_and!. }
  apply Forall_cons in Hf as [Hv Hf]. apply NoDup_cons in Hnd as [Hnin Hnd]. simpl in Hav.
  destruct (mmap_page_ok _ _ _ _ _ _ Hk Hv Hfl ltac:(simpl; lia))
    as (f' & a1 & a2 & k1 & Ea1 & Ed & Hno & Hav1 & Hpage).
  simpl in Ea1, Ed, Hno, Hav1. rewrite Ea in Ea1. injection Ea1 as <- <-. cbn [for_brk].
  destruct (G !! v) as [e|] eqn:E; destruct Hpage as [E1 Hk1]; rewrite (bind_step _ _ _ _ _ E1).
  { exists [], (v :: l), k1, G. split_and!; try done. by intros ? ? [= <- <-]. }
  destruct l as [|v' l'] eqn:El.
  { eexists [v], [], k1, _. split_and!; [done|by constructor|done|done|exact Hk1| |done].
    intros w. rewrite lookup_insert. destruct (decide (v = w)), (decide (w ∈ [v])); set_solver. }
  rewrite <- El in *. assert (length l ≠ 0%nat) as Hlen by by rewrite El. clear El v' l'.
  destruct (stack_alloc_some lo (k_fa k1)) as (f2 & a3 & Ea3 & _).
  { by destruct Hk1 as (_ & tcb & _ & _ & _ & [[Hinv _] _]%represents_frames). } { lia. }
  pose proof (stack_alloc_returned _ _ _ _ _ Hff Ed Ea3) as ->.
  destruct (IH _ _ _ Hk1 Hf Hnd Hfl ltac:(lia) Ea3 Hff) as (l1 & l2 & k' & G' & -> & Hl1 & E2 & Hstop & Hk' & HG' & Hno').
  exists (v :: l1), l2, k', G'. split_and!; [done| |done| |done| |].
  - constructor; [done|]. eapply Forall_impl; [exact Hl1|]. intros w Hw.
    cbn beta in Hw. rewrite lookup_insert in Hw. by case_decide.
  - intros w l' ->. destruct (Hstop _ _ eq_refl) as [x Hx]. rewrite lookup_insert in Hx.
    case_decide; [|by eauto]. subst. by destruct Hnin; apply elem_of_app; right; left.
  - intros w. rewrite HG', lookup_insert.
    destruct (decide (v = w)), (decide (w ∈ l1)), (decide (w ∈ v :: l1)); set_solver.
  - intros _. apply Hno'. intros E0. by rewrite E0 in Hlen.
Qed.

(** [sys_mmap] gives its frame back after mapping it: on unmapped pages
    every page of the call is mapped to one and the same frame, and that frame
    is free for the next allocation of any process. The first page that is
    already mapped ends the call with -1, with the pages before it mapped. *)
Theorem mmap_pages_share_a_free_frame k t tok G start len port :
  running_maps k t tok G → 0 < start → start mod 4096 = 0 → 0 < len → start + len < 2 ^ 39 →
  1 ≤ port ≤ 7 → (2 * length (call_pages start len) + 1 ≤ stack_avail (k_fa k))%nat →
  ∃ f l1 l2 k' G', call_pages start len = l1 ++ l2 ∧
    mmap_pages start len port k =
      Done (match l2 with [] => inl (tok, start / 4096) | _ => inr (-1) end, k') ∧
    Forall (λ v, G !! v = None) l1 ∧ (∀ v l', l2 = v :: l' → is_Some (G !! v)) ∧
    running_maps k' t tok G' ∧ with_entry l1 (PTE_new f (Z.lor (PTE_U + 2 * port) PTE_V)) G G' ∧
    ¬ stack_owned lo (k_fa k') f.
Proof.
  intros Hk Hs Hal Hl Hb Hport Hav.
  destruct (call_range start len) as (r & Er & Evp & Hfit & Hnd); [lia|lia|lia|].
  destruct (stack_alloc_some lo (k_fa k)) as (f & a & Ea & _ & Hf & _).
  { by destruct Hk as (_ & tcb & _ & _ & _ & [[Hinv _] _]%represents_frames). } { lia. }
  assert (mmap_flags port = Some (PTE_U + 2 * port) ∧ Z.land port (wnot 64 7) = 0 ∧ Z.land port 7 ≠ 0 ∧
    fits 8 (PTE_U + 2 * port)) as (Efl & Hp1 & Hp2 & Hfl).
  { assert (port = 1 ∨ port = 2 ∨ port = 3 ∨ port = 4 ∨ port = 5 ∨ port = 6 ∨ port = 7) as Hcases by lia.
    repeat destruct Hcases as [->|Hcases]; subst; by vm_compute. }
  destruct (mmap_loop (vpns r) k t tok G (PTE_U + 2 * port) f a)
    as (l1 & l2 & k' & G' & E & Hl1 & El & Hstop & Hk' & HG' & Hno); [done..|by rewrite Evp|done|done|].
  exists f, l1, l2, k', G'. split_and!; [congruence| |done|done|done|done|].
  - pose proof Hk as (Hp & tcb & Ht & _). unfold mmap_pages.
    rewrite (bind_step _ _ _ _ _ (current_user_token_run _ _ _ _ Hk)).
    rewrite (bind_step _ _ _ _ _ (current_task_run _ _ Hp)), (bind_step _ _ _ _ _ (get_tcb_run _ _ _ Ht)).
    rewrite Hal, Hp1, (proj2 (Z.eqb_neq _ _) Hp2), (proj2 (Z.eqb_neq start 0)) by lia. cbn [Z.eqb negb orb].
    rewrite Er. erewrite bind_step; [|reflexivity]. rewrite Efl. erewrite bind_step; [|reflexivity].
    rewrite (bind_step _ _ _ _ _ El). unfold floor, PAGE_SIZE. rewrite VirtAddr_from_mod, Z.mod_small by lia.
    by destruct l2.
  - apply Hno. rewrite Evp. unfold call_pages. intros Hnil%(f_equal length). rewrite length_zrange in Hnil. simpl in Hnil. zlia.
Qed.

End aliasing.

Section properties.
Context {A : Type} `{FrameAllocatorLaws A}.
Implicit Types (k : kernel A) (G : gmap Z Z).

(** [sys_munmap] on an aligned range unmaps the pages of the range in
    order up to the first one that is not mapped: it returns 0 if there is no
    such page and -1 otherwise, every page outside is kept, and no frame goes
    back to the allocator. An address that is not aligned changes nothing. *)
Theorem munmap_exact k t tok G start len :
  running_maps k t tok G → 0 ≤ start → 0 ≤ len → start + len < 2 ^ 39 →
  if decide (start mod 4096 = 0) then
    ∃ l1 l2 k' G', call_pages start len = l1 ++ l2 ∧
      sys_munmap start len k = Done (match l2 with [] => 0 | _ => -1 end, k') ∧
      Forall (λ v, is_Some (G !! v)) l1 ∧ (∀ v l', l2 = v :: l' → G !! v = None) ∧
      running_maps k' t tok G' ∧ without l1 G G' ∧ frame_allocator (k_mm k') = frame_allocator (k_mm k)
  else sys_munmap start len k = Done (-1, k).
Proof.
  intros Hk Hs Hl Hb. unfold sys_munmap. case_decide as Hal.
  2:{ by rewrite (proj2 (Z.eqb_neq _ _) Hal). }
  destruct (call_range start len) as (r & Er & Evp & Hfit & Hnd); [lia|lia|lia|].
  destruct (munmap_loop (vpns r) k t tok G) as (l1 & l2 & k' & G' & E & Hl1 & El & Hstop & Hk' & HG' & Hfa); [done..|].
  exists l1, l2, k', G'. split_and!; [congruence| |done..].
  rewrite Hal, Er. cbn [Z.eqb negb]. erewrite bind_step; [|reflexivity].
  rewrite (bind_step _ _ _ _ _ El). by destruct l2.
Qed.

Lemma change_brk_small k t tcb brk :
  tcbs k !! t = Some tcb → fits 63 (heap_bottom tcb) → fits 63 (program_brk tcb) → fits 63 brk →
  brk ≤ program_brk tcb + PAGE_SIZE →
  change_program_brk t brk k =
    if brk =? 0 then Done (Some (program_brk tcb), k)
    else if brk <? heap_bottom tcb then Done (None, k)
    else Done (Some brk, set_tcbs (<[t := set_brk brk tcb]> (tcbs k)) k).
Proof.
  intros Ht [Hh0 Hh] [Hb0 Hb] [Hn0 Hn] Hle. unfold change_program_brk.
  assert (∀ x, - 2 ^ 63 ≤ x < 2 ^ 63 → to_signed 64 x = x) as Hts by (intros x ?; apply to_signed_small; lia).
  rewrite (bind_step _ _ _ _ _ (get_tcb_run _ _ _ Ht)).
  rewrite (Hts (program_brk tcb)), (Hts (heap_bottom tcb)), (Hts (brk - _)) by lia.
  rewrite Zplus_minus, (Hts brk) by lia. rewrite wrap_small by (unfold fits; lia).
  destruct (brk =? 0); [done|]. destruct (brk <? heap_bottom tcb); [done|].
  rewrite (proj2 (Z.ltb_ge _ _)) by lia.
  erewrite bind_step; [reflexivity|]. unfold update_tcb. erewrite bind_step; [reflexivity|by apply get_tcb_run].
Qed.

(** [brk] maps no memory for a growth of at most one page, and unmaps none
    when the break moves down: the break is set to the new value, which is
    returned, while memory and all address spaces stay as they are. A break
    below the heap bottom is refused, and 0 asks for the current break. *)
Theorem brk_within_a_page_maps_nothing k t tcb brk :
  processor k = Some t → tcbs k !! t = Some tcb →
  fits 63 (heap_bottom tcb) → fits 63 (program_brk tcb) → fits 63 brk →
  brk ≤ program_brk tcb + PAGE_SIZE →
  sys_brk brk k =
    if brk =? 0 then Done (program_brk tcb, k)
    else if brk <? heap_bottom tcb then Done (-1, k)
    else Done (brk, set_tcbs (<[t := set_brk brk tcb]> (tcbs k)) k).
Proof.
  intros Hp Ht Hh Hb Hn Hle. unfold sys_brk, fits in *.
  assert (∀ x, 0 ≤ x < 2 ^ 63 → to_signed 64 x = x) as Hts by (intros x ?; apply to_signed_small; lia).
  rewrite (bind_step _ _ _ _ _ (current_task_run _ _ Hp)), (Hts brk) by done.
  pose proof (change_brk_small k t tcb brk Ht Hh Hb Hn Hle) as E.
  destruct (brk =? 0); [|destruct (brk <? heap_bottom tcb)]; rewrite (bind_step _ _ _ _ _ E); [|done|].
  - unfold mret, st_ret. by rewrite Hts.
  - unfold mret, st_ret. by rewrite Hts.
Qed.

End properties.

(** ** Witnesses

    A running task that maps page 0x10, and nothing else. *)

Definition wit_kernel (pt : PageTable) (s : mm StackFrameAllocator) : kernel StackFrameAllocator :=
  mkKernel s (mkMemorySet (mkPageTable 0 []) []) RecycleAllocator_new RecycleAllocator_new
    {[0%nat := mkTCB 1 0 0 0 0 TaskContext_zero_init Running (mkMemorySet pt []) None [] 0 [] 0x20000 0x21000
                 (TaskInfo_new 0) 0 16 []]}
    [] (Some 0%nat) 0.

Lemma wit_running pt s G :
  @represents _ _ (stack_frame_laws 0x80500) s pt G → fits 44 (root_ppn pt) →
  @running_maps _ _ (stack_frame_laws 0x80500) (wit_kernel pt s) 0 (token pt) G.
Proof. intros Hrep Hroot. split; [done|]. eexists. split; [apply lookup_singleton_eq|]. done. Qed.

Lemma mmap_pages_share_a_free_frame_witness :
  ∃ f k k' l1, mmap_pages 0x20000 0x2000 3 k = Done (inl (f, 0x20), k') ∧ l1 = [0x20; 0x21].
Proof.
  destruct wit_mapped as (pt & s & Hrep & Hroot & Hav).
  destruct (mmap_pages_share_a_free_frame 0x80500 (wit_kernel pt s) 0 (token pt) _ 0x20000 0x2000 3
              (wit_running _ _ _ Hrep Hroot)) as (f & l1 & l2 & k' & G' & E & Er & Hl1 & Hstop & _);
    [lia|reflexivity|lia|lia|lia|change (2 * 2 + 1 ≤ stack_avail (frame_allocator s))%nat; lia|].
  destruct l2 as [|v l2].
  - exists (token pt), (wit_kernel pt s), k', l1. split; [exact Er|]. rewrite app_nil_r in E. by rewrite <- E.
  - destruct (Hstop v l2 eq_refl) as [e [<- _]%lookup_singleton_Some].
    assert (0x10 ∈ call_pages 0x20000 0x2000) as Hin by (rewrite E; apply elem_of_app; right; left).
    exfalso. apply elem_of_zrange in Hin. change (0x20000 / 4096) with 0x20 in Hin. lia.
Defined.

Lemma munmap_exact_witness : ∃ k k' : kernel StackFrameAllocator, sys_munmap 0x10000 0x1000 k = Done (0, k').
Proof.
  destruct wit_mapped as (pt & s & Hrep & Hroot & _).
  destruct (@munmap_exact _ _ (stack_frame_laws 0x80500) (wit_kernel pt s) 0 (token pt) _ 0x10000 0x1000
              (wit_running _ _ _ Hrep Hroot)) as (l1 & l2 & k' & G' & E & Er & Hl1 & Hstop & _);
    [lia|lia|lia|].
  change (call_pages 0x10000 0x1000) with [0x10] in E. destruct l1 as [|v l1].
  { simpl in E. subst l2. by specialize (Hstop _ _ eq_refl). }
  injection E as <- [-> ->]%eq_sym%app_nil. exists (wit_kernel pt s), k'. exact Er.
Defined.

Lemma brk_within_a_page_maps_nothing_witness :
  let k := wit_kernel (mkPageTable 0 []) wit_mm in
  ∃ k', sys_brk 0x22000 k = Done (0x22000, k') ∧ k_mm k' = k_mm k ∧
    (page_table ∘ memory_set) <$> tcbs k' = (page_table ∘ memory_set) <$> tcbs k.
Proof.
  intros k.
  pose proof (brk_within_a_page_maps_nothing k 0 _ 0x22000 eq_refl (lookup_singleton_eq _ _)) as E.
  eexists. split.
  - rewrite E; [reflexivity|unfold fits; simpl; lia..|unfold PAGE_SIZE; simpl; lia].
  - split; reflexivity.
Defined.
