(* ===== verification/BlockCache.v ===== *)
(** * The block cache (fat32/src/block_cache.rs, block_dev.rs)

    Two managers, one for metadata (FAT, directory entries) and one for file
    data, each keep up to ten blocks of the device; a block that has been
    modified is written back when it leaves its manager. The block device is a
    parameter. The theorems show that the caches are transparent: through them
    the disk is a map from block numbers to blocks. *)

From S2P Require Import Prelude.

Definition BLOCK_SZ : Z := 512.
Definition BLOCK_CACHE_SIZE : nat := 10.

(** [trait BlockDevice]. *)
Class BlockDevice (D : Type) := {
  read_block : Z → D → list Z;
  write_block : Z → list Z → D → D;
}.

Definition block_wf (l : list Z) : Prop := length l = 512%nat ∧ Forall is_byte l.

(** What the drivers promise: blocks have 512 bytes, and a block reads as it
    was last written. *)
Class BlockDeviceLaws (D : Type) `{BlockDevice D} := {
  read_block_wf b d : block_wf (read_block b d);
  read_write_block b b' l d :
    block_wf l → read_block b (write_block b' l d) = if decide (b = b') then l else read_block b d;
}.

(** ** Operations *)

Record BlockCache := mkBlockCache { cache : list Z; block_id : Z; modified : bool; time_stamp : Z }.

(** A slot of the queue; [slot_refs] counts the references to the block beside
    the queue's own ([Arc::strong_count - 1]), which are those of the callers
    that have the block locked, and [slot_lock] says that one has it locked for
    writing. *)
Record slot := mkSlot { slot_id : Z; slot_cache : BlockCache; slot_refs : nat; slot_lock : bool }.

Record BlockCacheManager := mkManager { start_sec : Z; queue : list slot }.

Definition BlockCacheManager_new : BlockCacheManager := mkManager 0 [].

(** The two managers and the device. *)
Record disk (D : Type) := mkDisk { info : BlockCacheManager; data : BlockCacheManager; device : D }.
Arguments mkDisk {D} _ _ _.
Arguments info {D} _.
Arguments data {D} _.
Arguments device {D} _.

Inductive which := Info | Data.
Inductive CacheMode := READ | WRITE.

Section ops.
Context {D : Type} `{BlockDevice D}.

Definition BlockCache_new (bid : Z) (d : D) : BlockCache := mkBlockCache (read_block bid d) bid false 0.

(** [sync], and [drop]. *)
Definition sync (c : BlockCache) (d : D) : BlockCache * D :=
  if modified c then (mkBlockCache (cache c) (block_id c) false (time_stamp c), write_block (block_id c) (cache c) d)
  else (c, d).

Definition find_slot (bid : Z) (q : list slot) : option (nat * slot) := list_find (λ e, slot_id e = bid) q.

Definition Manager_get (bid : Z) : ST (BlockCacheManager * D) unit := λ '(m, d),
  match find_slot bid (queue m) with
  | Some _ => Done (tt, (m, d))
  | None =>
      if (length (queue m) =? BLOCK_CACHE_SIZE)%nat then
        match list_find (λ e, slot_refs e = 0%nat) (queue m) with
        | Some (idx, e) =>
            let d := (sync (slot_cache e) d).2 in
            let q := delete idx (queue m) in
            Done (tt, (mkManager (start_sec m) (q ++ [mkSlot bid (BlockCache_new bid d) 0 false]), d))
        | None => Panic
        end
      else Done (tt, (mkManager (start_sec m) (queue m ++ [mkSlot bid (BlockCache_new bid d) 0 false]), d))
  end.

(** [read_block_cache]. *)
Definition Manager_read (bid : Z) (m : BlockCacheManager) : option slot := snd <$> find_slot bid (queue m).

Definition drop_all (m : BlockCacheManager) (d : D) : BlockCacheManager * D :=
  (mkManager (start_sec m) [], foldl (λ d e, (sync (slot_cache e) d).2) d (queue m)).

Definition manager (w : which) (s : disk D) : BlockCacheManager := match w with Info => info s | Data => data s end.
Definition set_manager (w : which) (m : BlockCacheManager) (s : disk D) : disk D :=
  match w with Info => mkDisk m (data s) (device s) | Data => mkDisk (info s) m (device s) end.

Definition on_manager {X} (w : which) (m : ST (BlockCacheManager * D) X) : ST (disk D) X :=
  zoom (λ s, (manager w s, device s))
    (λ '(m, d) s, set_manager w m (mkDisk (info s) (data s) d)) m.

(** [get_info_cache] and [get_block_cache]: the slot of a block. Both modes
    bring the block in; they differ in the lock they take. *)
Definition get_cache (w : which) (bid : Z) (mode : CacheMode) : ST (disk D) slot :=
  s ← st_get;
  let phy_blk_id := start_sec (manager w s) ⊞ bid in
  on_manager w (Manager_get phy_blk_id);;
  s ← st_get;
  unwrap (Manager_read phy_blk_id (manager w s)).

(** [f] applied to the [n] bytes at [off]: [get_ref] checks the range. *)
Definition BlockCache_read {X} (off n : Z) (f : list Z → X) (c : BlockCache) : option X :=
  if off + n <=? BLOCK_SZ then Some (f (slice (Z.to_nat off) (Z.to_nat n) (cache c))) else None.

Definition BlockCache_modify {X} (off n : Z) (f : list Z → list Z * X) (c : BlockCache) : option (BlockCache * X) :=
  if off + n <=? BLOCK_SZ then
    let '(new, x) := f (slice (Z.to_nat off) (Z.to_nat n) (cache c)) in
    Some (mkBlockCache (splice (Z.to_nat off) new (cache c)) (block_id c) true (time_stamp c), x)
  else None.

(** Change the slot of [bid] in a queue. *)
Definition update_slot (bid : Z) (f : slot → slot) (q : list slot) : list slot :=
  (λ e, if decide (slot_id e = bid) then f e else e) <$> q.

(** A spin lock that is never released: the caller does not return. *)
Definition spin {S X} : ST S X := λ _, NoFuel.

(** [.read()] waits for a writer, [.write()] for everybody. *)
Definition lock_read (e : slot) : ST (disk D) unit := if slot_lock e then spin else mret tt.
Definition lock_write (e : slot) : ST (disk D) unit := if (slot_refs e =? 0)%nat then mret tt else spin.

(** [get_info_cache(..).read().read(off, f)] and the like, with a closure that
    only looks at the bytes. *)
Definition read_cache {X} (w : which) (bid : Z) (mode : CacheMode) (off n : Z) (f : list Z → X) : ST (disk D) X :=
  e ← get_cache w bid mode;
  lock_read e;;
  unwrap (BlockCache_read off n f (slot_cache e)).

Definition set_slot (w : which) (bid : Z) (f : slot → slot) : ST (disk D) unit :=
  st_modify (λ s, set_manager w (mkManager (start_sec (manager w s)) (update_slot bid f (queue (manager w s)))) s).

(** The same for [.write().modify(off, f)]. *)
Definition modify_cache {X} (w : which) (bid : Z) (mode : CacheMode) (off n : Z) (f : list Z → list Z * X) :
    ST (disk D) X :=
  e ← get_cache w bid mode;
  lock_write e;;
  '(c, x) ← unwrap (BlockCache_modify off n f (slot_cache e));
  set_slot w (slot_id e) (λ e, mkSlot (slot_id e) c (slot_refs e) (slot_lock e));;
  mret x.

(** A metadata block is locked while a closure runs. *)
Definition acquire (bid : Z) (excl : bool) : ST (disk D) unit :=
  set_slot Info bid (λ e, mkSlot (slot_id e) (slot_cache e) (S (slot_refs e)) (slot_lock e || excl)).
Definition release (bid : Z) (excl : bool) : ST (disk D) unit :=
  set_slot Info bid (λ e, mkSlot (slot_id e) (slot_cache e) (pred (slot_refs e)) (slot_lock e && negb excl)).

(** [get_info_cache(..).read().read(off, f)] with a closure that itself uses the
    disk: the block is locked from [begin_read], which gives the bytes, to the
    release of the lock. *)
Definition begin_read (bid : Z) (mode : CacheMode) (off n : Z) : ST (disk D) (Z * list Z) :=
  e ← get_cache Info bid mode;
  lock_read e;;
  l ← unwrap (BlockCache_read off n (λ l, l) (slot_cache e));
  acquire (slot_id e) false;;
  mret (slot_id e, l).

(** The same for [.write().modify(off, f)] with a closure that leaves the bytes
    as they are; the block counts as modified. *)
Definition begin_modify (bid : Z) (mode : CacheMode) (off n : Z) : ST (disk D) (Z * list Z) :=
  e ← get_cache Info bid mode;
  lock_write e;;
  '(c, l) ← unwrap (BlockCache_modify off n (λ l, (l, l)) (slot_cache e));
  set_slot Info (slot_id e) (λ e, mkSlot (slot_id e) c (slot_refs e) (slot_lock e));;
  acquire (slot_id e) true;;
  mret (slot_id e, l).

Definition set_start_sec (n : Z) : ST (disk D) unit :=
  st_modify (λ s, mkDisk (mkManager n (queue (info s))) (mkManager n (queue (data s))) (device s)).

Definition write_to_dev : ST (disk D) unit :=
  st_modify (λ s,
    let '(i, d) := drop_all (info s) (device s) in
    let '(b, d) := drop_all (data s) d in
    mkDisk i b d).

End ops.

(** ** The caches are transparent *)

Section transparent.
Context {D : Type} `{BlockDeviceLaws D}.
Implicit Types (s : disk D) (d : D) (m : BlockCacheManager) (q : list slot) (V : Z → list Z) (K : list (Z * bool)).

Abbreviation ids q := (slot_id <$> q).

(** A slot caches a block of [d]; one that was not modified agrees with it. *)
Definition slot_ok d (e : slot) : Prop :=
  block_id (slot_cache e) = slot_id e ∧ block_wf (cache (slot_cache e)) ∧
  (modified (slot_cache e) = false → cache (slot_cache e) = read_block (slot_id e) d).

(** A manager with the locked blocks [K], each with whether it is locked for
    writing. *)
Definition manager_ok d m K : Prop :=
  start_sec m = 0 ∧ NoDup (ids (queue m)) ∧ (length (queue m) ≤ BLOCK_CACHE_SIZE)%nat ∧
  Forall (slot_ok d) (queue m) ∧ Forall (λ b, b ∈ ids (queue m)) K.*1 ∧
  Forall (λ e, slot_refs e = length (filter (λ b, b = slot_id e) K.*1) ∧
               slot_lock e = bool_decide ((slot_id e, true) ∈ K)) (queue m).

(** The content of block [b], seen through queue [q]. *)
Definition queue_view q d (b : Z) : list Z :=
  match find_slot b q with Some (_, e) => cache (slot_cache e) | None => read_block b d end.

Lemma find_slot_None q b : find_slot b q = None ↔ b ∉ ids q.
Proof.
  unfold find_slot. rewrite list_find_None, list_elem_of_fmap, Forall_forall. split.
  - intros Hn (e & -> & He). by apply (Hn e).
  - intros Hn e He <-. apply Hn. eauto.
Qed.

Lemma find_slot_Some q b :
  NoDup (ids q) → ∀ e, (∃ i, find_slot b q = Some (i, e)) ↔ e ∈ q ∧ slot_id e = b.
Proof.
  intros Hnd e. unfold find_slot. split.
  - intros [i (Hi & ? & _)%list_find_Some]. split; [by eapply list_elem_of_lookup_2|done].
  - intros [He <-]. destruct (list_find (λ e0, slot_id e0 = slot_id e) q) as [[i e']|] eqn:E.
    + apply list_find_Some in E as (Hi & Heq & _). exists i. do 2 f_equal.
      apply list_elem_of_lookup_1 in He as [j Hj].
      assert (i = j) as ->; [|congruence].
      eapply NoDup_lookup; [exact Hnd| |]; rewrite list_lookup_fmap; [by rewrite Hi|by rewrite Hj, Heq].
    + apply list_find_None in E. rewrite Forall_forall in E. by destruct (E e He).
Qed.

Lemma queue_view_in q d e : NoDup (ids q) → e ∈ q → queue_view q d (slot_id e) = cache (slot_cache e).
Proof.
  intros Hnd He. unfold queue_view.
  destruct (proj2 (find_slot_Some q (slot_id e) Hnd e)) as [i ->]; done.
Qed.

Lemma queue_view_out q d b : b ∉ ids q → queue_view q d b = read_block b d.
Proof. intros Hb%find_slot_None. unfold queue_view. by rewrite Hb. Qed.

(** Two queues with the same contents give the same view. *)
Lemma queue_view_ext q q' d d' b :
  NoDup (ids q) → NoDup (ids q') →
  (∀ e, e ∈ q → slot_id e = b → ∃ e', e' ∈ q' ∧ slot_id e' = b ∧ cache (slot_cache e') = cache (slot_cache e)) →
  (b ∉ ids q → queue_view q' d' b = read_block b d) →
  queue_view q' d' b = queue_view q d b.
Proof.
  intros Hnd Hnd' Hin Hout. destruct (decide (b ∈ ids q)) as [Hb|Hb].
  - apply list_elem_of_fmap in Hb as (e & -> & He).
    destruct (Hin e He eq_refl) as (e' & He' & Hid & Hc). rewrite <- Hid at 1.
    by rewrite !queue_view_in.
  - rewrite Hout by done. by rewrite queue_view_out.
Qed.

(** ** Bringing a block in *)

Lemma sync_read d e x :
  slot_ok d e →
  read_block x (sync (slot_cache e) d).2 =
    if decide (x = slot_id e) then cache (slot_cache e) else read_block x d.
Proof.
  intros (Hid & Hwf & Hclean). unfold sync. destruct (modified (slot_cache e)); simpl.
  - by rewrite read_write_block, Hid.
  - case_decide; [|done]. subst. by rewrite Hclean.
Qed.

Lemma slot_ok_other d d' e : slot_ok d e → read_block (slot_id e) d' = read_block (slot_id e) d → slot_ok d' e.
Proof. intros (? & ? & Hc) E. split_and!; [done|done|]. by rewrite E. Qed.

Lemma push_slot_ok d n q K b :
  manager_ok d (mkManager n q) K → b ∉ ids q → (length q < BLOCK_CACHE_SIZE)%nat →
  let q' := q ++ [mkSlot b (BlockCache_new b d) 0 false] in
  manager_ok d (mkManager n q') K ∧ ∀ x, queue_view q' d x = queue_view q d x.
Proof.
  intros (Hs & Hnd & Hlen & Hok & HK & Hrefs) Hb Hlt q'. simpl in *.
  assert (NoDup (ids q')) as Hnd'.
  { subst q'. rewrite fmap_app. apply NoDup_app. split_and!; [done| |apply NoDup_singleton].
    intros x Hx Hx'. apply list_elem_of_singleton in Hx' as ->. done. }
  split.
  - split_and!; simpl; [done|done|subst q'; rewrite length_app; simpl; lia| | |]; subst q'.
    + apply Forall_app. split; [done|]. apply Forall_singleton.
      split_and!; simpl; [done|apply read_block_wf|done].
    + eapply Forall_impl; [exact HK|]. intros x Hx. rewrite fmap_app. apply elem_of_app. by left.
    + apply Forall_app. split; [done|]. apply Forall_singleton. simpl.
      assert (b ∉ K.*1) as HbK by (intros Hin; by apply Hb, (proj1 (Forall_forall _ _) HK)).
      rewrite filter_none by done. split; [done|]. symmetry. apply bool_decide_eq_false. intros Hin. apply HbK.
      apply list_elem_of_fmap. by exists (b, true).
  - intros x. apply queue_view_ext; [done|done| |].
    + intros e He <-. exists e. split_and!; [apply elem_of_app; by left|done|done].
    + intros Hx. destruct (decide (x = b)) as [->|Hne].
      * apply (queue_view_in q' d (mkSlot b (BlockCache_new b d) 0 false)); [done|].
        subst q'. apply elem_of_app. right. by left.
      * apply queue_view_out. subst q'. rewrite fmap_app, elem_of_app. simpl.
        intros [?|?%list_elem_of_singleton]; done.
Qed.

Lemma evict_slot_ok d n q K idx e :
  manager_ok d (mkManager n q) K → q !! idx = Some e → slot_refs e = 0%nat →
  let d' := (sync (slot_cache e) d).2 in let q' := delete idx q in
  manager_ok d' (mkManager n q') K ∧ (∀ x, queue_view q' d' x = queue_view q d x) ∧
  (∀ x, x ∈ ids q' → x ∈ ids q) ∧ (∀ x, x ∉ ids q → read_block x d' = read_block x d) ∧
  length q = S (length q').
Proof.
  intros (Hs & Hnd & Hlen & Hok & HK & Hrefs) Hidx Hr d' q'. simpl in *.
  assert (q ≡ₚ e :: q') as Hperm by by apply delete_Permutation.
  assert (ids q ≡ₚ slot_id e :: ids q') as Hpid by by rewrite Hperm.
  rewrite Hpid in Hnd. apply NoDup_cons in Hnd as [Hnin Hnd'].
  assert (slot_ok d e) as Hoke by (rewrite Forall_forall in Hok; by eapply Hok, list_elem_of_lookup_2).
  assert (∀ x, x ≠ slot_id e → read_block x d' = read_block x d) as Hd'.
  { intros x Hx. subst d'. rewrite sync_read by done. by rewrite decide_False. }
  rewrite Hperm in Hok, Hrefs. apply Forall_cons in Hok as [_ Hok], Hrefs as [Hre Hrefs].
  split_and!.
  - split_and!; simpl; [done|done| | | |done].
    + assert (length q = S (length q')) by by rewrite Hperm. lia.
    + rewrite Forall_forall in Hok |- *. intros e' He'. apply (slot_ok_other d); [by apply Hok|].
      apply Hd'. intros E. apply Hnin. rewrite <- E. apply list_elem_of_fmap. eauto.
    + rewrite Forall_forall in HK |- *. intros x Hx. specialize (HK x Hx). rewrite Hpid in HK.
      apply elem_of_cons in HK as [->|?]; [|done]. exfalso.
      assert (slot_id e ∈ filter (λ b, b = slot_id e) K.*1) as Hin by by apply list_elem_of_filter.
      destruct Hre as [Hre _]. rewrite Hr in Hre. symmetry in Hre. apply length_zero_iff_nil in Hre. rewrite Hre in Hin. by apply not_elem_of_nil in Hin.
  - intros x. destruct (decide (x = slot_id e)) as [->|Hx].
    + rewrite queue_view_out by done. rewrite queue_view_in; [|by rewrite Hpid; constructor|rewrite Hperm; by left].
      subst d'. rewrite sync_read by done. by rewrite decide_True.
    + apply queue_view_ext; [by rewrite Hpid; constructor|done| |].
      * intros e' He' <-. rewrite Hperm in He'. apply elem_of_cons in He' as [->|]; [done|]. eauto.
      * intros Hnx. rewrite queue_view_out; [by apply Hd'|]. intros Hx'. apply Hnx. rewrite Hpid. by right.
  - intros x Hx. rewrite Hpid. by right.
  - intros x Hx. apply Hd'. intros ->. apply Hx. rewrite Hpid. by left.
  - by rewrite Hperm.
Qed.

(** A full queue has a slot that nobody refers to. *)
Lemma free_slot_exists d m K :
  manager_ok d m K → (length K < length (queue m))%nat →
  is_Some (list_find (λ e, slot_refs e = 0%nat) (queue m)).
Proof.
  intros (_ & Hnd & _ & _ & _ & Hrefs) Hlt.
  destruct (list_find _ _) as [p|] eqn:E; [done|]. apply list_find_None in E.
  assert (length (ids (queue m)) ≤ length K.*1)%nat as Hle; [|rewrite !length_fmap in Hle; lia].
  apply submseteq_length, NoDup_submseteq; [done|].
  intros x (e & -> & He)%list_elem_of_fmap. rewrite Forall_forall in Hrefs, E.
  destruct (Hrefs e He) as [Hr _]. specialize (E e He). simpl in *.
  destruct (filter (λ b, b = slot_id e) K.*1) as [|y l] eqn:Ef; [done|].
  assert (y ∈ filter (λ b, b = slot_id e) K.*1) as [-> ?]%list_elem_of_filter by (rewrite Ef; by left). done.
Qed.

Lemma Manager_get_ok d m K b :
  manager_ok d m K → (length K < BLOCK_CACHE_SIZE)%nat →
  ∃ m' d', Manager_get b (m, d) = Done (tt, (m', d')) ∧ manager_ok d' m' K ∧ b ∈ ids (queue m') ∧
    (∀ x, x ∈ ids (queue m') → x ∈ ids (queue m) ∨ x = b) ∧
    (∀ x, queue_view (queue m') d' x = queue_view (queue m) d x) ∧
    (∀ x, x ∉ ids (queue m) → read_block x d' = read_block x d).
Proof.
  intros Hm HK. unfold Manager_get. destruct (find_slot b (queue m)) as [[i e]|] eqn:Ef.
  - exists m, d. split_and!; try done; [|by left]. apply list_find_Some in Ef as (Hi & <- & _).
    apply list_elem_of_fmap. exists e. split; [done|by eapply list_elem_of_lookup_2].
  - apply find_slot_None in Ef. destruct m as [n q]. simpl in *.
    destruct (Nat.eqb_spec (length q) BLOCK_CACHE_SIZE) as [Hfull|Hnfull].
    + destruct (free_slot_exists _ _ _ Hm) as [[idx e] Hfind]; [simpl; lia|]. simpl in Hfind. rewrite Hfind.
      apply list_find_Some in Hfind as (Hidx & Hr & _).
      destruct (evict_slot_ok _ _ _ _ _ _ Hm Hidx Hr) as (Hm' & Hv' & Hsub & Hd' & Hlen).
      assert (b ∉ ids (delete idx q)) as Hb' by (intros Hb; by apply Ef, Hsub).
      destruct (push_slot_ok _ _ _ _ _ Hm' Hb' ltac:(lia)) as [Hm'' Hv''].
      eexists _, _. split_and!; [done|exact Hm''| | | |exact Hd']; simpl.
      * rewrite fmap_app, elem_of_app. right. by left.
      * intros x. rewrite fmap_app, elem_of_app. intros [?|?%list_elem_of_singleton]; [left; by apply Hsub|by right].
      * intros x. by rewrite Hv''.
    + assert (length q < BLOCK_CACHE_SIZE)%nat as Hlt by (destruct Hm as (_ & _ & ? & _); simpl in *; lia).
      destruct (push_slot_ok _ _ _ _ _ Hm Ef Hlt) as [Hm'' Hv''].
      eexists _, _. split_and!; [done|exact Hm''| | |exact Hv''|done]; simpl.
      * rewrite fmap_app, elem_of_app. right. by left.
      * intros x. rewrite fmap_app, elem_of_app. intros [?|?%list_elem_of_singleton]; [by left|by right].
Qed.

(** ** Changing a slot *)

Lemma ids_update_slot b f q : (∀ e, slot_id (f e) = slot_id e) → ids (update_slot b f q) = ids q.
Proof.
  intros Hf. unfold update_slot. rewrite <- list_fmap_compose. apply list_fmap_ext. intros i e _. simpl.
  by case_decide.
Qed.

Lemma elem_of_update_slot b f q e' :
  e' ∈ update_slot b f q ↔ ∃ e, e ∈ q ∧ e' = if decide (slot_id e = b) then f e else e.
Proof. unfold update_slot. rewrite list_elem_of_fmap. naive_solver. Qed.

Lemma update_view b f q d x :
  NoDup (ids q) → (∀ e, slot_id (f e) = slot_id e) →
  queue_view (update_slot b f q) d x =
    match find_slot x q with
    | Some (_, e) => cache (slot_cache (if decide (x = b) then f e else e))
    | None => read_block x d
    end.
Proof.
  intros Hnd Hf. destruct (find_slot x q) as [[i e]|] eqn:E.
  - apply list_find_Some in E as (Hi & <- & _).
    set (e' := if decide (slot_id e = b) then f e else e).
    assert (slot_id e' = slot_id e) as Hid by (subst e'; case_decide; [apply Hf|done]).
    rewrite <- Hid at 1. apply queue_view_in; [by rewrite ids_update_slot|].
    apply elem_of_update_slot. exists e. split; [by eapply list_elem_of_lookup_2|done].
  - apply find_slot_None in E. apply queue_view_out. by rewrite ids_update_slot.
Qed.

(** Writing [c] into the slot of [b]. *)
Lemma write_slot_ok d n q K b c :
  manager_ok d (mkManager n q) K → b ∈ ids q → block_id c = b → block_wf (cache c) → modified c = true →
  let q' := update_slot b (λ e, mkSlot (slot_id e) c (slot_refs e) (slot_lock e)) q in
  manager_ok d (mkManager n q') K ∧ ids q' = ids q ∧
  ∀ x, queue_view q' d x = if decide (x = b) then cache c else queue_view q d x.
Proof.
  intros (Hs & Hnd & Hlen & Hok & HK & Hrefs) Hb Hc Hwf Hmod q'. simpl in *.
  assert (ids q' = ids q) as Hids by by apply ids_update_slot.
  split_and!; [|done|].
  - split_and!; simpl; rewrite ?Hids; [done|done|by subst q'; unfold update_slot; rewrite length_fmap| |done|].
    + rewrite Forall_forall in Hok |- *. intros e' (e & He & ->)%elem_of_update_slot.
      case_decide; [|by apply Hok]. split_and!; simpl; [congruence|done|by rewrite Hmod].
    + rewrite Forall_forall in Hrefs |- *. intros e' (e & He & ->)%elem_of_update_slot.
      case_decide; simpl; by apply Hrefs.
  - intros x. subst q'. rewrite update_view by done. unfold queue_view.
    destruct (find_slot x q) as [[i e]|] eqn:E; [by case_decide|].
    apply find_slot_None in E. rewrite decide_False; [done|]. by intros ->.
Qed.

(** Locking or unlocking the slot of [b]. *)
Lemma ref_slot_ok d n q K K' b (f : nat → nat) (g : bool → bool) :
  manager_ok d (mkManager n q) K → b ∈ ids q →
  (∀ x, length (filter (λ y, y = x) K'.*1) =
          if decide (x = b) then f (length (filter (λ y, y = x) K.*1)) else length (filter (λ y, y = x) K.*1)) →
  (∀ x, bool_decide ((x, true) ∈ K') =
          if decide (x = b) then g (bool_decide ((x, true) ∈ K)) else bool_decide ((x, true) ∈ K)) →
  Forall (λ y, y ∈ ids q) K'.*1 →
  let q' := update_slot b (λ e, mkSlot (slot_id e) (slot_cache e) (f (slot_refs e)) (g (slot_lock e))) q in
  manager_ok d (mkManager n q') K' ∧ ids q' = ids q ∧ ∀ x, queue_view q' d x = queue_view q d x.
Proof.
  intros (Hs & Hnd & Hlen & Hok & HK & Hrefs) Hb HK' Hlock Hin q'. simpl in *.
  assert (ids q' = ids q) as Hids by by apply ids_update_slot.
  split_and!; [|done|].
  - split_and!; simpl; rewrite ?Hids; [done|done|by subst q'; unfold update_slot; rewrite length_fmap| |done|].
    + rewrite Forall_forall in Hok |- *. intros e' (e & He & ->)%elem_of_update_slot.
      specialize (Hok e He). case_decide; exact Hok.
    + rewrite Forall_forall in Hrefs |- *. intros e' (e & He & ->)%elem_of_update_slot.
      destruct (Hrefs e He) as [Hr Hl]. destruct (decide (slot_id e = b)); simpl; rewrite HK', Hlock.
      * rewrite !decide_True by done. by rewrite Hr, Hl.
      * by rewrite !decide_False.
  - intros x. subst q'. rewrite update_view by done. unfold queue_view.
    destruct (find_slot x q) as [[i e]|]; [by case_decide|done].
Qed.

(** ** The disk *)

(** The disk holds the blocks [V]: those of [R] go through the metadata cache,
    the others through the data cache; the blocks [K] are held. *)
Definition disk_rep (R : Z → bool) V K s : Prop :=
  manager_ok (device s) (info s) K ∧ manager_ok (device s) (data s) [] ∧
  (∀ b, b ∈ ids (queue (info s)) → R b = true) ∧ (∀ b, b ∈ ids (queue (data s)) → R b = false) ∧
  ∀ b, V b = queue_view (queue (if R b then info s else data s)) (device s) b.

(** The cache that a block belongs to. *)
Definition region (R : Z → bool) (b : Z) : which := if R b then Info else Data.

Lemma view_other q d d' b :
  b ∈ ids q ∨ read_block b d' = read_block b d → queue_view q d' b = queue_view q d b.
Proof.
  intros Hb. unfold queue_view. destruct (find_slot b q) as [[i e]|] eqn:E; [done|].
  apply find_slot_None in E. destruct Hb as [?| ->]; done.
Qed.

Lemma manager_ok_other d d' m K :
  manager_ok d m K → (∀ b, b ∈ ids (queue m) → read_block b d' = read_block b d) → manager_ok d' m K.
Proof.
  intros (? & ? & ? & Hok & ? & ?) Hd. split_and!; try done.
  rewrite Forall_forall in Hok |- *. intros e He. apply (slot_ok_other d); [by apply Hok|].
  apply Hd, list_elem_of_fmap. eauto.
Qed.

(** Bringing a block into the cache it belongs to. *)
Lemma on_manager_get_ok R V K s b :
  disk_rep R V K s → (length K < BLOCK_CACHE_SIZE)%nat →
  ∃ s', on_manager (region R b) (Manager_get b) s = Done (tt, s') ∧ disk_rep R V K s' ∧
    b ∈ ids (queue (manager (region R b) s')).
Proof.
  intros (Hi & Hd & HRi & HRd & HV) HK. unfold region, on_manager, zoom, manager.
  destruct (R b) eqn:Eb.
  - destruct (Manager_get_ok _ _ _ b Hi HK) as (m' & d' & E & Hm' & Hin & Hids & Hview & Hout).
    rewrite E. eexists. split; [done|]. split; [|done].
    assert (∀ x, R x = false → read_block x d' = read_block x (device s)) as Hx.
    { intros x Hx. apply Hout. intros Hin'. apply HRi in Hin'. congruence. }
    split_and!; simpl; [done| | |done|].
    + apply (manager_ok_other (device s)); [done|]. intros x Hxd. by apply Hx, HRd.
    + intros x [?| ->]%Hids; [by apply HRi|done].
    + intros x. rewrite HV. destruct (R x) eqn:Ex; [by rewrite Hview|].
      symmetry. apply view_other. right. by apply Hx.
  - destruct (Manager_get_ok _ _ _ b Hd ltac:(unfold BLOCK_CACHE_SIZE; simpl; lia)) as (m' & d' & E & Hm' & Hin & Hids & Hview & Hout).
    rewrite E. eexists. split; [done|]. split; [|done].
    assert (∀ x, R x = true → read_block x d' = read_block x (device s)) as Hx.
    { intros x Hx. apply Hout. intros Hin'. apply HRd in Hin'. congruence. }
    split_and!; simpl; [|done|done| |].
    + apply (manager_ok_other (device s)); [done|]. intros x Hxd. by apply Hx, HRi.
    + intros x [?| ->]%Hids; [by apply HRd|done].
    + intros x. rewrite HV. destruct (R x) eqn:Ex; [|by rewrite Hview].
      symmetry. apply view_other. right. by apply Hx.
Qed.

Lemma disk_rep_wf R V K s b : disk_rep R V K s → block_wf (V b).
Proof.
  intros (Hi & Hd & _ & _ & HV). rewrite HV.
  assert (∀ m K', manager_ok (device s) m K' → block_wf (queue_view (queue m) (device s) b)) as Hw.
  { intros m K' (_ & Hnd & _ & Hok & _). unfold queue_view.
    destruct (find_slot b (queue m)) as [[i e]|] eqn:E; [|apply read_block_wf].
    apply list_find_Some in E as (Hi' & _). rewrite Forall_forall in Hok.
    by apply (Hok e (list_elem_of_lookup_2 _ _ _ Hi')). }
  destruct (R b); by eapply Hw.
Qed.

(** The locks on block [b]: data blocks are never locked across an operation. *)
Definition locks (R : Z → bool) K (b : Z) : list (Z * bool) := if R b then K else [].

Lemma locks_nil R b : locks R [] b = [].
Proof. unfold locks. by destruct (R b). Qed.

(** Blocks of [P] can be used: none of them is locked, and there is room for
    one more block beside the locked ones. *)
Definition usable (P : Z → Prop) K : Prop := (length K < BLOCK_CACHE_SIZE)%nat ∧ ∀ b, b ∈ K.*1 → ¬ P b.

Lemma usable_nil P : usable P [].
Proof. split; [unfold BLOCK_CACHE_SIZE; simpl; lia|]. intros b Hb. by apply not_elem_of_nil in Hb. Qed.

Lemma usable_mono P Q K : usable P K → (∀ b, Q b → P b) → usable Q K.
Proof. intros [HK HP] HPQ. split; [done|]. intros b Hb HQ. by apply (HP b Hb), HPQ. Qed.

Lemma usable_at P K b : usable P K → P b → usable (λ x, x = b) K.
Proof. intros HK Hb. apply (usable_mono P); [done|]. by intros x ->. Qed.

Lemma usable_write P K R b : usable P K → (R b = true → P b) → b ∉ (locks R K b).*1.
Proof.
  intros [_ HP] Hb Hin. unfold locks in Hin. destruct (R b); [by apply (HP b Hin), Hb|].
  by apply not_elem_of_nil in Hin.
Qed.

Lemma usable_read P K R b : usable P K → (R b = true → P b) → (b, true) ∉ locks R K b.
Proof.
  intros HK Hb Hin. apply (usable_write P K R b HK Hb), list_elem_of_fmap. by exists (b, true).
Qed.

Lemma disk_rep_manager R V K s b :
  disk_rep R V K s → b ∈ ids (queue (manager (region R b) s)) →
  ∃ e, Manager_read b (manager (region R b) s) = Some e ∧ slot_id e = b ∧ block_id (slot_cache e) = b ∧
    cache (slot_cache e) = V b ∧
    slot_refs e = length (filter (λ x, x = b) (locks R K b).*1) ∧ slot_lock e = bool_decide ((b, true) ∈ locks R K b).
Proof.
  intros (Hi & Hd & _ & _ & HV) Hin. rewrite HV. unfold Manager_read, region, manager, locks in *.
  assert (∀ m K', manager_ok (device s) m K' → b ∈ ids (queue m) →
    ∃ e, snd <$> find_slot b (queue m) = Some e ∧ slot_id e = b ∧ block_id (slot_cache e) = b ∧
      cache (slot_cache e) = queue_view (queue m) (device s) b ∧
      slot_refs e = length (filter (λ x, x = b) K'.*1) ∧ slot_lock e = bool_decide ((b, true) ∈ K')) as Hw.
  { intros m K' (_ & Hnd & _ & Hok & _ & Hrefs) Hin'. apply list_elem_of_fmap in Hin' as (e & -> & He).
    destruct (proj2 (find_slot_Some _ _ Hnd e) (conj He eq_refl)) as [i Ef]. rewrite Ef. exists e.
    rewrite Forall_forall in Hok, Hrefs. destruct (Hrefs e He) as [Hr Hl].
    split_and!; [done|done|by apply Hok|by rewrite queue_view_in|done|done]. }
  destruct (R b); by eapply Hw.
Qed.

Lemma get_cache_ok R V K s b mode :
  disk_rep R V K s → (length K < BLOCK_CACHE_SIZE)%nat → fits 64 b →
  ∃ e s', get_cache (region R b) b mode s = Done (e, s') ∧ disk_rep R V K s' ∧
    (slot_id e = b ∧ block_id (slot_cache e) = b ∧ cache (slot_cache e) = V b) ∧
    b ∈ ids (queue (manager (region R b) s')) ∧
    ((b, true) ∉ locks R K b → lock_read e s' = Done (tt, s')) ∧
    (b ∉ (locks R K b).*1 → lock_write e s' = Done (tt, s')).
Proof.
  intros Hs HK Hb. destruct (on_manager_get_ok _ _ _ _ b Hs HK) as (s' & E & Hs' & Hin).
  destruct (disk_rep_manager _ _ _ _ _ Hs' Hin) as (e & He & Hid & Hbid & Hc & Hr & Hl).
  exists e, s'. split_and!; try done.
  - unfold get_cache. erewrite bind_step; [|reflexivity].
    assert (start_sec (manager (region R b) s) ⊞ b = b) as ->.
    { destruct Hs as ((Hi & _) & (Hd & _) & _). unfold region, manager.
      destruct (R b); rewrite ?Hi, ?Hd; unfold wadd; by rewrite Z.add_0_l, wrap_small. }
    rewrite (bind_step _ _ _ _ _ E). erewrite bind_step; [|reflexivity]. by rewrite He.
  - intros Hn. unfold lock_read. rewrite Hl, bool_decide_eq_false_2; done.
  - intros Hn. unfold lock_write. by rewrite Hr, filter_none.
Qed.

(** [read] gives the bytes of the block. *)
Lemma read_cache_ok {X} R V K s b mode off n (f : list Z → X) :
  disk_rep R V K s → (length K < BLOCK_CACHE_SIZE)%nat → (b, true) ∉ locks R K b → fits 64 b → off + n ≤ 512 →
  ∃ s', read_cache (region R b) b mode off n f s = Done (f (slice (Z.to_nat off) (Z.to_nat n) (V b)), s') ∧
    disk_rep R V K s'.
Proof.
  intros Hs HK Hn Hb Hon.
  destruct (get_cache_ok _ _ _ _ _ mode Hs HK Hb) as (e & s' & E & Hs' & (_ & _ & Hc) & _ & Hlr & _).
  exists s'. split; [|done]. unfold read_cache. rewrite (bind_step _ _ _ _ _ E), (bind_step _ _ _ _ _ (Hlr Hn)).
  unfold BlockCache_read, BLOCK_SZ. rewrite (proj2 (Z.leb_le (off + n) 512)) by lia. by rewrite Hc.
Qed.

(** Storing into the slot of a block that is cached. *)
Lemma set_slot_ok R V K s b c :
  disk_rep R V K s → b ∈ ids (queue (manager (region R b) s)) →
  block_id c = b → block_wf (cache c) → modified c = true →
  ∃ s', set_slot (region R b) b (λ e, mkSlot (slot_id e) c (slot_refs e) (slot_lock e)) s = Done (tt, s') ∧
    disk_rep R (<[b := cache c]> V) K s' ∧ ids (queue (manager (region R b) s')) = ids (queue (manager (region R b) s)).
Proof.
  intros (Hi & Hd & HRi & HRd & HV) Hin Hbid Hwf Hmod. eexists. split; [reflexivity|].
  unfold region, manager in *. destruct (R b) eqn:Eb.
  - destruct (info s) as [n1 q1] eqn:Ei. simpl in *.
    destruct (write_slot_ok _ _ _ _ _ c Hi Hin Hbid Hwf Hmod) as (Hi' & Hids & Hview).
    split; [|done]. split_and!; simpl; [done|done|by rewrite Hids|done|].
    intros x. destruct (decide (x = b)) as [->|Hx].
    + rewrite fn_lookup_insert, Eb, Hview. by rewrite decide_True.
    + rewrite fn_lookup_insert_ne, HV by done. destruct (R x); [|done].
      rewrite Hview. by rewrite decide_False.
  - destruct (data s) as [n1 q1] eqn:Ei. simpl in *.
    destruct (write_slot_ok _ _ _ _ _ c Hd Hin Hbid Hwf Hmod) as (Hi' & Hids & Hview).
    split; [|done]. split_and!; simpl; [done|done|done|by rewrite Hids|].
    intros x. destruct (decide (x = b)) as [->|Hx].
    + rewrite fn_lookup_insert, Eb, Hview. by rewrite decide_True.
    + rewrite fn_lookup_insert_ne, HV by done. destruct (R x); [done|].
      rewrite Hview. by rewrite decide_False.
Qed.

(** [modify] changes the bytes of the block and nothing else. *)
Lemma modify_cache_ok {X} R V K s b mode off n (f : list Z → list Z * X) :
  disk_rep R V K s → (length K < BLOCK_CACHE_SIZE)%nat → b ∉ (locks R K b).*1 → fits 64 b →
  0 ≤ off → 0 ≤ n → off + n ≤ 512 →
  (∀ l, length l = Z.to_nat n → Forall is_byte l → length (f l).1 = Z.to_nat n ∧ Forall is_byte (f l).1) →
  let r := f (slice (Z.to_nat off) (Z.to_nat n) (V b)) in
  ∃ s', modify_cache (region R b) b mode off n f s = Done (r.2, s') ∧
    disk_rep R (<[b := splice (Z.to_nat off) r.1 (V b)]> V) K s'.
Proof.
  intros Hs HK Hn Hb Ho Hn0 Hon Hf r.
  destruct (get_cache_ok _ _ _ _ _ mode Hs HK Hb) as (e & s1 & E & Hs1 & (Hid & Hbid & Hc) & Hin & _ & Hlw).
  destruct (disk_rep_wf _ _ _ _ b Hs1) as [Hlen Hbytes].
  destruct (Hf (slice (Z.to_nat off) (Z.to_nat n) (V b))) as [Hl Hby];
    [rewrite length_slice by lia; lia|by apply Forall_slice|]. fold r in Hl, Hby.
  set (c := mkBlockCache (splice (Z.to_nat off) r.1 (V b)) b true (time_stamp (slot_cache e))).
  destruct (set_slot_ok R V K s1 b c Hs1 Hin eq_refl) as (s2 & E2 & Hs2 & _); [|done|].
  { split; simpl; [rewrite length_splice by lia; done|by apply Forall_splice]. }
  exists s2. split; [|done].
  unfold modify_cache. rewrite (bind_step _ _ _ _ _ E), (bind_step _ _ _ _ _ (Hlw Hn)). unfold BlockCache_modify, BLOCK_SZ.
  rewrite (proj2 (Z.leb_le (off + n) 512)) by lia. rewrite Hc, Hbid, Hid. fold r.
  rewrite (surjective_pairing r). erewrite bind_step; [|reflexivity]. cbn iota beta.
  fold c. by rewrite (bind_step _ _ _ _ _ E2).
Qed.

(** Locking and unlocking a metadata block. *)
Lemma acquire_ok R V K s b excl :
  disk_rep R V K s → b ∈ ids (queue (info s)) →
  ∃ s', acquire b excl s = Done (tt, s') ∧ disk_rep R V ((b, excl) :: K) s'.
Proof.
  intros (Hi & Hd & HRi & HRd & HV) Hb. eexists. split; [reflexivity|].
  pose proof Hi as (_ & _ & _ & _ & HK & _). destruct (info s) as [n q] eqn:Ei. simpl in *.
  destruct (ref_slot_ok _ _ _ _ ((b, excl) :: K) b S (λ l, l || excl) Hi Hb) as (Hi' & Hids & Hview); [| |by constructor|].
  { intros x. rewrite fmap_cons, filter_cons. simpl. destruct (decide (b = x)), (decide (x = b)); subst; done. }
  { intros x. rewrite (bool_decide_ext _ ((x = b ∧ excl = true) ∨ (x, true) ∈ K)).
    2:{ rewrite elem_of_cons. naive_solver. }
    rewrite bool_decide_or, bool_decide_and. destruct (decide (x = b)) as [->|Hx].
    - rewrite (bool_decide_eq_true_2 (b = b)) by done. simpl. rewrite orb_comm. f_equal. by destruct excl.
    - by rewrite (bool_decide_eq_false_2 (x = b)). }
  split_and!; simpl; rewrite ?Ei; simpl; [done|done|by rewrite Hids|done|].
  intros x. rewrite HV. destruct (R x); [by rewrite Hview|done].
Qed.

Lemma release_ok R V K s b excl :
  disk_rep R V ((b, excl) :: K) s → (excl = true → b ∉ K.*1) →
  ∃ s', release b excl s = Done (tt, s') ∧ disk_rep R V K s'.
Proof.
  intros (Hi & Hd & HRi & HRd & HV) Hex. eexists. split; [reflexivity|].
  pose proof Hi as (_ & _ & _ & _ & HK & _). destruct (info s) as [n q] eqn:Ei. simpl in *.
  apply Forall_cons in HK as [Hb HK].
  destruct (ref_slot_ok _ _ _ _ K b pred (λ l, l && negb excl) Hi Hb) as (Hi' & Hids & Hview); [| |done|].
  { intros x. rewrite fmap_cons, filter_cons. simpl. destruct (decide (b = x)), (decide (x = b)); subst; done. }
  { intros x. rewrite (bool_decide_ext ((x, true) ∈ (b, excl) :: K) ((x = b ∧ excl = true) ∨ (x, true) ∈ K)).
    2:{ rewrite elem_of_cons. naive_solver. }
    destruct (decide (x = b)) as [->|Hx]; [destruct excl|].
    - rewrite andb_false_r. apply bool_decide_eq_false. intros Hin. apply (Hex eq_refl), list_elem_of_fmap. by exists (b, true).
    - rewrite andb_true_r. apply bool_decide_ext. naive_solver.
    - apply bool_decide_ext. naive_solver. }
  split_and!; simpl; rewrite ?Ei; simpl; [done|done|by rewrite Hids|done|].
  intros x. rewrite HV. destruct (R x); [by rewrite Hview|done].
Qed.

Lemma disk_rep_ext R V V' K s : disk_rep R V K s → (∀ b, V' b = V b) → disk_rep R V' K s.
Proof. intros (? & ? & ? & ? & HV) E. split_and!; try done. intros b. by rewrite E, HV. Qed.

Lemma begin_read_ok R V K s b mode off n :
  disk_rep R V K s → (length K < BLOCK_CACHE_SIZE)%nat → R b = true → (b, true) ∉ K → fits 64 b → off + n ≤ 512 →
  ∃ s1, begin_read b mode off n s = Done ((b, slice (Z.to_nat off) (Z.to_nat n) (V b)), s1) ∧
    disk_rep R V ((b, false) :: K) s1.
Proof.
  intros Hs HK HR Hn Hb Hon.
  destruct (get_cache_ok _ _ _ _ _ mode Hs HK Hb) as (e & s' & E & Hs' & (Hid & _ & Hc) & Hin & Hlr & _).
  unfold locks in Hlr. unfold region, manager in E, Hin. rewrite HR in E, Hin, Hlr.
  destruct (acquire_ok R V K s' b false Hs' Hin) as (s1 & E1 & Hs1).
  exists s1. split; [|done]. unfold begin_read. rewrite (bind_step _ _ _ _ _ E), (bind_step _ _ _ _ _ (Hlr Hn)).
  unfold BlockCache_read, BLOCK_SZ. rewrite (proj2 (Z.leb_le (off + n) 512)) by lia. rewrite Hc, Hid.
  erewrite bind_step; [|reflexivity]. by rewrite (bind_step _ _ _ _ _ E1).
Qed.

Lemma begin_modify_ok R V K s b mode off n :
  disk_rep R V K s → (length K < BLOCK_CACHE_SIZE)%nat → R b = true → b ∉ K.*1 → fits 64 b →
  0 ≤ off → 0 ≤ n → off + n ≤ 512 →
  ∃ s1, begin_modify b mode off n s = Done ((b, slice (Z.to_nat off) (Z.to_nat n) (V b)), s1) ∧
    disk_rep R V ((b, true) :: K) s1.
Proof.
  intros Hs HK HR Hn Hb Ho Hn0 Hon.
  destruct (get_cache_ok _ _ _ _ _ mode Hs HK Hb) as (e & s' & E & Hs' & (Hid & Hbid & Hc) & Hin & _ & Hlw).
  pose proof (disk_rep_wf _ _ _ _ b Hs') as Hwf. destruct (Hwf) as [Hlen _].
  set (l := slice (Z.to_nat off) (Z.to_nat n) (V b)).
  assert (splice (Z.to_nat off) l (V b) = V b) as Espl.
  { subst l. unfold slice, splice. rewrite length_take, length_drop, Nat.min_l by lia.
    rewrite <- drop_drop, take_drop. apply take_drop. }
  set (c := mkBlockCache (V b) b true (time_stamp (slot_cache e))).
  destruct (set_slot_ok R V K s' b c Hs' Hin eq_refl Hwf eq_refl) as (s0 & E0 & Hs0 & Hids).
  unfold locks in Hlw. unfold region, manager in E, E0, Hin, Hids. rewrite HR in E, E0, Hin, Hids, Hlw. rewrite <- Hids in Hin.
  assert (disk_rep R V K s0) as Hs0'.
  { apply (disk_rep_ext _ _ _ _ _ Hs0). intros x. subst c. simpl. destruct (decide (x = b)) as [->|Hx];
      [by rewrite fn_lookup_insert|by rewrite fn_lookup_insert_ne]. }
  destruct (acquire_ok R V K s0 b true Hs0' Hin) as (s1 & E1 & Hs1). exists s1. split; [|done].
  unfold begin_modify. rewrite (bind_step _ _ _ _ _ E), (bind_step _ _ _ _ _ (Hlw Hn)).
  unfold BlockCache_modify, BLOCK_SZ. rewrite (proj2 (Z.leb_le (off + n) 512)) by lia. rewrite Hc, Hid, Hbid. fold l.
  rewrite Espl. fold c. erewrite bind_step; [|reflexivity]. cbn iota beta.
  by rewrite (bind_step _ _ _ _ _ E0), (bind_step _ _ _ _ _ E1).
Qed.

(** Dropping a whole queue writes it to the device. *)
Lemma drop_queue_ok q d x :
  NoDup (ids q) → Forall (slot_ok d) q →
  read_block x (foldl (λ d e, (sync (slot_cache e) d).2) d q) = queue_view q d x.
Proof.
  revert d. induction q as [|e q IH]; intros d Hnd Hok; [done|]. cbn [foldl].
  pose proof Hnd as [Hnin Hnd']%NoDup_cons. apply Forall_cons in Hok as [He Hok].
  rewrite IH; [|done|].
  2:{ rewrite Forall_forall in Hok |- *. intros e' He'. apply (slot_ok_other d); [by apply Hok|].
      rewrite sync_read by done. rewrite decide_False; [done|]. intros E. apply Hnin. rewrite <- E.
      apply list_elem_of_fmap. eauto. }
  destruct (decide (x = slot_id e)) as [->|Hx].
  - rewrite queue_view_out by done. rewrite sync_read, decide_True by done.
    symmetry. apply queue_view_in; [done|by left].
  - apply queue_view_ext; [done|done| |].
    + intros e' He' <-. apply elem_of_cons in He' as [->|]; [done|]. eauto.
    + intros Hnx. rewrite queue_view_out by (intros Hq; apply Hnx; by right).
      rewrite sync_read by done. by rewrite decide_False.
Qed.

(** After [write_to_dev] the device itself holds the blocks, and every block
    may be taken up by either cache. *)
Lemma write_to_dev_ok R V s :
  disk_rep R V [] s →
  ∃ s', write_to_dev s = Done (tt, s') ∧ (∀ R', disk_rep R' V [] s') ∧ ∀ b, read_block b (device s') = V b.
Proof.
  intros (Hi & Hd & HRi & HRd & HV). eexists. split; [reflexivity|]. unfold drop_all.
  set (d1 := foldl _ (device s) (queue (info s))). set (d2 := foldl _ d1 (queue (data s))). cbn iota beta.
  destruct Hi as (Hi0 & Hnd & _ & Hok & _), Hd as (Hd0 & Hnd' & _ & Hok' & _).
  assert (∀ x, read_block x d1 = queue_view (queue (info s)) (device s) x) as H1.
  { intros x. by apply drop_queue_ok. }
  assert (∀ x, R x = false → read_block x d1 = read_block x (device s)) as H1'.
  { intros x Hx. rewrite H1. apply queue_view_out. intros Hin%HRi. congruence. }
  assert (∀ b, read_block b d2 = V b) as Hdev.
  { intros b. subst d2. rewrite drop_queue_ok; [|done|].
    - rewrite HV. destruct (R b) eqn:Eb.
      + rewrite <- H1. apply queue_view_out. intros Hin%HRd. congruence.
      + apply view_other. right. by apply H1'.
    - rewrite Forall_forall in Hok' |- *. intros e He. apply (slot_ok_other (device s)); [by apply Hok'|].
      apply H1', HRd, list_elem_of_fmap. eauto. }
  split; [|done]. intros R'. split_and!; simpl.
  - split_and!; simpl; [done|apply NoDup_nil_2|unfold BLOCK_CACHE_SIZE; lia|constructor..].
  - split_and!; simpl; [done|apply NoDup_nil_2|unfold BLOCK_CACHE_SIZE; lia|constructor..].
  - intros b Hb. by apply not_elem_of_nil in Hb.
  - intros b Hb. by apply not_elem_of_nil in Hb.
  - intros b. rewrite <- Hdev. by destruct (R' b).
Qed.

(** ** Properties *)

(** C12. The caches are transparent: whatever is cached, reading bytes of a
    block gives the bytes of the disk, modifying them changes these bytes of
    this block and nothing else, with write-backs and evictions on the way, and
    after [write_to_dev] the device holds exactly the blocks. *)
Theorem block_cache_transparent R V s b off n new :
  disk_rep R V [] s → fits 64 b → 0 ≤ off → 0 ≤ n → off + n ≤ 512 →
  length new = Z.to_nat n → Forall is_byte new →
  (∃ s', read_cache (region R b) b READ off n (λ l, l) s =
           Done (slice (Z.to_nat off) (Z.to_nat n) (V b), s') ∧ disk_rep R V [] s') ∧
  (∃ s', modify_cache (region R b) b WRITE off n (λ _, (new, tt)) s = Done (tt, s') ∧
         disk_rep R (<[b := splice (Z.to_nat off) new (V b)]> V) [] s') ∧
  (∃ s', write_to_dev s = Done (tt, s') ∧ ∀ x, read_block x (device s') = V x).
Proof.
  intros Hs Hb Ho Hn Hon Hlen Hby. split_and!.
  - apply (read_cache_ok R V [] s b READ off n (λ l, l) Hs); [unfold BLOCK_CACHE_SIZE; simpl; lia| |done|done].
    rewrite locks_nil. apply not_elem_of_nil.
  - apply (modify_cache_ok R V [] s b WRITE off n (λ _, (new, tt)) Hs); try done; [unfold BLOCK_CACHE_SIZE; simpl; lia|].
    rewrite locks_nil. apply not_elem_of_nil.
  - destruct (write_to_dev_ok R V s Hs) as (s' & E & _ & Hd). eauto.
Qed.

End transparent.

(** ** A device in memory *)

Definition zero_block : list Z := replicate 512 0.

Definition block_ok (l : list Z) : bool := (length l =? 512)%nat && forallb (λ x, (0 <=? x) && (x <? 256)) l.

Lemma block_ok_wf l : block_ok l = true ↔ block_wf l.
Proof.
  unfold block_ok, block_wf. rewrite andb_true_iff, Nat.eqb_eq, forallb_forall, Forall_forall.
  unfold fits. split; intros [? Hl]; (split; [done|]); intros x Hx.
  - apply list_elem_of_In in Hx. specialize (Hl x Hx). lia.
  - apply list_elem_of_In in Hx. specialize (Hl x Hx). lia.
Qed.

#[global] Instance ram_disk : BlockDevice (gmap Z (list Z)) := {
  read_block b d := match d !! b with Some l => if block_ok l then l else zero_block | None => zero_block end;
  write_block b l d := <[b := l]> d;
}.

Lemma zero_block_wf : block_wf zero_block.
Proof. by apply block_ok_wf. Qed.

#[global] Instance ram_disk_laws : BlockDeviceLaws (gmap Z (list Z)).
Proof.
  split.
  - intros b d. simpl. destruct (d !! b) as [l|]; [|apply zero_block_wf].
    destruct (block_ok l) eqn:E; [by apply block_ok_wf|apply zero_block_wf].
  - intros b b' l d Hl. simpl. case_decide as Hb.
    + subst. rewrite lookup_insert_eq. by rewrite (proj2 (block_ok_wf l) Hl).
    + by rewrite lookup_insert_ne.
Qed.

(** Empty caches represent the device. *)
Definition fresh_disk {D} (d : D) : disk D := mkDisk BlockCacheManager_new BlockCacheManager_new d.

Lemma fresh_disk_rep {D} `{BlockDeviceLaws D} R (d : D) : disk_rep R (λ b, read_block b d) [] (fresh_disk d).
Proof.
  split_and!; simpl.
  - split_and!; simpl; [done|apply NoDup_nil_2|unfold BLOCK_CACHE_SIZE; lia|constructor..].
  - split_and!; simpl; [done|apply NoDup_nil_2|unfold BLOCK_CACHE_SIZE; lia|constructor..].
  - intros b Hb. by apply not_elem_of_nil in Hb.
  - intros b Hb. by apply not_elem_of_nil in Hb.
  - intros b. by destruct (R b).
Qed.

Lemma block_cache_transparent_witness :
  ∃ s' : disk (gmap Z (list Z)),
    modify_cache Info 7 WRITE 4 2 (λ _, ([1; 2], tt)) (fresh_disk ∅) = Done (tt, s') ∧
    disk_rep (λ _, true) (<[7 := splice 4 [1; 2] zero_block]> (λ b, read_block b ∅)) [] s'.
Proof.
  destruct (block_cache_transparent (λ _, true) _ _ 7 4 2 [1; 2] (fresh_disk_rep (λ _, true) ∅))
    as (_ & H & _); [unfold fits; lia|lia|lia|lia|done|repeat constructor; unfold fits; lia|].
  exact H.
Defined.
