(* ===== verification/Fat.v ===== *)
(** * The file allocation table (fat32/src/layout.rs [FatBS], [FatExtBS],
    [FSInfo], [FAT]; fat32/src/fat.rs [FAT32Manager])

    Cluster chains in the two copies of the table, the free-cluster counters,
    and the allocation of clusters, all through the block cache. *)

From S2P Require Import Prelude BlockCache.

Definition LEAD_SIGNATURE : Z := 0x41615252.
Definition SECOND_SIGNATURE : Z := 0x61417272.
Definition FREE_CLUSTER : Z := 0x00000000.
Definition END_CLUSTER : Z := 0x0FFFFFF8.
Definition BAD_CLUSTER : Z := 0x0FFFFFF7.
Definition FATENTRY_PER_SEC : Z := BLOCK_SZ / 4.

(** ** Boot sector *)

Record FatBS := mkFatBS {
  bs_bytes_per_sector : Z;
  bs_sectors_per_cluster : Z;
  bs_reserved_sector_count : Z;
  bs_table_count : Z;
  bs_total_sectors_16 : Z;
  bs_total_sectors_32 : Z;
}.

(** The field of [n] bytes at [off]. *)
Definition field (off n : nat) (l : list Z) : Z := le_val (slice off n l).

Definition FatBS_of (l : list Z) : FatBS :=
  mkFatBS (field 11 2 l) (field 13 1 l) (field 14 2 l) (field 16 1 l) (field 19 2 l) (field 32 4 l).

Definition total_sectors (bs : FatBS) : Z :=
  if bs_total_sectors_16 bs =? 0 then bs_total_sectors_32 bs else bs_total_sectors_16 bs.
Definition first_fat_sector (bs : FatBS) : Z := bs_reserved_sector_count bs.

Record FatExtBS := mkFatExtBS { ebs_table_size_32 : Z; ebs_root_clusters : Z; ebs_fat_info : Z }.

Definition FatExtBS_of (l : list Z) : FatExtBS := mkFatExtBS (field 0 4 l) (field 8 4 l) (field 12 2 l).
Definition fat_size (e : FatExtBS) : Z := ebs_table_size_32 e.
Definition fat_info_sec (e : FatExtBS) : Z := ebs_fat_info e.

(** ** The table *)

Record FAT := mkFAT { fat1_sector : Z; fat2_sector : Z; n_sectors : Z; n_entry : Z }.

Definition calculate_pos (fat : FAT) (cluster : Z) : Z * Z * Z :=
  (fat1_sector fat ⊞₃₂ (cluster / FATENTRY_PER_SEC), fat2_sector fat ⊞₃₂ (cluster / FATENTRY_PER_SEC),
   4 ⊠₃₂ (cluster mod FATENTRY_PER_SEC)).

(** The turns of the search loops: no more than the table has entries. *)
Definition fat_fuel (fat : FAT) : nat := S (Z.to_nat (n_entry fat)).

Section ops.
Context {D : Type} `{BlockDevice D}.

Abbreviation M := (ST (disk D)).

(** A [u32] of a metadata block. *)
Definition info_u32 (sec off : Z) : M Z := read_cache Info sec READ off 4 le_val.
Definition set_info_u32 (sec off v : Z) : M unit := modify_cache Info sec WRITE off 4 (λ _, (le_bytes 4 v, tt)).

(** A turn of the search: the body of the loop. *)
Definition free_body (fat : FAT) (curr_cluster : Z) : M (Z + Z) :=
  let '(fat1_sec, _, offset) := calculate_pos fat curr_cluster in
  entry_val ← info_u32 fat1_sec offset;
  mret (if entry_val =? FREE_CLUSTER then inr (Z.land curr_cluster 0x0FFFFFFF)
        else inl (curr_cluster ⊞₃₂ 1)).
Definition next_free_cluster (fat : FAT) (current_cluster : Z) : M Z :=
  loop (fat_fuel fat) (free_body fat) (current_cluster ⊞₃₂ 1).

Definition get_next_cluster (fat : FAT) (cluster : Z) : M Z :=
  let '(fat1_sec, fat2_sec, offset) := calculate_pos fat cluster in
  fat1_rs ← info_u32 fat1_sec offset;
  fat2_rs ← info_u32 fat2_sec offset;
  mret (if fat1_rs =? BAD_CLUSTER then
          if fat2_rs =? BAD_CLUSTER then 0 else Z.land fat2_rs 0x0FFFFFFF
        else Z.land fat1_rs 0x0FFFFFFF).

Definition set_next_cluster (fat : FAT) (cluster next_cluster : Z) : M unit :=
  let '(fat1_sec, fat2_sec, offset) := calculate_pos fat cluster in
  set_info_u32 fat1_sec offset next_cluster;;
  set_info_u32 fat2_sec offset next_cluster.

Definition set_end (fat : FAT) (cluster : Z) : M unit := set_next_cluster fat cluster END_CLUSTER.

(** [for i in 0..index], with [break] at 0. *)
Fixpoint walk_clusters (fat : FAT) (index : nat) (cluster : Z) : M Z :=
  match index with
  | O => mret cluster
  | S index =>
      cluster ← get_next_cluster fat cluster;
      if cluster =? 0 then mret cluster else walk_clusters fat index cluster
  end.
Definition get_cluster_at (fat : FAT) (start_cluster index : Z) : M Z :=
  cluster ← walk_clusters fat (Z.to_nat index) start_cluster;
  mret (Z.land cluster 0x0FFFFFFF).

Definition final_body (fat : FAT) (curr_cluster : Z) : M (Z + Z) :=
  next_cluster ← get_next_cluster fat curr_cluster;
  mret (if (END_CLUSTER <=? next_cluster) || (next_cluster =? 0)
        then inr (Z.land curr_cluster 0x0FFFFFFF) else inl next_cluster).
Definition final_cluster (fat : FAT) (start_cluster : Z) : M Z :=
  rassert (negb (start_cluster =? 0));;
  loop (fat_fuel fat) (final_body fat) start_cluster.

Definition all_body (fat : FAT) '((curr_cluster, v_cluster) : Z * list Z) : M (Z * list Z + list Z) :=
  let v_cluster := v_cluster ++ [Z.land curr_cluster 0x0FFFFFFF] in
  next_cluster ← get_next_cluster fat curr_cluster;
  mret (if (END_CLUSTER <=? next_cluster) || (next_cluster =? 0)
        then inr v_cluster else inl (next_cluster, v_cluster)).
Definition get_all_cluster_of (fat : FAT) (start_cluster : Z) : M (list Z) :=
  loop (fat_fuel fat) (all_body fat) (start_cluster, []).

Definition count_body (fat : FAT) '((curr_cluster, count) : Z * Z) : M (Z * Z + Z) :=
  let count := count ⊞₃₂ 1 in
  next_cluster ← get_next_cluster fat curr_cluster;
  mret (if (END_CLUSTER <=? next_cluster) || (0xF000000 <? next_cluster)
        then inr count else inl (next_cluster, count)).
Definition count_claster_num (fat : FAT) (start_cluster : Z) : M Z :=
  if start_cluster =? 0 then mret 0
  else loop (fat_fuel fat) (count_body fat) (start_cluster, 0).

(** ** FSInfo: the sector with the free-cluster counters *)

Definition check_lead_signature (sec : Z) : M bool := v ← info_u32 sec 0; mret (v =? LEAD_SIGNATURE).
Definition check_another_signature (sec : Z) : M bool := v ← info_u32 sec 484; mret (v =? SECOND_SIGNATURE).
Definition check_signature (sec : Z) : M bool :=
  b ← check_lead_signature sec;
  if b : bool then check_another_signature sec else mret false.
Definition read_free_clusters (sec : Z) : M Z := info_u32 sec 488.
Definition write_free_clusters (sec free_clusters : Z) : M unit := set_info_u32 sec 488 free_clusters.
Definition first_free_cluster (sec : Z) : M Z := info_u32 sec 492.
Definition write_first_free_cluster (sec start_cluster : Z) : M unit := set_info_u32 sec 492 start_cluster.

End ops.

(** ** FAT32Manager *)

Record FAT32Manager := mkFat32 {
  fsinfo : Z;
  sectors_per_cluster : Z;
  bytes_per_sector : Z;
  bytes_per_cluster : Z;
  fat : FAT;
  root_sec : Z;
  fs_total_sectors : Z;
}.

Definition first_sector_of_cluster (fs : FAT32Manager) (cluster : Z) : Z :=
  ((cluster ⊟ 2) ⊠ sectors_per_cluster fs) ⊞ root_sec fs.

Definition size_to_clusters (fs : FAT32Manager) (size : Z) : Z :=
  ((size ⊞₃₂ bytes_per_cluster fs) ⊟₃₂ 1) / bytes_per_cluster fs.

Definition cluster_of_offset (fs : FAT32Manager) (offset : Z) : Z := wrap 32 offset / bytes_per_cluster fs.

Section manager.
Context {D : Type} `{BlockDevice D}.

Abbreviation M := (ST (disk D)).

(** [FAT32Manager::open], without the entry of the root directory. *)
Definition open : M FAT32Manager :=
  set_start_sec 0;;
  boot_sec ← read_cache Info 0 READ 0 36 FatBS_of;
  ext_boot_sec ← read_cache Info 0 READ 36 31 FatExtBS_of;
  let sec := fat_info_sec ext_boot_sec in
  ok ← check_signature sec;
  rassert ok;;
  let fat_n_sec := fat_size ext_boot_sec in
  let fat1 := first_fat_sector boot_sec in
  let fat2 := fat1 ⊞₃₂ fat_n_sec in
  let fat_n_entry := (fat_n_sec ⊠₃₂ bs_bytes_per_sector boot_sec) / 4 in
  mret (mkFat32 sec (bs_sectors_per_cluster boot_sec) (bs_bytes_per_sector boot_sec)
          (bs_sectors_per_cluster boot_sec ⊠₃₂ bs_bytes_per_sector boot_sec)
          (mkFAT fat1 fat2 fat_n_sec fat_n_entry)
          ((bs_table_count boot_sec ⊠₃₂ fat_n_sec) ⊞₃₂ bs_reserved_sector_count boot_sec)
          (total_sectors boot_sec)).

Definition free_clusters (fs : FAT32Manager) : M Z := read_free_clusters (fsinfo fs).

Definition clear_cluster (fs : FAT32Manager) (cluster_id : Z) : M unit :=
  let start_sec := first_sector_of_cluster fs cluster_id in
  for_each (zrange 0 (sectors_per_cluster fs)) (λ i,
    modify_cache Data (start_sec ⊞ i) WRITE 0 512 (λ _, (replicate 512 0, tt))).

(** The body of the loop of [alloc_cluster]. *)
Definition alloc_body (fs : FAT32Manager) (current_cluster _i : Z) : M Z :=
  clear_cluster fs current_cluster;;
  next_cluster ← next_free_cluster (fat fs) current_cluster;
  rassert (negb (next_cluster =? 0));;
  set_next_cluster (fat fs) current_cluster next_cluster;;
  mret next_cluster.

Definition alloc_cluster (fs : FAT32Manager) (num : Z) : M (option Z) :=
  free ← free_clusters fs;
  if free <? num then mret None
  else
    prev_cluster ← first_free_cluster (fsinfo fs);
    first_cluster ← next_free_cluster (fat fs) prev_cluster;
    current_cluster ← for_fold (zrange 1 num) first_cluster (alloc_body fs);
    clear_cluster fs current_cluster;;
    set_end (fat fs) current_cluster;;
    write_free_clusters (fsinfo fs) (free ⊟₃₂ num);;
    write_first_free_cluster (fsinfo fs) current_cluster;;
    write_to_dev;;
    mret (Some first_cluster).

Definition dealloc_cluster (fs : FAT32Manager) (clusters : list Z) : M unit :=
  free ← free_clusters fs;
  for_each clusters (λ c, set_next_cluster (fat fs) c FREE_CLUSTER);;
  match clusters with
  | [] => mret tt
  | c0 :: _ =>
      write_free_clusters (fsinfo fs) (free ⊞₃₂ Z.of_nat (length clusters));;
      if 2 <? c0 then
        hint ← first_free_cluster (fsinfo fs);
        if c0 <? hint then write_first_free_cluster (fsinfo fs) (c0 ⊟₃₂ 1) else mret tt
      else mret tt
  end.

Definition cluster_num_needed (fs : FAT32Manager) (old_size new_size : Z) (is_dir : bool) (first_cluster : Z) : M Z :=
  if new_size <=? old_size then mret 0
  else if is_dir then
    old_clusters ← count_claster_num (fat fs) first_cluster;
    mret (size_to_clusters fs new_size ⊟₃₂ old_clusters)
  else mret (size_to_clusters fs new_size ⊟₃₂ size_to_clusters fs old_size).

End manager.

(** ** The table as a map from clusters to entries *)

(** [b] is a sector of one of the two copies. *)
Definition fat_block (f : FAT) (b : Z) : Prop :=
  fat1_sector f ≤ b < fat1_sector f + n_sectors f ∨ fat2_sector f ≤ b < fat2_sector f + n_sectors f.

(** The copies follow each other in the metadata region, and the numbers of
    the clusters are below the reserved ones. *)
Record fat_layout (R : Z → bool) (f : FAT) : Prop := {
  fl_first : 0 ≤ fat1_sector f;
  fl_order : fat1_sector f + n_sectors f ≤ fat2_sector f;
  fl_last : fat2_sector f + n_sectors f < 2 ^ 32;
  fl_entries : n_entry f = 128 * n_sectors f;
  fl_small : 2 < n_entry f ≤ 0xF000000;
  fl_info b : fat_block f b → R b = true;
}.

(** The entry of cluster [c] in the copy that starts at sector [s0]. *)
Definition entry (V : Z → list Z) (s0 c : Z) : Z :=
  le_val (slice (Z.to_nat (4 * (c mod 128))) 4 (V (s0 + c / 128))).

(** Both copies hold the entries [E]. *)
Definition fat_rep (V : Z → list Z) (f : FAT) (E : Z → Z) : Prop :=
  ∀ c, 0 ≤ c < n_entry f → entry V (fat1_sector f) c = E c ∧ entry V (fat2_sector f) c = E c.

(** What [get_next_cluster] makes of an entry. *)
Definition next_of (e : Z) : Z := if e =? BAD_CLUSTER then 0 else Z.land e 0x0FFFFFFF.

Section table.
Context {D : Type} `{BlockDeviceLaws D}.
Context (R : Z → bool) (f : FAT) (HL : fat_layout R f).
Implicit Types (s : disk D) (V : Z → list Z) (K : list (Z * bool)) (E : Z → Z).

Lemma calculate_pos_ok c :
  0 ≤ c < n_entry f →
  calculate_pos f c = (fat1_sector f + c / 128, fat2_sector f + c / 128, 4 * (c mod 128)) ∧
  fat_block f (fat1_sector f + c / 128) ∧ fat_block f (fat2_sector f + c / 128) ∧
  0 ≤ 4 * (c mod 128) ∧ 4 * (c mod 128) + 4 ≤ 512.
Proof.
  intros Hc. pose proof (fl_entries _ _ HL). pose proof (fl_first _ _ HL). pose proof (fl_order _ _ HL).
  pose proof (fl_last _ _ HL). unfold calculate_pos, FATENTRY_PER_SEC, BLOCK_SZ. change (512 / 4) with 128.
  assert (0 ≤ c / 128 < n_sectors f) by zlia. assert (0 ≤ c mod 128 < 128) by zlia.
  rewrite !wadd_small by (unfold fits; lia). rewrite wmul_small by (unfold fits; lia).
  unfold fat_block. split_and!; try done; lia.
Qed.

Lemma fat_block_info b : fat_block f b → region R b = Info ∧ fits 64 b.
Proof.
  intros Hb. unfold region. rewrite (fl_info _ _ HL b Hb). split; [done|].
  pose proof (fl_first _ _ HL). pose proof (fl_order _ _ HL). pose proof (fl_last _ _ HL).
  unfold fits. destruct Hb; lia.
Qed.

(** A [u32] of a metadata block. *)
Lemma info_u32_ok V K s sec off :
  disk_rep R V K s → usable (λ b, b = sec) K → R sec = true → fits 64 sec → 0 ≤ off → off + 4 ≤ 512 →
  ∃ s', info_u32 sec off s = Done (le_val (slice (Z.to_nat off) 4 (V sec)), s') ∧ disk_rep R V K s'.
Proof.
  intros Hs HK HR Hsec Ho Hn.
  destruct (read_cache_ok R V K s sec READ off 4 le_val Hs (proj1 HK) (usable_read _ _ _ _ HK (λ _, eq_refl)) Hsec Hn) as (s' & E & Hs').
  unfold region in E. rewrite HR in E. eauto.
Qed.

(** ** Opening a volume *)

(** What [open] makes of the two parts of the boot sector. *)
Definition manager_of (bs : FatBS) (ext : FatExtBS) : FAT32Manager :=
  mkFat32 (fat_info_sec ext) (bs_sectors_per_cluster bs) (bs_bytes_per_sector bs)
    (bs_sectors_per_cluster bs ⊠₃₂ bs_bytes_per_sector bs)
    (mkFAT (first_fat_sector bs) (first_fat_sector bs ⊞₃₂ fat_size ext) (fat_size ext)
       ((fat_size ext ⊠₃₂ bs_bytes_per_sector bs) / 4))
    ((bs_table_count bs ⊠₃₂ fat_size ext) ⊞₃₂ bs_reserved_sector_count bs) (total_sectors bs).

(** The boot sector of the blocks [V] describes the volume [fs], and its FSInfo
    sector has the two signatures. *)
Definition formatted (V : Z → list Z) (fs : FAT32Manager) : Prop :=
  fs = manager_of (FatBS_of (slice 0 36 (V 0))) (FatExtBS_of (slice 36 31 (V 0))) ∧
  R 0 = true ∧ R (fsinfo fs) = true ∧ fits 64 (fsinfo fs) ∧
  le_val (slice 0 4 (V (fsinfo fs))) = LEAD_SIGNATURE ∧ le_val (slice 484 4 (V (fsinfo fs))) = SECOND_SIGNATURE.

Lemma set_start_ok V K s : disk_rep R V K s → ∃ s', set_start_sec 0 s = Done (tt, s') ∧ disk_rep R V K s'.
Proof.
  intros (Hi & Hd & HRi & HRd & HV). eexists. split; [reflexivity|].
  destruct s as [[si qi] [sd qd] dev]. split_and!; try done.
  - destruct Hi as (_ & Hi). by split.
  - destruct Hd as (_ & Hd). by split.
  - intros b. rewrite HV. by destruct (R b).
Qed.

Lemma open_ok V s fs :
  disk_rep R V [] s → formatted V fs → ∃ s', open s = Done (fs, s') ∧ disk_rep R V [] s'.
Proof.
  intros Hs (Hfs & HR0 & HRi & Hfi & Hs1 & Hs2). unfold open. destruct (set_start_ok V [] s Hs) as (s0 & E0 & Hd0).
  rewrite (bind_step _ _ _ _ _ E0). assert (region R 0 = Info) as Hreg by (unfold region; by rewrite HR0).
  destruct (read_cache_ok R V [] s0 0 READ 0 36 FatBS_of Hd0) as (s1 & E1 & Hd1);
    [simpl; unfold BLOCK_CACHE_SIZE; lia|unfold locks; case_match; apply not_elem_of_nil|unfold fits; lia|lia|].
  destruct (read_cache_ok R V [] s1 0 READ 36 31 FatExtBS_of Hd1) as (s2 & E2 & Hd2);
    [simpl; unfold BLOCK_CACHE_SIZE; lia|unfold locks; case_match; apply not_elem_of_nil|unfold fits; lia|lia|].
  rewrite Hreg in E1, E2. rewrite (bind_step _ _ _ _ _ E1), (bind_step _ _ _ _ _ E2).
  assert (fat_info_sec (FatExtBS_of (slice 36 31 (V 0))) = fsinfo fs) as Ei by (by rewrite Hfs).
  destruct (info_u32_ok V [] s2 (fsinfo fs) 0 Hd2 (usable_nil _) HRi Hfi) as (s3 & E3 & Hd3); [lia|lia|].
  destruct (info_u32_ok V [] s3 (fsinfo fs) 484 Hd3 (usable_nil _) HRi Hfi) as (s4 & E4 & Hd4); [lia|lia|].
  exists s4. split; [|done].
  change (Z.to_nat 36) with 36%nat. change (Z.to_nat 31) with 31%nat. change (Z.to_nat 0) with 0%nat in *. change (Z.to_nat 484) with 484%nat in E4.
  cbv zeta. rewrite Ei. unfold check_signature, check_lead_signature, check_another_signature.
  rewrite Hs1 in E3. rewrite Hs2 in E4.
  erewrite bind_step; [|erewrite bind_step; [|rewrite (bind_step _ _ _ _ _ E3); reflexivity]; cbv iota; change (LEAD_SIGNATURE =? LEAD_SIGNATURE) with true; cbv iota;
    rewrite (bind_step _ _ _ _ _ E4); reflexivity].
  erewrite bind_step by reflexivity. rewrite Hfs. reflexivity.
Qed.

Lemma set_info_u32_ok V K s sec off v :
  disk_rep R V K s → usable (λ b, b = sec) K → R sec = true → fits 64 sec → 0 ≤ off → off + 4 ≤ 512 →
  ∃ s', set_info_u32 sec off v s = Done (tt, s') ∧
    disk_rep R (<[sec := splice (Z.to_nat off) (le_bytes 4 v) (V sec)]> V) K s'.
Proof.
  intros Hs HK HR Hsec Ho Hn.
  destruct (modify_cache_ok R V K s sec WRITE off 4 (λ _, (le_bytes 4 v, tt)) Hs (proj1 HK)
    (usable_write _ _ _ _ HK (λ _, eq_refl)) Hsec) as (s' & E & Hs');
    [lia|lia|lia|intros l _ _; split; [apply length_le_bytes|apply le_bytes_is_byte]|].
  unfold region in E. rewrite HR in E. eauto.
Qed.

Lemma get_next_cluster_ok V K s E c :
  disk_rep R V K s → usable (fat_block f) K → fat_rep V f E → 0 ≤ c < n_entry f →
  ∃ s', get_next_cluster f c s = Done (next_of (E c), s') ∧ disk_rep R V K s'.
Proof.
  intros Hs HK HE Hc. destruct (calculate_pos_ok c Hc) as (Epos & H1 & H2 & Ho & Hn).
  destruct (fat_block_info _ H1) as [_ F1], (fat_block_info _ H2) as [_ F2].
  destruct (info_u32_ok V K s (fat1_sector f + c / 128) (4 * (c mod 128)) Hs (usable_at _ _ _ HK H1)) as (s1 & E1 & Hs1);
    [by apply (fl_info _ _ HL)|done|lia|lia|].
  destruct (info_u32_ok V K s1 (fat2_sector f + c / 128) (4 * (c mod 128)) Hs1 (usable_at _ _ _ HK H2)) as (s2 & E2 & Hs2);
    [by apply (fl_info _ _ HL)|done|lia|lia|].
  exists s2. split; [|done]. unfold get_next_cluster. rewrite Epos.
  rewrite (bind_step _ _ _ _ _ E1), (bind_step _ _ _ _ _ E2).
  destruct (HE c Hc) as [He1 He2]. unfold entry in He1, He2. rewrite He1, He2.
  unfold next_of, mret, st_ret. by destruct (E c =? BAD_CLUSTER).
Qed.

(** Writing an entry of one copy. *)
Lemma entry_write V (s0 c v : Z) c' :
  (∀ b, block_wf (V b)) → 0 ≤ c → 0 ≤ c' → fits 32 v →
  entry (<[s0 + c / 128 := splice (Z.to_nat (4 * (c mod 128))) (le_bytes 4 v) (V (s0 + c / 128))]> V) s0 c' =
    if decide (c' = c) then v else entry V s0 c'.
Proof.
  intros Hwf Hc Hc' [Hv0 Hv]. unfold entry. destruct (Hwf (s0 + c / 128)) as [Hlen _].
  destruct (decide (c' / 128 = c / 128)) as [Eq|Hne].
  - rewrite Eq, fn_lookup_insert. destruct (decide (c' = c)) as [->|Hcc].
    + replace 4%nat with (length (le_bytes 4 v)) at 1 by apply length_le_bytes.
      rewrite slice_splice_eq by (rewrite length_le_bytes, Hlen; zlia).
      rewrite le_val_le_bytes. apply Z.mod_small. change (256 ^ Z.of_nat 4) with (2 ^ 32). lia.
    + rewrite slice_splice_ne; [done|rewrite length_le_bytes, Hlen; zlia|rewrite length_le_bytes; zlia].
  - rewrite fn_lookup_insert_ne by lia. rewrite decide_False; [done|]. by intros ->.
Qed.

(** Writing a block outside a copy. *)
Lemma entry_other V (s0 c b : Z) blk : b ≠ s0 + c / 128 → entry (<[b := blk]> V) s0 c = entry V s0 c.
Proof. intros Hb. unfold entry. by rewrite fn_lookup_insert_ne. Qed.

Lemma fat_rep_other V E b blk : fat_rep V f E → ¬ fat_block f b → fat_rep (<[b := blk]> V) f E.
Proof.
  intros HE Hb c Hc. destruct (calculate_pos_ok c Hc) as (_ & H1 & H2 & _).
  rewrite !entry_other; [by apply HE| |]; by intros ->.
Qed.

Lemma fat_rep_ext V V' E : fat_rep V f E → (∀ b, fat_block f b → V' b = V b) → fat_rep V' f E.
Proof.
  intros HE HV c Hc. destruct (calculate_pos_ok c Hc) as (_ & H1 & H2 & _).
  unfold entry. rewrite !HV by done. by apply HE.
Qed.

Lemma set_next_cluster_ok V K s E c v :
  disk_rep R V K s → usable (fat_block f) K → fat_rep V f E → 0 ≤ c < n_entry f → fits 32 v →
  ∃ V' s', set_next_cluster f c v s = Done (tt, s') ∧ disk_rep R V' K s' ∧ fat_rep V' f (<[c := v]> E) ∧
    ∀ b, ¬ fat_block f b → V' b = V b.
Proof.
  intros Hs HK HE Hc Hv. destruct (calculate_pos_ok c Hc) as (Epos & H1 & H2 & Ho & Hn).
  destruct (fat_block_info _ H1) as [_ F1], (fat_block_info _ H2) as [_ F2].
  pose proof (fl_order _ _ HL). pose proof (fl_entries _ _ HL).
  destruct (set_info_u32_ok V K s (fat1_sector f + c / 128) (4 * (c mod 128)) v Hs (usable_at _ _ _ HK H1)) as (s1 & E1 & Hs1);
    [by apply (fl_info _ _ HL)|done|lia|lia|].
  set (V1 := <[fat1_sector f + c / 128 := _]> V) in Hs1.
  destruct (set_info_u32_ok V1 K s1 (fat2_sector f + c / 128) (4 * (c mod 128)) v Hs1 (usable_at _ _ _ HK H2)) as (s2 & E2 & Hs2);
    [by apply (fl_info _ _ HL)|done|lia|lia|].
  set (V2 := <[fat2_sector f + c / 128 := _]> V1) in Hs2.
  exists V2, s2. split_and!; [|done| |].
  - unfold set_next_cluster. rewrite Epos. by rewrite (bind_step _ _ _ _ _ E1).
  - assert (∀ c', 0 ≤ c' < n_entry f → 0 ≤ c' / 128 < n_sectors f) as Hsec by (intros; zlia).
    intros c' Hc'. pose proof (Hsec c Hc). pose proof (Hsec c' Hc'). destruct (HE c' Hc') as [He1 He2]. split.
    + subst V2. rewrite entry_other by lia. subst V1.
      rewrite entry_write by (done || lia || (intros b; by eapply disk_rep_wf)).
      case_decide as Ecc; [by rewrite Ecc, fn_lookup_insert|by rewrite fn_lookup_insert_ne].
    + subst V2. rewrite entry_write by (done || lia || (intros b; by eapply disk_rep_wf)).
      case_decide as Ecc; [by rewrite Ecc, fn_lookup_insert|]. rewrite fn_lookup_insert_ne by done.
      subst V1. by rewrite entry_other by lia.
  - intros b Hb. subst V2 V1. rewrite !fn_lookup_insert_ne; [done| |]; intros <-; by apply Hb.
Qed.

(** ** Chains *)

(** [l] is the chain of clusters that starts at [c]. *)
Inductive chain E : Z → list Z → Prop :=
| chain_last c : 2 ≤ c < n_entry f → END_CLUSTER ≤ next_of (E c) → chain E c [c]
| chain_cons c l :
    2 ≤ c < n_entry f → next_of (E c) < END_CLUSTER → chain E (next_of (E c)) l → chain E c (c :: l).

Lemma chain_head E c l : chain E c l → 2 ≤ c < n_entry f ∧ ∃ l', l = c :: l'.
Proof. destruct 1; eauto. Qed.

Lemma chain_valid E c l : chain E c l → Forall (λ x, 2 ≤ x < n_entry f) l.
Proof. induction 1; (apply Forall_cons; split; [done|]); [apply Forall_nil_2|done]. Qed.

Lemma chain_det E c l l' : chain E c l → chain E c l' → l = l'.
Proof.
  intros Hl. revert l'. induction Hl as [c Hc He|c l Hc He Hl IH]; intros l' Hl'; inversion Hl'; subst; try lia; [done|].
  f_equal. by apply IH.
Qed.

(** The rest of a chain is a chain. *)
Lemma chain_suffix E c l1 x l2 : chain E c (l1 ++ x :: l2) → chain E x (x :: l2).
Proof.
  revert c. induction l1 as [|y l1 IH]; intros c Hc; simpl in Hc.
  - by destruct (chain_head _ _ _ Hc) as (_ & l' & [= <- <-]).
  - inversion Hc; subst; [by destruct l1|]. by eapply IH.
Qed.

Lemma chain_NoDup E c l : chain E c l → NoDup l.
Proof.
  induction 1 as [c Hc He|c l Hc He Hl IH]; [apply NoDup_singleton|].
  constructor; [|done]. intros (l1 & l2 & ->)%list_elem_of_split.
  pose proof (chain_suffix _ _ _ _ _ Hl) as Hsuf.
  assert (c :: l1 ++ c :: l2 = c :: l2) as Heq by (eapply chain_det; [by apply chain_cons|done]).
  apply (f_equal length) in Heq. simpl in Heq. rewrite length_app in Heq. simpl in Heq. lia.
Qed.

(** A chain is no longer than the table, so the fuel suffices. *)
Lemma chain_length E c l : chain E c l → (length l < fat_fuel f)%nat.
Proof.
  intros Hl. unfold fat_fuel. apply Nat.lt_succ_r.
  replace (Z.to_nat (n_entry f)) with (length (zrange 0 (n_entry f))) by (rewrite length_zrange; lia).
  apply submseteq_length, NoDup_submseteq; [by eapply chain_NoDup|].
  intros x Hx. apply elem_of_zrange. apply chain_valid in Hl. rewrite Forall_forall in Hl. specialize (Hl x Hx). lia.
Qed.

(** Chains depend on the entries of their clusters only. *)
Lemma chain_ext E E' c l : chain E c l → (∀ x, x ∈ l → E' x = E x) → chain E' c l.
Proof.
  induction 1 as [c Hc He|c l Hc He Hl IH]; intros Hx.
  - constructor; [done|]. rewrite Hx by by left. done.
  - assert (E' c = E c) as Ec by (apply Hx; by left). constructor; [done|by rewrite Ec|].
    rewrite Ec. apply IH. intros x Hxl. apply Hx. by right.
Qed.

Lemma land28 c : 0 ≤ c < 2 ^ 28 → Z.land c 0x0FFFFFFF = c.
Proof. intros Hc. change 0x0FFFFFFF with (2 ^ 28 - 1). rewrite land_ones_mod by lia. apply Z.mod_small. lia. Qed.

Lemma cluster_land c : 0 ≤ c < n_entry f → Z.land c 0x0FFFFFFF = c.
Proof. intros Hc. pose proof (fl_small _ _ HL). apply land28. lia. Qed.

(** Where the walks stop. *)
Lemma chain_stop V K s E c l :
  disk_rep R V K s → usable (fat_block f) K → fat_rep V f E → chain E c l →
  ∃ s', get_next_cluster f c s = Done (next_of (E c), s') ∧ disk_rep R V K s' ∧
    match l with
    | [] => False
    | [x] => x = c ∧ END_CLUSTER ≤ next_of (E c)
    | x :: l' => x = c ∧ 2 ≤ next_of (E c) < n_entry f ∧ next_of (E c) < END_CLUSTER ∧ chain E (next_of (E c)) l'
    end.
Proof.
  intros Hs HK HE Hl. destruct (chain_head _ _ _ Hl) as [Hc _].
  destruct (get_next_cluster_ok V K s E c Hs HK HE ltac:(lia)) as (s' & E1 & Hs'). exists s'. split_and!; [done|done|].
  inversion Hl as [? ? He|? l' ? He Hl']; subst; [done|].
  destruct (chain_head _ _ _ Hl') as (Hn & l'' & ->). done.
Qed.

(** The three walks follow the chain. *)
Lemma get_all_loop V K E l : 
  usable (fat_block f) K → fat_rep V f E → ∀ c s acc fuel,
  disk_rep R V K s → chain E c l → (length l ≤ fuel)%nat →
  ∃ s', loop fuel (all_body f) (c, acc) s = Done (acc ++ l, s') ∧ disk_rep R V K s'.
Proof.
  intros HK HE. induction l as [|x l IH]; intros c s acc fuel Hs Hl Hfuel;
    destruct (chain_stop V K s E c _ Hs HK HE Hl) as (s1 & E1 & Hs1 & Hstop); [done|].
  destruct (chain_head _ _ _ Hl) as [Hc _]. simpl in Hfuel. destruct fuel as [|fuel]; [lia|].
  destruct l as [|y l].
  - destruct Hstop as [-> He]. exists s1. split; [|done]. apply loop_exit.
    unfold all_body. rewrite (bind_step _ _ _ _ _ E1). rewrite (proj2 (Z.leb_le _ _) He), cluster_land by lia. done.
  - destruct Hstop as (-> & Hn & He & Hl').
    destruct (IH _ s1 (acc ++ [c]) fuel Hs1 Hl' ltac:(lia)) as (s2 & E2 & Hs2).
    exists s2. split; [|done]. rewrite <- (assoc_L app) in E2. simpl in E2. rewrite <- E2. apply loop_again.
    unfold all_body. rewrite (bind_step _ _ _ _ _ E1).
    rewrite (proj2 (Z.leb_gt _ _) He), (proj2 (Z.eqb_neq _ 0)), cluster_land by lia. done.
Qed.

Lemma count_loop V K E l :
  usable (fat_block f) K → fat_rep V f E → ∀ c s n fuel,
  disk_rep R V K s → chain E c l → (length l ≤ fuel)%nat → 0 ≤ n → n + Z.of_nat (length l) < 2 ^ 32 →
  ∃ s', loop fuel (count_body f) (c, n) s = Done (n + Z.of_nat (length l), s') ∧ disk_rep R V K s'.
Proof.
  intros HK HE. induction l as [|x l IH]; intros c s n fuel Hs Hl Hfuel Hn0 Hn;
    destruct (chain_stop V K s E c _ Hs HK HE Hl) as (s1 & E1 & Hs1 & Hstop); [done|].
  simpl in Hfuel. destruct fuel as [|fuel]; [lia|].
  assert (n ⊞₃₂ 1 = n + 1) as En by (apply wadd_small; unfold fits; simpl in Hn; lia).
  destruct l as [|y l].
  - destruct Hstop as [-> He]. exists s1. split; [|done]. apply loop_exit.
    unfold count_body. rewrite (bind_step _ _ _ _ _ E1). rewrite (proj2 (Z.leb_le _ _) He), En. done.
  - destruct Hstop as (-> & Hnx & He & Hl'). pose proof (fl_small _ _ HL).
    destruct (IH _ s1 (n + 1) fuel Hs1 Hl' ltac:(lia) ltac:(lia) ltac:(simpl in *; lia)) as (s2 & E2 & Hs2).
    exists s2. split; [|done]. replace (n + Z.of_nat (length (c :: y :: l))) with (n + 1 + Z.of_nat (length (y :: l))) by (simpl; lia).
    rewrite <- E2. apply loop_again.
    unfold count_body. rewrite (bind_step _ _ _ _ _ E1).
    rewrite (proj2 (Z.leb_gt _ _) He), (proj2 (Z.ltb_ge _ _)), En by lia. done.
Qed.

Lemma count_clusters_ok V K s E c l :
  disk_rep R V K s → usable (fat_block f) K → fat_rep V f E → chain E c l →
  ∃ s', count_claster_num f c s = Done (Z.of_nat (length l), s') ∧ disk_rep R V K s'.
Proof.
  intros Hs HK HE Hl. pose proof (chain_length _ _ _ Hl) as Hlen. destruct (chain_head _ _ _ Hl) as [Hc _].
  pose proof (fl_small _ _ HL). destruct (count_loop V K E l HK HE c s 0 (fat_fuel f) Hs Hl) as (s' & E' & Hs');
    [lia|lia|unfold fat_fuel in Hlen; lia|]. exists s'. split; [|done]. unfold count_claster_num.
  by rewrite (proj2 (Z.eqb_neq c 0)) by lia.
Qed.

Lemma final_loop V K E l :
  usable (fat_block f) K → fat_rep V f E → ∀ c s fuel,
  disk_rep R V K s → chain E c l → (length l ≤ fuel)%nat →
  ∃ x s', loop fuel (final_body f) c s = Done (x, s') ∧ last l = Some x ∧ disk_rep R V K s'.
Proof.
  intros HK HE. induction l as [|x l IH]; intros c s fuel Hs Hl Hfuel;
    destruct (chain_stop V K s E c _ Hs HK HE Hl) as (s1 & E1 & Hs1 & Hstop); [done|].
  destruct (chain_head _ _ _ Hl) as [Hc _]. simpl in Hfuel. destruct fuel as [|fuel]; [lia|].
  destruct l as [|y l].
  - destruct Hstop as [-> He]. exists c, s1. split_and!; [|done|done]. apply loop_exit.
    unfold final_body. rewrite (bind_step _ _ _ _ _ E1). rewrite (proj2 (Z.leb_le _ _) He), cluster_land by lia. done.
  - destruct Hstop as (-> & Hn & He & Hl').
    destruct (IH _ s1 fuel Hs1 Hl' ltac:(lia)) as (z & s2 & E2 & Hlast & Hs2).
    exists z, s2. split_and!; [|done|done]. rewrite <- E2. apply loop_again.
    unfold final_body. rewrite (bind_step _ _ _ _ _ E1).
    rewrite (proj2 (Z.leb_gt _ _) He), (proj2 (Z.eqb_neq _ 0)) by lia. done.
Qed.

Lemma final_cluster_ok V K s E c l :
  disk_rep R V K s → usable (fat_block f) K → fat_rep V f E → chain E c l →
  ∃ x s', final_cluster f c s = Done (x, s') ∧ last l = Some x ∧ disk_rep R V K s'.
Proof.
  intros Hs HK HE Hl. destruct (chain_head _ _ _ Hl) as [Hc _].
  destruct (final_loop V K E l HK HE c s (fat_fuel f) Hs Hl) as (x & s' & E' & Hx & Hs').
  { pose proof (chain_length _ _ _ Hl). lia. }
  exists x, s'. split_and!; [|done|done]. unfold final_cluster.
  rewrite (proj2 (Z.eqb_neq c 0)) by lia. exact E'.
Qed.

(** The entries of a chain are not free. *)
Lemma chain_used E c l x : chain E c l → x ∈ l → E x ≠ 0.
Proof.
  assert (next_of 0 = 0) as Hz by done.
  induction 1 as [c Hc He|c l Hc He Hl IH]; intros Hx; intros Hz0.
  - apply list_elem_of_singleton in Hx as ->. rewrite Hz0, Hz in He. by vm_compute in He.
  - apply elem_of_cons in Hx as [->|Hx]; [|by apply IH]. rewrite Hz0, Hz in Hl. destruct (chain_head _ _ _ Hl). lia.
Qed.

(** Linking the end of one chain to the start of another. *)
Lemma chain_append E c l x y l2 :
  chain E c l → last l = Some x → chain E y l2 → (∀ z, z ∈ l → z ∉ l2) → chain (<[x := y]> E) c (l ++ l2).
Proof.
  intros Hl Hlast Hl2 Hdis. destruct (chain_head _ _ _ Hl2) as [Hy _]. pose proof (fl_small _ _ HL) as Hsm.
  assert (next_of y = y) as Ey.
  { unfold next_of. rewrite (proj2 (Z.eqb_neq y BAD_CLUSTER)) by (unfold BAD_CLUSTER; lia). apply land28. lia. }
  assert (x ∈ l) as Hxl by by apply last_Some_elem_of.
  assert (chain (<[x := y]> E) y l2) as Hl2'.
  { apply (chain_ext E); [done|]. intros z Hz. rewrite fn_lookup_insert_ne; [done|]. intros <-. by apply (Hdis x). }
  clear Hl2. revert Hlast. pose proof (chain_NoDup _ _ _ Hl) as Hnd. revert Hnd.
  induction Hl as [c Hc He|c l Hc He Hl IH]; intros Hnd Hlast.
  - injection Hlast as ->. simpl. apply chain_cons; rewrite ?fn_lookup_insert, ?Ey; [done|unfold END_CLUSTER; lia|done].
  - destruct (chain_head _ _ _ Hl) as (_ & l' & ->). apply NoDup_cons in Hnd as [Hnin Hnd].
    rewrite last_cons in Hlast. destruct (last _) as [z|] eqn:Ez in Hlast; [|by rewrite last_None in Ez].
    injection Hlast as ->. assert (c ≠ x) as Hcx by (intros <-; by apply Hnin, last_Some_elem_of).
    simpl. apply chain_cons; rewrite ?fn_lookup_insert_ne by done; [done|done|]. apply IH; try done.
    + intros w Hw. apply Hdis. by right.
    + by apply last_Some_elem_of.
Qed.

Lemma next_of_bound e : fits 32 e → 0 ≤ next_of e < 2 ^ 28.
Proof.
  intros He. unfold next_of. case_match; [lia|]. change 0x0FFFFFFF with (2 ^ 28 - 1).
  rewrite land_ones_mod by lia. apply Z.mod_pos_bound. lia.
Qed.

(** The entries are words. *)
Lemma fat_rep_fits V K s E c : disk_rep R V K s → fat_rep V f E → 0 ≤ c < n_entry f → fits 32 (E c).
Proof.
  intros Hs HE Hc. destruct (HE c Hc) as [<- _]. unfold entry.
  destruct (disk_rep_wf _ _ _ _ (fat1_sector f + c / 128) Hs) as [Hlen Hby].
  pose proof (le_val_bound _ (Forall_slice _ (Z.to_nat (4 * (c mod 128))) 4 _ Hby)) as Hb.
  rewrite length_slice in Hb by (rewrite Hlen; zlia). exact Hb.
Qed.

(** The walk to an index gives the cluster there, and at the length of the
    chain an end mark. *)
Lemma walk_clusters_ok V K E l :
  usable (fat_block f) K → fat_rep V f E → ∀ c s i,
  disk_rep R V K s → chain E c l → (i ≤ length l)%nat →
  ∃ x s', walk_clusters f i c s = Done (x, s') ∧ disk_rep R V K s' ∧
    (if decide (i = length l) then END_CLUSTER ≤ x < 2 ^ 28 else l !! i = Some x).
Proof.
  intros HK HE. induction l as [|y l IH]; intros c s i Hs Hl Hi;
    destruct (chain_stop V K s E c _ Hs HK HE Hl) as (s1 & E1 & Hs1 & Hstop); [done|].
  destruct (chain_head _ _ _ Hl) as [Hc _]. destruct i as [|i].
  { exists c, s. split_and!; [done|done|]. rewrite decide_False by (simpl; lia). simpl. f_equal.
    destruct l; apply Hstop. }
  cbn [walk_clusters]. rewrite (bind_step _ _ _ _ _ E1). simpl in Hi. destruct l as [|z l].
  - destruct Hstop as [-> He]. assert (i = 0%nat) as -> by (simpl in Hi; lia).
    assert (next_of (E c) ≠ 0) by (unfold END_CLUSTER in *; lia).
    rewrite (proj2 (Z.eqb_neq _ 0)) by done. exists (next_of (E c)), s1. split_and!; [done|done|].
    rewrite decide_True by done. pose proof (next_of_bound _ (fat_rep_fits V K s E c Hs HE ltac:(lia))). lia.
  - destruct Hstop as (-> & Hn & He & Hl'). rewrite (proj2 (Z.eqb_neq _ 0)) by lia.
    destruct (IH _ s1 i Hs1 Hl' ltac:(lia)) as (x & s2 & E2 & Hs2 & Hx). exists x, s2. split_and!; [done|done|].
    destruct (decide (i = length (z :: l))), (decide (S i = length (c :: z :: l))); simpl in *; lia || done.
Qed.

Lemma get_cluster_at_ok V K s E c l i :
  disk_rep R V K s → usable (fat_block f) K → fat_rep V f E → chain E c l →
  0 ≤ i ≤ Z.of_nat (length l) →
  ∃ x s', get_cluster_at f c i s = Done (x, s') ∧ disk_rep R V K s' ∧
    (if decide (i = Z.of_nat (length l)) then END_CLUSTER ≤ x else l !! Z.to_nat i = Some x).
Proof.
  intros Hs HK HE Hl Hi.
  destruct (walk_clusters_ok V K E l HK HE c s (Z.to_nat i) Hs Hl ltac:(lia)) as (x & s' & E1 & Hs' & Hx).
  exists x, s'. split_and!; [|done|].
  - unfold get_cluster_at. rewrite (bind_step _ _ _ _ _ E1). unfold mret, st_ret. do 2 f_equal. apply land28.
    case_decide; [unfold END_CLUSTER in *; lia|].
    pose proof (chain_valid _ _ _ Hl) as Hv. rewrite Forall_lookup in Hv. specialize (Hv _ _ Hx).
    pose proof (fl_small _ _ HL). lia.
  - destruct (decide (Z.to_nat i = length l)), (decide (i = Z.of_nat (length l))); lia || done.
Qed.

(** [next_free_cluster] finds the first free cluster after the given one. *)
Lemma free_loop V K s E c c' fuel :
  disk_rep R V K s → usable (fat_block f) K → fat_rep V f E →
  0 ≤ c ≤ c' → c' < n_entry f → E c' = 0 → (∀ x, c ≤ x < c' → E x ≠ 0) →
  (Z.to_nat (c' - c) < fuel)%nat →
  ∃ s', loop fuel (free_body f) c s = Done (c', s') ∧ disk_rep R V K s'.
Proof.
  intros Hs HK HE Hc Hc' Hfree Hused. remember (Z.to_nat (c' - c)) as n eqn:En.
  revert s c fuel Hs Hc Hused En. induction n as [|n IH]; intros s c fuel Hs Hc Hused En Hf; (destruct fuel as [|fuel]; [lia|]);
    destruct (calculate_pos_ok c ltac:(lia)) as (Epos & H1 & _ & Ho & Hn);
    (destruct (info_u32_ok V K s (fat1_sector f + c / 128) (4 * (c mod 128)) Hs (usable_at _ _ _ HK H1)) as (s1 & E1 & Hs1);
      [by apply (fl_info _ _ HL)|by apply fat_block_info|lia|lia|]);
    destruct (HE c ltac:(lia)) as [He _]; unfold entry in He; rewrite He in E1.
  - assert (c = c') as -> by lia. exists s1. split; [|done]. apply loop_exit.
    unfold free_body. rewrite Epos, (bind_step _ _ _ _ _ E1), Hfree, cluster_land by lia. done.
  - destruct (IH s1 (c + 1) fuel Hs1 ltac:(lia)) as (s2 & E2 & Hs2); [intros; apply Hused; lia|lia|lia|].
    exists s2. split; [|done]. rewrite <- E2. apply loop_again.
    unfold free_body. rewrite Epos, (bind_step _ _ _ _ _ E1).
    rewrite (proj2 (Z.eqb_neq (E c) FREE_CLUSTER)) by (apply Hused; lia).
    pose proof (fl_small _ _ HL). by rewrite wadd_small by (unfold fits; lia).
Qed.

Lemma next_free_cluster_ok V K s E c c' :
  disk_rep R V K s → usable (fat_block f) K → fat_rep V f E →
  0 ≤ c < c' → c' < n_entry f → E c' = 0 → (∀ x, c < x < c' → E x ≠ 0) →
  ∃ s', next_free_cluster f c s = Done (c', s') ∧ disk_rep R V K s'.
Proof.
  intros Hs HK HE Hc Hc' Hfree Hused. pose proof (fl_small _ _ HL). unfold next_free_cluster.
  rewrite wadd_small by (unfold fits; lia).
  apply (free_loop V K s E); [done|done|done|lia|done|done|intros; apply Hused; lia|unfold fat_fuel; lia].
Qed.

End table.

(** ** Allocation *)

(** The layout of a volume: the FSInfo sector, the two copies of the table,
    then the clusters. *)
Record fs_layout (R : Z → bool) (fs : FAT32Manager) : Prop := {
  fsl_fat : fat_layout R (fat fs);
  fsl_info : 0 ≤ fsinfo fs < fat1_sector (fat fs);
  fsl_info_region : R (fsinfo fs) = true;
  fsl_spc : 0 < sectors_per_cluster fs < 256;
  fsl_bps : bytes_per_sector fs = 512;
  fsl_bpc : bytes_per_cluster fs = 512 * sectors_per_cluster fs;
  fsl_root : fat2_sector (fat fs) + n_sectors (fat fs) ≤ root_sec fs < 2 ^ 32;
}.

(** The sectors of a cluster. *)
Definition in_cluster (fs : FAT32Manager) (c b : Z) : Prop :=
  root_sec fs + (c - 2) * sectors_per_cluster fs ≤ b < root_sec fs + (c - 1) * sectors_per_cluster fs.

#[global] Instance in_cluster_dec fs c b : Decision (in_cluster fs c b).
Proof. unfold in_cluster. apply _. Defined.

(** The word at [off] of the FSInfo sector. *)
Definition info_word (V : Z → list Z) (fs : FAT32Manager) (off : nat) : Z := le_val (slice off 4 (V (fsinfo fs))).

(** [l] lists the next free clusters after [c], in order. *)
Fixpoint free_after (n : Z) (E : Z → Z) (c : Z) (l : list Z) : Prop :=
  match l with
  | [] => True
  | x :: l' => c < x < n ∧ E x = 0 ∧ (∀ y, c < y < x → E y ≠ 0) ∧ free_after n E x l'
  end.

(** The table with the clusters of [l] linked to a chain. *)
Fixpoint linked (E : Z → Z) (l : list Z) : Z → Z :=
  match l with
  | [] => E
  | x :: l' => match l' with [] => <[x := END_CLUSTER]> E | y :: _ => linked (<[x := y]> E) l' end
  end.

Section alloc.
Context {D : Type} `{BlockDeviceLaws D}.
Context (R : Z → bool) (fs : FAT32Manager) (HF : fs_layout R fs).
Implicit Types (s : disk D) (V : Z → list Z) (K : list (Z * bool)) (E : Z → Z).

Let HL : fat_layout R (fat fs) := fsl_fat _ _ HF.

Lemma first_sector_ok c :
  2 ≤ c < n_entry (fat fs) →
  first_sector_of_cluster fs c = root_sec fs + (c - 2) * sectors_per_cluster fs ∧
  ∀ b, in_cluster fs c b → ¬ fat_block (fat fs) b ∧ b ≠ fsinfo fs ∧ fits 64 b.
Proof.
  intros Hc. pose proof (fsl_spc _ _ HF). pose proof (fsl_root _ _ HF). pose proof (fl_small _ _ HL).
  pose proof (fsl_info _ _ HF). pose proof (fl_order _ _ HL). pose proof (fl_first _ _ HL).
  pose proof (fl_entries _ _ HL).
  assert (0 ≤ (c - 2) * sectors_per_cluster fs ≤ 0xF000000 * 256) by nia.
  unfold first_sector_of_cluster. rewrite wsub_small, wmul_small, wadd_small by (unfold fits; lia).
  split; [lia|]. intros b Hb. unfold in_cluster, fat_block, fits in *.
  assert ((c - 1) * sectors_per_cluster fs = (c - 2) * sectors_per_cluster fs + sectors_per_cluster fs) by lia. lia.
Qed.

(** Different clusters share no sector. *)
Lemma in_cluster_inj c c' b : in_cluster fs c b → in_cluster fs c' b → c = c'.
Proof. unfold in_cluster. pose proof (fsl_spc _ _ HF). nia. Qed.

Lemma clear_loop K st l :
  usable (fat_block (fat fs)) K → 0 ≤ st →
  Forall (λ i, R (st + i) = false ∧ fits 64 (st + i) ∧ 0 ≤ i) l → ∀ V s, disk_rep R V K s →
  ∃ V' s', for_each l (λ i, modify_cache Data (st ⊞ i) WRITE 0 512 (λ _, (replicate 512 0, tt))) s = Done (tt, s') ∧
    disk_rep R V' K s' ∧ ∀ b, V' b = if decide (b - st ∈ l) then zero_block else V b.
Proof.
  intros HK Hst. induction 1 as [|i l (HR & Hfit & Hi) Hl IH]; intros V s Hs.
  { exists V, s. by split_and!. }
  destruct (modify_cache_ok R V K s (st + i) WRITE 0 512 (λ _, (replicate 512 0, tt)) Hs (proj1 HK)
    (usable_write _ _ _ _ HK ltac:(rewrite HR; discriminate))) as (s1 & E1 & Hs1);
    [done|lia|lia|lia| |].
  { intros l' _ _. apply zero_block_wf. }
  unfold region in E1. rewrite HR in E1.
  destruct (IH _ s1 Hs1) as (V' & s' & E' & Hs' & HV'). exists V', s'. split_and!; [|done|].
  - cbn [for_each]. rewrite wadd_small by (unfold fits in *; lia). by rewrite (bind_step _ _ _ _ _ E1).
  - intros b. rewrite HV'. destruct (disk_rep_wf _ _ _ _ (st + i) Hs) as [Hlen _].
    assert (splice (Z.to_nat 0) (replicate 512 0) (V (st + i)) = zero_block) as Hz.
    { unfold splice. rewrite length_replicate. change (Z.to_nat 0) with 0%nat. rewrite take_0, drop_ge by (rewrite Hlen; lia).
      by rewrite app_nil_r. }
    cbn [fst]. rewrite Hz.
    destruct (decide (b - st ∈ l)) as [Hin|Hnin]; [by rewrite decide_True by by right|].
    destruct (decide (b = st + i)) as [->|Hne].
    + rewrite fn_lookup_insert. rewrite decide_True; [done|]. apply elem_of_cons. left. lia.
    + rewrite fn_lookup_insert_ne by done. rewrite decide_False; [done|]. rewrite elem_of_cons. intros [?|?]; [lia|done].
Qed.

(** [clear_cluster] zeroes the sectors of the cluster. *)
Lemma clear_cluster_ok V K s c :
  disk_rep R V K s → usable (fat_block (fat fs)) K → 2 ≤ c < n_entry (fat fs) →
  (∀ b, in_cluster fs c b → R b = false) →
  ∃ V' s', clear_cluster fs c s = Done (tt, s') ∧ disk_rep R V' K s' ∧
    ∀ b, V' b = if decide (in_cluster fs c b) then zero_block else V b.
Proof.
  intros Hs HK Hc HR. destruct (first_sector_ok c Hc) as [Efs Hin]. pose proof (fsl_spc _ _ HF).
  pose proof (fsl_root _ _ HF). pose proof (fl_first _ _ HL). pose proof (fl_order _ _ HL). pose proof (fl_entries _ _ HL).
  pose proof (fl_small _ _ HL).
  assert ((c - 1) * sectors_per_cluster fs = (c - 2) * sectors_per_cluster fs + sectors_per_cluster fs) as Hmul by lia.
  unfold clear_cluster. rewrite Efs.
  destruct (clear_loop K (root_sec fs + (c - 2) * sectors_per_cluster fs) (zrange 0 (sectors_per_cluster fs)) HK)
    with (V := V) (s := s) as (V' & s' & E & Hs' & HV'); [nia| |done|].
  - apply Forall_forall. intros i Hi%elem_of_zrange.
    assert (in_cluster fs c (root_sec fs + (c - 2) * sectors_per_cluster fs + i)) as Hb by (unfold in_cluster; lia).
    split_and!; [by apply HR|by apply Hin|lia].
  - exists V', s'. split_and!; [done|done|]. intros b. rewrite HV'.
    destruct (decide (in_cluster fs c b)) as [Hb|Hb]; unfold in_cluster in Hb.
    + rewrite decide_True; [done|]. apply elem_of_zrange. lia.
    + rewrite decide_False; [done|]. rewrite elem_of_zrange. lia.
Qed.

Lemma fat_rep_clear V V' E c :
  2 ≤ c < n_entry (fat fs) → fat_rep V (fat fs) E →
  (∀ b, V' b = if decide (in_cluster fs c b) then zero_block else V b) → fat_rep V' (fat fs) E.
Proof.
  intros Hc HE HV. apply (fat_rep_ext R (fat fs) HL V); [done|]. intros b Hb. rewrite HV.
  rewrite decide_False; [done|]. intros Hin. by apply (first_sector_ok c Hc) in Hin as [? _].
Qed.

Lemma free_after_ext n E E' c l :
  free_after n E c l → (∀ y, c < y → E' y = E y) → free_after n E' c l.
Proof.
  revert c. induction l as [|x l IH]; intros c; [done|]. intros (Hx & Hz & Hused & Hl) HE. simpl.
  split_and!; [lia|lia|by rewrite HE by lia| |].
  - intros y Hy. rewrite HE by lia. by apply Hused.
  - apply IH; [done|]. intros y Hy. apply HE. lia.
Qed.

Lemma free_after_all n E c l : free_after n E c l → Forall (λ x, c < x < n ∧ E x = 0) l ∧ NoDup (c :: l).
Proof.
  revert c. induction l as [|x l IH]; intros c; [intros _; split; [constructor|apply NoDup_singleton]|].
  intros (Hx & Hz & Hused & Hl). destruct (IH _ Hl) as [Hall Hnd].
  assert (Forall (λ y, c < y < n ∧ E y = 0) l) as Hall'.
  { eapply Forall_impl; [exact Hall|]. simpl. intros; lia. }
  split; [by constructor|]. apply NoDup_cons. split; [|done].
  rewrite Forall_forall in Hall'. intros [->|Hin]%elem_of_cons; [lia|]. specialize (Hall' _ Hin). lia.
Qed.

Lemma linked_other E l c : c ∉ l → linked E l c = E c.
Proof.
  revert E. induction l as [|x l IH]; intros E Hc; [done|]. apply not_elem_of_cons in Hc as [Hne Hc].
  simpl. destruct l; [by rewrite fn_lookup_insert_ne|]. rewrite IH by done. by rewrite fn_lookup_insert_ne.
Qed.

(** The linked clusters are a chain. *)
Lemma chain_linked E x l :
  NoDup (x :: l) → Forall (λ c, 2 ≤ c < n_entry (fat fs)) (x :: l) → chain (fat fs) (linked E (x :: l)) x (x :: l).
Proof.
  pose proof (fl_small _ _ HL) as Hsmall.
  revert E x. induction l as [|y l IH]; intros E x Hnd Hv.
  - apply Forall_cons in Hv as [Hx _]. simpl. constructor; [done|]. rewrite fn_lookup_insert. by vm_compute.
  - apply Forall_cons in Hv as [Hx Hv]. apply NoDup_cons in Hnd as [Hnin Hnd].
    pose proof Hv as [Hy _]%Forall_cons.
    assert (linked E (x :: y :: l) x = y) as Ex.
    { change (linked E (x :: y :: l)) with (linked (<[x := y]> E) (y :: l)).
      rewrite linked_other by done. by rewrite fn_lookup_insert. }
    assert (next_of y = y) as Ey.
    { unfold next_of. rewrite (proj2 (Z.eqb_neq y BAD_CLUSTER)) by (unfold BAD_CLUSTER; lia). apply land28. lia. }
    apply chain_cons; rewrite ?Ex, ?Ey; [done|unfold END_CLUSTER; lia|]. by apply IH.
Qed.

(** One turn of the allocation. *)
Lemma alloc_body_ok V K s E cur x l j :
  disk_rep R V K s → usable (fat_block (fat fs)) K → fat_rep V (fat fs) E →
  2 ≤ cur < n_entry (fat fs) → (∀ b, in_cluster fs cur b → R b = false) →
  free_after (n_entry (fat fs)) E cur (x :: l) →
  ∃ V' s', alloc_body fs cur j s = Done (x, s') ∧ disk_rep R V' K s' ∧ fat_rep V' (fat fs) (<[cur := x]> E) ∧
    ∀ b, ¬ fat_block (fat fs) b → V' b = if decide (in_cluster fs cur b) then zero_block else V b.
Proof.
  intros Hs HK HE Hcur HR (Hx & Hz & Hused & _). pose proof (fl_small _ _ HL).
  destruct (clear_cluster_ok V K s cur Hs HK Hcur HR) as (V1 & s1 & E1 & Hs1 & HV1).
  assert (fat_rep V1 (fat fs) E) as HE1 by by eapply fat_rep_clear.
  destruct (next_free_cluster_ok R (fat fs) HL V1 K s1 E cur x Hs1 HK HE1) as (s2 & E2 & Hs2); [lia|lia|done|done|].
  destruct (set_next_cluster_ok R (fat fs) HL V1 K s2 E cur x Hs2 HK HE1) as (V3 & s3 & E3 & Hs3 & HE3 & HV3);
    [lia|unfold fits; lia|].
  exists V3, s3. split_and!; [|done|done|].
  - unfold alloc_body. rewrite (bind_step _ _ _ _ _ E1), (bind_step _ _ _ _ _ E2).
    rewrite (proj2 (Z.eqb_neq x 0)) by lia. erewrite bind_step; [|reflexivity].
    by rewrite (bind_step _ _ _ _ _ E3).
  - intros b Hb. by rewrite HV3, HV1.
Qed.

(** The loop of [alloc_cluster], over the free clusters [l] after [cur]; [z] is
    the last one. *)
Lemma alloc_loop K l :
  usable (fat_block (fat fs)) K → ∀ V s E cur js,
  disk_rep R V K s → fat_rep V (fat fs) E → length js = length l →
  free_after (n_entry (fat fs)) E cur l → Forall (λ c, 2 ≤ c < n_entry (fat fs)) (cur :: l) →
  (∀ c b, c ∈ cur :: l → in_cluster fs c b → R b = false) →
  ∃ z V' s' E', for_fold js cur (alloc_body fs) s = Done (z, s') ∧ last (cur :: l) = Some z ∧
    disk_rep R V' K s' ∧ fat_rep V' (fat fs) E' ∧ <[z := END_CLUSTER]> E' = linked E (cur :: l) ∧
    (∀ c b, c ∈ cur :: l → c ≠ z → in_cluster fs c b → V' b = zero_block) ∧
    ∀ b, ¬ fat_block (fat fs) b → (∀ c, c ∈ cur :: l → ¬ in_cluster fs c b) → V' b = V b.
Proof.
  intros HK. induction l as [|x l IH]; intros V s E cur js Hs HE Hjs Hfree Hv HR.
  { destruct js; [|done]. exists cur, V, s, E. split_and!; try done.
    intros c b Hc%list_elem_of_singleton. done. }
  destruct js as [|j js]; [done|]. simpl in Hjs. apply Forall_cons in Hv as [Hcur Hv].
  destruct (alloc_body_ok V K s E cur x l j Hs HK HE Hcur) as (V1 & s1 & E1 & Hs1 & HE1 & HV1);
    [intros b; apply HR; by left|done|].
  destruct (free_after_all _ _ _ _ Hfree) as [_ Hnd]. apply NoDup_cons in Hnd as [Hnin Hnd].
  destruct Hfree as (Hx & Hz & Hused & Hfree').
  destruct (IH V1 s1 (<[cur := x]> E) x js) as (z & V' & s' & E' & E2 & Hlast & Hs' & HE' & Hlk & Hzero & Hkeep);
    [done|done|lia| |done| |].
  { apply (free_after_ext _ E); [done|]. intros y Hy. rewrite fn_lookup_insert_ne by lia. done. }
  { intros c b Hc. apply HR. by right. }
  exists z, V', s', E'. split_and!; [|by rewrite last_cons_cons|done|done|done| |].
  - cbn [for_fold]. by rewrite (bind_step _ _ _ _ _ E1).
  - intros c b [->|Hc]%elem_of_cons Hcz Hb; [|by eapply Hzero].
    destruct (first_sector_ok cur Hcur) as [_ Hsec]. destruct (Hsec b Hb) as (Hnf & _).
    rewrite Hkeep, HV1, decide_True; [done|done|done|done|].
    intros c Hc Hbc. apply Hnin. by rewrite (in_cluster_inj cur c b Hb Hbc).
  - intros b Hnf Hnb. rewrite Hkeep, HV1, decide_False; [done|apply Hnb; by left|done|done|].
    intros c Hc. apply Hnb. by right.
Qed.

(** ** The counters *)

Lemma info_sector : region R (fsinfo fs) = Info ∧ fits 64 (fsinfo fs) ∧ ¬ fat_block (fat fs) (fsinfo fs).
Proof.
  pose proof (fsl_info _ _ HF). pose proof (fl_order _ _ HL). pose proof (fl_entries _ _ HL). pose proof (fl_small _ _ HL).
  pose proof (fl_last _ _ HL). unfold region, fits, fat_block. rewrite (fsl_info_region _ _ HF). split_and!; [done|lia|lia|lia].
Qed.

Lemma read_word_ok V K s off :
  disk_rep R V K s → usable (λ b, b = fsinfo fs) K → 0 ≤ off → off + 4 ≤ 512 →
  ∃ s', info_u32 (fsinfo fs) off s = Done (info_word V fs (Z.to_nat off), s') ∧ disk_rep R V K s'.
Proof.
  intros Hs HK Ho Hn. destruct info_sector as (_ & Hf & _).
  apply info_u32_ok; [done|done|apply (fsl_info_region _ _ HF)|done|done|done].
Qed.

Lemma write_word_ok V K s E off v :
  disk_rep R V K s → usable (λ b, b = fsinfo fs) K → fat_rep V (fat fs) E → off = 488 ∨ off = 492 → fits 32 v →
  ∃ V' s', set_info_u32 (fsinfo fs) off v s = Done (tt, s') ∧ disk_rep R V' K s' ∧ fat_rep V' (fat fs) E ∧
    (∀ off', off' = 488 ∨ off' = 492 →
       info_word V' fs (Z.to_nat off') = if decide (off' = off) then v else info_word V fs (Z.to_nat off')) ∧
    ∀ b, b ≠ fsinfo fs → V' b = V b.
Proof.
  intros Hs HK HE Ho [Hv0 Hv]. destruct info_sector as (_ & Hf & Hnf).
  destruct (set_info_u32_ok R V K s (fsinfo fs) off v Hs HK) as (s' & E1 & Hs');
    [apply (fsl_info_region _ _ HF)|done|lia|lia|].
  eexists _, s'. split_and!; [done|exact Hs'|by apply (fat_rep_other R (fat fs) HL)| |].
  - intros off' Ho'. unfold info_word. rewrite fn_lookup_insert.
    destruct (disk_rep_wf _ _ _ _ (fsinfo fs) Hs) as [Hlen _]. case_decide as Heq.
    + subst off'. replace 4%nat with (length (le_bytes 4 v)) at 1 by apply length_le_bytes.
      rewrite slice_splice_eq by (rewrite length_le_bytes, Hlen; lia).
      rewrite le_val_le_bytes. apply Z.mod_small. change (256 ^ Z.of_nat 4) with (2 ^ 32). lia.
    + rewrite slice_splice_ne; [done|rewrite length_le_bytes, Hlen; lia|rewrite length_le_bytes; lia].
  - intros b Hb. by rewrite fn_lookup_insert_ne.
Qed.

(** Ending the chain at [z] and updating the counters. *)
Lemma alloc_finish V s E z free :
  disk_rep R V [] s → fat_rep V (fat fs) E → 2 ≤ z < n_entry (fat fs) → fits 32 free →
  (∀ b, in_cluster fs z b → R b = false) →
  ∃ V' s', (clear_cluster fs z;; set_end (fat fs) z;; write_free_clusters (fsinfo fs) free;;
            write_first_free_cluster (fsinfo fs) z;; write_to_dev) s = Done (tt, s') ∧
    (∀ R', disk_rep R' V' [] s') ∧ (∀ b, read_block b (device s') = V' b) ∧
    fat_rep V' (fat fs) (<[z := END_CLUSTER]> E) ∧
    info_word V' fs 488 = free ∧ info_word V' fs 492 = z ∧
    ∀ b, ¬ fat_block (fat fs) b → b ≠ fsinfo fs →
      V' b = if decide (in_cluster fs z b) then zero_block else V b.
Proof.
  intros Hs HE Hz Hfree HR. pose proof (fl_small _ _ HL).
  pose proof (usable_nil (fat_block (fat fs))) as HK.
  destruct (clear_cluster_ok V [] s z Hs HK Hz HR) as (V1 & s1 & E1 & Hs1 & HV1).
  assert (fat_rep V1 (fat fs) E) as HE1 by by eapply fat_rep_clear.
  destruct (set_next_cluster_ok R (fat fs) HL V1 [] s1 E z END_CLUSTER Hs1 HK HE1)
    as (V2 & s2 & E2 & Hs2 & HE2 & HV2); [lia|unfold fits, END_CLUSTER; lia|].
  destruct (write_word_ok V2 [] s2 _ 488 free Hs2 (usable_nil _) HE2 ltac:(by left) Hfree) as (V3 & s3 & E3 & Hs3 & HE3 & HW3 & HV3).
  destruct (write_word_ok V3 [] s3 _ 492 z Hs3 (usable_nil _) HE3 ltac:(by right) ltac:(unfold fits; lia)) as (V4 & s4 & E4 & Hs4 & HE4 & HW4 & HV4).
  destruct (write_to_dev_ok R V4 s4 Hs4) as (s5 & E5 & Hs5 & Hdev).
  exists V4, s5. split_and!; [|done|done|done| | |].
  - rewrite (bind_step _ _ _ _ _ E1). unfold set_end, write_free_clusters, write_first_free_cluster.
    by rewrite (bind_step _ _ _ _ _ E2), (bind_step _ _ _ _ _ E3), (bind_step _ _ _ _ _ E4).
  - change 488%nat with (Z.to_nat 488). rewrite HW4 by by left. rewrite decide_False by done.
    rewrite HW3 by by left. by rewrite decide_True.
  - change 492%nat with (Z.to_nat 492). rewrite HW4 by by right. by rewrite decide_True.
  - intros b Hnf Hni. by rewrite HV4, HV3, HV2, HV1.
Qed.

(** ** Freeing *)

Lemma free_loop_ok K l :
  usable (fat_block (fat fs)) K → Forall (λ c, 0 ≤ c < n_entry (fat fs)) l → ∀ V s E,
  disk_rep R V K s → fat_rep V (fat fs) E →
  ∃ V' s', for_each l (λ c, set_next_cluster (fat fs) c FREE_CLUSTER) s = Done (tt, s') ∧ disk_rep R V' K s' ∧
    fat_rep V' (fat fs) (λ c, if decide (c ∈ l) then 0 else E c) ∧ ∀ b, ¬ fat_block (fat fs) b → V' b = V b.
Proof.
  intros HK. induction 1 as [|c l Hc Hl IH]; intros V s E Hs HE.
  { exists V, s. split_and!; [done|done| |done]. intros c Hc. by apply HE. }
  destruct (set_next_cluster_ok R (fat fs) HL V K s E c FREE_CLUSTER Hs HK HE Hc) as (V1 & s1 & E1 & Hs1 & HE1 & HV1);
    [unfold fits, FREE_CLUSTER; lia|].
  destruct (IH V1 s1 _ Hs1 HE1) as (V' & s' & E' & Hs' & HE' & HV'). exists V', s'. split_and!; [|done| |].
  - cbn [for_each]. by rewrite (bind_step _ _ _ _ _ E1).
  - intros x Hx. destruct (HE' x Hx) as [-> ->]. split.
    all: destruct (decide (x ∈ l)) as [Hin|Hnin]; [by rewrite decide_True by by right|].
    all: destruct (decide (x = c)) as [->|Hne]; [rewrite fn_lookup_insert; rewrite decide_True; [done|by left]|].
    all: rewrite fn_lookup_insert_ne by done; rewrite decide_False; [done|]; by intros [?|?]%elem_of_cons.
  - intros b Hb. by rewrite HV', HV1.
Qed.

(** ** Properties *)

Lemma alloc_refused V s num :
  disk_rep R V [] s → info_word V fs 488 < num → ∃ s', alloc_cluster fs num s = Done (None, s') ∧ disk_rep R V [] s'.
Proof.
  intros Hs Hlt. destruct (read_word_ok V [] s 488 Hs (usable_nil _) ltac:(lia) ltac:(lia)) as (s1 & E1 & Hs1).
  change (info_word V fs (Z.to_nat 488)) with (info_word V fs 488) in E1. exists s1. split; [|done].
  unfold alloc_cluster, free_clusters, read_free_clusters. rewrite (bind_step _ _ _ _ _ E1). by rewrite (proj2 (Z.ltb_lt _ _) Hlt).
Qed.

Lemma alloc_cluster_ok V s E num l :
  disk_rep R V [] s → fat_rep V (fat fs) E → 1 ≤ num →
  let free := info_word V fs 488 in let hint := info_word V fs 492 in
  1 ≤ hint → free_after (n_entry (fat fs)) E hint l → Z.of_nat (length l) = num →
  (∀ c b, c ∈ l → in_cluster fs c b → R b = false) →
  num ≤ free → ∃ c V' s', alloc_cluster fs num s = Done (Some c, s') ∧ (∀ R', disk_rep R' V' [] s') ∧
    (∀ b, read_block b (device s') = V' b) ∧
    fat_rep V' (fat fs) (linked E l) ∧ chain (fat fs) (linked E l) c l ∧
    (∀ x b, x ∈ l → in_cluster fs x b → V' b = zero_block) ∧
    info_word V' fs 488 = free - num ∧ last l = Some (info_word V' fs 492) ∧
    ∀ b, ¬ fat_block (fat fs) b → b ≠ fsinfo fs → (∀ x, x ∈ l → ¬ in_cluster fs x b) → V' b = V b.
Proof.
  intros Hs HE Hnum free hint Hhint Hfree Hlen HR Hge.
  pose proof (usable_nil (fat_block (fat fs))) as HK.
  destruct (read_word_ok V [] s 488 Hs (usable_nil _) ltac:(lia) ltac:(lia)) as (s1 & E1 & Hs1).
  change (info_word V fs (Z.to_nat 488)) with free in E1.
  assert (fits 32 free) as Hfits.
  { subst free. unfold info_word. destruct (disk_rep_wf _ _ _ _ (fsinfo fs) Hs) as [Hl Hby].
    pose proof (le_val_bound _ (Forall_slice _ 488 4 _ Hby)) as Hb. rewrite length_slice in Hb by (rewrite Hl; lia). exact Hb. }
  unfold alloc_cluster, free_clusters, read_free_clusters. rewrite (bind_step _ _ _ _ _ E1).
  rewrite (proj2 (Z.ltb_ge free num)) by lia.
  destruct (read_word_ok V [] s1 492 Hs1 (usable_nil _) ltac:(lia) ltac:(lia)) as (s2 & E2 & Hs2).
  change (info_word V fs (Z.to_nat 492)) with hint in E2.
  destruct (free_after_all _ _ _ _ Hfree) as [Hall Hnd]. destruct l as [|c l]; [simpl in Hlen; lia|].
  apply NoDup_cons in Hnd as [_ Hnd].
  assert (Forall (λ x, 2 ≤ x < n_entry (fat fs)) (c :: l)) as Hv.
  { eapply Forall_impl; [exact Hall|]. simpl. intros; lia. }
  destruct Hfree as (Hc & Hz & Hused & Hfree).
  destruct (next_free_cluster_ok R (fat fs) HL V [] s2 E hint c Hs2 HK HE) as (s3 & E3 & Hs3); [lia|lia|done|done|].
  destruct (alloc_loop [] l HK V s3 E c (zrange 1 num)) as (z & V4 & s4 & E' & E4 & Hlast & Hs4 & HE4 & Hlk & Hzero & Hkeep);
    [done|done|rewrite length_zrange; simpl in Hlen; lia|done|done|done|].
  assert (z ∈ c :: l) as Hzin by by apply last_Some_elem_of.
  destruct (alloc_finish V4 s4 E' z (free - num) Hs4 HE4) as (V5 & s5 & E5 & Hs5 & Hdev & HE5 & Hw1 & Hw2 & HV5);
    [rewrite Forall_forall in Hv; by apply Hv|unfold fits in *; lia|by intros b; apply HR|].
  exists c, V5, s5. rewrite Hlk in HE5. split_and!; [|done|done|done|by apply chain_linked| |done|by rewrite Hw2|].
  - rewrite (bind_step _ _ _ _ _ E2), (bind_step _ _ _ _ _ E3), (bind_step _ _ _ _ _ E4).
    rewrite wsub_small by (unfold fits in *; lia).
    apply bind_Done in E5 as ([] & t1 & F1 & F). rewrite (bind_step _ _ _ _ _ F1).
    apply bind_Done in F as ([] & t2 & F2 & F). rewrite (bind_step _ _ _ _ _ F2).
    apply bind_Done in F as ([] & t3 & F3 & F). rewrite (bind_step _ _ _ _ _ F3).
    apply bind_Done in F as ([] & t4 & F4 & F). rewrite (bind_step _ _ _ _ _ F4).
    by rewrite (bind_step _ _ _ _ _ F).
  - intros x b Hx Hb. rewrite Forall_forall in Hv.
    destruct (proj2 (first_sector_ok x (Hv x Hx)) b Hb) as (Hnf & Hni & _).
    rewrite HV5 by done. destruct (decide (in_cluster fs z b)) as [Hbz|Hbz]; [done|].
    apply (Hzero x b Hx); [|done]. by intros ->.
  - intros b Hnf Hni Hnb. rewrite HV5, decide_False; [by apply Hkeep|by apply Hnb|done|done].
Qed.

(** C30. [alloc_cluster] against the free count and the hint of the volume. When
    the count is below the number that is asked for, it returns [None] and the
    volume is as it was, whatever the table looks like. Otherwise, when that many
    clusters behind the hint are free, it allocates the first of them: it links
    them to a new chain in both copies of the table, zeroes their sectors, takes
    them off the free count and moves the hint to the last of them; every other
    entry and every other block is unchanged, and all of it is on the device. *)
Theorem alloc_cluster_exact V s E num :
  disk_rep R V [] s → fat_rep V (fat fs) E → 1 ≤ num →
  let free := info_word V fs 488 in let hint := info_word V fs 492 in
  (free < num → ∃ s', alloc_cluster fs num s = Done (None, s') ∧ disk_rep R V [] s') ∧
  (num ≤ free → ∀ l, 1 ≤ hint → free_after (n_entry (fat fs)) E hint l → Z.of_nat (length l) = num →
   (∀ c b, c ∈ l → in_cluster fs c b → R b = false) →
   ∃ c V' s', alloc_cluster fs num s = Done (Some c, s') ∧ (∀ R', disk_rep R' V' [] s') ∧
    (∀ b, read_block b (device s') = V' b) ∧
    fat_rep V' (fat fs) (linked E l) ∧ chain (fat fs) (linked E l) c l ∧
    (∀ x b, x ∈ l → in_cluster fs x b → V' b = zero_block) ∧
    info_word V' fs 488 = free - num ∧ last l = Some (info_word V' fs 492) ∧
    ∀ b, ¬ fat_block (fat fs) b → b ≠ fsinfo fs → (∀ x, x ∈ l → ¬ in_cluster fs x b) → V' b = V b).
Proof.
  intros Hs HE Hnum free hint. split; [by apply alloc_refused|]. intros Hge l Hh Hf Hl HR. by apply alloc_cluster_ok.
Qed.

Lemma dealloc_cluster_ok V s E l :
  disk_rep R V [] s → fat_rep V (fat fs) E → Forall (λ c, 0 ≤ c < n_entry (fat fs)) l →
  let free := info_word V fs 488 in let hint := info_word V fs 492 in
  free + Z.of_nat (length l) < 2 ^ 32 →
  ∃ V' s', dealloc_cluster fs l s = Done (tt, s') ∧ disk_rep R V' [] s' ∧
    fat_rep V' (fat fs) (λ c, if decide (c ∈ l) then 0 else E c) ∧
    info_word V' fs 488 = free + Z.of_nat (length l) ∧
    info_word V' fs 492 = match l with c0 :: _ => if (2 <? c0) && (c0 <? hint) then c0 - 1 else hint | [] => hint end ∧
    ∀ b, ¬ fat_block (fat fs) b → b ≠ fsinfo fs → V' b = V b.
Proof.
  intros Hs HE Hl free hint Hsum.
  pose proof (usable_nil (fat_block (fat fs))) as HK.
  destruct (read_word_ok V [] s 488 Hs (usable_nil _) ltac:(lia) ltac:(lia)) as (s1 & E1 & Hs1).
  change (info_word V fs (Z.to_nat 488)) with free in E1.
  assert (∀ V', (∀ b, ¬ fat_block (fat fs) b → V' b = V b) → ∀ off, info_word V' fs off = info_word V fs off) as Hword.
  { intros V' HV' off. unfold info_word. rewrite HV'; [done|]. apply info_sector. }
  destruct (free_loop_ok [] l HK Hl V s1 E Hs1 HE) as (V2 & s2 & E2 & Hs2 & HE2 & HV2).
  assert (0 ≤ free) as Hfree0.
  { subst free. unfold info_word. destruct (disk_rep_wf _ _ _ _ (fsinfo fs) Hs) as [_ Hby].
    apply (le_val_bound _ (Forall_slice _ 488 4 _ Hby)). }
  unfold dealloc_cluster, free_clusters, read_free_clusters.
  rewrite (bind_step _ _ _ _ _ E1), (bind_step _ _ _ _ _ E2). destruct l as [|c0 l].
  { exists V2, s2. split_and!; [done|done|done| | |by intros b Hb _; apply HV2]; rewrite Hword by done; simpl; lia. }
  destruct (write_word_ok V2 [] s2 _ 488 (free + Z.of_nat (length (c0 :: l))) Hs2 (usable_nil _) HE2) as (V3 & s3 & E3 & Hs3 & HE3 & HW3 & HV3);
    [by left|unfold fits; lia|].
  assert (info_word V3 fs 488 = free + Z.of_nat (length (c0 :: l))) as H488.
  { change 488%nat with (Z.to_nat 488). rewrite HW3 by by left. by rewrite decide_True. }
  assert (info_word V3 fs 492 = hint) as H492.
  { change 492%nat with (Z.to_nat 492). rewrite HW3 by by right. rewrite decide_False by done. by apply Hword. }
  unfold write_free_clusters, first_free_cluster, write_first_free_cluster.
  rewrite wadd_small by (unfold fits; simpl in *; lia). rewrite (bind_step _ _ _ _ _ E3).
  destruct (Z.ltb_spec 2 c0) as [Hc0|Hc0].
  2:{ exists V3, s3. split_and!; [done|done|done|done|done|]. intros b Hnf Hni. by rewrite HV3, HV2. }
  destruct (read_word_ok V3 [] s3 492 Hs3 (usable_nil _) ltac:(lia) ltac:(lia)) as (s4 & E4 & Hs4).
  change (Z.to_nat 492) with 492%nat in E4. rewrite H492 in E4. rewrite (bind_step _ _ _ _ _ E4).
  destruct (Z.ltb_spec c0 hint) as [Hh|Hh].
  2:{ exists V3, s4. split_and!; [done|done|done|done|done|]. intros b Hnf Hni. by rewrite HV3, HV2. }
  apply Forall_cons in Hl as [Hc0v _]. pose proof (fl_small _ _ HL).
  rewrite wsub_small by (unfold fits; lia).
  destruct (write_word_ok V3 [] s4 _ 492 (c0 - 1) Hs4 (usable_nil _) HE3 ltac:(by right) ltac:(unfold fits; lia)) as (V5 & s5 & E5 & Hs5 & HE5 & HW5 & HV5).
  exists V5, s5. split_and!; [done|done|done| | |].
  - change 488%nat with (Z.to_nat 488). rewrite HW5 by by left. by rewrite decide_False.
  - change 492%nat with (Z.to_nat 492). rewrite HW5 by by right. by rewrite decide_True.
  - intros b Hnf Hni. by rewrite HV5, HV3, HV2.
Qed.

(** [dealloc_cluster] marks exactly the given clusters free in both copies
    of the table and adds them to the free count; the hint moves down to the
    cluster before the first given one if that lies below it. Nothing else
    changes. *)
Theorem dealloc_cluster_exact V s E l :
  disk_rep R V [] s → fat_rep V (fat fs) E → Forall (λ c, 0 ≤ c < n_entry (fat fs)) l →
  let free := info_word V fs 488 in let hint := info_word V fs 492 in
  free + Z.of_nat (length l) < 2 ^ 32 →
  ∃ V' s', dealloc_cluster fs l s = Done (tt, s') ∧ disk_rep R V' [] s' ∧
    fat_rep V' (fat fs) (λ c, if decide (c ∈ l) then 0 else E c) ∧
    info_word V' fs 488 = free + Z.of_nat (length l) ∧
    info_word V' fs 492 = match l with c0 :: _ => if (2 <? c0) && (c0 <? hint) then c0 - 1 else hint | [] => hint end ∧
    ∀ b, ¬ fat_block (fat fs) b → b ≠ fsinfo fs → V' b = V b.
Proof. apply dealloc_cluster_ok. Qed.

(** C37. The walks over a chain return what the chain says: all its clusters in
    order, their number, the last one, and the one at any index; they end
    within the number of entries of the table. *)
Theorem chain_walks_exact V s E c l i :
  disk_rep R V [] s → fat_rep V (fat fs) E → chain (fat fs) E c l → 0 ≤ i < Z.of_nat (length l) →
  (∃ s', get_all_cluster_of (fat fs) c s = Done (l, s')) ∧
  (∃ s', count_claster_num (fat fs) c s = Done (Z.of_nat (length l), s')) ∧
  (∃ x s', final_cluster (fat fs) c s = Done (x, s') ∧ last l = Some x) ∧
  (∃ x s', get_cluster_at (fat fs) c i s = Done (x, s') ∧ l !! Z.to_nat i = Some x).
Proof.
  intros Hs HE Hl Hi.
  pose proof (usable_nil (fat_block (fat fs))) as HK.
  pose proof (chain_length (fat fs) _ _ _ Hl) as Hlen. destruct (chain_head _ _ _ _ Hl) as [Hc _].
  pose proof (fl_small _ _ HL).
  split_and!.
  - destruct (get_all_loop R (fat fs) HL V [] E l HK HE c s [] (fat_fuel (fat fs)) Hs Hl) as (s' & E' & _); [lia|]. eauto.
  - destruct (count_loop R (fat fs) HL V [] E l HK HE c s 0 (fat_fuel (fat fs)) Hs Hl) as (s' & E' & _);
      [lia|lia|unfold fat_fuel in Hlen; lia|]. exists s'. unfold count_claster_num.
    by rewrite (proj2 (Z.eqb_neq c 0)) by lia.
  - destruct (final_loop R (fat fs) HL V [] E l HK HE c s (fat_fuel (fat fs)) Hs Hl) as (x & s' & E' & Hx & _); [lia|].
    exists x, s'. split; [|done]. unfold final_cluster. rewrite (proj2 (Z.eqb_neq c 0)) by lia.
    by erewrite bind_step; [|reflexivity].
  - destruct (get_cluster_at_ok R (fat fs) HL V [] s E c l i Hs HK HE Hl) as (x & s' & E' & _ & Hx); [lia|].
    rewrite decide_False in Hx by lia. eauto.
Qed.

End alloc.

(** ** Witnesses

    A small volume: FSInfo in sector 1, tables of one sector in sectors 2 and
    3, clusters of one sector from sector 4 on; 100 free clusters, hint 2. *)

Definition wit_fs : FAT32Manager := mkFat32 1 1 512 512 (mkFAT 2 3 1 128) 4 200.
Definition wit_region (b : Z) : bool := b <? 4.
Definition wit_info : list Z := splice 488 (le_bytes 4 100 ++ le_bytes 4 2) zero_block.
Definition wit_dev : gmap Z (list Z) := {[1 := wit_info]}.
Definition wit_blocks (b : Z) : list Z := read_block b wit_dev.

Lemma wit_layout : fs_layout wit_region wit_fs.
Proof.
  constructor; simpl; try lia; try done.
  constructor; simpl; try lia. intros b. unfold fat_block, wit_region; simpl. intros Hb.
  apply Z.ltb_lt. lia.
Qed.

Lemma le_val_zero n : le_val (replicate n 0) = 0.
Proof. induction n as [|n IH]; simpl; lia. Qed.

Lemma wit_fat_rep : fat_rep wit_blocks (fat wit_fs) (λ _, 0).
Proof.
  assert (∀ b, 2 ≤ b → wit_blocks b = zero_block) as Hb.
  { intros b Hb. unfold wit_blocks, wit_dev. simpl. by rewrite lookup_singleton_ne by lia. }
  assert (∀ b c, 2 ≤ b → entry wit_blocks b c = 0 ∨ c < 0) as He.
  { intros b c Hb2. destruct (decide (c < 0)); [by right|left]. unfold entry. rewrite Hb by zlia.
    unfold slice, zero_block. rewrite drop_replicate, take_replicate. apply le_val_zero. }
  intros c Hc. simpl in *. destruct (He 2 c ltac:(lia)), (He 3 c ltac:(lia)); lia.
Qed.

Lemma wit_rep : disk_rep wit_region wit_blocks [] (fresh_disk wit_dev).
Proof. apply fresh_disk_rep. Qed.

Lemma wit_free_after : free_after 128 (λ _, 0) 2 [3; 4].
Proof. simpl. split_and!; (done || lia || (intros; lia)). Qed.

Lemma alloc_cluster_exact_witness :
  (∃ c V' s', alloc_cluster wit_fs 2 (fresh_disk wit_dev) = Done (Some c, s') ∧
    disk_rep wit_region V' [] s' ∧ chain (fat wit_fs) (linked (λ _, 0) [3; 4]) c [3; 4]) ∧
  (∃ s', alloc_cluster wit_fs 101 (fresh_disk wit_dev) = Done (None, s')).
Proof.
  split.
  - destruct (alloc_cluster_exact wit_region wit_fs wit_layout wit_blocks (fresh_disk wit_dev) (λ _, 0) 2 wit_rep wit_fat_rep ltac:(lia)) as [_ Ha].
    destruct (Ha ltac:(vm_compute; discriminate) [3; 4]) as (c & V' & s' & E & Hs' & _ & _ & Hch & _).
    + vm_compute. discriminate.
    + apply wit_free_after.
    + reflexivity.
    + intros c b Hc Hb. unfold wit_region. apply Z.ltb_ge. unfold in_cluster in Hb. simpl in Hb.
      apply elem_of_cons in Hc as [->|[->|Hc%not_elem_of_nil]%elem_of_cons]; [lia|lia|done].
    + exists c, V', s'. split; [exact E|]. split; [apply Hs'|exact Hch].
  - destruct (alloc_cluster_exact wit_region wit_fs wit_layout wit_blocks (fresh_disk wit_dev) (λ _, 0) 101 wit_rep wit_fat_rep ltac:(lia)) as [Ha _].
    destruct (Ha ltac:(vm_compute; reflexivity)) as (s' & E & _). exists s'. exact E.
Defined.

Lemma dealloc_cluster_exact_witness :
  ∃ V' s', dealloc_cluster wit_fs [5; 7] (fresh_disk wit_dev) = Done (tt, s') ∧ info_word V' wit_fs 488 = 102.
Proof.
  destruct (dealloc_cluster_exact wit_region wit_fs wit_layout wit_blocks (fresh_disk wit_dev) (λ _, 0) [5; 7])
    as (V' & s' & E & _ & _ & Hw & _).
  - apply wit_rep.
  - apply wit_fat_rep.
  - repeat constructor; simpl; lia.
  - vm_compute. reflexivity.
  - exists V', s'. split; [exact E|]. rewrite Hw. vm_compute. reflexivity.
Defined.

(** The same volume with cluster 3 followed by cluster 5. *)
Definition wit_chain_dev : gmap Z (list Z) :=
  let t := splice 12 (le_bytes 4 5) (splice 20 (le_bytes 4 END_CLUSTER) zero_block) in {[1 := wit_info; 2 := t; 3 := t]}.
Definition wit_entries (c : Z) : Z := entry (λ b, read_block b wit_chain_dev) 2 c.

Lemma wit_chain_rep : fat_rep (λ b, read_block b wit_chain_dev) (fat wit_fs) wit_entries.
Proof.
  intros c Hc. split; [reflexivity|]. unfold wit_entries, entry. simpl in *.
  replace (3 + c / 128) with 3 by zlia. replace (2 + c / 128) with 2 by zlia. reflexivity.
Qed.

Lemma wit_chain : chain (fat wit_fs) wit_entries 3 [3; 5].
Proof.
  apply chain_cons; [simpl; lia|vm_compute; reflexivity|].
  replace (next_of (wit_entries 3)) with 5 by (vm_compute; reflexivity).
  apply chain_last; [simpl; lia|vm_compute; discriminate].
Qed.

Lemma chain_walks_exact_witness :
  ∃ s', get_all_cluster_of (fat wit_fs) 3 (fresh_disk wit_chain_dev) = Done ([3; 5], s').
Proof.
  destruct (chain_walks_exact wit_region wit_fs wit_layout (λ b, read_block b wit_chain_dev)
              (fresh_disk wit_chain_dev) wit_entries 3 [3; 5] 1) as (H & _).
  - apply fresh_disk_rep.
  - apply wit_chain_rep.
  - apply wit_chain.
  - simpl. lia.
  - exact H.
Defined.
