(* ===== verification/Dirent.v ===== *)
(** * Directory entries and names (fat32/src/layout.rs [ShortDirEntry],
    [LongDirEntry]; the name functions of fat32/src/fat.rs)

    Short and long entries are 32 bytes each. A Rust [String] is modelled as
    the list of its characters (all below 256 here, as they come from bytes);
    [as_bytes] is its UTF-8 encoding. *)

From S2P Require Import Prelude.

Definition ATTRIBUTE_DIRECTORY : Z := 0x10.
Definition ATTRIBUTE_ARCHIVE : Z := 0x20.
Definition ATTRIBUTE_LFN : Z := 0x0F.
Definition DIRENT_SZ : Z := 32.
Definition LONG_NAME_LEN : Z := 13.
Definition ALL_LOWER_CASE : Z := 0x08.

(** ** Characters *)

Definition utf8 (c : Z) : list Z := if c <? 128 then [c] else [0xC0 + c / 64; 0x80 + c mod 64].
Definition as_bytes (s : list Z) : list Z := mjoin (utf8 <$> s).

Definition to_ascii_uppercase (c : Z) : Z := if (97 <=? c) && (c <=? 122) then c - 32 else c.
Definition to_ascii_lowercase (c : Z) : Z := if (65 <=? c) && (c <=? 90) then c + 32 else c.

(** [s.split(c)]: the parts between the separators. *)
Fixpoint split (sep : Z) (s : list Z) : list (list Z) :=
  match s with
  | [] => [[]]
  | c :: s =>
      if c =? sep then [] :: split sep s
      else match split sep s with p :: ps => (c :: p) :: ps | [] => [[c]] end
  end.

(** ** Short entries *)

Record ShortDirEntry := mkShort {
  ent_name : list Z;
  extension : list Z;
  attribute : Z;
  winnt_reserved : Z;
  creation_tenths : Z;
  creation_time : Z;
  creation_date : Z;
  last_acc_date : Z;
  cluster_high : Z;
  modification_time : Z;
  modification_date : Z;
  cluster_low : Z;
  ent_size : Z;
}.

(** The packed representation, and [as_bytes]. *)
Definition Short_bytes (e : ShortDirEntry) : list Z :=
  ent_name e ++ extension e ++ [attribute e; winnt_reserved e; creation_tenths e] ++
  le_bytes 2 (creation_time e) ++ le_bytes 2 (creation_date e) ++ le_bytes 2 (last_acc_date e) ++
  le_bytes 2 (cluster_high e) ++ le_bytes 2 (modification_time e) ++ le_bytes 2 (modification_date e) ++
  le_bytes 2 (cluster_low e) ++ le_bytes 4 (ent_size e).

Definition byte_at (l : list Z) (i : nat) : Z := default 0 (l !! i).

Definition Short_of (l : list Z) : ShortDirEntry :=
  mkShort (slice 0 8 l) (slice 8 3 l) (byte_at l 11) (byte_at l 12) (byte_at l 13)
    (le_val (slice 14 2 l)) (le_val (slice 16 2 l)) (le_val (slice 18 2 l)) (le_val (slice 20 2 l))
    (le_val (slice 22 2 l)) (le_val (slice 24 2 l)) (le_val (slice 26 2 l)) (le_val (slice 28 4 l)).

Definition Short_empty : ShortDirEntry := mkShort (replicate 8 0) (replicate 3 0) 0 0 0 0 0 0 0 0 0 0 0.

(** [ShortDirEntry::new] and [initialize]; shorter slices panic. *)
Definition Short_new (name_ extension_ : list Z) (attr : Z) : option ShortDirEntry :=
  if (8 <=? length name_)%nat && (3 <=? length extension_)%nat
  then Some (mkShort (take 8 name_) (take 3 extension_) attr 0 0 0 0x529c 0 0 0 0 0 0)
  else None.
Definition Short_initialize := Short_new.

Definition data_clusters (e : ShortDirEntry) (bpc : Z) : Z := ((ent_size e ⊞₃₂ bpc) ⊟₃₂ 1) / bpc.
Definition is_dir (e : ShortDirEntry) : bool := negb (Z.land (attribute e) ATTRIBUTE_DIRECTORY =? 0).
Definition is_file (e : ShortDirEntry) : bool := negb (is_dir e).
Definition is_valid_entry (e : ShortDirEntry) : bool := negb (byte_at (ent_name e) 0 =? 0xE5).
Definition is_deleted (e : ShortDirEntry) : bool := byte_at (ent_name e) 0 =? 0xE5.
Definition is_empty (e : ShortDirEntry) : bool := byte_at (ent_name e) 0 =? 0x00.
Definition is_long (e : ShortDirEntry) : bool := attribute e =? ATTRIBUTE_LFN.

(** Year, month, day, hour, minute, second and the seconds since 1970 that the
    three time functions compute from a date and a time. *)
Definition decode_time (date time : Z) : Z * Z * Z * Z * Z * Z * Z :=
  let year := Z.shiftr (Z.land date 0xFE00) 9 ⊞₃₂ 1980 in
  let month := Z.shiftr (Z.land date 0x01E0) 5 in
  let day := Z.land date 0x001F in
  let hour := Z.shiftr (Z.land time 0xF800) 11 in
  let min := Z.shiftr (Z.land time 0x07E0) 5 in
  let sec := wshl 16 (Z.land time 0x001F) 1 in
  let long_sec :=
    ((((((year ⊟₃₂ 1970) ⊠₃₂ 365) ⊞₃₂ (month ⊠₃₂ 30) ⊞₃₂ day) ⊠₃₂ 24 ⊞₃₂ hour) ⊠₃₂ 3600)
      ⊞₃₂ (min ⊠₃₂ 60)) ⊞₃₂ sec in
  (year, month, day, hour, min, sec, long_sec).
Definition get_creation_time (e : ShortDirEntry) := decode_time (creation_date e) (creation_time e).
Definition get_modification_time (e : ShortDirEntry) := decode_time (modification_date e) (modification_time e).
Definition get_accessed_time (e : ShortDirEntry) := decode_time (last_acc_date e) 0.

Definition first_cluster (e : ShortDirEntry) : Z := wshl 32 (cluster_high e) 16 ⊞₃₂ cluster_low e.

(** The characters before the first blank. *)
Fixpoint until_blank (l : list Z) : list Z :=
  match l with [] => [] | c :: l => if c =? 0x20 then [] else c :: until_blank l end.
Definition dotted (ext : list Z) : list Z := match ext with [] => [] | _ => 46 :: ext end.

Definition get_name_uppercase (e : ShortDirEntry) : list Z :=
  until_blank (ent_name e) ++ dotted (until_blank (extension e)).
Definition get_name_lowercase (e : ShortDirEntry) : list Z :=
  (to_ascii_lowercase <$> until_blank (ent_name e)) ++ dotted (to_ascii_lowercase <$> until_blank (extension e)).

Definition checksum (e : ShortDirEntry) : Z :=
  foldl (λ sum b,
    if negb (Z.land sum 1 =? 0) then wadd 8 (wadd 8 0x80 (Z.shiftr sum 1)) b else wadd 8 (Z.shiftr sum 1) b)
    0 (ent_name e ++ extension e).

Definition set_size (n : Z) (e : ShortDirEntry) : ShortDirEntry :=
  mkShort (ent_name e) (extension e) (attribute e) (winnt_reserved e) (creation_tenths e) (creation_time e)
    (creation_date e) (last_acc_date e) (cluster_high e) (modification_time e) (modification_date e)
    (cluster_low e) n.
Definition set_case (c : Z) (e : ShortDirEntry) : ShortDirEntry :=
  mkShort (ent_name e) (extension e) (attribute e) c (creation_tenths e) (creation_time e)
    (creation_date e) (last_acc_date e) (cluster_high e) (modification_time e) (modification_date e)
    (cluster_low e) (ent_size e).
Definition set_first_cluster (cluster : Z) (e : ShortDirEntry) : ShortDirEntry :=
  mkShort (ent_name e) (extension e) (attribute e) (winnt_reserved e) (creation_tenths e) (creation_time e)
    (creation_date e) (last_acc_date e) (wrap 16 (Z.shiftr (Z.land cluster 0xFFFF0000) 16))
    (modification_time e) (modification_date e) (wrap 16 (Z.land cluster 0x0000FFFF)) (ent_size e).
Definition set_name (n : list Z) (e : ShortDirEntry) : ShortDirEntry :=
  mkShort n (extension e) (attribute e) (winnt_reserved e) (creation_tenths e) (creation_time e)
    (creation_date e) (last_acc_date e) (cluster_high e) (modification_time e) (modification_date e)
    (cluster_low e) (ent_size e).

Definition Short_clear (e : ShortDirEntry) : ShortDirEntry := set_first_cluster 0 (set_size 0 e).
Definition Short_delete (e : ShortDirEntry) : ShortDirEntry :=
  set_first_cluster 0 (set_name (<[0%nat := 0xE5]> (ent_name e)) (set_size 0 e)).

(** ** Long entries *)

Record LongDirEntry := mkLong {
  order : Z;
  name1 : list Z;
  long_attribute : Z;
  type_ : Z;
  check_sum : Z;
  name2 : list Z;
  zero : list Z;
  name3 : list Z;
}.

Definition Long_bytes (e : LongDirEntry) : list Z :=
  [order e] ++ name1 e ++ [long_attribute e; type_ e; check_sum e] ++ name2 e ++ zero e ++ name3 e.
Definition Long_of (l : list Z) : LongDirEntry :=
  mkLong (byte_at l 0) (slice 1 10 l) (byte_at l 11) (byte_at l 12) (byte_at l 13) (slice 14 12 l)
    (slice 26 2 l) (slice 28 4 l).

Definition Long_empty : LongDirEntry := mkLong 0 (replicate 10 0) 0 0 0 (replicate 12 0) (replicate 2 0) (replicate 4 0).
Definition Long_is_empty (e : LongDirEntry) : bool := order e =? 0x00.
Definition Long_is_valid (e : LongDirEntry) : bool := negb (order e =? 0xE5).
Definition Long_is_deleted (e : LongDirEntry) : bool := order e =? 0xE5.
Definition Long_delete (e : LongDirEntry) : LongDirEntry :=
  mkLong 0xE5 (name1 e) (long_attribute e) (type_ e) (check_sum e) (name2 e) (zero e) (name3 e).
Definition Long_clear (e : LongDirEntry) : LongDirEntry := e.

(** One of the three name loops of [initialize], over the characters
    [i, i + n): the pairs of bytes, and [end_offset]; [None] is a read past the
    end of the buffer. *)
Fixpoint name_part (name_buffer : list Z) (n i end_offset : nat) : option (list Z * nat) :=
  match n with
  | O => Some ([], end_offset)
  | S n =>
      if (end_offset =? 0)%nat then
        c ← name_buffer !! i;
        '(rest, e) ← name_part name_buffer n (S i) (if c =? 0 then i else end_offset);
        Some (c :: 0 :: rest, e)
      else
        '(rest, e) ← name_part name_buffer n (S i) end_offset;
        Some (0xFF :: 0xFF :: rest, e)
  end.

Definition Long_initialize (name_buffer : list Z) (ord check_sum : Z) : option LongDirEntry :=
  '(n1, e) ← name_part name_buffer 5 0 0;
  '(n2, e) ← name_part name_buffer 6 5 e;
  '(n3, e) ← name_part name_buffer 2 11 e;
  Some (mkLong ord n1 ATTRIBUTE_LFN 0 check_sum n2 (replicate 2 0) n3).

(** The characters of an entry: every second byte. *)
Fixpoint evens (l : list Z) : list Z := match l with c :: _ :: l => c :: evens l | _ => [] end.
Definition long_chars (e : LongDirEntry) : list Z := evens (name1 e) ++ evens (name2 e) ++ evens (name3 e).

(** Up to the terminating 0, with it ([get_name_raw]) or without it
    ([get_name_format]). *)
Fixpoint through_zero (l : list Z) : list Z :=
  match l with [] => [] | c :: l => if c =? 0 then [c] else c :: through_zero l end.
Fixpoint before_zero (l : list Z) : list Z :=
  match l with [] => [] | c :: l => if c =? 0 then [] else c :: before_zero l end.
Definition get_name_raw (e : LongDirEntry) : list Z := through_zero (long_chars e).
Definition get_name_format (e : LongDirEntry) : list Z := before_zero (long_chars e).

(** ** The name functions of [FAT32Manager] *)

(** The characters [j, j + n) of one part of a long name. *)
Fixpoint split_part (name_bytes : list Z) (n : nat) (j : Z) : list Z :=
  match n with
  | O => []
  | S n =>
      let len := Z.of_nat (length name_bytes) in
      if j <? len then byte_at name_bytes (Z.to_nat j) :: split_part name_bytes n (j + 1)
      else if len <? j then 0xFF :: split_part name_bytes n (j + 1)
      else [0x00]
  end.
Definition long_name_split (nm : list Z) : list (list Z) :=
  let name_bytes := as_bytes nm in
  let n_ent := (Z.of_nat (length name_bytes) + LONG_NAME_LEN - 1) / LONG_NAME_LEN in
  (λ i, split_part name_bytes 13 (i * LONG_NAME_LEN)) <$> zrange 0 n_ent.

Definition split_name_ext (nm : list Z) : list Z * list Z :=
  match split 46 nm with
  | [] => ([], [])
  | [p] => (p, [])
  | p :: q :: _ => (p, q)
  end.

(** [n] characters in upper case, padded with blanks. *)
Definition padded (n : nat) (bytes : list Z) : list Z :=
  (λ i, match bytes !! i with Some c => to_ascii_uppercase c | None => 0x20 end) <$> seq 0 n.

Definition short_name_format (nm : list Z) : list Z * list Z :=
  let '(name_, ext_) :=
    if decide (nm = [46]) then (nm, []) else if decide (nm = [46; 46]) then (nm, []) else split_name_ext nm in
  (padded 8 (as_bytes name_), padded 3 (as_bytes ext_)).

(** [generate_short_name]: indexing past the end panics. *)
Definition generate_short_name (long_name : list Z) : option (list Z) :=
  let '(name_, ext_) := split_name_ext long_name in
  let nm := as_bytes name_ in
  let ext_len := length (as_bytes ext_) in
  base ← mapM (λ i, to_ascii_uppercase <$> nm !! i) (seq 0 6);
  ext ← mapM (λ i, if (ext_len <=? i)%nat then Some 0x20 else to_ascii_uppercase <$> nm !! i) (seq 0 3);
  Some (base ++ [126; 49] ++ ext).

(** ** The representation of short entries *)

Definition short_wf (e : ShortDirEntry) : Prop :=
  length (ent_name e) = 8%nat ∧ length (extension e) = 3%nat ∧
  Forall is_byte (ent_name e) ∧ Forall is_byte (extension e) ∧
  Forall is_byte [attribute e; winnt_reserved e; creation_tenths e] ∧
  Forall (fits 16) [creation_time e; creation_date e; last_acc_date e; cluster_high e; modification_time e;
                    modification_date e; cluster_low e] ∧
  fits 32 (ent_size e).

(** A list of known length is a list of that many elements. *)
Ltac list_of_length l :=
  repeat (destruct l as [|? l]; simpl in *; try discriminate; try lia).

Lemma le_val_2 v : fits 16 v → le_val (le_bytes 2 v) = v.
Proof. intros Hv. rewrite le_val_le_bytes. apply Z.mod_small. exact Hv. Qed.
Lemma le_val_4 v : fits 32 v → le_val (le_bytes 4 v) = v.
Proof. intros Hv. rewrite le_val_le_bytes. apply Z.mod_small. exact Hv. Qed.

Lemma length_Short_bytes e : length (ent_name e) = 8%nat → length (extension e) = 3%nat → length (Short_bytes e) = 32%nat.
Proof. intros H1 H2. unfold Short_bytes. rewrite !length_app, !length_le_bytes, H1, H2. reflexivity. Qed.

Lemma Short_of_bytes e : short_wf e → Short_of (Short_bytes e) = e.
Proof.
  destruct e as [nm ext a w ct t1 d1 d2 ch t2 d3 cl sz]. unfold short_wf; simpl.
  intros (Hn & He & _ & _ & _ & Hw & Hs).
  repeat match goal with H : Forall _ (_ :: _) |- _ => apply Forall_cons in H as [? H] end.
  list_of_length nm. list_of_length ext. unfold Short_of. f_equal; first [reflexivity|by apply le_val_2|by apply le_val_4].
Qed.

Lemma le_slice l off n :
  Forall is_byte l → (off + n ≤ length l)%nat →
  le_bytes n (le_val (slice off n l)) = slice off n l ∧ 0 ≤ le_val (slice off n l) < 256 ^ Z.of_nat n.
Proof.
  intros Hb Hn. pose proof (length_slice off n l Hn) as Hl. pose proof (Forall_slice _ off n _ Hb) as Hs.
  pose proof (le_bytes_le_val _ Hs) as E. pose proof (le_val_bound _ Hs) as B. rewrite Hl in E, B. done.
Qed.

Lemma byte_at_is_byte l i : Forall is_byte l → is_byte (byte_at l i).
Proof.
  intros Hb. unfold byte_at. destruct (l !! i) as [c|] eqn:E; simpl; [|unfold fits; lia].
  by eapply (proj1 (Forall_lookup _ _) Hb).
Qed.

Lemma Short_bytes_of l : length l = 32%nat → Forall is_byte l → Short_bytes (Short_of l) = l ∧ short_wf (Short_of l).
Proof.
  intros Hl Hb.
  assert (∀ off, (off + 2 ≤ 32)%nat → le_bytes 2 (le_val (slice off 2 l)) = slice off 2 l ∧ fits 16 (le_val (slice off 2 l))) as F2.
  { intros off Ho. apply le_slice; [done|lia]. }
  assert (le_bytes 4 (le_val (slice 28 4 l)) = slice 28 4 l ∧ fits 32 (le_val (slice 28 4 l))) as F4.
  { apply le_slice; [done|lia]. }
  split.
  - unfold Short_bytes, Short_of; cbn [ent_name extension attribute winnt_reserved creation_tenths creation_time
      creation_date last_acc_date cluster_high modification_time modification_date cluster_low ent_size].
    assert (∀ off, (off + 2 ≤ 32)%nat → le_bytes 2 (le_val (slice off 2 l)) = slice off 2 l) as F2' by apply F2.
    rewrite !F2' by lia. rewrite (proj1 F4). clear F2 F2' F4 Hb. list_of_length l. reflexivity.
  - unfold short_wf, Short_of; cbn [ent_name extension attribute winnt_reserved creation_tenths creation_time
      creation_date last_acc_date cluster_high modification_time modification_date cluster_low ent_size].
    rewrite !length_slice by lia. split_and!; try done; try by apply Forall_slice.
    + repeat (apply Forall_cons; split; [by apply byte_at_is_byte|]). apply Forall_nil_2.
    + repeat (apply Forall_cons; split; [apply F2; lia|]). apply Forall_nil_2.
    + apply F4.
Qed.

Lemma first_cluster_set c e : fits 32 c → first_cluster (set_first_cluster c e) = c.
Proof.
  intros [Hc0 Hc]. unfold first_cluster, set_first_cluster; simpl.
  assert (Z.shiftr (Z.land c 0xFFFF0000) 16 = c / 65536) as ->.
  { rewrite Z.shiftr_land. change (Z.shiftr 0xFFFF0000 16) with (2 ^ 16 - 1).
    rewrite land_ones_mod, Z.shiftr_div_pow2 by lia. apply Z.mod_small. zlia. }
  assert (Z.land c 0x0000FFFF = c mod 65536) as ->.
  { change 0x0000FFFF with (2 ^ 16 - 1). by rewrite land_ones_mod by lia. }
  rewrite !wrap_small by (unfold fits; zlia). unfold wshl. rewrite Z.shiftl_mul_pow2 by lia.
  rewrite wrap_small by (unfold fits; zlia). rewrite wadd_small by (unfold fits; zlia). zlia.
Qed.

(** ** Long names *)

Definition ascii (l : list Z) : Prop := Forall (λ c, 0 < c < 128) l.

Lemma as_bytes_ascii l : Forall (λ c, 0 ≤ c < 128) l → as_bytes l = l.
Proof.
  unfold as_bytes. induction 1 as [|c l Hc Hl IH]; [done|]. change (mjoin (utf8 <$> c :: l)) with (utf8 c ++ mjoin (utf8 <$> l)). rewrite IH.
  unfold utf8. by rewrite (proj2 (Z.ltb_lt c 128)) by lia.
Qed.

(** A part of the split: thirteen characters, or the rest and a 0. *)
Lemma split_part_ok b n j :
  (j ≤ length b)%nat →
  split_part b n (Z.of_nat j) = slice j n b ++ (if (length b <? j + n)%nat then [0] else []).
Proof.
  revert j. induction n as [|n IH]; intros j Hj.
  { rewrite (proj2 (Nat.ltb_ge _ _)) by lia. unfold slice. by rewrite take_0. }
  cbn [split_part]. destruct (decide (j = length b)) as [->|Hne].
  - rewrite Z.ltb_irrefl. rewrite (proj2 (Nat.ltb_lt _ _)) by lia.
    unfold slice. by rewrite drop_all, take_nil.
  - rewrite (proj2 (Z.ltb_lt _ _)) by lia. rewrite Nat2Z.id.
    replace (Z.of_nat j + 1) with (Z.of_nat (S j)) by lia. rewrite IH by lia.
    destruct (lookup_lt_is_Some_2 b j ltac:(lia)) as [c Hc].
    unfold slice. rewrite (drop_S b c j Hc). simpl. unfold byte_at. rewrite Hc. simpl.
    replace (j + S n)%nat with (S j + n)%nat by lia. done.
Qed.

Lemma Long_of_bytes e :
  length (name1 e) = 10%nat → length (name2 e) = 12%nat → length (zero e) = 2%nat → length (name3 e) = 4%nat →
  Long_of (Long_bytes e) = e ∧ length (Long_bytes e) = 32%nat.
Proof.
  destruct e as [o n1 a t c n2 z n3]; simpl. intros H1 H2 H3 H4.
  list_of_length n1. list_of_length n2. list_of_length z. list_of_length n3. done.
Qed.

(** [initialize] and [get_name_raw] are inverse on parts: thirteen characters,
    or fewer with a 0. *)
Definition long_part (p : list Z) : Prop :=
  (ascii p ∧ length p = 13%nat) ∨ ∃ q, p = q ++ [0] ∧ ascii q ∧ (1 ≤ length q ≤ 12)%nat.

(** The three loops of [initialize] are one loop over the thirteen characters. *)
Lemma name_part_app b n m i e :
  name_part b (n + m) i e =
    '(l1, e1) ← name_part b n i e; '(l2, e2) ← name_part b m (i + n) e1; Some (l1 ++ l2, e2).
Proof.
  revert i e. induction n as [|n IH]; intros i e; simpl.
  { rewrite Nat.add_0_r. by destruct (name_part b m i e) as [[??]|]. }
  replace (i + S n)%nat with (S i + n)%nat by lia. destruct (e =? 0)%nat.
  - destruct (b !! i) as [c|]; [|done]. simpl. rewrite IH.
    destruct (name_part b n (S i) _) as [[l1 e1]|]; [|done]. simpl.
    by destruct (name_part b m (S (i + n)) e1) as [[l2 e2]|].
  - rewrite IH. destruct (name_part b n (S i) e) as [[l1 e1]|]; [|done]. simpl.
    by destruct (name_part b m (S (i + n)) e1) as [[l2 e2]|].
Qed.

Lemma name_part_length b n i e l e' : name_part b n i e = Some (l, e') → length l = (2 * n)%nat.
Proof.
  revert i e l e'. induction n as [|n IH]; intros i e l e'; simpl; [by intros [= <- _]|].
  destruct (e =? 0)%nat.
  - destruct (b !! i) as [c|]; [|done]. simpl. destruct (name_part b n (S i) _) as [[r x]|] eqn:E; [|done].
    intros [= <- <-]. apply IH in E. simpl. lia.
  - destruct (name_part b n (S i) e) as [[r x]|] eqn:E; [|done]. intros [= <- <-]. apply IH in E. simpl. lia.
Qed.

Lemma evens_app l1 l2 n : length l1 = (2 * n)%nat → evens (l1 ++ l2) = evens l1 ++ evens l2.
Proof.
  revert l1. induction n as [|n IH]; intros l1 Hl; [by destruct l1|].
  destruct l1 as [|a [|b l1]]; simpl in Hl; [lia|lia|]. simpl. f_equal. apply IH. lia.
Qed.

(** The characters of [name_part]: those of the buffer. *)
Lemma name_part_copy b q : ∀ i r,
  drop i b = q ++ r → ascii q → ∃ l, name_part b (length q) i 0 = Some (l, 0%nat) ∧ evens l = q.
Proof.
  induction q as [|c q IH]; intros i r Hd Ha; [by exists []|].
  apply Forall_cons in Ha as [Hc Ha]. simpl.
  assert (b !! i = Some c) as -> by (rewrite <- (Nat.add_0_r i), <- lookup_drop, Hd; done).
  destruct (IH (S i) r) as (l & El & Hl); [|done|].
  { replace (S i) with (i + 1)%nat by lia. rewrite <- drop_drop, Hd. done. }
  simpl. rewrite (proj2 (Z.eqb_neq c 0)) by lia. rewrite El. simpl. exists (c :: 0 :: l). by rewrite <- Hl.
Qed.

Lemma name_part_fill b n i e : e ≠ 0%nat → ∃ l, name_part b n i e = Some (l, e).
Proof.
  intros He. revert i. induction n as [|n IH]; intros i; simpl; [eauto|].
  rewrite (proj2 (Nat.eqb_neq e 0) He). destruct (IH (S i)) as [l ->]. simpl. eauto.
Qed.

Lemma through_zero_ascii q r : ascii q → through_zero (q ++ r) = q ++ through_zero r.
Proof.
  induction 1 as [|c q Hc Hq IH]; [done|]. simpl. rewrite (proj2 (Z.eqb_neq c 0)) by lia. by rewrite IH.
Qed.

Lemma name_part_long p :
  long_part p → ∃ l e, name_part p 13 0 0 = Some (l, e) ∧ through_zero (evens l) = p.
Proof.
  intros [[Ha Hl]|(q & -> & Ha & Hl)].
  - destruct (name_part_copy p p 0 []) as (l & El & Hev); [by rewrite app_nil_r|done|].
    rewrite Hl in El. exists l, 0%nat. split; [done|]. rewrite Hev.
    rewrite <- (app_nil_r p), through_zero_ascii by done. done.
  - destruct (name_part_copy (q ++ [0]) q 0 [0]) as (l & El & Hev); [done|done|].
    replace 13%nat with (length q + (1 + (12 - length q)))%nat by lia.
    generalize (12 - length q)%nat as k. intros k.
    rewrite !name_part_app, El. simpl. rewrite lookup_app_r, Nat.sub_diag by lia. simpl.
    destruct (name_part_fill (q ++ [0]) k (S (length q)) (length q)) as [l2 El2]; [lia|].
    rewrite El2. simpl. eexists _, _. split; [done|].
    rewrite (evens_app l _ (length q)) by (eapply name_part_length; exact El). simpl.
    rewrite Hev, through_zero_ascii by done. done.
Qed.

#[local] Arguments name_part : simpl never.

(** [initialize] and [get_name_raw] are inverse on parts of long names, also
    through the 32 bytes on disk. *)
Lemma long_part_roundtrip p ord chk :
  long_part p →
  ∃ e, Long_initialize p ord chk = Some e ∧ Long_of (Long_bytes e) = e ∧ length (Long_bytes e) = 32%nat ∧
    get_name_raw e = p ∧ order e = ord ∧ check_sum e = chk ∧ long_attribute e = ATTRIBUTE_LFN.
Proof.
  intros Hp. destruct (name_part_long p Hp) as (l & e & E & Hl).
  change 13%nat with (5 + 8)%nat in E. rewrite name_part_app in E.
  destruct (name_part p 5 0 0) as [[n1 e1]|] eqn:E1; [|done]. simpl in E.
  change 8%nat with (6 + 2)%nat in E. rewrite name_part_app in E.
  destruct (name_part p 6 5 e1) as [[n2 e2]|] eqn:E2; [|done]. simpl in E.
  destruct (name_part p 2 11 e2) as [[n3 e3]|] eqn:E3; [|done]. injection E as <- <-.
  apply name_part_length in E1 as L1, E2 as L2, E3 as L3.
  eexists. split; [unfold Long_initialize; rewrite E1; simpl; rewrite E2; simpl; rewrite E3; reflexivity|].
  split_and!; [by apply Long_of_bytes|by apply Long_of_bytes| |done|done|done].
  unfold get_name_raw, long_chars; simpl. rewrite (evens_app n1 _ 5), (evens_app n2 _ 6) in Hl by done. exact Hl.
Qed.

(** The number of entries of a name of [n] bytes. *)
Definition parts_of (n : nat) : nat := ((n + 12) / 13)%nat.

Lemma long_name_split_eq nm :
  ascii nm →
  long_name_split nm =
    (λ i, slice (13 * i) 13 nm ++ (if (length nm <? 13 * i + 13)%nat then [0] else [])) <$> seq 0 (parts_of (length nm)).
Proof.
  intros Ha. unfold long_name_split, LONG_NAME_LEN.
  rewrite as_bytes_ascii by (eapply Forall_impl; [exact Ha|]; simpl; intros; lia).
  assert ((Z.of_nat (length nm) + 13 - 1) / 13 = Z.of_nat (parts_of (length nm))) as ->.
  { unfold parts_of. rewrite Nat2Z.inj_div. f_equal. lia. }
  unfold zrange. rewrite Z.sub_0_r. rewrite <- (Nat2Z.id (parts_of (length nm))) at 2.
  unfold seqZ. rewrite Nat2Z.id, <- list_fmap_compose. apply list_fmap_ext. intros j i Hi%lookup_seq. simpl in Hi.
  destruct Hi as [-> Hj]. unfold compose. rewrite Z.add_0_r.
  replace (Z.of_nat j * 13) with (Z.of_nat (13 * j)) by lia. apply split_part_ok.
  unfold parts_of in Hj.
  assert (13 * ((length nm + 12) / 13) ≤ length nm + 12)%nat by apply Nat.Div0.mul_div_le. lia.
Qed.

(** The parts of a name are parts of thirteen characters, the last one with
    its 0, and together they are the name. *)
Lemma long_name_parts nm : ascii nm → Forall long_part (long_name_split nm).
Proof.
  intros Ha. rewrite long_name_split_eq by done. apply Forall_fmap, Forall_forall.
  intros i Hi%elem_of_seq. unfold parts_of in Hi.
  assert (13 * ((length nm + 12) / 13) ≤ length nm + 12)%nat by apply Nat.Div0.mul_div_le.
  unfold compose. destruct (Nat.ltb_spec (length nm) (13 * i + 13)).
  - right. exists (slice (13 * i) 13 nm). split_and!; [done|by apply Forall_slice| |];
      unfold slice; rewrite length_take, length_drop; lia.
  - left. rewrite app_nil_r. split; [by apply Forall_slice|]. apply length_slice. lia.
Qed.

Lemma join_slices {X} (l : list X) k : mjoin ((λ i, slice (13 * i) 13 l) <$> seq 0 k) = take (13 * k) l.
Proof.
  induction k as [|k IH]; [by rewrite Nat.mul_0_r, take_0|].
  rewrite seq_S, fmap_app, join_app, IH.
  assert (mjoin ((λ i, slice (13 * i) 13 l) <$> [(0 + k)%nat]) = slice (13 * k) 13 l) as -> by apply app_nil_r.
  unfold slice. replace (13 * S k)%nat with (13 * k + 13)%nat by lia. by rewrite <- take_take_drop.
Qed.

Lemma long_name_join nm :
  ascii nm → mjoin (long_name_split nm) = nm ++ (if (length nm mod 13 =? 0)%nat then [] else [0]).
Proof.
  intros Ha. rewrite long_name_split_eq by done. set (n := length nm). unfold parts_of.
  pose proof (Nat.div_mod_eq n 13) as Hdm. pose proof (Nat.mod_upper_bound n 13 ltac:(lia)) as Hmod.
  assert (∀ k, (13 * k ≤ n)%nat →
    (λ i, slice (13 * i) 13 nm ++ (if (n <? 13 * i + 13)%nat then [0] else [])) <$> seq 0 k =
    (λ i, slice (13 * i) 13 nm) <$> seq 0 k) as Hfull.
  { intros k Hk. apply list_fmap_ext. intros j i Hi%lookup_seq. destruct Hi as [-> Hj].
    rewrite (proj2 (Nat.ltb_ge _ _)) by lia. by rewrite app_nil_r. }
  destruct (Nat.eqb_spec (n mod 13) 0) as [Hz|Hnz].
  - assert ((n + 12) / 13 = n / 13)%nat as ->.
    { symmetry. apply (Nat.div_unique _ _ _ 12); lia. }
    rewrite Hfull, join_slices, app_nil_r by lia. apply take_ge. subst n. lia.
  - assert ((n + 12) / 13 = S (n / 13))%nat as ->.
    { symmetry. apply (Nat.div_unique _ _ _ (n mod 13 - 1)); lia. }
    rewrite seq_S, fmap_app, join_app, Hfull, join_slices by lia.
    assert (mjoin ((λ i, slice (13 * i) 13 nm ++ (if (n <? 13 * i + 13)%nat then [0] else [])) <$> [(0 + n / 13)%nat]) =
      slice (13 * (n / 13)) 13 nm ++ [0]) as ->.
    { etrans; [apply app_nil_r|]. change (0 + n / 13)%nat with (n / 13)%nat.
      by rewrite (proj2 (Nat.ltb_lt n (13 * (n / 13) + 13))) by lia. }
    rewrite app_assoc. f_equal. unfold slice. rewrite (take_ge (drop _ nm)) by (rewrite length_drop; fold n; lia). apply take_drop.
Qed.

(** ** Short names *)

(** A part of an 8.3 name: ASCII without dots and blanks. *)
Definition name_chars (l : list Z) : Prop := Forall (λ c, 0 < c < 128 ∧ c ≠ 46 ∧ c ≠ 32) l.

Lemma split_none sep l : Forall (λ c, c ≠ sep) l → split sep l = [l].
Proof.
  induction 1 as [|c l Hc Hl IH]; [done|]. simpl. by rewrite (proj2 (Z.eqb_neq c sep)), IH.
Qed.

Lemma split_one sep a b : Forall (λ c, c ≠ sep) a → split sep (a ++ sep :: b) = a :: split sep b.
Proof.
  induction 1 as [|c l Hc Hl IH]; simpl; [by rewrite Z.eqb_refl|]. by rewrite (proj2 (Z.eqb_neq c sep)), IH.
Qed.

Lemma until_blank_app l n : Forall (λ c, c ≠ 32) l → until_blank (l ++ replicate n 32) = l.
Proof.
  induction 1 as [|c l Hc Hl IH]; [by destruct n|]. simpl. by rewrite (proj2 (Z.eqb_neq c 32)), IH.
Qed.

Lemma padded_eq n l : (length l ≤ n)%nat → padded n l = (to_ascii_uppercase <$> l) ++ replicate (n - length l) 32.
Proof.
  intros Hl. apply list_eq. intros i. unfold padded. rewrite list_lookup_fmap.
  destruct (decide (i < n)%nat) as [Hi|Hi].
  - rewrite lookup_seq_lt by done. simpl. destruct (decide (i < length l)%nat).
    + rewrite lookup_app_l by (rewrite length_fmap; lia). rewrite list_lookup_fmap.
      destruct (lookup_lt_is_Some_2 l i) as [c ->]; done.
    + rewrite lookup_app_r by (rewrite length_fmap; lia). rewrite length_fmap, lookup_replicate_2 by lia.
      by rewrite lookup_ge_None_2 by lia.
  - rewrite lookup_seq_ge by lia. simpl. symmetry. apply lookup_ge_None_2.
    rewrite length_app, length_fmap, length_replicate. lia.
Qed.

Lemma upper_chars l : name_chars l → Forall (λ c, c ≠ 32) (to_ascii_uppercase <$> l) ∧ Forall is_byte (to_ascii_uppercase <$> l).
Proof.
  intros Hl. split; apply Forall_fmap; (eapply Forall_impl; [exact Hl|]); unfold compose, to_ascii_uppercase, fits;
    intros c Hc; simpl in *; destruct (Z.leb_spec 97 c), (Z.leb_spec c 122); simpl; lia.
Qed.

Lemma name_chars_ascii l : name_chars l → as_bytes l = l.
Proof. intros Hl. apply as_bytes_ascii. eapply Forall_impl; [exact Hl|]. simpl. intros; lia. Qed.

(** The entry that [create] writes for a base name and an extension. *)
Lemma formatted_entry base ext attr :
  name_chars base → name_chars ext → (length base ≤ 8)%nat → (length ext ≤ 3)%nat → is_byte attr →
  ∃ e, Short_initialize (padded 8 (as_bytes base)) (padded 3 (as_bytes ext)) attr = Some e ∧ short_wf e ∧
    get_name_uppercase e = (to_ascii_uppercase <$> base) ++ dotted (to_ascii_uppercase <$> ext).
Proof.
  intros Hb He Lb Le Ha. rewrite !name_chars_ascii by done.
  assert (∀ n l, (length l ≤ n)%nat → name_chars l →
    length (padded n l) = n ∧ Forall is_byte (padded n l) ∧ until_blank (padded n l) = to_ascii_uppercase <$> l) as Hpad.
  { intros n l Hn Hl. destruct (upper_chars l Hl) as [Hnb Hby]. rewrite padded_eq by done. split_and!.
    - rewrite length_app, length_fmap, length_replicate. lia.
    - apply Forall_app. split; [done|]. apply Forall_replicate. unfold fits. lia.
    - by apply until_blank_app. }
  destruct (Hpad 8%nat base Lb Hb) as (L1 & B1 & U1), (Hpad 3%nat ext Le He) as (L2 & B2 & U2).
  unfold Short_initialize, Short_new. rewrite L1, L2, !take_ge by lia.
  eexists. split; [reflexivity|]. split.
  - unfold short_wf; cbn [ent_name extension attribute winnt_reserved creation_tenths creation_time
      creation_date last_acc_date cluster_high modification_time modification_date cluster_low ent_size].
    split_and!; try done; repeat (apply Forall_cons; split; [done || (unfold fits; lia)|]);
      try apply Forall_nil_2; unfold fits; lia.
  - unfold get_name_uppercase. cbn [ent_name extension]. by rewrite U1, U2.
Qed.

Lemma name_chars_nodot l : name_chars l → Forall (λ c, c ≠ 46) l.
Proof. intros Hl. eapply Forall_impl; [exact Hl|]. by intros c (_ & ? & _). Qed.

(** The format of a name with one extension. *)
Lemma short_name_format_eq base ext rest :
  name_chars base → name_chars ext → base ≠ [] →
  short_name_format (base ++ match rest with None => dotted ext | Some r => 46 :: ext ++ 46 :: r end) =
    (padded 8 (as_bytes base), padded 3 (as_bytes ext)).
Proof.
  intros Hb He Hne. unfold short_name_format.
  destruct base as [|c base]; [done|]. assert (c ≠ 46) as Hc by (by apply Forall_cons in Hb as [(_ & ? & _) _]).
  rewrite !decide_False by (intros [= -> _]; done).
  pose proof (name_chars_nodot _ Hb) as Hb'. pose proof (name_chars_nodot _ He) as He'.
  unfold split_name_ext. destruct rest as [r|].
  - rewrite split_one, split_one by done. done.
  - destruct ext as [|d ext]; cbn [dotted].
    + rewrite app_nil_r, split_none by done. done.
    + rewrite split_one, split_none by done. done.
Qed.

(** ** Properties *)

(** A directory entry survives the disk: packing an entry to its 32 bytes
    and reading it back gives the entry, any 32 bytes are read to an entry that
    packs to them, and the first cluster reads back as it was set. *)
Theorem short_entry_roundtrip e l c :
  short_wf e → length l = 32%nat → Forall is_byte l → fits 32 c →
  Short_of (Short_bytes e) = e ∧ Short_bytes (Short_of l) = l ∧ first_cluster (set_first_cluster c e) = c.
Proof.
  intros He Hl Hb Hc. split_and!; [by apply Short_of_bytes|by apply Short_bytes_of|by apply first_cluster_set].
Qed.

(** Long names survive: the parts of an ASCII name, written to long entries
    and read back from their bytes, are the parts, and the parts together are
    the name (with a terminating 0 unless they are full). *)
Theorem long_name_roundtrip nm ord chk :
  ascii nm →
  Forall (λ p, ∃ e, Long_initialize (as_bytes p) ord chk = Some e ∧ get_name_raw (Long_of (Long_bytes e)) = p)
    (long_name_split nm) ∧
  mjoin (long_name_split nm) = nm ++ (if (length nm mod 13 =? 0)%nat then [] else [0]).
Proof.
  intros Ha. split; [|by apply long_name_join].
  eapply Forall_impl; [by apply long_name_parts|]. intros p Hp.
  destruct (long_part_roundtrip p ord chk Hp) as (e & E & Hof & _ & Hraw & _).
  exists e. rewrite Hof. split; [|done]. rewrite as_bytes_ascii; [done|].
  destruct Hp as [[Hp _]|(q & -> & Hq & _)].
  - eapply Forall_impl; [exact Hp|]. simpl. intros; lia.
  - apply Forall_app. split; [|by repeat constructor]. eapply Forall_impl; [exact Hq|]. simpl. intros; lia.
Qed.

(** A short name is found again: the entry that [create] writes for an 8.3
    name has, read back from its bytes, the upper-case name that
    [find_short_name] compares with. For a name with a second dot it does not:
    what follows the second dot is lost. *)
Theorem short_name_roundtrip base ext attr rest :
  name_chars base → name_chars ext → (1 ≤ length base ≤ 8)%nat → (length ext ≤ 3)%nat → is_byte attr →
  let nm := base ++ match rest with None => dotted ext | Some r => 46 :: ext ++ 46 :: r end in
  ∃ e, Short_initialize (short_name_format nm).1 (short_name_format nm).2 attr = Some e ∧
    (get_name_uppercase (Short_of (Short_bytes e)) = to_ascii_uppercase <$> nm ↔ rest = None).
Proof.
  intros Hb He Lb Le Ha nm. destruct (formatted_entry base ext attr) as (e & E & Hwf & Hn); [done|done|lia|lia|done|].
  exists e. subst nm. rewrite short_name_format_eq; [|done|done|intros ->; simpl in Lb; lia].
  split; [done|]. rewrite Short_of_bytes by done. rewrite Hn, fmap_app. split.
  - destruct rest as [r|]; [|done]. intros Heq%app_inv_head. exfalso.
    apply (f_equal length) in Heq. cbn [fmap list_fmap length] in Heq.
    rewrite fmap_app, length_app in Heq. cbn [fmap list_fmap length] in Heq. rewrite !length_fmap in Heq.
    destruct ext; simpl in Heq; [lia|]. rewrite length_fmap in Heq. lia.
  - intros ->. f_equal. destruct ext; [done|]. done.
Qed.

(** ** Witnesses *)

(** ["notes.txt"] and a name of sixteen characters. *)
Definition wit_base : list Z := [110; 111; 116; 101; 115].
Definition wit_ext : list Z := [116; 120; 116].
Definition wit_long : list Z := [97; 98; 99; 100; 101; 102; 103; 104; 105; 46; 106; 115; 111; 110; 112; 113].

Lemma wit_chars : name_chars wit_base ∧ name_chars wit_ext.
Proof. split; repeat (apply Forall_cons; split; [lia|]); apply Forall_nil_2. Qed.

Lemma short_entry_roundtrip_witness :
  Short_of (Short_bytes (Short_of (replicate 32 7))) = Short_of (replicate 32 7) ∧
  first_cluster (set_first_cluster 0x12345 (Short_of (replicate 32 7))) = 0x12345.
Proof.
  assert (Forall is_byte (replicate 32 7)) as Hb by (apply Forall_replicate; unfold fits; lia).
  destruct (short_entry_roundtrip (Short_of (replicate 32 7)) (replicate 32 7) 0x12345) as (H1 & _ & H2).
  - by apply Short_bytes_of.
  - reflexivity.
  - exact Hb.
  - unfold fits. lia.
  - split; assumption.
Defined.

Lemma long_name_roundtrip_witness : mjoin (long_name_split wit_long) = wit_long ++ [0].
Proof.
  destruct (long_name_roundtrip wit_long 0x42 0) as [_ H].
  - repeat (apply Forall_cons; split; [lia|]). apply Forall_nil_2.
  - exact H.
Defined.

Lemma short_name_roundtrip_witness :
  ∃ e, Short_initialize (short_name_format (wit_base ++ dotted wit_ext)).1
         (short_name_format (wit_base ++ dotted wit_ext)).2 ATTRIBUTE_ARCHIVE = Some e ∧
    get_name_uppercase (Short_of (Short_bytes e)) = to_ascii_uppercase <$> (wit_base ++ dotted wit_ext).
Proof.
  destruct (short_name_roundtrip wit_base wit_ext ATTRIBUTE_ARCHIVE None) as (e & E & H).
  - apply wit_chars.
  - apply wit_chars.
  - simpl. lia.
  - simpl. lia.
  - unfold fits, ATTRIBUTE_ARCHIVE. lia.
  - exists e. split; [exact E|]. by apply H.
Defined.
