(* ===== verification/FatFile.v ===== *)
(** * Reading and writing along a cluster chain (fat32/src/layout.rs
    [ShortDirEntry::get_pos], [read_at], [write_at])

    The content of a file is the concatenation of the sectors of its clusters.
    The theorems state what [read_at] returns and what [write_at] changes in
    terms of this content. *)

From S2P Require Import Prelude BlockCache Fat Dirent.

Section ops.
Context {D : Type} `{BlockDevice D}.

Abbreviation M := (ST (disk D)).

Definition get_pos (fs : FAT32Manager) (e : ShortDirEntry) (offset : Z) : M (Z * Z * Z) :=
  let cluster_index := cluster_of_offset fs offset in
  current_cluster ← get_cluster_at (fat fs) (first_cluster e) cluster_index;
  let current_sector :=
    first_sector_of_cluster fs current_cluster ⊞
      ((offset ⊟ (cluster_index ⊠ bytes_per_cluster fs)) / bytes_per_sector fs) in
  mret (current_cluster, current_sector, offset mod bytes_per_sector fs).

(** The cache that the data of an entry goes through. *)
Definition cache_of (e : ShortDirEntry) : which := if is_dir e then Info else Data.

(** The end of an access of [len] bytes at [offset]. *)
Definition access_end (fs : FAT32Manager) (e : ShortDirEntry) (offset len : Z) : M Z :=
  if is_dir e then
    n ← count_claster_num (fat fs) (first_cluster e);
    mret (offset ⊞ Z.min len (bytes_per_cluster fs ⊠ n))
  else mret (Z.min (offset ⊞ len) (ent_size e)).

(** The locals of the two loops: cluster, sector, offset, and the bytes read so
    far (or, for [write_at], still to be written). *)
Record cursor := mkCursor { cu_cluster : Z; cu_sector : Z; cu_off : Z; cu_bytes : list Z }.

(** To the next sector: [inr] if the chain ends. *)
Definition advance (fs : FAT32Manager) (off : Z) (c : cursor) (bytes : list Z) : M (cursor + cursor) :=
  if off mod bytes_per_cluster fs =? 0 then
    current_cluster ← get_next_cluster (fat fs) (cu_cluster c);
    mret (if END_CLUSTER <=? current_cluster
          then inr (mkCursor current_cluster (cu_sector c) off bytes)
          else inl (mkCursor current_cluster (first_sector_of_cluster fs current_cluster) off bytes))
  else mret (inl (mkCursor (cu_cluster c) (cu_sector c ⊞ 1) off bytes)).

(** The end of the part of the access that lies in the current sector. *)
Definition block_end (fs : FAT32Manager) (off end_ : Z) : Z :=
  Z.min ((off / bytes_per_sector fs ⊞ 1) ⊠ bytes_per_sector fs) end_.

Definition read_body (fs : FAT32Manager) (e : ShortDirEntry) (buf_len end_ : Z) (c : cursor) : M (cursor + cursor) :=
  let end_current_block := block_end fs (cu_off c) end_ in
  let block_read_size := end_current_block ⊟ cu_off c in
  rassert (Z.of_nat (length (cu_bytes c)) + block_read_size <=? buf_len);;
  rassert (cu_off c mod BLOCK_SZ + block_read_size <=? BLOCK_SZ);;
  src ← read_cache (cache_of e) (cu_sector c) READ 0 512
          (slice (Z.to_nat (cu_off c mod BLOCK_SZ)) (Z.to_nat block_read_size));
  let bytes := cu_bytes c ++ src in
  if end_current_block =? end_
  then mret (inr (mkCursor (cu_cluster c) (cu_sector c) (cu_off c) bytes))
  else advance fs end_current_block c bytes.

(** [read_at]: the bytes that are stored at the front of the buffer; their
    number is the result. *)
Definition read_at (fs : FAT32Manager) (e : ShortDirEntry) (offset buf_len : Z) : M (list Z) :=
  end_ ← access_end fs e offset buf_len;
  if end_ <=? offset then mret []
  else
    '(c_clu, c_sec, _) ← get_pos fs e offset;
    if END_CLUSTER <=? c_clu then mret []
    else
      c ← loop (S (Z.to_nat buf_len)) (read_body fs e buf_len end_) (mkCursor c_clu c_sec offset []);
      mret (cu_bytes c).

Definition write_body (fs : FAT32Manager) (e : ShortDirEntry) (end_ : Z) (c : cursor) : M (cursor + cursor) :=
  let end_current_block := block_end fs (cu_off c) end_ in
  let block_write_size := end_current_block ⊟ cu_off c in
  rassert (block_write_size <=? Z.of_nat (length (cu_bytes c)));;
  rassert (cu_off c mod BLOCK_SZ + block_write_size <=? BLOCK_SZ);;
  modify_cache (cache_of e) (cu_sector c) READ 0 512
    (λ blk, (splice (Z.to_nat (cu_off c mod BLOCK_SZ)) (take (Z.to_nat block_write_size) (cu_bytes c)) blk, tt));;
  let bytes := drop (Z.to_nat block_write_size) (cu_bytes c) in
  if end_current_block =? end_
  then mret (inr (mkCursor (cu_cluster c) (cu_sector c) (cu_off c) bytes))
  else
    r ← advance fs end_current_block c bytes;
    match r with
    | inr _ => unwrap None
    | inl c => mret (inl c)
    end.

(** [write_at]: the number of bytes written. *)
Definition write_at (fs : FAT32Manager) (e : ShortDirEntry) (offset : Z) (buf : list Z) : M Z :=
  end_ ← access_end fs e offset (Z.of_nat (length buf));
  '(c_clu, c_sec, _) ← get_pos fs e offset;
  c ← loop (S (length buf)) (write_body fs e end_) (mkCursor c_clu c_sec offset buf);
  mret (Z.of_nat (length buf) - Z.of_nat (length (cu_bytes c))).

End ops.

(** ** Lists of blocks *)

Lemma slice_app_split {X} (l : list X) a n m : slice a (n + m) l = slice a n l ++ slice (a + n) m l.
Proof. unfold slice. by rewrite <- drop_drop, take_take_drop. Qed.

(** A slice within one block of a list of blocks. *)
Lemma slice_join {X} (bs : list (list X)) k b r n :
  Forall (λ b, length b = 512%nat) bs → bs !! k = Some b → (r + n ≤ 512)%nat →
  slice (512 * k + r) n (mjoin bs) = slice r n b.
Proof.
  revert k. induction bs as [|c bs IH]; intros k Hbs Hk Hn; [done|]. apply Forall_cons in Hbs as [Hc Hbs].
  change (mjoin (c :: bs)) with (c ++ mjoin bs). destruct k as [|k]; simpl in Hk.
  - injection Hk as ->. unfold slice. replace (512 * 0 + r)%nat with r by lia.
    rewrite drop_app_le by lia. rewrite take_app_le by (rewrite length_drop; lia). done.
  - rewrite <- (IH k) by done. unfold slice. replace (512 * S k + r)%nat with (length c + (512 * k + r))%nat by lia.
    by rewrite drop_app_add.
Qed.

(** A change within one block of a list of blocks. *)
Lemma splice_join {X} (bs : list (list X)) k b r new :
  Forall (λ b, length b = 512%nat) bs → bs !! k = Some b → (r + length new ≤ 512)%nat →
  mjoin (<[k := splice r new b]> bs) = splice (512 * k + r) new (mjoin bs).
Proof.
  revert k. induction bs as [|c bs IH]; intros k Hbs Hk Hn; [done|]. apply Forall_cons in Hbs as [Hc Hbs].
  destruct k as [|k]; simpl in Hk.
  - injection Hk as ->. change (mjoin (<[0%nat := splice r new b]> (b :: bs))) with (splice r new b ++ mjoin bs).
    change (mjoin (b :: bs)) with (b ++ mjoin bs). replace (512 * 0 + r)%nat with r by lia.
    unfold splice. rewrite take_app_le by lia. rewrite drop_app_le by lia. by rewrite <- !app_assoc.
  - change (mjoin (<[S k := splice r new b]> (c :: bs))) with (c ++ mjoin (<[k := splice r new b]> bs)).
    change (mjoin (c :: bs)) with (c ++ mjoin bs). rewrite IH by done.
    replace (512 * S k + r)%nat with (length c + (512 * k + r))%nat by lia. unfold splice.
    rewrite take_app_add, <- (Nat.add_assoc (length c)), drop_app_add. by rewrite <- app_assoc.
Qed.

(** Writing in two steps. *)
Lemma splice_splice {X} (l : list X) o a b :
  (o + length a + length b ≤ length l)%nat → splice (o + length a) b (splice o a l) = splice o (a ++ b) l.
Proof.
  intros Hl. apply list_eq. intros i.
  rewrite lookup_splice by (rewrite length_splice; lia). rewrite !lookup_splice by (rewrite ?length_app; lia).
  rewrite length_app. repeat case_decide; try lia; try done.
  - rewrite lookup_app_r by lia. f_equal. lia.
  - rewrite lookup_app_l by lia. done.
Qed.

(** ** The content of a chain *)

Definition cluster_sectors (fs : FAT32Manager) (c : Z) : list Z :=
  zrange (root_sec fs + (c - 2) * sectors_per_cluster fs) (root_sec fs + (c - 1) * sectors_per_cluster fs).
Definition sectors (fs : FAT32Manager) (l : list Z) : list Z := mjoin (cluster_sectors fs <$> l).
Definition content (V : Z → list Z) (fs : FAT32Manager) (l : list Z) : list Z := mjoin (V <$> sectors fs l).

Lemma chain_next f E c l i x :
  chain f E c l → l !! i = Some x →
  match l !! S i with
  | Some y => next_of (E x) = y ∧ y < END_CLUSTER
  | None => END_CLUSTER ≤ next_of (E x)
  end.
Proof.
  intros Hl. revert i. induction Hl as [c Hc He|c l Hc He Hl IH]; intros i Hi.
  - apply list_lookup_singleton_Some in Hi as [-> <-]. done.
  - destruct i as [|i]; simpl in *; [|by apply IH]. injection Hi as <-.
    destruct (chain_head _ _ _ _ Hl) as (_ & l' & ->). done.
Qed.

Section file.
Context {D : Type} `{BlockDeviceLaws D}.
Context (R : Z → bool) (fs : FAT32Manager) (HF : fs_layout R fs).
Implicit Types (V : Z → list Z) (E : Z → Z) (l : list Z) (K : list (Z * bool)).

Let HL : fat_layout R (fat fs) := fsl_fat _ _ HF.
Let n_spc : nat := Z.to_nat (sectors_per_cluster fs).

Lemma n_spc_pos : (0 < n_spc)%nat ∧ Z.of_nat n_spc = sectors_per_cluster fs.
Proof. pose proof (fsl_spc _ _ HF). subst n_spc. lia. Qed.

Lemma length_cluster_sectors c : length (cluster_sectors fs c) = n_spc.
Proof. unfold cluster_sectors. rewrite length_zrange. subst n_spc. f_equal. lia. Qed.

Lemma length_sectors l : length (sectors fs l) = (n_spc * length l)%nat.
Proof.
  unfold sectors. induction l as [|c l IH]; [simpl; lia|].
  change (mjoin (cluster_sectors fs <$> c :: l)) with (cluster_sectors fs c ++ mjoin (cluster_sectors fs <$> l)).
  rewrite length_app, IH, length_cluster_sectors. simpl. lia.
Qed.

Lemma elem_of_cluster_sectors c b : b ∈ cluster_sectors fs c ↔ in_cluster fs c b.
Proof. unfold cluster_sectors. by rewrite elem_of_zrange. Qed.

Lemma elem_of_sectors l b : b ∈ sectors fs l ↔ ∃ c, c ∈ l ∧ in_cluster fs c b.
Proof.
  unfold sectors. rewrite list_elem_of_join. split.
  - intros (bs & Hb & (c & -> & Hc)%list_elem_of_fmap). exists c. split; [done|by apply elem_of_cluster_sectors].
  - intros (c & Hc & Hb). exists (cluster_sectors fs c). split; [by apply elem_of_cluster_sectors|].
    apply list_elem_of_fmap. eauto.
Qed.

Lemma sectors_NoDup l : NoDup l → NoDup (sectors fs l).
Proof.
  induction 1 as [|c l Hc Hl IH]; [apply NoDup_nil_2|].
  change (sectors fs (c :: l)) with (cluster_sectors fs c ++ sectors fs l). apply NoDup_app. split_and!; [apply NoDup_seqZ| |done].
  intros b Hb%elem_of_cluster_sectors (c' & Hc' & Hb')%elem_of_sectors. apply Hc.
  by rewrite (in_cluster_inj R fs HF c c' b Hb Hb').
Qed.

(** The [k]-th sector. *)
Lemma sectors_lookup l k c :
  l !! (k / n_spc)%nat = Some c →
  sectors fs l !! k = Some (root_sec fs + (c - 2) * sectors_per_cluster fs + Z.of_nat (k mod n_spc)).
Proof.
  destruct n_spc_pos as [Hpos Espc]. revert k. induction l as [|c' l IH]; intros k Hk; [done|].
  change (sectors fs (c' :: l)) with (cluster_sectors fs c' ++ sectors fs l).
  destruct (decide (k < n_spc)%nat) as [Hlt|Hge].
  - rewrite Nat.div_small in Hk by done. injection Hk as ->. rewrite Nat.mod_small by done.
    rewrite lookup_app_l by by rewrite length_cluster_sectors.
    unfold cluster_sectors, zrange. rewrite lookup_seqZ. split; lia.
  - assert (k / n_spc = S ((k - n_spc) / n_spc))%nat as Ediv.
    { replace k with ((k - n_spc) + 1 * n_spc)%nat at 1 by lia. rewrite Nat.div_add by lia. lia. }
    rewrite Ediv in Hk. simpl in Hk. rewrite lookup_app_r by (rewrite length_cluster_sectors; lia).
    rewrite length_cluster_sectors, (IH _ Hk). do 3 f_equal.
    replace k with ((k - n_spc) + 1 * n_spc)%nat at 2 by lia. by rewrite Nat.Div0.mod_add.
Qed.

(** The cursor is at sector [k] of the chain [l]. *)
Definition at_sector l (k : nat) (c : cursor) : Prop :=
  l !! (k / n_spc)%nat = Some (cu_cluster c) ∧ sectors fs l !! k = Some (cu_sector c).

Lemma div_mod_succ k :
  ((S k mod n_spc = 0)%nat → (S k / n_spc = S (k / n_spc))%nat) ∧
  ((S k mod n_spc ≠ 0)%nat → (S k / n_spc = k / n_spc)%nat ∧ (S k mod n_spc = S (k mod n_spc))%nat).
Proof.
  destruct n_spc_pos as [Hpos _].
  pose proof (Nat.div_mod_eq k n_spc) as E1. pose proof (Nat.mod_upper_bound k n_spc ltac:(lia)).
  destruct (decide (S (k mod n_spc) = n_spc)) as [Heq|Hne].
  - assert (S k / n_spc = S (k / n_spc) ∧ S k mod n_spc = 0)%nat as [Hd Hm].
    { assert (S k = n_spc * S (k / n_spc) + 0)%nat as Hsk by lia.
      split; [symmetry; apply (Nat.div_unique _ _ _ 0); [lia|done]|symmetry; apply (Nat.mod_unique _ _ (S (k / n_spc))); [lia|done]]. }
    split; [done|]. lia.
  - assert (S k / n_spc = k / n_spc ∧ S k mod n_spc = S (k mod n_spc))%nat as [Hd Hm].
    { assert (S k = n_spc * (k / n_spc) + S (k mod n_spc))%nat as Hsk by lia.
      split; [symmetry; apply (Nat.div_unique _ _ _ (S (k mod n_spc))); [lia|done]|symmetry; apply (Nat.mod_unique _ _ (k / n_spc)); [lia|done]]. }
    split; [lia|done].
Qed.

Lemma advance_ok V K (s : disk D) E c0 l k c bytes :
  disk_rep R V K s → usable (fat_block (fat fs)) K → fat_rep V (fat fs) E → chain (fat fs) E c0 l →
  at_sector l k c →
  ∃ r s', advance fs (512 * Z.of_nat (S k)) c bytes s = Done (r, s') ∧ disk_rep R V K s' ∧
    if decide (S k < length (sectors fs l))%nat
    then ∃ c', r = inl c' ∧ at_sector l (S k) c' ∧ cu_off c' = 512 * Z.of_nat (S k) ∧ cu_bytes c' = bytes
    else ∃ c', r = inr c' ∧ cu_bytes c' = bytes.
Proof.
  intros Hs HK HE Hl [Hc Hsec]. destruct n_spc_pos as [Hpos Espc]. destruct (div_mod_succ k) as [Hd0 Hd1].
  pose proof (chain_valid _ _ _ _ Hl) as Hv. rewrite Forall_lookup in Hv. pose proof (Hv _ _ Hc) as Hcv.
  pose proof (fl_small _ _ HL) as Hsmall. pose proof (fsl_root _ _ HF) as Hroot. pose proof (fsl_spc _ _ HF) as Hspc.
  assert (512 * Z.of_nat (S k) mod bytes_per_cluster fs = 512 * Z.of_nat (S k mod n_spc)) as Emod.
  { rewrite (fsl_bpc _ _ HF), <- Espc, Zmult_mod_distr_l, Nat2Z.inj_mod. done. }
  unfold advance. rewrite Emod. destruct (decide (S k mod n_spc = 0)%nat) as [Hz|Hnz].
  - rewrite Hz. specialize (Hd0 Hz). change (512 * Z.of_nat 0 =? 0) with true. cbv iota.
    destruct (get_next_cluster_ok R (fat fs) HL V K s E (cu_cluster c) Hs HK HE ltac:(lia)) as (s1 & E1 & Hs1).
    pose proof (chain_next _ _ _ _ _ _ Hl Hc) as Hnext. rewrite <- Hd0 in Hnext.
    rewrite (bind_step _ _ _ _ _ E1). eexists _, s1. split; [reflexivity|]. split; [done|].
    rewrite length_sectors. destruct (l !! (S k / n_spc)%nat) as [y|] eqn:Ey.
    + destruct Hnext as [-> Hy]. rewrite (proj2 (Z.leb_gt _ _) Hy).
      assert (S k / n_spc < length l)%nat as Hlt by by eapply lookup_lt_Some.
      rewrite decide_True.
      2:{ pose proof (Nat.div_mod_eq (S k) n_spc). nia. }
      eexists. split; [reflexivity|]. split_and!; [|done|done]. split; [exact Ey|]. cbn [cu_sector].
      rewrite (sectors_lookup _ _ _ Ey). destruct (first_sector_ok R fs HF y (Hv _ _ Ey)) as [-> _].
      rewrite Hz. f_equal. lia.
    + rewrite (proj2 (Z.leb_le _ _) Hnext). rewrite decide_False; [by eexists|].
      apply lookup_ge_None in Ey. pose proof (Nat.div_mod_eq (S k) n_spc). nia.
  - destruct (Hd1 Hnz) as [Hdiv Hmod]. rewrite (proj2 (Z.eqb_neq (512 * Z.of_nat (S k mod n_spc)) 0)) by lia.
    eexists _, s. split; [reflexivity|]. split; [done|]. rewrite length_sectors. rewrite decide_True.
    2:{ assert (k / n_spc < length l)%nat by by eapply lookup_lt_Some.
        pose proof (Nat.div_mod_eq (S k) n_spc). pose proof (Nat.mod_upper_bound (S k) n_spc ltac:(lia)). nia. }
    eexists. split; [reflexivity|]. split_and!; [|done|done]. split; cbn [cu_cluster cu_sector]; [by rewrite Hdiv|].
    rewrite (sectors_lookup l k _ Hc) in Hsec. injection Hsec as <-.
    rewrite (sectors_lookup l (S k) (cu_cluster c)) by by rewrite Hdiv. rewrite Hmod. f_equal.
    assert (0 ≤ (cu_cluster c - 2) * sectors_per_cluster fs ≤ 0xF000000 * 256) by nia.
    pose proof (Nat.mod_upper_bound k n_spc ltac:(lia)). pose proof (fl_first _ _ HL). pose proof (fl_order _ _ HL).
    pose proof (fl_entries _ _ HL).
    rewrite wadd_small by (unfold fits; lia). lia.
Qed.

(** The bytes that the clusters of the chain hold. *)
Definition capacity l : Z := 512 * Z.of_nat (length (sectors fs l)).

Lemma at_sector_fits E c0 l k c :
  chain (fat fs) E c0 l → at_sector l k c →
  (k < length (sectors fs l))%nat ∧ cu_sector c ∈ sectors fs l ∧ fits 64 (cu_sector c) ∧
  ¬ fat_block (fat fs) (cu_sector c) ∧ cu_sector c ≠ fsinfo fs.
Proof.
  intros Hl [_ Hsec]. pose proof (list_elem_of_lookup_2 _ _ _ Hsec) as Hin.
  pose proof (chain_valid _ _ _ _ Hl) as Hv. rewrite Forall_forall in Hv.
  pose proof Hin as (x & Hx & Hb)%elem_of_sectors. destruct (first_sector_ok R fs HF x (Hv _ Hx)) as [_ Hout].
  destruct (Hout _ Hb) as (? & ? & ?). split_and!; try done. by eapply lookup_lt_Some.
Qed.

Lemma get_pos_ok V K (s : disk D) E e l offset :
  disk_rep R V K s → usable (fat_block (fat fs)) K → fat_rep V (fat fs) E →
  chain (fat fs) E (first_cluster e) l → 0 ≤ offset ≤ capacity l → capacity l < 2 ^ 32 →
  ∃ c sec s', get_pos fs e offset s = Done ((c, sec, offset mod 512), s') ∧ disk_rep R V K s' ∧
    if decide (offset = capacity l) then END_CLUSTER ≤ c
    else c < END_CLUSTER ∧ ∀ off bytes, at_sector l (Z.to_nat (offset / 512)) (mkCursor c sec off bytes).
Proof.
  intros Hs HK HE Hl Hoff Hcap. destruct n_spc_pos as [Hpos Espc].
  pose proof (fsl_bps _ _ HF) as Ebps. pose proof (fsl_bpc _ _ HF) as Ebpc. rewrite <- Espc in Ebpc.
  unfold capacity in *. rewrite length_sectors in *.
  assert (cluster_of_offset fs offset = offset / (512 * Z.of_nat n_spc)) as Eci.
  { unfold cluster_of_offset. rewrite wrap_small by (unfold fits; lia). by rewrite Ebpc. }
  set (ci := offset / (512 * Z.of_nat n_spc)) in *.
  pose proof (Z.div_mod offset (512 * Z.of_nat n_spc) ltac:(lia)) as Edm. fold ci in Edm.
  pose proof (Z.mod_pos_bound offset (512 * Z.of_nat n_spc) ltac:(lia)) as Hm.
  assert (0 ≤ ci ≤ Z.of_nat (length l)) as Hci by (split; [apply Z.div_pos; lia|nia]).
  destruct (get_cluster_at_ok R (fat fs) HL V K s E _ l ci Hs HK HE Hl Hci) as (c & s1 & E1 & Hs1 & Hc).
  eexists c, _, s1. split; [|split; [done|]].
  { unfold get_pos. rewrite Eci, (bind_step _ _ _ _ _ E1), Ebps. reflexivity. }
  destruct (decide (ci = Z.of_nat (length l))) as [Eend|Hne].
  - rewrite decide_True; [done|]. nia.
  - rewrite decide_False by nia. pose proof (chain_valid _ _ _ _ Hl) as Hv. rewrite Forall_lookup in Hv.
    specialize (Hv _ _ Hc). pose proof (fl_small _ _ HL). pose proof (fsl_root _ _ HF). pose proof (fsl_spc _ _ HF).
    destruct (first_sector_ok R fs HF c Hv) as [-> _]. rewrite Ebpc.
    assert (Z.to_nat (offset / 512) / n_spc = Z.to_nat ci)%nat as Ek.
    { subst ci. rewrite <- Z.div_div by lia. rewrite (Z2Nat.inj_div (offset / 512)); [by rewrite Nat2Z.id|apply Z.div_pos; lia|lia]. }
    assert (Z.of_nat (Z.to_nat (offset / 512) mod n_spc) = (offset mod (512 * Z.of_nat n_spc)) / 512) as Em.
    { rewrite Nat2Z.inj_mod, Z2Nat.id by (apply Z.div_pos; lia). rewrite Z.rem_mul_r by lia. zlia. }
    split; [unfold END_CLUSTER; lia|]. intros off bytes.
    assert (l !! (Z.to_nat (offset / 512) / n_spc)%nat = Some c) as Hlk by by rewrite Ek.
    split; [done|]. rewrite (sectors_lookup _ _ _ Hlk), Em. cbn [cu_sector]. f_equal.
    rewrite (wmul_small 64 ci) by (unfold fits; nia). rewrite wsub_small by (unfold fits; nia).
    replace (offset - ci * (512 * Z.of_nat n_spc)) with (offset mod (512 * Z.of_nat n_spc)) by lia.
    assert (0 ≤ (offset mod (512 * Z.of_nat n_spc)) / 512 < 2 ^ 32) by (split; [apply Z.div_pos; lia|apply Z.div_lt_upper_bound; lia]).
    assert (0 ≤ (c - 2) * sectors_per_cluster fs ≤ 0xF000000 * 256) by nia.
    pose proof (fl_first _ _ HL). pose proof (fl_order _ _ HL). pose proof (fl_entries _ _ HL).
    rewrite wadd_small by (unfold fits; lia). done.
Qed.

Lemma block_end_ok (k : nat) off end_ :
  Z.of_nat k = off / 512 → 0 ≤ off < end_ → end_ < 2 ^ 34 →
  block_end fs off end_ = Z.min (512 * Z.of_nat (S k)) end_ ∧
  block_end fs off end_ ⊟ off = Z.min (512 * Z.of_nat (S k)) end_ - off ∧
  off mod 512 = off - 512 * Z.of_nat k ∧ 0 ≤ off - 512 * Z.of_nat k < 512.
Proof.
  intros Hk Hoff Hend. rewrite (Nat2Z.inj_succ k), Hk. unfold block_end. rewrite (fsl_bps _ _ HF).
  rewrite (wadd_small 64) by (unfold fits; zlia). rewrite wmul_small by (unfold fits; zlia).
  split_and!; [zlia|rewrite wsub_small; [zlia|unfold fits; zlia]|zlia|zlia|zlia].
Qed.

Lemma slice_all V K (s : disk D) b : disk_rep R V K s → slice (Z.to_nat 0) (Z.to_nat 512) (V b) = V b.
Proof.
  intros Hs. destruct (disk_rep_wf _ _ _ _ b Hs) as [Hlen _].
  unfold slice. change (Z.to_nat 0) with 0%nat. rewrite drop_0. apply take_ge. rewrite Hlen. lia.
Qed.

Lemma blocks_wf V K (s : disk D) bs : disk_rep R V K s → Forall (λ b, length b = 512%nat) (V <$> bs).
Proof. intros Hs. apply Forall_fmap, Forall_forall. intros b _. by destruct (disk_rep_wf _ _ _ _ b Hs). Qed.

Lemma length_content V K (s : disk D) l : disk_rep R V K s → Z.of_nat (length (content V fs l)) = capacity l.
Proof.
  intros Hs. unfold content, capacity. pose proof (blocks_wf V K s (sectors fs l) Hs) as Hw. revert Hw.
  rewrite <- (length_fmap V (sectors fs l)). generalize (V <$> sectors fs l). intros bs.
  induction bs as [|b bs IH]; intros Hw; [done|].
  apply Forall_cons in Hw as [Hb Hw]. change (mjoin (b :: bs)) with (b ++ mjoin bs).
  rewrite length_app, Nat2Z.inj_add, IH, Hb by done. rewrite length_cons. lia.
Qed.

(** The blocks that reading and writing a file use. *)
Definition file_block l (b : Z) : Prop := fat_block (fat fs) b ∨ b ∈ sectors fs l.

Lemma usable_fat l K : usable (file_block l) K → usable (fat_block (fat fs)) K.
Proof. intros HK. apply (usable_mono _ _ _ HK). by left. Qed.

Section entry.
Context (e : ShortDirEntry) (E : Z → Z) (c0 : Z) (l : list Z).
Context (Hl : chain (fat fs) E c0 l).
Context (Hcache : ∀ b, b ∈ sectors fs l → R b = is_dir e).

Lemma cache_of_region b : b ∈ sectors fs l → cache_of e = region R b.
Proof. intros Hb. unfold cache_of, region. by rewrite (Hcache b Hb). Qed.

(** One turn of the loop of [read_at]. *)
Lemma read_body_ok V K (s : disk D) buf_len end_ k c :
  disk_rep R V K s → usable (file_block l) K → fat_rep V (fat fs) E →
  at_sector l k c → Z.of_nat k = cu_off c / 512 → 0 ≤ cu_off c < end_ → end_ < 2 ^ 34 →
  Z.of_nat (length (cu_bytes c)) + (end_ - cu_off c) ≤ buf_len →
  let e' := Z.min (512 * Z.of_nat (S k)) end_ in
  let bytes := cu_bytes c ++ slice (Z.to_nat (cu_off c)) (Z.to_nat (e' - cu_off c)) (content V fs l) in
  ∃ s', disk_rep R V K s' ∧
    read_body fs e buf_len end_ c s =
      if e' =? end_ then Done (inr (mkCursor (cu_cluster c) (cu_sector c) (cu_off c) bytes), s')
      else advance fs e' c bytes s'.
Proof.
  intros Hs HK HE Hat Hk Hoff Hend Hbuf e' bytes.
  destruct (block_end_ok k _ _ Hk Hoff Hend) as (Ebe & Ebs & Emod & Hr). fold e' in Ebe, Ebs.
  destruct (at_sector_fits _ _ _ _ _ Hl Hat) as (Hlt & Hin & Hfit & _).
  destruct (read_cache_ok R V K s (cu_sector c) READ 0 512
    (slice (Z.to_nat (cu_off c mod BLOCK_SZ)) (Z.to_nat (e' - cu_off c))) Hs (proj1 HK)
    (usable_read _ _ _ _ HK (λ _, or_intror Hin)) Hfit ltac:(lia)) as (s1 & E1 & Hs1).
  rewrite (slice_all V K s) in E1 by done.
  assert (slice (Z.to_nat (cu_off c mod BLOCK_SZ)) (Z.to_nat (e' - cu_off c)) (V (cu_sector c)) =
          slice (Z.to_nat (cu_off c)) (Z.to_nat (e' - cu_off c)) (content V fs l)) as Esl.
  { unfold content, BLOCK_SZ. rewrite Emod.
    replace (Z.to_nat (cu_off c)) with (512 * k + Z.to_nat (cu_off c - 512 * Z.of_nat k))%nat by lia.
    symmetry. apply slice_join; [by eapply blocks_wf| |lia].
    rewrite list_lookup_fmap. destruct Hat as [_ ->]. done. }
  exists s1. split; [done|]. unfold read_body. rewrite Ebs, Ebe, (cache_of_region _ Hin).
  rewrite (proj2 (Z.leb_le (Z.of_nat _ + _) _)) by lia. rewrite (proj2 (Z.leb_le (_ mod _ + _) _)) by (unfold BLOCK_SZ; lia).
  unfold rassert, mbind, st_bind, mret, st_ret. rewrite E1, Esl. fold bytes. by destruct (e' =? end_).
Qed.

(** The loop reads up to the end of the access or of the chain. *)
Lemma read_loop V K buf_len end_ :
  usable (file_block l) K → fat_rep V (fat fs) E → end_ < 2 ^ 34 → ∀ fuel (s : disk D) k c,
  disk_rep R V K s → at_sector l k c → Z.of_nat k = cu_off c / 512 → 0 ≤ cu_off c < end_ →
  Z.of_nat (length (cu_bytes c)) + (end_ - cu_off c) ≤ buf_len → (Z.to_nat (end_ - cu_off c) ≤ fuel)%nat →
  ∃ c' s', loop fuel (read_body fs e buf_len end_) c s = Done (c', s') ∧ disk_rep R V K s' ∧
    cu_bytes c' = cu_bytes c ++
      slice (Z.to_nat (cu_off c)) (Z.to_nat (Z.min end_ (capacity l) - cu_off c)) (content V fs l).
Proof.
  intros HK HE Hend. induction fuel as [|fuel IH]; intros s k c Hs Hat Hk Hoff Hbuf Hfuel; [lia|].
  destruct (read_body_ok V K s buf_len end_ k c Hs HK HE Hat Hk Hoff Hend Hbuf) as (s1 & Hs1 & E1).
  set (e' := Z.min (512 * Z.of_nat (S k)) end_) in *. set (bytes := cu_bytes c ++ _) in E1.
  assert (cu_off c < e' ≤ 512 * Z.of_nat (S k)) as He' by (subst e'; zlia).
  destruct (at_sector_fits _ _ _ _ _ Hl Hat) as (Hlt & _). unfold capacity.
  destruct (Z.eqb_spec e' end_) as [Eend|Hne].
  - eexists _, s1. split; [by apply loop_exit|]. split; [done|]. cbn [cu_bytes]. subst bytes. do 3 f_equal. lia.
  - assert (e' = 512 * Z.of_nat (S k) ∧ e' < end_) as [Ee Hlt'] by (subst e'; lia). rewrite Ee in E1.
    destruct (advance_ok V K s1 E c0 l k c bytes Hs1 (usable_fat _ _ HK) HE Hl Hat) as (r & s2 & E2 & Hs2 & Hr). rewrite E2 in E1.
    case_decide as Hsk.
    + destruct Hr as (c' & -> & Hat' & Eoff & Ebytes).
      assert (length (slice (Z.to_nat (cu_off c)) (Z.to_nat (e' - cu_off c)) (content V fs l)) = Z.to_nat (e' - cu_off c)) as Hsl.
      { apply length_slice. pose proof (length_content V K s l Hs) as Hc. unfold capacity in Hc. lia. }
      assert (length bytes = length (cu_bytes c) + Z.to_nat (e' - cu_off c))%nat as Hlb
        by (subst bytes; rewrite length_app, Hsl; done).
      destruct (IH s2 (S k) c' Hs2 Hat') as (c2 & s3 & E3 & Hs3 & Hb); rewrite ?Eoff, ?Ebytes; try lia; [zlia|].
      exists c2, s3. split; [rewrite <- E3; by apply loop_again|]. split; [done|].
      rewrite Hb, Ebytes, Eoff. subst bytes. rewrite <- app_assoc. f_equal. unfold capacity.
      replace (Z.to_nat (512 * Z.of_nat (S k))) with (Z.to_nat (cu_off c) + Z.to_nat (e' - cu_off c))%nat by lia.
      rewrite <- slice_app_split. f_equal. lia.
    + destruct Hr as (c' & -> & Ebytes). exists c', s2. split; [by apply loop_exit|]. split; [done|].
      rewrite Ebytes. subst bytes. do 3 f_equal. lia.
Qed.

(** Changing a sector of the chain changes the content at its place. *)
Lemma content_write V K (s : disk D) k c r part :
  disk_rep R V K s → at_sector l k c → (r + length part ≤ 512)%nat →
  content (<[cu_sector c := splice r part (V (cu_sector c))]> V) fs l = splice (512 * k + r) part (content V fs l).
Proof.
  intros Hs [_ Hsec] Hr. unfold content. rewrite <- (splice_join _ k (V (cu_sector c))); [|by eapply blocks_wf| |done].
  2:{ by rewrite list_lookup_fmap, Hsec. }
  f_equal. apply list_eq. intros i. pose proof (sectors_NoDup _ (chain_NoDup _ _ _ _ Hl)) as Hnd.
  destruct (decide (i = k)) as [->|Hne].
  - rewrite list_lookup_insert_eq by (rewrite length_fmap; by eapply lookup_lt_Some).
    rewrite list_lookup_fmap, Hsec. simpl. by rewrite fn_lookup_insert.
  - rewrite list_lookup_insert_ne by done. rewrite !list_lookup_fmap.
    destruct (sectors fs l !! i) as [b|] eqn:Eb; [|done]. simpl. rewrite fn_lookup_insert_ne; [done|].
    intros Heq. apply Hne. subst b. by eapply NoDup_lookup.
Qed.

(** One turn of the loop of [write_at]. *)
Lemma write_body_ok V K (s : disk D) end_ k c :
  disk_rep R V K s → usable (file_block l) K → fat_rep V (fat fs) E → Forall is_byte (cu_bytes c) →
  at_sector l k c → Z.of_nat k = cu_off c / 512 → 0 ≤ cu_off c < end_ → end_ < 2 ^ 34 →
  Z.of_nat (length (cu_bytes c)) = end_ - cu_off c →
  let e' := Z.min (512 * Z.of_nat (S k)) end_ in
  let n := Z.to_nat (e' - cu_off c) in
  ∃ V' s', disk_rep R V' K s' ∧ fat_rep V' (fat fs) E ∧
    content V' fs l = splice (Z.to_nat (cu_off c)) (take n (cu_bytes c)) (content V fs l) ∧
    (∀ b, b ∉ sectors fs l → V' b = V b) ∧
    write_body fs e end_ c s =
      if e' =? end_ then Done (inr (mkCursor (cu_cluster c) (cu_sector c) (cu_off c) (drop n (cu_bytes c))), s')
      else (r ← advance fs e' c (drop n (cu_bytes c)); match r with inr _ => unwrap None | inl c => mret (inl c) end) s'.
Proof.
  intros Hs HK HE Hby Hat Hk Hoff Hend Hlen e' n.
  destruct (block_end_ok k _ _ Hk Hoff Hend) as (Ebe & Ebs & Emod & Hr). fold e' in Ebe, Ebs.
  destruct (at_sector_fits _ _ _ _ _ Hl Hat) as (Hlt & Hin & Hfit & Hnf & _).
  assert (cu_off c < e' ≤ end_ ∧ e' ≤ 512 * Z.of_nat (S k)) as He' by (subst e'; zlia).
  set (r := Z.to_nat (cu_off c mod BLOCK_SZ)). set (part := take n (cu_bytes c)).
  assert (length part = n) as Hpart by (subst part n; rewrite length_take; lia).
  assert (r = Z.to_nat (cu_off c - 512 * Z.of_nat k)) as Er by (subst r; unfold BLOCK_SZ; by rewrite Emod).
  assert (r + length part ≤ 512)%nat as Hrn by (rewrite Hpart; subst n; lia).
  destruct (modify_cache_ok R V K s (cu_sector c) READ 0 512 (λ blk, (splice r part blk, tt)) Hs (proj1 HK)
    (usable_write _ _ _ _ HK (λ _, or_intror Hin)) Hfit)
    as (s1 & E1 & Hs1); [lia|lia|lia| |].
  { intros blk Hb Hbb. simpl. rewrite length_splice by (rewrite Hb; lia). split; [done|].
    apply Forall_splice; [|done]. by apply Forall_take. }
  cbn [fst snd] in E1, Hs1. rewrite (slice_all V K s) in Hs1 by done.
  assert (splice (Z.to_nat 0) (splice r part (V (cu_sector c))) (V (cu_sector c)) = splice r part (V (cu_sector c))) as Espl.
  { destruct (disk_rep_wf _ _ _ _ (cu_sector c) Hs) as [Hw _]. unfold splice at 1. change (Z.to_nat 0) with 0%nat.
    rewrite take_0, drop_ge by (rewrite length_splice; lia). by rewrite app_nil_r. }
  rewrite Espl in Hs1. eexists _, s1. split_and!; [exact Hs1|by apply (fat_rep_other R (fat fs) HL)| | |].
  - rewrite (content_write V K s k c r part Hs Hat Hrn). f_equal. lia.
  - intros b Hb. rewrite fn_lookup_insert_ne; [done|]. by intros <-.
  - unfold write_body. rewrite Ebs, Ebe, (cache_of_region _ Hin). fold r. fold n. fold part.
    rewrite (proj2 (Z.leb_le (_ - _) _)) by lia. rewrite (proj2 (Z.leb_le (_ mod _ + _) _)) by (unfold BLOCK_SZ; lia).
    unfold rassert, mbind, st_bind, mret, st_ret. rewrite E1. by destruct (e' =? end_).
Qed.

(** The loop writes all the bytes. *)
Lemma write_loop K end_ :
  usable (file_block l) K → end_ ≤ capacity l → end_ < 2 ^ 34 → ∀ fuel V (s : disk D) k c,
  disk_rep R V K s → fat_rep V (fat fs) E → Forall is_byte (cu_bytes c) →
  at_sector l k c → Z.of_nat k = cu_off c / 512 → 0 ≤ cu_off c < end_ →
  Z.of_nat (length (cu_bytes c)) = end_ - cu_off c → (Z.to_nat (end_ - cu_off c) ≤ fuel)%nat →
  ∃ c' s' V', loop fuel (write_body fs e end_) c s = Done (c', s') ∧ disk_rep R V' K s' ∧ cu_bytes c' = [] ∧
    fat_rep V' (fat fs) E ∧ content V' fs l = splice (Z.to_nat (cu_off c)) (cu_bytes c) (content V fs l) ∧
    (∀ b, b ∉ sectors fs l → V' b = V b).
Proof.
  intros HK Hcap Hend. induction fuel as [|fuel IH]; intros V s k c Hs HE Hby Hat Hk Hoff Hlen Hfuel; [lia|].
  destruct (write_body_ok V K s end_ k c Hs HK HE Hby Hat Hk Hoff Hend Hlen) as (V1 & s1 & Hs1 & HE1 & Hc1 & Ho1 & E1).
  set (e' := Z.min (512 * Z.of_nat (S k)) end_) in *. set (n := Z.to_nat (e' - cu_off c)) in *.
  assert (cu_off c < e' ≤ 512 * Z.of_nat (S k) ∧ e' ≤ end_) as He' by (subst e'; zlia).
  destruct (Z.eqb_spec e' end_) as [Eend|Hne].
  - assert (length (cu_bytes c) ≤ n)%nat by lia. rewrite take_ge in Hc1 by lia. rewrite drop_ge in E1 by lia.
    eexists _, s1, V1. split_and!; [by apply loop_exit|done|done|done|done|done].
  - assert (e' = 512 * Z.of_nat (S k) ∧ e' < end_) as [Ee Hlt'] by (subst e'; lia). rewrite Ee in E1.
    destruct (advance_ok V1 K s1 E c0 l k c (drop n (cu_bytes c)) Hs1 (usable_fat _ _ HK) HE1 Hl Hat) as (r & s2 & E2 & Hs2 & Hr).
    rewrite (bind_step _ _ _ _ _ E2) in E1. rewrite decide_True in Hr by (unfold capacity in Hcap; lia).
    destruct Hr as (c' & -> & Hat' & Eoff & Ebytes).
    destruct (IH V1 s2 (S k) c' Hs2 HE1) as (c2 & s3 & V3 & E3 & Hs3 & Hb & HE3 & Hc3 & Ho3);
      rewrite ?Eoff, ?Ebytes, ?length_drop; try lia; [by apply Forall_drop|done|zlia|].
    exists c2, s3, V3. split_and!; [rewrite <- E3; by apply loop_again|done|done|done| |].
    + rewrite Hc3, Hc1, Ebytes, Eoff.
      assert (length (take n (cu_bytes c)) = n) as Htn by (rewrite length_take; lia).
      replace (Z.to_nat (512 * Z.of_nat (S k))) with (Z.to_nat (cu_off c) + length (take n (cu_bytes c)))%nat by lia.
      rewrite splice_splice; [by rewrite take_drop|]. rewrite Htn, length_drop.
      pose proof (length_content V K s l Hs). lia.
    + intros b Hb'. by rewrite Ho3, Ho1.
Qed.

End entry.

(** The clusters of an entry; a file without data has none. *)
Definition clusters_of (E : Z → Z) (e : ShortDirEntry) (l : list Z) : Prop :=
  chain (fat fs) E (first_cluster e) l ∨ (l = [] ∧ is_dir e = false ∧ first_cluster e = 0).

(** The number of bytes an entry gives access to. *)
Definition file_end (e : ShortDirEntry) l : Z := if is_dir e then capacity l else ent_size e.

(** A stored entry: the clusters hold its bytes, and go through the cache that
    the entry uses. *)
Record stored (E : Z → Z) (e : ShortDirEntry) l : Prop := {
  st_chain : clusters_of E e l;
  st_end : 0 ≤ file_end e l ≤ capacity l;
  st_small : capacity l < 2 ^ 32;
  st_cache b : b ∈ sectors fs l → R b = is_dir e;
}.

Lemma stored_chain E e l : stored E e l → (0 < file_end e l ∨ is_dir e = true) → chain (fat fs) E (first_cluster e) l.
Proof.
  intros [[Hl|(-> & Hd & _)] Hend _ _] Hor; [done|]. destruct Hor as [Hpos|]; [|congruence].
  unfold capacity in Hend. rewrite length_sectors in Hend. simpl in Hend. lia.
Qed.

Lemma access_end_ok V K (s : disk D) E e l offset len :
  disk_rep R V K s → usable (fat_block (fat fs)) K → fat_rep V (fat fs) E → stored E e l →
  0 ≤ offset < 2 ^ 32 → 0 ≤ len < 2 ^ 32 →
  ∃ s', access_end fs e offset len s =
    Done (if is_dir e then offset + Z.min len (capacity l) else Z.min (offset + len) (ent_size e), s') ∧
    disk_rep R V K s'.
Proof.
  intros Hs HK HE He Hoff Hlen. pose proof (st_small _ _ _ He) as Hcap. unfold access_end.
  destruct (is_dir e) eqn:Hd.
  - pose proof (stored_chain _ _ _ He (or_intror Hd)) as Hl. destruct (chain_head _ _ _ _ Hl) as [Hc _].
    pose proof (chain_length (fat fs) _ _ _ Hl) as Hll. pose proof (fl_small _ _ HL) as Hsm. unfold fat_fuel in Hll.
    destruct (count_loop R (fat fs) HL V K E l HK HE (first_cluster e) s 0 (fat_fuel (fat fs)) Hs Hl) as (s1 & E1 & Hs1);
      [unfold fat_fuel; lia|lia|lia|].
    assert (count_claster_num (fat fs) (first_cluster e) s = Done (Z.of_nat (length l), s1)) as E2.
    { unfold count_claster_num. by rewrite (proj2 (Z.eqb_neq _ 0)) by lia. }
    exists s1. split; [|done]. rewrite (bind_step _ _ _ _ _ E2).
    assert (bytes_per_cluster fs * Z.of_nat (length l) = capacity l) as Ecap.
    { unfold capacity. rewrite length_sectors, (fsl_bpc _ _ HF). destruct n_spc_pos. lia. }
    assert (0 ≤ capacity l) by (unfold capacity; lia).
    rewrite wmul_small, Ecap by (unfold fits; lia). rewrite wadd_small by (unfold fits; lia). done.
  - exists s. split; [|done]. rewrite wadd_small by (unfold fits; lia). done.
Qed.

Lemma read_at_ok V K (s : disk D) E e l offset len :
  disk_rep R V K s → usable (file_block l) K → fat_rep V (fat fs) E → stored E e l →
  0 ≤ offset < 2 ^ 32 → 0 ≤ len < 2 ^ 32 → (is_dir e = true → offset ≤ capacity l) →
  ∃ s', read_at fs e offset len s =
    Done (slice (Z.to_nat offset) (Z.to_nat (Z.min len (file_end e l - offset))) (content V fs l), s') ∧
    disk_rep R V K s'.
Proof.
  intros Hs HK HE He Hoff Hlen Hdir.
  destruct (access_end_ok V K s E e l offset len Hs (usable_fat _ _ HK) HE He Hoff Hlen) as (s1 & E1 & Hs1).
  unfold read_at. rewrite (bind_step _ _ _ _ _ E1). clear E1. set (end_ := if is_dir e then _ else _).
  pose proof (st_small _ _ _ He) as Hcap. pose proof (st_end _ _ _ He) as Hfe.
  assert (end_ ≤ offset + len ∧ Z.min end_ (capacity l) - offset = Z.min len (file_end e l - offset)) as [Hle Hmin].
  { subst end_. revert Hfe Hdir. unfold file_end. destruct (is_dir e); intros; split; try lia. }
  destruct (Z.leb_spec end_ offset) as [Hshort|Hlong].
  { exists s1. split; [|done]. replace (Z.to_nat (Z.min len _)) with 0%nat by lia. unfold slice. by rewrite take_0. }
  assert (chain (fat fs) E (first_cluster e) l ∧ offset ≤ capacity l) as [Hl Hoc].
  { revert Hfe Hdir Hlong. pose proof (stored_chain _ _ _ He) as Hch. revert Hch. subst end_. unfold file_end.
    destruct (is_dir e); intros; split; try lia; try (by apply Hdir); apply Hch; [by right|left; lia]. }
  destruct (get_pos_ok V K s1 E e l offset Hs1 (usable_fat _ _ HK) HE Hl) as (c & sec & s2 & E2 & Hs2 & Hc); [lia|done|].
  rewrite (bind_step _ _ _ _ _ E2). cbv beta iota.
  case_decide as Hend.
  { rewrite (proj2 (Z.leb_le _ _) Hc). exists s2. split; [|done].
    replace (Z.to_nat (Z.min len _)) with 0%nat by lia. unfold slice. by rewrite take_0. }
  destruct Hc as [Hc Hat]. rewrite (proj2 (Z.leb_gt _ _) Hc).
  destruct (read_loop e E _ l Hl (st_cache _ _ _ He) V K len end_ HK HE ltac:(lia) (S (Z.to_nat len)) s2
    (Z.to_nat (offset / 512)) (mkCursor c sec offset []) Hs2 (Hat _ _)) as (c' & s3 & E3 & Hs3 & Hb); cbn [cu_off cu_bytes length];
    [zlia|lia|lia|lia|].
  exists s3. split; [|done]. rewrite (bind_step _ _ _ _ _ E3), Hb. cbn [cu_off cu_bytes]. by rewrite Hmin.
Qed.

(** [read_at] returns the bytes of the file's content from the offset, as
    many as the buffer takes and the file has (a directory has the bytes of all
    its clusters), whatever the caches hold, and leaves the volume as it is; it
    never runs past the end of the chain. *)
Theorem read_at_exact V K (s : disk D) E e l offset len :
  disk_rep R V K s → usable (file_block l) K → fat_rep V (fat fs) E → stored E e l →
  0 ≤ offset < 2 ^ 32 → 0 ≤ len < 2 ^ 32 → (is_dir e = true → offset ≤ capacity l) →
  ∃ s', read_at fs e offset len s =
    Done (slice (Z.to_nat offset) (Z.to_nat (Z.min len (file_end e l - offset))) (content V fs l), s') ∧
    disk_rep R V K s'.
Proof. apply read_at_ok. Qed.

Lemma write_at_ok V K (s : disk D) E e l offset buf :
  disk_rep R V K s → usable (file_block l) K → fat_rep V (fat fs) E → stored E e l →
  Forall is_byte buf → buf ≠ [] → 0 ≤ offset → offset + Z.of_nat (length buf) ≤ file_end e l →
  ∃ s' V', write_at fs e offset buf s = Done (Z.of_nat (length buf), s') ∧ disk_rep R V' K s' ∧
    content V' fs l = splice (Z.to_nat offset) buf (content V fs l) ∧
    (∀ b, b ∉ sectors fs l → V' b = V b) ∧ fat_rep V' (fat fs) E.
Proof.
  intros Hs HK HE He Hby Hbuf Hoff Hfit. pose proof (st_small _ _ _ He) as Hcap. pose proof (st_end _ _ _ He) as Hfe.
  assert (0 < length buf)%nat as Hpos by (destruct buf; [done|simpl; lia]).
  pose proof (stored_chain _ _ _ He ltac:(left; lia)) as Hl.
  destruct (access_end_ok V K s E e l offset (Z.of_nat (length buf)) Hs (usable_fat _ _ HK) HE He) as (s1 & E1 & Hs1); [lia|lia|].
  assert ((if is_dir e then offset + Z.min (Z.of_nat (length buf)) (capacity l)
           else Z.min (offset + Z.of_nat (length buf)) (ent_size e)) = offset + Z.of_nat (length buf)) as Eend.
  { revert Hfe Hfit. unfold file_end. destruct (is_dir e); lia. }
  rewrite Eend in E1. unfold write_at. rewrite (bind_step _ _ _ _ _ E1).
  destruct (get_pos_ok V K s1 E e l offset Hs1 (usable_fat _ _ HK) HE Hl) as (c & sec & s2 & E2 & Hs2 & Hc); [lia|done|].
  rewrite (bind_step _ _ _ _ _ E2). cbv beta iota. rewrite decide_False in Hc by lia. destruct Hc as [_ Hat].
  destruct (write_loop e E _ l Hl (st_cache _ _ _ He) K (offset + Z.of_nat (length buf)) HK ltac:(lia) ltac:(lia)
    (S (length buf)) V s2 (Z.to_nat (offset / 512)) (mkCursor c sec offset buf) Hs2 HE Hby (Hat _ _))
    as (c' & s3 & V' & E3 & Hs3 & Hb & HE' & Hcon & Hother); cbn [cu_off cu_bytes]; [zlia|lia|lia|lia|].
  exists s3, V'. split_and!; try done. rewrite (bind_step _ _ _ _ _ E3), Hb. simpl. unfold mret, st_ret. do 2 f_equal. lia.
Qed.

(** [write_at] of bytes that lie within the file (within the clusters, for a
    directory) writes all of them: the content is changed exactly at the offset,
    every other block of the volume keeps its bytes, and the FAT its entries. *)
Theorem write_at_exact V K (s : disk D) E e l offset buf :
  disk_rep R V K s → usable (file_block l) K → fat_rep V (fat fs) E → stored E e l →
  Forall is_byte buf → buf ≠ [] → 0 ≤ offset → offset + Z.of_nat (length buf) ≤ file_end e l →
  ∃ s' V', write_at fs e offset buf s = Done (Z.of_nat (length buf), s') ∧ disk_rep R V' K s' ∧
    content V' fs l = splice (Z.to_nat offset) buf (content V fs l) ∧
    (∀ b, b ∉ sectors fs l → V' b = V b) ∧ fat_rep V' (fat fs) E.
Proof. apply write_at_ok. Qed.

End file.

(** ** Witnesses

    On the volume of Fat.v with the chain 3, 5, a file of 600 bytes that starts
    at cluster 3. *)

Definition wit_file : ShortDirEntry := set_first_cluster 3 (set_size 600 Short_empty).

Lemma wit_stored : stored wit_region wit_fs wit_entries wit_file [3; 5].
Proof.
  constructor.
  - left. apply wit_chain.
  - vm_compute. split; discriminate.
  - vm_compute. reflexivity.
  - intros b Hb. assert (sectors wit_fs [3; 5] = [5; 7]) as Es by reflexivity. rewrite Es in Hb.
    apply elem_of_cons in Hb as [->|[->|Hb%not_elem_of_nil]%elem_of_cons]; [reflexivity|reflexivity|done].
Qed.

Lemma read_at_exact_witness :
  ∃ s', read_at wit_fs wit_file 500 200 (fresh_disk wit_chain_dev) =
    Done (slice 500 100 (content (λ b, read_block b wit_chain_dev) wit_fs [3; 5]), s').
Proof.
  destruct (read_at_exact wit_region wit_fs wit_layout (λ b, read_block b wit_chain_dev) []
              (fresh_disk wit_chain_dev) wit_entries wit_file [3; 5] 500 200) as (s' & E & _).
  - apply fresh_disk_rep.
  - apply usable_nil.
  - apply wit_chain_rep.
  - apply wit_stored.
  - lia.
  - lia.
  - discriminate.
  - exists s'. exact E.
Defined.

Lemma write_at_exact_witness :
  ∃ s' V', write_at wit_fs wit_file 500 (replicate 20 7) (fresh_disk wit_chain_dev) = Done (20, s') ∧
    content V' wit_fs [3; 5] = splice 500 (replicate 20 7) (content (λ b, read_block b wit_chain_dev) wit_fs [3; 5]).
Proof.
  destruct (write_at_exact wit_region wit_fs wit_layout (λ b, read_block b wit_chain_dev) []
              (fresh_disk wit_chain_dev) wit_entries wit_file [3; 5] 500 (replicate 20 7)) as (s' & V' & E & _ & Hc & _).
  - apply fresh_disk_rep.
  - apply usable_nil.
  - apply wit_chain_rep.
  - apply wit_stored.
  - apply Forall_replicate. unfold is_byte. lia.
  - discriminate.
  - lia.
  - vm_compute. discriminate.
  - exists s', V'. split; [exact E|exact Hc].
Defined.
