(* ===== verification/Vfs.v ===== *)
(** * Files and directories (fat32/src/vfs.rs)

    A [VFile] is a name with the position of its directory entries; everything
    else is read from the disk when it is needed. The state is the disk and the
    entry of the root directory, which exists in memory only
    ([FAT32Manager::vroot_dirent]). The locks of [fs] and of [vroot_dirent] are
    never taken in a conflicting way and are not part of the state; the locks of
    cached blocks are (BlockCache.v). Fuel: a directory has at most as many
    entries as fit into all clusters of the volume. *)

From S2P Require Import Prelude BlockCache Fat Dirent FatFile.

Record VFile := mkVFile {
  vf_name : list Z;
  short_sector : Z;
  short_offset : Z;
  long_pos_vec : list (Z * Z);
  vf_attribute : Z;
}.

(** The disk, and [vroot_dirent]. *)
Record volume (D : Type) := mkVolume { vol_disk : disk D; vroot_dirent : ShortDirEntry }.
Arguments mkVolume {D} _ _.
Arguments vol_disk {D} _.
Arguments vroot_dirent {D} _.

Definition root_dirent : ShortDirEntry :=
  set_first_cluster 2 (default Short_empty
    (Short_new [0x2F; 0x20; 0x20; 0x20; 0x20; 0x20; 0x20; 0x20] [0x20; 0x20; 0x20] ATTRIBUTE_DIRECTORY)).

Definition get_root_vfile : VFile := mkVFile [47] 0 0 [] ATTRIBUTE_DIRECTORY.

Definition VFile_is_dir (v : VFile) : bool := negb (Z.land (vf_attribute v) ATTRIBUTE_DIRECTORY =? 0).
Definition is_short (v : VFile) : bool := (length (long_pos_vec v) =? 0)%nat.

(** ** [kstat] and [dirent]: what [fstat] and [getdents64] copy out *)

Record kstat := mkKstat {
  st_dev : Z; st_ino : Z; st_mode : Z; st_nlink : Z; st_uid : Z; st_gid : Z; st_rdev : Z; st_pad : Z;
  st_size : Z; st_blksize : Z; st_pad2 : Z; st_blocks : Z;
  st_atime_sec : Z; st_atime_nsec : Z; st_mtime_sec : Z; st_mtime_nsec : Z; st_ctime_sec : Z; st_ctime_nsec : Z;
  st_unused : list Z;
}.

Definition kstat_to_bytes (k : kstat) : list Z :=
  le_bytes 8 (st_dev k) ++ le_bytes 8 (st_ino k) ++ le_bytes 4 (st_mode k) ++ le_bytes 4 (st_nlink k) ++
  le_bytes 4 (st_uid k) ++ le_bytes 4 (st_gid k) ++ le_bytes 8 (st_rdev k) ++ le_bytes 8 (st_pad k) ++
  le_bytes 8 (st_size k) ++ le_bytes 4 (st_blksize k) ++ le_bytes 4 (st_pad2 k) ++ le_bytes 8 (st_blocks k) ++
  le_bytes 8 (st_atime_sec k) ++ le_bytes 8 (st_atime_nsec k) ++ le_bytes 8 (st_mtime_sec k) ++
  le_bytes 8 (st_mtime_nsec k) ++ le_bytes 8 (st_ctime_sec k) ++ le_bytes 8 (st_ctime_nsec k) ++
  le_bytes 4 (byte_at (st_unused k) 0) ++ le_bytes 4 (byte_at (st_unused k) 1).

Record dirent := mkDirent { d_ino : Z; d_off : Z; d_reclen : Z; d_type : Z; d_name : list Z }.

Definition dirent_to_bytes (d : dirent) : list Z :=
  le_bytes 8 (d_ino d) ++ le_bytes 8 (d_off d) ++ le_bytes 2 (d_reclen d) ++ [d_type d] ++ d_name d.

Definition FAT_SIZE : Z := 400.

(** ** Operations *)

Section ops.
Context {D : Type} `{BlockDevice D}.
Context (fs : FAT32Manager).

Abbreviation M := (ST (volume D)).

Definition on_disk {X} (m : ST (disk D) X) : M X :=
  zoom vol_disk (λ d s, mkVolume d (vroot_dirent s)) m.

Definition read_short_dirent {X} (v : VFile) (f : ShortDirEntry → M X) : M X :=
  if short_sector v =? 0 then
    s ← st_get;
    f (vroot_dirent s)
  else
    '(id, l) ← on_disk (begin_read (short_sector v) READ (short_offset v) DIRENT_SZ);
    x ← f (Short_of l);
    on_disk (release id false);;
    mret x.

(** [modify_short_dirent] with a closure that changes the entry. *)
Definition modify_short_dirent (v : VFile) (f : ShortDirEntry → ShortDirEntry) : M unit :=
  if short_sector v =? 0 then
    st_modify (λ s, mkVolume (vol_disk s) (f (vroot_dirent s)))
  else
    on_disk (modify_cache Info (short_sector v) READ (short_offset v) DIRENT_SZ
      (λ l, (Short_bytes (f (Short_of l)), tt))).

(** [modify_short_dirent] with a closure that uses the entry and leaves it. *)
Definition with_short_dirent {X} (v : VFile) (f : ShortDirEntry → M X) : M X :=
  if short_sector v =? 0 then
    s ← st_get;
    f (vroot_dirent s)
  else
    '(id, l) ← on_disk (begin_modify (short_sector v) READ (short_offset v) DIRENT_SZ);
    x ← f (Short_of l);
    on_disk (release id true);;
    mret x.

Definition modify_long_dirent (v : VFile) (index : nat) (f : LongDirEntry → LongDirEntry) : M unit :=
  '(sector, offset) ← unwrap (long_pos_vec v !! index);
  on_disk (modify_cache Info sector READ offset DIRENT_SZ (λ l, (Long_bytes (f (Long_of l)), tt))).

Definition get_size (v : VFile) : M Z := read_short_dirent v (λ e, mret (ent_size e)).
Definition VFile_first_cluster (v : VFile) : M Z := read_short_dirent v (λ e, mret (first_cluster e)).

Definition VFile_get_pos (v : VFile) (offset : Z) : M (Z * Z) :=
  '(_, sec, off) ← read_short_dirent v (λ e, on_disk (get_pos fs e offset));
  mret (sec, off).

(** The entry at [offset] of a directory: the bytes that [read_at] puts into
    the 32 bytes of the caller. *)
Definition dir_read (e : ShortDirEntry) (offset : Z) : M (list Z) := on_disk (read_at fs e offset DIRENT_SZ).
Definition whole (l : list Z) : bool := (length l =? 32)%nat.

Definition dir_fuel : nat := S (S (Z.to_nat (n_entry (fat fs) * bytes_per_cluster fs / DIRENT_SZ))).

(** ** Search *)

(** Compare the parts of a long name after the first with the entries that
    follow: [inr true] is [return None], [inr false] a mismatch. *)
Definition match_part (name_vec : list (list Z)) (e : ShortDirEntry) (offset : Z) (_ : unit) (i : Z) : M (unit + bool) :=
  l ← dir_read e (offset ⊞ i ⊠ DIRENT_SZ);
  if negb (whole l) then mret (inr true)
  else
    part ← unwrap (name_vec !! Z.to_nat (Z.of_nat (length name_vec) - 1 - i));
    let long_ent := Long_of l in
    if negb (bool_decide (get_name_raw long_ent = part)) || negb (long_attribute long_ent =? ATTRIBUTE_LFN)
    then mret (inr false)
    else mret (inl tt).

(** One turn of the loop of [find_long_name]; the local [step] is 1. *)
Definition long_name_body (v : VFile) (name : list Z) (name_vec : list (list Z)) (name_last : list Z)
    (e : ShortDirEntry) (offset : Z) : M (Z + option VFile) :=
  let long_ent_num := Z.of_nat (length name_vec) in
  l ← dir_read e offset;
  let long_ent := Long_of l in
  if negb (whole l) || Long_is_empty long_ent then mret (inr None)
  else if bool_decide (get_name_raw long_ent = name_last) && (long_attribute long_ent =? ATTRIBUTE_LFN) then
    let ord := order long_ent in
    let l_checksum := check_sum long_ent in
    if (Z.land ord 0x40 =? 0) || (ord =? 0xE5) then mret (inl (offset ⊞ DIRENT_SZ))
    else
      let ord := Z.lxor ord 0x40 in
      if negb (ord =? long_ent_num) then mret (inl (offset ⊞ DIRENT_SZ))
      else
        r ← for_brk (zrange 1 ord) tt (match_part name_vec e offset);
        match r with
        | inr true => mret (inr None)
        | inr false => mret (inl (offset ⊞ DIRENT_SZ))
        | inl _ =>
            let s_off := offset ⊞ long_ent_num ⊠ DIRENT_SZ in
            l ← dir_read e s_off;
            let short_ent := Short_of l in
            if negb (whole l) then mret (inr None)
            else if is_valid_entry short_ent && (l_checksum =? checksum short_ent) then
              '(sec, off) ← VFile_get_pos v s_off;
              pos ← for_fold (zrange 0 ord) [] (λ ps i, p ← VFile_get_pos v (offset ⊞ i); mret (ps ++ [p]));
              mret (inr (Some (mkVFile name sec off pos (attribute short_ent))))
            else mret (inr None)
        end
  else mret (inl (offset ⊞ DIRENT_SZ)).

Definition find_long_name (v : VFile) (name : list Z) (e : ShortDirEntry) : M (option VFile) :=
  let name_vec := long_name_split name in
  name_last ← unwrap (last name_vec);
  loop dir_fuel (long_name_body v name name_vec name_last e) 0.

Definition short_name_body (v : VFile) (name : list Z) (e : ShortDirEntry) (offset : Z) : M (Z + option VFile) :=
  l ← dir_read e offset;
  let short_ent := Short_of l in
  if negb (whole l) || is_empty short_ent then mret (inr None)
  else if is_valid_entry short_ent && bool_decide (to_ascii_uppercase <$> name = get_name_uppercase short_ent) then
    '(sec, off) ← VFile_get_pos v offset;
    mret (inr (Some (mkVFile name sec off [] (attribute short_ent))))
  else mret (inl (offset ⊞ DIRENT_SZ)).

Definition find_short_name (v : VFile) (name : list Z) (e : ShortDirEntry) : M (option VFile) :=
  loop dir_fuel (short_name_body v name e) 0.

Definition is_long_name (name : list Z) : bool :=
  let '(name_, ext_) := split_name_ext name in
  (8 <? Z.of_nat (length (as_bytes name_))) || (3 <? Z.of_nat (length (as_bytes ext_))).

Definition find_vfile_byname (v : VFile) (name : list Z) : M (option VFile) :=
  rassert (VFile_is_dir v);;
  read_short_dirent v (λ e, if is_long_name name then find_long_name v name e else find_short_name v name e).

Fixpoint find_vfile_bypath (v : VFile) (path : list (list Z)) : M (option VFile) :=
  match path with
  | [] => mret (Some v)
  | p :: path =>
      if bool_decide (p = []) || bool_decide (p = [46]) then find_vfile_bypath v path
      else
        r ← find_vfile_byname v p;
        match r with
        | Some v => find_vfile_bypath v path
        | None => mret None
        end
  end.

(** ** Changes *)

(** Linking new clusters, which start at [cluster], to a file. *)
Definition link_clusters (v : VFile) (first cluster : Z) : M unit :=
  if first =? 0 then modify_short_dirent v (set_first_cluster cluster)
  else
    final ← on_disk (final_cluster (fat fs) first);
    rassert (negb (cluster =? 0));;
    on_disk (set_next_cluster (fat fs) final cluster).

Definition increase_size (v : VFile) (new_size : Z) : M unit :=
  first ← VFile_first_cluster v;
  old_size ← get_size v;
  if new_size <=? old_size then mret tt
  else
    needed ← on_disk (cluster_num_needed fs old_size new_size (VFile_is_dir v) first);
    if needed =? 0 then
      if VFile_is_dir v then mret tt else modify_short_dirent v (set_size new_size)
    else
      r ← on_disk (alloc_cluster fs needed);
      match r with
      | Some cluster =>
          link_clusters v first cluster;;
          modify_short_dirent v (set_size new_size)
      | None => panic
      end.

Definition VFile_read_at (v : VFile) (offset len : Z) : M (list Z) :=
  read_short_dirent v (λ e, on_disk (read_at fs e offset len)).

Definition VFile_write_at (v : VFile) (offset : Z) (buf : list Z) : M Z :=
  increase_size v (wrap 32 (offset ⊞ Z.of_nat (length buf)));;
  with_short_dirent v (λ e, on_disk (write_at fs e offset buf)).

Definition free_dirent_body (v : VFile) (offset : Z) : M (Z + Z) :=
  l ← VFile_read_at v offset DIRENT_SZ;
  (* [tmp_dirent] is zero where nothing was read *)
  let tmp_dirent := Short_of (l ++ replicate (32 - length l) 0) in
  if is_empty tmp_dirent || (length l =? 0)%nat then mret (inr offset)
  else mret (inl (offset ⊞ DIRENT_SZ)).

Definition find_free_dirent (v : VFile) : M (option Z) :=
  if negb (VFile_is_dir v) then mret None
  else
    offset ← loop dir_fuel (free_dirent_body v) 0;
    mret (Some offset).

(** [assert_eq!(self.write_at(offset, bytes), DIRENT_SZ)]. *)
Definition write_dirent (v : VFile) (offset : Z) (bytes : list Z) : M unit :=
  n ← VFile_write_at v offset bytes;
  rassert (n =? DIRENT_SZ).

(** The long entries of a name, the last part first; the offset after them. *)
Definition write_long_entries (v : VFile) (parts : list (list Z)) (chk offset : Z) : M Z :=
  let n := Z.of_nat (length parts) in
  for_fold (zrange 0 n) offset (λ off i,
    part ← unwrap (parts !! Z.to_nat (n - 1 - i));
    let ord := wrap 8 (n - i) in
    let ord := if i =? 0 then Z.lor ord 0x40 else ord in
    e ← unwrap (Long_initialize (as_bytes part) ord chk);
    write_dirent v off (Long_bytes e);;
    mret (off ⊞ DIRENT_SZ)).

(** The entries [.] and [..] of a new directory [v] in [parent]. *)
Definition dot_entries (parent v : VFile) : M unit :=
  self_dir ← unwrap (Short_new (short_name_format [46]).1 (short_name_format [46]).2 ATTRIBUTE_DIRECTORY);
  par_dir ← unwrap (Short_new (short_name_format [46; 46]).1 (short_name_format [46; 46]).2 ATTRIBUTE_DIRECTORY);
  par ← VFile_first_cluster parent;
  VFile_write_at v 0 (Short_bytes self_dir);;
  VFile_write_at v DIRENT_SZ (Short_bytes (set_first_cluster par par_dir));;
  first ← VFile_first_cluster v;
  VFile_write_at v 0 (Short_bytes (set_first_cluster first self_dir));;
  mret tt.

Definition create (v : VFile) (name : list Z) (attr : Z) : M (option VFile) :=
  rassert (VFile_is_dir v);;
  o ← find_free_dirent v;
  match o with
  | None => mret None
  | Some dirent_offset =>
      '(dirent_offset, short_ent) ←
        (if is_long_name name then
           short_name ← unwrap (generate_short_name name);
           let '(name_bytes, ext_bytes) := short_name_format short_name in
           short_ent ← unwrap (Short_initialize name_bytes ext_bytes attr);
           off ← write_long_entries v (long_name_split name) (checksum short_ent) dirent_offset;
           mret (off, short_ent)
         else
           let '(name_bytes, ext_bytes) := short_name_format name in
           short_ent ← unwrap (Short_initialize name_bytes ext_bytes attr);
           mret (dirent_offset, set_case ALL_LOWER_CASE short_ent));
      write_dirent v dirent_offset (Short_bytes short_ent);;
      r ← find_vfile_byname v name;
      match r with
      | Some vfile =>
          (if negb (Z.land attr ATTRIBUTE_DIRECTORY =? 0) then dot_entries v vfile else mret tt);;
          mret (Some vfile)
      | None => mret None
      end
  end.

Definition delete_long_entries (v : VFile) (f : LongDirEntry → LongDirEntry) : M unit :=
  for_each (seq 0 (length (long_pos_vec v))) (λ i, modify_long_dirent v i f).

Definition clear (v : VFile) : M unit :=
  first ← VFile_first_cluster v;
  if VFile_is_dir v || (first =? 0) then mret tt
  else
    delete_long_entries v Long_clear;;
    modify_short_dirent v Short_clear;;
    all_clusters ← on_disk (get_all_cluster_of (fat fs) first);
    on_disk (dealloc_cluster fs all_clusters);;
    on_disk write_to_dev.

Definition remove (v : VFile) : M Z :=
  first ← VFile_first_cluster v;
  delete_long_entries v Long_delete;;
  modify_short_dirent v Short_delete;;
  all_clusters ← on_disk (get_all_cluster_of (fat fs) first);
  on_disk (dealloc_cluster fs all_clusters);;
  mret (Z.of_nat (length all_clusters)).

(** ** Listing *)

Abbreviation listing := (list (list Z * Z)).

(** The entries of a long name after the first, the name so far in front of
    which their parts go; [inr] is the early [return Some(list)]. *)
Definition ls_part (v : VFile) (acc : Z * list Z) (_ : Z) : M ((Z * list Z) + unit) :=
  let '(offset, name) := acc in
  let offset := offset ⊞ DIRENT_SZ in
  l ← VFile_read_at v offset DIRENT_SZ;
  let long_ent := Long_of l in
  if negb (whole l) || Long_is_empty long_ent || Long_is_deleted long_ent then mret (inr tt)
  else mret (inl (offset, get_name_raw long_ent ++ name)).

Definition ls_body (v : VFile) (acc : Z * listing) : M ((Z * listing) + listing) :=
  let '(offset, out) := acc in
  l ← VFile_read_at v offset DIRENT_SZ;
  let short_ent := Short_of l in
  if negb (whole l) || is_empty short_ent then mret (inr out)
  else if is_deleted short_ent then mret (inl (offset ⊞ DIRENT_SZ, out))
  else if is_long short_ent then
    let long_ent := Long_of l in
    if Z.land (order long_ent) 0x40 =? 0 then mret (inl (offset ⊞ DIRENT_SZ, out))
    else
      let ord := Z.lxor (order long_ent) 0x40 in
      r ← for_brk (zrange 1 ord) (offset, get_name_raw long_ent) (ls_part v);
      match r with
      | inr _ => mret (inr out)
      | inl (offset, name) =>
          let offset := offset ⊞ DIRENT_SZ in
          l ← VFile_read_at v offset DIRENT_SZ;
          let long_ent := Long_of l in
          if negb (whole l) || Long_is_empty long_ent || Long_is_deleted long_ent then mret (inr out)
          else mret (inl (offset ⊞ DIRENT_SZ, out ++ [(name, long_attribute long_ent)]))
      end
  else mret (inl (offset ⊞ DIRENT_SZ, out ++ [(get_name_lowercase short_ent, attribute short_ent)])).

Definition ls (v : VFile) : M (option listing) :=
  if negb (VFile_is_dir v) then mret None
  else
    out ← loop dir_fuel (ls_body v) (0, []);
    mret (Some out).

(** The locals of [ls_lite]. *)
Record lite := mkLite { li_offset : Z; li_list : listing; li_name : list Z; li_is_long : bool }.

Definition ls_lite_body (v : VFile) (a : lite) : M (lite + listing) :=
  l ← VFile_read_at v (li_offset a) DIRENT_SZ;
  let long_ent := Long_of l in
  let next := li_offset a ⊞ DIRENT_SZ in
  if negb (whole l) || Long_is_empty long_ent then mret (inr (li_list a))
  else if Long_is_deleted long_ent then mret (inl (mkLite next (li_list a) (li_name a) false))
  else if negb (long_attribute long_ent =? ATTRIBUTE_LFN) then
    let short_ent := Short_of l in
    let nm := if li_is_long a then li_name a else get_name_lowercase short_ent in
    mret (inl (mkLite next (li_list a ++ [(nm, attribute short_ent)]) [] false))
  else mret (inl (mkLite next (li_list a) (get_name_format long_ent ++ li_name a) true)).

Definition ls_lite (v : VFile) : M (option listing) :=
  if negb (VFile_is_dir v) then mret None
  else
    out ← loop dir_fuel (ls_lite_body v) (mkLite 0 [] [] false);
    mret (Some out).

(** ** Information *)

Definition dirent_info (v : VFile) : M (option dirent) :=
  read_short_dirent v (λ sde,
    let bytes := as_bytes (vf_name v) in
    rassert (length bytes <=? 512)%nat;;
    mret (Some (mkDirent (first_cluster sde) (short_offset v) DIRENT_SZ (attribute sde)
                  (bytes ++ replicate (512 - length bytes) 0)))).

Definition stat (v : VFile) : M kstat :=
  read_short_dirent v (λ sde,
    let '(_, ctime) := get_creation_time sde in
    let '(_, atime) := get_accessed_time sde in
    let '(_, mtime) := get_modification_time sde in
    let first_clu := first_cluster sde in
    size ← (if VFile_is_dir v then
              cluster_num ← on_disk (count_claster_num (fat fs) first_clu);
              mret (cluster_num ⊠₃₂ bytes_per_cluster fs)
            else mret (ent_size sde));
    mret (mkKstat 0 first_clu (vf_attribute v) 1 1 1 0 0 size BLOCK_SZ 0 FAT_SIZE atime 0 mtime 0 ctime 0 [0; 0])).

Definition VFile_creation_time (v : VFile) := read_short_dirent v (λ sde, mret (get_creation_time sde)).
Definition accessed_time (v : VFile) := read_short_dirent v (λ sde, mret (get_accessed_time sde)).
Definition VFile_modification_time (v : VFile) := read_short_dirent v (λ sde, mret (get_modification_time sde)).

End ops.

(** ** Volumes and files on them *)

Section theory.
Context {D : Type} `{BlockDeviceLaws D}.
Context (R : Z → bool) (fs : FAT32Manager) (HF : fs_layout R fs).
Implicit Types (V : Z → list Z) (K : list (Z * bool)) (E : Z → Z) (l : list Z) (s : volume D).

Let HL : fat_layout R (fat fs) := fsl_fat _ _ HF.

(** The volume holds the blocks [V] and the root entry [root]. *)
Definition vol_rep V K (root : ShortDirEntry) s : Prop := disk_rep R V K (vol_disk s) ∧ vroot_dirent s = root.

(** The entry of [v] is [e]. *)
Inductive located V (root : ShortDirEntry) (v : VFile) : ShortDirEntry → Prop :=
| located_root : short_sector v = 0 → located V root v root
| located_disk :
    short_sector v ≠ 0 → fits 64 (short_sector v) → R (short_sector v) = true →
    0 ≤ short_offset v → short_offset v + 32 ≤ 512 →
    located V root v (Short_of (slice (Z.to_nat (short_offset v)) 32 (V (short_sector v)))).

(** The entry of [v] lies outside the blocks of [P]. *)
Definition apart (v : VFile) (P : Z → Prop) : Prop := short_sector v = 0 ∨ ¬ P (short_sector v).

(** The locks while the entry of [v] is held for reading or writing. *)
Definition hold (v : VFile) (excl : bool) K : list (Z * bool) :=
  if short_sector v =? 0 then K else (short_sector v, excl) :: K.

Lemma hold_usable v excl P K :
  usable P K → (S (length K) < BLOCK_CACHE_SIZE)%nat → apart v P → usable P (hold v excl K).
Proof.
  intros [_ HP] HK Hv. unfold hold. destruct (Z.eqb_spec (short_sector v) 0) as [Hz|Hz].
  { split; [lia|done]. }
  split; [simpl; lia|]. intros b Hb. rewrite fmap_cons in Hb. simpl in Hb.
  apply elem_of_cons in Hb as [->|Hb]; [by destruct Hv|by apply HP].
Qed.

Lemma on_disk_ok {X} V K root s (m : ST (disk D) X) x d' :
  m (vol_disk s) = Done (x, d') → vol_rep V K root s →
  ∀ V' K', disk_rep R V' K' d' → wp (on_disk m) s (λ y s', y = x ∧ vol_rep V' K' root s').
Proof.
  intros Em [_ Hroot] V' K' Hd. apply wp_zoom. exists x, d'. split; [done|]. split; [done|]. by split.
Qed.

(** Reading through the entry of a file: the closure runs with the entry. *)
Lemma read_short_dirent_ok {X} V K root s v e (f : ShortDirEntry → ST (volume D) X) (Q : X → Prop) :
  vol_rep V K root s → located V root v e → (length K < BLOCK_CACHE_SIZE)%nat → (short_sector v, true) ∉ K →
  (∀ s1, vol_rep V (hold v false K) root s1 → wp (f e) s1 (λ x s2, vol_rep V (hold v false K) root s2 ∧ Q x)) →
  wp (read_short_dirent v f) s (λ x s', vol_rep V K root s' ∧ Q x).
Proof.
  intros Hs Hloc HK Hn Hf. unfold read_short_dirent, hold in *. destruct Hloc as [Hz|Hz Hfit HR Ho Hon].
  - rewrite Hz in *. simpl in *. apply wp_bind. eapply wp_run; [reflexivity|]. destruct (Hs) as [_ ->]. by apply Hf.
  - rewrite (proj2 (Z.eqb_neq _ _) Hz) in *. pose proof Hs as [Hd _].
    destruct (begin_read_ok R V K _ _ READ (short_offset v) 32 Hd HK HR Hn Hfit Hon) as (d1 & E1 & Hd1).
    apply (wp_step _ _ _ _ _ (on_disk_ok _ _ _ _ _ _ _ E1 Hs _ _ Hd1)). intros ? s1 [-> Hs1].
    apply (wp_step _ _ _ _ _ (Hf s1 Hs1)). intros x s2 [Hs2 HQ]. pose proof Hs2 as [Hd2 _].
    destruct (release_ok R V K _ _ false Hd2 ltac:(done)) as (d3 & E3 & Hd3).
    apply (wp_step _ _ _ _ _ (on_disk_ok _ _ _ _ _ _ _ E3 Hs2 _ _ Hd3)). intros _ s3 [_ Hs3].
    by apply wp_ret.
Qed.

(** ** Directories

    The content of a directory is a sequence of slots of 32 bytes; those before
    the first empty one are its entries. *)

Definition n_slots l : nat := (16 * length (sectors fs l))%nat.
Definition dir_slot V l (k : nat) : list Z := slice (32 * k) 32 (content V fs l).
Definition dir_slots V l : list (list Z) := dir_slot V l <$> seq 0 (n_slots l).

Fixpoint before_empty (bs : list (list Z)) : list (list Z) :=
  match bs with
  | [] => []
  | b :: bs => if is_empty (Short_of b) then [] else b :: before_empty bs
  end.
Definition dir_entries V l : list (list Z) := before_empty (dir_slots V l).

(** Where slot [k] lies on the disk. *)
Definition slot_pos l (k : nat) : Z * Z :=
  (default 0 (sectors fs l !! (k / 16)%nat), 32 * Z.of_nat (k mod 16)).

(** [v] is the directory with the entry [e] and the clusters [l]. *)
Record directory V (root : ShortDirEntry) E (v : VFile) (e : ShortDirEntry) l : Prop := {
  dr_located : located V root v e;
  dr_stored : stored R fs E e l;
  dr_dir : is_dir e = true;
  dr_vdir : VFile_is_dir v = true;
  dr_apart : apart v (file_block fs l);
}.

Lemma capacity_slots l : capacity fs l = 32 * Z.of_nat (n_slots l).
Proof. unfold capacity, n_slots. lia. Qed.

Lemma dir_slot_end V K (d : disk D) l : disk_rep R V K d → dir_slot V l (n_slots l) = [].
Proof.
  intros Hd. pose proof (length_content R fs V K d l Hd) as Hc. rewrite capacity_slots in Hc.
  unfold dir_slot, slice. rewrite drop_ge by lia. by rewrite take_nil.
Qed.

Lemma length_dir_slot V K (d : disk D) l k : disk_rep R V K d → (k < n_slots l)%nat → length (dir_slot V l k) = 32%nat.
Proof.
  intros Hd Hk. pose proof (length_content R fs V K d l Hd) as Hc. rewrite capacity_slots in Hc.
  apply length_slice. lia.
Qed.

(** A slot as bytes of its block. *)
Lemma dir_slot_block V K (d : disk D) l k :
  disk_rep R V K d → (k < n_slots l)%nat →
  ∃ b, sectors fs l !! (k / 16)%nat = Some b ∧ slot_pos l k = (b, 32 * Z.of_nat (k mod 16)) ∧
    dir_slot V l k = slice (32 * (k mod 16)) 32 (V b).
Proof.
  intros Hd Hk. unfold n_slots in Hk. pose proof (Nat.div_mod_eq k 16). pose proof (Nat.mod_upper_bound k 16 ltac:(lia)).
  destruct (sectors fs l !! (k / 16)%nat) as [b|] eqn:Eb.
  2:{ apply lookup_ge_None in Eb. lia. }
  exists b. unfold slot_pos. rewrite Eb. split_and!; [done|done|]. unfold dir_slot, content.
  replace (32 * k)%nat with (512 * (k / 16) + 32 * (k mod 16))%nat by lia.
  apply slice_join; [by eapply blocks_wf| |lia]. by rewrite list_lookup_fmap, Eb.
Qed.

(** The first entry from slot [k] on that satisfies [P], with its slot. *)
Definition first_from (P : list Z → bool) V l (k : nat) : option (nat * list Z) :=
  prod_map (Nat.add k) id <$> list_find (λ b, P b = true) (before_empty (dir_slot V l <$> seq k (n_slots l - k))).

Lemma first_from_step P V l k :
  first_from P V l k =
    if bool_decide (k < n_slots l)%nat then
      if is_empty (Short_of (dir_slot V l k)) then None
      else if P (dir_slot V l k) then Some (k, dir_slot V l k) else first_from P V l (S k)
    else None.
Proof.
  unfold first_from. case_bool_decide as Hk.
  - replace (n_slots l - k)%nat with (S (n_slots l - S k)) by lia. cbn [seq fmap list_fmap before_empty].
    destruct (is_empty _); [done|]. cbn [list_find]. case_decide as HP.
    + rewrite HP. simpl. by rewrite Nat.add_0_r.
    + apply not_true_is_false in HP. rewrite HP. destruct (list_find _ _) as [[i b]|]; [|done]. simpl. do 2 f_equal. lia.
  - replace (n_slots l - k)%nat with 0%nat by lia. done.
Qed.

Section dir.
Context (V : Z → list Z) (root : ShortDirEntry) (E : Z → Z) (v : VFile) (e : ShortDirEntry) (l : list Z).
Context (HE : fat_rep V (fat fs) E) (Hdir : directory V root E v e l).

Lemma dir_read_ok K s k :
  vol_rep V K root s → usable (file_block fs l) K → (k ≤ n_slots l)%nat →
  wp (dir_read fs e (32 * Z.of_nat k)) s (λ x s', x = dir_slot V l k ∧ vol_rep V K root s').
Proof.
  intros Hs HK Hk. pose proof Hs as [Hd _]. pose proof (st_small _ _ _ _ _ (dr_stored _ _ _ _ _ _ Hdir)) as Hcap.
  pose proof (capacity_slots l) as Ecap. pose proof (dr_dir _ _ _ _ _ _ Hdir) as Hisdir.
  destruct (read_at_ok R fs HF V K _ E e l (32 * Z.of_nat k) 32 Hd HK HE (dr_stored _ _ _ _ _ _ Hdir)) as (d' & E1 & Hd');
    [lia|lia|intros _; lia|].
  unfold file_end in E1. rewrite Hisdir in E1. unfold dir_read, DIRENT_SZ.
  apply (wp_conseq _ _ _ _ (on_disk_ok _ _ _ _ _ _ _ E1 Hs _ _ Hd')). intros x s' [-> Hs']. split; [|done].
  unfold dir_slot. replace (Z.to_nat (32 * Z.of_nat k)) with (32 * k)%nat by lia.
  destruct (decide (k = n_slots l)) as [->|Hne].
  - pose proof (dir_slot_end V K _ l Hd) as Hend. unfold dir_slot in Hend. rewrite Hend.
    replace (Z.to_nat _) with 0%nat by lia. unfold slice. by rewrite take_0.
  - f_equal. lia.
Qed.

Lemma whole_slot K (d : disk D) k : disk_rep R V K d → (k ≤ n_slots l)%nat →
  whole (dir_slot V l k) = bool_decide (k < n_slots l)%nat.
Proof.
  intros Hd Hk. unfold whole. destruct (decide (k = n_slots l)) as [->|Hne].
  - rewrite (dir_slot_end V K d l Hd). by rewrite bool_decide_eq_false_2 by lia.
  - rewrite (length_dir_slot V K d l k Hd) by lia. by rewrite bool_decide_eq_true_2 by lia.
Qed.

Lemma VFile_get_pos_ok K s k :
  vol_rep V K root s → usable (file_block fs l) K → (S (length K) < BLOCK_CACHE_SIZE)%nat →
  (short_sector v, true) ∉ K → (k < n_slots l)%nat →
  wp (VFile_get_pos fs v (32 * Z.of_nat k)) s (λ x s', vol_rep V K root s' ∧ x = slot_pos l k).
Proof.
  intros Hs HK HK1 Hn Hk. unfold VFile_get_pos. pose proof Hdir as [Hloc Hst Hisdir _ Hap].
  pose proof (st_small _ _ _ _ _ Hst) as Hcap. pose proof (capacity_slots l) as Ecap.
  pose proof (stored_chain R fs _ _ _ Hst (or_intror Hisdir)) as Hl.
  apply (wp_step _ _ _ (λ x s', vol_rep V K root s' ∧ (x.1.2, x.2) = slot_pos l k)).
  - apply (read_short_dirent_ok V K root s v e); [done|done|lia|done|]. intros s1 Hs1. pose proof Hs1 as [Hd1 _].
    destruct (get_pos_ok R fs HF V _ _ E e l (32 * Z.of_nat k) Hd1 (usable_fat fs _ _ (hold_usable _ false _ _ HK HK1 Hap)) HE Hl)
      as (c & sec & d2 & E2 & Hd2 & Hpos); [lia|done|].
    apply (wp_conseq _ _ _ _ (on_disk_ok _ _ _ _ _ _ _ E2 Hs1 _ _ Hd2)). intros x s2 [-> Hs2]. split; [done|].
    rewrite decide_False in Hpos by lia. destruct Hpos as [_ Hat]. destruct (Hat 0 []) as [_ Hsec]. cbn [cu_sector] in Hsec.
    unfold slot_pos. cbn [fst snd]. replace (Z.to_nat (32 * Z.of_nat k / 512)) with (k / 16)%nat in Hsec.
    2:{ replace (32 * Z.of_nat k / 512) with (Z.of_nat k / Z.of_nat 16) by zlia. by rewrite <- Nat2Z.inj_div, Nat2Z.id. }
    rewrite Hsec. f_equal. rewrite Nat2Z.inj_mod. zlia.
  - intros [[c sec] off] s' [Hs' Hx]. apply wp_ret. done.
Qed.

(** What [find_short_name] compares. *)
Definition short_match (name b : list Z) : bool :=
  is_valid_entry (Short_of b) && bool_decide (to_ascii_uppercase <$> name = get_name_uppercase (Short_of b)).

(** The file that a search returns for the entry [b] in slot [k]. *)
Definition short_vfile (name : list Z) (p : nat * list Z) : VFile :=
  mkVFile name (slot_pos l p.1).1 (slot_pos l p.1).2 [] (attribute (Short_of p.2)).

Lemma dir_fuel_enough : (S (n_slots l) < dir_fuel fs)%nat.
Proof.
  pose proof (stored_chain R fs _ _ _ (dr_stored _ _ _ _ _ _ Hdir) (or_intror (dr_dir _ _ _ _ _ _ Hdir))) as Hl.
  pose proof (chain_length _ _ _ _ Hl) as Hlen. unfold fat_fuel in Hlen. unfold dir_fuel, n_slots, DIRENT_SZ.
  rewrite (length_sectors fs), (fsl_bpc _ _ HF). pose proof (fsl_spc _ _ HF). pose proof (fl_small _ _ HL).
  replace (n_entry (fat fs) * (512 * sectors_per_cluster fs) / 32) with (n_entry (fat fs) * sectors_per_cluster fs * 16).
  2:{ replace (n_entry (fat fs) * (512 * sectors_per_cluster fs)) with (n_entry (fat fs) * sectors_per_cluster fs * 16 * 32) by lia.
      by rewrite Z.div_mul. }
  assert (Z.of_nat (length l) ≤ n_entry (fat fs)) by lia. nia.
Qed.

Lemma next_slot k : (k < n_slots l)%nat → 32 * Z.of_nat k ⊞ DIRENT_SZ = 32 * Z.of_nat (S k).
Proof.
  intros Hk. pose proof (st_small _ _ _ _ _ (dr_stored _ _ _ _ _ _ Hdir)) as Hcap. rewrite capacity_slots in Hcap.
  unfold DIRENT_SZ. rewrite wadd_small by (unfold fits; lia). lia.
Qed.

Lemma short_name_body_ok K s name k :
  vol_rep V K root s → usable (file_block fs l) K → (S (length K) < BLOCK_CACHE_SIZE)%nat →
  (short_sector v, true) ∉ K → (k ≤ n_slots l)%nat →
  wp (short_name_body fs v name e (32 * Z.of_nat k)) s (λ r s', vol_rep V K root s' ∧
    match r with
    | inl off => off = 32 * Z.of_nat (S k) ∧ (k < n_slots l)%nat ∧
        first_from (short_match name) V l k = first_from (short_match name) V l (S k)
    | inr out => out = short_vfile name <$> first_from (short_match name) V l k
    end).
Proof.
  intros Hs HK HK1 Hn Hk. unfold short_name_body. apply (wp_step _ _ _ _ _ (dir_read_ok K s k Hs HK Hk)).
  intros ? s1 [-> Hs1]. pose proof Hs1 as [Hd1 _]. rewrite (whole_slot K _ k Hd1 Hk). rewrite first_from_step.
  case_bool_decide as Hlt; simpl; [|by apply wp_ret].
  destruct (is_empty _); [by apply wp_ret|]. fold (short_match name (dir_slot V l k)). destruct (short_match name _).
  - apply (wp_step _ _ _ _ _ (VFile_get_pos_ok K s1 k Hs1 HK HK1 Hn Hlt)). intros [sec off] s2 [Hs2 Hx]. apply wp_ret.
    split; [done|]. cbn [fmap option_fmap option_map]. unfold short_vfile. cbn [fst snd]. by rewrite <- Hx.
  - apply wp_ret. split; [done|]. by rewrite next_slot.
Qed.

Lemma find_short_name_ok K s name :
  vol_rep V K root s → usable (file_block fs l) K → (S (length K) < BLOCK_CACHE_SIZE)%nat →
  (short_sector v, true) ∉ K →
  wp (find_short_name fs v name e) s (λ r s', vol_rep V K root s' ∧
    r = short_vfile name <$> first_from (short_match name) V l 0).
Proof.
  intros Hs HK HK1 Hn. unfold find_short_name.
  apply (wp_loop _ (λ n off s, ∃ k, off = 32 * Z.of_nat k ∧ (k ≤ n_slots l)%nat ∧ n = (n_slots l - k)%nat ∧
    vol_rep V K root s ∧ first_from (short_match name) V l 0 = first_from (short_match name) V l k)) with (n := n_slots l).
  - intros n off s1 (k & -> & Hk & -> & Hs1 & Ek).
    apply (wp_conseq _ _ _ _ (short_name_body_ok K s1 name k Hs1 HK HK1 Hn Hk)). intros [off|out] s2 [Hs2 Hr].
    + destruct Hr as (-> & Hlt & Er). exists (n_slots l - S k)%nat. split; [lia|]. exists (S k). split_and!; [done|lia|done|done|].
      by rewrite Ek.
    + by rewrite Ek.
  - exists 0%nat. split_and!; [done|lia|lia|done|done].
  - pose proof dir_fuel_enough. lia.
Qed.

Lemma find_byname_ok K s name :
  vol_rep V K root s → usable (file_block fs l) K → (S (S (length K)) < BLOCK_CACHE_SIZE)%nat →
  (short_sector v, true) ∉ K → is_long_name name = false →
  wp (find_vfile_byname fs v name) s (λ r s', vol_rep V K root s' ∧
    r = short_vfile name <$> first_from (short_match name) V l 0).
Proof.
  intros Hs HK HK1 Hn Hshort. unfold find_vfile_byname. rewrite Hshort. pose proof Hdir as [Hloc _ _ Hv Hap].
  apply (wp_step _ _ _ (λ _ s', s' = s)); [by apply wp_assert|]. intros _ ? ->.
  apply (read_short_dirent_ok V K root s v e _ (λ r, r = short_vfile name <$> first_from (short_match name) V l 0));
    [done|done|lia|done|]. intros s1 Hs1.
  apply find_short_name_ok; [done|apply hold_usable; [done|lia|done]| |].
  - unfold hold. destruct (short_sector v =? 0); simpl; lia.
  - unfold hold. destruct (short_sector v =? 0); [done|]. rewrite elem_of_cons. intros [?|?]; [congruence|done].
Qed.

(** Reading a slot through the file. *)
Lemma dir_read_at_ok s k :
  vol_rep V [] root s → (k ≤ n_slots l)%nat →
  wp (VFile_read_at fs v (32 * Z.of_nat k) DIRENT_SZ) s (λ x s', vol_rep V [] root s' ∧ x = dir_slot V l k).
Proof.
  intros Hs Hk. pose proof Hdir as [Hloc _ _ _ Hap].
  apply (read_short_dirent_ok V [] root s v e _ (λ x, x = dir_slot V l k)); [done|done|simpl; unfold BLOCK_CACHE_SIZE; lia|apply not_elem_of_nil|].
  intros s1 Hs1.
  apply (wp_conseq _ _ _ _ (dir_read_ok (hold v false []) s1 k Hs1
    ltac:(apply hold_usable; [apply usable_nil|simpl; unfold BLOCK_CACHE_SIZE; lia|done]) Hk)).
  by intros x s2 [-> Hs2].
Qed.

(** [ls] ends with a listing, whatever the slots hold. *)
Lemma ls_part_ok s k name :
  vol_rep V [] root s → (k < n_slots l)%nat →
  wp (ls_part fs v (32 * Z.of_nat k, name) 0) s (λ r s', vol_rep V [] root s' ∧
    match r with inl (off, _) => ∃ k', off = 32 * Z.of_nat k' ∧ (k < k' < n_slots l)%nat | inr _ => True end).
Proof.
  intros Hs Hk. unfold ls_part. rewrite next_slot by done.
  apply (wp_step _ _ _ _ _ (dir_read_at_ok s (S k) Hs Hk)). intros ? s1 [Hs1 ->]. pose proof Hs1 as [Hd1 _].
  rewrite (whole_slot [] _ (S k) Hd1 Hk). case_bool_decide; [|by apply wp_ret].
  destruct (_ || _); [by apply wp_ret|]. apply wp_ret. split; [done|]. exists (S k). split; [done|lia].
Qed.

Lemma ls_parts_ok parts : ∀ s k name,
  vol_rep V [] root s → (k < n_slots l)%nat →
  wp (for_brk parts (32 * Z.of_nat k, name) (ls_part fs v)) s (λ r s', vol_rep V [] root s' ∧
    match r with inl (off, _) => ∃ k', off = 32 * Z.of_nat k' ∧ (k ≤ k' < n_slots l)%nat | inr _ => True end).
Proof.
  induction parts as [|x parts IH]; intros s k name Hs Hk; cbn [for_brk].
  - apply wp_ret. split; [done|]. exists k. split; [done|lia].
  - apply (wp_step _ _ _ _ _ (ls_part_ok s k name Hs Hk)). intros [[off name']|u] s1 [Hs1 Hr]; [|by apply wp_ret].
    destruct Hr as (k' & -> & Hk'). apply (wp_conseq _ _ _ _ (IH s1 k' name' Hs1 ltac:(lia))).
    intros [[off' name2]|u] s2 [Hs2 Hr]; [|done]. destruct Hr as (k2 & -> & Hk2). split; [done|]. exists k2. split; [done|lia].
Qed.

Lemma ls_body_ok s k out :
  vol_rep V [] root s → (k ≤ n_slots l)%nat →
  wp (ls_body fs v (32 * Z.of_nat k, out)) s (λ r s', vol_rep V [] root s' ∧
    match r with inl (off, _) => ∃ k', off = 32 * Z.of_nat k' ∧ (k < k' ≤ n_slots l)%nat | inr _ => True end).
Proof.
  intros Hs Hk. unfold ls_body. apply (wp_step _ _ _ _ _ (dir_read_at_ok s k Hs Hk)).
  intros ? s1 [Hs1 ->]. pose proof Hs1 as [Hd1 _]. rewrite (whole_slot [] _ k Hd1 Hk).
  case_bool_decide as Hlt; [|by apply wp_ret].
  assert (∀ out, wp (mret (inl (32 * Z.of_nat k ⊞ DIRENT_SZ, out))) s1 (λ (r : (Z * list (list Z * Z)) + list (list Z * Z)) s', vol_rep V [] root s' ∧
    match r with inl (off, _) => ∃ k', off = 32 * Z.of_nat k' ∧ (k < k' ≤ n_slots l)%nat | inr _ => True end)) as Hnext.
  { intros out'. apply wp_ret. split; [done|]. exists (S k). split; [by apply next_slot|lia]. }
  cbn [negb orb]. destruct (is_empty _); [by apply wp_ret|]. destruct (is_deleted _); [apply Hnext|].
  destruct (is_long _); [|apply Hnext]. destruct (_ =? 0); [apply Hnext|].
  apply (wp_step _ _ _ _ _ (ls_parts_ok _ s1 k _ Hs1 Hlt)). intros [[off name]|u] s2 [Hs2 Hr]; [|by apply wp_ret].
  destruct Hr as (k' & -> & Hk'). rewrite next_slot by lia.
  apply (wp_step _ _ _ _ _ (dir_read_at_ok s2 (S k') Hs2 ltac:(lia))). intros ? s3 [Hs3 ->]. pose proof Hs3 as [Hd3 _].
  rewrite (whole_slot [] _ (S k') Hd3 ltac:(lia)). case_bool_decide; [|by apply wp_ret].
  destruct (_ || _); [by apply wp_ret|]. apply wp_ret. split; [done|]. exists (S (S k')). split; [apply next_slot; lia|lia].
Qed.

Lemma ls_ok s :
  vol_rep V [] root s → wp (ls fs v) s (λ r s', vol_rep V [] root s' ∧ is_Some r).
Proof.
  intros Hs. unfold ls. rewrite (dr_vdir _ _ _ _ _ _ Hdir). cbn [negb].
  apply (wp_step _ _ _ (λ _ s', vol_rep V [] root s')); [|intros out s' Hs'; apply wp_ret; by eauto].
  apply (wp_loop _ (λ n acc s, ∃ k, acc.1 = 32 * Z.of_nat k ∧ (k ≤ n_slots l)%nat ∧ n = (n_slots l - k)%nat ∧
    vol_rep V [] root s)) with (n := n_slots l).
  - intros n [off out] s1 (k & Ek & Hk & -> & Hs1). cbn [fst] in Ek. subst off.
    apply (wp_conseq _ _ _ _ (ls_body_ok s1 k out Hs1 Hk)). intros [[off out']|out'] s2 [Hs2 Hr]; [|done].
    destruct Hr as (k' & -> & Hk'). exists (n_slots l - k')%nat. split; [lia|]. exists k'. split_and!; [done|lia|done|done].
  - exists 0%nat. split_and!; [done|lia|lia|done].
  - pose proof dir_fuel_enough. lia.
Qed.

End dir.

Lemma in_cluster_pos x b : in_cluster fs x b → 2 ≤ x < n_entry (fat fs) → 0 < b.
Proof.
  intros Hb Hx. unfold in_cluster in Hb. pose proof (fsl_spc _ _ HF). pose proof (fsl_root _ _ HF).
  pose proof (fl_first _ _ HL). pose proof (fl_order _ _ HL). pose proof (fl_entries _ _ HL). pose proof (fl_small _ _ HL). nia.
Qed.

(** The file that a slot describes has its entry there. *)
Lemma slot_located V K (d : disk D) root E v e l name k :
  disk_rep R V K d → directory V root E v e l → (k < n_slots l)%nat →
  located V root (short_vfile l name (k, dir_slot V l k)) (Short_of (dir_slot V l k)).
Proof.
  intros Hd Hdir Hk. destruct (dir_slot_block V K d l k Hd Hk) as (b & Hb & Hpos & Eslot).
  pose proof (dr_stored _ _ _ _ _ _ Hdir) as Hst. pose proof (dr_dir _ _ _ _ _ _ Hdir) as Hisdir.
  pose proof (stored_chain R fs _ _ _ Hst (or_intror Hisdir)) as Hl.
  pose proof (list_elem_of_lookup_2 _ _ _ Hb) as Hin. pose proof Hin as (x & Hx & Hbx)%elem_of_sectors.
  pose proof (chain_valid _ _ _ _ Hl) as Hv. rewrite Forall_forall in Hv.
  destruct (first_sector_ok R fs HF x (Hv x Hx)) as [_ Hout]. destruct (Hout b Hbx) as (_ & _ & Hfit).
  pose proof (Nat.mod_upper_bound k 16 ltac:(lia)).
  assert (short_sector (short_vfile l name (k, dir_slot V l k)) = b) as Es by (unfold short_vfile; cbn [fst short_sector]; by rewrite Hpos).
  assert (short_offset (short_vfile l name (k, dir_slot V l k)) = 32 * Z.of_nat (k mod 16)) as Eo
    by (unfold short_vfile; cbn [fst short_offset]; by rewrite Hpos).
  replace (dir_slot V l k) with (slice (Z.to_nat (short_offset (short_vfile l name (k, dir_slot V l k)))) 32
      (V (short_sector (short_vfile l name (k, dir_slot V l k))))) at 2
    by (rewrite Es, Eo, Eslot; f_equal; lia).
  apply located_disk; rewrite ?Es, ?Eo; try done; try lia.
  - pose proof (in_cluster_pos x b Hbx (Hv x Hx)). lia.
  - by rewrite (st_cache _ _ _ _ _ Hst).
Qed.

(** ** Paths *)

(** [resolves v path r]: following [path] from [v], component by component,
    through directories of the volume, gives [r]. *)
Inductive resolves V root E : VFile → list (list Z) → option VFile → Prop :=
| resolves_here v : resolves V root E v [] (Some v)
| resolves_skip v p path r : p = [] ∨ p = [46] → resolves V root E v path r → resolves V root E v (p :: path) r
| resolves_miss v p path e l :
    p ≠ [] → p ≠ [46] → is_long_name p = false → directory V root E v e l →
    first_from (short_match p) V l 0 = None → resolves V root E v (p :: path) None
| resolves_step v p path e l kb r :
    p ≠ [] → p ≠ [46] → is_long_name p = false → directory V root E v e l →
    first_from (short_match p) V l 0 = Some kb → resolves V root E (short_vfile l p kb) path r →
    resolves V root E v (p :: path) r.

(** C17. Path lookup is resolution: for a path of 8.3 names, [find_vfile_bypath]
    returns what the directories on the volume say, each component being the
    first entry of its directory, before the first empty slot, that is not
    deleted and has the name in upper case, and [None] if a component is
    missing; the volume is not changed. *)
Theorem path_lookup_exact V root E s v path r :
  vol_rep V [] root s → fat_rep V (fat fs) E → resolves V root E v path r →
  ∃ s', find_vfile_bypath fs v path s = Done (r, s') ∧ vol_rep V [] root s'.
Proof.
  intros Hs HE Hr. revert s Hs.
  assert (∀ s v e l p, vol_rep V [] root s → is_long_name p = false → directory V root E v e l →
    wp (find_vfile_byname fs v p) s (λ r s', vol_rep V [] root s' ∧ r = short_vfile l p <$> first_from (short_match p) V l 0)) as Hstep.
  { intros s v0 e l p Hs Hp Hd. apply (find_byname_ok V root E v0 e l HE Hd); try done; [apply usable_nil| |apply not_elem_of_nil].
    simpl. unfold BLOCK_CACHE_SIZE. lia. }
  induction Hr as [v|v p path r Hp Hr IH|v p path e l Hp1 Hp2 Hsh Hd Hff|v p path e l kb r Hp1 Hp2 Hsh Hd Hff Hr IH]; intros s Hs.
  - by exists s.
  - simpl. rewrite orb_true_intro by (destruct Hp as [->| ->]; [by left|by right]). by apply IH.
  - simpl. rewrite !bool_decide_eq_false_2 by done. simpl.
    destruct (Hstep s v e l p Hs Hsh Hd) as (x & s1 & E1 & Hs1 & ->). rewrite Hff in E1.
    exists s1. split; [|done]. by rewrite (bind_step _ _ _ _ _ E1).
  - simpl. rewrite !bool_decide_eq_false_2 by done. simpl.
    destruct (Hstep s v e l p Hs Hsh Hd) as (x & s1 & E1 & Hs1 & ->). rewrite Hff in E1.
    destruct (IH s1 Hs1) as (s2 & E2 & Hs2). exists s2. split; [|done]. by rewrite (bind_step _ _ _ _ _ E1).
Qed.

End theory.

(** ** Witness

    A volume with clusters of one sector, the root directory in cluster 2
    (sector 4, metadata), and in its first slot the file A of 600 bytes with the
    clusters 3 and 5. *)

Definition wit_vregion (b : Z) : bool := b <? 5.
Definition wit_a : ShortDirEntry :=
  set_first_cluster 3 (set_size 600 (default Short_empty
    (Short_new [65; 32; 32; 32; 32; 32; 32; 32] [32; 32; 32] ATTRIBUTE_ARCHIVE))).
Definition wit_vdev : gmap Z (list Z) :=
  let t := splice 8 (le_bytes 4 END_CLUSTER ++ le_bytes 4 5) (splice 20 (le_bytes 4 END_CLUSTER) zero_block) in
  {[1 := wit_info; 2 := t; 3 := t; 4 := Short_bytes wit_a ++ replicate 480 0]}.
Definition wit_vblocks (b : Z) : list Z := read_block b wit_vdev.
Definition wit_ventries (c : Z) : Z := entry wit_vblocks 2 c.
Definition wit_v : VFile := mkVFile [65] 4 0 [] ATTRIBUTE_ARCHIVE.
Definition wit_volume : volume (gmap Z (list Z)) := mkVolume (fresh_disk wit_vdev) root_dirent.

Lemma wit_vlayout : fs_layout wit_vregion wit_fs.
Proof.
  constructor; simpl; try lia; try done.
  constructor; simpl; try lia. intros b. unfold fat_block, wit_vregion; simpl. intros Hb.
  apply Z.ltb_lt. lia.
Qed.

Lemma wit_vfat_rep : fat_rep wit_vblocks (fat wit_fs) wit_ventries.
Proof.
  intros c Hc. split; [reflexivity|]. unfold wit_ventries, entry. simpl in *.
  replace (3 + c / 128) with 3 by zlia. replace (2 + c / 128) with 2 by zlia. reflexivity.
Qed.

Lemma wit_directory : directory wit_vregion wit_fs wit_vblocks root_dirent wit_ventries get_root_vfile root_dirent [2].
Proof.
  constructor; try (vm_compute; reflexivity).
  - by apply located_root.
  - constructor; try (vm_compute; (reflexivity || (split; discriminate))).
    + left. apply chain_last; [simpl; lia|vm_compute; discriminate].
    + intros b Hb. apply list_elem_of_singleton in Hb as ->. reflexivity.
  - by left.
Qed.

Lemma path_lookup_exact_witness :
  (∃ s', find_vfile_bypath wit_fs get_root_vfile [[]; [97]] wit_volume = Done (Some (mkVFile [97] 4 0 [] ATTRIBUTE_ARCHIVE), s')) ∧
  (∃ s', find_vfile_bypath wit_fs get_root_vfile [[46]; [98]] wit_volume = Done (None, s')).
Proof.
  split.
  - destruct (path_lookup_exact wit_vregion wit_fs wit_vlayout wit_vblocks root_dirent wit_ventries wit_volume
      get_root_vfile [[]; [97]] (Some (mkVFile [97] 4 0 [] ATTRIBUTE_ARCHIVE))) as (s' & E & _).
    + split; [apply fresh_disk_rep|reflexivity].
    + apply wit_vfat_rep.
    + apply resolves_skip; [by left|].
      eapply (resolves_step _ _ _ _ _ _ _ _ _ _ (0%nat, Short_bytes wit_a)); [discriminate|discriminate|vm_compute; reflexivity|apply wit_directory|vm_compute; reflexivity|].
      apply resolves_here.
    + exists s'. exact E.
  - destruct (path_lookup_exact wit_vregion wit_fs wit_vlayout wit_vblocks root_dirent wit_ventries wit_volume
      get_root_vfile [[46]; [98]] None) as (s' & E & _).
    + split; [apply fresh_disk_rep|reflexivity].
    + apply wit_vfat_rep.
    + apply resolves_skip; [by right|].
      eapply resolves_miss; [discriminate|discriminate|vm_compute; reflexivity|apply wit_directory|vm_compute; reflexivity].
    + exists s'. exact E.
Defined.
