(* ===== verification/VfsWrite.v ===== *)
(** * Writing files (fat32/src/vfs.rs [increase_size], [write_at], [clear], [remove])

    A write past the end of a file allocates clusters, links them to the chain
    of the file, sets the size in its directory entry and then writes the bytes.
    The theorems state what this does to the file as a sequence of bytes and
    that nothing else on the volume changes. *)

From S2P Require Import Prelude BlockCache Fat Dirent FatFile Vfs.

(** ** Entries *)

Lemma short_wf_set_size n e : short_wf e → fits 32 n → short_wf (set_size n e).
Proof. intros (? & ? & ? & ? & ? & ? & ?) Hn. by split_and!. Qed.

Lemma short_wf_set_first_cluster c e : short_wf e → short_wf (set_first_cluster c e).
Proof.
  intros (? & ? & ? & ? & ? & Hw & ?). split_and!; try done. unfold set_first_cluster; simpl in *.
  repeat match goal with H : Forall _ (_ :: _) |- _ => apply Forall_cons in H as [? H] end.
  repeat (apply Forall_cons; split; [done || apply wrap_fits; lia|]). apply Forall_nil_2.
Qed.

Lemma is_byte_Short_bytes e : short_wf e → Forall is_byte (Short_bytes e).
Proof.
  intros (_ & _ & Hn & He & Ha & _). unfold Short_bytes.
  repeat (apply Forall_app; split); try done; apply le_bytes_is_byte.
Qed.

Lemma set_size_same e : set_size (ent_size e) e = e.
Proof. by destruct e. Qed.

(** ** Sectors of two chains *)

Lemma sectors_app fs l1 l2 : sectors fs (l1 ++ l2) = sectors fs l1 ++ sectors fs l2.
Proof. unfold sectors. by rewrite fmap_app, join_app. Qed.

Lemma content_app V fs l1 l2 : content V fs (l1 ++ l2) = content V fs l1 ++ content V fs l2.
Proof. unfold content. by rewrite sectors_app, fmap_app, join_app. Qed.

Lemma capacity_app fs l1 l2 : capacity fs (l1 ++ l2) = capacity fs l1 + capacity fs l2.
Proof. unfold capacity. rewrite sectors_app, length_app. lia. Qed.

Lemma content_ext V V' fs l : (∀ b, b ∈ sectors fs l → V' b = V b) → content V' fs l = content V fs l.
Proof.
  intros HV. unfold content. f_equal. apply list_fmap_ext. intros i b Hb.
  by apply HV, (list_elem_of_lookup_2 _ i).
Qed.

Lemma content_zero V fs l :
  (∀ b, b ∈ sectors fs l → V b = zero_block) → content V fs l = replicate (Z.to_nat (capacity fs l)) 0.
Proof.
  intros HV. unfold content, capacity. induction (sectors fs l) as [|b bs IH]; [done|].
  change (mjoin (V <$> b :: bs)) with (V b ++ mjoin (V <$> bs)). rewrite IH, HV by (by left || (intros; apply HV; by right)).
  unfold zero_block. rewrite <- replicate_add. f_equal. simpl length. lia.
Qed.

Section writing.
Context {D : Type} `{BlockDeviceLaws D}.
Context (R : Z → bool) (fs : FAT32Manager) (HF : fs_layout R fs).
Implicit Types (V : Z → list Z) (K : list (Z * bool)) (E : Z → Z) (l : list Z) (s : volume D).

Let HL : fat_layout R (fat fs) := fsl_fat _ _ HF.
Abbreviation bpc := (bytes_per_cluster fs).

(** The blocks with the tables and the counters. *)
Definition meta_block (b : Z) : Prop := fat_block (fat fs) b ∨ b = fsinfo fs.

(** The number of clusters that [n] bytes take. *)
Definition clusters_for (n : Z) : Z := (n + bpc - 1) / bpc.

(** [v] is the regular file with the entry [e] and the clusters [l]. *)
Record regular V (root : ShortDirEntry) E (v : VFile) (e : ShortDirEntry) l : Prop := {
  rg_located : located R V root v e;
  rg_disk : short_sector v ≠ 0;
  rg_stored : stored R fs E e l;
  rg_file : is_dir e = false;
  rg_vfile : VFile_is_dir v = false;
  rg_apart : ¬ file_block fs l (short_sector v);
  rg_info : short_sector v ≠ fsinfo fs;
  rg_clusters : Z.of_nat (length l) = clusters_for (ent_size e);
}.

(** Storing the entry [e'] of [v]. *)
Definition put_entry V (v : VFile) (e' : ShortDirEntry) : Z → list Z :=
  <[short_sector v := splice (Z.to_nat (short_offset v)) (Short_bytes e') (V (short_sector v))]> V.

Lemma located_wf V K root v e s :
  vol_rep R V K root s → located R V root v e → short_sector v ≠ 0 → short_wf e.
Proof.
  intros [Hd _] Hloc Hne. destruct Hloc as [Hz|_ _ _ Ho Hon]; [done|].
  destruct (disk_rep_wf _ _ _ _ (short_sector v) Hd) as [Hlen Hby].
  apply Short_bytes_of; [apply length_slice; lia|by apply Forall_slice].
Qed.

Lemma located_put V V' K root v e e' s :
  vol_rep R V K root s → located R V root v e → short_sector v ≠ 0 → short_wf e' →
  V' (short_sector v) = put_entry V v e' (short_sector v) → located R V' root v e'.
Proof.
  intros [Hd _] Hloc Hne Hwf HV. destruct Hloc as [Hz|_ Hfit HR Ho Hon]; [done|].
  destruct (disk_rep_wf _ _ _ _ (short_sector v) Hd) as [Hlen _].
  pose proof (length_Short_bytes e' (proj1 Hwf) (proj1 (proj2 Hwf))) as Hsb.
  rewrite <- (Short_of_bytes e' Hwf).
  replace (Short_bytes e') with (slice (Z.to_nat (short_offset v)) 32 (V' (short_sector v))) by
    (rewrite HV; unfold put_entry; rewrite fn_lookup_insert, <- Hsb; apply slice_splice_eq; lia).
  by apply located_disk.
Qed.

Lemma located_ext V V' root v e :
  located R V root v e → V' (short_sector v) = V (short_sector v) → located R V' root v e.
Proof. intros Hloc HV. destruct Hloc; [by apply located_root|]. rewrite <- HV. by apply located_disk. Qed.

Lemma modify_entry_ok V K root s v e f :
  vol_rep R V K root s → located R V root v e → short_sector v ≠ 0 → usable (λ b, b = short_sector v) K →
  (∀ e, short_wf e → short_wf (f e)) →
  wp (modify_short_dirent v f) s (λ _ s', vol_rep R (put_entry V v (f e)) K root s' ∧
    located R (put_entry V v (f e)) root v (f e)).
Proof.
  intros Hs Hloc Hne HK Hwf. pose proof (located_wf _ _ _ _ _ _ Hs Hloc Hne) as Hwfe. pose proof Hs as [Hd _].
  pose proof (located_put V (put_entry V v (f e)) K root v e (f e) s Hs Hloc Hne (Hwf _ Hwfe) eq_refl) as Hloc'.
  unfold modify_short_dirent. rewrite (proj2 (Z.eqb_neq _ _) Hne).
  destruct Hloc as [Hz|_ Hfit HR Ho Hon]; [done|].
  destruct (modify_cache_ok R V K _ (short_sector v) READ (short_offset v) 32
    (λ l, (Short_bytes (f (Short_of l)), tt)) Hd (proj1 HK) (usable_write _ _ _ _ HK (λ _, eq_refl)) Hfit) as (d' & E1 & Hd');
    [lia|lia|lia| |].
  { intros l Hl Hby. destruct (Short_bytes_of l Hl Hby) as [_ Hw]. specialize (Hwf _ Hw).
    split; [apply length_Short_bytes; apply Hwf|by apply is_byte_Short_bytes]. }
  unfold region in E1. rewrite HR in E1.
  apply (wp_conseq _ _ _ _ (on_disk_ok R _ _ _ _ _ _ _ E1 Hs _ _ Hd')). intros _ s' [_ Hs']. by split.
Qed.

(** Writing through the entry of a file: the closure runs with the entry and
    may change the blocks. *)
Lemma with_short_dirent_ok {X} V K root s v e (f : ShortDirEntry → ST (volume D) X) (Q : X → (Z → list Z) → Prop) :
  vol_rep R V K root s → located R V root v e → (length K < BLOCK_CACHE_SIZE)%nat → short_sector v ∉ K.*1 →
  (∀ s1, vol_rep R V (hold v true K) root s1 →
     wp (f e) s1 (λ x s2, ∃ V', vol_rep R V' (hold v true K) root s2 ∧ Q x V')) →
  wp (with_short_dirent v f) s (λ x s', ∃ V', vol_rep R V' K root s' ∧ Q x V').
Proof.
  intros Hs Hloc HK Hn Hf. unfold with_short_dirent, hold in *. destruct Hloc as [Hz|Hz Hfit HR Ho Hon].
  - rewrite Hz in *. simpl in *. apply wp_bind. eapply wp_run; [reflexivity|]. destruct (Hs) as [_ ->]. by apply Hf.
  - rewrite (proj2 (Z.eqb_neq _ _) Hz) in *. pose proof Hs as [Hd _].
    destruct (begin_modify_ok R V K _ _ READ (short_offset v) 32 Hd HK HR Hn Hfit Ho ltac:(lia) Hon) as (d1 & E1 & Hd1).
    apply (wp_step _ _ _ _ _ (on_disk_ok R _ _ _ _ _ _ _ E1 Hs _ _ Hd1)). intros ? s1 [-> Hs1].
    apply (wp_step _ _ _ _ _ (Hf s1 Hs1)). intros x s2 (V' & Hs2 & HQ). pose proof Hs2 as [Hd2 _].
    destruct (release_ok R V' K _ _ true Hd2 ltac:(done)) as (d3 & E3 & Hd3).
    apply (wp_step _ _ _ _ _ (on_disk_ok R _ _ _ _ _ _ _ E3 Hs2 _ _ Hd3)). intros _ s3 [_ Hs3].
    apply wp_ret. by exists V'.
Qed.

(** Reading a field of the entry. *)
Lemma entry_field_ok {X} V K root s v e (g : ShortDirEntry → X) :
  vol_rep R V K root s → located R V root v e → (length K < BLOCK_CACHE_SIZE)%nat → (short_sector v, true) ∉ K →
  wp (read_short_dirent v (λ e, mret (g e))) s (λ x s', vol_rep R V K root s' ∧ x = g e).
Proof.
  intros Hs Hloc HK Hn. apply (read_short_dirent_ok R V K root s v e); try done.
  intros s1 Hs1. by apply wp_ret.
Qed.

(** ** Growing a file *)

(** The clusters [l2] are the ones that the next allocation takes. *)
Record next_free V E l2 : Prop := {
  nf_hint : 1 ≤ info_word V fs 492;
  nf_after : free_after (n_entry (fat fs)) E (info_word V fs 492) l2;
  nf_count : Z.of_nat (length l2) ≤ info_word V fs 488;
  nf_data b : b ∈ sectors fs l2 → R b = false;
}.

Lemma next_free_disjoint V E c l l2 x : next_free V E l2 → chain (fat fs) E c l → x ∈ l → x ∉ l2.
Proof.
  intros [_ Hfree _ _] Hl Hx Hx2. destruct (free_after_all _ _ _ _ Hfree) as [Hall _]. rewrite Forall_forall in Hall.
  destruct (Hall x Hx2) as [_ Hz]. by apply (chain_used _ _ _ _ _ Hl Hx).
Qed.

Lemma next_free_ext V V' E l2 : V' (fsinfo fs) = V (fsinfo fs) → next_free V E l2 → next_free V' E l2.
Proof. intros HV [H1 H2 H3 H4]. unfold info_word in *. constructor; unfold info_word; by rewrite ?HV. Qed.

Lemma free_after_app n E c l1 l3 :
  free_after n E c (l1 ++ l3) → free_after n E c l1 ∧ free_after n E (default c (last l1)) l3.
Proof.
  revert c. induction l1 as [|x l1 IH]; intros c; [done|]. cbn [app free_after]. intros (? & ? & ? & Hf).
  destruct (IH x Hf) as [Hf1 Hf3]. split; [done|]. rewrite last_cons. by destruct (last l1).
Qed.

Lemma free_after_last n E c l2 x :
  free_after n E c l2 → last l2 = Some x → ∀ y, y ∈ l2 → y ≤ x.
Proof.
  revert c. induction l2 as [|z l2 IH]; intros c; [done|]. cbn [free_after]. intros (Hz & _ & _ & Hf) Hl y Hy.
  rewrite last_cons in Hl. destruct (last l2) as [w|] eqn:El.
  - injection Hl as ->. apply elem_of_cons in Hy as [->|Hy]; [|by eapply IH].
    destruct (free_after_all _ _ _ _ Hf) as [Hall _]. rewrite Forall_forall in Hall.
    destruct (Hall x (last_Some_elem_of _ _ El)). lia.
  - injection Hl as ->. apply last_None in El as ->. apply list_elem_of_singleton in Hy as ->. lia.
Qed.

Lemma next_free_prefix V E l2 l3 : next_free V E (l2 ++ l3) → next_free V E l2.
Proof.
  intros [H1 H2 H3 H4]. rewrite length_app in H3. constructor; [done|by apply free_after_app in H2 as [? _]|lia|].
  intros b Hb. apply H4. rewrite sectors_app. apply elem_of_app. by left.
Qed.

Lemma free_after_table n E E' c l3 :
  (∀ y, c < y < n → E' y = 0 ↔ E y = 0) → free_after n E c l3 → free_after n E' c l3.
Proof.
  revert c. induction l3 as [|x l3 IH]; intros c HE; [done|]. cbn [free_after]. intros (Hx & Hz & Hy & Hf).
  split_and!; [lia|lia|by apply HE| |].
  - intros y Hyx Hyz. apply (Hy y Hyx). apply HE; [lia|done].
  - apply IH; [|done]. intros y Hyn. apply HE. lia.
Qed.

(** What is free after the clusters [l2] have gone to the chain of [l]. *)
Lemma next_free_rest V V' E E' c' l l2 l3 :
  l2 ≠ [] → next_free V E (l2 ++ l3) → (∀ x, x ∈ l → E x ≠ 0) → chain (fat fs) E' c' (l ++ l2) →
  (∀ x, x ∉ l → x ∉ l2 → E' x = E x) →
  info_word V' fs 488 = info_word V fs 488 - Z.of_nat (length l2) → last l2 = Some (info_word V' fs 492) →
  next_free V' E' l3.
Proof.
  intros Hne [H1 H2 H3 H4] Hused Hch Htab Hcnt Hhint. rewrite length_app in H3.
  apply free_after_app in H2 as [Hf2 Hf3]. rewrite Hhint in Hf3. simpl in Hf3.
  destruct (free_after_all _ _ _ _ Hf2) as [Hall _]. rewrite Forall_forall in Hall.
  destruct (Hall _ (last_Some_elem_of _ _ Hhint)) as [Hl _].
  constructor; [lia| |lia|].
  - apply (free_after_table _ E); [|done]. intros y Hy. destruct (decide (y ∈ l2)) as [Hy2|Hy2].
    { pose proof (free_after_last _ _ _ _ _ Hf2 Hhint y Hy2). lia. }
    destruct (decide (y ∈ l)) as [Hyl|Hyl]; [|by rewrite Htab].
    pose proof (Hused y Hyl). pose proof (chain_used _ _ _ _ y Hch ltac:(apply elem_of_app; by left)). tauto.
  - intros b Hb. apply H4. rewrite sectors_app. apply elem_of_app. by right.
Qed.

(** The file has grown by the clusters [l2], which are zero: [V'], [E'] and [e']
    are the blocks, the table and the entry afterwards. *)
Record grown V E (e : ShortDirEntry) l (root : ShortDirEntry) (v : VFile) l2 V' E' (e' : ShortDirEntry) : Prop := {
  gr_fat : fat_rep V' (fat fs) E';
  gr_file : regular V' root E' v e' (l ++ l2);
  gr_content : content V' fs (l ++ l2) = content V fs l ++ replicate (Z.to_nat (capacity fs l2)) 0;
  gr_frame b : ¬ meta_block b → b ≠ short_sector v → b ∉ sectors fs l2 → V' b = V b;
  gr_entry : V' (short_sector v) = put_entry V v e' (short_sector v);
  gr_table x : x ∉ l → x ∉ l2 → E' x = E x;
  gr_kept : set_first_cluster 0 (set_size 0 e') = set_first_cluster 0 (set_size 0 e);
  gr_rest l3 : next_free V E (l2 ++ l3) → next_free V' E' l3;
}.

Lemma put_entry_same V K root s v e :
  vol_rep R V K root s → located R V root v e → short_sector v ≠ 0 → put_entry V v e (short_sector v) = V (short_sector v).
Proof.
  intros [Hd _] Hloc Hne. destruct Hloc as [Hz|_ Hfit HR Ho Hon]; [done|].
  destruct (disk_rep_wf _ _ _ _ (short_sector v) Hd) as [Hlen Hby].
  unfold put_entry. rewrite fn_lookup_insert.
  destruct (Short_bytes_of (slice (Z.to_nat (short_offset v)) 32 (V (short_sector v)))) as [-> _];
    [apply length_slice; lia|by apply Forall_slice|].
  unfold slice, splice. rewrite length_take, length_drop, Nat.min_l by lia.
  rewrite <- drop_drop, take_drop. apply take_drop.
Qed.

Lemma put_entry_twice V V1 K root s v e e1 e2 :
  vol_rep R V K root s → located R V root v e → short_sector v ≠ 0 → short_wf e1 → short_wf e2 →
  V1 (short_sector v) = put_entry V v e1 (short_sector v) →
  put_entry V1 v e2 (short_sector v) = put_entry V v e2 (short_sector v).
Proof.
  intros [Hd _] Hloc Hne H1 H2 HV1. destruct Hloc as [Hz|_ Hfit HR Ho Hon]; [done|].
  destruct (disk_rep_wf _ _ _ _ (short_sector v) Hd) as [Hlen _].
  pose proof (length_Short_bytes e1 (proj1 H1) (proj1 (proj2 H1))) as L1.
  pose proof (length_Short_bytes e2 (proj1 H2) (proj1 (proj2 H2))) as L2.
  unfold put_entry in *. rewrite fn_lookup_insert in HV1. rewrite !fn_lookup_insert, HV1. apply list_eq. intros i.
  assert (length (splice (Z.to_nat (short_offset v)) (Short_bytes e1) (V (short_sector v))) = 512%nat) as L3
    by (rewrite length_splice; lia).
  rewrite lookup_splice by lia. rewrite !lookup_splice by lia. repeat case_decide; try done; lia.
Qed.

Lemma put_entry_other V v e b : b ≠ short_sector v → put_entry V v e b = V b.
Proof. intros Hb. unfold put_entry. by rewrite fn_lookup_insert_ne. Qed.

Lemma put_entry_fat V E v e : fat_rep V (fat fs) E → ¬ fat_block (fat fs) (short_sector v) → fat_rep (put_entry V v e) (fat fs) E.
Proof. intros HE Hn. by apply (fat_rep_other R (fat fs) HL). Qed.

(** Linking the new clusters [l2], which start at [c], to the chain. *)
Lemma link_clusters_ok V root s v E e l l2 c :
  vol_rep R V [] root s → fat_rep V (fat fs) E → located R V root v e → short_sector v ≠ 0 →
  ¬ fat_block (fat fs) (short_sector v) →
  clusters_of fs E e l → chain (fat fs) E c l2 → (∀ x, x ∈ l → x ∉ l2) →
  wp (link_clusters fs v (first_cluster e) c) s (λ _ s', ∃ V' E' e',
    vol_rep R V' [] root s' ∧ fat_rep V' (fat fs) E' ∧ located R V' root v e' ∧
    chain (fat fs) E' (first_cluster e') (l ++ l2) ∧ ent_size e' = ent_size e ∧
    set_first_cluster 0 e' = set_first_cluster 0 e ∧
    (∀ b, ¬ fat_block (fat fs) b → b ≠ short_sector v → V' b = V b) ∧
    V' (short_sector v) = put_entry V v e' (short_sector v) ∧ (∀ x, x ∉ l → E' x = E x)).
Proof.
  intros Hs HE Hloc Hne Hnf Hcl Hl2 Hdis. destruct (chain_head _ _ _ _ Hl2) as [Hc _]. pose proof (fl_small _ _ HL) as Hsm.
  unfold link_clusters. destruct Hcl as [Hl|(-> & _ & Hz)].
  - destruct (chain_head _ _ _ _ Hl) as [Hf _]. rewrite (proj2 (Z.eqb_neq _ 0)) by lia. pose proof Hs as [Hd _].
    destruct (final_cluster_ok R (fat fs) HL V [] _ E _ l Hd (usable_nil _) HE Hl) as (x & d1 & E1 & Hx & Hd1).
    apply (wp_step _ _ _ _ _ (on_disk_ok R _ _ _ _ _ _ _ E1 Hs _ _ Hd1)). intros ? s1 [-> Hs1]. pose proof Hs1 as [Hd1' _].
    apply (wp_step _ _ _ (λ _ s', s' = s1)); [apply wp_assert; [by rewrite (proj2 (Z.eqb_neq c 0)) by lia|done]|].
    intros _ ? ->. assert (x ∈ l) as Hxl by by apply last_Some_elem_of.
    pose proof (chain_valid _ _ _ _ Hl) as Hv. rewrite Forall_forall in Hv. specialize (Hv x Hxl).
    destruct (set_next_cluster_ok R (fat fs) HL V [] _ E x c Hd1' (usable_nil _) HE) as (V' & d2 & E2 & Hd2 & HE2 & HV2);
      [lia|unfold fits; lia|].
    apply (wp_conseq _ _ _ _ (on_disk_ok R _ _ _ _ _ _ _ E2 Hs1 _ _ Hd2)). intros _ s2 [_ Hs2].
    assert (V' (short_sector v) = V (short_sector v)) as Hhome by by apply HV2.
    exists V', (<[x := c]> E), e. split_and!; try done.
    + by apply (located_ext V).
    + by apply (chain_append R (fat fs) HL).
    + intros b Hb _. by apply HV2.
    + by rewrite Hhome, (put_entry_same V [] root s).
    + intros y Hy. rewrite fn_lookup_insert_ne; [done|]. by intros <-.
  - rewrite Hz. simpl.
    apply (wp_conseq _ _ _ _ (modify_entry_ok V [] root s v e (set_first_cluster c) Hs Hloc Hne (usable_nil _)
      (short_wf_set_first_cluster c))). intros _ s' [Hs' Hloc'].
    exists (put_entry V v (set_first_cluster c e)), E, (set_first_cluster c e). split_and!; try done.
    + by apply put_entry_fat.
    + rewrite first_cluster_set by (unfold fits; lia). done.
    + intros b _ Hb. by apply put_entry_other.
Qed.

Lemma clusters_for_mono a b : 0 ≤ a ≤ b → clusters_for a ≤ clusters_for b.
Proof.
  intros Hab. unfold clusters_for. rewrite (fsl_bpc _ _ HF). pose proof (fsl_spc _ _ HF).
  apply Z.div_le_mono; lia.
Qed.

Lemma size_to_clusters_ok n : 0 ≤ n → n + bpc < 2 ^ 32 → size_to_clusters fs n = clusters_for n.
Proof.
  intros Hn Hb. unfold size_to_clusters, clusters_for. rewrite (fsl_bpc _ _ HF) in *. pose proof (fsl_spc _ _ HF).
  rewrite (wadd_small 32) by (unfold fits; lia). rewrite wsub_small by (unfold fits; lia). done.
Qed.

(** The capacity of as many clusters as [n] bytes take. *)
Lemma capacity_for l n :
  0 ≤ n → Z.of_nat (length l) = clusters_for n → n ≤ capacity fs l < n + bpc.
Proof.
  intros Hn Hlen. unfold capacity. rewrite (length_sectors fs), Nat2Z.inj_mul, Hlen. unfold clusters_for.
  pose proof (fsl_bpc _ _ HF) as Hbpc. pose proof (fsl_spc _ _ HF). rewrite Z2Nat.id by lia.
  pose proof (Z.div_mod (n + bpc - 1) bpc ltac:(lia)). pose proof (Z.mod_pos_bound (n + bpc - 1) bpc ltac:(lia)).
  set (q := (n + bpc - 1) / bpc) in *. replace (512 * (sectors_per_cluster fs * q)) with (bpc * q) by (rewrite Hbpc; lia). lia.
Qed.

(** The last step: the size is set, and the file is whole again. *)
Lemma set_size_grown V root s v E e l l2 V1 E1 e1 new :
  regular V root E v e l → ent_size e < new → new + bpc < 2 ^ 32 →
  Z.of_nat (length (l ++ l2)) = clusters_for new →
  (∀ b, b ∈ sectors fs l2 → R b = false) → (∀ x, x ∈ l → x ∉ l2) → (∃ s0, vol_rep R V [] root s0) →
  vol_rep R V1 [] root s → fat_rep V1 (fat fs) E1 → located R V1 root v e1 →
  chain (fat fs) E1 (first_cluster e1) (l ++ l2) → set_first_cluster 0 e1 = set_first_cluster 0 e →
  (∀ b, b ∈ sectors fs l2 → V1 b = zero_block) →
  (∀ b, ¬ meta_block b → b ≠ short_sector v → b ∉ sectors fs l2 → V1 b = V b) →
  V1 (short_sector v) = put_entry V v e1 (short_sector v) → (∀ x, x ∉ l → x ∉ l2 → E1 x = E x) →
  (∀ l3, next_free V E (l2 ++ l3) → next_free V1 E1 l3) →
  wp (modify_short_dirent v (set_size new)) s (λ _ s', ∃ V' e',
    vol_rep R V' [] root s' ∧ ent_size e' = new ∧ grown V E e l root v l2 V' E1 e').
Proof.
  intros Hreg Hnew Hb Hcl HR2 Hdis [s0 Hs0] Hs HE1 Hloc Hch Hkept Hzero Hframe Hentry Htable Hrest.
  pose proof Hreg as [Hloc0 Hne Hst Hfile Hvfile Hap Hinf _].
  pose proof (st_end _ _ _ _ _ Hst) as Hfe. unfold file_end in Hfe. rewrite Hfile in Hfe.
  pose proof (capacity_for (l ++ l2) new ltac:(lia) Hcl) as Hcap.
  assert (¬ fat_block (fat fs) (short_sector v)) as Hnf by (intros Hx; apply Hap; by left).
  assert (short_sector v ∉ sectors fs l2) as Hn2.
  { intros Hin. pose proof (HR2 _ Hin) as Hr. destruct Hloc0; congruence. }
  assert (∀ e, short_wf e → short_wf (set_size new e)) as Hwf.
  { intros e0 He0. apply short_wf_set_size; [done|]. unfold fits. rewrite (fsl_bpc _ _ HF) in Hb. pose proof (fsl_spc _ _ HF). lia. }
  apply (wp_conseq _ _ _ _ (modify_entry_ok V1 [] root s v e1 (set_size new) Hs Hloc Hne (usable_nil _) Hwf)).
  intros _ s' [Hs' Hloc']. exists (put_entry V1 v (set_size new e1)), (set_size new e1). split_and!; [done|done|].
  pose proof (located_wf _ _ _ _ _ _ Hs Hloc Hne) as Hwf1.
  assert (attribute e1 = attribute e) as Hattr by (by injection Hkept).
  assert (is_dir (set_size new e1) = false) as Hd1 by (unfold is_dir in *; simpl; by rewrite Hattr).
  assert (∀ b, b ∈ sectors fs l → ¬ meta_block b ∧ b ≠ short_sector v ∧ b ∉ sectors fs l2) as Hold.
  { intros b Hin. pose proof Hin as (x & Hx & Hbx)%elem_of_sectors.
    pose proof (chain_valid _ _ _ _ Hch) as Hv. rewrite Forall_forall in Hv.
    destruct (first_sector_ok R fs HF x (Hv x ltac:(apply elem_of_app; by left))) as [_ Hout].
    destruct (Hout b Hbx) as (Hnfb & Hnib & _). split_and!.
    - intros [?|?]; done.
    - intros ->. apply Hap. by right.
    - intros (y & Hy & Hby)%elem_of_sectors. pose proof (in_cluster_inj R fs HF x y b Hbx Hby). subst y. by apply (Hdis x). }
  constructor.
  - by apply put_entry_fat.
  - constructor; try done.
    + constructor; [left; exact Hch| |lia|].
      * unfold file_end. rewrite Hd1. simpl. lia.
      * intros b. rewrite sectors_app, elem_of_app, Hd1. intros [Hin|Hin]; [|by apply HR2].
        rewrite <- Hfile. by apply (st_cache _ _ _ _ _ Hst).
    + intros [?|Hin]; [done|]. rewrite sectors_app in Hin. apply elem_of_app in Hin as [Hin|Hin]; [|done]. apply Hap. by right.
  - rewrite content_app. f_equal.
    + apply content_ext. intros b Hin. destruct (Hold b Hin) as (? & ? & ?). by rewrite put_entry_other, Hframe.
    + apply content_zero. intros b Hin. rewrite put_entry_other by (by intros ->). by apply Hzero.
  - intros b Hm Hbv Hb2. by rewrite put_entry_other, Hframe.
  - apply (put_entry_twice V V1 [] root s0 v e e1); try done. by apply Hwf.
  - done.
  - destruct e1, e; simpl in *. unfold set_first_cluster, set_size in *. simpl in *. congruence.
  - intros l3 Hnf3. apply (next_free_ext V1); [by apply put_entry_other|by apply Hrest].
Qed.

Lemma fit_nil V root v E e l K s :
  vol_rep R V K root s → fat_rep V (fat fs) E → regular V root E v e l → grown V E e l root v [] V E e.
Proof.
  intros Hs HE Hreg. pose proof Hreg as [Hloc Hne _ _ _ _ _ _]. constructor; try done.
  - by rewrite app_nil_r.
  - unfold capacity. simpl. by rewrite !app_nil_r.
  - by rewrite (put_entry_same V K root s).
Qed.

Lemma increase_size_ok V root s v E e l l2 new :
  vol_rep R V [] root s → fat_rep V (fat fs) E → regular V root E v e l →
  0 ≤ new → new + bpc < 2 ^ 32 → next_free V E l2 →
  Z.of_nat (length l2) = Z.max 0 (clusters_for new - clusters_for (ent_size e)) →
  wp (increase_size fs v new) s (λ _ s', ∃ V' E' e',
    vol_rep R V' [] root s' ∧ ent_size e' = Z.max (ent_size e) new ∧ grown V E e l root v l2 V' E' e').
Proof.
  intros Hs HE Hreg Hnew Hb Hfree Hlen2. pose proof Hreg as [Hloc Hne Hst Hfile Hvfile Hap Hinf Hcl].
  pose proof (st_end _ _ _ _ _ Hst) as Hfe. unfold file_end in Hfe. rewrite Hfile in Hfe.
  pose proof (fsl_bpc _ _ HF) as Hbpc. pose proof (fsl_spc _ _ HF) as Hspc.
  unfold increase_size.
  apply (wp_step _ _ _ _ _ (entry_field_ok V [] root s v e first_cluster Hs Hloc ltac:(simpl; unfold BLOCK_CACHE_SIZE; lia) ltac:(apply not_elem_of_nil))).
  intros ? s1 [Hs1 ->].
  apply (wp_step _ _ _ _ _ (entry_field_ok V [] root s1 v e ent_size Hs1 Hloc ltac:(simpl; unfold BLOCK_CACHE_SIZE; lia) ltac:(apply not_elem_of_nil))).
  intros ? s2 [Hs2 ->].
  destruct (Z.leb_spec new (ent_size e)) as [Hle|Hgt].
  { pose proof (clusters_for_mono new (ent_size e) ltac:(lia)). destruct l2; [|simpl in Hlen2; lia].
    apply wp_ret. exists V, E, e. split_and!; [done|lia|by eapply fit_nil]. }
  pose proof (clusters_for_mono (ent_size e) new ltac:(lia)) as Hmono.
  rewrite Hvfile. apply (wp_step _ _ _ (λ n s', n = Z.of_nat (length l2) ∧ s' = s2)).
  { apply wp_zoom. eexists _, _. split.
    - unfold cluster_num_needed. rewrite (proj2 (Z.leb_gt new (ent_size e))) by lia.
      rewrite !size_to_clusters_ok by lia. reflexivity.
    - split; [|by destruct s2]. rewrite wsub_small; [lia|]. unfold fits.
      assert (0 ≤ clusters_for (ent_size e)) by (unfold clusters_for; apply Z.div_pos; lia).
      assert (clusters_for new ≤ new + bpc - 1) by (unfold clusters_for; apply Z.div_le_upper_bound; nia). lia. }
  intros ? ? [-> ->]. replace (Z.max (ent_size e) new) with new by lia.
  assert (Z.of_nat (length (l ++ l2)) = clusters_for new) as Hcl' by (rewrite length_app; lia).
  destruct l2 as [|c2 l2'] eqn:El2.
  { simpl. apply (wp_conseq _ _ (λ _ s', ∃ V' e', vol_rep R V' [] root s' ∧ ent_size e' = new ∧ grown V E e l root v [] V' E e')).
    - rewrite app_nil_r in Hcl'. assert (0 < ent_size e) as Hpos.
      { destruct (decide (ent_size e = 0)) as [Hz|]; [|lia]. assert (0 < clusters_for new) as Hp.
        { unfold clusters_for. apply Z.div_str_pos. lia. }
        assert (clusters_for 0 = 0) as Hz0 by (unfold clusters_for; apply Z.div_small; lia).
        rewrite Hz, Hz0 in Hlen2. simpl in Hlen2. lia. }
      pose proof (stored_chain R fs _ _ _ Hst) as Hch. unfold file_end in Hch. rewrite Hfile in Hch.
      apply (set_size_grown V root s2 v E e l [] V E e new); rewrite ?app_nil_r; try done; try by (intros b Hx; by apply not_elem_of_nil in Hx).
      + intros x _. apply not_elem_of_nil.
      + by exists s.
      + apply Hch. by left.
      + by rewrite (put_entry_same V [] root s).
    - intros _ s' (V' & e' & ? & ? & ?). eauto 10. }
  rewrite <- El2 in *. rewrite (proj2 (Z.eqb_neq _ 0)) by (rewrite El2; simpl; lia).
  pose proof Hfree as [Hhint Hafter Hcount Hdata].
  assert (∀ c b, c ∈ l2 → in_cluster fs c b → R b = false) as Hdata'.
  { intros c b Hc Hin. apply Hdata, elem_of_sectors. eauto. }
  pose proof Hs2 as [Hd2 _].
  pose proof (alloc_cluster_ok R fs HF V _ E (Z.of_nat (length l2)) l2 Hd2 HE ltac:(rewrite El2; simpl; lia) Hhint Hafter eq_refl Hdata' Hcount)
    as (c & V1 & d1 & E1 & Hd1 & _ & HE1 & Hch & Hz & Hcnt1 & Hhint1 & HV1).
  apply (wp_step _ _ _ _ _ (on_disk_ok R _ _ _ _ _ _ _ E1 Hs2 _ _ (Hd1 R))). intros ? s3 [-> Hs3].
  assert (∀ b, ¬ meta_block b → b ∉ sectors fs l2 → V1 b = V b) as Hframe1.
  { intros b Hm Hn. apply HV1; [intros ?; apply Hm; by left|intros ?; apply Hm; by right|].
    intros x Hx Hin. apply Hn, elem_of_sectors. eauto. }
  assert (¬ meta_block (short_sector v)) as Hnm by (intros [?|?]; [apply Hap; by left|done]).
  assert (short_sector v ∉ sectors fs l2) as Hn2.
  { intros Hin. pose proof (Hdata _ Hin). destruct Hloc; congruence. }
  assert (V1 (short_sector v) = V (short_sector v)) as Hhome by by apply Hframe1.
  assert (∀ x, x ∈ l → x ∉ l2) as Hdis.
  { intros x Hx. destruct (st_chain _ _ _ _ _ Hst) as [Hl|(-> & _)]; [by eapply next_free_disjoint|by apply not_elem_of_nil in Hx]. }
  assert (clusters_of fs (linked E l2) e l) as Hcl1.
  { destruct (st_chain _ _ _ _ _ Hst) as [Hl|?]; [left|by right]. apply (chain_ext _ E); [done|].
    intros x Hx. apply linked_other. by apply Hdis. }
  apply (wp_step _ _ _ _ _ (link_clusters_ok V1 root s3 v (linked E l2) e l l2 c Hs3 HE1 (located_ext _ _ _ _ _ Hloc Hhome) Hne
    ltac:(intros ?; apply Hap; by left) Hcl1 Hch Hdis)).
  intros _ s4 (V2 & E2 & e2 & Hs4 & HE2 & Hloc2 & Hch2 & Hsz2 & Hk2 & HV2 & Hent2 & HT2).
  apply (wp_conseq _ _ (λ _ s', ∃ V' e', vol_rep R V' [] root s' ∧ ent_size e' = new ∧ grown V E e l root v l2 V' E2 e')).
  - apply (set_size_grown V root s4 v E e l l2 V2 E2 e2 new); try done.
    + by exists s.
    + intros b Hin. pose proof Hin as (x & Hx & Hbx)%elem_of_sectors.
      destruct (free_after_all _ _ _ _ Hafter) as [Hall _]. rewrite Forall_forall in Hall. destruct (Hall x Hx) as [Hxr _].
      destruct (first_sector_ok R fs HF x ltac:(lia)) as [_ Hout]. destruct (Hout b Hbx) as (Hnfb & _).
      rewrite HV2; [by eapply Hz|done|by intros ->].
    + intros b Hm Hbv Hb2. rewrite HV2; [by apply Hframe1|intros ?; apply Hm; by left|done].
    + rewrite Hent2. unfold put_entry. by rewrite !fn_lookup_insert, Hhome.
    + intros x Hx Hx2. rewrite HT2 by done. by apply linked_other.
    + intros l3 Hnf3.
      assert (V2 (fsinfo fs) = V1 (fsinfo fs)) as Hinfo2 by (apply HV2; [apply (info_sector R fs HF)|done]).
      apply (next_free_rest V V2 E E2 (first_cluster e2) l l2 l3); try done.
      * by rewrite El2.
      * intros x Hx. destruct (st_chain _ _ _ _ _ Hst) as [Hl|(-> & _)]; [by eapply chain_used|by apply not_elem_of_nil in Hx].
      * intros x Hx Hx2. rewrite HT2 by done. by apply linked_other.
      * unfold info_word in *. by rewrite Hinfo2, Hcnt1.
      * unfold info_word in *. by rewrite Hinfo2.
  - intros _ s' (V' & e' & ? & ? & ?). eauto 10.
Qed.

Lemma VFile_read_ok V K root s v E e l offset len :
  vol_rep R V K root s → fat_rep V (fat fs) E → regular V root E v e l → usable (file_block fs l) K →
  (S (length K) < BLOCK_CACHE_SIZE)%nat → (short_sector v, true) ∉ K → 0 ≤ offset < 2 ^ 32 → 0 ≤ len < 2 ^ 32 →
  wp (VFile_read_at fs v offset len) s (λ x s', vol_rep R V K root s' ∧
    x = slice (Z.to_nat offset) (Z.to_nat (Z.min len (ent_size e - offset))) (content V fs l)).
Proof.
  intros Hs HE [Hloc _ Hst Hfile _ Hap _ _] HK HK1 Hn Ho Hlen. unfold VFile_read_at.
  apply (read_short_dirent_ok R V K root s v e); [done|done|lia|done|]. intros s1 Hs1. pose proof Hs1 as [Hd1 _].
  destruct (read_at_ok R fs HF V _ _ E e l offset len Hd1 (hold_usable _ false _ _ HK HK1 (or_intror Hap)) HE Hst Ho Hlen)
    as (d2 & E2 & Hd2); [by rewrite Hfile|].
  apply (wp_conseq _ _ _ _ (on_disk_ok R _ _ _ _ _ _ _ E2 Hs1 _ _ Hd2)). intros x s2 [-> Hs2]. split; [done|].
  unfold file_end. by rewrite Hfile.
Qed.

Lemma regular_ext V V' root E v e l :
  regular V root E v e l → V' (short_sector v) = V (short_sector v) → regular V' root E v e l.
Proof. intros [Hloc ? ? ? ? ? ? ?] HV. constructor; try done. by apply (located_ext V). Qed.

Lemma VFile_write_ok V root s v E e l l2 offset buf :
  vol_rep R V [] root s → fat_rep V (fat fs) E → regular V root E v e l →
  Forall is_byte buf → buf ≠ [] → 0 ≤ offset → offset + Z.of_nat (length buf) + bpc < 2 ^ 32 →
  next_free V E l2 →
  Z.of_nat (length l2) = Z.max 0 (clusters_for (offset + Z.of_nat (length buf)) - clusters_for (ent_size e)) →
  wp (VFile_write_at fs v offset buf) s (λ n s', n = Z.of_nat (length buf) ∧ ∃ V' E' e',
    vol_rep R V' [] root s' ∧ fat_rep V' (fat fs) E' ∧ regular V' root E' v e' (l ++ l2) ∧
    ent_size e' = Z.max (ent_size e) (offset + Z.of_nat (length buf)) ∧
    content V' fs (l ++ l2) =
      splice (Z.to_nat offset) buf (content V fs l ++ replicate (Z.to_nat (capacity fs l2)) 0) ∧
    (∀ b, ¬ meta_block b → b ≠ short_sector v → b ∉ sectors fs (l ++ l2) → V' b = V b) ∧
    V' (short_sector v) = put_entry V v e' (short_sector v) ∧ (∀ x, x ∉ l → x ∉ l2 → E' x = E x) ∧
    (∀ l3, next_free V E (l2 ++ l3) → next_free V' E' l3)).
Proof.
  intros Hs HE Hreg Hby Hbuf Hoff Hsmall Hfree Hlen2. pose proof (fsl_bpc _ _ HF). pose proof (fsl_spc _ _ HF).
  unfold VFile_write_at.
  replace (wrap 32 (offset ⊞ Z.of_nat (length buf))) with (offset + Z.of_nat (length buf)).
  2:{ rewrite wadd_small by (unfold fits; lia). rewrite wrap_small by (unfold fits; lia). done. }
  apply (wp_step _ _ _ _ _ (increase_size_ok V root s v E e l l2 (offset + Z.of_nat (length buf)) Hs HE Hreg ltac:(lia) Hsmall Hfree Hlen2)).
  intros _ s1 (V1 & E1 & e1 & Hs1 & Hsz & [HE1 Hreg1 Hcon1 Hfr1 Hent1 Htab1 _ Hrest1]).
  pose proof Hreg1 as [Hloc1 Hne Hst1 Hfile1 _ Hap1 _ _].
  apply (wp_conseq _ _ (λ n s', ∃ V', vol_rep R V' [] root s' ∧ (n = Z.of_nat (length buf) ∧
    content V' fs (l ++ l2) = splice (Z.to_nat offset) buf (content V1 fs (l ++ l2)) ∧
    (∀ b, b ∉ sectors fs (l ++ l2) → V' b = V1 b) ∧ fat_rep V' (fat fs) E1))).
  - apply (with_short_dirent_ok V1 [] root s1 v e1); [done|done|simpl; unfold BLOCK_CACHE_SIZE; lia|apply not_elem_of_nil|].
    intros s2 Hs2. pose proof Hs2 as [Hd2 _].
    destruct (write_at_ok R fs HF V1 _ _ E1 e1 (l ++ l2) offset buf Hd2) as (d3 & V' & E3 & Hd3 & Hc & Ho & HE'); try done.
    + apply hold_usable; [apply usable_nil|simpl; unfold BLOCK_CACHE_SIZE; lia|by right].
    + unfold file_end. rewrite Hfile1. lia.
    + apply (wp_conseq _ _ _ _ (on_disk_ok R _ _ _ _ _ _ _ E3 Hs2 _ _ Hd3)). intros ? s3 [-> Hs3].
      exists V'. split; [done|]. split_and!; [done|done|done|done].
  - intros n s' (V' & Hs' & -> & Hc & Ho & HE'). split; [done|].
    assert (short_sector v ∉ sectors fs (l ++ l2)) as Hhome by (intros ?; apply Hap1; by right).
    exists V', E1, e1. split_and!; try done.
    + apply (regular_ext V1); [done|by apply Ho].
    + by rewrite Hc, Hcon1.
    + intros b Hm Hb Hsec. rewrite Ho by done. apply Hfr1; [done|done|].
      intros Hin. apply Hsec. rewrite sectors_app. apply elem_of_app. by right.
    + rewrite Ho by done. exact Hent1.
    + intros l3 Hnf3. apply (next_free_ext V1); [|by apply Hrest1]. apply Ho.
      intros (x & Hx & Hbx)%elem_of_sectors. destruct (st_chain _ _ _ _ _ Hst1) as [Hl|(Hnil & _)].
      * pose proof (chain_valid _ _ _ _ Hl) as Hv. rewrite Forall_forall in Hv.
        destruct (first_sector_ok R fs HF x (Hv x Hx)) as [_ Hout]. by destruct (Hout _ Hbx) as (_ & ? & _).
      * rewrite Hnil in Hx. by apply not_elem_of_nil in Hx.
Qed.

(** C11. A file on the volume is a sequence of bytes. A write at any offset of a
    regular file writes all the bytes, allocating, zeroing and linking the
    clusters it needs beyond those the file has, and sets the size; the content
    of the clusters changes exactly at the offset, no other entry of the table
    and no block outside the file, the tables and the file's directory entry
    changes, and reading the same range gives the bytes back. The volume must
    have the clusters free after the hint of its FSInfo sector ([next_free]),
    and the write must end more than a cluster below 4 GiB. *)
Theorem vfile_write_then_read V root s v E e l l2 offset buf :
  vol_rep R V [] root s → fat_rep V (fat fs) E → regular V root E v e l →
  Forall is_byte buf → buf ≠ [] → 0 ≤ offset → offset + Z.of_nat (length buf) + bytes_per_cluster fs < 2 ^ 32 →
  next_free V E l2 →
  Z.of_nat (length l2) = Z.max 0 (clusters_for (offset + Z.of_nat (length buf)) - clusters_for (ent_size e)) →
  ∃ s' s'' V' E' e',
    VFile_write_at fs v offset buf s = Done (Z.of_nat (length buf), s') ∧
    VFile_read_at fs v offset (Z.of_nat (length buf)) s' = Done (buf, s'') ∧
    vol_rep R V' [] root s'' ∧ fat_rep V' (fat fs) E' ∧ regular V' root E' v e' (l ++ l2) ∧
    ent_size e' = Z.max (ent_size e) (offset + Z.of_nat (length buf)) ∧
    content V' fs (l ++ l2) =
      splice (Z.to_nat offset) buf (content V fs l ++ replicate (Z.to_nat (capacity fs l2)) 0) ∧
    (∀ b, ¬ meta_block b → b ≠ short_sector v → b ∉ sectors fs (l ++ l2) → V' b = V b) ∧
    V' (short_sector v) = put_entry V v e' (short_sector v) ∧ (∀ x, x ∉ l → x ∉ l2 → E' x = E x).
Proof.
  intros Hs HE Hreg Hby Hbuf Hoff Hsmall Hfree Hlen2. pose proof (fsl_bpc _ _ HF). pose proof (fsl_spc _ _ HF).
  destruct (VFile_write_ok V root s v E e l l2 offset buf Hs HE Hreg Hby Hbuf Hoff Hsmall Hfree Hlen2)
    as (n & s' & E1 & -> & V' & E' & e' & Hs' & HE' & Hreg' & Hsz & Hc & Hfr & Hent & Htab & _).
  destruct (VFile_read_ok V' [] root s' v E' e' (l ++ l2) offset (Z.of_nat (length buf)) Hs' HE' Hreg' (usable_nil _)
    ltac:(simpl; unfold BLOCK_CACHE_SIZE; lia) ltac:(apply not_elem_of_nil) ltac:(lia) ltac:(lia)) as (x & s'' & E2 & Hs'' & Hx).
  exists s', s'', V', E', e'. split_and!; try done. rewrite E2, Hx. do 2 f_equal.
  replace (Z.to_nat (Z.min (Z.of_nat (length buf)) (ent_size e' - offset))) with (length buf) by lia.
  rewrite Hc. apply slice_splice_eq. pose proof (length_content R fs V' [] _ (l ++ l2) (proj1 Hs')) as Hlc.
  pose proof (st_end _ _ _ _ _ (rg_stored _ _ _ _ _ _ Hreg')) as Hfe. unfold file_end in Hfe.
  rewrite (rg_file _ _ _ _ _ _ Hreg') in Hfe. pose proof (length_content R fs V [] _ l (proj1 Hs)) as Hl0.
  pose proof (capacity_app fs l l2). rewrite length_app, length_replicate. lia.
Qed.

End writing.

(** ** Witness

    The file A of the volume at the end of Vfs.v. *)

Lemma wit_vchain : chain (fat wit_fs) wit_ventries 3 [3; 5].
Proof.
  apply chain_cons; [simpl; lia|vm_compute; reflexivity|].
  replace (next_of (wit_ventries 3)) with 5 by (vm_compute; reflexivity).
  apply chain_last; [simpl; lia|vm_compute; discriminate].
Qed.

Lemma wit_regular : regular wit_vregion wit_fs wit_vblocks root_dirent wit_ventries wit_v wit_a [3; 5].
Proof.
  assert (sectors wit_fs [3; 5] = [5; 7]) as Es by reflexivity.
  constructor; try (vm_compute; congruence).
  - replace wit_a with (Short_of (slice (Z.to_nat (short_offset wit_v)) 32 (wit_vblocks (short_sector wit_v))))
      by (vm_compute; reflexivity).
    apply located_disk; vm_compute; (congruence || (split; congruence)).
  - constructor.
    + left. apply wit_vchain.
    + vm_compute. split; discriminate.
    + vm_compute. reflexivity.
    + intros b Hb. rewrite Es in Hb.
      apply elem_of_cons in Hb as [->|[->|Hb%not_elem_of_nil]%elem_of_cons]; [reflexivity|reflexivity|done].
  - intros [Hb|Hb].
    + unfold fat_block in Hb. simpl in Hb. lia.
    + rewrite Es in Hb. apply elem_of_cons in Hb as [Hb|[Hb|Hb%not_elem_of_nil]%elem_of_cons]; [discriminate|discriminate|done].
Qed.

Lemma wit_next_free : next_free wit_vregion wit_fs wit_vblocks wit_ventries [4].
Proof.
  assert (info_word wit_vblocks wit_fs 492 = 2) as Eh by (vm_compute; reflexivity).
  constructor; try (vm_compute; congruence).
  - rewrite Eh. simpl. split_and!; try lia; try (vm_compute; reflexivity); try done.
    intros y Hy. replace y with 3 by lia. vm_compute. discriminate.
  - intros b Hb. assert (sectors wit_fs [4] = [6]) as Es by reflexivity. rewrite Es in Hb.
    apply list_elem_of_singleton in Hb as ->. reflexivity.
Qed.

Lemma vfile_write_then_read_witness :
  ∃ s' s'', VFile_write_at wit_fs wit_v 1000 (replicate 100 7) wit_volume = Done (100, s') ∧
    VFile_read_at wit_fs wit_v 1000 100 s' = Done (replicate 100 7, s'').
Proof.
  destruct (vfile_write_then_read wit_vregion wit_fs wit_vlayout wit_vblocks root_dirent wit_volume wit_v wit_ventries
    wit_a [3; 5] [4] 1000 (replicate 100 7)) as (s' & s'' & V' & E' & e' & Hw & Hr & _).
  - split; [apply fresh_disk_rep|reflexivity].
  - apply wit_vfat_rep.
  - apply wit_regular.
  - apply Forall_replicate. unfold is_byte. lia.
  - discriminate.
  - lia.
  - vm_compute. reflexivity.
  - apply wit_next_free.
  - vm_compute. reflexivity.
  - exists s', s''. split; [exact Hw|exact Hr].
Defined.
