(* ===== verification/VfsCreate.v ===== *)
(** * Creating and removing files (fat32/src/vfs.rs [find_free_dirent], [create], [remove])

    A new file gets the first empty slot of its directory. The theorems state
    that it is found under its name afterwards, and what [remove] does to the
    directory entry and the table. *)

From S2P Require Import Prelude BlockCache Fat Dirent FatFile Vfs VfsWrite.

(** ** The entry of a new file *)

Lemma Short_new_fields nm ext attr e :
  Short_new nm ext attr = Some e →
  ent_name e = take 8 nm ∧ attribute e = attr ∧ ent_size e = 0 ∧ first_cluster e = 0.
Proof. unfold Short_new. intros Hn. destruct (_ && _); simplify_eq/=. done. Qed.

(** An 8.3 name. *)
Definition short_name (base ext : list Z) : Prop :=
  name_chars base ∧ name_chars ext ∧ (1 ≤ length base ≤ 8)%nat ∧ (length ext ≤ 3)%nat.

Lemma short_name_not_long base ext : short_name base ext → is_long_name (base ++ dotted ext) = false.
Proof.
  intros (Hb & He & Lb & Le). unfold is_long_name, split_name_ext.
  pose proof (name_chars_nodot _ Hb) as Hb'. pose proof (name_chars_nodot _ He) as He'.
  destruct ext as [|d ext]; cbn [dotted].
  - rewrite app_nil_r, split_none by done. rewrite name_chars_ascii by done. change (as_bytes []) with (@nil Z).
    rewrite (proj2 (Z.ltb_ge _ _)) by lia. done.
  - rewrite split_one, split_none by done. rewrite !name_chars_ascii by done.
    rewrite !(proj2 (Z.ltb_ge _ _)) by lia. done.
Qed.

(** What [create] writes for an 8.3 name: it is neither empty nor deleted and
    has the name. *)
Lemma new_entry base ext attr :
  short_name base ext → is_byte attr →
  let nm := base ++ dotted ext in
  ∃ e, Short_initialize (short_name_format nm).1 (short_name_format nm).2 attr = Some e ∧
    let e' := set_case ALL_LOWER_CASE e in
    short_wf e' ∧ is_empty e' = false ∧ short_match nm (Short_bytes e') = true ∧
    attribute e' = attr ∧ ent_size e' = 0 ∧ first_cluster e' = 0.
Proof.
  intros (Hb & He & Lb & Le) Ha nm.
  destruct (formatted_entry base ext attr Hb He ltac:(lia) Le Ha) as (e & Hinit & Hwf & Hupper).
  exists e. subst nm. pose proof (short_name_format_eq base ext None Hb He) as Hfmt. simpl in Hfmt.
  rewrite Hfmt by (intros ->; simpl in Lb; lia). split; [done|].
  destruct (Short_new_fields _ _ _ _ Hinit) as (Hname & Hattr & Hsize & Hfirst). intros e'.
  assert (short_wf e') as Hwf'.
  { destruct Hwf as (? & ? & ? & ? & Hw & ? & ?). split_and!; try done. simpl in *.
    apply Forall_cons in Hw as [? Hw]. apply Forall_cons in Hw as [_ Hw].
    repeat (apply Forall_cons; split; [done || (unfold ALL_LOWER_CASE, fits; lia)|]). done. }
  assert (0 < byte_at (ent_name e') 0 < 128) as Hfst.
  { subst e'. simpl. rewrite Hname. destruct base as [|c base]; [simpl in Lb; lia|].
    apply Forall_cons in Hb as [Hc Hb]. rewrite name_chars_ascii by by apply Forall_cons.
    rewrite padded_eq by lia. unfold byte_at. simpl. unfold to_ascii_uppercase.
    destruct (Z.leb_spec 97 c), (Z.leb_spec c 122); simpl; lia. }
  split_and!; try done.
  - unfold is_empty. apply Z.eqb_neq. lia.
  - unfold short_match. rewrite Short_of_bytes by done. apply andb_true_iff. split.
    + unfold is_valid_entry. by rewrite (proj2 (Z.eqb_neq _ 0xE5)) by lia.
    + apply bool_decide_eq_true. change (get_name_uppercase e') with (get_name_uppercase e).
      rewrite Hupper, fmap_app. f_equal. by destruct ext.
Qed.

Section create.
Context {D : Type} `{BlockDeviceLaws D}.
Context (R : Z → bool) (fs : FAT32Manager) (HF : fs_layout R fs).
Implicit Types (V : Z → list Z) (K : list (Z * bool)) (E : Z → Z) (l : list Z) (s : volume D).

Let HL : fat_layout R (fat fs) := fsl_fat _ _ HF.

(** ** Writing into a directory *)

(** Slot [m] lies in the last cluster of the directory, or within the size in
    the directory's entry: the two cases in which [increase_size] asks for no
    cluster to write it. *)
Definition no_growth (e : ShortDirEntry) l (m : nat) : Prop :=
  32 * Z.of_nat (S m) ≤ ent_size e ∨ clusters_for fs (32 * Z.of_nat (S m)) = Z.of_nat (length l).

Lemma dir_increase_ok V root s v E e l m :
  vol_rep R V [] root s → fat_rep V (fat fs) E → directory R fs V root E v e l → (m < n_slots fs l)%nat → no_growth e l m →
  32 * Z.of_nat (S m) + bytes_per_cluster fs < 2 ^ 32 →
  wp (increase_size fs v (32 * Z.of_nat (S m))) s (λ _ s', vol_rep R V [] root s').
Proof.
  intros Hs HE [Hloc Hst Hd Hv _] Hm Hng Hb. unfold increase_size.
  pose proof (stored_chain R fs _ _ _ Hst (or_intror Hd)) as Hl. destruct (chain_head _ _ _ _ Hl) as [Hc _].
  apply (wp_step _ _ _ _ _ (entry_field_ok R V [] root s v e first_cluster Hs Hloc ltac:(simpl; unfold BLOCK_CACHE_SIZE; lia) ltac:(apply not_elem_of_nil))).
  intros ? s1 [Hs1 ->].
  apply (wp_step _ _ _ _ _ (entry_field_ok R V [] root s1 v e ent_size Hs1 Hloc ltac:(simpl; unfold BLOCK_CACHE_SIZE; lia) ltac:(apply not_elem_of_nil))).
  intros ? s2 [Hs2 ->]. destruct (Z.leb_spec (32 * Z.of_nat (S m)) (ent_size e)) as [Hle|Hgt]; [by apply wp_ret|].
  destruct Hng as [?|Hng]; [lia|]. rewrite Hv. pose proof Hs2 as [Hd2 _].
  destruct (count_clusters_ok R (fat fs) HL V [] _ E _ l Hd2 (usable_nil _) HE Hl) as (d3 & E3 & Hd3).
  assert (cluster_num_needed fs (ent_size e) (32 * Z.of_nat (S m)) true (first_cluster e) (vol_disk s2) = Done (0, d3)) as En.
  { unfold cluster_num_needed. rewrite (proj2 (Z.leb_gt _ _) Hgt), (bind_step _ _ _ _ _ E3).
    rewrite (size_to_clusters_ok R fs HF) by lia. rewrite Hng, wsub_small, Z.sub_diag by (unfold fits; lia). done. }
  apply (wp_step _ _ _ _ _ (on_disk_ok R _ _ _ _ _ _ _ En Hs2 _ _ Hd3)). intros ? s3 [-> Hs3]. by apply wp_ret.
Qed.

(** The other case: the end of the slot is behind the size in the entry of the
    directory, and the directory has more clusters than the slots up to it need.
    The difference in [cluster_num_needed] wraps around, and no volume has that
    many free clusters. *)
Lemma dir_increase_panics V root s v E e l m :
  vol_rep R V [] root s → fat_rep V (fat fs) E → directory R fs V root E v e l → (m < n_slots fs l)%nat → ¬ no_growth e l m →
  32 * Z.of_nat (S m) + bytes_per_cluster fs < 2 ^ 32 → info_word V fs 488 ≤ n_entry (fat fs) →
  increase_size fs v (32 * Z.of_nat (S m)) s = Panic.
Proof.
  intros Hs HE [Hloc Hst Hd Hv _] Hm Hng Hb Hfree. unfold increase_size.
  pose proof (stored_chain R fs _ _ _ Hst (or_intror Hd)) as Hl. pose proof (chain_length _ _ _ _ Hl) as Hlen. unfold fat_fuel in Hlen.
  pose proof (fl_small _ _ HL) as Hsmall. pose proof (fsl_bpc _ _ HF) as Hbpc. pose proof (fsl_spc _ _ HF).
  apply (wp_panics _ _ _ _ (entry_field_ok R V [] root s v e first_cluster Hs Hloc ltac:(simpl; unfold BLOCK_CACHE_SIZE; lia) ltac:(apply not_elem_of_nil))).
  intros ? s1 [Hs1 ->].
  apply (wp_panics _ _ _ _ (entry_field_ok R V [] root s1 v e ent_size Hs1 Hloc ltac:(simpl; unfold BLOCK_CACHE_SIZE; lia) ltac:(apply not_elem_of_nil))).
  intros ? s2 [Hs2 ->]. unfold no_growth in Hng. rewrite (proj2 (Z.leb_gt _ _)) by lia. rewrite Hv. pose proof Hs2 as [Hd2 _].
  destruct (count_clusters_ok R (fat fs) HL V [] _ E _ l Hd2 (usable_nil _) HE Hl) as (d3 & E3 & Hd3).
  assert (clusters_for fs (32 * Z.of_nat (S m)) ≤ Z.of_nat (length l)) as Hle.
  { unfold clusters_for. rewrite Hbpc. apply Z.lt_succ_r, Z.div_lt_upper_bound; [lia|].
    pose proof (capacity_slots fs l) as Hcap. unfold capacity in Hcap. rewrite (length_sectors fs), Nat2Z.inj_mul in Hcap. lia. }
  assert (0 ≤ clusters_for fs (32 * Z.of_nat (S m))) by (unfold clusters_for; apply Z.div_pos; lia).
  set (needed := clusters_for fs (32 * Z.of_nat (S m)) ⊟₃₂ Z.of_nat (length l)).
  assert (needed = 2 ^ 32 + clusters_for fs (32 * Z.of_nat (S m)) - Z.of_nat (length l)) as Hneeded.
  { unfold needed, wsub, wrap. rewrite <- (Z_mod_plus_full _ 1). rewrite Z.mod_small; lia. }
  assert (cluster_num_needed fs (ent_size e) (32 * Z.of_nat (S m)) true (first_cluster e) (vol_disk s2) = Done (needed, d3)) as En.
  { unfold cluster_num_needed. rewrite (proj2 (Z.leb_gt _ _)) by lia. rewrite (bind_step _ _ _ _ _ E3).
    rewrite (size_to_clusters_ok R fs HF) by lia. done. }
  apply (wp_panics _ _ _ _ (on_disk_ok R _ _ _ _ _ _ _ En Hs2 _ _ Hd3)). intros ? s3 [-> Hs3]. pose proof Hs3 as [Hd3' _].
  rewrite (proj2 (Z.eqb_neq _ _)) by lia.
  destruct (alloc_refused R fs HF V _ needed Hd3' ltac:(lia)) as (d4 & E4 & Hd4).
  apply (wp_panics _ _ _ _ (on_disk_ok R _ _ _ _ _ _ _ E4 Hs3 _ _ Hd4)). by intros ? s4 [-> _].
Qed.

(** The slots after [bytes] has been stored in slot [m]. *)
Lemma dir_slot_write V V' K (d : disk D) l m k bytes :
  disk_rep R V K d → (m < n_slots fs l)%nat → length bytes = 32%nat →
  content V' fs l = splice (32 * m) bytes (content V fs l) → (k < n_slots fs l)%nat →
  dir_slot fs V' l k = if decide (k = m) then bytes else dir_slot fs V l k.
Proof.
  intros Hd Hm Hb Hc Hk. pose proof (length_content R fs V K d l Hd) as Hlen. rewrite capacity_slots in Hlen.
  unfold dir_slot. rewrite Hc. case_decide as Hkm.
  - subst k. pose proof (slice_splice_eq (32 * m) bytes (content V fs l) ltac:(lia)) as Hsp. by rewrite Hb in Hsp.
  - apply slice_splice_ne; lia.
Qed.

Lemma dir_write_ok V root s v E e l m bytes :
  vol_rep R V [] root s → fat_rep V (fat fs) E → directory R fs V root E v e l → (m < n_slots fs l)%nat → no_growth e l m →
  capacity fs l + bytes_per_cluster fs < 2 ^ 32 → length bytes = 32%nat → Forall is_byte bytes →
  wp (write_dirent fs v (32 * Z.of_nat m) bytes) s (λ _ s', ∃ V', vol_rep R V' [] root s' ∧ fat_rep V' (fat fs) E ∧
    directory R fs V' root E v e l ∧ (∀ b, b ∉ sectors fs l → V' b = V b) ∧
    ∀ k, (k < n_slots fs l)%nat → dir_slot fs V' l k = if decide (k = m) then bytes else dir_slot fs V l k).
Proof.
  intros Hs HE Hdir Hm Hng Hcap Hb Hby. pose proof Hdir as [Hloc Hst Hd Hv Hap]. pose proof (fsl_bpc _ _ HF). pose proof (fsl_spc _ _ HF).
  rewrite capacity_slots in Hcap. unfold write_dirent, VFile_write_at. rewrite Hb.
  replace (wrap 32 (32 * Z.of_nat m ⊞ Z.of_nat 32)) with (32 * Z.of_nat (S m)).
  2:{ rewrite wadd_small by (unfold fits; lia). rewrite wrap_small by (unfold fits; lia). lia. }
  apply (wp_step _ _ _ (λ n s', ∃ V', vol_rep R V' [] root s' ∧ (n = 32 ∧
    content V' fs l = splice (32 * m) bytes (content V fs l) ∧ (∀ b, b ∉ sectors fs l → V' b = V b) ∧ fat_rep V' (fat fs) E))).
  - apply (wp_step _ _ _ _ _ (dir_increase_ok V root s v E e l m Hs HE Hdir Hm Hng ltac:(lia))). intros _ s1 Hs1.
    apply (with_short_dirent_ok R V [] root s1 v e); [done|done|simpl; unfold BLOCK_CACHE_SIZE; lia|apply not_elem_of_nil|].
    intros s2 Hs2. pose proof Hs2 as [Hd2 _].
    destruct (write_at_ok R fs HF V _ _ E e l (32 * Z.of_nat m) bytes Hd2) as (d3 & V' & E3 & Hd3 & Hc & Ho & HE'); try done.
    + apply hold_usable; [apply usable_nil|simpl; unfold BLOCK_CACHE_SIZE; lia|done].
    + intros ->. done.
    + lia.
    + unfold file_end. rewrite Hd, capacity_slots. lia.
    + apply (wp_conseq _ _ _ _ (on_disk_ok R _ _ _ _ _ _ _ E3 Hs2 _ _ Hd3)). intros ? s3 [-> Hs3].
      exists V'. split; [done|]. split_and!; [lia| |done|done]. rewrite Hc. f_equal. lia.
  - intros n s' (V' & Hs' & -> & Hc & Ho & HE'). apply wp_assert; [done|]. exists V'. split_and!; try done.
    + constructor; try done. destruct Hloc as [Hz|Hz]; [by apply located_root|].
      destruct Hap as [?|Hap]; [done|]. rewrite <- (Ho (short_sector v)) by (intros ?; apply Hap; by right). by apply located_disk.
    + intros k Hk. by apply (dir_slot_write V V' [] (vol_disk s)); [apply Hs|..].
Qed.

(** ** The first empty slot *)

(** Slot [m] is the first empty one (or the end of the directory). *)
Definition first_free V l (m : nat) : Prop :=
  (m ≤ n_slots fs l)%nat ∧ (∀ k, (k < m)%nat → is_empty (Short_of (dir_slot fs V l k)) = false) ∧
  ((m < n_slots fs l)%nat → is_empty (Short_of (dir_slot fs V l m)) = true).

Lemma find_free_dirent_ok V root s v E e l m :
  vol_rep R V [] root s → fat_rep V (fat fs) E → directory R fs V root E v e l → first_free V l m →
  wp (find_free_dirent fs v) s (λ o s', vol_rep R V [] root s' ∧ o = Some (32 * Z.of_nat m)).
Proof.
  intros Hs HE Hdir (Hm & Hbefore & Hat). unfold find_free_dirent. rewrite (dr_vdir _ _ _ _ _ _ _ _ Hdir). cbn [negb].
  apply (wp_step _ _ _ (λ o s', vol_rep R V [] root s' ∧ o = 32 * Z.of_nat m)).
  2:{ intros o s' [Hs' ->]. by apply wp_ret. }
  apply (wp_loop _ (λ n off s, ∃ k, off = 32 * Z.of_nat k ∧ (k ≤ m)%nat ∧ n = (m - k)%nat ∧ vol_rep R V [] root s)) with (n := m).
  - intros n off s1 (k & -> & Hk & -> & Hs1). unfold free_dirent_body.
    apply (wp_step _ _ _ _ _ (dir_read_at_ok R fs HF V root E v e l HE Hdir s1 k Hs1 ltac:(lia))). intros ? s2 [Hs2 ->]. pose proof Hs2 as [Hd2 _].
    destruct (decide (k = n_slots fs l)) as [->|Hkn].
    + rewrite (dir_slot_end R fs V [] _ l Hd2). apply wp_ret. split; [done|]. lia.
    + pose proof (length_dir_slot R fs V [] _ l k Hd2 ltac:(lia)) as Hlen. rewrite Hlen. simpl. rewrite app_nil_r.
      destruct (decide (k = m)) as [->|Hkm].
      * rewrite Hat by lia. by apply wp_ret.
      * rewrite Hbefore by lia. apply wp_ret. exists (m - S k)%nat. split; [lia|]. exists (S k). split_and!; [|lia|lia|done].
        apply (next_slot R fs V root E v e l Hdir). lia.
  - exists 0%nat. split_and!; [done|lia|lia|done].
  - pose proof (dir_fuel_enough R fs HF V root E v e l Hdir). lia.
Qed.

(** ** [create] *)

(** A search over slots that agree up to [m], where the first match is. *)
Lemma first_from_new P V V' l m bytes :
  first_free V l m → (m < n_slots fs l)%nat → first_from fs P V l 0 = None → is_empty (Short_of bytes) = false → P bytes = true →
  (∀ k, (k < n_slots fs l)%nat → dir_slot fs V' l k = if decide (k = m) then bytes else dir_slot fs V l k) →
  first_from fs P V' l 0 = Some (m, bytes).
Proof.
  intros (_ & Hbefore & Hat) Hm Hnone Hne HP HV.
  assert (∀ j k, (k + j = m)%nat → first_from fs P V l k = None → first_from fs P V' l k = Some (m, bytes)) as Hgo; [|by apply (Hgo m 0%nat)].
  induction j as [|j IH]; intros k Hk Hn; rewrite first_from_step, bool_decide_eq_true_2 by lia; rewrite HV by lia.
  - rewrite decide_True by lia. rewrite Hne, HP. by replace k with m by lia.
  - rewrite decide_False by lia. rewrite first_from_step, bool_decide_eq_true_2 in Hn by lia.
    rewrite Hbefore in Hn |- * by lia. destruct (P (dir_slot fs V l k)); [done|]. apply IH; [lia|done].
Qed.

Lemma create_ok V root s v E e l m base ext attr :
  vol_rep R V [] root s → fat_rep V (fat fs) E → directory R fs V root E v e l →
  first_free V l m → (m < n_slots fs l)%nat → no_growth e l m → capacity fs l + bytes_per_cluster fs < 2 ^ 32 →
  short_name base ext → is_byte attr → Z.land attr ATTRIBUTE_DIRECTORY = 0 →
  let nm := base ++ dotted ext in
  first_from fs (short_match nm) V l 0 = None →
  wp (create fs v nm attr) s (λ r s', ∃ V' bytes,
    r = Some (short_vfile fs l nm (m, bytes)) ∧ vol_rep R V' [] root s' ∧ fat_rep V' (fat fs) E ∧
    directory R fs V' root E v e l ∧ (∀ b, b ∉ sectors fs l → V' b = V b) ∧
    (∀ k, (k < n_slots fs l)%nat → dir_slot fs V' l k = if decide (k = m) then bytes else dir_slot fs V l k) ∧
    attribute (Short_of bytes) = attr ∧ ent_size (Short_of bytes) = 0 ∧ first_cluster (Short_of bytes) = 0 ∧
    first_from fs (short_match nm) V' l 0 = Some (m, bytes)).
Proof.
  intros Hs HE Hdir Hfree Hm Hng Hcap Hname Ha Hfile nm Hnone. unfold create.
  destruct (new_entry base ext attr Hname Ha) as (e0 & Hinit & Hwf & Hne & Hmatch & Hattr & Hsize & Hfirst). fold nm in Hinit, Hmatch.
  set (e' := set_case ALL_LOWER_CASE e0) in *.
  apply (wp_step _ _ _ (λ _ s', s' = s)); [apply wp_assert; [apply (dr_vdir _ _ _ _ _ _ _ _ Hdir)|done]|]. intros _ ? ->.
  apply (wp_step _ _ _ _ _ (find_free_dirent_ok V root s v E e l m Hs HE Hdir Hfree)). intros ? s1 [Hs1 ->].
  pose proof (short_name_not_long base ext Hname) as Hlong. fold nm in Hlong. rewrite Hlong. cbv iota.
  apply (wp_step _ _ _ (λ p s', p = (32 * Z.of_nat m, e') ∧ s' = s1)).
  { destruct (short_name_format nm) as [nb eb]. simpl in Hinit. rewrite Hinit. apply wp_bind, wp_ret, wp_ret. done. }
  intros ? ? [-> ->]. cbv iota.
  apply (wp_step _ _ _ _ _ (dir_write_ok V root s1 v E e l m (Short_bytes e') Hs1 HE Hdir Hm Hng Hcap
    ltac:(apply length_Short_bytes; apply Hwf) ltac:(by apply is_byte_Short_bytes))).
  intros _ s2 (V' & Hs2 & HE' & Hdir' & Ho & Hslots).
  assert (first_from fs (short_match nm) V' l 0 = Some (m, Short_bytes e')) as Hfound.
  { apply (first_from_new _ V); try done. by rewrite Short_of_bytes. }
  apply (wp_step _ _ _ _ _ (find_byname_ok R fs HF V' root E v e l HE' Hdir' [] s2 nm Hs2 (usable_nil _)
    ltac:(simpl; unfold BLOCK_CACHE_SIZE; lia) ltac:(apply not_elem_of_nil) Hlong)).
  intros ? s3 [Hs3 ->]. rewrite Hfound. cbn [fmap option_fmap option_map]. rewrite Hfile. cbn [Z.eqb negb].
  apply wp_bind, wp_ret, wp_ret. exists V', (Short_bytes e'). rewrite Short_of_bytes by done. split_and!; done.
Qed.

(** In the other case of [no_growth], [create] does not get past the write. *)
Lemma create_panics V root s v E e l m base ext attr :
  vol_rep R V [] root s → fat_rep V (fat fs) E → directory R fs V root E v e l →
  first_free V l m → (m < n_slots fs l)%nat → ¬ no_growth e l m → capacity fs l + bytes_per_cluster fs < 2 ^ 32 →
  short_name base ext → is_byte attr → info_word V fs 488 ≤ n_entry (fat fs) →
  create fs v (base ++ dotted ext) attr s = Panic.
Proof.
  intros Hs HE Hdir Hfree Hm Hng Hcap Hname Ha Hcount. unfold create. rewrite capacity_slots in Hcap.
  destruct (new_entry base ext attr Hname Ha) as (e0 & Hinit & Hwf & _).
  apply (wp_panics _ _ _ (λ _ s', s' = s)); [apply wp_assert; [apply (dr_vdir _ _ _ _ _ _ _ _ Hdir)|done]|]. intros _ ? ->.
  apply (wp_panics _ _ _ _ (find_free_dirent_ok V root s v E e l m Hs HE Hdir Hfree)). intros ? s1 [Hs1 ->].
  rewrite (short_name_not_long base ext Hname). cbv iota.
  apply (wp_panics _ _ _ (λ p s', p = (32 * Z.of_nat m, set_case ALL_LOWER_CASE e0) ∧ s' = s1)).
  { destruct (short_name_format (base ++ dotted ext)) as [nb eb]. simpl in Hinit. rewrite Hinit. apply wp_bind, wp_ret, wp_ret. done. }
  intros ? ? [-> ->]. cbv iota. pose proof (fsl_bpc _ _ HF). pose proof (fsl_spc _ _ HF).
  apply bind_Panic. unfold write_dirent, VFile_write_at. rewrite length_Short_bytes by apply Hwf.
  replace (wrap 32 (32 * Z.of_nat m ⊞ Z.of_nat 32)) with (32 * Z.of_nat (S m)).
  2:{ rewrite wadd_small by (unfold fits; lia). rewrite wrap_small by (unfold fits; lia). lia. }
  do 2 apply bind_Panic. apply (dir_increase_panics V root s1 v E e l m Hs1 HE Hdir); try done. lia.
Qed.

(** C18. A regular file that is created is found: for an 8.3 name that a
    directory of less than 4 GiB does not have yet and an attribute without the
    directory bit, when the directory has an empty slot in its clusters.
    If the first empty slot lies in the last cluster of the directory, or within
    the size in the directory's own entry, [create] stores a new entry with the
    given attribute, no clusters and size 0 in it, leaves every other slot and
    every block outside the directory as it was, and returns the file, which a
    later search for the name finds. If it lies in an earlier cluster (the
    directory has an unused cluster at its end), [cluster_num_needed] wraps
    around and [create] panics for lack of space, however much of the volume is
    free. *)
Theorem create_then_found V root s v E e l m base ext attr :
  vol_rep R V [] root s → fat_rep V (fat fs) E → directory R fs V root E v e l →
  first_free V l m → (m < n_slots fs l)%nat → capacity fs l + bytes_per_cluster fs < 2 ^ 32 →
  short_name base ext → is_byte attr → Z.land attr ATTRIBUTE_DIRECTORY = 0 →
  let nm := base ++ dotted ext in
  first_from fs (short_match nm) V l 0 = None →
  (no_growth e l m → ∃ f s' s'' V' e',
    create fs v nm attr s = Done (Some f, s') ∧ find_vfile_byname fs v nm s' = Done (Some f, s'') ∧
    vol_rep R V' [] root s'' ∧ fat_rep V' (fat fs) E ∧ directory R fs V' root E v e l ∧
    located R V' root f e' ∧ attribute e' = attr ∧ ent_size e' = 0 ∧ first_cluster e' = 0 ∧
    (∀ b, b ∉ sectors fs l → V' b = V b) ∧
    (∀ k, (k < n_slots fs l)%nat → k ≠ m → dir_slot fs V' l k = dir_slot fs V l k)) ∧
  (¬ no_growth e l m → info_word V fs 488 ≤ n_entry (fat fs) → create fs v nm attr s = Panic).
Proof.
  intros Hs HE Hdir Hfree Hm Hcap Hname Ha Hfile nm Hnone.
  split; [intros Hng|intros Hng Hcount; by apply (create_panics V root s v E e l m)].
  destruct (create_ok V root s v E e l m base ext attr Hs HE Hdir Hfree Hm Hng Hcap Hname Ha Hfile Hnone)
    as (r & s' & E1 & V' & bytes & -> & Hs' & HE' & Hdir' & Ho & Hslots & Hattr & Hsize & Hfirst & Hfound). fold nm in E1, Hfound.
  destruct (find_byname_ok R fs HF V' root E v e l HE' Hdir' [] s' nm Hs' (usable_nil _)
    ltac:(simpl; unfold BLOCK_CACHE_SIZE; lia) ltac:(apply not_elem_of_nil) (short_name_not_long base ext Hname))
    as (x & s'' & E2 & Hs'' & ->). rewrite Hfound in E2.
  eexists _, s', s'', V', (Short_of bytes). split_and!; [exact E1|exact E2|done|done|done| |done|done|done|done|].
  - assert (dir_slot fs V' l m = bytes) as Hsm by (rewrite Hslots by done; by rewrite decide_True).
    rewrite <- Hsm. eapply slot_located; [exact HF|apply Hs'|exact Hdir'|done].
  - intros k Hk Hkm. rewrite Hslots by done. by rewrite decide_False.
Qed.

(** ** [remove] *)

Lemma short_wf_delete e : short_wf e → short_wf (Short_delete e).
Proof.
  intros Hwf. unfold Short_delete. apply short_wf_set_first_cluster.
  destruct Hwf as (Hn & ? & Hb & ? & ? & ? & ?). split_and!; simpl; try done.
  - by rewrite length_insert.
  - by apply Forall_insert.
Qed.

Lemma deleted_entry e : short_wf e → is_empty (Short_delete e) = false ∧ is_valid_entry (Short_delete e) = false.
Proof.
  intros (Hn & _). destruct e as [nm ? ? ? ?]; simpl in Hn. destruct nm as [|x nm]; [done|]. done.
Qed.

(** [remove] for a file without long entries, whose walk over the table gives
    the clusters [lc]. *)
Lemma remove_ok V root s v E e lc :
  vol_rep R V [] root s → fat_rep V (fat fs) E → located R V root v e → short_sector v ≠ 0 →
  ¬ meta_block fs (short_sector v) → long_pos_vec v = [] →
  (∀ V1 d, disk_rep R V1 [] d → fat_rep V1 (fat fs) E →
     wp (get_all_cluster_of (fat fs) (first_cluster e)) d (λ x d', x = lc ∧ disk_rep R V1 [] d')) →
  Forall (λ c, 0 ≤ c < n_entry (fat fs)) lc → info_word V fs 488 + Z.of_nat (length lc) < 2 ^ 32 →
  wp (remove fs v) s (λ n s', n = Z.of_nat (length lc) ∧ ∃ V', vol_rep R V' [] root s' ∧
    fat_rep V' (fat fs) (λ c, if decide (c ∈ lc) then 0 else E c) ∧
    info_word V' fs 488 = info_word V fs 488 + Z.of_nat (length lc) ∧
    V' (short_sector v) = put_entry V v (Short_delete e) (short_sector v) ∧
    (∀ b, ¬ meta_block fs b → b ≠ short_sector v → V' b = V b)).
Proof.
  intros Hs HE Hloc Hne Hmeta Hlong Hwalk Hlc Hfree. unfold remove, delete_long_entries. rewrite Hlong.
  assert (short_sector v ≠ fsinfo fs) as Hinfo by (intros ?; apply Hmeta; by right).
  apply (wp_step _ _ _ _ _ (entry_field_ok R V [] root s v e first_cluster Hs Hloc ltac:(simpl; unfold BLOCK_CACHE_SIZE; lia) ltac:(apply not_elem_of_nil))).
  intros ? s1 [Hs1 ->]. apply wp_bind. eapply wp_run; [reflexivity|].
  apply (wp_step _ _ _ _ _ (modify_entry_ok R V [] root s1 v e Short_delete Hs1 Hloc Hne (usable_nil _) short_wf_delete)).
  intros _ s2 [Hs2 Hloc2]. set (V2 := put_entry V v (Short_delete e)) in *. pose proof Hs2 as [Hd2 _].
  assert (fat_rep V2 (fat fs) E) as HE2 by (apply (put_entry_fat R fs HF); [done|intros ?; apply Hmeta; by left]).
  destruct (Hwalk V2 _ Hd2 HE2) as (x & d3 & E3 & -> & Hd3).
  apply (wp_step _ _ _ _ _ (on_disk_ok R _ _ _ _ _ _ _ E3 Hs2 _ _ Hd3)). intros ? s3 [-> Hs3]. pose proof Hs3 as [Hd3' _].
  assert (∀ o, info_word V2 fs o = info_word V fs o) as Hw.
  { intros o. unfold info_word, V2. by rewrite put_entry_other by done. }
  destruct (dealloc_cluster_ok R fs HF V2 _ E lc Hd3' HE2 Hlc ltac:(rewrite Hw; lia)) as (V4 & d4 & E4 & Hd4 & HE4 & Hc4 & _ & Hfr4).
  apply (wp_step _ _ _ _ _ (on_disk_ok R _ _ _ _ _ _ _ E4 Hs3 _ _ Hd4)). intros _ s4 [_ Hs4]. apply wp_ret.
  split; [done|]. exists V4. split_and!; [done|done|by rewrite Hc4, Hw| |].
  - apply Hfr4; [intros ?; apply Hmeta; by left|done].
  - intros b Hb Hbs. unfold meta_block in Hb. rewrite Hfr4 by tauto. by apply put_entry_other.
Qed.

(** The slots after the entry in slot [k] has been replaced. *)
Lemma slot_put V V' K K' (d d' : disk D) l nm k k' e' :
  disk_rep R V K d → disk_rep R V' K' d' → NoDup l → (k < n_slots fs l)%nat → (k' < n_slots fs l)%nat → short_wf e' →
  let v := short_vfile fs l nm (k, dir_slot fs V l k) in
  V' (short_sector v) = put_entry V v e' (short_sector v) →
  (∀ b, b ∈ sectors fs l → b ≠ short_sector v → V' b = V b) →
  dir_slot fs V' l k' = if decide (k' = k) then Short_bytes e' else dir_slot fs V l k'.
Proof.
  intros Hd Hd' Hnd Hk Hk' Hwf v Hput Hother.
  destruct (dir_slot_block R fs V K d l k Hd Hk) as (b & Hb & Hpos & Eslot).
  destruct (dir_slot_block R fs V K d l k' Hd Hk') as (b' & Hb' & _ & Eslot').
  destruct (dir_slot_block R fs V' K' d' l k' Hd' Hk') as (b1 & Hb1 & _ & Eslot1). simplify_eq.
  pose proof (Nat.div_mod_eq k 16). pose proof (Nat.div_mod_eq k' 16).
  pose proof (Nat.mod_upper_bound k 16 ltac:(lia)). pose proof (Nat.mod_upper_bound k' 16 ltac:(lia)).
  pose proof (length_Short_bytes e' (proj1 Hwf) (proj1 (proj2 Hwf))) as Hsb.
  destruct (disk_rep_wf _ _ _ _ b Hd) as [Hlen _].
  assert (short_sector v = b) as Es by (unfold v, short_vfile; cbn [fst short_sector]; by rewrite Hpos).
  assert (V' b = splice (32 * (k mod 16)) (Short_bytes e') (V b)) as EV.
  { rewrite <- Es, Hput. unfold put_entry. rewrite fn_lookup_insert. f_equal.
    unfold v, short_vfile. cbn [fst snd short_offset]. rewrite Hpos. cbn [snd]. lia. }
  rewrite Eslot1. case_decide as Hkk.
  - subst k'. replace b' with b by congruence. rewrite EV, <- Hsb. apply slice_splice_eq. lia.
  - rewrite Eslot'. destruct (decide (b' = b)) as [->|Hbb].
    + pose proof (NoDup_lookup _ _ _ _ (sectors_NoDup R fs HF l Hnd) Hb Hb') as Hdiv. rewrite EV. apply slice_splice_ne; lia.
    + rewrite Hother; [done|by eapply list_elem_of_lookup_2|by rewrite Es].
Qed.

(** What a search has passed. *)
Lemma first_from_some P V l k b : ∀ n i, (n_slots fs l - i = n)%nat → first_from fs P V l i = Some (k, b) →
  (i ≤ k < n_slots fs l)%nat ∧ b = dir_slot fs V l k ∧ P b = true ∧
  ∀ j, (i ≤ j < k)%nat → is_empty (Short_of (dir_slot fs V l j)) = false ∧ P (dir_slot fs V l j) = false.
Proof.
  induction n as [|n IH]; intros i Hn Hi; rewrite first_from_step in Hi; case_bool_decide as Hlt; try done; [lia|].
  destruct (is_empty (Short_of (dir_slot fs V l i))) eqn:Ee; [done|]. destruct (P (dir_slot fs V l i)) eqn:EP.
  - simplify_eq. split_and!; try done; lia.
  - destruct (IH (S i) ltac:(lia) Hi) as (Hk & -> & HP & Hj). split_and!; try done; try lia.
    intros j Hij. destruct (decide (j = i)) as [->|]; [done|]. apply Hj. lia.
Qed.

Lemma first_from_skip P V l k : ∀ n i, (k - i = n)%nat → (i ≤ k ≤ n_slots fs l)%nat →
  (∀ j, (i ≤ j < k)%nat → is_empty (Short_of (dir_slot fs V l j)) = false ∧ P (dir_slot fs V l j) = false) →
  first_from fs P V l i = first_from fs P V l k.
Proof.
  induction n as [|n IH]; intros i Hn Hi Hj; [by replace i with k by lia|].
  rewrite first_from_step, bool_decide_eq_true_2 by lia. destruct (Hj i ltac:(lia)) as [-> ->].
  apply IH; [lia|lia|]. intros j ?. apply Hj. lia.
Qed.

Lemma first_from_ext P V V' l : ∀ n i, (n_slots fs l - i = n)%nat →
  (∀ j, (i ≤ j < n_slots fs l)%nat → dir_slot fs V' l j = dir_slot fs V l j) → first_from fs P V' l i = first_from fs P V l i.
Proof.
  induction n as [|n IH]; intros i Hn Hj; rewrite !(first_from_step fs P _ l i); case_bool_decide; try done; [lia|].
  rewrite Hj by lia. rewrite (IH (S i)); [done|lia|]. intros j ?. apply Hj. lia.
Qed.

(** Deleting the first match: the search goes on behind it. *)
Lemma first_from_deleted P V V' l k bytes bytes' :
  first_from fs P V l 0 = Some (k, bytes) → is_empty (Short_of bytes') = false → P bytes' = false →
  (∀ j, (j < n_slots fs l)%nat → dir_slot fs V' l j = if decide (j = k) then bytes' else dir_slot fs V l j) →
  first_from fs P V' l 0 = first_from fs P V l (S k).
Proof.
  intros Hff Hne HP HV. destruct (first_from_some P V l k bytes _ 0 eq_refl Hff) as (Hk & _ & _ & Hj).
  rewrite (first_from_skip P V' l (S k) _ 0 eq_refl); [|lia|].
  - apply (first_from_ext P V V' l _ _ eq_refl). intros j ?. rewrite HV by lia. by rewrite decide_False by lia.
  - intros j ?. rewrite HV by lia. case_decide; [done|]. apply Hj. lia.
Qed.

(** The sectors of a chain are outside the tables and the counters. *)
Lemma sector_data E c l b : chain (fat fs) E c l → b ∈ sectors fs l → b ≠ 0 ∧ ¬ meta_block fs b.
Proof.
  intros Hl (x & Hx & Hb)%elem_of_sectors. pose proof (chain_valid _ _ _ _ Hl) as Hv. rewrite Forall_forall in Hv.
  pose proof (in_cluster_pos R fs HF x b Hb (Hv x Hx)). destruct (first_sector_ok R fs HF x (Hv x Hx)) as [_ Hout].
  destruct (Hout b Hb) as (? & ? & ?). split; [lia|]. by intros [?|?].
Qed.

Lemma walk_chain_ok V d E c l :
  disk_rep R V [] d → fat_rep V (fat fs) E → chain (fat fs) E c l →
  wp (get_all_cluster_of (fat fs) c) d (λ x d', x = l ∧ disk_rep R V [] d').
Proof.
  intros Hd HE Hl. pose proof (chain_length _ _ _ _ Hl) as Hlen.
  destruct (get_all_loop R (fat fs) HL V [] E l (usable_nil _) HE c d [] (fat_fuel (fat fs)) Hd Hl ltac:(lia)) as (d' & E1 & Hd').
  by exists l, d'.
Qed.

(** Clusters of a chain that other clusters do not meet stay as they are. *)
Lemma stored_freed E e l l0 :
  stored R fs E e l → (∀ c, c ∈ l → c ∉ l0) → stored R fs (λ c, if decide (c ∈ l0) then 0 else E c) e l.
Proof.
  intros [Hc Hend Hsm Hca] Hdis. constructor; try done. destruct Hc as [Hc|?]; [|by right]. left.
  apply (chain_ext _ E); [done|]. intros x Hx. by rewrite decide_False by by apply Hdis.
Qed.

(** The clusters that [remove] frees: those of the file, or, for a file without
    clusters, whose first cluster is 0, the reserved entry 0 of the table. *)
Definition walked E (e : ShortDirEntry) l : Prop :=
  chain (fat fs) E (first_cluster e) l ∨ (first_cluster e = 0 ∧ END_CLUSTER ≤ next_of (E 0) ∧ l = [0]).

Lemma walked_ok E e l : walked E e l →
  (∀ V d, disk_rep R V [] d → fat_rep V (fat fs) E →
     wp (get_all_cluster_of (fat fs) (first_cluster e)) d (λ x d', x = l ∧ disk_rep R V [] d')) ∧
  Forall (λ c, 0 ≤ c < n_entry (fat fs)) l.
Proof.
  pose proof (fl_small _ _ HL). intros [Hl|(Hfirst & Hend & ->)].
  - split; [intros V d Hd HE; by apply (walk_chain_ok V d E)|]. eapply Forall_impl; [by eapply chain_valid|simpl; lia].
  - split; [|apply Forall_singleton; lia]. intros V d Hd HE. rewrite Hfirst.
    destruct (get_next_cluster_ok R (fat fs) HL V [] d E 0 Hd (usable_nil _) HE ltac:(lia)) as (d1 & En & Hd1).
    exists [0], d1. split_and!; [|done|done]. unfold get_all_cluster_of, fat_fuel. apply loop_exit.
    unfold all_body. rewrite (bind_step _ _ _ _ _ En), (proj2 (Z.leb_le _ _) Hend). done.
Qed.

(** C19. A file that is removed is gone and its clusters are free. [remove] on the
    file that the search for an 8.3 name found in slot [k] of its directory
    marks the entry as deleted, frees exactly the clusters of the file and adds
    their number to the free count (which is to stay below 2^32), changes no
    other slot and no block outside the tables and the directory, and the next
    search for the name gives the entry behind slot [k] that matches, or
    nothing. The file has clusters, none of them one of the directory, or it is
    empty: its first cluster is then 0, and the one cluster that [remove] frees
    and counts is the reserved entry 0 of the table. *)
Theorem remove_then_gone V root s dv E de dl nm k bytes l :
  vol_rep R V [] root s → fat_rep V (fat fs) E → directory R fs V root E dv de dl → short_sector dv ≠ fsinfo fs →
  is_long_name nm = false → first_from fs (short_match nm) V dl 0 = Some (k, bytes) →
  let v := short_vfile fs dl nm (k, bytes) in let e := Short_of bytes in
  walked E e l → (∀ c, c ∈ dl → c ∉ l) → info_word V fs 488 + Z.of_nat (length l) < 2 ^ 32 →
  let E' := λ c, if decide (c ∈ l) then 0 else E c in
  ∃ s' s'' V',
    remove fs v s = Done (Z.of_nat (length l), s') ∧
    find_vfile_byname fs dv nm s' = Done (short_vfile fs dl nm <$> first_from fs (short_match nm) V dl (S k), s'') ∧
    vol_rep R V' [] root s'' ∧ fat_rep V' (fat fs) E' ∧ directory R fs V' root E' dv de dl ∧
    info_word V' fs 488 = info_word V fs 488 + Z.of_nat (length l) ∧
    (∀ j, (j < n_slots fs dl)%nat →
       dir_slot fs V' dl j = if decide (j = k) then Short_bytes (Short_delete e) else dir_slot fs V dl j) ∧
    (∀ b, ¬ meta_block fs b → b ∉ sectors fs dl → V' b = V b).
Proof.
  intros Hs HE Hdir Hinfo Hshort Hff v e Hl Hdis Hfree E'. pose proof Hs as [Hd _].
  destruct (first_from_some _ V dl k bytes _ 0 eq_refl Hff) as ([_ Hk] & Hby & _ & _).
  pose proof (slot_located R fs HF V [] _ root E dv de dl nm k Hd Hdir Hk) as Hloc. rewrite <- Hby in Hloc. fold v e in Hloc.
  destruct (dir_slot_block R fs V [] _ dl k Hd Hk) as (b & Hb & Hpos & _).
  pose proof Hdir as [Hdloc Hst Hisd Hvd Hap]. pose proof (stored_chain R fs _ _ _ Hst (or_intror Hisd)) as Hdl.
  assert (short_sector v = b) as Es by (unfold v, short_vfile; cbn [fst short_sector]; by rewrite Hpos).
  pose proof (list_elem_of_lookup_2 _ _ _ Hb) as Hin. destruct (sector_data _ _ _ _ Hdl Hin) as (Hb0 & Hmeta).
  assert (short_wf e) as Hwf by (apply (located_wf R V [] root v e s Hs Hloc); lia).
  pose proof (short_wf_delete _ Hwf) as Hwf'. destruct (deleted_entry _ Hwf) as [Hne Hnv].
  destruct (remove_ok V root s v E e l Hs HE Hloc ltac:(lia) ltac:(by rewrite Es) eq_refl (proj1 (walked_ok _ _ _ Hl)) (proj2 (walked_ok _ _ _ Hl)) Hfree)
    as (n & s' & E1 & -> & V' & Hs' & HE' & Hcnt & Hput & Hfr).
  assert (∀ j, (j < n_slots fs dl)%nat →
    dir_slot fs V' dl j = if decide (j = k) then Short_bytes (Short_delete e) else dir_slot fs V dl j) as Hslots.
  { intros j Hj. unfold v in Hput, Hfr. rewrite Hby in Hput, Hfr.
    apply (slot_put V V' [] [] _ _ dl nm k j _ Hd (proj1 Hs') (chain_NoDup _ _ _ _ Hdl) Hk Hj Hwf' Hput).
    intros b1 Hb1 Hn1. apply Hfr; [|done]. by destruct (sector_data _ _ _ _ Hdl Hb1). }
  assert (directory R fs V' root E' dv de dl) as Hdir'.
  { constructor; try done; [|by apply stored_freed]. destruct Hap as [Hz|Hap].
    - destruct Hdloc; [by apply located_root|done].
    - apply (located_ext R V); [done|]. apply Hfr; [|intros Heq; apply Hap; right; by rewrite Heq, Es].
      intros [?|?]; [apply Hap; by left|done]. }
  destruct (find_byname_ok R fs HF V' root E' dv de dl HE' Hdir' [] s' nm Hs' (usable_nil _)
    ltac:(simpl; unfold BLOCK_CACHE_SIZE; lia) ltac:(apply not_elem_of_nil) Hshort) as (x & s'' & E2 & Hs'' & ->).
  exists s', s'', V'. split_and!; try done.
  - rewrite E2. do 3 f_equal. apply (first_from_deleted _ V V' dl k bytes (Short_bytes (Short_delete e))); try done.
    + by rewrite Short_of_bytes.
    + unfold short_match. rewrite Short_of_bytes by done. by rewrite Hnv.
  - intros b1 Hb1 Hb2. apply Hfr; [done|]. rewrite Es. intros ->. done.
Qed.

End create.

(** ** Witnesses on the volume of Vfs.v *)

Definition wit_new : list Z := [110; 101; 119].
Definition wit_ext : list Z := [116; 120; 116].

Lemma wit_first_free : first_free wit_fs wit_vblocks [2] 1.
Proof.
  split_and!; [vm_compute; lia| |intros _; vm_compute; reflexivity].
  intros k Hk. replace k with 0%nat by lia. vm_compute. reflexivity.
Qed.

Lemma create_then_found_witness :
  ∃ f s' s'', create wit_fs get_root_vfile (wit_new ++ dotted wit_ext) ATTRIBUTE_ARCHIVE wit_volume = Done (Some f, s') ∧
    find_vfile_byname wit_fs get_root_vfile (wit_new ++ dotted wit_ext) s' = Done (Some f, s'').
Proof.
  destruct (create_then_found wit_vregion wit_fs wit_vlayout wit_vblocks root_dirent wit_volume get_root_vfile wit_ventries
    root_dirent [2] 1 wit_new wit_ext ATTRIBUTE_ARCHIVE) as [Hgo _].
  - split; [apply fresh_disk_rep|reflexivity].
  - apply wit_vfat_rep.
  - apply wit_directory.
  - apply wit_first_free.
  - vm_compute. lia.
  - vm_compute. reflexivity.
  - split_and!; [repeat constructor; discriminate|repeat constructor; discriminate|simpl; lia|simpl; lia|simpl; lia].
  - unfold is_byte, ATTRIBUTE_ARCHIVE. lia.
  - reflexivity.
  - vm_compute. reflexivity.
  - destruct Hgo as (f & s' & s'' & V' & e' & Hc & Hf & _); [right; vm_compute; reflexivity|].
    exists f, s', s''. split; [exact Hc|exact Hf].
Defined.

Lemma remove_then_gone_witness :
  ∃ s' s'', remove wit_fs (mkVFile [97] 4 0 [] ATTRIBUTE_ARCHIVE) wit_volume = Done (2, s') ∧
    find_vfile_byname wit_fs get_root_vfile [97] s' = Done (None, s'').
Proof.
  destruct (remove_then_gone wit_vregion wit_fs wit_vlayout wit_vblocks root_dirent wit_volume get_root_vfile wit_ventries
    root_dirent [2] [97] 0 (Short_bytes wit_a) [3; 5]) as (s' & s'' & V' & Hr & Hf & _).
  - split; [apply fresh_disk_rep|reflexivity].
  - apply wit_vfat_rep.
  - apply wit_directory.
  - vm_compute. discriminate.
  - vm_compute. reflexivity.
  - vm_compute. reflexivity.
  - left. replace (first_cluster (Short_of (Short_bytes wit_a))) with 3 by (vm_compute; reflexivity). apply wit_vchain.
  - intros c Hc. apply list_elem_of_singleton in Hc as ->. vm_compute. intros Hc. repeat (apply elem_of_cons in Hc as [?|Hc]; [discriminate|]).
    by apply elem_of_nil in Hc.
  - vm_compute. reflexivity.
  - exists s', s''. split; [exact Hr|]. rewrite Hf. vm_compute. reflexivity.
Defined.
