(* ===== verification/Inode.v ===== *)
(** * Open files (os/src/fs/inode.rs, stdio.rs; the [File] trait of os/src/fs/mod.rs)

    The state of the whole system: the kernel, the volume, the objects behind
    the descriptors ([OSInode]s and the ring buffers of pipes, which stay in
    their stores when nothing refers to them any more), the console, and what
    each task that is suspended inside a system call is doing. A call that
    suspends ends its turn there ([Blocked]) and is taken up again when the
    scheduler picks the task. Characters typed at the console are a parameter.
    An access outside an object through a raw pointer counts as [Panic]. *)

From S2P Require Import Prelude Address PhysMem FrameAllocator PageTable UserBuffer MemorySet.
From S2P Require Import TaskId FdTable Trap Pipe Process.
From S2P Require Import BlockCache Fat Dirent FatFile Vfs VfsWrite.

(** ** State *)

Record OSInode := mkOSInode {
  os_readable : bool;
  os_writable : bool;
  os_offset : Z;
  os_vfile : VFile;
}.

Definition OSInode_new (readable writable : bool) (inode : VFile) : OSInode :=
  mkOSInode readable writable 0 inode.

(** What a task that gave up the processor inside the kernel goes on with. *)
Inductive pending :=
| InPipeRead (p : Pipe) (arc : nat) (it : UserBufferIterator) (read_size : Z)
| InPipeWrite (p : Pipe) (arc : nat) (it : UserBufferIterator) (write_size : Z)
| InStdin (buf : UserBuffer)
| InWaitpid (pid exit_code_ptr : Z)
| InNanosleep (us t_us : Z)
| InYield
| InTimer.

Record system (A D : Type) := mkSystem {
  sys_kernel : kernel A;
  sys_volume : volume D;
  sys_inodes : gmap nat OSInode;
  sys_rings : gmap nat PipeRingBuffer;
  sys_pending : gmap nat pending;
  sys_keys : nat;
  sys_output : list Z;
  sys_timer : Z;
}.
Arguments mkSystem {A D} _ _ _ _ _ _ _ _.
Arguments sys_kernel {A D} _.
Arguments sys_volume {A D} _.
Arguments sys_inodes {A D} _.
Arguments sys_rings {A D} _.
Arguments sys_pending {A D} _.
Arguments sys_keys {A D} _.
Arguments sys_output {A D} _.
Arguments sys_timer {A D} _.

(** How a trap ends its turn: with the result of a system call, suspended, or
    without a result (the task is gone, or the trap was no system call). *)
Inductive progress := Returned (r : Z) | Blocked (p : pending) | NoResult.

(** ** [OpenFlags] *)

Definition O_RDONLY : Z := 0.
Definition O_WRONLY : Z := 1.
Definition O_RDWR : Z := 2.
Definition O_CREATE : Z := 64.
Definition O_TRUNC : Z := 1024.
Definition O_DIRECTORY : Z := 2097152.
Definition OpenFlags_all : Z :=
  Z.lor O_WRONLY (Z.lor O_RDWR (Z.lor O_CREATE (Z.lor O_TRUNC O_DIRECTORY))).

(** [OpenFlags::from_bits]. *)
Definition OpenFlags_from_bits (bits : Z) : option Z :=
  if Z.land bits (wnot 32 OpenFlags_all) =? 0 then Some bits else None.
(** [flags.contains(f)]. *)
Definition contains (flags f : Z) : bool := Z.land flags f =? f.

Definition read_write (flags : Z) : bool * bool :=
  if flags =? 0 then (true, false)
  else if contains flags O_WRONLY then (false, true)
  else (true, true).

Definition AT_FDCWD : Z := -100.

(** [core::str::from_utf8]: the characters of a sequence of bytes. *)
Definition continuation (b : Z) : bool := (0x80 <=? b) && (b <? 0xC0).
Fixpoint from_utf8 (l : list Z) : option (list Z) :=
  match l with
  | [] => Some []
  | b0 :: l =>
      if b0 <? 0x80 then cons b0 <$> from_utf8 l
      else match l with
      | [] => None
      | b1 :: l =>
          if negb (continuation b1) then None
          else if (0xC2 <=? b0) && (b0 <? 0xE0) then cons ((b0 - 0xC0) * 64 + (b1 - 0x80)) <$> from_utf8 l
          else match l with
          | [] => None
          | b2 :: l =>
              if negb (continuation b2) then None
              else
                let c := (b0 - 0xE0) * 4096 + (b1 - 0x80) * 64 + (b2 - 0x80) in
                if (0xE0 <=? b0) && (b0 <? 0xF0) then
                  if (0x800 <=? c) && negb ((0xD800 <=? c) && (c <? 0xE000)) then cons c <$> from_utf8 l else None
                else match l with
                | [] => None
                | b3 :: l =>
                    let c := (b0 - 0xF0) * 262144 + (b1 - 0x80) * 4096 + (b2 - 0x80) * 64 + (b3 - 0x80) in
                    if continuation b3 && (0xF0 <=? b0) && (0x10000 <=? c) && (c <? 0x110000) then cons c <$> from_utf8 l
                    else None
                end
          end
      end
  end.

(** The bytes of physical memory that a slice refers to. *)
Definition slice_bytes (m : pmem) (sl : slice_ref) : list Z := rd_pa m <$> sref_addrs sl.
Definition slice_base (sl : slice_ref) : Z := sl_ppn sl * 4096 + sl_off sl.

Section ops.
Context {A : Type} `{FrameAllocator A} {D : Type} `{BlockDevice D}.
(** The geometry of the volume, and the value of the [n]-th [console_getchar]. *)
Context (fs : FAT32Manager) (getchar : nat → Z).

Abbreviation S := (ST (system A D)).

Definition on_kernel {X} (m : ST (kernel A) X) : S X :=
  zoom sys_kernel (λ k s, mkSystem k (sys_volume s) (sys_inodes s) (sys_rings s) (sys_pending s)
                            (sys_keys s) (sys_output s) (sys_timer s)) m.
Definition on_volume {X} (m : ST (volume D) X) : S X :=
  zoom sys_volume (λ v s, mkSystem (sys_kernel s) v (sys_inodes s) (sys_rings s) (sys_pending s)
                            (sys_keys s) (sys_output s) (sys_timer s)) m.
Definition on_pmem {X} (m : ST pmem X) : S X := on_kernel (on_mem m).
Definition set_inodes (x : gmap nat OSInode) (s : system A D) : system A D :=
  mkSystem (sys_kernel s) (sys_volume s) x (sys_rings s) (sys_pending s) (sys_keys s) (sys_output s) (sys_timer s).
Definition set_rings (x : gmap nat PipeRingBuffer) (s : system A D) : system A D :=
  mkSystem (sys_kernel s) (sys_volume s) (sys_inodes s) x (sys_pending s) (sys_keys s) (sys_output s) (sys_timer s).
Definition set_pending (x : gmap nat pending) (s : system A D) : system A D :=
  mkSystem (sys_kernel s) (sys_volume s) (sys_inodes s) (sys_rings s) x (sys_keys s) (sys_output s) (sys_timer s).
Definition put_output (x : list Z) (s : system A D) : system A D :=
  mkSystem (sys_kernel s) (sys_volume s) (sys_inodes s) (sys_rings s) (sys_pending s) (sys_keys s)
    (sys_output s ++ x) (sys_timer s).
Definition set_timer (x : Z) (s : system A D) : system A D :=
  mkSystem (sys_kernel s) (sys_volume s) (sys_inodes s) (sys_rings s) (sys_pending s) (sys_keys s) (sys_output s) x.

Definition console_getchar : S Z :=
  s ← st_get;
  st_put (mkSystem (sys_kernel s) (sys_volume s) (sys_inodes s) (sys_rings s) (sys_pending s)
            (Datatypes.S (sys_keys s)) (sys_output s) (sys_timer s));;
  mret (getchar (sys_keys s)).

Definition get_inode (a : nat) : S OSInode := s ← st_get; unwrap (sys_inodes s !! a).
Definition set_offset (a : nat) (offset : Z) : S unit :=
  i ← get_inode a;
  st_modify (λ s, set_inodes (<[a := mkOSInode (os_readable i) (os_writable i) offset (os_vfile i)]> (sys_inodes s)) s).
(** [Arc::new(OSInode::new(readable, writable, inode))]. *)
Definition new_inode (readable writable : bool) (inode : VFile) : S nat :=
  s ← st_get;
  let a := fresh (dom (sys_inodes s)) in
  st_put (set_inodes (<[a := OSInode_new readable writable inode]> (sys_inodes s)) s);;
  mret a.

(** ** [OSInode] *)

(** [read_all]; fuel: the volume has at most as many blocks as its clusters. *)
Definition read_all_body (a : nat) (v : list Z) : S (list Z + list Z) :=
  i ← get_inode a;
  buffer ← on_volume (VFile_read_at fs (os_vfile i) (os_offset i) 512);
  let len := Z.of_nat (length buffer) in
  if len =? 0 then mret (inr v)
  else
    set_offset a (os_offset i ⊞ len);;
    mret (inl (v ++ buffer)).
Definition read_all (a : nat) : S (list Z) :=
  loop (Datatypes.S (Datatypes.S (Z.to_nat (n_entry (fat fs) * bytes_per_cluster fs / 512)))) (read_all_body a) [].

Definition mkdir (a : nat) (name : list Z) (attribute : Z) : S Z :=
  i ← get_inode a;
  on_volume (create fs (os_vfile i) name attribute);;
  mret 0.

(** The loop of [File::read]: one slice. *)
Definition inode_read_slice (a : nat) (total : Z) (sl : slice_ref) : S (Z + Z) :=
  i ← get_inode a;
  bytes ← on_volume (VFile_read_at fs (os_vfile i) (os_offset i) (sl_len sl));
  on_pmem (st_modify (λ m, wr_bytes m (slice_base sl) bytes));;
  let read_size := Z.of_nat (length bytes) in
  if read_size =? 0 then mret (inr total)
  else
    set_offset a (os_offset i ⊞ read_size);;
    mret (inl (total ⊞ read_size)).
Definition OSInode_read (a : nat) (buf : UserBuffer) : S Z :=
  r ← for_brk (buffers buf) 0 (inode_read_slice a);
  mret match r with inl total => total | inr total => total end.

Definition inode_write_slice (a : nat) (total : Z) (sl : slice_ref) : S Z :=
  i ← get_inode a;
  bytes ← on_pmem (st_gets (λ m, slice_bytes m sl));
  write_size ← on_volume (VFile_write_at fs (os_vfile i) (os_offset i) bytes);
  rassert (write_size =? sl_len sl);;
  set_offset a (os_offset i ⊞ write_size);;
  mret (total ⊞ write_size).
Definition OSInode_write (a : nat) (buf : UserBuffer) : S Z :=
  for_fold (buffers buf) 0 (inode_write_slice a).

(** ** Opening *)

Definition search_pwd (name : list Z) : S (option VFile) :=
  on_volume (find_vfile_bypath fs get_root_vfile (split 47 name)).

(** [.map(|inode| Arc::new(OSInode::new(..)))]. *)
Definition map_inode (readable writable : bool) (o : option VFile) : S (option nat) :=
  match o with
  | Some inode => a ← new_inode readable writable inode; mret (Some a)
  | None => mret None
  end.

(** The end of [open_file]: the name in the directory [vfile]. *)
Definition open_in (vfile : VFile) (name : list Z) (flags : Z) : S (option nat) :=
  let '(readable, writable) := read_write flags in
  let path := split 47 name in
  if contains flags O_CREATE then
    o ← on_volume (find_vfile_bypath fs vfile path);
    match o with
    | Some inode => on_volume (clear fs inode);; map_inode readable writable (Some inode)
    | None =>
        o ← on_volume (create fs vfile name ATTRIBUTE_ARCHIVE);
        map_inode readable writable o
    end
  else
    o ← on_volume (find_vfile_bypath fs vfile path);
    match o with
    | Some inode =>
        (if contains flags O_TRUNC then on_volume (clear fs inode) else mret tt);;
        map_inode readable writable (Some inode)
    | None => mret None
    end.

(** [name] without a leading ["./"]. *)
Definition strip_dot (name : list Z) : option (list Z) :=
  match name with
  | 46 :: 47 :: rest => Some rest
  | [46] => None
  | _ => Some name
  end.

(** [fd_table[fd as usize]], with its bounds check. *)
Definition index_fd (t : list (option file)) (fd : Z) : option (option file) :=
  if (0 <=? fd) && (fd <? Z.of_nat (length t)) then t !! Z.to_nat fd else None.

Definition as_osinode (f : file) : option nat := match f with FInode a => Some a | _ => None end.

(** [file.as_osinode().unwrap().inner.exclusive_access().inode.clone()]. *)
Definition file_vfile (f : file) : S VFile :=
  a ← unwrap (as_osinode f);
  i ← get_inode a;
  mret (os_vfile i).

Definition current_inner : S TaskControlBlock := on_kernel (t ← current_task; get_tcb t).

Definition open_file (fd : Z) (name : list Z) (flags : Z) : S (option nat) :=
  let '(readable, writable) := read_write flags in
  inner ← current_inner;
  let path := split 47 name in
  c0 ← unwrap (name !! 0%nat);
  if c0 =? 47 then
    o ← search_pwd name;
    match o with
    | Some vfile => map_inode readable writable (Some vfile)
    | None =>
        o ← on_volume (create fs get_root_vfile name ATTRIBUTE_ARCHIVE);
        map_inode readable writable o
    end
  else if (fd =? AT_FDCWD) || bool_decide (name = [46]) then
    if bool_decide (pwd inner = [47]) && negb (bool_decide (name = [46])) then
      if contains flags O_CREATE then
        o ← on_volume (find_vfile_bypath fs get_root_vfile path);
        match o with
        | Some inode => on_volume (clear fs inode);; map_inode readable writable (Some inode)
        | None =>
            name ← unwrap (strip_dot name);
            o ← on_volume (create fs get_root_vfile name ATTRIBUTE_ARCHIVE);
            map_inode readable writable o
        end
      else
        o ← on_volume (find_vfile_bypath fs get_root_vfile path);
        match o with
        | Some inode =>
            (if contains flags O_TRUNC then on_volume (clear fs inode) else mret tt);;
            map_inode readable writable (Some inode)
        | None => mret None
        end
    else
      o ← search_pwd (pwd inner);
      vfile ← unwrap o;
      open_in vfile name flags
  else
    o ← unwrap (index_fd (fd_table inner) fd);
    match o with
    | Some file =>
        vfile ← file_vfile file;
        open_in vfile name flags
    | None => mret None
    end.

(** [newpwd.join("/")]. *)
Fixpoint join_path (l : list (list Z)) : list Z :=
  match l with
  | [] => []
  | [p] => p
  | p :: l => p ++ 47 :: join_path l
  end.

(** The loop over the components in [chdir]. *)
Definition push_component (newpwd : list (list Z)) (pa : list Z) : list (list Z) :=
  if bool_decide (pa = [46; 46]) then take (length newpwd - 1) newpwd
  else if bool_decide (pa = [46]) then newpwd
  else newpwd ++ [pa].

Definition update_current (f : TaskControlBlock → TaskControlBlock) : S unit :=
  on_kernel (t ← current_task; update_tcb t f).

Definition chdir (name : list Z) : S bool :=
  inner ← current_inner;
  let path := split 47 name in
  from_root ← (if bool_decide (pwd inner = [47]) then mret true
               else c0 ← unwrap (name !! 0%nat); mret (c0 =? 47));
  if from_root : bool then
    if bool_decide (path !! 0%nat = Some [46; 46]) then mret false
    else
      o ← on_volume (find_vfile_bypath fs get_root_vfile path);
      match o with
      | Some _ => update_current (set_pwd name);; mret true
      | None => mret false
      end
  else
    o ← search_pwd name;
    vfile ← unwrap o;
    o ← on_volume (find_vfile_bypath fs vfile path);
    match o with
    | Some _ => update_current (set_pwd (join_path (foldl push_component (split 47 (pwd inner)) path)));; mret true
    | None => mret false
    end.

(** ** The [File] trait *)

Definition readable (f : file) : S bool :=
  match f with
  | FStdin => mret true
  | FStdout => mret false
  | FPipe p _ => mret (pipe_readable p)
  | FInode a => i ← get_inode a; mret (os_readable i)
  end.
Definition writable (f : file) : S bool :=
  match f with
  | FStdin => mret false
  | FStdout => mret true
  | FPipe p _ => mret (pipe_writable p)
  | FInode a => i ← get_inode a; mret (os_writable i)
  end.

(** The end of a turn: the task goes back to the ready queue. *)
Definition block (p : pending) : S progress := on_kernel suspend_current;; mret (Blocked p).

(** [Stdin::read], from the top of its loop on. *)
Definition stdin_turn (buf : UserBuffer) : S progress :=
  c ← console_getchar;
  if c =? 0 then block (InStdin buf)
  else
    sl ← unwrap (buffers buf !! 0%nat);
    rassert (0 <? sl_len sl);;
    on_pmem (st_modify (λ m, wr_pa m (slice_base sl) (wrap 8 c)));;
    mret (Returned 1).
Definition Stdin_read (buf : UserBuffer) : S progress :=
  rassert (UserBuffer_len buf =? 1);;
  stdin_turn buf.

Definition Stdout_write (buf : UserBuffer) : S Z :=
  for_each (buffers buf) (λ sl,
    bytes ← on_pmem (st_gets (λ m, slice_bytes m sl));
    chars ← unwrap (from_utf8 bytes);
    st_modify (put_output chars));;
  mret (UserBuffer_len buf).

(** The files of a task and of a call it is suspended in: what keeps the write
    end of a pipe open. *)
Definition held_file (p : pending) : list file :=
  match p with
  | InPipeRead p a _ _ => [FPipe p a]
  | InPipeWrite p a _ _ => [FPipe p a]
  | InStdin _ => [FStdin]
  | _ => []
  end.
Definition is_write_end (w : nat) (f : file) : bool :=
  match f with FPipe p a => pipe_writable p && (a =? w)%nat | _ => false end.
Definition write_alive (s : system A D) (w : nat) : bool :=
  existsb (λ '(_, tcb), existsb (λ o, match o with Some f => is_write_end w f | None => false end) (fd_table tcb))
    (map_to_list (tcbs (sys_kernel s))) ||
  existsb (λ '(_, p), existsb (is_write_end w) (held_file p)) (map_to_list (sys_pending s)).

(** A turn of a pipe loop on the memory and the ring buffer of the system. *)
Definition pipe_turn (p : Pipe) (it : UserBufferIterator) (n : Z) (m : ST op_state turn) :
    S (turn * UserBufferIterator * Z) :=
  s ← st_get;
  rb ← unwrap (sys_rings s !! pipe_buffer p);
  '(r, o) ← (match m (mkOp (mem (k_mm (sys_kernel s))) it rb n []) with
             | Done (r, o) => mret (r, o)
             | Panic => panic
             | NoFuel => λ _, NoFuel
             end : S (turn * op_state));
  on_pmem (st_put (op_mem o));;
  st_modify (set_rings (<[pipe_buffer p := op_ring o]> (sys_rings s)));;
  mret (r, op_iter o, op_size o).

(** [Pipe::read] and [Pipe::write] up to a return or a suspension: after one
    turn that goes round the buffer is empty, or full. *)
Definition pipe_read_turns (p : Pipe) (arc : nat) (it : UserBufferIterator) (n : Z) : S progress :=
  loop 2 (λ '(it, n),
    s ← st_get;
    '(r, it, n) ← pipe_turn p it n (read_turn (write_alive s));
    match r with
    | Return n => mret (inr (Returned n))
    | Suspend => r ← block (InPipeRead p arc it n); mret (inr r)
    | Again => mret (inl (it, n))
    end) (it, n).
Definition pipe_write_turns (p : Pipe) (arc : nat) (it : UserBufferIterator) (n : Z) : S progress :=
  loop 2 (λ '(it, n),
    '(r, it, n) ← pipe_turn p it n write_turn;
    match r with
    | Return n => mret (inr (Returned n))
    | Suspend => r ← block (InPipeWrite p arc it n); mret (inr r)
    | Again => mret (inl (it, n))
    end) (it, n).

Definition file_read (f : file) (buf : UserBuffer) : S progress :=
  match f with
  | FStdin => Stdin_read buf
  | FStdout => panic
  | FPipe p a => it ← unwrap (read_start p buf); pipe_read_turns p a it 0
  | FInode a => n ← OSInode_read a buf; mret (Returned n)
  end.
Definition file_write (f : file) (buf : UserBuffer) : S progress :=
  match f with
  | FStdin => panic
  | FStdout => n ← Stdout_write buf; mret (Returned n)
  | FPipe p a => it ← unwrap (write_start p buf); pipe_write_turns p a it 0
  | FInode a => n ← OSInode_write a buf; mret (Returned n)
  end.

End ops.
