(* ===== verification/Syscall.v ===== *)
(** * System calls and traps (os/src/syscall/mod.rs, fs.rs, process.rs;
    os/src/trap/mod.rs [trap_handler]; os/src/timer.rs)

    The dispatcher [syscall], the calls on files and memory that it reaches,
    and the trap handler around it, on the state of Inode.v. A trap of the
    running task and the next turn of the idle loop are the steps of the
    machine ([sys_step]). Fuel: a user string is read up to [str_fuel] bytes,
    a buffer page by page. *)

From S2P Require Import Prelude Address PhysMem FrameAllocator PageTable UserBuffer MemorySet.
From S2P Require Import TaskId FdTable Trap Pipe Process UserMap.
From S2P Require Import BlockCache Fat Dirent FatFile Vfs VfsWrite Inode.
From Stdlib Require String Ascii.
Import String.StringSyntax.

(** ** os/src/timer.rs *)

Definition CLOCK_FREQ : Z := 12500000.
Definition TICKS_PER_SEC : Z := 100.
Definition MSEC_PER_SEC : Z := 1000.
Definition MICRO_PER_SEC : Z := 1000000.

Definition get_time_ms (time : Z) : Z := (time ⊠ MSEC_PER_SEC) / CLOCK_FREQ.
Definition get_time_us (time : Z) : Z := (time ⊠ MICRO_PER_SEC) / CLOCK_FREQ.

(** The bytes of a string constant. *)
Definition str (s : String.string) : list Z := (λ c, Z.of_N (Ascii.N_of_ascii c)) <$> String.list_ascii_of_string s.
Arguments str s%_string_scope.

Section ops.
Context {A : Type} `{FrameAllocator A} {D : Type} `{BlockDevice D}.
Context (pf : platform) (fs : FAT32Manager) (getchar : nat → Z) (str_fuel : nat).
(** The address of the copy of the working directory in the kernel heap. *)
Context (pwd_ptr : Z).

Abbreviation S := (ST (system A D)).

Definition user_token : S Z := on_kernel current_user_token.
Definition user_str (tok ptr : Z) : S (list Z) := on_pmem (translated_str str_fuel tok ptr).
Definition user_buffer (tok ptr len : Z) : S (list slice_ref) :=
  on_pmem (translated_byte_buffer (Z.to_nat (len / 4096 + 3)) tok ptr len).
(** A store through [translated_refmut]. *)
Definition store_user (tok ptr : Z) (bytes : list Z) : S unit :=
  pa ← on_pmem (translated_refmut tok ptr);
  on_pmem (st_modify (λ m, wr_bytes m pa bytes)).
Definition load_u64 (m : pmem) (pa : Z) : Z := le_val (rd_pa m <$> zrange pa (pa + 8)).

(** Work on the descriptor table of the current task. *)
Definition on_fds {X} (m : ST (list (option file)) X) : S X :=
  inner ← current_inner;
  match m (fd_table inner) with
  | Done (x, t) => update_current (set_fd_table t);; mret x
  | Panic => panic
  | NoFuel => λ _, NoFuel
  end.

(** ** Copying out

    The loop that [sys_getcwd], [sys_fstat], [sys_uname] and [sys_getdents64]
    share: it goes over the slices of the buffer until [total] bytes are out. *)

Definition copy_body (src : list Z) (total slice_len base : Z) (acc : Z * Z) : S (Z * Z + Z) :=
  let '(offset, bytes_written) := acc in
  if (offset <? slice_len) && (bytes_written <? total) then
    let to_write := Z.min (total ⊟ bytes_written) (slice_len ⊟ offset) in
    rassert (bytes_written + to_write <=? Z.of_nat (length src));;
    on_pmem (st_modify (λ m, wr_bytes m (base + offset) (slice (Z.to_nat bytes_written) (Z.to_nat to_write) src)));;
    mret (inl (offset ⊞ slice_len, bytes_written ⊞ slice_len))
  else mret (inr bytes_written).

Definition copy_slice (src : list Z) (total bytes_written : Z) (sl : slice_ref) : S (Z + Z) :=
  bytes_written ← loop 2 (copy_body src total (sl_len sl) (slice_base sl)) (0, bytes_written);
  mret (if total <=? bytes_written then inr bytes_written else inl bytes_written).

Definition copy_out (src : list Z) (total : Z) (ti : list slice_ref) : S unit :=
  for_brk ti 0 (copy_slice src total);; mret tt.

(** ** syscall/fs.rs *)

Definition sys_write (fd buf len : Z) : S progress :=
  token ← user_token;
  inner ← current_inner;
  if Z.of_nat (length (fd_table inner)) <=? fd then mret (Returned (-1))
  else
    o ← unwrap (index_fd (fd_table inner) fd);
    match o with
    | Some file =>
        w ← writable file;
        if negb w then mret (Returned (-1))
        else
          bufs ← user_buffer token buf len;
          file_write fs file (mkUserBuffer bufs)
    | None => mret (Returned (-1))
    end.

Definition sys_read (fd buf len : Z) : S progress :=
  token ← user_token;
  inner ← current_inner;
  if Z.of_nat (length (fd_table inner)) <=? fd then mret (Returned (-1))
  else
    o ← unwrap (index_fd (fd_table inner) fd);
    match o with
    | Some file =>
        r ← readable file;
        if negb r then mret (Returned (-1))
        else
          bufs ← user_buffer token buf len;
          file_read fs getchar file (mkUserBuffer bufs)
    | None => mret (Returned (-1))
    end.

Definition sys_openat (fd path flags : Z) : S Z :=
  token ← user_token;
  path ← user_str token path;
  flags ← unwrap (OpenFlags_from_bits flags);
  o ← open_file fs fd path flags;
  match o with
  | Some inode => on_fds (install_fd (FInode inode))
  | None => mret (-1)
  end.

Definition sys_getcwd (buf size : Z) : S Z :=
  inner ← current_inner;
  let bytes := as_bytes (pwd inner) in
  let total := Z.of_nat (length bytes) in
  if size <? total then mret (-1)
  else
    token ← user_token;
    ti ← user_buffer token buf size;
    copy_out bytes total ti;;
    mret (to_signed 64 pwd_ptr).

Definition sys_mkdirat (fd path attri : Z) : S Z :=
  token ← user_token;
  path ← user_str token path;
  inner ← current_inner;
  if fd =? AT_FDCWD then
    o ← search_pwd fs (pwd inner);
    match o with
    | Some file => on_volume (create fs file path attri);; mret 0
    | None => mret (-1)
    end
  else
    o ← unwrap (index_fd (fd_table inner) fd);
    match o with
    | Some file => a ← unwrap (as_osinode file); mkdir fs a path attri
    | None => mret (-1)
    end.

Definition sys_chdir (path : Z) : S Z :=
  token ← user_token;
  path ← user_str token path;
  b ← chdir fs path;
  mret (if b : bool then 0 else -1).

(** [make_pipe]: a new ring buffer and its two ends; the identity of an end is
    the number of its [Arc]. *)
Definition new_pipe : S (file * file) :=
  s ← st_get;
  let b := fresh (dom (sys_rings s)) in
  let '(ring, r, w) := make_pipe b (2 * b + 1) in
  st_put (set_rings (<[b := ring]> (sys_rings s)) s);;
  mret (FPipe r (2 * b), FPipe w (2 * b + 1)).

Definition sys_pipe2 (pipe : Z) : S Z :=
  token ← user_token;
  '(pipe_read, pipe_write) ← new_pipe;
  '(read_fd, write_fd) ← on_fds (install_pipe pipe_read pipe_write);
  store_user token pipe (le_bytes 4 read_fd);;
  store_user token (pipe ⊞ 4) (le_bytes 4 write_fd);;
  mret 0.

Definition sys_fstat (fd lkstat : Z) : S Z :=
  token ← user_token;
  inner ← current_inner;
  match open_fd (fd_table inner) fd with
  | Some file =>
      vfile ← file_vfile file;
      st ← on_volume (stat fs vfile);
      ti ← user_buffer token lkstat 128;
      copy_out (kstat_to_bytes st) 128 ti;;
      mret 0
  | None => mret (-1)
  end.

(** [path[2..]]: the first character is one byte long; [None] is the panic. *)
Definition drop2 (path : list Z) : option (list Z) :=
  match path with
  | _ :: c :: rest => if c <? 128 then Some rest else None
  | _ => None
  end.

Definition sys_unlink (dir path : Z) : S Z :=
  token ← user_token;
  path ← user_str token path;
  c0 ← unwrap (path !! 0%nat);
  if c0 =? 47 then
    o ← search_pwd fs path;
    match o with
    | Some vfile => on_volume (remove fs vfile);; mret 0
    | None => mret (-1)
    end
  else
    path ← (if c0 =? 46 then unwrap (drop2 path) else mret path);
    if dir =? AT_FDCWD then
      o ← search_pwd fs path;
      match o with
      | Some vfile => on_volume (remove fs vfile);; mret 0
      | None => mret (-1)
      end
    else
      inner ← current_inner;
      o ← unwrap (index_fd (fd_table inner) dir);
      match o with
      | Some file =>
          vfile ← file_vfile file;
          o ← on_volume (find_vfile_bypath fs vfile (split 47 path));
          match o with
          | Some vfile1 => on_volume (remove fs vfile1);; mret 0
          | None => mret (-1)
          end
      | None => mret (-1)
      end.

Definition utsname_bytes : list Z :=
  splice (65 * 5) (str "domainname:nudt")
  (splice (65 * 4) (str "machine:riscv64" ++ [10])
  (splice (65 * 3) (str "version:0.1" ++ [10])
  (splice (65 * 2) (str "release:0.1" ++ [10])
  (splice 65 (str "nodename:wingrew" ++ [10])
  (splice 0 (10 :: str "sysname:bitos" ++ [10]) (replicate 390 0)))))).

Definition sys_uname (utsname : Z) : S Z :=
  token ← user_token;
  ti ← user_buffer token utsname 390;
  copy_out utsname_bytes 390 ti;;
  mret 0.

Definition sys_getdents64 (fd buf len : Z) : S Z :=
  token ← user_token;
  inner ← current_inner;
  match open_fd (fd_table inner) fd with
  | Some file =>
      vfile ← file_vfile file;
      o ← on_volume (dirent_info vfile);
      info ← unwrap o;
      ti ← user_buffer token buf len;
      copy_out (dirent_to_bytes info) len ti;;
      mret (to_signed 64 len)
  | None => mret (-1)
  end.

Definition sys_mount (source target filesystem data : Z) : S Z :=
  token ← user_token;
  user_str token source;;
  target ← user_str token target;
  filesystem ← user_str token filesystem;
  (if negb (data =? 0) then user_str token data;; mret tt else mret tt);;
  if bool_decide (filesystem = [118; 102; 97; 116]) then
    o ← open_file fs AT_FDCWD target O_RDONLY;
    mret match o with Some _ => 0 | None => -1 end
  else mret (-1).

Definition sys_umount2 (target : Z) : S Z :=
  token ← user_token;
  target ← user_str token target;
  o ← open_file fs AT_FDCWD target O_RDONLY;
  mret match o with Some _ => 0 | None => -1 end.

(** ** syscall/process.rs *)

Definition sys_exit (exit_code : Z) : S progress := on_kernel (exit_current exit_code);; mret NoResult.
Definition sys_yield : S progress := block InYield.

Definition sys_exec (path : Z) : S Z :=
  token ← user_token;
  path ← user_str token path;
  o ← open_file fs AT_FDCWD path O_RDONLY;
  match o with
  | Some app_inode => all_data ← read_all fs app_inode; on_kernel (sys_exec_data pf all_data)
  | None => mret (-1)
  end.
Definition sys_spawn (path : Z) : S Z :=
  token ← user_token;
  path ← user_str token path;
  o ← open_file fs AT_FDCWD path O_RDONLY;
  match o with
  | Some app_inode => all_data ← read_all fs app_inode; on_kernel (sys_spawn_data pf all_data)
  | None => mret (-1)
  end.

(** One turn of the loop of [sys_waitpid]. *)
Definition sys_waitpid (pid exit_code_ptr : Z) : S progress :=
  n ← on_kernel (waitpid pid exit_code_ptr);
  if n =? -2 then block (InWaitpid pid exit_code_ptr) else mret (Returned n).

Definition sys_get_time (ts : Z) : S Z :=
  now ← on_kernel get_time;
  let us := get_time_us now in
  token ← user_token;
  bufs ← user_buffer token ts 16;
  sl ← unwrap (bufs !! 0%nat);
  on_pmem (st_modify (λ m, wr_bytes m (slice_base sl) (le_bytes 8 (us / 1000000) ++ le_bytes 8 (us mod 1000000))));;
  mret 0.

(** [sys_mmap]: the pages (UserMap.v), then the content of the file. *)
Definition mmap_slice (v : VFile) (read : Z) (sl : slice_ref) : S Z :=
  bytes ← on_volume (VFile_read_at fs v read (sl_len sl));
  on_pmem (st_modify (λ m, wr_bytes m (slice_base sl) bytes));;
  mret (read ⊞ Z.of_nat (length bytes)).
Definition sys_mmap (start len port fd : Z) : S Z :=
  r ← on_kernel (mmap_pages start len port);
  match r with
  | inr e => mret e
  | inl (token, start_va) =>
      inner ← current_inner;
      o ← unwrap (index_fd (fd_table inner) fd);
      match o with
      | Some file =>
          vfile ← file_vfile file;
          n ← on_volume (get_size vfile);
          ts ← user_buffer token (start_va ⊠ PAGE_SIZE) n;
          for_fold ts 0 (mmap_slice vfile);;
          mret (to_signed 64 (start_va ⊠ PAGE_SIZE))
      | None => mret (-1)
      end
  end.

(** The loop of [sys_nanosleep]. *)
Definition nanosleep_turn (us t_us : Z) : S progress :=
  now ← on_kernel get_time;
  if get_time_us now ⊟ us <? t_us then block (InNanosleep us t_us) else mret (Returned 0).
Definition sys_nanosleep (ti : Z) : S progress :=
  now ← on_kernel get_time;
  let us := get_time_us now in
  token ← user_token;
  pa ← on_pmem (translated_ref token ti);
  m ← on_pmem st_get;
  nanosleep_turn us ((load_u64 m pa ⊠ 1000000) ⊞ load_u64 m (pa + 8)).

Definition sys_times (time ms : Z) : S Z :=
  token ← user_token;
  inner ← current_inner;
  let utime := ti_all (task_info inner) ⊟ ti_stime (task_info inner) in
  ms1 ← on_kernel get_time;
  cs ← on_kernel (get_tcbs (children inner));
  let zombies := filter (λ '(_, c), is_zombie c = true) cs in
  let cutime := foldl (λ acc '(_, c), acc ⊞ ti_cutime (task_info c)) 0 zombies in
  let cstime := foldl (λ acc '(_, c), acc ⊞ ti_cstime (task_info c)) 0 zombies in
  store_user token time (le_bytes 8 ((utime ⊞ ms1) ⊟ ti_start (task_info inner)));;
  store_user token (time ⊞ 8) (le_bytes 8 ((ti_stime (task_info inner) ⊞ ms1) ⊟ ms));;
  store_user token (time ⊞ 16) (le_bytes 8 cutime);;
  store_user token (time ⊞ 24) (le_bytes 8 cstime);;
  mret (to_signed 64 (ti_all (task_info inner))).

(** ** The dispatcher *)

Definition SYSCALL_GETCWD : Z := 17.
Definition SYSCALL_DUP : Z := 23.
Definition SYSCALL_DUP3 : Z := 24.
Definition SYSCALL_MKDIRT : Z := 34.
Definition SYSCALL_UNLINKAT : Z := 35.
Definition SYSCALL_UMOUNNT2 : Z := 39.
Definition SYSCALL_MOUNT : Z := 40.
Definition SYSCALL_CHDIR : Z := 49.
Definition SYSCALL_OPEN : Z := 56.
Definition SYSCALL_CLOSE : Z := 57.
Definition SYSCALL_PIPE2 : Z := 59.
Definition SYSCALL_GETDENTS64 : Z := 61.
Definition SYSCALL_READ : Z := 63.
Definition SYSCALL_WRITE : Z := 64.
Definition SYSCALL_FSTAT : Z := 80.
Definition SYSCALL_EXIT : Z := 93.
Definition SYSCALL_NANOSLEEP : Z := 101.
Definition SYSCALL_YIELD : Z := 124.
Definition SYSCALL_SET_PRIORITY : Z := 140.
Definition SYSCALL_TIMES : Z := 153.
Definition SYSCALL_UNAME : Z := 160.
Definition SYSCALL_GET_TIME : Z := 169.
Definition SYSCALL_GETPID : Z := 172.
Definition SYSCALL_GETPPID : Z := 173.
Definition SYSCALL_SHUTDOWN : Z := 210.
Definition SYSCALL_BRK : Z := 214.
Definition SYSCALL_MUNMAP : Z := 215.
Definition SYSCALL_FORK : Z := 220.
Definition SYSCALL_EXEC : Z := 221.
Definition SYSCALL_MMAP : Z := 222.
Definition SYSCALL_WAITPID : Z := 260.
Definition SYSCALL_SPAWN : Z := 400.

(** A call that returns in its first turn. *)
Definition at_once (m : S Z) : S progress := r ← m; mret (Returned r).

(** The [match] of [syscall]; [ms] is the time at its start. [sys_shutdown]
    does not come back. *)
Definition dispatch (id : Z) (args : list Z) (ms : Z) : S progress :=
  let a i := nth i args 0 in
  if id =? SYSCALL_OPEN then at_once (sys_openat (to_signed 64 (a 0%nat)) (a 1%nat) (wrap 32 (a 2%nat)))
  else if id =? SYSCALL_CLOSE then at_once (on_fds (sys_close (a 0%nat)))
  else if id =? SYSCALL_DUP then at_once (on_fds (sys_dup (a 0%nat)))
  else if id =? SYSCALL_DUP3 then at_once (on_fds (sys_dup3 (a 0%nat) (a 1%nat)))
  else if id =? SYSCALL_READ then sys_read (a 0%nat) (a 1%nat) (a 2%nat)
  else if id =? SYSCALL_WRITE then sys_write (a 0%nat) (a 1%nat) (a 2%nat)
  else if id =? SYSCALL_EXIT then sys_exit (to_signed 32 (a 0%nat))
  else if id =? SYSCALL_YIELD then sys_yield
  else if id =? SYSCALL_GETPID then at_once (on_kernel sys_getpid)
  else if id =? SYSCALL_FORK then at_once (on_kernel (sys_fork pf (a 0%nat) (a 1%nat) (a 2%nat) (a 3%nat) (a 4%nat)))
  else if id =? SYSCALL_EXEC then at_once (sys_exec (a 0%nat))
  else if id =? SYSCALL_WAITPID then sys_waitpid (to_signed 64 (a 0%nat)) (a 1%nat)
  else if id =? SYSCALL_GET_TIME then at_once (sys_get_time (a 0%nat))
  else if id =? SYSCALL_MMAP then at_once (sys_mmap (a 0%nat) (a 1%nat) (a 2%nat) (to_signed 32 (a 4%nat)))
  else if id =? SYSCALL_MUNMAP then at_once (on_kernel (sys_munmap (a 0%nat) (a 1%nat)))
  else if id =? SYSCALL_BRK then at_once (on_kernel (sys_brk (a 0%nat)))
  else if id =? SYSCALL_SPAWN then at_once (sys_spawn (a 0%nat))
  else if id =? SYSCALL_SET_PRIORITY then at_once (on_kernel (sys_set_priority (to_signed 64 (a 0%nat))))
  else if id =? SYSCALL_GETCWD then at_once (sys_getcwd (a 0%nat) (wrap 32 (a 1%nat)))
  else if id =? SYSCALL_MKDIRT then at_once (sys_mkdirat (to_signed 64 (a 0%nat)) (a 1%nat) ATTRIBUTE_DIRECTORY)
  else if id =? SYSCALL_CHDIR then at_once (sys_chdir (a 0%nat))
  else if id =? SYSCALL_PIPE2 then at_once (sys_pipe2 (a 0%nat))
  else if id =? SYSCALL_GETPPID then at_once (on_kernel sys_getppid)
  else if id =? SYSCALL_NANOSLEEP then sys_nanosleep (a 0%nat)
  else if id =? SYSCALL_TIMES then at_once (sys_times (a 0%nat) ms)
  else if id =? SYSCALL_FSTAT then at_once (sys_fstat (a 0%nat) (a 1%nat))
  else if id =? SYSCALL_UNLINKAT then at_once (sys_unlink (to_signed 32 (a 0%nat)) (a 1%nat))
  else if id =? SYSCALL_UNAME then at_once (sys_uname (a 0%nat))
  else if id =? SYSCALL_GETDENTS64 then at_once (sys_getdents64 (a 0%nat) (a 1%nat) (a 2%nat))
  else if id =? SYSCALL_SHUTDOWN then mret NoResult
  else if id =? SYSCALL_MOUNT then at_once (sys_mount (a 0%nat) (a 1%nat) (a 2%nat) (a 4%nat))
  else if id =? SYSCALL_UMOUNNT2 then at_once (sys_umount2 (a 0%nat))
  else panic.

(** The end of [syscall] once the call has its result; [update_time] changes
    nothing (Process.v), so the time at the start does not matter. *)
Definition syscall_done (p : progress) (ms : Z) : S progress :=
  match p with
  | Returned r => ms1 ← on_kernel get_time; on_kernel (update_time (ms1 ⊟ ms));; mret p
  | _ => mret p
  end.

Definition syscall (id : Z) (args : list Z) : S progress :=
  ms ← on_kernel get_time;
  p ← dispatch id args ms;
  syscall_done p ms.

(** ** Traps *)

Inductive cause :=
| UserEnvCall | StoreFault | StorePageFault | InstructionFault | InstructionPageFault
| LoadFault | LoadPageFault | IllegalInstruction | SupervisorTimer | OtherTrap.

Definition current_trap_cx : S Z := inner ← current_inner; mret (trap_cx_ppn inner).
Definition read_reg (ppn i : Z) : S Z := on_pmem (st_gets (λ m, rd m ppn i)).
Definition write_reg (ppn i v : Z) : S unit := on_pmem (st_modify (λ m, wr m ppn i v)).

Definition set_next_trigger : S unit :=
  now ← on_kernel get_time;
  st_modify (set_timer (now ⊞ (CLOCK_FREQ / TICKS_PER_SEC))).

(** What [trap_handler] does with the end of a system call of task [t]: the
    result goes to [a0]; a task that is suspended goes on later. *)
Definition finish_call (t : nat) (p : progress) : S unit :=
  match p with
  | Returned r => cx ← current_trap_cx; write_reg cx (TC_X 10) (wrap 64 r)
  | Blocked q => st_modify (λ s, set_pending (<[t := q]> (sys_pending s)) s)
  | NoResult => mret tt
  end.

Definition trap_handler (scause : cause) : S unit :=
  match scause with
  | UserEnvCall =>
      t ← on_kernel current_task;
      cx ← current_trap_cx;
      sepc ← read_reg cx TC_SEPC;
      write_reg cx TC_SEPC (sepc ⊞ 4);;
      id ← read_reg cx (TC_X 17);
      args ← on_pmem (st_gets (λ m, (λ i, rd m cx (TC_X i)) <$> [10; 11; 12; 13; 14; 15]));
      p ← syscall id args;
      finish_call t p
  | StoreFault | StorePageFault | InstructionFault | InstructionPageFault | LoadFault | LoadPageFault =>
      on_kernel (exit_current (-2))
  | IllegalInstruction => on_kernel (exit_current (-3))
  | SupervisorTimer =>
      t ← on_kernel current_task;
      set_next_trigger;;
      on_kernel suspend_current;;
      st_modify (λ s, set_pending (<[t := InTimer]> (sys_pending s)) s)
  | OtherTrap => panic
  end.

(** Going on with a call after [__switch] back to the task. *)
Definition resume (p : pending) : S progress :=
  match p with
  | InPipeRead p a it n => pipe_read_turns p a it n
  | InPipeWrite p a it n => pipe_write_turns p a it n
  | InStdin buf => stdin_turn getchar buf
  | InWaitpid pid ptr => sys_waitpid pid ptr
  | InNanosleep us t_us => nanosleep_turn us t_us
  | InYield => mret (Returned 0)
  | InTimer => mret NoResult
  end.

(** One turn of the idle loop: the task that is picked goes on. *)
Definition idle_turn : S unit :=
  on_kernel run_tasks_turn;;
  o ← on_kernel (st_gets processor);
  match o with
  | Some t =>
      s ← st_get;
      match sys_pending s !! t with
      | Some q =>
          st_put (set_pending (delete t (sys_pending s)) s);;
          p ← resume q;
          p ← syscall_done p 0;
          finish_call t p
      | None => mret tt
      end
  | None => mret tt
  end.

End ops.
