(* ===== verification/Boot.v ===== *)
(** * Booting (os/src/main.rs, os/src/task/mod.rs, os/src/drivers/block,
    [list_apps] of os/src/fs/mod.rs)

    [rust_main] up to the first switch to user mode: the memory system, the
    check of the kernel's mappings, the timer, the start of the block driver
    and the opening of the volume when the list of programs is printed, and the
    first process with the program that is linked into the kernel. The statics
    have their initial values ([clear_bss]); the logger and the trap registers
    are left out. The kernel image is the memory in which the loader looks; the
    frames are above it. The driver is the crate that os/Cargo.toml names, and
    is a parameter: an operation on the memory that the kernel lends it. *)

From S2P Require Import Prelude Address PhysMem FrameAllocator PageTable MemorySet UserSpace KernelSpace Drivers Elf ElfLoad Loader.
From S2P Require Import TaskId FdTable Trap Asm Process ProcessTree.
From S2P Require Import BlockCache Fat Dirent FatFile Vfs Syscall.
From Stdlib Require String.
Import String.StringSyntax.

(** "ch6b_user_shell" *)
Definition shell_name : list Z := [99; 104; 54; 98; 95; 117; 115; 101; 114; 95; 115; 104; 101; 108; 108].

(** The statics: the kernel's, the frames of the driver, the volume behind
    [ROOT_INODE] once it is opened, the console and the timer. *)
Record boot_state (D : Type) := mkBoot {
  bt_kernel : kernel StackFrameAllocator;
  bt_queue_frames : list Z;
  bt_root : option (FAT32Manager * volume D);
  bt_output : list Z;
  bt_timer : Z;
}.
Arguments mkBoot {D} _ _ _ _ _.
Arguments bt_kernel {D} _.
Arguments bt_queue_frames {D} _.
Arguments bt_root {D} _.
Arguments bt_output {D} _.
Arguments bt_timer {D} _.

(** The statics at power-on. *)
Definition power_on {D} (m : pmem) (now : Z) : boot_state D :=
  mkBoot (mkKernel (mkMM StackFrameAllocator_new m) (mkMemorySet (mkPageTable 0 []) []) RecycleAllocator_new RecycleAllocator_new ∅ [] None now)
    [] None [] 0.

Section boot.
Context {D : Type} `{BlockDevice D}.
Context (pf : platform).
Context (image : pmem) (num_app_sym app_names_sym : Z) (from_utf8 : list Z → bool) (fuel : nat).
(** [VirtIOBlk::<VirtioHal>::new] at the registers of the device. *)
Context (blk_new : ST (hal StackFrameAllocator) (option D)).

Abbreviation B := (ST (boot_state D)).

Definition set_kernel_space (ms : MemorySet) (k : kernel StackFrameAllocator) : kernel StackFrameAllocator :=
  mkKernel (k_mm k) ms (kstack_allocator k) (pid_allocator k) (tcbs k) (ready_queue k) (processor k) (k_time k).

Definition set_bt_kernel (k : kernel StackFrameAllocator) (b : boot_state D) : boot_state D :=
  mkBoot k (bt_queue_frames b) (bt_root b) (bt_output b) (bt_timer b).
Definition at_kernel {X} (m : ST (kernel StackFrameAllocator) X) : B X := zoom bt_kernel set_bt_kernel m.

(** The memory that the driver works on. *)
Definition boot_hal (b : boot_state D) : hal StackFrameAllocator := mkHal (k_mm (bt_kernel b)) (bt_queue_frames b).
Definition set_boot_hal (h : hal StackFrameAllocator) (b : boot_state D) : boot_state D :=
  let k := bt_kernel b in
  mkBoot (mkKernel (hal_mm h) (kernel_space k) (kstack_allocator k) (pid_allocator k) (tcbs k) (ready_queue k) (processor k) (k_time k))
    (queue_frames h) (bt_root b) (bt_output b) (bt_timer b).

Definition println (l : list Z) : B unit :=
  st_modify (λ b, mkBoot (bt_kernel b) (bt_queue_frames b) (bt_root b) (bt_output b ++ l ++ [10]) (bt_timer b)).

Definition boot_next_trigger : B unit :=
  now ← at_kernel get_time;
  st_modify (λ b, mkBoot (bt_kernel b) (bt_queue_frames b) (bt_root b) (bt_output b) (now ⊞ (CLOCK_FREQ / TICKS_PER_SEC))).

(** [VirtIOBlock::new]. *)
Definition VirtIOBlock_new : B D := o ← zoom boot_hal set_boot_hal blk_new; unwrap o.

(** The statics [BLOCK_DEVICE] and [ROOT_INODE], which the first use makes. *)
Definition ROOT_INODE : B FAT32Manager :=
  o ← st_gets bt_root;
  match o with
  | Some (efs, _) => mret efs
  | None =>
      dev ← VirtIOBlock_new;
      match open (fresh_disk dev) with
      | Done (efs, d) =>
          st_modify (λ b, mkBoot (bt_kernel b) (bt_queue_frames b) (Some (efs, mkVolume d root_dirent)) (bt_output b) (bt_timer b));;
          mret efs
      | Panic => panic
      | NoFuel => λ _, NoFuel
      end
  end.

(** Work on the opened volume. *)
Definition at_root {X} (m : ST (volume D) X) : B X :=
  o ← st_gets bt_root;
  '(efs, vol) ← unwrap o;
  match m vol with
  | Done (x, vol) =>
      st_modify (λ b, mkBoot (bt_kernel b) (bt_queue_frames b) (Some (efs, vol)) (bt_output b) (bt_timer b));; mret x
  | Panic => panic
  | NoFuel => λ _, NoFuel
  end.

Definition list_apps : B Z :=
  efs ← ROOT_INODE;
  name ← at_root (ls efs get_root_vfile);
  match name with
  | Some value => for_each value (λ i, println i.1)
  | None => mret tt
  end;;
  mret 0.

Definition rust_main : B unit :=
  println (str "[kernel] Hello, world!");;
  '(kernel_space, _) ← at_kernel (on_mm (mm_init (pf_ld pf)));
  at_kernel (st_modify (set_kernel_space kernel_space));;
  at_kernel (on_mm (remap_test (pf_ld pf) kernel_space));;
  println (str "remap_test passed!");;
  boot_next_trigger;;
  list_apps;;
  match get_app_data_by_name image num_app_sym app_names_sym from_utf8 fuel shell_name with
  | Done (Some data) => at_kernel (add_initproc pf data)
  | Done None | Panic => panic
  | NoFuel => λ _, NoFuel
  end;;
  at_kernel run_tasks_turn.

End boot.

(** ** The first process *)

Section first.
Context {A : Type} `{FrameAllocatorLaws A}.

Abbreviation owned s := (fa_owned (frame_allocator s)).
Abbreviation avail s := (fa_avail (frame_allocator s)).

(** A function on page numbers as a map. *)
Lemma entries_map (E : Z → option Z) n : ∃ G : gmap Z Z, ∀ v, 0 ≤ v < Z.of_nat n → G !! v = E v.
Proof.
  induction n as [|n [G HG]]; [exists ∅; lia|].
  exists (match E (Z.of_nat n) with Some e => <[Z.of_nat n := e]> G | None => delete (Z.of_nat n) G end). intros v Hv.
  destruct (decide (v = Z.of_nat n)) as [->|Hne].
  - destruct (E (Z.of_nat n)); [apply lookup_insert_eq|apply lookup_delete_eq].
  - destruct (E (Z.of_nat n)); [rewrite lookup_insert_ne by done|rewrite lookup_delete_ne by done]; apply HG; lia.
Qed.

Lemma kmapped_represents k P s pt E : kmapped k P s pt E → ∃ G, represents s pt G ∧ (∀ v, fits 27 v → G !! v = E v) ∧ (k ≤ avail s)%nat.
Proof.
  intros (_ & _ & HT & HE & Hav). destruct (entries_map E (Z.to_nat (2 ^ 27))) as [G HG]. exists G.
  assert (∀ v, fits 27 v → G !! v = E v) as HG'. { intros v [? ?]. apply HG. lia. }
  split_and!; [|done|lia]. split; [done|]. intros v Hv. by rewrite HE, HG'.
Qed.

(** The kernel stack number 1. *)
Lemma first_kstack s ms G :
  represents s (page_table ms) G → G !! 0x7fffffa = None → G !! 0x7fffffb = None → (6 ≤ avail s)%nat →
  ∃ ms' s' new D, kstack_alloc (mkKspace s ms RecycleAllocator_new) = Done (1, mkKspace s' ms' (mkRecycle 2 [])) ∧
    mm_inv s' ∧ page_table ms' = with_tables (page_table ms) new ∧ extended s s' (page_table ms) new D ∧
    ∃ G', represents s' (page_table ms') G' ∧ G' !! 0x7ffffff = G !! 0x7ffffff.
Proof.
  intros Hrep H1 H2 Hav. set (a := mkMapArea (mkSimpleRange 0x7fffffa 0x7fffffc) ∅ Framed 6).
  destruct (map_loop_framed (vpns (vpn_range a)) s a (page_table ms) G Hrep) as (D & new & s' & E & HD & Hrep' & Hext).
  - done.
  - by vm_compute.
  - apply vpns_NoDup.
  - change (vpns (vpn_range a)) with [0x7fffffa; 0x7fffffb]. repeat constructor; unfold fits; lia || done.
  - change (length (vpns (vpn_range a))) with 2%nat. lia.
  - exists (mkMemorySet (with_tables (page_table ms) new) (areas ms ++ [set_frames (D ∪ data_frames a) a])), s', new, D.
    split_and!; [|by apply represents_frames in Hrep' as [? _]|done|done|].
    2: { eexists. split; [exact Hrep'|]. rewrite lookup_union_r; [done|]. rewrite lookup_fmap, fmap_None. apply not_elem_of_dom. rewrite HD.
         change (vpns (vpn_range a)) with [0x7fffffa; 0x7fffffb]. set_solver by lia. }
    unfold kstack_alloc, ks_on_alloc. rewrite (bind_step _ _ _ 1 (mkKspace s ms (mkRecycle 2 []))) by reflexivity.
    change (kernel_stack_position 1) with (0xffffffffffffa000, 0xffffffffffffc000).
    cbv beta iota. erewrite bind_step by reflexivity. cbn [ks_space].
    unfold insert_framed_area. change (MapArea_new (VirtAddr_from 0xffffffffffffa000) (VirtAddr_from 0xffffffffffffc000) Framed (Z.lor PERM_R PERM_W)) with (Some a).
    erewrite bind_step; [|unfold ks_on_mm, zoom; cbn [ks_mm]; erewrite bind_step by reflexivity; unfold push, MapArea_map; by rewrite (bind_step _ _ _ _ _ E)].
    done.
Qed.

Lemma same_page s ms G0 i v a j w b f : user_space s ms G0 → page_of ms i v a f → page_of ms j w b f → v = w.
Proof. intros (_ & _ & _ & _ & _ & Hinj & _) Hv Hw. by pose proof (Hinj _ _ _ _ _ _ _ Hv Hw). Qed.

(** The page of the trap context. *)
Lemma trap_page s ms elf G0 :
  user_space s ms G0 → laid s ms (elf_plan elf) → ∃ i b cx, page_of ms i 0x7fffffe b cx ∧ fits 44 cx ∧ MemorySet_translate (mem s) ms 0x7fffffe = Some (PTE_new cx 7).
Proof.
  intros Hus Hlaid. destruct (laid_frame s ms _ _ (mkSeg 0x7fffffe 0x7ffffff 6 []) 0x7fffffe Hus Hlaid) as (i & b & cx & Hpg & Hp & _).
  { unfold elf_plan. apply elem_of_app. right. do 2 apply elem_of_cons, or_intror. by apply list_elem_of_singleton. }
  { cbn [sg_lo sg_hi]. lia. }
  exists i, b, cx. split_and!; [done|by destruct Hus as (_ & _ & _ & _ & _ & _ & Hfr); apply (Hfr _ _ _ _ Hpg)|].
  pose proof (user_space_translate _ _ _ _ _ _ _ Hus Hpg) as Ht. unfold area_entry in Ht. rewrite Hp in Ht. exact Ht.
Qed.

Lemma user_space_entries s ms tp i b cx :
  user_space s ms {[TRAMPOLINE_VPN := PTE_new tp 11]} → page_of ms i 0x7fffffe b cx → area_entry b cx = PTE_new cx 7 →
  ∃ G, represents s (page_table ms) G ∧ G !! 0x7ffffff = Some (PTE_new tp 11) ∧ G !! 0x7fffffe = Some (PTE_new cx 7).
Proof.
  intros (G & Hrep & HG & _) Hpg Ee. exists G. split_and!; [done|apply HG; left; apply lookup_singleton_eq|].
  apply HG. right. by exists i, b, cx.
Qed.

Lemma clearbit_fits v i : fits 64 v → fits 64 (Z.clearbit v i).
Proof.
  intros Hv. unfold Z.clearbit. rewrite <- (wrap_small 64 v Hv) at 1. unfold wrap. rewrite <- Z.land_ones by lia.
  assert (Z.ldiff (Z.land v (Z.ones 64)) (Z.shiftl 1 i) = Z.land (Z.ldiff v (Z.shiftl 1 i)) (Z.ones 64)) as ->.
  { apply Z.bits_inj'. intros j Hj. rewrite !Z.land_spec, !Z.ldiff_spec, Z.land_spec. by destruct (Z.testbit v j), (Z.testbit (Z.ones 64) j), (Z.testbit _ j). }
  rewrite Z.land_ones by lia. by apply Z.mod_pos_bound.
Qed.

Lemma token_fits pt : fits 44 (root_ppn pt) → fits 64 (token pt).
Proof.
  intros [??]. unfold token. change (wshl 64 8 60) with (Z.shiftl 524288 44). rewrite lor_shiftl_add by lia. unfold fits. lia.
Qed.

Lemma first_task_ok pf tp G elf_data elf (k : kernel A) :
  represents (k_mm k) (page_table (kernel_space k)) G → G !! 0x7fffffa = None → G !! 0x7fffffb = None →
  G !! 0x7ffffff = Some (PTE_new tp 11) →
  kstack_allocator k = RecycleAllocator_new → pid_allocator k = RecycleAllocator_new →
  fits 44 (root_ppn (page_table (kernel_space k))) → fits 64 (pf_sstatus pf) → fits 64 (pf_trap_handler pf) → fits 64 (elf_entry elf) →
  PhysPageNum_from_PhysAddr (PhysAddr_from (strampoline (pf_ld pf))) = Some tp → fits 44 tp →
  pf_parse pf elf_data = Some elf → loadable elf →
  (9 + 3 * sum_list_with segment_pages (elf_plan elf) ≤ avail (k_mm k))%nat →
  ∃ tcb k', TaskControlBlock_new pf elf_data k = Done (tcb, k') ∧
    pid tcb = 1 ∧ task_status tcb = Ready ∧ stride tcb = 0 ∧ pri tcb = 16 ∧
    parent tcb = None ∧ children tcb = [] ∧ pid_allocator k' = mkRecycle 2 [] ∧
    tcbs k' = tcbs k ∧ ready_queue k' = ready_queue k ∧ processor k' = processor k ∧
    user_space (k_mm k') (memory_set tcb) {[TRAMPOLINE_VPN := PTE_new tp 11]} ∧ program_loaded (k_mm k') (memory_set tcb) elf ∧
    read_trap_cx (mem (k_mm k')) (trap_cx_ppn tcb) =
      app_init_context (pf_sstatus pf) (elf_entry elf) (base_size tcb) (MemorySet_token (kernel_space k')) (get_top 1) (pf_trap_handler pf) ∧
    (fits 44 (root_ppn (page_table (memory_set tcb))) →
     Riscv.trap_world (k_mm k') (page_table (memory_set tcb)) (page_table (kernel_space k')) tp (trap_cx_ppn tcb)).
Proof.
  intros Hrep H1 H2 H3 Hks Hpid Hroot Hst Hth Hen Htp Htpf Hparse Hload Hav. pose proof (represents_frames _ _ _ Hrep) as (Hmm & _ & Hown).
  rewrite Forall_forall in Hown.
  destruct (from_elf_ok (pf_ld pf) tp (pf_parse pf) (k_mm k) elf_data elf) as (ms & s1 & E1 & Hus1 & Hadd & Hlaid & Hav1); [done..|lia|].
  pose proof (user_space_mm _ _ _ Hus1) as Hmm1. pose proof Hadd as (Ho1 & Hn1 & Hs1).
  destruct (trap_page s1 ms elf _ Hus1 Hlaid) as (i & b & cx & Hcx & Hcxf & Ht).
  destruct (first_kstack s1 (kernel_space k) G) as (ms' & s2 & new & D & E2 & Hmm2 & Hpt2 & Hext & G' & Hrep2 & HG'); [|done|done| |].
  { apply (represents_frame (k_mm k)); [done|done| |].
    - intros x j Hx. apply Hs1. by apply Hown.
    - intros x Hx. apply Ho1. left. by apply Hown. }
  { lia. }
  destruct Hext as (Ho2 & Hn2 & HD2 & _ & _ & _ & _ & Hs2).
  assert (∀ x, frame_of ms x → owned s1 x ∧ x ∉ pt_frames (page_table (kernel_space k))) as Hfr.
  { intros x Hx. split; [apply Ho1; by right|]. intros Hk. by apply (Hn1 x Hx), Hown. }
  set (cx_ctx := app_init_context (pf_sstatus pf) (elf_entry elf) ((image_end 0 (loads (elf_headers elf)) + 4) * 4096)
    (MemorySet_token ms') (get_top 1) (pf_trap_handler pf)).
  set (s3 := mkMM (frame_allocator s2) (write_trap_cx (mem s2) cx cx_ctx)).
  assert (length (tc_x cx_ctx) = 32%nat) as Hlen by done.
  destruct (trap_context_roundtrip (mem s2) cx cx_ctx Hlen) as [Hrd Hother].
  destruct (ascending_bounds elf (loads (elf_headers elf)) 0) as (He0 & He & _); [apply Hload..|lia|lia|].
  assert (mm_inv s3) as Hmm3.
  { split; [apply Hmm2|]. apply mem_wf_wr_words; [apply Hmm2|]. unfold trap_words. apply Forall_app. split.
    - unfold cx_ctx, app_init_context, set_sp. cbn [tc_x]. apply Forall_insert; [apply Forall_replicate; unfold fits; lia|unfold fits; lia].
    - repeat apply Forall_cons_2; [by apply clearbit_fits|exact Hen| |by vm_compute|exact Hth|done].
      change (fits 64 (token (page_table ms'))). rewrite Hpt2. apply token_fits. exact Hroot. }
  assert (∀ x, frame_of ms x → owned s3 x) as Ho3.
  { intros x Hx. apply Ho2. left. by apply Hfr. }
  assert (∀ i v a f, page_of ms i v a f → f ≠ cx → ∀ j, rd (mem s3) f j = rd (mem s1) f j) as Hsame.
  { intros i' v a f Hpg Hne j. cbn [s3 mem]. rewrite Hother by done. apply Hs2. apply Hfr. right. by eauto. }
  assert (user_space s3 ms {[TRAMPOLINE_VPN := PTE_new tp 11]}) as Hus3.
  { apply (user_space_frame s1); [done|done| |done]. intros x j Hx. cbn [s3 mem]. rewrite Hother.
    - apply Hs2. apply Hfr. by left.
    - intros ->. destruct Hus1 as (_ & _ & _ & _ & _ & _ & Hf). destruct (Hf _ _ _ _ Hcx) as (_ & Hnin & _). done. }
  eexists _, _. split.
  - unfold TaskControlBlock_new.
    rewrite (bind_step _ _ _ (ms, (image_end 0 (loads (elf_headers elf)) + 4) * 4096, elf_entry elf)
      (mkKernel s1 (kernel_space k) (kstack_allocator k) (pid_allocator k) (tcbs k) (ready_queue k) (processor k) (k_time k))) by (unfold on_mm, zoom; by rewrite E1).
    unfold trap_cx_page at 1. change (VirtPageNum_from_VirtAddr (VirtAddr_from TRAP_CONTEXT_BASE)) with (Some 0x7fffffe).
    rewrite (bind_step _ _ _ cx (mkKernel s1 (kernel_space k) (kstack_allocator k) (pid_allocator k) (tcbs k) (ready_queue k) (processor k) (k_time k))).
    2: { erewrite bind_step by reflexivity. erewrite bind_step by reflexivity. cbn [k_mm]. rewrite Ht. erewrite bind_step by reflexivity.
         rewrite PTE_ppn_new by (done || by vm_compute). done. }
    rewrite (bind_step _ _ _ 1 (mkKernel s1 (kernel_space k) (kstack_allocator k) (mkRecycle 2 []) (tcbs k) (ready_queue k) (processor k) (k_time k)))
      by (unfold pid_alloc, on_pid, zoom; cbn [pid_allocator]; by rewrite Hpid).
    rewrite (bind_step _ _ _ 1 (mkKernel s2 ms' (mkRecycle 2 []) (mkRecycle 2 []) (tcbs k) (ready_queue k) (processor k) (k_time k)))
      by (unfold on_kspace, zoom; cbn [k_mm kernel_space kstack_allocator]; rewrite Hks, E2; done).
    erewrite bind_step by reflexivity.
    rewrite (bind_step _ _ _ tt (mkKernel s3 ms' (mkRecycle 2 []) (mkRecycle 2 []) (tcbs k) (ready_queue k) (processor k) (k_time k))) by reflexivity.
    reflexivity.
  - cbn [pid task_status stride pri parent children pid_allocator tcbs ready_queue processor k_mm memory_set trap_cx_ppn base_size kernel_space].
    split_and!; try (assumption || reflexivity).
    + apply (program_in_place s1 s3 ms elf _ Hus1 Hlaid Hload Hus3).
      intros j v a f Hpg Hv. apply (Hsame j v a f Hpg). intros ->. apply Hv. by eapply same_page.
    + intros Hroot'. assert (owned s1 cx ∧ cx ∉ pt_frames (page_table (kernel_space k))) as [Hcxo Hcxk] by (apply Hfr; right; by eauto).
      assert (cx ∉ pt_frames (page_table ms')) as Hcx'.
      { rewrite Hpt2. cbn [with_tables pt_frames]. rewrite elem_of_app. intros [?|Hin]; [by apply Hcxk|]. rewrite Forall_forall in Hn2. by apply (Hn2 _ Hin). }
      split.
      * apply (user_space_entries s3 ms tp i b cx Hus3 Hcx). pose proof (user_space_translate _ _ _ _ _ _ _ Hus1 Hcx) as Ht'. congruence.
      * exists G'. split; [|congruence]. apply (represents_frame s2); [done|done| |].
        -- intros x j Hx. cbn [s3 mem]. apply Hother. by intros ->.
        -- intros x Hx. apply represents_frames in Hrep2 as (_ & _ & Ho). rewrite Forall_forall in Ho. by apply Ho.
      * split; [|done]. destruct Hus1 as (_ & _ & _ & _ & _ & _ & Hf). by destruct (Hf _ _ _ _ Hcx) as (_ & ? & _).
      * split; [done|]. by rewrite Hpt2.
      * done.
Qed.

(** The return to user mode for a task that has not run yet. *)
Lemma first_return s pt ks tp cx status entry sp ksatp ksp handler alltraps restore (mach : Riscv.machine) :
  Riscv.trap_world s pt ks tp cx → read_trap_cx (mem s) cx = app_init_context status entry sp ksatp ksp handler →
  Riscv.memory mach = mem s → length (Riscv.x mach) = 32%nat → Riscv.satp mach = token ks →
  ∃ m', Riscv.trap_return alltraps restore tp (token pt) mach = Done (tt, m') ∧
    Riscv.user m' = true ∧ Riscv.pc m' = entry ∧ Riscv.satp m' = token pt ∧ Riscv.memory m' = mem s ∧
    Riscv.x m' !! 2%nat = Some sp ∧ (∀ n, (0 < n < 32)%nat → n ≠ 2%nat → n ≠ 4%nat → Riscv.x m' !! n = Some 0).
Proof.
  intros Hw Hcx Hm Hlen Hsat. destruct (Riscv.trap_world_sees _ _ _ _ _ (mem s) Hw) as (Hcu & Hck & Hx); [by intros ???|].
  destruct (Riscv.trap_return_ok cx tp alltraps restore mach (token pt)) as (m' & E & Hm' & _ & Hpc & Hus & _ & Hsat' & _ & _ & Hr & _);
    rewrite ?Hm, ?Hsat; try done.
  rewrite Hm, Hcx in *. exists m'. split; [done|]. cbn [app_init_context set_sp tc_x tc_sepc tc_sstatus] in *.
  split_and!; [by rewrite Hus, Z.clearbit_eq|done..|by rewrite Hr by lia|].
  intros n Hn H2 H4. rewrite Hr by lia. rewrite list_lookup_insert_ne by done. apply lookup_replicate_2. lia.
Qed.

End first.

(** The scheduler's first choice. *)
Lemma first_turn {A} (mm0 : mm A) ks ka pa tcb t :
  stride tcb = 0 → pri tcb = 16 →
  run_tasks_turn (mkKernel mm0 ks ka pa {[INITPROC := tcb]} [INITPROC] None t) =
  Done (tt, mkKernel mm0 ks ka pa
    {[INITPROC := set_stride 159 (set_info (mkTaskInfo t (ti_all (task_info tcb)) (ti_stime (task_info tcb)) (ti_cutime (task_info tcb)) (ti_cstime (task_info tcb)))
        (set_status Running tcb))]} [] (Some INITPROC) t).
Proof. intros Hs Hp. destruct tcb. cbn in Hs, Hp. subst. reflexivity. Qed.

(** [add_initproc] and the first turn, on a kernel with its address space and
    no process. *)
Lemma first_process_ok lo pf G data elf (k : kernel StackFrameAllocator) :
  let L := stack_frame_laws lo in
  KernelSpace.linked (pf_ld pf) → represents (k_mm k) (page_table (kernel_space k)) G →
  (∀ v, fits 27 v → G !! v = kernel_entry (pf_ld pf) v) →
  kstack_allocator k = RecycleAllocator_new → pid_allocator k = RecycleAllocator_new →
  tcbs k = ∅ → ready_queue k = [] → processor k = None →
  fits 44 (root_ppn (page_table (kernel_space k))) → fits 64 (pf_sstatus pf) → fits 64 (pf_trap_handler pf) → fits 64 (elf_entry elf) →
  pf_parse pf data = Some elf → loadable elf →
  (9 + 3 * sum_list_with segment_pages (elf_plan elf) ≤ fa_avail (frame_allocator (k_mm k)))%nat →
  ∃ tcb k0 k', add_initproc pf data k = Done (tt, k0) ∧ booted k0 ∧ run_tasks_turn k0 = Done (tt, k') ∧
    processor k' = Some INITPROC ∧ ready_queue k' = [] ∧ tcbs k' = {[INITPROC := tcb]} ∧
    pid tcb = 1 ∧ task_status tcb = Running ∧
    program_loaded (k_mm k') (memory_set tcb) elf ∧
    read_trap_cx (mem (k_mm k')) (trap_cx_ppn tcb) =
      app_init_context (pf_sstatus pf) (elf_entry elf) (base_size tcb) (MemorySet_token (kernel_space k')) (get_top 1) (pf_trap_handler pf) ∧
    ∀ alltraps restore mach, Riscv.memory mach = mem (k_mm k') → length (Riscv.x mach) = 32%nat → Riscv.satp mach = MemorySet_token (kernel_space k') →
      ∃ m', Riscv.trap_return alltraps restore (strampoline (pf_ld pf) / 4096) (MemorySet_token (memory_set tcb)) mach = Done (tt, m') ∧
        Riscv.user m' = true ∧ Riscv.pc m' = elf_entry elf ∧
        Riscv.satp m' = MemorySet_token (memory_set tcb) ∧ Riscv.memory m' = mem (k_mm k') ∧
        Riscv.x m' !! 2%nat = Some (base_size tcb) ∧
        (∀ n, (0 < n < 32)%nat → n ≠ 2%nat → n ≠ 4%nat → Riscv.x m' !! n = Some 0).
Proof.
  intros L Hld Hrep HG Hka Hpa Ht0 Hq0 Hp0 Hkr Hst Hth Hen Hparse Hload Hav.
  pose proof Hld as [Hal ? ? ? ? ? ?]. unfold MEMORY_END in *. repeat (apply Forall_cons in Hal as [? Hal]).
  assert (PhysPageNum_from_PhysAddr (PhysAddr_from (strampoline (pf_ld pf))) = Some (strampoline (pf_ld pf) / 4096)) as Htp by (by apply trampoline_ppn).
  destruct (first_task_ok pf (strampoline (pf_ld pf) / 4096) G data elf k)
    as (tcb & k2 & E2 & Hpid & Hts & Hstr & Hpri & Hpar & Hch & Hpid2 & Ht & Hq & Hpr & Hus & Hprog & Hcx & Hw); try done.
  { rewrite HG by (unfold fits; lia). unfold kernel_entry, identity, TRAMPOLINE_VPN, MEMORY_END. repeat (rewrite decide_False by zlia). done. }
  { rewrite HG by (unfold fits; lia). unfold kernel_entry, identity, TRAMPOLINE_VPN, MEMORY_END. repeat (rewrite decide_False by zlia). done. }
  { rewrite HG by (unfold fits; lia). unfold kernel_entry, identity, TRAMPOLINE_VPN, MEMORY_END. repeat (rewrite decide_False by zlia). by rewrite decide_True. }
  { unfold fits. zlia. }
  assert (fits 44 (root_ppn (page_table (memory_set tcb)))) as Hroot.
  { destruct Hus as (? & [[T HT] _] & _). by eapply stack_root_fits. }
  eexists _, (mkKernel (k_mm k2) (kernel_space k2) (kstack_allocator k2) (pid_allocator k2) {[INITPROC := tcb]} [INITPROC] None (k_time k2)), _.
  split; [|split; [|split; [by apply first_turn|split_and!; [done..|intros; by eapply first_return; [apply Hw|..]]]]].
  - unfold add_initproc. rewrite (bind_step _ _ _ _ _ E2). unfold add_task.
    erewrite bind_step by reflexivity. unfold st_modify, set_queue, set_tcbs. cbn [tcbs ready_queue processor k_mm kernel_space kstack_allocator pid_allocator k_time].
    by rewrite Ht, Hq, Hpr, Ht0, Hq0, Hp0.
  - exists tcb. cbn [tcbs ready_queue processor pid_allocator]. rewrite Hpid2, Hpid. unfold recycle_inv, id_in_use.
    cbn [ra_current ra_recycled]. split_and!; try done; try lia; try constructor. apply not_elem_of_nil.
Qed.

(** ** The driver and the volume *)

(** What the kernel relies on in the driver: started with frames that nobody
    has taken before, it takes [n] of them and keeps them, returns the device,
    and leaves the other frames in use as they are. *)
Definition driver_starts {D} (lo : Z) (n : nat) (dev : D) (blk_new : ST (hal StackFrameAllocator) (option D)) : Prop :=
  ∀ c e m q, lo ≤ c → c + Z.of_nat n ≤ e → e ≤ 2 ^ 44 → mem_wf m →
    ∃ m', blk_new (mkHal (mkMM (mkStackFA c e []) m) q) =
        Done (Some dev, mkHal (mkMM (mkStackFA (c + Z.of_nat n) e []) m') (q ++ zrange c (c + Z.of_nat n))) ∧
      mem_wf m' ∧ ∀ p i, lo ≤ p < c → rd m' p i = rd m p i.

(** The lines that [list_apps] prints. *)
Definition printed (names : list (list Z * Z)) : list Z := concat ((λ i, i.1 ++ [10]) <$> names).

Section volume.
Context {D : Type} `{BlockDeviceLaws D}.

Lemma println_each (names : list (list Z * Z)) : ∀ b : boot_state D,
  for_each names (λ i, println i.1) b =
  Done (tt, mkBoot (bt_kernel b) (bt_queue_frames b) (bt_root b) (bt_output b ++ printed names) (bt_timer b)).
Proof.
  induction names as [|i names IH]; intros [k q r o t]; cbn.
  - by rewrite app_nil_r.
  - unfold mbind, st_bind. cbn. rewrite IH. cbn. by rewrite <- (assoc_L app).
Qed.

Lemma list_apps_ok lo n (dev : D) blk_new R fs E l (b : boot_state D) :
  let V := λ i, read_block i dev in let s := k_mm (bt_kernel b) in let L := stack_frame_laws lo in
  driver_starts lo n dev blk_new → bt_root b = None →
  fs_layout R fs → formatted R V fs → fat_rep V (fat fs) E → directory R fs V root_dirent E get_root_vfile root_dirent l →
  mm_inv s → recycled (frame_allocator s) = [] → (n ≤ fa_avail (frame_allocator s))%nat →
  ∃ s2 q d vol names,
    list_apps blk_new b =
      Done (0, mkBoot (bt_kernel (set_boot_hal (mkHal s2 q) b)) q (Some (fs, vol)) (bt_output b ++ printed names) (bt_timer b)) ∧
    length q = (length (bt_queue_frames b) + n)%nat ∧
    open (fresh_disk dev) = Done (fs, d) ∧ ls fs get_root_vfile (mkVolume d root_dirent) = Done (Some names, vol) ∧
    vol_rep R V [] root_dirent vol ∧
    mm_inv s2 ∧ fa_avail (frame_allocator s2) = (fa_avail (frame_allocator s) - n)%nat ∧
    (∀ x, fa_owned (frame_allocator s) x → fa_owned (frame_allocator s2) x) ∧ same_pages (fa_owned (frame_allocator s)) s s2.
Proof.
  intros V s L Hdrv Hroot HF Hfmt HE Hdir [Hfa Hm] Hrec Hav.
  destruct b as [k q r o t]. cbn [bt_kernel bt_root bt_queue_frames bt_output bt_timer] in *. subst r.
  unfold s in *. destruct k as [[[c e rc] m] ks ka pa ts rq pr tm]. cbn [k_mm frame_allocator recycled mem] in *. subst rc.
  destruct Hfa as (Hlo & He & _). cbn in Hlo, He, Hav. unfold stack_avail in Hav. cbn in Hav.
  destruct (Hdrv c e m q) as (m' & E1 & Hm' & Hsame); [lia|lia|lia|done|].
  destruct (open_ok R V (fresh_disk dev) fs) as (d & Eo & Hd); [apply fresh_disk_rep|done|].
  destruct (ls_ok R fs HF V root_dirent E get_root_vfile root_dirent l HE Hdir (mkVolume d root_dirent)) as (r & vol & El & Hvol & names & ->); [by split|].
  exists (mkMM (mkStackFA (c + Z.of_nat n) e []) m'), (q ++ zrange c (c + Z.of_nat n)), d, vol, names. split_and!; try done.
  - match goal with |- _ ?b = _ => assert (VirtIOBlock_new blk_new b =
      Done (dev, set_boot_hal (mkHal (mkMM (mkStackFA (c + Z.of_nat n) e []) m') (q ++ zrange c (c + Z.of_nat n))) b)) as Eb end.
    { unfold VirtIOBlock_new, mbind, st_bind, zoom, boot_hal. cbn [bt_kernel k_mm bt_queue_frames]. by rewrite E1. }
    unfold list_apps, ROOT_INODE. erewrite bind_step.
    2: { erewrite bind_step by reflexivity. cbn [bt_root]. rewrite (bind_step _ _ _ _ _ Eb), Eo. reflexivity. }
    erewrite bind_step; [|unfold at_root; erewrite bind_step by reflexivity; erewrite bind_step by reflexivity; cbv beta iota; rewrite El; reflexivity].
    cbv beta iota. rewrite (bind_step _ _ _ _ _ (println_each _ _)). reflexivity.
  - rewrite length_app, length_zrange. lia.
  - split; [|done]. cbn. split_and!; cbn; try lia; constructor.
  - cbn. unfold stack_avail. cbn. lia.
  - intros x [? _]. split; cbn in *; [lia|apply not_elem_of_nil].
  - intros x j [? _]. cbn in *. apply Hsame. lia.
Qed.

End volume.

(** ** Properties *)

(** C3. The kernel boots into the first program. For a kernel laid out by the
    linker script, a program in its image that can be loaded, a driver that
    starts ([driver_starts], the [n] frames it takes included), a device with
    a FAT32 volume (the boot sector, both FSInfo signatures, the tables, a root
    directory) and enough memory, [rust_main] runs without a panic up to the
    first switch. The driver keeps exactly its [n] frames; the volume is the
    one the boot sector describes, opened, listed and not changed, and the
    console shows the two messages and the names that [ls] found; the timer
    is set. Exactly one process exists, with number 1, it is the running one,
    its address space holds every byte of the program, and its trap context
    makes the processor continue at the entry point of the program on the user
    stack, with the kernel's own page table and stack for the next trap; the
    state before the first choice of the scheduler is one from which the
    process machine starts ([booted]). And the processor does continue there:
    from every state of it in the kernel's address space, [trap_return] and
    the instructions of [__restore] end in user mode at the entry point, in the
    address space of the program, with the user stack in [sp] and the other
    registers cleared, [tp] apart. *)
Theorem boot_enters_first_program {D} `{BlockDeviceLaws D} (pf : platform) (image : pmem) (na nm : Z) (from_utf8 : list Z → bool) (fuel : nat)
    (blk_new : ST (hal StackFrameAllocator) (option D)) (n : nat) (dev : D) (R : Z → bool) (fs : FAT32Manager) (E : Z → Z) (l : list Z)
    (m : pmem) (now : Z) (data : list Z) (elf : ElfFile) :
  let V := λ i, read_block i dev in
  KernelSpace.linked (pf_ld pf) → mem_wf m →
  fits 64 (pf_sstatus pf) → fits 64 (pf_trap_handler pf) → fits 64 (elf_entry elf) →
  get_app_data_by_name image na nm from_utf8 fuel shell_name = Done (Some data) →
  pf_parse pf data = Some elf → loadable elf →
  driver_starts (ekernel (pf_ld pf) / 4096) n dev blk_new →
  fs_layout R fs → formatted R V fs → fat_rep V (fat fs) E → directory R fs V root_dirent E get_root_vfile root_dirent l →
  (Z.of_nat (9 + 3 * sum_list_with segment_pages (elf_plan elf) + n) + 69) * 4096 ≤ MEMORY_END - ekernel (pf_ld pf) →
  ∃ tcb b d vol names k0, rust_main pf image na nm from_utf8 fuel blk_new (power_on m now) = Done (tt, b) ∧ let k := bt_kernel b in
    length (bt_queue_frames b) = n ∧
    open (fresh_disk dev) = Done (fs, d) ∧ ls fs get_root_vfile (mkVolume d root_dirent) = Done (Some names, vol) ∧
    bt_root b = Some (fs, vol) ∧ vol_rep R V [] root_dirent vol ∧
    bt_output b = str "[kernel] Hello, world!" ++ [10] ++ str "remap_test passed!" ++ [10] ++ printed names ∧
    bt_timer b = now ⊞ (CLOCK_FREQ / TICKS_PER_SEC) ∧
    booted k0 ∧ run_tasks_turn k0 = Done (tt, k) ∧
    processor k = Some INITPROC ∧ ready_queue k = [] ∧ tcbs k = {[INITPROC := tcb]} ∧
    pid tcb = 1 ∧ task_status tcb = Running ∧
    program_loaded (k_mm k) (memory_set tcb) elf ∧
    read_trap_cx (mem (k_mm k)) (trap_cx_ppn tcb) =
      app_init_context (pf_sstatus pf) (elf_entry elf) (base_size tcb) (MemorySet_token (kernel_space k)) (get_top 1) (pf_trap_handler pf) ∧
    ∀ alltraps restore mach, Riscv.memory mach = mem (k_mm k) → length (Riscv.x mach) = 32%nat → Riscv.satp mach = MemorySet_token (kernel_space k) →
      ∃ m', Riscv.trap_return alltraps restore (strampoline (pf_ld pf) / 4096) (MemorySet_token (memory_set tcb)) mach = Done (tt, m') ∧
        Riscv.user m' = true ∧ Riscv.pc m' = elf_entry elf ∧
        Riscv.satp m' = MemorySet_token (memory_set tcb) ∧ Riscv.memory m' = mem (k_mm k) ∧
        Riscv.x m' !! 2%nat = Some (base_size tcb) ∧
        (∀ n, (0 < n < 32)%nat → n ≠ 2%nat → n ≠ 4%nat → Riscv.x m' !! n = Some 0).
Proof.
  intros V Hld Hm Hst Hth Hen Hdata Hparse Hload Hdrv HF Hfmt HE Hdir Hmem.
  set (o1 := str "[kernel] Hello, world!" ++ [10]). set (o2 := o1 ++ str "remap_test passed!" ++ [10]).
  destruct (mm_init_ok (pf_ld pf) (9 + 3 * sum_list_with segment_pages (elf_plan elf) + n) m) as (ks & s1 & E1 & K); [done|done|lia|done|].
  set (L := stack_frame_laws (ekernel (pf_ld pf) / 4096)) in *.
  set (k1 := mkKernel s1 ks RecycleAllocator_new RecycleAllocator_new ∅ [] None now).
  set (b1 := mkBoot k1 [] None o2 (now ⊞ (CLOCK_FREQ / TICKS_PER_SEC)) : boot_state D).
  destruct (kmapped_represents _ _ _ _ _ K) as (G & Hrep & HG & Hav).
  pose proof (represents_frames _ _ _ Hrep) as (Hmm1 & _ & Hown). rewrite Forall_forall in Hown.
  destruct (list_apps_ok (ekernel (pf_ld pf) / 4096) n dev blk_new R fs E l b1)
    as (s2 & q & d & vol & names & El & Hq & Eo & Els & Hvol & Hmm2 & Hav2 & Ho2 & Hs2); try done.
  { by eapply mm_init_recycled. }
  { change (k_mm (bt_kernel b1)) with s1. etrans; [|exact Hav]. lia. }
  change (k_mm (bt_kernel b1)) with s1 in *.
  assert (represents s2 (page_table ks) G) as Hrep2.
  { apply (represents_frame s1); [done|done|intros x j Hx; apply Hs2; by apply Hown|intros x Hx; by apply Ho2, Hown]. }
  set (k2 := mkKernel s2 ks RecycleAllocator_new RecycleAllocator_new ∅ [] None now).
  change (bt_kernel (set_boot_hal (mkHal s2 q) b1)) with k2 in El.
  destruct (first_process_ok (ekernel (pf_ld pf) / 4096) pf G data elf k2) as (tcb & k0 & k & Ei & Hb & Et & Hrest); try done.
  { destruct K as (_ & _ & [T HT] & _). by eapply stack_root_fits. }
  { change (k_mm k2) with s2. rewrite Hav2. apply Nat.le_add_le_sub_r. exact Hav. }
  exists tcb, (mkBoot k q (Some (fs, vol)) (o2 ++ printed names) (now ⊞ (CLOCK_FREQ / TICKS_PER_SEC))), d, vol, names, k0.
  split; [|cbn [bt_kernel bt_queue_frames bt_root bt_output bt_timer]; split_and!; try done; try apply Hrest].
  unfold rust_main. erewrite bind_step by reflexivity.
  rewrite (bind_step _ _ _ (ks, activate ks) (mkBoot (mkKernel s1 (mkMemorySet (mkPageTable 0 []) []) RecycleAllocator_new RecycleAllocator_new ∅ [] None now) [] None o1 0))
    by (unfold at_kernel, on_mm, zoom, power_on; cbn [k_mm bt_kernel]; by rewrite E1).
  erewrite bind_step by reflexivity.
  rewrite (bind_step _ _ _ tt (mkBoot k1 [] None o1 0))
    by (unfold at_kernel, on_mm, zoom, set_bt_kernel, set_kernel_space; cbn [k_mm bt_kernel]; by rewrite (remap_test_ok _ _ _ _ Hld K)).
  erewrite bind_step by reflexivity. rewrite (bind_step _ _ _ tt b1) by reflexivity.
  rewrite (bind_step _ _ _ _ _ El), Hdata.
  rewrite (bind_step _ _ _ tt (mkBoot k0 q (Some (fs, vol)) (o2 ++ printed names) (now ⊞ (CLOCK_FREQ / TICKS_PER_SEC))))
    by (unfold at_kernel, zoom; cbn [bt_kernel]; by rewrite Ei).
  unfold at_kernel, zoom. cbn [bt_kernel]. by rewrite Et.
Qed.

(** ** Witness

    The sample program of Elf.v as the only program of the image. *)

Definition wit_boot_pf : platform := mkPlatform wit_kernel (ElfFile_new sample_read) 0x80200100 0x80200200 0.
Definition wit_boot_image : pmem :=
  wr_bytes (wr_bytes (wr_bytes ∅ 0x80214000 (le_bytes 8 1 ++ le_bytes 8 0x80214100 ++ le_bytes 8 (0x80214100 + Z.of_nat (length sample_image))))
    0x80214100 sample_image) 0x80214040 (shell_name ++ [0]).

(** The volume of Vfs.v with its boot sector and the signatures. *)
Definition wit_boot_sector : list Z :=
  splice 11 (le_bytes 2 512 ++ [1] ++ le_bytes 2 2 ++ [2]) (splice 19 (le_bytes 2 200)
    (splice 36 (le_bytes 4 1) (splice 44 (le_bytes 4 2 ++ le_bytes 2 1) zero_block))).
Definition wit_boot_dev : gmap Z (list Z) :=
  <[0 := wit_boot_sector]> (<[1 := splice 0 (le_bytes 4 LEAD_SIGNATURE) (splice 484 (le_bytes 4 SECOND_SIGNATURE) wit_info)]> wit_vdev).
Definition wit_boot_blocks (b : Z) : list Z := read_block b wit_boot_dev.
Definition wit_boot_entries (c : Z) : Z := entry wit_boot_blocks 2 c.

Lemma wit_boot_formatted : formatted wit_vregion wit_boot_blocks wit_fs.
Proof. unfold formatted. split_and!; try (vm_compute; (reflexivity || (split; [discriminate|reflexivity]))). Qed.

Lemma wit_boot_fat_rep : fat_rep wit_boot_blocks (fat wit_fs) wit_boot_entries.
Proof.
  intros c Hc. split; [reflexivity|]. unfold wit_boot_entries, entry. simpl in *.
  replace (3 + c / 128) with 3 by zlia. replace (2 + c / 128) with 2 by zlia. reflexivity.
Qed.

Lemma wit_boot_directory : directory wit_vregion wit_fs wit_boot_blocks root_dirent wit_boot_entries get_root_vfile root_dirent [2].
Proof.
  constructor; try (vm_compute; reflexivity).
  - by apply located_root.
  - constructor; try (vm_compute; (reflexivity || (split; discriminate))).
    + left. apply chain_last; [simpl; lia|vm_compute; discriminate].
    + intros b Hb. apply list_elem_of_singleton in Hb as ->. reflexivity.
  - by left.
Qed.

(** A driver that takes two frames for its queue. *)
Definition wit_blk_new : ST (hal StackFrameAllocator) (option (gmap Z (list Z))) := dma_alloc 2;; mret (Some wit_boot_dev).

Lemma wit_blk_starts lo : 0 ≤ lo → driver_starts lo 2 wit_boot_dev wit_blk_new.
Proof.
  intros Hlo c e m q Hc He He44 Hm. unfold wit_blk_new. generalize wit_boot_dev. intros dev.
  exists (foldl zero_page m (zrange c (c + Z.of_nat 2))). split_and!.
  - unfold dma_alloc. change (zrange 0 2) with (zrange 0 (0 + Z.of_nat 2)).
    erewrite bind_step; [reflexivity|]. erewrite bind_step; [reflexivity|]. apply dma_loop; [lia|lia|by left|done|done].
  - generalize (zrange c (c + Z.of_nat 2)). intros pages. revert m Hm. induction pages as [|p pages IH]; intros m Hm; [done|].
    by apply IH, mem_wf_zero_page.
  - intros p i Hp. rewrite zero_pages_rd, decide_False; [done|]. rewrite elem_of_zrange. lia.
Qed.

Lemma boot_enters_first_program_witness :
  ∃ tcb b mach m', rust_main wit_boot_pf wit_boot_image 0x80214000 0x80214040 (λ _, true) 16 wit_blk_new (power_on ∅ 0) = Done (tt, b) ∧
    length (bt_queue_frames b) = 2%nat ∧
    processor (bt_kernel b) = Some INITPROC ∧ tcbs (bt_kernel b) = {[INITPROC := tcb]} ∧
    tc_sepc (read_trap_cx (mem (k_mm (bt_kernel b))) (trap_cx_ppn tcb)) = 0x10000 ∧
    Riscv.trap_return 0x80201000 0x80201084 0x80201 (MemorySet_token (memory_set tcb)) mach = Done (tt, m') ∧
    Riscv.user m' = true ∧ Riscv.pc m' = 0x10000.
Proof.
  destruct (boot_enters_first_program wit_boot_pf wit_boot_image 0x80214000 0x80214040 (λ _, true) 16
      wit_blk_new 2 wit_boot_dev wit_vregion wit_fs wit_boot_entries [2] ∅ 0 sample_image sample_elf)
    as (tcb & b & d & vol & names & k0 & E & Hq & _ & _ & _ & _ & _ & _ & _ & _ & Hp & _ & Ht & _ & _ & _ & Hcx & Hret).
  - split; [apply (bool_decide_unpack _); vm_compute; done|vm_compute; split; done..].
  - exact (proj2 wit_frames_inv).
  - unfold fits. cbn. lia.
  - unfold fits. cbn. lia.
  - unfold fits. cbn. lia.
  - vm_compute. reflexivity.
  - vm_compute. reflexivity.
  - exact sample_loadable.
  - apply wit_blk_starts. vm_compute. discriminate.
  - exact wit_vlayout.
  - exact wit_boot_formatted.
  - exact wit_boot_fat_rep.
  - exact wit_boot_directory.
  - vm_compute. discriminate.
  - set (mach := Riscv.mkMachine (replicate 32 7) 0 false (MemorySet_token (kernel_space (bt_kernel b))) 0 0 0 0 (mem (k_mm (bt_kernel b)))).
    destruct (Hret 0x80201000 0x80201084 mach) as (m' & E' & Hu & Hpc & _); [reflexivity..|].
    exists tcb, b, mach, m'. split_and!; [exact E|exact Hq|exact Hp|exact Ht|rewrite Hcx; reflexivity|exact E'|exact Hu|exact Hpc].
Defined.
