(* ===== verification/System.v ===== *)
(** * The whole system refines the process machine

    Every trap of a user program, with any cause, system call and arguments,
    and every turn of the idle loop acts on processes only through the
    operations of Process.v. So what ProcessTree.v shows of those operations
    holds in every state of the running system, and in every such state
    [waitpid] is exact: its assertion on the references to the child holds,
    counting the ones on the stacks of suspended calls. *)

From S2P Require Import Prelude Address PhysMem FrameAllocator PageTable UserBuffer MemorySet.
From S2P Require Import TaskId FdTable Trap Pipe Process ProcessTree UserMap.
From S2P Require Import BlockCache Fat Dirent FatFile Vfs VfsWrite Inode Syscall.

Create HintDb quiet.

Section system.
Context {A : Type} `{FrameAllocator A} {D : Type} `{BlockDevice D}.
Context (pf : platform) (fs : FAT32Manager) (getchar : nat → Z) (str_fuel : nat) (pwd_ptr : Z).

Abbreviation K := (ST (kernel A)).
Abbreviation S := (ST (system A D)).
Abbreviation kernel_steps := (rtc (kernel_step pf)).

(** ** Operations that leave processes alone *)

(** An operation on the kernel, and one on the system, that changes neither the
    process view nor the process ids, nor the calls that tasks are suspended in. *)
Definition kquiet {X} (m : K X) : Prop := ∀ k x k', m k = Done (x, k') → keeps k k'.
Definition skeeps (s s' : system A D) : Prop := keeps (sys_kernel s) (sys_kernel s') ∧ sys_pending s' = sys_pending s.
Definition quiet {X} (m : S X) : Prop := ∀ s x s', m s = Done (x, s') → skeeps s s'.

Lemma skeeps_trans s1 s2 s3 : skeeps s1 s2 → skeeps s2 s3 → skeeps s1 s3.
Proof. intros [H1 E1] [H2 E2]. split; [by eapply keeps_trans|congruence]. Qed.

Lemma kquiet_ret {X} (x : X) : kquiet (mret x).
Proof. by intros k y k' [= _ <-]. Qed.
Lemma kquiet_bind {X Y} (m : K X) (f : X → K Y) : kquiet m → (∀ x, kquiet (f x)) → kquiet (m ≫= f).
Proof. intros Hm Hf k y k' (x & k1 & E1 & E2)%bind_Done. eapply keeps_trans; [by eapply Hm|by eapply Hf]. Qed.
Lemma kquiet_unwrap {X} (o : option X) : kquiet (unwrap o).
Proof. intros k x k' [_ ->]%unwrap_Done. done. Qed.
Lemma kquiet_rassert b : kquiet (rassert b).
Proof. intros k [] k' [_ ->]%rassert_Done. done. Qed.
Lemma kquiet_mm {X} (m : ST (mm A) X) : kquiet (on_mm m).
Proof. intros k x k'. apply on_mm_keeps. Qed.
Lemma kquiet_mem {X} (m : ST pmem X) : kquiet (on_mem m).
Proof. intros k x k'. apply on_mem_keeps. Qed.
Lemma kquiet_gets {X} (f : kernel A → X) : kquiet (st_gets f).
Proof. by intros k x k' [= _ <-]. Qed.
Lemma kquiet_get : kquiet st_get.
Proof. by intros k x k' [= _ <-]. Qed.
Lemma kquiet_get_tcb t : kquiet (get_tcb t).
Proof. intros k x k' [-> _]%get_tcb_Done. done. Qed.
Lemma kquiet_update t f : (∀ tcb, pv (f tcb) = pv tcb) → kquiet (update_tcb t f).
Proof. intros Hf k [] k' E. by eapply update_tcb_keeps. Qed.
Lemma kquiet_fold {X Y} (l : list X) (acc : Y) body :
  (∀ y x, kquiet (body y x)) → kquiet (for_fold l acc body).
Proof. intros Hb. revert acc. induction l as [|x l IH]; intros acc; [apply kquiet_ret|]. apply kquiet_bind; [done|intros; apply IH]. Qed.
Lemma kquiet_brk {X Y R} (l : list X) (acc : Y) (body : Y → X → K (Y + R)) :
  (∀ y x, kquiet (body y x)) → kquiet (for_brk l acc body).
Proof.
  intros Hb. revert acc. induction l as [|x l IH]; intros acc; [apply kquiet_ret|].
  apply kquiet_bind; [done|]. intros [y|r]; [apply IH|apply kquiet_ret].
Qed.

End system.

#[export] Hint Resolve kquiet_ret kquiet_bind kquiet_unwrap kquiet_rassert kquiet_mm kquiet_mem kquiet_gets kquiet_get
  kquiet_get_tcb kquiet_update kquiet_fold kquiet_brk : quiet.

(** Take a computation apart into operations with a hint. *)
Ltac quiet_step :=
  match goal with
  | |- ∀ _, _ => intros ?
  | |- kquiet (match ?x with _ => _ end) => destruct x
  | |- kquiet (_ ≫= _) => apply kquiet_bind
  | |- _ => solve [eauto with quiet]
  end.
Ltac quiet := repeat quiet_step.

Section lift.
Context {A : Type} `{FrameAllocator A} {D : Type} `{BlockDevice D}.

Abbreviation K := (ST (kernel A)).
Abbreviation S := (ST (system A D)).

Lemma quiet_ret {X} (x : X) : quiet (mret x : S X).
Proof. by intros s y s' [= _ <-]. Qed.
Lemma quiet_bind {X Y} (m : S X) (f : X → S Y) : quiet m → (∀ x, quiet (f x)) → quiet (m ≫= f).
Proof. intros Hm Hf s y s' (x & s1 & E1 & E2)%bind_Done. eapply skeeps_trans; [by eapply Hm|by eapply Hf]. Qed.
Lemma quiet_unwrap {X} (o : option X) : quiet (unwrap o : S X).
Proof. intros s x s' [_ ->]%unwrap_Done. done. Qed.
Lemma quiet_rassert b : quiet (rassert b : S unit).
Proof. intros s [] s' [_ ->]%rassert_Done. done. Qed.
Lemma quiet_panic {X} : quiet (panic : S X).
Proof. by intros s x s' E. Qed.
Lemma quiet_nofuel {X} : quiet ((λ _, NoFuel) : S X).
Proof. by intros s x s' E. Qed.
Lemma quiet_kernel {X} (m : K X) : kquiet m → quiet (on_kernel m : S X).
Proof. intros Hm s x s' (k & E & ->)%zoom_Done. split; [by eapply Hm|done]. Qed.
Lemma quiet_volume {X} (m : ST (volume D) X) : quiet (on_volume m : S X).
Proof. intros s x s' (v & _ & ->)%zoom_Done. done. Qed.
Lemma quiet_pmem {X} (m : ST pmem X) : quiet (on_pmem m : S X).
Proof. apply quiet_kernel, kquiet_mem. Qed.
Lemma quiet_gets {X} (f : system A D → X) : quiet (st_gets f).
Proof. by intros s x s' [= _ <-]. Qed.
Lemma quiet_get : quiet (st_get : S (system A D)).
Proof. by intros s x s' [= _ <-]. Qed.
Lemma quiet_modify (f : system A D → system A D) :
  (∀ s, sys_kernel (f s) = sys_kernel s ∧ sys_pending (f s) = sys_pending s) → quiet (st_modify f).
Proof. intros Hf s [] s' [= <-]. destruct (Hf s) as [E1 E2]. split; [rewrite E1; apply keeps_refl|done]. Qed.
(** Writing back a state that was just read. *)
Lemma quiet_get_put {X} (f : system A D → system A D) (h : system A D → S X) :
  (∀ s, sys_kernel (f s) = sys_kernel s ∧ sys_pending (f s) = sys_pending s) → (∀ s, quiet (h s)) → quiet (s ← st_get; st_put (f s);; h s).
Proof.
  intros Hf Hh s x s' (s0 & s1 & [= <- <-] & E)%bind_Done. apply bind_Done in E as ([] & s2 & [= <-] & E).
  apply Hh in E as [E1 E2]. destruct (Hf s) as [Ek Ep]. rewrite Ek in E1. rewrite Ep in E2. done.
Qed.
Lemma quiet_fold {X Y} (l : list X) (acc : Y) (body : Y → X → S Y) :
  (∀ y x, quiet (body y x)) → quiet (for_fold l acc body).
Proof. intros Hb. revert acc. induction l as [|x l IH]; intros acc; [apply quiet_ret|]. apply quiet_bind; [done|intros; apply IH]. Qed.
Lemma quiet_each {X} (l : list X) (body : X → S unit) : (∀ x, quiet (body x)) → quiet (for_each l body).
Proof. intros Hb. induction l as [|x l IH]; [apply quiet_ret|]. apply quiet_bind; [done|by intros]. Qed.
Lemma quiet_brk {X Y R} (l : list X) (acc : Y) (body : Y → X → S (Y + R)) :
  (∀ y x, quiet (body y x)) → quiet (for_brk l acc body).
Proof.
  intros Hb. revert acc. induction l as [|x l IH]; intros acc; [apply quiet_ret|].
  apply quiet_bind; [done|]. intros [y|r]; [apply IH|apply quiet_ret].
Qed.
Lemma quiet_loop {Y R} n (acc : Y) (body : Y → S (Y + R)) : (∀ y, quiet (body y)) → quiet (loop n body acc).
Proof.
  intros Hb. revert acc. induction n as [|n IH]; intros acc; [apply quiet_nofuel|].
  apply quiet_bind; [done|]. intros [y|r]; [apply IH|apply quiet_ret].
Qed.

End lift.

#[export] Hint Resolve quiet_ret quiet_unwrap quiet_rassert quiet_panic quiet_nofuel quiet_volume quiet_pmem quiet_gets
  quiet_get : quiet.

Ltac quiet_step ::=
  match goal with
  | |- ∀ _, _ => intros ?
  | |- kquiet (match ?x with _ => _ end) => destruct x
  | |- kquiet (_ ≫= _) => apply kquiet_bind
  | |- kquiet (for_fold _ _ _) => apply kquiet_fold
  | |- kquiet (for_brk _ _ _) => apply kquiet_brk
  | |- quiet (match ?x with _ => _ end) => destruct x
  | |- quiet (st_get ≫= λ s, st_put _ ≫= _) => apply quiet_get_put; [done|]
  | |- quiet (_ ≫= _) => apply quiet_bind
  | |- quiet (on_kernel _) => apply quiet_kernel
  | |- quiet (st_modify _) => apply quiet_modify; done
  | |- quiet (for_fold _ _ _) => apply quiet_fold
  | |- quiet (for_each _ _) => apply quiet_each
  | |- quiet (for_brk _ _ _) => apply quiet_brk
  | |- quiet (loop _ _ _) => apply quiet_loop
  | |- _ => solve [eauto with quiet]
  end.

Section calls.
Context {A : Type} `{FrameAllocator A} {D : Type} `{BlockDevice D}.
Context (pf : platform) (fs : FAT32Manager) (getchar : nat → Z) (str_fuel : nat) (pwd_ptr : Z).

Abbreviation K := (ST (kernel A)).
Abbreviation S := (ST (system A D)).

(** ** Kernel operations *)

Lemma kquiet_current_task : kquiet (current_task : K nat).
Proof. unfold current_task. quiet. Qed.
Hint Resolve kquiet_current_task : quiet.
Lemma kquiet_token : kquiet (current_user_token : K Z).
Proof. unfold current_user_token. quiet. Qed.
Lemma kquiet_get_time : kquiet (get_time : K Z).
Proof. unfold get_time. quiet. Qed.
Lemma kquiet_update_time ms : kquiet (update_time ms : K unit).
Proof. unfold update_time. quiet. Qed.
Lemma kquiet_get_tcbs l : kquiet (get_tcbs l : K _).
Proof. unfold get_tcbs. quiet. Qed.
Lemma kquiet_task_map t vpn ppn fl : kquiet (task_map t vpn ppn fl : K Z).
Proof. unfold task_map. quiet. Qed.
Lemma kquiet_task_unmap t vpn : kquiet (task_unmap t vpn : K Z).
Proof. unfold task_unmap. quiet. Qed.
Hint Resolve kquiet_token kquiet_get_time kquiet_update_time kquiet_get_tcbs kquiet_task_map kquiet_task_unmap : quiet.
Lemma kquiet_mmap a b c : kquiet (mmap_pages a b c : K _).
Proof. unfold mmap_pages, mmap_page, translate_token, current_map_one. quiet. Qed.
Lemma kquiet_munmap a b : kquiet (sys_munmap a b : K Z).
Proof. unfold sys_munmap, munmap_page, translate_token, current_unmap_one. quiet. Qed.
Lemma kquiet_brk_call x : kquiet (sys_brk x : K Z).
Proof. unfold sys_brk. apply kquiet_bind; [eauto with quiet|]. intros t. apply kquiet_bind; [|quiet]. intros k r k'. apply brk_keeps. Qed.
Lemma kquiet_priority x : kquiet (sys_set_priority x : K Z).
Proof. unfold sys_set_priority, set_priority. quiet. Qed.
Lemma kquiet_getpid : kquiet (sys_getpid : K Z).
Proof. unfold sys_getpid. quiet. Qed.
Lemma kquiet_getppid : kquiet (sys_getppid : K Z).
Proof. unfold sys_getppid. quiet. Qed.
Lemma kquiet_exec data : kquiet (sys_exec_data pf data : K Z).
Proof. unfold sys_exec_data. apply kquiet_bind; [eauto with quiet|]. intros t. apply kquiet_bind; [|quiet]. intros k r k'. apply exec_keeps. Qed.
Hint Resolve kquiet_mmap kquiet_munmap kquiet_brk_call kquiet_priority kquiet_getpid kquiet_getppid kquiet_exec : quiet.

(** ** Open files *)

Lemma quiet_inner : quiet (current_inner : S _).
Proof. unfold current_inner. quiet. Qed.
Lemma quiet_get_inode a : quiet (get_inode a : S _).
Proof. unfold get_inode. quiet. Qed.
Hint Resolve quiet_inner quiet_get_inode : quiet.
Lemma quiet_set_offset a x : quiet (set_offset a x : S unit).
Proof. unfold set_offset. quiet. Qed.
Lemma quiet_new_inode r w v : quiet (new_inode r w v : S nat).
Proof.
  apply (quiet_get_put (λ s, set_inodes (<[fresh (dom (sys_inodes s)) := OSInode_new r w v]> (sys_inodes s)) s)
    (λ s, mret (fresh (dom (sys_inodes s))))); quiet.
Qed.
Hint Resolve quiet_set_offset quiet_new_inode : quiet.
Lemma quiet_read_all a : quiet (read_all fs a : S _).
Proof. unfold read_all, read_all_body. quiet. Qed.
Lemma quiet_mkdir a nm at_ : quiet (mkdir fs a nm at_ : S Z).
Proof. unfold mkdir. quiet. Qed.
Lemma quiet_inode_read a buf : quiet (OSInode_read fs a buf : S Z).
Proof. unfold OSInode_read, inode_read_slice. quiet. Qed.
Lemma quiet_inode_write a buf : quiet (OSInode_write fs a buf : S Z).
Proof. unfold OSInode_write, inode_write_slice. quiet. Qed.
Lemma quiet_map_inode r w o : quiet (map_inode r w o : S _).
Proof. unfold map_inode. quiet. Qed.
Lemma quiet_search nm : quiet (search_pwd fs nm : S _).
Proof. unfold search_pwd. quiet. Qed.
Hint Resolve quiet_read_all quiet_mkdir quiet_inode_read quiet_inode_write quiet_map_inode quiet_search : quiet.
Lemma quiet_open_in v nm fl : quiet (open_in fs v nm fl : S _).
Proof. unfold open_in. quiet. Qed.
Lemma quiet_file_vfile f : quiet (file_vfile f : S _).
Proof. unfold file_vfile. quiet. Qed.
Hint Resolve quiet_open_in quiet_file_vfile : quiet.
Lemma quiet_open_file fd nm fl : quiet (open_file fs fd nm fl : S _).
Proof. unfold open_file. quiet. Qed.
Lemma quiet_update_current f : (∀ tcb, pv (f tcb) = pv tcb) → quiet (update_current f : S unit).
Proof. intros Hf. unfold update_current. quiet. Qed.
Hint Resolve quiet_open_file quiet_update_current : quiet.
Lemma quiet_chdir nm : quiet (chdir fs nm : S bool).
Proof. unfold chdir. quiet. Qed.
Lemma quiet_readable f : quiet (readable f : S bool).
Proof. unfold readable. quiet. Qed.
Lemma quiet_writable f : quiet (writable f : S bool).
Proof. unfold writable. quiet. Qed.
Lemma quiet_getchar : quiet (console_getchar getchar : S Z).
Proof. unfold console_getchar. quiet. Qed.
Lemma quiet_stdout buf : quiet (Stdout_write buf : S Z).
Proof. unfold Stdout_write. quiet. Qed.
Lemma quiet_pipe_turn p it n m : quiet (pipe_turn p it n m : S _).
Proof. unfold pipe_turn. quiet. Qed.
Hint Resolve quiet_chdir quiet_readable quiet_writable quiet_getchar quiet_stdout quiet_pipe_turn : quiet.

(** ** System calls that return at once *)

Lemma quiet_token : quiet (user_token : S Z).
Proof. unfold user_token. quiet. Qed.
Lemma quiet_str tok p : quiet (user_str str_fuel tok p : S _).
Proof. unfold user_str. quiet. Qed.
Lemma quiet_buffer tok p n : quiet (user_buffer tok p n : S _).
Proof. unfold user_buffer. quiet. Qed.
Lemma quiet_store tok p l : quiet (store_user tok p l : S unit).
Proof. unfold store_user. quiet. Qed.
Lemma quiet_fds {X} (m : ST (list (option file)) X) : quiet (on_fds m : S X).
Proof. unfold on_fds. quiet. Qed.
Lemma quiet_copy_out src n ti : quiet (copy_out src n ti : S unit).
Proof. unfold copy_out, copy_slice, copy_body. quiet. Qed.
Hint Resolve quiet_token quiet_str quiet_buffer quiet_store quiet_fds quiet_copy_out : quiet.

Lemma quiet_openat a b c : quiet (sys_openat fs str_fuel a b c : S Z).
Proof. unfold sys_openat. quiet. Qed.
Lemma quiet_getcwd a b : quiet (sys_getcwd pwd_ptr a b : S Z).
Proof. unfold sys_getcwd. quiet. Qed.
Lemma quiet_mkdirat a b c : quiet (sys_mkdirat fs str_fuel a b c : S Z).
Proof. unfold sys_mkdirat. quiet. Qed.
Lemma quiet_sys_chdir a : quiet (sys_chdir fs str_fuel a : S Z).
Proof. unfold sys_chdir. quiet. Qed.
Lemma quiet_new_pipe : quiet (new_pipe : S _).
Proof.
  apply (quiet_get_put (λ s, let b := fresh (dom (sys_rings s)) in
      set_rings (<[b := set_write_end (2 * b + 1) PipeRingBuffer_new]> (sys_rings s)) s)
    (λ s, let b := fresh (dom (sys_rings s)) in
      mret (FPipe (read_end_with_buffer b) (2 * b), FPipe (write_end_with_buffer b) (2 * b + 1)))); quiet.
Qed.
Hint Resolve quiet_new_pipe : quiet.
Lemma quiet_pipe2 a : quiet (sys_pipe2 a : S Z).
Proof. unfold sys_pipe2. quiet. Qed.
Lemma quiet_fstat a b : quiet (sys_fstat fs a b : S Z).
Proof. unfold sys_fstat. quiet. Qed.
Lemma quiet_unlink a b : quiet (sys_unlink fs str_fuel a b : S Z).
Proof. unfold sys_unlink. quiet. Qed.
Lemma quiet_uname a : quiet (sys_uname a : S Z).
Proof. unfold sys_uname. quiet. Qed.
Lemma quiet_getdents a b c : quiet (sys_getdents64 a b c : S Z).
Proof. unfold sys_getdents64. quiet. Qed.
Lemma quiet_mount a b c d : quiet (sys_mount fs str_fuel a b c d : S Z).
Proof. unfold sys_mount. quiet. Qed.
Lemma quiet_umount a : quiet (sys_umount2 fs str_fuel a : S Z).
Proof. unfold sys_umount2. quiet. Qed.
Lemma quiet_sys_exec a : quiet (sys_exec pf fs str_fuel a : S Z).
Proof. unfold sys_exec. quiet. Qed.
Lemma quiet_get_time_call a : quiet (sys_get_time a : S Z).
Proof. unfold sys_get_time. quiet. Qed.
Lemma quiet_sys_mmap a b c d : quiet (sys_mmap fs a b c d : S Z).
Proof. unfold sys_mmap, mmap_slice. quiet. Qed.
Lemma quiet_times a b : quiet (sys_times a b : S Z).
Proof. unfold sys_times. quiet. Qed.

End calls.

#[export] Hint Resolve kquiet_current_task kquiet_token kquiet_get_time kquiet_update_time kquiet_munmap kquiet_brk_call
  kquiet_priority kquiet_getpid kquiet_getppid kquiet_exec quiet_inner quiet_get_inode quiet_read_all quiet_inode_read
  quiet_inode_write quiet_open_file quiet_readable quiet_writable quiet_getchar quiet_stdout quiet_pipe_turn
  quiet_token quiet_str quiet_buffer quiet_fds quiet_openat quiet_getcwd quiet_mkdirat quiet_sys_chdir quiet_pipe2
  quiet_fstat quiet_unlink quiet_uname quiet_getdents quiet_mount quiet_umount quiet_sys_exec quiet_get_time_call
  quiet_sys_mmap quiet_times : quiet.

Section steps.
Context {A : Type} `{FrameAllocator A} {D : Type} `{BlockDevice D}.
Context (pf : platform).

Abbreviation K := (ST (kernel A)).
Abbreviation S := (ST (system A D)).
Abbreviation kernel_steps := (rtc (kernel_step pf)).

(** ** Operations that act on processes *)

(** The queue may get longer, and the suspended calls are the same. *)
Definition waits (s s' : system A D) : Prop :=
  sys_pending s' = sys_pending s ∧ ready_queue (sys_kernel s) ⊆ ready_queue (sys_kernel s').

Lemma waits_trans s1 s2 s3 : waits s1 s2 → waits s2 s3 → waits s1 s3.
Proof. intros [E1 H1] [E2 H2]. split; [congruence|by etrans]. Qed.

(** The operation is a sequence of steps of process management. *)
Definition steps {X} (m : S X) : Prop :=
  ∀ s x s', m s = Done (x, s') → kernel_steps (sys_kernel s) (sys_kernel s') ∧ waits s s'.

(** Not all process ids have been used: [fork] can take one. *)
Definition ids_left (k : kernel A) : Prop := ra_current (pid_allocator k) < 2 ^ 64 - 2.
Definition steps_ids {X} (m : S X) : Prop :=
  ∀ s x s', ids_left (sys_kernel s) → m s = Done (x, s') → kernel_steps (sys_kernel s) (sys_kernel s') ∧ waits s s'.

Lemma skeeps_waits s s' : skeeps s s' → waits s s'.
Proof. intros [[Hq _]%keeps_queue Hp]. split; [done|by rewrite Hq]. Qed.

Lemma steps_quiet {X} (m : S X) : quiet m → steps m.
Proof. intros Hm s x s' E%Hm. split; [by apply rtc_once, step_user, E|by apply skeeps_waits]. Qed.
Lemma steps_bind {X Y} (m : S X) (f : X → S Y) : steps m → (∀ x, steps (f x)) → steps (m ≫= f).
Proof.
  intros Hm Hf s y s' (x & s1 & [E1 W1]%Hm & [E2 W2]%Hf)%bind_Done. split; [by etrans|by eapply waits_trans].
Qed.
Lemma steps_loop {Y R} n (acc : Y) (body : Y → S (Y + R)) : (∀ y, steps (body y)) → steps (loop n body acc).
Proof.
  intros Hb. revert acc. induction n as [|n IH]; intros acc; [done|].
  apply steps_bind; [done|]. intros [y|r]; [apply IH|apply steps_quiet, quiet_ret].
Qed.
Lemma steps_kernel {X} (m : K X) :
  (∀ k x k', m k = Done (x, k') → kernel_step pf k k' ∧ ready_queue k ⊆ ready_queue k') → steps (on_kernel m).
Proof. intros Hm s x s' (k & E & ->)%zoom_Done. destruct (Hm _ _ _ E). split; [by eapply rtc_once|done]. Qed.

Lemma steps_ids_steps {X} (m : S X) : steps m → steps_ids m.
Proof. intros Hm s x s' _. apply Hm. Qed.
Lemma steps_ids_after {X Y} (m : S X) (f : X → S Y) : quiet m → (∀ x, steps_ids (f x)) → steps_ids (m ≫= f).
Proof.
  intros Hm Hf s y s' Hid (x & s1 & E1%Hm & E2)%bind_Done. destruct (Hf x s1 y s') as [Hs Hw]; [|exact E2|].
  - unfold ids_left in *. by destruct E1 as [[_ ->] _].
  - split; [eapply rtc_l; [apply step_user, E1|done]|eapply waits_trans; [by apply skeeps_waits|done]].
Qed.
Lemma steps_ids_before {X Y} (m : S X) (f : X → S Y) : steps_ids m → (∀ x, steps (f x)) → steps_ids (m ≫= f).
Proof.
  intros Hm Hf s y s' Hid (x & s1 & E1 & E2)%bind_Done. destruct (Hm _ _ _ Hid E1), (Hf _ _ _ _ E2). split; [by etrans|by eapply waits_trans].
Qed.

Lemma suspend_steps (k : kernel A) u k' : suspend_current k = Done (u, k') → kernel_step pf k k' ∧ ready_queue k ⊆ ready_queue k'.
Proof. intros E. destruct u. split; [by apply step_yield|]. destruct (suspend_queue _ _ _ E) as (t & _ & ->). set_solver. Qed.

Lemma exit_steps code (k : kernel A) u k' : exit_current code k = Done (u, k') → kernel_step pf k k' ∧ ready_queue k ⊆ ready_queue k'.
Proof.
  intros E. destruct u. split; [by eapply step_exit|]. destruct (exit_refines _ _ _ E) as [Hs _]. unfold exit_current in E.
  apply bind_Done in E as (o & k1 & (-> & _)%take_current_view & E). apply bind_Done in E as (t & k1' & [Hcur _]%unwrap_Done & _).
  change (a_queue (view k) ⊆ a_queue (view k')). assert (a_current (view k) ≠ None) as Hc by (simpl; congruence).
  destruct Hs; simpl in *; [done|set_solver|done|done].
Qed.

Lemma wait_steps want ptr (k : kernel A) r k' : waitpid want ptr k = Done (r, k') → kernel_step pf k k' ∧ ready_queue k ⊆ ready_queue k'.
Proof. intros E. split; [by eapply step_wait|]. by destruct (waitpid_queue _ _ _ _ _ E) as [-> _]. Qed.

Lemma forked_queue (k k' : kernel A) : forked_queued k k' → ready_queue k ⊆ ready_queue k'.
Proof. intros (t & c & p & _ & _ & _ & Hv). apply (f_equal a_queue) in Hv. simpl in Hv. rewrite Hv. set_solver. Qed.

Lemma steps_block p : steps (block p).
Proof.
  apply steps_bind; [|intros; apply steps_quiet; quiet]. apply steps_kernel. intros k u k'. apply suspend_steps.
Qed.

End steps.

(** The same, for computations that may act on processes. *)
Ltac steps_step :=
  match goal with
  | |- ∀ _, _ => intros ?
  | |- steps _ (match ?x with _ => _ end) => destruct x
  | |- steps _ (loop _ _ _) => apply steps_loop
  | |- steps _ (block _) => apply steps_block
  | |- steps _ _ => solve [apply steps_quiet; quiet]
  | |- steps _ (_ ≫= _) => apply steps_bind
  end.
Ltac steps := repeat steps_step.

Section traps.
Context {A : Type} `{FrameAllocator A} {D : Type} `{BlockDevice D}.
Context (pf : platform) (fs : FAT32Manager) (getchar : nat → Z) (str_fuel : nat) (pwd_ptr : Z).

Abbreviation K := (ST (kernel A)).
Abbreviation S := (ST (system A D)).
Abbreviation kernel_steps := (rtc (kernel_step pf)).

Lemma steps_stdin buf : steps pf (stdin_turn getchar buf : S _).
Proof. unfold stdin_turn. steps. Qed.
Lemma steps_pipe_read p a it n : steps pf (pipe_read_turns p a it n : S _).
Proof. unfold pipe_read_turns. steps. Qed.
Lemma steps_pipe_write p a it n : steps pf (pipe_write_turns p a it n : S _).
Proof. unfold pipe_write_turns. steps. Qed.
Lemma steps_read a b c : steps pf (sys_read fs getchar a b c : S _).
Proof.
  unfold sys_read, file_read, Stdin_read. steps; [apply steps_stdin|apply steps_pipe_read].
Qed.
Lemma steps_write a b c : steps pf (sys_write fs a b c : S _).
Proof. unfold sys_write, file_write. steps. apply steps_pipe_write. Qed.
Lemma steps_exit c : steps pf (sys_exit c : S _).
Proof.
  unfold sys_exit. steps. apply steps_kernel. intros k u k'. apply exit_steps.
Qed.
Lemma steps_waitpid p e : steps pf (sys_waitpid p e : S _).
Proof.
  unfold sys_waitpid. steps. apply steps_kernel. intros k r k'. apply wait_steps.
Qed.
Lemma steps_nanosleep_turn us t : steps pf (nanosleep_turn us t : S _).
Proof. unfold nanosleep_turn. steps. Qed.
Lemma steps_nanosleep a : steps pf (sys_nanosleep a : S _).
Proof. unfold sys_nanosleep. steps. apply steps_nanosleep_turn. Qed.
Lemma steps_fork a b c d e : steps_ids pf (at_once (on_kernel (sys_fork pf a b c d e)) : S _).
Proof.
  apply steps_ids_before; [|steps]. intros s x s' Hid (k & E & ->)%zoom_Done. split; [by eapply rtc_once, step_fork|].
  split; [done|]. by eapply forked_queue, sys_fork_view.
Qed.
Lemma steps_spawn a : steps_ids pf (at_once (sys_spawn pf fs str_fuel a) : S _).
Proof.
  apply steps_ids_before; [|steps]. unfold sys_spawn.
  apply steps_ids_after; [quiet|intros token]. apply steps_ids_after; [quiet|intros path].
  apply steps_ids_after; [quiet|intros [i|]]; [|apply steps_ids_steps; steps].
  apply steps_ids_after; [quiet|intros data]. intros s x s' Hid (k & E & ->)%zoom_Done. split; [by eapply rtc_once, step_spawn|].
  split; [done|]. by eapply forked_queue, sys_spawn_view.
Qed.

Lemma steps_at_once (m : S Z) : quiet m → steps_ids pf (at_once m).
Proof. intros Hm. apply steps_ids_steps, steps_quiet. unfold at_once. quiet. Qed.

Lemma steps_dispatch id args ms : steps_ids pf (dispatch pf fs getchar str_fuel pwd_ptr id args ms : S _).
Proof.
  unfold dispatch. cbv zeta.
  repeat (destruct (_ =? _); [first [apply steps_at_once; quiet; fail | apply steps_fork | apply steps_spawn
    | apply steps_ids_steps; first [apply steps_read|apply steps_write|apply steps_exit|apply steps_block|apply steps_waitpid
        |apply steps_nanosleep|steps; fail]]|]). by intros s x s' _.
Qed.

Lemma quiet_syscall_done p ms : quiet (syscall_done p ms : S _).
Proof. unfold syscall_done. quiet. Qed.
Lemma steps_resume p : steps pf (resume getchar p : S _).
Proof.
  destruct p; simpl; [apply steps_pipe_read|apply steps_pipe_write|apply steps_stdin|apply steps_waitpid
    |apply steps_nanosleep_turn|steps|steps].
Qed.

Lemma syscall_done_same p ms (s : system A D) p' s' : syscall_done p ms s = Done (p', s') → p' = p.
Proof.
  unfold syscall_done. destruct p; intros E; [|by injection E as <- _..].
  apply bind_Done in E as (? & s1 & _ & E). apply bind_Done in E as (? & s2 & _ & E). by injection E as <- _.
Qed.

(** The end of a call notes where a suspended task goes on. *)
Lemma finish_Done t p (s : system A D) u s' : finish_call t p s = Done (u, s') →
  keeps (sys_kernel s) (sys_kernel s') ∧
  (sys_pending s' = sys_pending s ∨ ∃ q, p = Blocked q ∧ sys_pending s' = <[t := q]> (sys_pending s)).
Proof.
  destruct p as [r|q|]; simpl; intros E.
  - assert (quiet (cx ← current_trap_cx; write_reg cx (TC_X 10) (wrap 64 r) : S unit)) as Hq by (unfold current_trap_cx, write_reg; quiet).
    apply Hq in E as [? ?]. auto.
  - injection E as _ <-. split; [done|]. right. by exists q.
  - injection E as _ <-. split; [done|]. by left.
Qed.

(** ** Suspended calls *)

(** A call that ends suspended has put the running task into the queue. *)
Definition blocks (m : S progress) : Prop :=
  ∀ s q s', m s = Done (Blocked q, s') → ∃ t, processor (sys_kernel s) = Some t ∧ t ∈ ready_queue (sys_kernel s').

Lemma blocks_block p : blocks (block p).
Proof.
  intros s q s' E. apply bind_Done in E as (u & s1 & (k & E & ->)%zoom_Done & E1). injection E1 as _ <-.
  destruct (suspend_queue _ _ _ E) as (t & Ht & Hq). exists t. split; [done|]. simpl. rewrite Hq. set_solver.
Qed.
Lemma blocks_returned r : blocks (mret (Returned r)).
Proof. by intros s q s' E. Qed.
Lemma blocks_never {X} (m : S X) (f : X → progress) : (∀ x q, f x ≠ Blocked q) → blocks (x ← m; mret (f x)).
Proof. intros Hf s q s' (x & s1 & _ & [= E _])%bind_Done. by apply Hf in E. Qed.
Lemma blocks_after {X} (m : S X) (f : X → S progress) : quiet m → (∀ x, blocks (f x)) → blocks (m ≫= f).
Proof.
  intros Hm Hf s q s' (x & s1 & [[_ Hp]%keeps_queue _]%Hm & (t & Ht & Hq)%Hf)%bind_Done. exists t. by rewrite <- Hp.
Qed.
Lemma blocks_kernel {X} (m : K X) (f : X → S progress) :
  (∀ k x k', m k = Done (x, k') → processor k' = processor k) → (∀ x, blocks (f x)) → blocks (on_kernel m ≫= f).
Proof.
  intros Hm Hf s q s' (x & s1 & (k & Hp%Hm & ->)%zoom_Done & (t & Ht & Hq)%Hf)%bind_Done. exists t. simpl in Ht. by rewrite <- Hp.
Qed.
Lemma blocks_panic : blocks panic.
Proof. by intros s q s' E. Qed.

(** A turn of a loop that goes round leaves the processor alone. *)
Definition turns {Y} (body : S (Y + progress)) : Prop := ∀ s r s', body s = Done (r, s') →
  match r with
  | inl _ => processor (sys_kernel s') = processor (sys_kernel s)
  | inr (Blocked _) => ∃ t, processor (sys_kernel s) = Some t ∧ t ∈ ready_queue (sys_kernel s')
  | inr _ => True
  end.

Lemma turns_after {X Y} (m : S X) (f : X → S (Y + progress)) : quiet m → (∀ x, turns (f x)) → turns (m ≫= f).
Proof.
  intros Hm Hf s r s' (x & s1 & [[_ Hp]%keeps_queue _]%Hm & E%Hf)%bind_Done. by rewrite Hp in E.
Qed.
Lemma turns_again {Y} (y : Y) : turns (mret (inl y)).
Proof. by intros s r s' [= <- <-]. Qed.
Lemma turns_return {Y} n : turns (mret (inr (Returned n)) : S (Y + progress)).
Proof. by intros s r s' [= <- <-]. Qed.
Lemma turns_block {Y} p : turns (r ← block p; mret (inr r) : S (Y + progress)).
Proof.
  intros s r s' E. apply bind_Done in E as (q & s1 & E & E1). injection E1 as <- <-. destruct q; [done| |done]. by eapply blocks_block.
Qed.
Lemma blocks_loop {Y} n (body : Y → S (Y + progress)) : (∀ y, turns (body y)) → ∀ acc, blocks (loop n body acc).
Proof.
  intros Hb. induction n as [|n IH]; intros acc s q s' E; [done|]. cbn [loop] in E.
  apply bind_Done in E as ([z|r] & s1 & E1%Hb & E).
  - destruct (IH _ _ _ _ E) as (t & Ht & Hq). exists t. by rewrite <- E1.
  - by injection E as -> ->.
Qed.

Ltac blocks_step :=
  match goal with
  | |- ∀ _, _ => intros ?
  | |- blocks (match ?x with _ => _ end) => destruct x
  | |- turns (match ?x with _ => _ end) => destruct x
  | |- blocks (block _) => apply blocks_block
  | |- blocks (loop _ _ _) => apply blocks_loop
  | |- blocks panic => apply blocks_panic
  | |- blocks (mret (Returned _)) => apply blocks_returned
  | |- turns (mret (inl _)) => apply turns_again
  | |- turns (mret (inr (Returned _))) => apply turns_return
  | |- turns (block _ ≫= _) => apply turns_block
  | |- blocks (_ ≫= _) => apply blocks_after; [solve [quiet]|]
  | |- turns (_ ≫= _) => apply turns_after; [solve [quiet]|]
  end.

Lemma blocks_pipe_read p a it n : blocks (pipe_read_turns p a it n).
Proof. unfold pipe_read_turns. repeat blocks_step. Qed.
Lemma blocks_pipe_write p a it n : blocks (pipe_write_turns p a it n).
Proof. unfold pipe_write_turns. repeat blocks_step. Qed.
Lemma blocks_stdin buf : blocks (stdin_turn getchar buf).
Proof. unfold stdin_turn. repeat blocks_step. Qed.
Lemma blocks_read a b c : blocks (sys_read fs getchar a b c).
Proof. unfold sys_read, file_read, Stdin_read. repeat blocks_step; [apply blocks_stdin|apply blocks_pipe_read]. Qed.
Lemma blocks_write a b c : blocks (sys_write fs a b c).
Proof. unfold sys_write, file_write. repeat blocks_step. apply blocks_pipe_write. Qed.
Lemma blocks_waitpid p e : blocks (sys_waitpid p e).
Proof. apply blocks_kernel; [intros k r k' E; by eapply waitpid_queue|]. repeat blocks_step. Qed.
Lemma blocks_nanosleep_turn us t : blocks (nanosleep_turn us t).
Proof. unfold nanosleep_turn. repeat blocks_step. Qed.
Lemma blocks_nanosleep a : blocks (sys_nanosleep a).
Proof. unfold sys_nanosleep. repeat blocks_step. apply blocks_nanosleep_turn. Qed.
Lemma blocks_dispatch id args ms : blocks (dispatch pf fs getchar str_fuel pwd_ptr id args ms).
Proof.
  unfold dispatch. cbv zeta.
  repeat (destruct (_ =? _); [first [by apply blocks_never | apply blocks_read | apply blocks_write | apply blocks_block
    | apply blocks_waitpid | apply blocks_nanosleep | by intros s q s' E]|]). apply blocks_panic.
Qed.
Lemma blocks_resume p : blocks (resume getchar p).
Proof.
  destruct p; simpl; [apply blocks_pipe_read|apply blocks_pipe_write|apply blocks_stdin|apply blocks_waitpid
    |apply blocks_nanosleep_turn|by intros s q s' E|by intros s q s' E].
Qed.

(** ** Traps and the idle loop *)

(** Every task that is suspended in a call is in the queue. *)
Definition pending_queued (s : system A D) : Prop := ∀ t, is_Some (sys_pending s !! t) → t ∈ ready_queue (sys_kernel s).

Lemma pending_waits s s' : waits s s' → pending_queued s → pending_queued s'.
Proof. intros [Ep Hq] Hs t Ht. apply Hq, Hs. by rewrite <- Ep. Qed.

(** The end of a call of the running task [t], from the time when it has a result. *)
Lemma finish_ok t p ms (s : system A D) u s' :
  (p' ← syscall_done p ms; finish_call t p') s = Done (u, s') →
  kernel_steps (sys_kernel s) (sys_kernel s') ∧
  (pending_queued s → (∀ q, p = Blocked q → t ∈ ready_queue (sys_kernel s)) → pending_queued s').
Proof.
  intros (p' & s1 & E1 & E2)%bind_Done. pose proof (syscall_done_same _ _ _ _ _ E1) as ->. apply quiet_syscall_done in E1 as [Hk1 Hp1].
  destruct (finish_Done _ _ _ _ _ E2) as [Hk2 Hp2]. split; [eapply rtc_l; [by apply step_user|by apply rtc_once, step_user]|].
  destruct (keeps_queue _ _ Hk1) as [Hq1 _], (keeps_queue _ _ Hk2) as [Hq2 _]. intros Hs Hb x Hx. rewrite Hq2, Hq1.
  destruct Hp2 as [Hp2|(q & -> & Hp2)]; rewrite Hp2, Hp1 in Hx; [by apply Hs|].
  destruct (decide (x = t)) as [->|Hne]; [by eapply Hb|]. rewrite lookup_insert_ne in Hx by done. by apply Hs.
Qed.

(** What the kernel does for the running task [t] keeps this. *)
Definition serves (t : nat) (m : S unit) : Prop := ∀ s u s',
  processor (sys_kernel s) = Some t → ids_left (sys_kernel s) → m s = Done (u, s') →
  kernel_steps (sys_kernel s) (sys_kernel s') ∧ (pending_queued s → pending_queued s').

Lemma serves_after {X} t (m : S X) (f : X → S unit) : quiet m → (∀ x, serves t (f x)) → serves t (m ≫= f).
Proof.
  intros Hm Hf s u s' Ht Hid (x & s1 & Hk%Hm & E)%bind_Done. pose proof (skeeps_waits _ _ Hk) as Hw. destruct Hk as [[Hv Hi] Hp].
  destruct (Hf x s1 u s') as [Hs Hq]; [|unfold ids_left in *; congruence|done|].
  - by rewrite <- Ht; apply (f_equal a_current Hv).
  - split; [eapply rtc_l; [by apply step_user|done]|]. intros Hpq. apply Hq. by eapply pending_waits.
Qed.

Lemma serves_call t ms (m : S progress) : steps_ids pf m → blocks m → ∀ s u s',
  processor (sys_kernel s) = Some t → ids_left (sys_kernel s) →
  (p ← m; p ← syscall_done p ms; finish_call t p) s = Done (u, s') →
  kernel_steps (sys_kernel s) (sys_kernel s') ∧ (pending_queued s → pending_queued s').
Proof.
  intros Hm Hb s u s' Ht Hid (p & s1 & E1 & E2)%bind_Done. destruct (Hm _ _ _ Hid E1) as [Hs1 Hw1].
  destruct (finish_ok _ _ _ _ _ _ E2) as [Hs2 Hpq]. split; [by etrans|]. intros Hq. apply Hpq; [by eapply pending_waits|].
  intros q ->. destruct (Hb _ _ _ E1) as (t' & Ht' & Hin). congruence.
Qed.

Lemma serves_syscall t id args : serves t (p ← syscall pf fs getchar str_fuel pwd_ptr id args; finish_call t p).
Proof.
  intros s u s' Ht Hid (p & s1 & E1 & E2)%bind_Done. unfold syscall in E1. apply bind_Done in E1 as (ms & s2 & Ems & E1).
  apply bind_Done in E1 as (p0 & s3 & Ed & Edone).
  assert (serves t (p ← dispatch pf fs getchar str_fuel pwd_ptr id args ms; p ← syscall_done p ms; finish_call t p)) as Hc.
  { intros ???. apply serves_call; [apply steps_dispatch|apply blocks_dispatch]. }
  eapply (serves_after t (on_kernel get_time) (λ ms, p ← dispatch pf fs getchar str_fuel pwd_ptr id args ms; p ← syscall_done p ms; finish_call t p));
    [quiet|intros ms'; intros ???; apply serves_call; [apply steps_dispatch|apply blocks_dispatch]|exact Ht|exact Hid|].
  rewrite (bind_step _ _ _ _ _ Ems), (bind_step _ _ _ _ _ Ed), (bind_step _ _ _ _ _ Edone). exact E2.
Qed.

(** A task that is suspended is in the queue. *)
Lemma serves_suspend t q : serves t (on_kernel suspend_current;; st_modify (λ s, set_pending (<[t := q]> (sys_pending s)) s)).
Proof.
  intros s u s' Ht Hid (v & s1 & (k & E & ->)%zoom_Done & E1)%bind_Done. injection E1 as _ <-. destruct (suspend_steps pf _ _ _ E) as [Hs Hq].
  split; [by apply rtc_once|]. intros Hpq x Hx. destruct (suspend_queue _ _ _ E) as (t' & Ht' & Hq'). simpl in *. rewrite Ht in Ht'. injection Ht' as <-.
  destruct (decide (x = t)) as [->|Hne]; [rewrite Hq'; apply elem_of_app; right; by apply list_elem_of_singleton|].
  rewrite lookup_insert_ne in Hx by done. by apply Hq, Hpq.
Qed.

Lemma trap_ok c (s s' : system A D) u :
  ids_left (sys_kernel s) → trap_handler pf fs getchar str_fuel pwd_ptr c s = Done (u, s') →
  kernel_steps (sys_kernel s) (sys_kernel s') ∧ (pending_queued s → pending_queued s').
Proof.
  assert (∀ code, on_kernel (exit_current code) s = Done (u, s') →
    kernel_steps (sys_kernel s) (sys_kernel s') ∧ (pending_queued s → pending_queued s')) as Hexit.
  { intros code E. assert (steps pf (on_kernel (exit_current code) : S unit)) as Hs by (apply steps_kernel; intros k u' k'; apply exit_steps).
    apply Hs in E as [? Hw]. split; [done|by apply pending_waits]. }
  assert (∀ f, (t ← on_kernel current_task; f t) s = Done (u, s') → (∀ t, serves t (f t)) → ids_left (sys_kernel s) →
    kernel_steps (sys_kernel s) (sys_kernel s') ∧ (pending_queued s → pending_queued s')) as Hcur.
  { intros f (t & s1 & (k & [-> Ht]%current_task_Done & Es)%zoom_Done & E)%bind_Done Hf Hid.
    replace s1 with s in E by (rewrite Es; by destruct s). by eapply Hf. }
  intros Hid E. destruct c; try exact (Hexit _ E); [| |done]; apply (Hcur _ E); try done; intros t.
  - unfold current_trap_cx, read_reg, write_reg. do 5 (apply serves_after; [quiet|intros ?]). apply serves_syscall.
  - unfold set_next_trigger. apply serves_after; [quiet|intros _]. apply serves_suspend.
Qed.

(** The idle loop takes one task from the queue. *)
Lemma run_queue (k k' : kernel A) u : kinv k → processor k = None → run_tasks_turn k = Done (u, k') →
  match processor k' with
  | Some t => ∀ x, x ∈ ready_queue k → x ≠ t → x ∈ ready_queue k'
  | None => ready_queue k' = ready_queue k
  end.
Proof.
  intros Hk Hp E. destruct u, (run_refines k k' Hp E) as [Hs _].
  change (match a_current (view k') with Some t => ∀ x, x ∈ a_queue (view k) → x ≠ t → x ∈ a_queue (view k') | None => a_queue (view k') = a_queue (view k) end).
  assert (a_current (view k) = None) as Hc by done. destruct Hs; simpl in *; try done.
  - intros x [?|[->|?]%elem_of_cons]%elem_of_app Hx; [apply elem_of_app; by left|done|apply elem_of_app; by right].
  - by rewrite Hc.
Qed.

Lemma idle_ok (s s' : system A D) u :
  kinv (sys_kernel s) → processor (sys_kernel s) = None → idle_turn getchar s = Done (u, s') →
  kernel_steps (sys_kernel s) (sys_kernel s') ∧ (pending_queued s → pending_queued s').
Proof.
  intros Hk Hp ([] & s1 & (k & E1 & ->)%zoom_Done & E)%bind_Done. pose proof (run_queue _ _ _ Hk Hp E1) as Hrun.
  assert (kernel_step pf (sys_kernel s) k) as Hstep by (by apply step_run). set (s1 := mkSystem k _ _ _ _ _ _ _) in E.
  apply bind_Done in E as (o & s2 & (k2 & [= <- <-] & Es2)%zoom_Done & E). change (s2 = s1) in Es2. subst s2.
  change (processor (sys_kernel s1)) with (processor k) in E. destruct (processor k) as [t|] eqn:Ht.
  2: { injection E as _ <-. split; [by apply rtc_once|]. intros Hq x Hx. simpl. rewrite Hrun. by apply Hq. }
  apply bind_Done in E as (s2 & s3 & [= <- <-] & E). change (sys_pending s1) with (sys_pending s) in E.
  destruct (sys_pending s !! t) as [q|] eqn:Eq.
  2: { injection E as _ <-. split; [by apply rtc_once|]. intros Hq x Hx. simpl in *. apply Hrun; [by apply Hq|]. intros ->. by rewrite Eq in Hx; destruct Hx. }
  apply bind_Done in E as ([] & s3 & [= <-] & E). set (s2 := set_pending _ s1) in E.
  apply bind_Done in E as (p & s3 & E2 & E3). destruct (steps_resume q _ _ _ E2) as [Hs2 Hw2]. destruct (finish_ok _ _ _ _ _ _ E3) as [Hs3 Hpq].
  split; [eapply rtc_l; [exact Hstep|by etrans]|]. intros Hq. apply Hpq.
  - eapply pending_waits; [exact Hw2|]. intros x Hx. simpl in *. destruct (decide (x = t)) as [->|Hne]; [by rewrite lookup_delete_eq in Hx; destruct Hx|].
    rewrite lookup_delete_ne in Hx by done. apply Hrun; [by apply Hq|done].
  - intros q' ->. destruct (blocks_resume q _ _ _ E2) as (t' & Ht' & Hin). simpl in Ht'. congruence.
Qed.

(** ** Steps of the system *)

(** User code changes memory while time passes. *)
Definition user_code (m : pmem) (now : Z) (s : system A D) : system A D :=
  let k := sys_kernel s in
  mkSystem (mkKernel (mkMM (frame_allocator (k_mm k)) m) (kernel_space k) (kstack_allocator k) (pid_allocator k)
              (tcbs k) (ready_queue k) (processor k) now)
    (sys_volume s) (sys_inodes s) (sys_rings s) (sys_pending s) (sys_keys s) (sys_output s) (sys_timer s).

Inductive sys_step : system A D → system A D → Prop :=
| sys_step_trap c s s' :
    ids_left (sys_kernel s) → trap_handler pf fs getchar str_fuel pwd_ptr c s = Done (tt, s') → sys_step s s'
| sys_step_idle s s' : processor (sys_kernel s) = None → idle_turn getchar s = Done (tt, s') → sys_step s s'
| sys_step_user m now s : sys_step s (user_code m now s).

Lemma kinv_steps k k' : kinv k → kernel_steps k k' → rtc astep (view k) (view k') ∧ kinv k'.
Proof.
  intros Hk Hs. induction Hs as [|k1 k2 k3 Hs _ IH]; [done|].
  destruct (kernel_step_refines pf k1 k2 Hk Hs) as [Ha Hk2]. destruct (IH Hk2) as [Hr Hk3]. split; [|done].
  destruct Ha as [Ha| <-]; [by eapply rtc_l|done].
Qed.

Lemma sys_step_ok s s' : kinv (sys_kernel s) → sys_step s s' →
  kernel_steps (sys_kernel s) (sys_kernel s') ∧ (pending_queued s → pending_queued s').
Proof.
  intros Hk Hs. destruct Hs as [c s s' Hid E|s s' Hp E|m now s].
  - by eapply trap_ok.
  - by eapply idle_ok.
  - split; [by apply rtc_once, step_user|done].
Qed.

Lemma sys_reach s s' : kinv (sys_kernel s) → rtc sys_step s s' →
  rtc astep (view (sys_kernel s)) (view (sys_kernel s')) ∧ kinv (sys_kernel s') ∧ (pending_queued s → pending_queued s').
Proof.
  intros Hk Hr. induction Hr as [|s1 s2 s3 Hs _ IH]; [done|]. destruct (sys_step_ok s1 s2 Hk Hs) as [Hs1 Hq1].
  destruct (kinv_steps _ _ Hk Hs1) as [Hv1 Hk2]. destruct (IH Hk2) as (Hv2 & Hk3 & Hq2). split_and!; [by etrans|done|auto].
Qed.

(** ** References on kernel stacks *)

(** The references to tasks in local variables of a call that task [t] is
    suspended in: [sys_read] and [sys_write] hold the running task until they
    return. The other calls that wait ([sys_waitpid], [sys_nanosleep],
    [sys_yield], the timer) hold none while they do. *)
Definition stack_arcs (t : nat) (p : pending) : list nat :=
  match p with
  | InPipeRead _ _ _ _ | InPipeWrite _ _ _ _ | InStdin _ => [t]
  | InWaitpid _ _ | InNanosleep _ _ | InYield | InTimer => []
  end.

(** All references to a task, but for those of the running call. *)
Definition arc_count (k : kernel A) (calls : gmap nat pending) (c : nat) : nat :=
  strong_count k c + length (filter (λ x, x = c) (mjoin ((λ '(t, p), stack_arcs t p) <$> map_to_list calls))).

Lemma arc_count_suspended k calls c : calls !! c = None → arc_count k calls c = strong_count k c.
Proof.
  intros Hc. unfold arc_count. rewrite filter_none; [simpl; lia|]. intros Hx. apply list_elem_of_join in Hx as (l & Hl & Hin).
  apply list_elem_of_fmap in Hin as ([t p] & -> & Hp%elem_of_map_to_list).
  destruct p; simpl in Hl; try (by apply not_elem_of_nil in Hl); apply list_elem_of_singleton in Hl as ->; congruence.
Qed.

(** ** Properties *)

(** C1. The running system refines the abstract process machine: whatever traps
    user programs cause, with whatever system calls and arguments, and however
    they are scheduled, the process view goes through steps of [astep] only, and
    the invariant of processes and queues holds in every state. The runs are
    those in which the counter of ids stays below 2^64 - 2: a trap is a step
    only while [ids_left] holds, since the counter would wrap. *)
Theorem system_refines_process_machine (s0 s : system A D) :
  booted (sys_kernel s0) → rtc sys_step s0 s →
  rtc astep (view (sys_kernel s0)) (view (sys_kernel s)) ∧ kinv (sys_kernel s).
Proof. intros Hb Hr. by destruct (sys_reach s0 s (booted_kinv _ Hb) Hr) as (? & ? & _). Qed.

(** C2. No task is lost or scheduled twice: in every state of the running system
    a task is in the ready queue, once, exactly when it is ready, and it is the
    running task exactly when it is marked running; every other task is a zombie
    without children, and every task but [INITPROC] is among the children of
    exactly one task, once. *)
Theorem no_task_lost (s0 s : system A D) (t : nat) (tcb : TaskControlBlock) :
  booted (sys_kernel s0) → rtc sys_step s0 s → tcbs (sys_kernel s) !! t = Some tcb →
  let k := sys_kernel s in
  NoDup (ready_queue k) ∧
  (t ∈ ready_queue k ↔ task_status tcb = Ready) ∧
  (processor k = Some t ↔ task_status tcb = Running) ∧
  (task_status tcb = Ready ∨ task_status tcb = Running ∨ task_status tcb = Zombie ∧ children tcb = []) ∧
  (t ≠ INITPROC → exists! p, ∃ ptcb, tcbs k !! p = Some ptcb ∧ t ∈ children ptcb ∧ NoDup (children ptcb)).
Proof.
  intros Hb Hr Ht. apply kinv_tasks; [|done]. by destruct (sys_reach s0 s (booted_kinv _ Hb) Hr) as (_ & ? & _).
Qed.

(** C36. [waitpid], in every state of the running system, for every state of the
    children of the running task. It returns -1 when no child has the id that is
    waited for, and -2, which makes [sys_waitpid] wait, when such children are
    there and none of them is a zombie; in both cases nothing changes. Otherwise
    the first such child that is a zombie is taken out of the children, and the
    assertion on its reference count holds: nothing refers to it any more,
    neither in the queue, the processor, the children of any task and
    [INITPROC], nor in a local variable of a suspended call. What is left is to
    store the exit code and to free the child; when this returns, the result is
    the id of the child, and the task is gone. *)
Theorem waitpid_exact (s0 s : system A D) (t : nat) (tcb : TaskControlBlock) (want ptr : Z) :
  booted (sys_kernel s0) → sys_pending s0 = ∅ → rtc sys_step s0 s →
  let k := sys_kernel s in
  processor k = Some t → tcbs k !! t = Some tcb →
  let waited c ctcb := tcbs k !! c = Some ctcb ∧ pid_matches want ctcb = true in
  ((∀ c ctcb, c ∈ children tcb → ¬ waited c ctcb) → waitpid want ptr k = Done (-1, k)) ∧
  ((∃ c ctcb, c ∈ children tcb ∧ waited c ctcb) → (∀ c ctcb, c ∈ children tcb → waited c ctcb → task_status ctcb ≠ Zombie) →
     waitpid want ptr k = Done (-2, k)) ∧
  (∀ i c ctcb, children tcb !! i = Some c → waited c ctcb → task_status ctcb = Zombie →
     (∀ j c' ctcb', (j < i)%nat → children tcb !! j = Some c' → waited c' ctcb' → task_status ctcb' ≠ Zombie) →
     let k1 := set_tcbs (<[t := set_children (delete i (children tcb)) tcb]> (tcbs k)) k in
     arc_count k1 (sys_pending s) c = 0%nat ∧
     waitpid want ptr k = reap (MemorySet_token (memory_set tcb)) ptr (Datatypes.S (size (tcbs k1))) c ctcb k1 ∧
     ∀ r k', waitpid want ptr k = Done (r, k') → r = to_signed 64 (pid ctcb) ∧ tcbs k' = delete c (tcbs k1)).
Proof.
  intros Hb Hp0 Hr k Hp Ht waited. destruct (sys_reach s0 s (booted_kinv _ Hb) Hr) as (_ & (Hi & _) & Hpq).
  split_and!.
  - intros Hno. apply (waitpid_none k t tcb); try done. intros c ctcb Hc Hctcb. apply not_true_is_false. intros Hm. by apply (Hno c ctcb).
  - intros (c & ctcb & Hc & Hctcb & Hm) Hno. apply (waitpid_alive k t tcb want ptr Hi Hp Ht c ctcb); try done.
    intros c' x Hc' Hx Hm'. by apply (Hno c' x).
  - intros i c ctcb Hci [Hctcb Hm] Hz Hfirst k1.
    destruct (waitpid_reaps k t tcb want ptr Hi Hp Ht i c ctcb) as [Hs E]; try done. { intros j c' x ? ? ? ?. by apply (Hfirst j c' x). }
    assert (a_tasks (view k) !! t = Some (pv tcb)) as Hvt by (simpl; by rewrite lookup_fmap, Ht).
    assert (a_tasks (view k) !! c = Some (pv ctcb)) as Hvc by (simpl; by rewrite lookup_fmap, Hctcb).
    destruct (ti_child _ (proj1 Hi) t (pv tcb) c Hvt ltac:(by eapply list_elem_of_lookup_2)) as (_ & Hne & _). split_and!.
    + rewrite arc_count_suspended; [exact Hs|]. apply eq_None_not_Some. intros Hx.
      assert (c ∈ a_queue (view k)) as Hq. { apply (Hpq ltac:(intros x Hx'; rewrite Hp0, lookup_empty in Hx'; by destruct Hx') c Hx). }
      apply (si_queue _ (proj2 Hi)) in Hq as (v & Hv & Hsv). pose proof (eq_trans (eq_sym Hv) Hvc) as Hv'. injection Hv' as ->.
      simpl in Hsv. congruence.
    + exact E.
    + intros r k' Er. rewrite E in Er. eapply (reap_Done k t tcb ptr i c ctcb); try done. exact (si_zombie _ (proj2 Hi) c _ Hvc Hz).
Qed.

End traps.

(** ** Witnesses

    On the machine of ProcessTree.v and the volume of Vfs.v: the first task
    forks by a system call and is preempted by the timer; its child runs into a
    page fault and is a zombie then. *)

Definition wit_s0 : system StackFrameAllocator (gmap Z (list Z)) :=
  mkSystem wit_k0 wit_volume ∅ ∅ ∅ 0 [] 0.

Abbreviation wit_trap c s := (trap_handler wit_pf wit_fs (λ _, 0) 100 0 c s).

Definition wit_s1 := final wit_s0 (idle_turn (λ _, 0) wit_s0).
(** The user program puts the number of the call into [a7]. *)
Definition wit_s2 :=
  let k := sys_kernel wit_s1 in
  let ppn := default 0 (trap_cx_ppn <$> tcbs k !! 0%nat) in
  user_code (wr (mem (k_mm k)) ppn (TC_X 17) SYSCALL_FORK) 1000 wit_s1.
Definition wit_s3 := final wit_s2 (wit_trap UserEnvCall wit_s2).
Definition wit_s4 := final wit_s3 (wit_trap SupervisorTimer wit_s3).
Definition wit_s5 := final wit_s4 (idle_turn (λ _, 0) wit_s4).
Definition wit_s6 := final wit_s5 (wit_trap StorePageFault wit_s5).

Lemma wit_sys_trap c s :
  ids_left (sys_kernel s) → finishes (wit_trap c s) = true →
  sys_step wit_pf wit_fs (λ _, 0) 100 0 s (final s (wit_trap c s)).
Proof. intros Hid Hf. by apply (sys_step_trap _ _ _ _ _ c), finishes_unit. Qed.

Lemma wit_sys_idle s :
  processor (sys_kernel s) = None → finishes (idle_turn (λ _, 0) s) = true →
  sys_step wit_pf wit_fs (λ _, 0) 100 0 s (final s (idle_turn (λ _, 0) s)).
Proof. intros Hp Hf. by apply sys_step_idle, finishes_unit. Qed.

Lemma wit_sys_reach : rtc (sys_step wit_pf wit_fs (λ _, 0) 100 0) wit_s0 wit_s6.
Proof.
  apply (rtc_l _ _ wit_s1); [unfold wit_s1; apply wit_sys_idle; vm_compute; reflexivity|].
  apply (rtc_l _ _ wit_s2); [apply sys_step_user|].
  apply (rtc_l _ _ wit_s3); [unfold wit_s3; apply wit_sys_trap; vm_compute; reflexivity|].
  apply (rtc_l _ _ wit_s4); [unfold wit_s4; apply wit_sys_trap; vm_compute; reflexivity|].
  apply (rtc_l _ _ wit_s5); [unfold wit_s5; apply wit_sys_idle; vm_compute; reflexivity|].
  apply (rtc_l _ _ wit_s6); [unfold wit_s6; apply wit_sys_trap; vm_compute; reflexivity|].
  apply rtc_refl.
Qed.

Lemma system_refines_process_machine_witness :
  kinv (sys_kernel wit_s6) ∧
  (task_status <$> tcbs (sys_kernel wit_s6) !! 0%nat) = Some Ready ∧
  (task_status <$> tcbs (sys_kernel wit_s6) !! 1%nat) = Some Zombie.
Proof.
  split; [|split; vm_compute; reflexivity].
  apply (system_refines_process_machine wit_pf wit_fs (λ _, 0) 100 0 wit_s0 wit_s6); [apply wit_booted|apply wit_sys_reach].
Defined.

Lemma no_task_lost_witness :
  ∃ tcb, tcbs (sys_kernel wit_s6) !! 1%nat = Some tcb ∧ (1%nat ∉ ready_queue (sys_kernel wit_s6)) ∧ children tcb = [].
Proof.
  assert (task_status <$> tcbs (sys_kernel wit_s6) !! 1%nat = Some Zombie) as Hz by (vm_compute; reflexivity).
  apply fmap_Some in Hz as (tcb & Ht & Hz). symmetry in Hz.
  destruct (no_task_lost wit_pf wit_fs (λ _, 0) 100 0 wit_s0 wit_s6 1 tcb wit_booted wit_sys_reach Ht) as (_ & Hq & _ & Hs & _).
  exists tcb. split; [exact Ht|]. split.
  - intros Hin%Hq. rewrite Hz in Hin. discriminate Hin.
  - destruct Hs as [Hs|[Hs|[_ Hs]]]; [rewrite Hz in Hs; discriminate Hs..|exact Hs].
Defined.

(** The first task runs again, and waits for its child. *)
Definition wit_s7 := final wit_s6 (idle_turn (λ _, 0) wit_s6).

Lemma waitpid_exact_witness :
  ∃ tcb k', tcbs (sys_kernel wit_s7) !! 0%nat = Some tcb ∧ children tcb = [1%nat] ∧
    waitpid (-1) 0 (sys_kernel wit_s7) = Done (2, k') ∧ tcbs k' !! 1%nat = None.
Proof.
  assert (processor (sys_kernel wit_s7) = Some 0%nat ∧ (children <$> tcbs (sys_kernel wit_s7) !! 0%nat) = Some [1%nat] ∧
    ((λ x, (task_status x, pid x)) <$> tcbs (sys_kernel wit_s7) !! 1%nat) = Some (Zombie, 2) ∧
    finishes (waitpid (-1) 0 (sys_kernel wit_s7)) = true) as (Hp & Ht & Hc & Hf) by (vm_compute; by split_and!).
  assert (rtc (sys_step wit_pf wit_fs (λ _, 0) 100 0) wit_s0 wit_s7) as Hr.
  { eapply rtc_r; [exact wit_sys_reach|]. unfold wit_s7. apply wit_sys_idle; vm_compute; reflexivity. }
  assert (sys_pending wit_s0 = ∅) as H0 by reflexivity. revert Hp Ht Hc Hf Hr. generalize wit_s7. intros s Hp Ht Hc Hf Hr.
  apply fmap_Some in Ht as (tcb & Ht & Hch). apply fmap_Some in Hc as (ctcb & Hc & Hs). injection Hs as Hz Hpid.
  destruct (waitpid_exact wit_pf wit_fs (λ _, 0) 100 0 wit_s0 s 0 tcb (-1) 0 wit_booted H0 Hr Hp Ht) as (_ & _ & Hw).
  destruct (Hw 0%nat 1%nat ctcb) as (_ & _ & Hend); [by rewrite <- Hch|by split|by symmetry|intros; lia|].
  apply finishes_any in Hf as [r E]. destruct (Hend _ _ E) as [-> Htcbs]. rewrite <- Hpid in E.
  exists tcb, (final (sys_kernel s) (waitpid (-1) 0 (sys_kernel s))). split_and!; [exact Ht|by symmetry|exact E|].
  rewrite Htcbs. apply lookup_delete_eq.
Defined.
