(* ===== verification/FileIO.v ===== *)
(** * Reading and writing files from user programs

    [sys_read] and [sys_write] on a descriptor of a regular file, from the user
    pointer to the disk: the user buffer is translated page by page (UserBuffer.v),
    every part goes through [OSInode] (Inode.v) to the file (VfsWrite.v), its
    cluster chain (FatFile.v, Fat.v) and the block caches (BlockCache.v). *)

From S2P Require Import Prelude Address PhysMem FrameAllocator PageTable UserBuffer MemorySet.
From S2P Require Import TaskId FdTable Trap Pipe Process UserMap.
From S2P Require Import BlockCache Fat Dirent FatFile Vfs VfsWrite Inode Syscall.

(** ** Storing bytes *)

Lemma store_all_nil m l : store_all m l [] = m.
Proof. by destruct l. Qed.

Lemma store_all_app m l1 l2 b1 b2 :
  length b1 = length l1 → store_all m (l1 ++ l2) (b1 ++ b2) = store_all (store_all m l1 b1) l2 b2.
Proof.
  revert m b1. induction l1 as [|a l1 IH]; intros m [|b b1] Hl; simpl in *; try done.
  apply IH. lia.
Qed.

Lemma store_all_short m l1 l2 b1 : (length b1 ≤ length l1)%nat → store_all m (l1 ++ l2) b1 = store_all m l1 b1.
Proof.
  revert m b1. induction l1 as [|a l1 IH]; intros m [|b b1] Hl; simpl in *; try done; [apply store_all_nil|lia|].
  apply IH. lia.
Qed.

Lemma wr_bytes_store m base n bs :
  Z.of_nat (length bs) ≤ n → wr_bytes m base bs = store_all m (zrange base (base + n)) bs.
Proof.
  revert m base n. induction bs as [|b bs IH]; intros m base n Hn; simpl in *; [by rewrite store_all_nil|].
  rewrite zrange_cons by lia. simpl. rewrite (IH _ _ (n - 1)) by lia. f_equal. f_equal. lia.
Qed.

(** What was stored at distinct addresses is there. *)
Lemma store_all_other m l bs a : Forall (λ x, 0 ≤ x) l → 0 ≤ a → Forall is_byte bs → a ∉ l → rd_pa (store_all m l bs) a = rd_pa m a.
Proof.
  intros Hl Ha Hbs Hn. revert m bs Hbs. induction Hl as [|x l Hx Hl IH]; intros m bs Hbs; [by destruct bs|].
  destruct bs as [|b bs]; [done|]. apply Forall_cons in Hbs as [Hb Hbs]. apply not_elem_of_cons in Hn as [Hax Hn].
  simpl. rewrite IH by done. rewrite rd_pa_wr_pa by done. by rewrite decide_False by done.
Qed.

Lemma store_all_read m l bs :
  NoDup l → Forall (λ x, 0 ≤ x) l → Forall is_byte bs → length bs = length l → rd_pa (store_all m l bs) <$> l = bs.
Proof.
  intros Hnd Hl Hbs. revert m bs Hbs Hl. induction Hnd as [|x l Hn Hnd IH]; intros m [|b bs] Hbs Hl Hlen; try done.
  apply Forall_cons in Hbs as [Hb Hbs]. apply Forall_cons in Hl as [Hx Hl]. simpl in *. f_equal; [|apply IH; [done|done|lia]].
  rewrite store_all_other by done. rewrite rd_pa_wr_pa by done. by rewrite decide_True.
Qed.

Lemma length_sref_addrs sl : 0 ≤ sl_len sl → length (sref_addrs sl) = Z.to_nat (sl_len sl).
Proof. intros Hl. unfold sref_addrs. rewrite length_zrange. f_equal. lia. Qed.

(** The addresses of a list of slices. *)
Definition addrs_of (sls : list slice_ref) : list Z := concat (sref_addrs <$> sls).

Lemma splice_append {X} o (b1 b2 l y : list X) :
  (o + length b1 ≤ length l)%nat →
  splice (o + length b1) b2 (splice o b1 l ++ y) = splice o (b1 ++ b2) (l ++ y).
Proof.
  intros Hl. unfold splice. rewrite <- !app_assoc.
  replace (take (o + length b1) (take o l ++ b1 ++ drop (o + length b1) l ++ y)) with (take o l ++ b1).
  2:{ rewrite take_app_ge by (rewrite length_take; lia). rewrite length_take, Nat.min_l by lia.
      replace (o + length b1 - o)%nat with (length b1) by lia. by rewrite take_app_length. }
  rewrite <- app_assoc, take_app_le by lia. do 3 f_equal. rewrite length_app.
  rewrite drop_app_ge by (rewrite length_take; lia). rewrite length_take, Nat.min_l by lia.
  rewrite drop_app_ge by lia.
  replace (o + length b1 + length b2 - o - length b1)%nat with (length b2) by lia.
  replace (o + (length b1 + length b2))%nat with (o + length b1 + length b2)%nat by lia.
  rewrite <- (drop_drop (l ++ y)). f_equal. by rewrite drop_app_le by lia.
Qed.

Section io.
Context {A : Type} `{FrameAllocator A} {D : Type} `{BlockDeviceLaws D}.
Context (R : Z → bool) (fs : FAT32Manager) (HF : fs_layout R fs) (getchar : nat → Z).
Implicit Types (V : Z → list Z) (E : Z → Z) (l : list Z) (s : system A D).

Abbreviation memory s := (mem (k_mm (sys_kernel s))).

(** The system with other memory, another disk and other open files. *)
Definition kernel_with_mem (m : pmem) (k : kernel A) : kernel A :=
  mkKernel (mkMM (frame_allocator (k_mm k)) m) (kernel_space k) (kstack_allocator k) (pid_allocator k)
    (tcbs k) (ready_queue k) (processor k) (k_time k).
Definition updated s (m : pmem) (vol : volume D) (ino : gmap nat OSInode) : system A D :=
  mkSystem (kernel_with_mem m (sys_kernel s)) vol ino (sys_rings s) (sys_pending s) (sys_keys s) (sys_output s) (sys_timer s).

Lemma updated_same s : updated s (memory s) (sys_volume s) (sys_inodes s) = s.
Proof. by destruct s as [[[] ] ]. Qed.

Lemma get_inode_ok s a i : sys_inodes s !! a = Some i → get_inode a s = Done (i, s).
Proof. intros Hi. unfold get_inode. erewrite bind_step; [|reflexivity]. by rewrite Hi. Qed.

Lemma on_volume_ok {X} s (m : ST (volume D) X) Q :
  wp m (sys_volume s) Q →
  wp (on_volume m) s (λ x s', ∃ v, Q x v ∧ s' = updated s (memory s) v (sys_inodes s)).
Proof. intros (x & v & E & HQ). apply wp_zoom. exists x, v. split; [done|]. exists v. split; [done|]. by destruct s as [[[] ] ]. Qed.

Section file.
Context (root : ShortDirEntry) (a : nat) (r w : bool) (v : VFile).

(** ** [OSInode::read] *)

Section read.
Context (V : Z → list Z) (E : Z → Z) (e : ShortDirEntry) (l : list Z).
Context (HE : fat_rep V (fat fs) E) (Hreg : regular R fs V root E v e l).

(** The bytes that a read of [len] at [off] gives. *)
Definition left_in (off len : Z) : Z := Z.min len (Z.max 0 (ent_size e - off)).
Definition bytes_at (off len : Z) : list Z := slice (Z.to_nat off) (Z.to_nat (left_in off len)) (content V fs l).

Lemma length_bytes_at K (d : disk D) off len :
  disk_rep R V K d → 0 ≤ off → 0 ≤ len → Z.of_nat (length (bytes_at off len)) = left_in off len.
Proof.
  intros Hd Hoff Hlen. pose proof (length_content R fs V K d l Hd) as Hc.
  pose proof (st_end _ _ _ _ _ (rg_stored _ _ _ _ _ _ _ _ Hreg)) as Hfe. unfold file_end in Hfe.
  rewrite (rg_file _ _ _ _ _ _ _ _ Hreg) in Hfe. unfold bytes_at, left_in.
  destruct (decide (off < ent_size e)).
  - rewrite length_slice by lia. lia.
  - replace (Z.to_nat (Z.min len (Z.max 0 (ent_size e - off)))) with 0%nat by lia. unfold slice. rewrite take_0. simpl. lia.
Qed.

Lemma bytes_at_app off k n :
  0 ≤ off → 0 ≤ k → 0 ≤ n → left_in off k = k → bytes_at off (k + n) = bytes_at off k ++ bytes_at (off + k) n.
Proof.
  intros Hoff Hk Hn Hl. unfold bytes_at, left_in in *. unfold slice.
  destruct (decide (k = 0)) as [->|]; [by rewrite Z.add_0_r, Z.add_0_l, Hl|].
  replace (Z.to_nat (Z.min (k + n) (Z.max 0 (ent_size e - off))))
    with (Z.to_nat k + Z.to_nat (Z.min n (Z.max 0 (ent_size e - (off + k)))))%nat by lia.
  rewrite Hl, Z2Nat.inj_add, <- drop_drop, <- take_take_drop by lia. done.
Qed.

(** One slice and the rest. *)
Lemma store_bytes_step K (d : disk D) m sl sls off :
  disk_rep R V K d → 0 ≤ off → 0 < sl_len sl →
  let n := Z.of_nat (length (addrs_of sls)) in let k := left_in off (sl_len sl) in
  store_all (store_all m (sref_addrs sl) (bytes_at off (sl_len sl))) (addrs_of sls) (bytes_at (off + k) n) =
  store_all m (sref_addrs sl ++ addrs_of sls) (bytes_at off (sl_len sl + n)).
Proof.
  intros Hd Hoff Hl n k. pose proof (length_sref_addrs sl ltac:(lia)) as Hla.
  pose proof (length_bytes_at K d off (sl_len sl) Hd Hoff ltac:(lia)) as Hlk. fold k in Hlk.
  destruct (decide (k = sl_len sl)) as [Hk|Hk].
  - rewrite Hk, bytes_at_app by (fold k; lia). rewrite store_all_app by lia. done.
  - assert (left_in (off + k) n = 0 ∧ left_in off (sl_len sl + n) = k) as [Hz Hk'] by (subst k; unfold left_in in *; lia).
    assert (bytes_at (off + k) n = []) as -> by (unfold bytes_at; rewrite Hz; apply take_0).
    assert (bytes_at off (sl_len sl + n) = bytes_at off (sl_len sl)) as -> by (unfold bytes_at; by rewrite Hk').
    rewrite store_all_nil, store_all_short; [done|]. unfold left_in in k. lia.
Qed.

Lemma read_slices_ok sls : ∀ s off total,
  Forall sref_wf sls → sys_inodes s !! a = Some (mkOSInode r w off v) → vol_rep R V [] root (sys_volume s) →
  let len := Z.of_nat (length (addrs_of sls)) in
  0 ≤ off → 0 ≤ total → off + len < 2 ^ 32 → total + len < 2 ^ 32 →
  wp (for_brk sls total (inode_read_slice fs a)) s (λ x s', ∃ vol,
    match x with inl t => t | inr t => t end = total + left_in off len ∧ vol_rep R V [] root vol ∧
    s' = updated s (store_all (memory s) (addrs_of sls) (bytes_at off len)) vol
           (<[a := mkOSInode r w (off + left_in off len) v]> (sys_inodes s))).
Proof.
  induction sls as [|sl sls IH]; intros s off total Hwf Hi Hv len Hoff Htot Hb1 Hb2.
  { apply wp_ret. exists (sys_volume s). change (Z.of_nat (length (addrs_of []))) with 0 in len. subst len.
    replace (left_in off 0) with 0 by (unfold left_in; lia).
    split_and!; [simpl; lia|done|]. rewrite Z.add_0_r, insert_id by done. simpl. by rewrite updated_same. }
  apply Forall_cons in Hwf as [(Ho & Hl & Hend) Hwf]. unfold addrs_of in len. cbn [fmap list_fmap concat] in len.
  fold (addrs_of sls) in len. set (n := Z.of_nat (length (addrs_of sls))) in *.
  assert (len = sl_len sl + n) as Hlen by (subst len n; rewrite length_app, length_sref_addrs by lia; lia).
  cbn [for_brk]. unfold inode_read_slice at 1.
  apply wp_bind. apply wp_bind. eapply wp_run; [by apply get_inode_ok|]. cbn [os_vfile os_offset].
  apply (wp_step _ _ _ _ _ (on_volume_ok s _ _ (VFile_read_ok R fs HF V [] root (sys_volume s) v E e l off (sl_len sl) Hv HE Hreg
    (usable_nil _) ltac:(simpl; unfold BLOCK_CACHE_SIZE; lia) ltac:(apply not_elem_of_nil) ltac:(lia) ltac:(lia)))).
  intros ? s1 (vol1 & [Hv1 ->] & ->).
  set (k := left_in off (sl_len sl)).
  assert (slice (Z.to_nat off) (Z.to_nat (Z.min (sl_len sl) (ent_size e - off))) (content V fs l) = bytes_at off (sl_len sl)) as ->.
  { unfold bytes_at, left_in. f_equal. lia. }
  pose proof (length_bytes_at [] (vol_disk (sys_volume s)) off (sl_len sl) (proj1 Hv) Hoff ltac:(lia)) as Hlk. fold k in Hlk.
  apply wp_bind. eapply wp_run; [reflexivity|]. rewrite Hlk.
  assert (wr_bytes (memory s) (slice_base sl) (bytes_at off (sl_len sl)) = store_all (memory s) (sref_addrs sl) (bytes_at off (sl_len sl))) as Hst.
  { apply wr_bytes_store. unfold left_in in k. lia. }
  clearbody len. change (addrs_of (sl :: sls)) with (sref_addrs sl ++ addrs_of sls).
  pose proof (length_sref_addrs sl ltac:(lia)) as Hla.
  destruct (Z.eqb_spec k 0) as [Hk0|Hk0].
  - apply wp_ret, wp_ret. exists vol1. assert (left_in off len = 0) as Hz by (subst k; unfold left_in in *; lia).
    assert (bytes_at off len = []) as -> by (unfold bytes_at; rewrite Hz; apply take_0).
    assert (bytes_at off (sl_len sl) = []) as -> by (apply nil_length_inv; lia).
    rewrite Hz, !Z.add_0_r, insert_id by done. rewrite store_all_nil. split_and!; [done|done|]. by destruct s as [[[] ] ].
  - apply wp_bind. apply wp_bind.
    eapply wp_run; [apply get_inode_ok; exact Hi|]. eapply wp_run; [reflexivity|]. apply wp_ret.
    cbn [os_readable os_writable os_vfile].
    assert (0 ≤ k ≤ sl_len sl ∧ off + k ≤ ent_size e) as Hkb by (subst k; unfold left_in in *; lia).
    rewrite !wadd_small by (unfold fits; lia).
    match goal with |- wp _ ?s2 _ => pose proof (IH s2 (off + k) (total + k) Hwf) as IHs end.
    cbn [sys_inodes set_inodes sys_volume sys_kernel] in IHs. rewrite lookup_insert_eq in IHs.
    specialize (IHs eq_refl Hv1 ltac:(lia) ltac:(lia) ltac:(fold n; lia) ltac:(fold n; lia)).
    apply (wp_conseq _ _ _ _ IHs). intros x s' (vol & Hx & Hv' & ->). exists vol.
    assert (left_in off len = k + left_in (off + k) n) as Hk.
    { rewrite Hlen. subst k. unfold left_in in *. lia. }
    split_and!; [fold n in Hx; lia|done|].
    fold n. rewrite insert_insert_eq, Hk, Z.add_assoc. unfold updated, kernel_with_mem; cbn. f_equal. f_equal. f_equal.
    rewrite Hst, Hlen. by apply (store_bytes_step [] (vol_disk (sys_volume s))); [apply Hv|..].
Qed.

Lemma OSInode_read_ok s off sls :
  Forall sref_wf sls → sys_inodes s !! a = Some (mkOSInode r w off v) → vol_rep R V [] root (sys_volume s) →
  let len := Z.of_nat (length (addrs_of sls)) in
  0 ≤ off → off + len < 2 ^ 32 →
  wp (OSInode_read fs a (mkUserBuffer sls)) s (λ x s', ∃ vol,
    x = left_in off len ∧ vol_rep R V [] root vol ∧
    s' = updated s (store_all (memory s) (addrs_of sls) (bytes_at off len)) vol
           (<[a := mkOSInode r w (off + left_in off len) v]> (sys_inodes s))).
Proof.
  intros Hwf Hi Hv len Hoff Hb. unfold OSInode_read.
  apply (wp_step _ _ _ _ _ (read_slices_ok sls s off 0 Hwf Hi Hv Hoff ltac:(lia) Hb ltac:(fold len; lia))).
  intros [t|t] s' (vol & -> & Hv' & ->); apply wp_ret; exists vol; by split_and!.
Qed.

(** ** [read_all] *)

Lemma read_all_ok s :
  sys_inodes s !! a = Some (mkOSInode r w 0 v) → vol_rep R V [] root (sys_volume s) →
  wp (read_all fs a) s (λ x s', ∃ vol, x = take (Z.to_nat (ent_size e)) (content V fs l) ∧ vol_rep R V [] root vol ∧
    s' = updated s (memory s) vol (<[a := mkOSInode r w (ent_size e) v]> (sys_inodes s))).
Proof.
  intros Hi Hv. pose proof (rg_stored _ _ _ _ _ _ _ _ Hreg) as Hst. pose proof (st_end _ _ _ _ _ Hst) as Hfe.
  unfold file_end in Hfe. rewrite (rg_file _ _ _ _ _ _ _ _ Hreg) in Hfe.
  assert (0 ≤ ent_size e < 2 ^ 32) as Hsz by (pose proof (st_small _ _ _ _ _ Hst); lia).
  apply (wp_loop _ (λ n acc s', ∃ off vol, 0 ≤ off ≤ ent_size e ∧ n = Z.to_nat ((ent_size e - off + 511) / 512) ∧
    acc = take (Z.to_nat off) (content V fs l) ∧ vol_rep R V [] root vol ∧
    s' = updated s (memory s) vol (<[a := mkOSInode r w off v]> (sys_inodes s)))) with (n := Z.to_nat ((ent_size e + 511) / 512)).
  - intros n acc s' (off & vol & Hoff & -> & -> & Hvol & ->). unfold read_all_body.
    set (s1 := updated _ _ _ _). assert (sys_inodes s1 !! a = Some (mkOSInode r w off v)) as Hi1 by (simpl; by rewrite lookup_insert_eq).
    apply wp_bind. eapply wp_run; [by apply get_inode_ok|]. cbn [os_vfile os_offset].
    apply (wp_step _ _ _ _ _ (on_volume_ok s1 _ _ (VFile_read_ok R fs HF V [] root (sys_volume s1) v E e l off 512 Hvol HE Hreg
      (usable_nil _) ltac:(simpl; unfold BLOCK_CACHE_SIZE; lia) ltac:(apply not_elem_of_nil) ltac:(lia) ltac:(lia)))).
    intros ? s2 (vol2 & [Hv2 ->] & ->). set (k := Z.min 512 (ent_size e - off)).
    assert (Z.of_nat (length (slice (Z.to_nat off) (Z.to_nat k) (content V fs l))) = k) as ->.
    { pose proof (length_content R fs V [] _ l (proj1 Hv)). rewrite length_slice; lia. }
    destruct (Z.eqb_spec k 0) as [Hk|Hk].
    + apply wp_ret. exists vol2. replace (ent_size e) with off by lia. by split_and!.
    + apply wp_bind. apply wp_bind. eapply wp_run; [by apply get_inode_ok|]. eapply wp_run; [reflexivity|]. apply wp_ret.
      rewrite wadd_small by (unfold fits; lia). cbn [os_readable os_writable os_vfile].
      exists (Z.to_nat ((ent_size e - (off + k) + 511) / 512)). split; [zlia|]. exists (off + k), vol2. split_and!; [lia|lia|done| |done|].
      * unfold slice. rewrite take_take_drop. f_equal. lia.
      * unfold s1, updated, set_inodes; cbn. by rewrite insert_insert_eq.
  - exists 0, (sys_volume s). rewrite insert_id, updated_same by done. split_and!; try done; [lia|]. by rewrite Z.sub_0_r.
  - assert ((ent_size e + 511) / 512 ≤ n_entry (fat fs) * bytes_per_cluster fs / 512) as Hbound; [|lia].
    pose proof (fsl_bpc _ _ HF) as Hbpc. pose proof (fsl_spc _ _ HF). pose proof (fl_small _ _ (fsl_fat _ _ HF)).
    replace (n_entry (fat fs) * bytes_per_cluster fs / 512) with (n_entry (fat fs) * sectors_per_cluster fs)
      by (rewrite Hbpc, (Z.mul_comm 512), Z.mul_assoc, Z.div_mul by lia; done).
    assert ((ent_size e + 511) / 512 ≤ Z.of_nat (length (sectors fs l))) by (unfold capacity in Hfe; zlia).
    rewrite (length_sectors fs) in *. assert (Z.of_nat (length l) ≤ n_entry (fat fs)); [|nia].
    destruct (st_chain _ _ _ _ _ Hst) as [Hl|(-> & _)]; [|simpl; lia]. pose proof (chain_length _ _ _ _ Hl). unfold fat_fuel in *. lia.
Qed.

End read.

(** ** [OSInode::write] *)

(** The file [v], with entry [e] and clusters [l], becomes the file with entry
    [e'] and clusters [l ++ l2] when [buf] is written at [off]. *)
Record written V E (e : ShortDirEntry) l (off : Z) (buf : list Z) l2 V' E' (e' : ShortDirEntry) : Prop := {
  wt_fat : fat_rep V' (fat fs) E';
  wt_file : regular R fs V' root E' v e' (l ++ l2);
  wt_size : ent_size e' = Z.max (ent_size e) (off + Z.of_nat (length buf));
  wt_content : content V' fs (l ++ l2) =
    splice (Z.to_nat off) buf (content V fs l ++ replicate (Z.to_nat (capacity fs l2)) 0);
  wt_frame b : ¬ meta_block fs b → b ≠ short_sector v → b ∉ sectors fs (l ++ l2) → V' b = V b;
  wt_entry : V' (short_sector v) = put_entry V v e' (short_sector v);
  wt_table x : x ∉ l → x ∉ l2 → E' x = E x;
}.

Lemma written_app V E e l off b1 b2 l2a l2b V1 E1 e1 V2 E2 e2 :
  (∃ vol : volume D, vol_rep R V [] root vol) → (∃ vol : volume D, vol_rep R V1 [] root vol) →
  (∃ vol : volume D, vol_rep R V2 [] root vol) → located R V root v e → 0 ≤ off →
  written V E e l off b1 l2a V1 E1 e1 → written V1 E1 e1 (l ++ l2a) (off + Z.of_nat (length b1)) b2 l2b V2 E2 e2 →
  written V E e l off (b1 ++ b2) (l2a ++ l2b) V2 E2 e2.
Proof.
  intros [s0 Hs0] [s1 Hs1] [s2 Hs2] Hloc Hoff [F1 G1 S1 C1 P1 N1 T1] [F2 G2 S2 C2 P2 N2 T2]. rewrite <- app_assoc in *.
  constructor; try done.
  - rewrite length_app. lia.
  - replace (Z.to_nat (capacity fs (l2a ++ l2b))) with (Z.to_nat (capacity fs l2a) + Z.to_nat (capacity fs l2b))%nat
      by (rewrite capacity_app; unfold capacity; lia).
    rewrite C2, C1, replicate_add, (assoc_L app), Z2Nat.inj_add, Nat2Z.id by lia. apply splice_append.
    pose proof (length_content R fs V1 [] _ (l ++ l2a) (proj1 Hs1)) as Hl1. rewrite C1 in Hl1.
    pose proof (st_end _ _ _ _ _ (rg_stored _ _ _ _ _ _ _ _ G1)) as Hfe. unfold file_end in Hfe.
    rewrite (rg_file _ _ _ _ _ _ _ _ G1), capacity_app in Hfe.
    pose proof (length_content R fs V [] _ l (proj1 Hs0)) as Hl0. rewrite length_app, length_replicate. lia.
  - intros b Hm Hv Hb. rewrite P2, P1; try done. rewrite sectors_app in *. intros Hin. apply Hb.
    rewrite sectors_app. set_solver.
  - rewrite N2. apply (put_entry_twice R V V1 [] root s0 v e e1); try done; [by apply (rg_disk _ _ _ _ _ _ _ _ G1)| |].
    + apply (located_wf R V1 [] root v e1 s1 Hs1); [apply G1|apply G1].
    + apply (located_wf R V2 [] root v e2 s2 Hs2); [apply G2|apply G2].
  - intros x Hx Hx2. rewrite T2, T1; set_solver.
Qed.

Lemma write_slice_ok s V E e l l2 off total sl :
  sref_wf sl → sys_inodes s !! a = Some (mkOSInode r w off v) → vol_rep R V [] root (sys_volume s) →
  fat_rep V (fat fs) E → regular R fs V root E v e l →
  0 ≤ off → 0 ≤ total < 2 ^ 32 → off + sl_len sl + bytes_per_cluster fs < 2 ^ 32 → next_free R fs V E l2 →
  Z.of_nat (length l2) = Z.max 0 (clusters_for fs (off + sl_len sl) - clusters_for fs (ent_size e)) →
  wp (inode_write_slice fs a total sl) s (λ x s', x = total + sl_len sl ∧ ∃ vol V' E' e',
    vol_rep R V' [] root vol ∧ written V E e l off (slice_bytes (memory s) sl) l2 V' E' e' ∧
    (∀ l3, next_free R fs V E (l2 ++ l3) → next_free R fs V' E' l3) ∧
    s' = updated s (memory s) vol (<[a := mkOSInode r w (off + sl_len sl) v]> (sys_inodes s))).
Proof.
  intros (Ho & Hl & Hend) Hi Hv HE Hreg Hoff Htot Hb Hfree Hlen2. pose proof (length_sref_addrs sl ltac:(lia)) as Hla.
  set (buf := slice_bytes (memory s) sl).
  assert (Z.of_nat (length buf) = sl_len sl) as Hlb by (subst buf; unfold slice_bytes; rewrite length_fmap; lia).
  assert (0 < bytes_per_cluster fs) by (rewrite (fsl_bpc _ _ HF); pose proof (fsl_spc _ _ HF); lia).
  unfold inode_write_slice. apply wp_bind. eapply wp_run; [by apply get_inode_ok|]. cbn [os_vfile os_offset].
  apply wp_bind. eapply wp_run; [unfold on_pmem, on_kernel, on_mem, on_mm, zoom; reflexivity|]. fold buf.
  match goal with |- wp _ ?s1 _ => replace s1 with s by (by destruct s as [[[] ] ]) end.
  apply (wp_step _ _ _ _ _ (on_volume_ok s _ _ (VFile_write_ok R fs HF V root (sys_volume s) v E e l l2 off buf Hv HE Hreg
    ltac:(apply Forall_fmap, Forall_true; intros; apply rd_byte_is_byte) ltac:(intros Hz; rewrite Hz in Hlb; simpl in Hlb; lia) Hoff
    ltac:(lia) Hfree ltac:(by rewrite Hlb)))).
  intros ? s1 (vol & (-> & V' & E' & e' & Hv' & HE' & Hreg' & Hsz & Hc & Hfr & Hent & Htab & Hrest) & ->).
  apply (wp_step _ _ _ (λ _ s', s' = updated s (memory s) vol (sys_inodes s)));
    [apply wp_assert; [by rewrite Hlb, Z.eqb_refl|done]|]. intros _ ? ->.
  apply wp_bind, wp_bind. eapply wp_run; [by apply get_inode_ok|]. eapply wp_run; [reflexivity|]. apply wp_ret.
  rewrite Hlb, !wadd_small by (unfold fits; lia). split; [done|]. exists vol, V', E', e'.
  split_and!; [done| |done|done]. by constructor.
Qed.

Lemma write_slices_ok sls : ∀ s V E e l l2 off total,
  Forall sref_wf sls → sys_inodes s !! a = Some (mkOSInode r w off v) → vol_rep R V [] root (sys_volume s) →
  fat_rep V (fat fs) E → regular R fs V root E v e l →
  let buf := rd_pa (memory s) <$> addrs_of sls in let len := Z.of_nat (length buf) in
  sls ≠ [] → 0 ≤ off → 0 ≤ total → off + len + bytes_per_cluster fs < 2 ^ 32 → total + len < 2 ^ 32 → next_free R fs V E l2 →
  Z.of_nat (length l2) = Z.max 0 (clusters_for fs (off + len) - clusters_for fs (ent_size e)) →
  wp (for_fold sls total (inode_write_slice fs a)) s (λ x s', x = total + len ∧ ∃ vol V' E' e',
    vol_rep R V' [] root vol ∧ written V E e l off buf l2 V' E' e' ∧
    s' = updated s (memory s) vol (<[a := mkOSInode r w (off + len) v]> (sys_inodes s))).
Proof.
  induction sls as [|sl sls IH]; intros s V E e l l2 off total Hwf Hi Hv HE Hreg buf len Hne Hoff Htot Hb1 Hb2 Hfree Hlen2; [done|].
  apply Forall_cons in Hwf as [Hsl Hwf]. pose proof Hsl as (Ho & Hl & Hend). pose proof (length_sref_addrs sl ltac:(lia)) as Hla.
  set (b1 := slice_bytes (memory s) sl). set (b2 := rd_pa (memory s) <$> addrs_of sls).
  assert (buf = b1 ++ b2) as Hbuf by (subst buf; unfold addrs_of; cbn [fmap list_fmap concat]; apply fmap_app).
  assert (Z.of_nat (length b1) = sl_len sl) as Hlb1 by (subst b1; unfold slice_bytes; rewrite length_fmap; lia).
  set (n := Z.of_nat (length b2)). assert (len = sl_len sl + n) as Hlen by (subst len; rewrite Hbuf, length_app; lia).
  pose proof (st_end _ _ _ _ _ (rg_stored _ _ _ _ _ _ _ _ Hreg)) as Hfe. unfold file_end in Hfe.
  rewrite (rg_file _ _ _ _ _ _ _ _ Hreg) in Hfe.
  assert (0 < bytes_per_cluster fs) by (rewrite (fsl_bpc _ _ HF); pose proof (fsl_spc _ _ HF); lia).
  pose proof (clusters_for_mono R fs HF (off + sl_len sl) (off + len) ltac:(lia)) as Hmono.
  set (n1 := Z.to_nat (Z.max 0 (clusters_for fs (off + sl_len sl) - clusters_for fs (ent_size e)))).
  set (l2a := take n1 l2). set (l2b := drop n1 l2). assert (l2 = l2a ++ l2b) as Hl2 by (symmetry; apply take_drop).
  assert (length l2a = n1) as Hl2a by (subst l2a; rewrite length_take; lia).
  assert (length l2b = (length l2 - n1)%nat) as Hl2b by apply length_drop.
  assert (0 ≤ n) as Hn0 by (subst n; lia).
  clearbody l2a l2b len buf. subst buf l2. rewrite length_app in Hlen2. cbn [for_fold].
  apply (wp_step _ _ _ _ _ (write_slice_ok s V E e l l2a off total sl Hsl Hi Hv HE Hreg Hoff ltac:(lia) ltac:(lia)
    ltac:(by eapply next_free_prefix) ltac:(lia))).
  intros ? s1 (-> & vol & V1 & E1 & e1 & Hv1 & Hw1 & Hrest & ->). specialize (Hrest _ Hfree).
  assert (∃ vol0 : volume D, vol_rep R V [] root vol0) as Hex by eauto.
  assert (∃ vol0 : volume D, vol_rep R V1 [] root vol0) as Hex1 by eauto.
  destruct (decide (sls = [])) as [Hnil|Hne'].
  { subst sls. apply wp_ret. change n with 0 in Hlen. rewrite Z.add_0_r in Hlen. subst len.
    assert (l2b = []) as -> by (apply nil_length_inv; lia).
    change b2 with (@nil Z). rewrite !app_nil_r. split; [done|]. by exists vol, V1, E1, e1. }
  pose proof (wt_size _ _ _ _ _ _ _ _ _ _ Hw1) as Hsz. fold b1 in Hsz. rewrite Hlb1 in Hsz.
  assert (clusters_for fs (ent_size e1) = Z.max (clusters_for fs (ent_size e)) (clusters_for fs (off + sl_len sl))) as Hcl1.
  { rewrite Hsz. destruct (Z.max_spec (ent_size e) (off + sl_len sl)) as [[? ->]|[? ->]].
    - pose proof (clusters_for_mono R fs HF (ent_size e) (off + sl_len sl) ltac:(lia)). lia.
    - pose proof (clusters_for_mono R fs HF (off + sl_len sl) (ent_size e) ltac:(lia)). lia. }
  set (s1 := updated _ _ _ _). assert (sys_inodes s1 !! a = Some (mkOSInode r w (off + sl_len sl) v)) as Hi1
    by (simpl; by rewrite lookup_insert_eq).
  pose proof (IH s1 V1 E1 e1 (l ++ l2a) l2b (off + sl_len sl) (total + sl_len sl) Hwf Hi1 Hv1
    (wt_fat _ _ _ _ _ _ _ _ _ _ Hw1) (wt_file _ _ _ _ _ _ _ _ _ _ Hw1) Hne') as IHs.
  change (memory s1) with (memory s) in IHs. cbv zeta in IHs. fold b2 n in IHs.
  replace (off + sl_len sl + n) with (off + len) in IHs by lia.
  specialize (IHs ltac:(lia) ltac:(lia) ltac:(lia) ltac:(lia) Hrest ltac:(lia)).
  apply (wp_conseq _ _ _ _ IHs). intros x s' (-> & vol2 & V2 & E2 & e2 & Hv2 & Hw2 & ->). split; [lia|].
  exists vol2, V2, E2, e2. split; [done|]. split.
  - apply (written_app V E e l off b1 b2 l2a l2b V1 E1 e1); [done|done|by exists vol2|apply Hreg|done|done|by rewrite Hlb1].
  - unfold s1, updated; cbn. by rewrite insert_insert_eq.
Qed.

Lemma OSInode_write_ok sls s V E e l l2 off :
  Forall sref_wf sls → sys_inodes s !! a = Some (mkOSInode r w off v) → vol_rep R V [] root (sys_volume s) →
  fat_rep V (fat fs) E → regular R fs V root E v e l →
  let buf := rd_pa (memory s) <$> addrs_of sls in let len := Z.of_nat (length buf) in
  0 < len → 0 ≤ off → off + len + bytes_per_cluster fs < 2 ^ 32 → next_free R fs V E l2 →
  Z.of_nat (length l2) = Z.max 0 (clusters_for fs (off + len) - clusters_for fs (ent_size e)) →
  wp (OSInode_write fs a (mkUserBuffer sls)) s (λ x s', x = len ∧ ∃ vol V' E' e',
    vol_rep R V' [] root vol ∧ written V E e l off buf l2 V' E' e' ∧
    s' = updated s (memory s) vol (<[a := mkOSInode r w (off + len) v]> (sys_inodes s))).
Proof.
  intros Hwf Hi Hv HE Hreg buf len Hlen Hoff Hb Hfree Hl2.
  assert (0 < bytes_per_cluster fs) by (rewrite (fsl_bpc _ _ HF); pose proof (fsl_spc _ _ HF); lia).
  apply (write_slices_ok sls s V E e l l2 off 0); try done; [|fold buf len; lia].
  intros ->. by change len with 0 in Hlen.
Qed.

(** What was written is there. *)
Lemma written_bytes V E e l off buf l2 V' E' e' :
  (∃ vol : volume D, vol_rep R V [] root vol) → (∃ vol : volume D, vol_rep R V' [] root vol) → 0 ≤ off →
  written V E e l off buf l2 V' E' e' → bytes_at V' e' (l ++ l2) off (Z.of_nat (length buf)) = buf.
Proof.
  intros [s0 Hs0] [s1 Hs1] Hoff Hw. pose proof (wt_size _ _ _ _ _ _ _ _ _ _ Hw) as Hsz. unfold bytes_at, left_in.
  replace (Z.to_nat (Z.min (Z.of_nat (length buf)) (Z.max 0 (ent_size e' - off)))) with (length buf) by lia.
  rewrite (wt_content _ _ _ _ _ _ _ _ _ _ Hw). apply slice_splice_eq.
  pose proof (length_content R fs V' [] _ (l ++ l2) (proj1 Hs1)) as Hlc.
  pose proof (wt_file _ _ _ _ _ _ _ _ _ _ Hw) as Hreg'.
  pose proof (st_end _ _ _ _ _ (rg_stored _ _ _ _ _ _ _ _ Hreg')) as Hfe. unfold file_end in Hfe.
  rewrite (rg_file _ _ _ _ _ _ _ _ Hreg') in Hfe. pose proof (length_content R fs V [] _ l (proj1 Hs0)) as Hl0.
  pose proof (capacity_app fs l l2). rewrite length_app, length_replicate. lia.
Qed.

End file.

(** ** The system calls *)

(** Task [t] runs. *)
Definition running s (t : nat) (tcb : TaskControlBlock) : Prop :=
  processor (sys_kernel s) = Some t ∧ tcbs (sys_kernel s) !! t = Some tcb.

(** The user buffer of [len] bytes at [ptr] is at the physical addresses [addrs]. *)
Record user_range (m : pmem) (tcb : TaskControlBlock) (ptr len : Z) (addrs : list Z) : Prop := {
  ur_ptr : 0 ≤ ptr;
  ur_len : 0 ≤ len;
  ur_end : ptr + len < 2 ^ 38;
  ur_addrs : Some <$> addrs = translate_va m (from_token (MemorySet_token (memory_set tcb))) <$> zrange ptr (ptr + len);
}.

Lemma user_range_length m tcb ptr len addrs : user_range m tcb ptr len addrs → Z.of_nat (length addrs) = len.
Proof.
  intros [? ? ? Ha]. apply (f_equal length) in Ha. rewrite !length_fmap, length_zrange in Ha. lia.
Qed.

Lemma user_range_entries m tcb ptr len addrs :
  user_range m tcb ptr len addrs →
  has_entries m (from_token (MemorySet_token (memory_set tcb))) ptr (ptr + len).
Proof.
  intros [? ? ? Ha] va Hva. assert (va ∈ zrange ptr (ptr + len)) as Hin by (apply elem_of_zrange; lia).
  apply (list_elem_of_fmap_2 (translate_va m (from_token (MemorySet_token (memory_set tcb))))) in Hin. rewrite <- Ha in Hin.
  apply list_elem_of_fmap in Hin as (x & Hx & _). unfold translate_va in Hx. unfold translate.
  destruct (find_pte _ _ _) as [[q i]|]; [|done]. eauto.
Qed.

Lemma on_kernel_same {X} (m : ST (kernel A) X) s x :
  m (sys_kernel s) = Done (x, sys_kernel s) → on_kernel m s = Done (x, s).
Proof. intros E. unfold on_kernel, zoom. rewrite E. by destruct s. Qed.

Lemma user_token_ok s t tcb : running s t tcb → user_token s = Done (MemorySet_token (memory_set tcb), s).
Proof.
  intros [Hp Ht]. apply on_kernel_same. unfold current_user_token, current_task, get_tcb.
  erewrite bind_step; [|erewrite bind_step by reflexivity; by rewrite Hp].
  erewrite bind_step; [|erewrite bind_step by reflexivity; by rewrite Ht]. done.
Qed.

Lemma current_inner_ok s t tcb : running s t tcb → current_inner s = Done (tcb, s).
Proof.
  intros [Hp Ht]. apply on_kernel_same. unfold current_task, get_tcb.
  erewrite bind_step; [|erewrite bind_step by reflexivity; by rewrite Hp].
  erewrite bind_step by reflexivity. by rewrite Ht.
Qed.

Lemma user_buffer_ok s tcb ptr len addrs :
  user_range (memory s) tcb ptr len addrs →
  ∃ sls, user_buffer (MemorySet_token (memory_set tcb)) ptr len s = Done (sls, s) ∧ Forall sref_wf sls ∧ addrs_of sls = addrs.
Proof.
  intros Hu. destruct (translated_byte_buffer_ok _ _ _ _ (ur_ptr _ _ _ _ _ Hu) (ur_len _ _ _ _ _ Hu) (ur_end _ _ _ _ _ Hu)
    (user_range_entries _ _ _ _ _ Hu)) as (sls & Er & Hwf & Ha).
  exists sls. split_and!; [|done|].
  - apply on_kernel_same. unfold on_mem, on_mm, zoom. rewrite Er. by destruct s as [[[] ] ].
  - apply (inj (fmap Some)). unfold addrs_of. by rewrite Ha, (ur_addrs _ _ _ _ _ Hu).
Qed.

Lemma index_fd_ok (fds : list (option file)) (fd : nat) o : fds !! fd = Some o → index_fd fds (Z.of_nat fd) = Some o.
Proof.
  intros Hfd. pose proof (lookup_lt_Some _ _ _ Hfd). unfold index_fd.
  rewrite (proj2 (Z.leb_le _ _)), (proj2 (Z.ltb_lt _ _)) by lia. by rewrite Nat2Z.id.
Qed.

(** The checks that [sys_read] and [sys_write] start with. *)
Ltac call_prefix Hrun Hfd Hi :=
  apply wp_bind; eapply wp_run; [exact (user_token_ok _ _ _ Hrun)|];
  apply wp_bind; eapply wp_run; [exact (current_inner_ok _ _ _ Hrun)|];
  pose proof (lookup_lt_Some _ _ _ Hfd); rewrite (proj2 (Z.leb_gt _ _)) by lia;
  rewrite (index_fd_ok _ _ _ Hfd); apply wp_bind; eapply wp_run; [reflexivity|];
  apply wp_bind; eapply wp_run;
    [unfold readable, writable; erewrite bind_step by (exact (get_inode_ok _ _ _ Hi)); reflexivity|];
  cbn [negb os_readable os_writable].

Section calls.
Context (root : ShortDirEntry) (v : VFile) (t : nat) (tcb : TaskControlBlock).

Lemma sys_read_ok s V E e l a w off (fd : nat) ptr len addrs :
  running s t tcb → fd_table tcb !! fd = Some (Some (FInode a)) →
  sys_inodes s !! a = Some (mkOSInode true w off v) → vol_rep R V [] root (sys_volume s) →
  fat_rep V (fat fs) E → regular R fs V root E v e l →
  user_range (memory s) tcb ptr len addrs → 0 ≤ off → off + len < 2 ^ 32 →
  wp (sys_read fs getchar (Z.of_nat fd) ptr len) s (λ x s', ∃ vol,
    x = Returned (left_in e off len) ∧ vol_rep R V [] root vol ∧
    s' = updated s (store_all (memory s) addrs (bytes_at V e l off len)) vol
           (<[a := mkOSInode true w (off + left_in e off len) v]> (sys_inodes s))).
Proof.
  intros Hrun Hfd Hi Hv HE Hreg Hu Hoff Hb. unfold sys_read. pose proof (user_range_length _ _ _ _ _ Hu) as Hla.
  call_prefix Hrun Hfd Hi. destruct (user_buffer_ok _ _ _ _ _ Hu) as (sls & Eb & Hwf & Ha).
  apply wp_bind. eapply wp_run; [exact Eb|].
  pose proof (OSInode_read_ok root a true w v V E e l HE Hreg s off sls Hwf Hi Hv) as Hr. cbv zeta in Hr. rewrite Ha, Hla in Hr.
  apply (wp_step _ _ _ _ _ (Hr Hoff Hb)). intros x s' (vol & -> & Hv' & ->). apply wp_ret. by exists vol.
Qed.

Lemma sys_write_ok s V E e l l2 a r off (fd : nat) ptr len addrs :
  running s t tcb → fd_table tcb !! fd = Some (Some (FInode a)) →
  sys_inodes s !! a = Some (mkOSInode r true off v) → vol_rep R V [] root (sys_volume s) →
  fat_rep V (fat fs) E → regular R fs V root E v e l →
  user_range (memory s) tcb ptr len addrs → 0 < len → 0 ≤ off → off + len + bytes_per_cluster fs < 2 ^ 32 →
  next_free R fs V E l2 →
  Z.of_nat (length l2) = Z.max 0 (clusters_for fs (off + len) - clusters_for fs (ent_size e)) →
  wp (sys_write fs (Z.of_nat fd) ptr len) s (λ x s', x = Returned len ∧ ∃ vol V' E' e',
    vol_rep R V' [] root vol ∧ written root v V E e l off (rd_pa (memory s) <$> addrs) l2 V' E' e' ∧
    s' = updated s (memory s) vol (<[a := mkOSInode r true (off + len) v]> (sys_inodes s))).
Proof.
  intros Hrun Hfd Hi Hv HE Hreg Hu Hlen Hoff Hb Hfree Hl2. unfold sys_write. pose proof (user_range_length _ _ _ _ _ Hu) as Hla.
  call_prefix Hrun Hfd Hi. destruct (user_buffer_ok _ _ _ _ _ Hu) as (sls & Eb & Hwf & Ha).
  apply wp_bind. eapply wp_run; [exact Eb|].
  pose proof (OSInode_write_ok root a r true v sls s V E e l l2 off Hwf Hi Hv HE Hreg) as Hr.
  cbv zeta in Hr. rewrite Ha, length_fmap, Hla in Hr.
  apply (wp_step _ _ _ _ _ (Hr Hlen Hoff Hb Hfree Hl2)). intros x s' (-> & Hx). by apply wp_ret.
Qed.

(** A descriptor that is not open for the direction of the call. *)
Definition refused (s : system A D) (dir : OSInode → bool) (pdir : Pipe → bool) (std : file) (fd : nat) : Prop :=
  match fd_table tcb !! fd with
  | None => True
  | Some None => True
  | Some (Some (FInode a)) => ∃ i, sys_inodes s !! a = Some i ∧ dir i = false
  | Some (Some (FPipe p _)) => pdir p = false
  | Some (Some f) => f = std
  end.

(** ** Properties *)

(** C7. What a program writes to a file is what is read back. [sys_write] on a
    descriptor of a regular file, followed by [sys_read] of the same length on
    another descriptor of the file at the same offset, both return the length,
    and the bytes at the addresses of the second buffer are the bytes that were
    at the addresses of the first; this holds for buffers across pages, for
    writes past the end of the file, which allocate clusters, and with every
    block going through the cache. It needs as many free clusters after the
    hint of the FSInfo sector as the write adds ([next_free]), and an end of
    the write more than a cluster below 4 GiB. The written file has grown to
    the end of the write, and its other bytes are what they were. *)
Theorem sys_write_then_read s V E e l l2 a1 a2 r w off (fd1 fd2 : nat) ptr1 ptr2 len addrs1 addrs2 :
  running s t tcb → a1 ≠ a2 →
  fd_table tcb !! fd1 = Some (Some (FInode a1)) → sys_inodes s !! a1 = Some (mkOSInode r true off v) →
  fd_table tcb !! fd2 = Some (Some (FInode a2)) → sys_inodes s !! a2 = Some (mkOSInode true w off v) →
  vol_rep R V [] root (sys_volume s) → fat_rep V (fat fs) E → regular R fs V root E v e l →
  user_range (memory s) tcb ptr1 len addrs1 → user_range (memory s) tcb ptr2 len addrs2 →
  NoDup addrs2 → Forall (λ x, 0 ≤ x) addrs2 →
  0 < len → 0 ≤ off → off + len + bytes_per_cluster fs < 2 ^ 32 → next_free R fs V E l2 →
  Z.of_nat (length l2) = Z.max 0 (clusters_for fs (off + len) - clusters_for fs (ent_size e)) →
  ∃ s1 s2 V' E' e',
    sys_write fs (Z.of_nat fd1) ptr1 len s = Done (Returned len, s1) ∧
    sys_read fs getchar (Z.of_nat fd2) ptr2 len s1 = Done (Returned len, s2) ∧
    rd_pa (memory s2) <$> addrs2 = rd_pa (memory s) <$> addrs1 ∧
    vol_rep R V' [] root (sys_volume s2) ∧ written root v V E e l off (rd_pa (memory s) <$> addrs1) l2 V' E' e'.
Proof.
  intros Hrun Hne Hfd1 Hi1 Hfd2 Hi2 Hv HE Hreg Hu1 Hu2 Hnd Hpos Hlen Hoff Hb Hfree Hl2.
  destruct (sys_write_ok s V E e l l2 a1 r off fd1 ptr1 len addrs1 Hrun Hfd1 Hi1 Hv HE Hreg Hu1 Hlen Hoff Hb Hfree Hl2)
    as (x & s1 & E1 & -> & vol & V' & E' & e' & Hv' & Hw & Es1).
  pose proof (user_range_length _ _ _ _ _ Hu1) as Hla1. pose proof (user_range_length _ _ _ _ _ Hu2) as Hla2.
  assert (0 < bytes_per_cluster fs) by (rewrite (fsl_bpc _ _ HF); pose proof (fsl_spc _ _ HF); lia).
  destruct (sys_read_ok s1 V' E' e' (l ++ l2) a2 w off fd2 ptr2 len addrs2) as (y & s2 & E2 & vol2 & Ey & Hv2 & Es2);
    try (subst s1; done); [by subst s1; cbn; rewrite lookup_insert_ne|apply Hw|apply Hw|lia|].
  pose proof (wt_size _ _ _ _ _ _ _ _ _ _ _ _ Hw) as Hsz. rewrite length_fmap in Hsz.
  assert (left_in e' off len = len) as Hle by (unfold left_in; lia). rewrite Hle in Ey. subst y.
  exists s1, s2, V', E', e'. split_and!; [done|done| |by subst s2|done].
  assert (bytes_at V' e' (l ++ l2) off len = rd_pa (memory s) <$> addrs1) as Hby.
  { replace len with (Z.of_nat (length (rd_pa (memory s) <$> addrs1))) by (rewrite length_fmap; lia).
    apply (written_bytes root v V E e l off _ l2 V' E' e'); eauto. }
  subst s2 s1. rewrite Hby. change (memory (updated _ _ _ _)) with (store_all (memory s) addrs2 (rd_pa (memory s) <$> addrs1)) at 1.
  apply store_all_read; [done|done| |rewrite length_fmap; lia].
  apply Forall_fmap, Forall_true. intros. apply rd_byte_is_byte.
Qed.

(** C39. The calls refuse what is not open: on a descriptor beyond the table, on a
    closed one, and on an object that is not open for reading ([sys_read]) or
    writing ([sys_write]), the result is -1 and nothing changes, whatever the
    user pointer is. *)
Theorem bad_descriptor_refused s (fd : nat) ptr len :
  running s t tcb →
  (refused s os_readable pipe_readable FStdout fd → sys_read fs getchar (Z.of_nat fd) ptr len s = Done (Returned (-1), s)) ∧
  (refused s os_writable pipe_writable FStdin fd → sys_write fs (Z.of_nat fd) ptr len s = Done (Returned (-1), s)).
Proof.
  intros Hrun. unfold refused, sys_read, sys_write.
  split; intros Hr.
  all: rewrite (bind_step _ _ _ _ _ (user_token_ok _ _ _ Hrun)), (bind_step _ _ _ _ _ (current_inner_ok _ _ _ Hrun)).
  all: destruct (fd_table tcb !! fd) as [o|] eqn:Hfd; [|apply lookup_ge_None in Hfd; by rewrite (proj2 (Z.leb_le _ _)) by lia].
  all: pose proof (lookup_lt_Some _ _ _ Hfd); rewrite (proj2 (Z.leb_gt _ _)) by lia; rewrite (index_fd_ok _ _ _ Hfd).
  all: erewrite bind_step by reflexivity.
  all: destruct o as [[| |p c|c]|]; try done; try (unfold readable, writable; by erewrite bind_step by (rewrite Hr; reflexivity)).
  all: destruct Hr as (i & Hi & Hd); unfold readable, writable.
  all: erewrite bind_step by (erewrite bind_step by (by apply get_inode_ok); rewrite Hd; reflexivity); done.
Qed.

End calls.
End io.

(** ** Witnesses

    On the memory at the end of UserBuffer.v and the volume at the end of Vfs.v:
    a task with two descriptors of the file A writes the three bytes at 0x1ffe,
    which are on two pages, at offset 1022 of the file, across the end of its
    second cluster, and reads them back to 0x1100. *)

Definition wit_io_tcb : TaskControlBlock :=
  mkTCB 0 0 0 0 0 (mkTaskContext 0 0 (replicate 12 0)) Running (mkMemorySet (mkPageTable 1 []) []) None [] 0
    [Some (FInode 0); Some (FInode 1)] 0 0 (TaskInfo_new 0) 0 1 [47].
Definition wit_io (off : Z) : system StackFrameAllocator (gmap Z (list Z)) :=
  mkSystem
    (mkKernel (mkMM (mkStackFA 0 0 []) UserBuffer.wit_mem) (mkMemorySet (mkPageTable 0 []) [])
       RecycleAllocator_new RecycleAllocator_new {[0%nat := wit_io_tcb]} [] (Some 0%nat) 0)
    wit_volume {[0%nat := mkOSInode false true off wit_v; 1%nat := mkOSInode true false off wit_v]} ∅ ∅ 0 [] 0.

Lemma wit_io_range1 : user_range UserBuffer.wit_mem wit_io_tcb 0x1ffe 3 [0x200ffe; 0x200fff; 0x100000].
Proof. constructor; try lia. vm_compute. reflexivity. Qed.
Lemma wit_io_range2 : user_range UserBuffer.wit_mem wit_io_tcb 0x1100 3 [0x200100; 0x200101; 0x200102].
Proof. constructor; try lia. vm_compute. reflexivity. Qed.

Lemma sys_write_then_read_witness :
  ∃ s1 s2, sys_write wit_fs 0 0x1ffe 3 (wit_io 1022) = Done (Returned 3, s1) ∧
    sys_read wit_fs (λ _, 0) 1 0x1100 3 s1 = Done (Returned 3, s2) ∧
    rd_pa (mem (k_mm (sys_kernel s2))) <$> [0x200100; 0x200101; 0x200102] = [72; 105; 33].
Proof.
  destruct (sys_write_then_read wit_vregion wit_fs wit_vlayout (λ _, 0) root_dirent wit_v 0 wit_io_tcb (wit_io 1022) wit_vblocks wit_ventries
    wit_a [3; 5] [4] 0 1 false false 1022 0 1 0x1ffe 0x1100 3 [0x200ffe; 0x200fff; 0x100000]
    [0x200100; 0x200101; 0x200102] (conj eq_refl eq_refl) ltac:(discriminate) eq_refl eq_refl eq_refl eq_refl)
    as (s1 & s2 & V' & E' & e' & Hw & Hr & Hm & _).
  - split; [apply fresh_disk_rep|reflexivity].
  - apply wit_vfat_rep.
  - apply wit_regular.
  - apply wit_io_range1.
  - apply wit_io_range2.
  - apply (bool_decide_unpack _). vm_compute. exact I.
  - repeat constructor; lia.
  - lia.
  - lia.
  - vm_compute. reflexivity.
  - apply wit_next_free.
  - vm_compute. reflexivity.
  - exists s1, s2. split; [exact Hw|]. split; [exact Hr|]. rewrite Hm. vm_compute. reflexivity.
Defined.

Lemma bad_descriptor_refused_witness :
  sys_read wit_fs (λ _, 0) 0 0x1ffe 3 (wit_io 1022) = Done (Returned (-1), wit_io 1022) ∧
  sys_write wit_fs 7 0x1ffe 3 (wit_io 1022) = Done (Returned (-1), wit_io 1022).
Proof.
  destruct (bad_descriptor_refused wit_fs (λ _, 0) 0 wit_io_tcb (wit_io 1022) 0 0x1ffe 3 (conj eq_refl eq_refl)) as [Hr _].
  destruct (bad_descriptor_refused wit_fs (λ _, 0) 0 wit_io_tcb (wit_io 1022) 7 0x1ffe 3 (conj eq_refl eq_refl)) as [_ Hw].
  split; [apply Hr|exact (Hw I)]. exists (mkOSInode false true 1022 wit_v). split; reflexivity.
Defined.
