(* ===== verification/Ecall.v ===== *)
(** * System calls as the user program sees them

    One [ecall] from the instruction to the next: the registers are saved by
    [__alltraps] (Asm.v), [trap_handler] and the call run on the state of the
    kernel (Syscall.v), and [trap_return] with [__restore] goes back to the
    program. The machine and the kernel share the memory: the handler starts
    with the memory that [__alltraps] left, and the return starts with the
    memory that the handler left, with any registers that the kernel had. *)

From S2P Require Import Prelude Address PhysMem FrameAllocator PageTable UserBuffer MemorySet.
From S2P Require Import TaskId FdTable Trap Asm Pipe Process ProcessTree UserMap.
From S2P Require Import BlockCache Fat Dirent FatFile Vfs VfsWrite Inode Syscall FileIO.

(** ** Memory outside some pages *)

Lemma rd_wr_pa_ne m a b q i : a / 4096 ≠ q → rd (wr_pa m a b) q i = rd m q i.
Proof. intros Hq. unfold wr_pa, wr_byte. rewrite rd_wr, decide_False; [done|]. by intros [? _]. Qed.

Lemma rd_store_all_ne m l bs q i : Forall (λ a, a / 4096 ≠ q) l → rd (store_all m l bs) q i = rd m q i.
Proof.
  intros Hl. revert m bs. induction Hl as [|a l Ha _ IH]; intros m [|b bs]; try done. cbn [store_all]. rewrite IH. by apply rd_wr_pa_ne.
Qed.

Lemma rd_pa_page m m' a : (∀ i, rd m' (a / 4096) i = rd m (a / 4096) i) → rd_pa m' a = rd_pa m a.
Proof. intros Hm. unfold rd_pa, rd_byte. by rewrite Hm. Qed.

(** Translation depends on the tables only. *)
Lemma translate_va_agree {A} `{FrameAllocatorLaws A} (s : mm A) pt G m' va :
  represents s pt G → (∀ q i, q ∈ pt_frames pt → rd m' q i = rd (mem s) q i) → translate_va m' pt va = translate_va (mem s) pt va.
Proof.
  intros [[T [HT Hroot]] _] Hag. pose proof HT as (_ & Htree & _).
  assert (∀ q i, is_Some (T !! q) → rd m' q i = rd (mem s) q i) as Hag' by (intros q i Hq; apply Hag; by apply (tables_lookup s _ T q HT)).
  unfold translate_va, find_pte. rewrite (walk_inner_agree (mem s) T Htree m' (indexes (floor va)) _ []) by eauto.
  destruct (walk (mem s) (indexes (floor va)) (root_ppn pt)) as [[q i]|] eqn:Ew; [|done]. simpl.
  destruct (walk_path (mem s) T Htree (indexes (floor va)) _ [] q i Hroot eq_refl Ew) as (ρ & Hρ & _). by rewrite Hag' by eauto.
Qed.

(** The bytes of a file are bytes. *)
Lemma content_bytes {D} `{BlockDeviceLaws D} R V K (d : disk D) fs l : disk_rep R V K d → Forall is_byte (content V fs l).
Proof.
  intros Hd. unfold content. induction (sectors fs l) as [|b bs IH]; [by apply Forall_nil_2|].
  change (mjoin (V <$> b :: bs)) with (V b ++ mjoin (V <$> bs)). apply Forall_app. split; [|done]. apply (disk_rep_wf R V K d b Hd).
Qed.

(** What was stored from the start of the addresses is there. *)
Lemma store_all_prefix m l bs :
  NoDup l → Forall (λ x, 0 ≤ x) l → Forall is_byte bs → (length bs ≤ length l)%nat → rd_pa (store_all m l bs) <$> take (length bs) l = bs.
Proof.
  intros Hnd Hpos Hbs Hlen. rewrite <- (take_drop (length bs) l) in Hnd, Hpos. apply NoDup_app in Hnd as [Hnd _]. apply Forall_app in Hpos as [Hpos _].
  rewrite <- (take_drop (length bs) l) at 1. rewrite store_all_short by (rewrite length_take; lia).
  apply store_all_read; [done..|]. rewrite length_take. lia.
Qed.

Section ecall.
Context {A : Type} `{FrameAllocatorLaws A} {D : Type} `{BlockDeviceLaws D}.
Context (pf : platform) (fs : FAT32Manager) (getchar : nat → Z) (str_fuel : nat) (pwd_ptr : Z).
Implicit Types (s : system A D) (m : Riscv.machine).

Abbreviation memory s := (mem (k_mm (sys_kernel s))).
Abbreviation handler := (trap_handler pf fs getchar str_fuel pwd_ptr UserEnvCall).
Abbreviation call := (syscall pf fs getchar str_fuel pwd_ptr).

(** The kernel with the memory of the machine. *)
Definition with_memory (mm : pmem) s : system A D := updated s mm (sys_volume s) (sys_inodes s).

(** The two address spaces of a task [tcb] of the kernel [k]. *)
Abbreviation upt tcb := (page_table (memory_set tcb)).
Abbreviation kpt s := (page_table (kernel_space (sys_kernel s))).

(** The machine executes the program of the running task. *)
Record in_user s (t : nat) (tcb : TaskControlBlock) (tp : Z) m : Prop := {
  iu_running : running s t tcb;
  iu_world : Riscv.trap_world (k_mm (sys_kernel s)) (upt tcb) (kpt s) tp (trap_cx_ppn tcb);
  iu_kernel_satp : tc_kernel_satp (read_trap_cx (memory s) (trap_cx_ppn tcb)) = token (kpt s);
  iu_memory : Riscv.memory m = memory s;
  iu_mode : Riscv.user m = true;
  iu_regs : length (Riscv.x m) = 32%nat;
  iu_satp : Riscv.satp m = token (upt tcb);
  iu_sscratch : Riscv.sscratch m = TRAP_CONTEXT_BASE;
}.

(** What a call has to leave alone for the return: the running task and its
    context page, its tables and those of the kernel. *)
Record call_kept s1 s2 (t : nat) (tcb : TaskControlBlock) : Prop := {
  ck_running : ∃ tcb', running s2 t tcb' ∧ trap_cx_ppn tcb' = trap_cx_ppn tcb ∧ upt tcb' = upt tcb;
  ck_memory q i : q = trap_cx_ppn tcb ∨ q ∈ pt_frames (upt tcb) ∨ q ∈ pt_frames (kpt s1) → rd (memory s2) q i = rd (memory s1) q i;
}.

Lemma read_reg_ok s ppn i : read_reg ppn i s = Done (rd (memory s) ppn i, s).
Proof. apply on_kernel_same. unfold on_mem, on_mm, zoom. cbn. by destruct (sys_kernel s) as [[] ]. Qed.

Lemma write_reg_ok s ppn i v : write_reg ppn i v s = Done (tt, with_memory (wr (memory s) ppn i v) s).
Proof. by destruct s as [[[] ] ]. Qed.

Lemma current_task_ok s t tcb : running s t tcb → on_kernel current_task s = Done (t, s).
Proof. intros [Hp _]. apply on_kernel_same. unfold current_task. erewrite bind_step by reflexivity. by rewrite Hp. Qed.

Lemma current_trap_cx_ok s t tcb : running s t tcb → current_trap_cx s = Done (trap_cx_ppn tcb, s).
Proof. intros Hr. unfold current_trap_cx. by rewrite (bind_step _ _ _ _ _ (current_inner_ok _ _ _ Hr)). Qed.

(** [trap_handler] around a call that returns. *)
Lemma handler_ok s t tcb cx id args r s2 tcb2 :
  running s t tcb → trap_cx_ppn tcb = cx → id = rd (memory s) cx (TC_X 17) →
  args = (λ i, rd (memory s) cx (TC_X i)) <$> [10; 11; 12; 13; 14; 15] →
  call id args (with_memory (wr (memory s) cx TC_SEPC (rd (memory s) cx TC_SEPC ⊞ 4)) s) = Done (Returned r, s2) →
  running s2 t tcb2 → trap_cx_ppn tcb2 = cx →
  handler s = Done (tt, with_memory (wr (memory s2) cx (TC_X 10) (wrap 64 r)) s2).
Proof.
  intros Hr <- -> -> Ecall Hr2 Hcx2. cbn [trap_handler].
  rewrite (bind_step _ _ _ _ _ (current_task_ok _ _ _ Hr)), (bind_step _ _ _ _ _ (current_trap_cx_ok _ _ _ Hr)).
  rewrite (bind_step _ _ _ _ _ (read_reg_ok _ _ _)), (bind_step _ _ _ _ _ (write_reg_ok _ _ _ _)).
  set (s1 := with_memory _ s) in *. assert (∀ i, i ≠ TC_SEPC → rd (memory s1) (trap_cx_ppn tcb) i = rd (memory s) (trap_cx_ppn tcb) i) as Hrd.
  { intros i Hi. cbn [s1 with_memory updated sys_kernel kernel_with_mem k_mm mem]. rewrite rd_wr, decide_False; [done|]. by intros [_ <-]. }
  rewrite (bind_step _ _ _ _ _ (read_reg_ok _ _ _)). erewrite bind_step.
  2: { apply on_kernel_same. unfold on_mem, on_mm, zoom. cbn. reflexivity. }
  cbn [fmap list_fmap] in *. rewrite !Hrd by done. rewrite (bind_step _ _ _ _ _ Ecall). unfold finish_call.
  rewrite (bind_step _ _ _ _ _ (current_trap_cx_ok _ _ _ Hr2)), Hcx2. apply write_reg_ok.
Qed.

(** The registers of the machine are those of the context. *)
Lemma saved_reg cx m mm (n : nat) :
  (0 < n < 32)%nat → tc_x (read_trap_cx mm cx) !! n = Riscv.x m !! n → rd mm cx (TC_X (Z.of_nat n)) = Riscv.reg n m.
Proof. intros Hn E. rewrite Riscv.read_trap_x in E by lia. destruct n; [lia|]. cbn [Riscv.reg]. by rewrite <- E. Qed.

(** The whole way of a call: the entry, the handler and the return. *)
Lemma ecall_ok s t tcb tp m :
  in_user s t tcb tp m →
  let cx := trap_cx_ppn tcb in
  ∃ m1, Riscv.trap_entry tp m = Done (tt, m1) ∧
    let s1 := with_memory (wr (Riscv.memory m1) cx TC_SEPC (Riscv.pc m ⊞ 4)) s in
    (∀ q i, q ≠ cx → rd (memory s1) q i = rd (memory s) q i) ∧
    ∀ r s2, call (Riscv.reg 17 m) ((λ n, Riscv.reg n m) <$> [10; 11; 12; 13; 14; 15]%nat) s1 = Done (Returned r, s2) → call_kept s1 s2 t tcb →
      let s3 := with_memory (wr (memory s2) cx (TC_X 10) (wrap 64 r)) s2 in
      handler (with_memory (Riscv.memory m1) s) = Done (tt, s3) ∧ user_token s3 = Done (token (upt tcb), s3) ∧
      ∀ alltraps restore m2, Riscv.memory m2 = memory s3 → length (Riscv.x m2) = 32%nat → Riscv.satp m2 = token (kpt s) →
        ∃ m3, Riscv.trap_return alltraps restore tp (token (upt tcb)) m2 = Done (tt, m3) ∧
          Riscv.user m3 = true ∧ Riscv.pc m3 = Riscv.pc m ⊞ 4 ∧ Riscv.satp m3 = token (upt tcb) ∧ Riscv.sscratch m3 = TRAP_CONTEXT_BASE ∧
          Riscv.memory m3 = memory s3 ∧ Riscv.x m3 !! 10%nat = Some (wrap 64 r) ∧
          (∀ n, (0 < n < 32)%nat → n ≠ 4%nat → n ≠ 10%nat → Riscv.x m3 !! n = Riscv.x m !! n).
Proof.
  intros [Hrun Hw Hks Hm Hu Hlen Hsat Hss] cx. fold cx in Hw, Hks. set (kp := kpt s) in *.
  destruct (Riscv.trap_world_sees _ _ _ _ _ (memory s) Hw) as (Hcu & Hck & Hx); [by intros ???|].
  destruct (Riscv.trap_entry_ok cx tp m) as (m1 & E1 & _ & _ & _ & _ & Hoff & Hx1 & Hse & Hst & _); rewrite ?Hm, ?Hsat, ?Hks; try done.
  rewrite Hm in Hoff. exists m1. split; [done|]. intros s1. split.
  { intros q i Hq. cbn [s1 with_memory updated sys_kernel kernel_with_mem k_mm mem]. rewrite rd_wr, decide_False by (by intros [<- _]). by apply Hoff. }
  intros r s2 Ecall [(tcb2 & Hrun2 & Hcx2 & Hpt2) Hmem2] s3. fold cx in Hcx2, Hmem2.
  assert (∀ n, (0 < n < 32)%nat → n ≠ 4%nat → rd (Riscv.memory m1) cx (TC_X (Z.of_nat n)) = Riscv.reg n m) as Hreg.
  { intros n Hn Hn4. apply saved_reg; [done|]. by apply Hx1. }
  assert (∀ q i, q = cx ∧ i ≠ TC_X 10 ∨ q ≠ cx ∧ (q ∈ pt_frames (upt tcb) ∨ q ∈ pt_frames kp) → rd (memory s3) q i = rd (memory s1) q i) as Hs3.
  { intros q i Hq. cbn [s3 with_memory updated sys_kernel kernel_with_mem k_mm mem]. rewrite rd_wr.
    destruct Hq as [[-> Hi]|[Hne Hq]].
    - rewrite decide_False by (by intros [_ <-]). apply Hmem2. by left.
    - rewrite decide_False by (by intros [<- _]). apply Hmem2. by right. }
  assert (∀ i, i ≠ TC_SEPC → rd (memory s1) cx i = rd (Riscv.memory m1) cx i) as Hs1.
  { intros i Hi. cbn [s1 with_memory updated sys_kernel kernel_with_mem k_mm mem]. rewrite rd_wr, decide_False; [done|]. by intros [_ <-]. }
  split_and!.
  - apply (handler_ok (with_memory (Riscv.memory m1) s) t tcb cx (Riscv.reg 17 m) ((λ n, Riscv.reg n m) <$> [10; 11; 12; 13; 14; 15]%nat) r s2 tcb2);
      [done|done|symmetry; apply (Hreg 17%nat); lia| | |done|done].
    + cbn [fmap list_fmap]. rewrite <- (Hreg 10%nat), <- (Hreg 11%nat), <- (Hreg 12%nat), <- (Hreg 13%nat), <- (Hreg 14%nat), <- (Hreg 15%nat) by lia. done.
    + cbn [with_memory updated sys_kernel kernel_with_mem k_mm mem] in *. change (rd (Riscv.memory m1) cx TC_SEPC) with (tc_sepc (read_trap_cx (Riscv.memory m1) cx)).
      rewrite Hse. exact Ecall.
  - rewrite (user_token_ok s3 t tcb2) by exact Hrun2. unfold MemorySet_token. by rewrite Hpt2.
  - intros alltraps restore m2 Hm2 Hlen2 Hsat2.
    destruct (Riscv.trap_world_sees _ _ _ _ _ (memory s3) Hw) as (Hcu3 & Hck3 & Hx3).
    { intros q i Hq. assert (q ≠ cx) as Hne by (intros ->; destruct (Riscv.tw_apart _ _ _ _ _ Hw); by destruct Hq).
      rewrite Hs3 by auto. cbn [s1 with_memory updated sys_kernel kernel_with_mem k_mm mem]. rewrite rd_wr, decide_False by (by intros [<- _]). by apply Hoff. }
    destruct (Riscv.trap_return_ok cx tp alltraps restore m2 (token (upt tcb))) as (m3 & E3 & Hmem3 & _ & Hpc3 & Hus3 & _ & Hsat3 & Hss3 & _ & Hr3 & _);
      rewrite ?Hm2, ?Hsat2; try done.
    rewrite Hm2 in *. exists m3. split; [done|]. split_and!; [| |done|done|done| |].
    + rewrite Hus3. cbn [read_trap_cx tc_sstatus]. rewrite Hs3, Hs1 by (try left; done).
      change (rd (Riscv.memory m1) cx 32) with (tc_sstatus (read_trap_cx (Riscv.memory m1) cx)). by rewrite Hst, Riscv.trap_status_user.
    + rewrite Hpc3. cbn [read_trap_cx tc_sepc]. rewrite Hs3 by (left; done). cbn [s1 with_memory updated sys_kernel kernel_with_mem k_mm mem].
      rewrite rd_wr. by rewrite decide_True.
    + rewrite Hr3, Riscv.read_trap_x by lia. cbn [s3 with_memory updated sys_kernel kernel_with_mem k_mm mem]. rewrite rd_wr. by rewrite decide_True.
    + intros n Hn Hn4 Hn10. rewrite Hr3, Riscv.read_trap_x by lia. rewrite Hs3 by (left; unfold TC_X; split; [done|lia]).
      rewrite Hs1 by (unfold TC_SEPC; lia). rewrite <- Riscv.read_trap_x by lia. by apply Hx1.
Qed.

(** The buffer is where it was. *)
Lemma user_range_agree s tcb G (mm : pmem) ptr len addrs :
  represents (k_mm (sys_kernel s)) (upt tcb) G → fits 44 (root_ppn (upt tcb)) →
  (∀ q i, q ∈ pt_frames (upt tcb) → rd mm q i = rd (memory s) q i) →
  user_range (memory s) tcb ptr len addrs → user_range mm tcb ptr len addrs.
Proof.
  intros Hrep Hroot Hag [Hp Hl He Ha]. split; [done..|]. rewrite Ha. apply list_fmap_ext. intros _ va _.
  assert (∀ mm', translate_va mm' (from_token (MemorySet_token (memory_set tcb))) va = translate_va mm' (upt tcb) va) as Htok.
  { intros mm'. unfold translate_va, find_pte, MemorySet_token. by rewrite token_root. }
  rewrite !Htok. symmetry. by eapply translate_va_agree.
Qed.

(** [read] by its number. *)
Lemma call_read fd ptr len rest s r s2 t tcb :
  sys_read fs getchar fd ptr len s = Done (Returned r, s2) → running s2 t tcb →
  call 63 (fd :: ptr :: len :: rest) s = Done (Returned r, s2).
Proof.
  intros E Hr. unfold syscall. erewrite bind_step by (apply on_kernel_same; reflexivity). erewrite bind_step by exact E.
  cbn [syscall_done]. erewrite bind_step by (apply on_kernel_same; reflexivity). erewrite bind_step; [done|].
  apply on_kernel_same. unfold update_time, current_task, get_tcb. destruct Hr as [Hp Ht].
  erewrite bind_step; [|erewrite bind_step by reflexivity; by rewrite Hp]. erewrite bind_step; [|erewrite bind_step by reflexivity; by rewrite Ht]. done.
Qed.

Section read.
Context (R : Z → bool) (HF : fs_layout R fs) (root : ShortDirEntry) (v : VFile).

(** C6. A program that executes [ecall] with the number of [read] reads its file.
    From user mode, with a descriptor of a regular file, a buffer in mapped
    memory and its length in the argument registers, the instructions of
    [__alltraps], the handler with [sys_read], and [trap_return] with the
    instructions of [__restore] run without a fault or a panic, whatever the
    kernel leaves in the registers; the program continues in user mode, in its
    own address space, at the instruction after the [ecall], with the number of
    bytes between the offset and the end of the file, at most the length, in
    [a0] and every other register as it was, [tp] apart; these bytes of the
    file are in its buffer; and no page changes but those of the buffer and
    that of the saved context. *)
Theorem ecall_reads_file s t tcb tp m V E e l a w off (fd : nat) ptr len addrs :
  in_user s t tcb tp m →
  Riscv.reg 17 m = SYSCALL_READ → Riscv.reg 10 m = Z.of_nat fd → Riscv.reg 11 m = ptr → Riscv.reg 12 m = len →
  fd_table tcb !! fd = Some (Some (FInode a)) → sys_inodes s !! a = Some (mkOSInode true w off v) →
  vol_rep R V [] root (sys_volume s) → fat_rep V (fat fs) E → regular R fs V root E v e l →
  user_range (memory s) tcb ptr len addrs → 0 ≤ off → off + len < 2 ^ 32 →
  NoDup addrs → Forall (λ x, 0 ≤ x) addrs →
  Forall (λ x, x / 4096 ≠ trap_cx_ppn tcb ∧ (x / 4096 ∉ pt_frames (upt tcb)) ∧ x / 4096 ∉ pt_frames (kpt s)) addrs →
  let n := Z.min len (Z.max 0 (ent_size e - off)) in
  ∃ m1 s3, Riscv.trap_entry tp m = Done (tt, m1) ∧ handler (with_memory (Riscv.memory m1) s) = Done (tt, s3) ∧
    user_token s3 = Done (token (upt tcb), s3) ∧
    sys_inodes s3 !! a = Some (mkOSInode true w (off + n) v) ∧ vol_rep R V [] root (sys_volume s3) ∧
    ∀ alltraps restore m2, Riscv.memory m2 = memory s3 → length (Riscv.x m2) = 32%nat → Riscv.satp m2 = token (kpt s) →
      ∃ m3, Riscv.trap_return alltraps restore tp (token (upt tcb)) m2 = Done (tt, m3) ∧
        Riscv.user m3 = true ∧ Riscv.pc m3 = Riscv.pc m ⊞ 4 ∧ Riscv.satp m3 = token (upt tcb) ∧
        Riscv.x m3 !! 10%nat = Some n ∧ (∀ i, (0 < i < 32)%nat → i ≠ 4%nat → i ≠ 10%nat → Riscv.x m3 !! i = Riscv.x m !! i) ∧
        rd_pa (Riscv.memory m3) <$> take (Z.to_nat n) addrs = slice (Z.to_nat off) (Z.to_nat n) (content V fs l) ∧
        (∀ q i, q ≠ trap_cx_ppn tcb → Forall (λ x, x / 4096 ≠ q) addrs → rd (Riscv.memory m3) q i = rd (Riscv.memory m) q i).
Proof.
  intros Hin H17 H10 H11 H12 Hfd Hi Hv HE Hreg Hu Hoff Hb Hnd Hpos Hap n.
  pose proof Hin as [Hrun [(G & Hrep & _) _ [Hcu _] [Hroot _] _] _ _ _ _ _ _].
  destruct (ecall_ok s t tcb tp m Hin) as (m1 & E1 & Hag & Hret). set (cx := trap_cx_ppn tcb) in *. set (s1 := with_memory _ s) in Hag, Hret.
  destruct (sys_read_ok R fs HF getchar root v t tcb s1 V E e l a w off fd ptr len addrs) as (x & s2 & Er & vol & -> & Hv2 & Es2); [done..| |done|done|].
  { eapply user_range_agree; [done|done| |done]. intros q i Hq. apply Hag. by intros ->. }
  change (left_in e off len) with n in *. set (bs := bytes_at fs V e l off len) in *.
  assert (running s2 t tcb) as Hrun2 by (by subst s2).
  destruct (Hret n s2) as (Eh & Htok & Hback).
  { rewrite H17. cbn [fmap list_fmap]. rewrite H10, H11, H12. by apply (call_read _ _ _ _ _ _ _ t tcb). }
  { split; [by exists tcb|]. intros q i Hq. subst s2. cbn [updated sys_kernel kernel_with_mem k_mm mem]. apply rd_store_all_ne.
    eapply Forall_impl; [exact Hap|]. intros y (Hy1 & Hy2 & Hy3) <-. by destruct Hq as [Hq|[Hq|Hq]]. }
  pose proof (user_range_length _ _ _ _ _ Hu) as Hla.
  assert (0 ≤ n ≤ len) as Hn by (subst n; destruct Hu; lia).
  assert (length bs = Z.to_nat n) as Hlb.
  { pose proof (length_bytes_at R fs root v V E e l Hreg [] (vol_disk (sys_volume s)) off len (proj1 Hv) Hoff ltac:(lia)) as Hl. fold bs in Hl.
    change (left_in e off len) with n in Hl. lia. }
  eexists m1, _. split; [done|]. split; [exact Eh|]. split; [exact Htok|].
  split; [subst s2; cbn; by rewrite lookup_insert_eq|]. split; [by subst s2|].
  intros alltraps restore m2 Hm2 Hlen2 Hsat2. destruct (Hback alltraps restore m2 Hm2 Hlen2 Hsat2) as (m3 & E3 & Hus & Hpc & Hsat & _ & Hmem & Hx10 & Hx).
  exists m3. split; [done|]. split_and!; [done..|by rewrite Hx10, wrap_small by (unfold fits; destruct Hu; lia)|done| |].
  2: { intros q i Hq Hbuf. rewrite Hmem. subst s2. cbn [with_memory updated sys_kernel kernel_with_mem k_mm mem].
       rewrite rd_wr, decide_False by (by intros [<- _]). rewrite rd_store_all_ne by done. rewrite Hag by done. by rewrite (iu_memory _ _ _ _ _ Hin). }
  rewrite Hmem. trans (rd_pa (store_all (memory s1) addrs bs) <$> take (Z.to_nat n) addrs).
  - apply list_fmap_ext. intros i y Hy. apply rd_pa_page. intros j. subst s2. cbn [with_memory updated sys_kernel kernel_with_mem k_mm mem].
    rewrite rd_wr, decide_False; [done|]. intros [Hy' _]. apply list_elem_of_lookup_2, elem_of_take in Hy as (k & Hy & _).
    rewrite Forall_lookup in Hap. by destruct (Hap _ _ Hy) as [? _].
  - change (slice (Z.to_nat off) (Z.to_nat n) (content V fs l)) with bs. rewrite <- Hlb. apply store_all_prefix; [done|done| |lia]. apply Forall_take, Forall_drop. by eapply content_bytes, Hv.
Qed.

End read.
End ecall.

(** ** Witness

    On the table at the end of Asm.v and the volume at the end of Vfs.v: a task
    that reads three bytes at offset 598 of the file A, whose size is 600, to
    0x1100, which is 0x6100 in memory. *)

Definition wit_call_tcb (pt : PageTable) : TaskControlBlock :=
  mkTCB 0 0 0 5 0 (mkTaskContext 0 0 (replicate 12 0)) Running (mkMemorySet pt []) None [] 0
    [Some FStdin; Some (FInode 1)] 0 0 (TaskInfo_new 0) 0 1 [47].
Definition wit_call (ms : mm StackFrameAllocator) (pt : PageTable) : system StackFrameAllocator (gmap Z (list Z)) :=
  mkSystem
    (mkKernel ms (mkMemorySet pt []) RecycleAllocator_new RecycleAllocator_new {[0%nat := wit_call_tcb pt]} [] (Some 0%nat) 0)
    wit_volume {[1%nat := mkOSInode true false 598 wit_v]} ∅ ∅ 0 [] 0.

(** The registers of the program: a descriptor, an address and a length in [a0]
    to [a2], and the number in [a7]. *)
Definition wit_call_regs : list Z :=
  <[17%nat := 63]> (<[12%nat := 3]> (<[11%nat := 0x1100]> (<[10%nat := 1]> (replicate 32 9)))).

Lemma wit_call_range (ms : mm StackFrameAllocator) pt :
  fits 44 (root_ppn pt) → pt_lookup (mem ms) pt 1 = Some (PTE_new 6 23) →
  user_range (mem ms) (wit_call_tcb pt) 0x1100 3 [0x6100; 0x6101; 0x6102].
Proof.
  intros Hroot Hl. split; [lia..|]. change (zrange 0x1100 (0x1100 + 3)) with [0x1100; 0x1101; 0x1102]. rewrite pt_lookup_translate in Hl.
  assert (∀ va, floor va = 1 → translate_va (mem ms) (from_token (MemorySet_token (memory_set (wit_call_tcb pt)))) va = Some (0x6000 + page_offset va)) as Hva.
  { intros va Hva. apply (translate_va_entry _ _ _ (PTE_new 6 23)). unfold translate, find_pte, MemorySet_token in *. rewrite token_root by done.
    rewrite Hva. cbn [wit_call_tcb memory_set page_table]. destruct (_ ≫= _) as [e|] eqn:Ew in Hl |- *; [|done]. by destruct (is_valid e); simplify_eq. }
  cbn [fmap list_fmap]. rewrite !Hva by (vm_compute; reflexivity). vm_compute. reflexivity.
Qed.

Lemma ecall_reads_file_witness :
  ∃ (ms : mm StackFrameAllocator) pt m1 s3,
    let m := Riscv.mkMachine wit_call_regs 0x10010 true (token pt) TRAP_CONTEXT_BASE 0 0 TRAMPOLINE (mem ms) in
    Riscv.trap_entry 0x80201 m = Done (tt, m1) ∧
    trap_handler wit_pf wit_fs (λ _, 0) 0 0 UserEnvCall (with_memory (Riscv.memory m1) (wit_call ms pt)) = Done (tt, s3) ∧
    ∃ m3, Riscv.trap_return 0x10 0x80 0x80201 (token pt) (Riscv.mkMachine (replicate 32 7) 0x80200000 false (token pt) 0 0 0 0 (mem (k_mm (sys_kernel s3)))) = Done (tt, m3) ∧
      Riscv.user m3 = true ∧ Riscv.pc m3 = 0x10014 ∧ Riscv.x m3 !! 10%nat = Some 2 ∧ Riscv.x m3 !! 11%nat = Some 0x1100 ∧
      rd_pa (Riscv.memory m3) <$> [0x6100; 0x6101] = [0; 0].
Proof.
  destruct Riscv.wit_world as (ms & pt & Hw & Hk & Hl & H6).
  set (m := Riscv.mkMachine wit_call_regs 0x10010 true (token pt) TRAP_CONTEXT_BASE 0 0 TRAMPOLINE (mem ms)).
  destruct (@ecall_reads_file _ _ (stack_frame_laws 0x80500) _ _ _ wit_pf wit_fs (λ _, 0) 0 0 wit_vregion wit_vlayout root_dirent wit_v
    (wit_call ms pt) 0 (wit_call_tcb pt) 0x80201 m wit_vblocks wit_ventries wit_a [3; 5] 1 false 598 1 0x1100 3 [0x6100; 0x6101; 0x6102])
    as (m1 & s3 & E1 & Eh & _ & _ & _ & Hret).
  - split; [split; reflexivity|exact Hw|exact Hk|reflexivity..].
  - reflexivity.
  - reflexivity.
  - reflexivity.
  - reflexivity.
  - reflexivity.
  - reflexivity.
  - split; [apply fresh_disk_rep|reflexivity].
  - apply wit_vfat_rep.
  - apply wit_regular.
  - apply wit_call_range; [apply (Riscv.tw_roots _ _ _ _ _ Hw)|exact Hl].
  - lia.
  - lia.
  - apply (bool_decide_unpack _). vm_compute. exact I.
  - repeat constructor; lia.
  - repeat constructor; (discriminate || exact H6).
  - destruct (Hret 0x10 0x80 (Riscv.mkMachine (replicate 32 7) 0x80200000 false (token pt) 0 0 0 0 (mem (k_mm (sys_kernel s3)))) eq_refl eq_refl eq_refl)
      as (m3 & E3 & Hu & Hpc & _ & H10 & Hx & Hb).
    exists ms, pt, m1, s3. split; [exact E1|]. split; [exact Eh|]. exists m3. split; [exact E3|]. split; [exact Hu|]. split; [exact Hpc|].
    split; [exact H10|]. split; [rewrite Hx by lia; reflexivity|]. exact (proj1 Hb).
Defined.
