(* ===== verification/UserLib.v ===== *)
(** * The user library (user/src/syscall.rs, lib.rs, console.rs)

    A user program is a tree of the things it does to the outside: an [ecall]
    with its registers, a value put into the program's memory (a local, a
    string, a buffer) whose address it uses, and a byte read back from its
    memory. The wrappers of the library are such programs. The names of
    syscall.rs get the prefix [u_], those of lib.rs the prefix [lib_], to tell
    them from the kernel's. A [&str] or a slice is its address and its length.

    The second part runs a program against a kernel, and shows what the console
    buffer does; the third relates the wrappers to the kernel's dispatcher. *)

From S2P Require Import Prelude Address PhysMem FrameAllocator PageTable UserBuffer MemorySet.
From S2P Require Import TaskId FdTable Trap Pipe Process UserMap.
From S2P Require Import BlockCache Fat Dirent FatFile Vfs VfsWrite Inode Syscall ProcessTree.

(** ** Programs *)

Inductive uprog (X : Type) : Type :=
| URet (x : X)
| UEcall (id : Z) (args : list Z) (k : Z → uprog X)
| UPlace (bytes : list Z) (k : Z → uprog X)
| ULoad (addr : Z) (k : Z → uprog X)
| UCrash.
Arguments URet {X} _.
Arguments UEcall {X} _ _ _.
Arguments UPlace {X} _ _.
Arguments ULoad {X} _ _.
Arguments UCrash {X}.

Fixpoint uprog_bind {X Y} (f : X → uprog Y) (p : uprog X) : uprog Y :=
  match p with
  | URet x => f x
  | UEcall id args k => UEcall id args (λ r, uprog_bind f (k r))
  | UPlace b k => UPlace b (λ a, uprog_bind f (k a))
  | ULoad a k => ULoad a (λ b, uprog_bind f (k b))
  | UCrash => UCrash
  end.
#[global] Instance uprog_mret : MRet uprog := @URet.
#[global] Instance uprog_mbind : MBind uprog := @uprog_bind.

Definition place (bytes : list Z) : uprog Z := UPlace bytes URet.
Definition load (addr : Z) : uprog Z := ULoad addr URet.
Fixpoint load_bytes (n : nat) (addr : Z) : uprog (list Z) :=
  match n with
  | O => mret []
  | S n => b ← load addr; l ← load_bytes n (addr + 1); mret (b :: l)
  end.

(** A [&str] or a slice: [as_ptr()] and [len()]. *)
Record uslice := mkUslice { as_ptr : Z; slice_len : Z }.

(** ** user/src/syscall.rs *)

Definition U_SYSCALL_OPENAT : Z := 56.
Definition U_SYSCALL_CLOSE : Z := 57.
Definition U_SYSCALL_READ : Z := 63.
Definition U_SYSCALL_WRITE : Z := 64.
Definition U_SYSCALL_UNLINKAT : Z := 35.
Definition U_SYSCALL_LINKAT : Z := 37.
Definition U_SYSCALL_FSTAT : Z := 80.
Definition U_SYSCALL_EXIT : Z := 93.
Definition U_SYSCALL_SLEEP : Z := 101.
Definition U_SYSCALL_YIELD : Z := 124.
Definition U_SYSCALL_KILL : Z := 129.
Definition U_SYSCALL_SIGACTION : Z := 134.
Definition U_SYSCALL_SIGPROCMASK : Z := 135.
Definition U_SYSCALL_SIGRETURN : Z := 139.
Definition U_SYSCALL_GETTIMEOFDAY : Z := 169.
Definition U_SYSCALL_GETPID : Z := 172.
Definition U_SYSCALL_GETTID : Z := 178.
Definition U_SYSCALL_FORK : Z := 220.
Definition U_SYSCALL_EXEC : Z := 221.
Definition U_SYSCALL_WAITPID : Z := 260.
Definition U_SYSCALL_SET_PRIORITY : Z := 140.
Definition U_SYSCALL_SBRK : Z := 214.
Definition U_SYSCALL_MUNMAP : Z := 215.
Definition U_SYSCALL_MMAP : Z := 222.
Definition U_SYSCALL_SPAWN : Z := 400.
Definition U_SYSCALL_MAIL_READ : Z := 401.
Definition U_SYSCALL_MAIL_WRITE : Z := 402.
Definition U_SYSCALL_DUP : Z := 24.
Definition U_SYSCALL_PIPE : Z := 59.
Definition U_SYSCALL_TASK_INFO : Z := 410.
Definition U_SYSCALL_THREAD_CREATE : Z := 460.
Definition U_SYSCALL_WAITTID : Z := 462.
Definition U_SYSCALL_MUTEX_CREATE : Z := 463.
Definition U_SYSCALL_MUTEX_LOCK : Z := 464.
Definition U_SYSCALL_MUTEX_UNLOCK : Z := 466.
Definition U_SYSCALL_SEMAPHORE_CREATE : Z := 467.
Definition U_SYSCALL_SEMAPHORE_UP : Z := 468.
Definition U_SYSCALL_ENABLE_DEADLOCK_DETECT : Z := 469.
Definition U_SYSCALL_SEMAPHORE_DOWN : Z := 470.
Definition U_SYSCALL_CONDVAR_CREATE : Z := 471.
Definition U_SYSCALL_CONDVAR_SIGNAL : Z := 472.
Definition U_SYSCALL_CONDVAR_WAIT : Z := 473.
Definition U_SYSCALL_GETPWD : Z := 17.
Definition U_SYSCALL_SHUTDOWN : Z := 210.

(** [syscall] and [syscall6]: [x17] and three or six argument registers. *)
Definition u_syscall (id : Z) (args : list Z) : uprog Z := UEcall id args URet.

Definition u_openat (dirfd : Z) (path : uslice) (flags mode : Z) : uprog Z :=
  u_syscall U_SYSCALL_OPENAT [dirfd; as_ptr path; flags; mode; 0; 0].
Definition u_close (fd : Z) : uprog Z := u_syscall U_SYSCALL_CLOSE [fd; 0; 0].
Definition u_read (fd : Z) (buffer : uslice) : uprog Z := u_syscall U_SYSCALL_READ [fd; as_ptr buffer; slice_len buffer].
Definition u_write (fd : Z) (buffer : uslice) : uprog Z := u_syscall U_SYSCALL_WRITE [fd; as_ptr buffer; slice_len buffer].
Definition u_linkat (old_dirfd : Z) (old_path : uslice) (new_dirfd : Z) (new_path : uslice) (flags : Z) : uprog Z :=
  u_syscall U_SYSCALL_LINKAT [old_dirfd; as_ptr old_path; new_dirfd; as_ptr new_path; flags; 0].
Definition u_unlinkat (dirfd : Z) (path : uslice) (flags : Z) : uprog Z := u_syscall U_SYSCALL_UNLINKAT [dirfd; as_ptr path; flags].
Definition u_fstat (fd st : Z) : uprog Z := u_syscall U_SYSCALL_FSTAT [fd; st; 0].
Definition u_mail_read (buffer : uslice) : uprog Z := u_syscall U_SYSCALL_MAIL_READ [as_ptr buffer; slice_len buffer; 0].
Definition u_mail_write (pid : Z) (buffer : uslice) : uprog Z := u_syscall U_SYSCALL_MAIL_WRITE [pid; as_ptr buffer; slice_len buffer].
Definition u_exit {X} (exit_code : Z) : uprog X := _ ← u_syscall U_SYSCALL_EXIT [wrap 64 exit_code; 0; 0]; UCrash.
Definition u_sleep (sleep_ms : Z) : uprog Z := u_syscall U_SYSCALL_SLEEP [sleep_ms; 0; 0].
Definition u_yield : uprog Z := u_syscall U_SYSCALL_YIELD [0; 0; 0].
Definition u_get_time (time tz : Z) : uprog Z := u_syscall U_SYSCALL_GETTIMEOFDAY [time; tz; 0].
Definition u_getpid : uprog Z := u_syscall U_SYSCALL_GETPID [0; 0; 0].
Definition u_fork : uprog Z := u_syscall U_SYSCALL_FORK [0; 0; 0].
Definition u_exec (path args : uslice) : uprog Z := u_syscall U_SYSCALL_EXEC [as_ptr path; as_ptr args; 0].
Definition u_waitpid (pid xstatus : Z) : uprog Z := u_syscall U_SYSCALL_WAITPID [wrap 64 pid; xstatus; 0].
Definition u_set_priority (prio : Z) : uprog Z := u_syscall U_SYSCALL_SET_PRIORITY [wrap 64 prio; 0; 0].
Definition u_sbrk (size : Z) : uprog Z := u_syscall U_SYSCALL_SBRK [wrap 64 size; 0; 0].
Definition u_mmap (start len prot : Z) : uprog Z := u_syscall U_SYSCALL_MMAP [start; len; prot].
Definition u_munmap (start len : Z) : uprog Z := u_syscall U_SYSCALL_MUNMAP [start; len; 0].
Definition u_spawn (path : uslice) : uprog Z := u_syscall U_SYSCALL_SPAWN [as_ptr path; 0; 0].
Definition u_dup (fd : Z) : uprog Z := u_syscall U_SYSCALL_DUP [fd; 0; 0].
Definition u_pipe (pipe : Z) : uprog Z := u_syscall U_SYSCALL_PIPE [pipe; 0; 0].
Definition u_task_info (info : Z) : uprog Z := u_syscall U_SYSCALL_TASK_INFO [info; 0; 0].
Definition u_thread_create (entry arg : Z) : uprog Z := u_syscall U_SYSCALL_THREAD_CREATE [entry; arg; 0].
Definition u_gettid : uprog Z := u_syscall U_SYSCALL_GETTID [0; 0; 0].
Definition u_waittid (tid : Z) : uprog Z := u_syscall U_SYSCALL_WAITTID [tid; 0; 0].
Definition u_mutex_create (blocking : bool) : uprog Z := u_syscall U_SYSCALL_MUTEX_CREATE [if blocking then 1 else 0; 0; 0].
Definition u_mutex_lock (id : Z) : uprog Z := u_syscall U_SYSCALL_MUTEX_LOCK [id; 0; 0].
Definition u_mutex_unlock (id : Z) : uprog Z := u_syscall U_SYSCALL_MUTEX_UNLOCK [id; 0; 0].
Definition u_semaphore_create (res_count : Z) : uprog Z := u_syscall U_SYSCALL_SEMAPHORE_CREATE [res_count; 0; 0].
Definition u_semaphore_up (sem_id : Z) : uprog Z := u_syscall U_SYSCALL_SEMAPHORE_UP [sem_id; 0; 0].
Definition u_enable_deadlock_detect (enabled : Z) : uprog Z := u_syscall U_SYSCALL_ENABLE_DEADLOCK_DETECT [enabled; 0; 0].
Definition u_semaphore_down (sem_id : Z) : uprog Z := u_syscall U_SYSCALL_SEMAPHORE_DOWN [sem_id; 0; 0].
Definition u_condvar_create (arg : Z) : uprog Z := u_syscall U_SYSCALL_CONDVAR_CREATE [arg; 0; 0].
Definition u_condvar_signal (condvar_id : Z) : uprog Z := u_syscall U_SYSCALL_CONDVAR_SIGNAL [condvar_id; 0; 0].
Definition u_condvar_wait (condvar_id mutex_id : Z) : uprog Z := u_syscall U_SYSCALL_CONDVAR_WAIT [condvar_id; mutex_id; 0].
Definition u_shutdown : uprog Z := u_syscall U_SYSCALL_SHUTDOWN [0; 0; 0].
Definition u_sigaction (signum action old_action : Z) : uprog Z := u_syscall U_SYSCALL_SIGACTION [wrap 64 signum; action; old_action].
Definition u_sigprocmask (mask : Z) : uprog Z := u_syscall U_SYSCALL_SIGPROCMASK [mask; 0; 0].
Definition u_sigreturn : uprog Z := u_syscall U_SYSCALL_SIGRETURN [0; 0; 0].
Definition u_kill (pid signal : Z) : uprog Z := u_syscall U_SYSCALL_KILL [pid; wrap 64 signal; 0].
Definition u_getcwd (buf size : Z) : uprog Z := u_syscall U_SYSCALL_GETPWD [buf; size; 0].

(** ** user/src/console.rs *)

Definition STDIN : Z := 0.
Definition STDOUT : Z := 1.
Definition CONSOLE_BUFFER_SIZE : Z := 256 * 10.

(** [read] and [write] of lib.rs. *)
Definition lib_read (fd : Z) (buf : uslice) : uprog Z := u_read fd buf.
Definition lib_write (fd : Z) (buf : uslice) : uprog Z := u_write fd buf.

(** [ConsoleBuffer::flush]: the result of the write, and the empty buffer. *)
Definition ConsoleBuffer_flush (b : list Z) : uprog (Z * list Z) :=
  s ← place b;
  ret ← lib_write STDOUT (mkUslice s (Z.of_nat (length b)));
  mret (ret, []).

(** [write_str]: [false] is [Err]. *)
Fixpoint write_str (b : list Z) (s : list Z) : uprog (bool * list Z) :=
  match s with
  | [] => mret (true, b)
  | c :: s =>
      let b := b ++ [c] in
      if (c =? 10) || (Z.of_nat (length b) =? CONSOLE_BUFFER_SIZE) then
        '(ret, b) ← ConsoleBuffer_flush b;
        if ret =? -1 then mret (false, b) else write_str b s
      else write_str b s
  end.

(** [write_fmt] writes the pieces of the formatted text up to the first error;
    [print] ignores the error. *)
Fixpoint write_fmt (b : list Z) (pieces : list (list Z)) : uprog (bool * list Z) :=
  match pieces with
  | [] => mret (true, b)
  | s :: pieces =>
      '(ok, b) ← write_str b s;
      if ok : bool then write_fmt b pieces else mret (false, b)
  end.
Definition print (pieces : list (list Z)) (b : list Z) : uprog (list Z) :=
  '(_, b) ← write_fmt b pieces; mret b.

Definition lib_getchar : uprog Z :=
  c ← place [0];
  lib_read STDIN (mkUslice c 1);;
  load c.

Definition flush (b : list Z) : uprog (list Z) := '(_, b) ← ConsoleBuffer_flush b; mret b.

(** ** user/src/lib.rs *)

Definition USER_HEAP_SIZE : Z := 16384.
Definition U_RDONLY : Z := 0.
Definition U_WRONLY : Z := 1.
Definition U_RDWR : Z := 2.
Definition U_CREATE : Z := 2 ^ 9.
Definition U_TRUNC : Z := 2 ^ 10.
Definition U_AT_FDCWD : Z := -100.

Definition lib_open (path : uslice) (flags : Z) : uprog Z := u_openat (wrap 64 U_AT_FDCWD) path flags U_RDWR.
Definition lib_close (fd : Z) (b : list Z) : uprog (Z * list Z) :=
  b ← (if fd =? STDOUT then flush b else mret b);
  r ← u_close fd;
  mret (r, b).
Definition lib_link (old_path new_path : uslice) : uprog Z :=
  u_linkat (wrap 64 U_AT_FDCWD) old_path (wrap 64 U_AT_FDCWD) new_path 0.
Definition lib_unlink (path : uslice) : uprog Z := u_unlinkat (wrap 64 U_AT_FDCWD) path 0.
Definition lib_exit {X} (exit_code : Z) (b : list Z) : uprog X := _ ← flush b; u_exit exit_code.

(** [get_time]: the [TimeVal] is sixteen bytes of the stack. *)
Definition lib_get_time : uprog Z :=
  time ← place (replicate 16 0);
  r ← u_get_time time 0;
  if r =? 0 then
    sec ← load_bytes 8 time;
    usec ← load_bytes 8 (time + 8);
    mret (to_signed 64 ((Z.land (le_val sec) 0xffff ⊠ 1000) ⊞ le_val usec / 1000))
  else mret (-1).

Definition lib_wait (exit_code : Z) : uprog Z := u_waitpid (-1) exit_code.
Definition lib_waitpid (pid exit_code : Z) : uprog Z := u_waitpid (to_signed 64 pid) exit_code.

(** One turn of the loop of [sleep]; [true] ends it. *)
Definition sleep_turn (start period_ms : Z) : uprog bool :=
  t ← lib_get_time;
  if t <? to_signed 64 (start + to_signed 64 period_ms) then u_yield;; mret false else mret true.

(** One turn of the loop of [waittid]. *)
Definition waittid_turn (tid : Z) : uprog (option Z) :=
  r ← u_waittid tid;
  if r =? -2 then u_yield;; mret None else mret (Some r).

(** [getpwd]: the text up to the first zero byte if it is UTF-8
    ([from_utf8]). *)
Definition lib_getpwd (buf : list Z) (size : Z) (from_utf8 : list Z → bool) : uprog (Z * list Z) :=
  buffer_ptr ← place (replicate (Z.to_nat size) 0);
  result ← u_getcwd buffer_ptr size;
  if result <? 0 then mret (result, buf)
  else
    buffer ← load_bytes (Z.to_nat size) buffer_ptr;
    let null_pos := match list_find (λ b, b = 0) buffer with Some (i, _) => i | None => length buffer end in
    let text := take null_pos buffer in
    if from_utf8 text then mret (0, text) else mret (-1, []).

(** The functions of lib.rs that only pass their arguments on. *)
Definition lib_fstat (fd st : Z) : uprog Z := u_fstat fd st.
Definition lib_mail_read (buf : uslice) : uprog Z := u_mail_read buf.
Definition lib_mail_write (pid : Z) (buf : uslice) : uprog Z := u_mail_write pid buf.
Definition lib_yield : uprog Z := u_yield.
Definition lib_getpid : uprog Z := u_getpid.
Definition lib_fork : uprog Z := u_fork.
Definition lib_exec (path args : uslice) : uprog Z := u_exec path args.
Definition lib_set_priority (prio : Z) : uprog Z := u_set_priority prio.
Definition lib_sleep_blocking (sleep_ms : Z) : uprog unit := u_sleep sleep_ms;; mret tt.
Definition lib_mmap (start len prot : Z) : uprog Z := u_mmap start len prot.
Definition lib_munmap (start len : Z) : uprog Z := u_munmap start len.
Definition lib_sbrk (size : Z) : uprog Z := u_sbrk size.
Definition lib_spawn (path : uslice) : uprog Z := u_spawn path.
Definition lib_dup (fd : Z) : uprog Z := u_dup fd.
Definition lib_pipe (pipe_fd : uslice) : uprog Z := u_pipe (as_ptr pipe_fd).
Definition lib_task_info (info : Z) : uprog Z := u_task_info info.
Definition lib_thread_create (entry arg : Z) : uprog Z := u_thread_create entry arg.
Definition lib_gettid : uprog Z := u_gettid.
Definition lib_mutex_create : uprog Z := u_mutex_create false.
Definition lib_mutex_blocking_create : uprog Z := u_mutex_create true.
Definition lib_mutex_lock (mutex_id : Z) : uprog Z := u_mutex_lock mutex_id.
Definition lib_mutex_unlock (mutex_id : Z) : uprog unit := u_mutex_unlock mutex_id;; mret tt.
Definition lib_semaphore_create (res_count : Z) : uprog Z := u_semaphore_create res_count.
Definition lib_semaphore_up (sem_id : Z) : uprog unit := u_semaphore_up sem_id;; mret tt.
Definition lib_enable_deadlock_detect (enabled : bool) : uprog Z := u_enable_deadlock_detect (if enabled then 1 else 0).
Definition lib_semaphore_down (sem_id : Z) : uprog Z := u_semaphore_down sem_id.
Definition lib_condvar_create : uprog Z := u_condvar_create 0.
Definition lib_condvar_signal (condvar_id : Z) : uprog unit := u_condvar_signal condvar_id;; mret tt.
Definition lib_condvar_wait (condvar_id mutex_id : Z) : uprog unit := u_condvar_wait condvar_id mutex_id;; mret tt.
Definition lib_shutdown : uprog unit := u_shutdown;; mret tt.
Definition lib_kill (pid signum : Z) : uprog Z := u_kill pid signum.
Definition lib_sigaction (signum : Z) (action old_action : option Z) : uprog Z := u_sigaction signum (default 0 action) (default 0 old_action).
Definition lib_sigprocmask (mask : Z) : uprog Z := u_sigprocmask mask.
Definition lib_sigreturn : uprog Z := u_sigreturn.

(** ** Running a program *)

Abbreviation umem := (gmap Z Z).

Fixpoint put (m : umem) (a : Z) (bs : list Z) : umem :=
  match bs with
  | [] => m
  | b :: bs => <[a := b]> (put m (a + 1) bs)
  end.
Definition get (m : umem) (a n : Z) : list Z := (λ i, default 0 (m !! i)) <$> zrange a (a + n).

(** An address above everything in use. *)
Definition fresh (m : umem) : Z := 1 + map_fold (λ a _ x, Z.max a x) 0 m.

Lemma put_lookup_lt m a bs x : x < a → put m a bs !! x = m !! x.
Proof.
  revert a. induction bs as [|b bs IH]; intros a Hx; [done|]. cbn [put]. rewrite lookup_insert_ne by lia. apply IH. lia.
Qed.

Lemma get_put m a bs : get (put m a bs) a (Z.of_nat (length bs)) = bs.
Proof.
  unfold get. revert a. induction bs as [|b bs IH]; intros a; [by rewrite zrange_nil by (simpl; lia)|].
  rewrite zrange_cons by (simpl; lia). rewrite fmap_cons. cbn [put length]. rewrite lookup_insert_eq. cbn [default]. f_equal.
  rewrite <- (IH (a + 1)) at 2. replace (a + Z.of_nat (S (length bs))) with (a + 1 + Z.of_nat (length bs)) by lia.
  apply list_fmap_ext. intros i x Hi. apply list_elem_of_lookup_2, elem_of_zrange in Hi. by rewrite lookup_insert_ne by lia.
Qed.

Section run.
(** The kernel as the program sees it: [None] when the call does not return. *)
Context {W : Type} (kcall : Z → list Z → umem → W → option (Z * umem * W)).

Fixpoint urun {X} (p : uprog X) (m : umem) (w : W) : outcome (X * umem * W) :=
  match p with
  | URet x => Done (x, m, w)
  | UEcall id args k => match kcall id args m w with Some (r, m, w) => urun (k r) m w | None => Panic end
  | UPlace bs k => let a := fresh m in urun (k a) (put m a bs) w
  | ULoad a k => urun (k (default 0 (m !! a))) m w
  | UCrash => Panic
  end.

Lemma urun_bind {X Y} (p : uprog X) (f : X → uprog Y) m w x m1 w1 :
  urun p m w = Done (x, m1, w1) → urun (p ≫= f) m w = urun (f x) m1 w1.
Proof.
  revert m w. induction p as [x'|id args k IH|bs k IH|a k IH|]; intros m w; cbn [urun]; intros E.
  - by injection E as -> -> ->.
  - change (UEcall id args k ≫= f) with (UEcall id args (λ r, k r ≫= f)). cbn [urun].
    destruct (kcall id args m w) as [[[r m'] w']|]; [|done]. by apply IH.
  - change (UPlace bs k ≫= f) with (UPlace bs (λ r, k r ≫= f)). by apply IH.
  - change (ULoad a k ≫= f) with (ULoad a (λ r, k r ≫= f)). by apply IH.
  - done.
Qed.

End run.

(** ** The console buffer *)

Inductive console_op := Print (pieces : list (list Z)) | Flush.
Fixpoint console_ops (l : list console_op) (b : list Z) : uprog (list Z) :=
  match l with
  | [] => mret b
  | Print pieces :: l => b ← print pieces b; console_ops l b
  | Flush :: l => b ← flush b; console_ops l b
  end.
(** What the program has printed. *)
Definition printed (l : list console_op) : list Z :=
  concat ((λ o, match o with Print pieces => concat pieces | Flush => [] end) <$> l).

Section console.
Context (kcall : Z → list Z → umem → list Z → option (Z * umem * list Z)).
(** Standard output takes all bytes and returns their number. *)
Hypothesis Hwrite : ∀ ptr n m w, kcall U_SYSCALL_WRITE [STDOUT; ptr; n] m w = Some (n, m, w ++ get m ptr n).

Abbreviation size b := (Z.of_nat (length b)).
Definition waiting (b : list Z) : Prop := size b < CONSOLE_BUFFER_SIZE ∧ 10 ∉ b.

Lemma buffer_flush_ok b m w : ∃ m', urun kcall (ConsoleBuffer_flush b) m w = Done (size b, [], m', w ++ b).
Proof.
  exists (put m (fresh m) b). unfold ConsoleBuffer_flush, place, lib_write, u_write, u_syscall. cbn.
  rewrite Hwrite. by rewrite get_put.
Qed.

Lemma write_str_ok s : ∀ b m w, waiting b →
  ∃ b' m' w', urun kcall (write_str b s) m w = Done (true, b', m', w') ∧ w' ++ b' = w ++ b ++ s ∧ waiting b'.
Proof.
  induction s as [|c s IH]; intros b m w Hb; cbn [write_str].
  - exists b, m, w. by rewrite app_nil_r.
  - destruct ((c =? 10) || (size (b ++ [c]) =? CONSOLE_BUFFER_SIZE)) eqn:E.
    + destruct (buffer_flush_ok (b ++ [c]) m w) as [m1 E1]. rewrite (urun_bind _ _ _ _ _ _ _ _ E1).
      rewrite (proj2 (Z.eqb_neq (size (b ++ [c])) (-1))) by lia.
      destruct (IH [] m1 (w ++ b ++ [c])) as (b' & m' & w' & E' & Hw & Hb'); [split; [vm_compute; done|set_solver]|].
      exists b', m', w'. split_and!; [exact E'| |done]. rewrite Hw. by rewrite <- !(assoc_L app).
    + apply orb_false_iff in E as [E1 E2]. apply Z.eqb_neq in E1, E2. rewrite length_app in E2. simpl in E2.
      destruct Hb as [Hb1 Hb2].
      destruct (IH (b ++ [c]) m w) as (b' & m' & w' & E' & Hw & Hb').
      { split; [rewrite length_app; simpl; lia|]. intros [?|?%list_elem_of_singleton]%elem_of_app; [done|by subst]. }
      exists b', m', w'. split_and!; [exact E'| |done]. rewrite Hw. by rewrite <- !(assoc_L app).
Qed.

Lemma write_fmt_ok pieces : ∀ b m w, waiting b →
  ∃ b' m' w', urun kcall (write_fmt b pieces) m w = Done (true, b', m', w') ∧ w' ++ b' = w ++ b ++ concat pieces ∧ waiting b'.
Proof.
  induction pieces as [|s pieces IH]; intros b m w Hb; cbn [write_fmt concat].
  - exists b, m, w. by rewrite app_nil_r.
  - destruct (write_str_ok s b m w Hb) as (b1 & m1 & w1 & E1 & Hw1 & Hb1). rewrite (urun_bind _ _ _ _ _ _ _ _ E1).
    destruct (IH b1 m1 w1 Hb1) as (b' & m' & w' & E' & Hw & Hb'). exists b', m', w'. split_and!; [exact E'| |done].
    by rewrite Hw, (assoc_L app w1), Hw1, <- !(assoc_L app).
Qed.

(** Output through the console buffer is neither lost, duplicated nor
    reordered: whatever a program prints and flushes, the bytes that standard
    output has received followed by the bytes still in the buffer are the
    printed bytes in order. The buffer never holds a complete line or its full
    size, and a flush at the end leaves nothing behind. *)
Theorem console_output_exact (l : list console_op) (b : list Z) (m : umem) (w : list Z) :
  waiting b →
  (∃ b' m' w', urun kcall (console_ops l b) m w = Done (b', m', w') ∧
     w' ++ b' = w ++ b ++ printed l ∧ waiting b') ∧
  ∃ m' , urun kcall (console_ops (l ++ [Flush]) b) m w = Done ([], m', w ++ b ++ printed l).
Proof.
  revert b m w. induction l as [|o l IH]; intros b m w Hb.
  - split; [exists b, m, w; by rewrite app_nil_r|]. destruct (buffer_flush_ok b m w) as [m1 E1]. exists m1.
    cbn [console_ops app]. unfold flush. erewrite urun_bind; [|by rewrite (urun_bind _ _ _ _ _ _ _ _ E1)]. by rewrite app_nil_r.
  - assert (∃ b1 m1 w1, urun kcall (match o with Print pieces => print pieces b | Flush => flush b end) m w = Done (b1, m1, w1) ∧
      w1 ++ b1 = w ++ b ++ printed [o] ∧ waiting b1) as (b1 & m1 & w1 & E1 & Hw1 & Hb1).
    { destruct o as [pieces|].
      - destruct (write_fmt_ok pieces b m w Hb) as (b1 & m1 & w1 & E1 & ? & ?). exists b1, m1, w1.
        split_and!; [|by cbn; rewrite (right_id_L [] app)|done]. unfold print. by rewrite (urun_bind _ _ _ _ _ _ _ _ E1).
      - destruct (buffer_flush_ok b m w) as [m1 E1]. exists [], m1, (w ++ b).
        split_and!; [unfold flush; by rewrite (urun_bind _ _ _ _ _ _ _ _ E1)|by rewrite <- (assoc_L app)|split; [vm_compute; done|set_solver]]. }
    assert (printed (o :: l) = printed [o] ++ printed l) as Ho.
    { unfold printed. rewrite fmap_cons. cbn [concat fmap list_fmap]. by rewrite app_nil_r. }
    assert (∀ l', urun kcall (console_ops (o :: l') b) m w = urun kcall (console_ops l' b1) m1 w1) as Hstep.
    { intros l'. destruct o; cbn [console_ops]; by rewrite (urun_bind _ _ _ _ _ _ _ _ E1). }
    destruct (IH b1 m1 w1 Hb1) as [(b' & m' & w' & E' & Hw & Hb') (m2 & E2)].
    rewrite (assoc_L app w1), Hw1, <- !(assoc_L app), <- Ho in Hw, E2. split.
    + exists b', m', w'. by rewrite Hstep.
    + exists m2. cbn [app]. by rewrite Hstep.
Qed.

End console.

Definition echo_kernel (id : Z) (args : list Z) (m : umem) (w : list Z) : option (Z * umem * list Z) :=
  match args with
  | [fd; ptr; n] => if (id =? U_SYSCALL_WRITE) && (fd =? STDOUT) then Some (n, m, w ++ get m ptr n) else None
  | _ => None
  end.

Lemma console_output_exact_witness :
  ∃ m', urun echo_kernel (console_ops ([Print [[104; 105]; [10]; [33]]] ++ [Flush]) []) ∅ [] = Done ([], m', [104; 105; 10; 33]).
Proof.
  destruct (console_output_exact echo_kernel (λ ptr n m w, eq_refl) [Print [[104; 105]; [10]; [33]]] [] ∅ []) as [_ [m' E]].
  - split; [vm_compute; done|]. intros H. inversion H.
  - exists m'. exact E.
Defined.

(** ** The library and the kernel *)

(** The calls of the library that the kernel knows and takes as they are meant. *)
Inductive ucall :=
| COpen (path : uslice) (flags : Z) | CClose (fd : Z) | CRead (fd : Z) (buf : uslice) | CWrite (fd : Z) (buf : uslice)
| CUnlink (path : uslice) | CFstat (fd st : Z) | CExit (code : Z) | CYield | CGetTime (time : Z) | CGetpid | CFork
| CExec (path args : uslice) | CWait (code : Z) | CWaitpid (pid code : Z) | CSetPriority (prio : Z) | CMunmap (start len : Z)
| CSpawn (path : uslice) | CGetcwd (buf size : Z) | CShutdown.

Definition invoke (c : ucall) : uprog Z :=
  match c with
  | COpen path flags => lib_open path flags
  | CClose fd => u_close fd
  | CRead fd buf => lib_read fd buf
  | CWrite fd buf => lib_write fd buf
  | CUnlink path => lib_unlink path
  | CFstat fd st => lib_fstat fd st
  | CExit code => u_exit code
  | CYield => lib_yield
  | CGetTime time => u_get_time time 0
  | CGetpid => lib_getpid
  | CFork => lib_fork
  | CExec path args => lib_exec path args
  | CWait code => lib_wait code
  | CWaitpid pid code => lib_waitpid pid code
  | CSetPriority prio => lib_set_priority prio
  | CMunmap start len => lib_munmap start len
  | CSpawn path => lib_spawn path
  | CGetcwd buf size => u_getcwd buf size
  | CShutdown => u_shutdown
  end.

(** The arguments are values of their Rust types. *)
Definition well_typed (c : ucall) : Prop :=
  match c with
  | COpen _ flags => fits 32 flags
  | CExit code => - 2 ^ 31 ≤ code < 2 ^ 31
  | CWaitpid pid _ => fits 63 pid
  | CSetPriority prio => - 2 ^ 63 ≤ prio < 2 ^ 63
  | CGetcwd _ size => fits 32 size
  | _ => True
  end.

(** The registers at the first [ecall]. *)
Definition first_call {X} (p : uprog X) : option (Z * list Z) :=
  match p with UEcall id args _ => Some (id, args) | _ => None end.

Section abi.
Context {A : Type} `{FrameAllocator A} {D : Type} `{BlockDevice D}.
Context (pf : platform) (fs : FAT32Manager) (getchar : nat → Z) (str_fuel : nat) (pwd_ptr : Z).

(** What the kernel should do for a call. *)
Definition served (c : ucall) : ST (system A D) progress :=
  match c with
  | COpen path flags => at_once (sys_openat fs str_fuel AT_FDCWD (as_ptr path) flags)
  | CClose fd => at_once (on_fds (sys_close fd))
  | CRead fd buf => sys_read fs getchar fd (as_ptr buf) (slice_len buf)
  | CWrite fd buf => sys_write fs fd (as_ptr buf) (slice_len buf)
  | CUnlink path => at_once (sys_unlink fs str_fuel AT_FDCWD (as_ptr path))
  | CFstat fd st => at_once (sys_fstat fs fd st)
  | CExit code => sys_exit code
  | CYield => sys_yield
  | CGetTime time => at_once (sys_get_time time)
  | CGetpid => at_once (on_kernel sys_getpid)
  | CFork => at_once (on_kernel (sys_fork pf 0 0 0 0 0))
  | CExec path _ => at_once (sys_exec pf fs str_fuel (as_ptr path))
  | CWait code => sys_waitpid (-1) code
  | CWaitpid pid code => sys_waitpid pid code
  | CSetPriority prio => at_once (on_kernel (sys_set_priority prio))
  | CMunmap start len => at_once (on_kernel (sys_munmap start len))
  | CSpawn path => at_once (sys_spawn pf fs str_fuel (as_ptr path))
  | CGetcwd buf size => at_once (sys_getcwd pwd_ptr buf size)
  | CShutdown => mret NoResult
  end.

(** C32. The library and the kernel agree on the calls above: the wrapper ends in
    one [ecall] whose registers make the kernel's dispatcher run the handler of
    the same call on the same arguments, whatever is left in the registers that
    the wrapper does not set; signed arguments survive the passage through the
    unsigned registers. *)
Theorem library_calls_served (c : ucall) :
  well_typed c →
  ∃ id args, first_call (invoke c) = Some (id, args) ∧
    ∀ rest ms, dispatch pf fs getchar str_fuel pwd_ptr id (args ++ rest) ms = served c.
Proof.
  intros Hc. destruct c; (eexists _, _; split; [reflexivity|]; intros rest ms; cbn -[Z.pow to_signed wrap]; try done).
  - rewrite to_signed_wrap by lia. by rewrite wrap_small.
  - by rewrite to_signed_wrap, to_signed_small by (cbn in Hc; lia).
  - destruct Hc. rewrite to_signed_wrap by lia. rewrite !to_signed_small by (rewrite ?to_signed_small; lia). done.
  - by rewrite to_signed_wrap, to_signed_small by (cbn in Hc; lia).
  - by rewrite wrap_small.
Qed.

(** The calls of the library whose number the kernel does not know. *)
Definition unknown_calls (a b c d e : Z) (buf buf' : uslice) (f : bool) : list (uprog Z) :=
  [u_linkat a buf b buf' c; u_mail_read buf; u_mail_write a buf; u_task_info a; u_thread_create a b; u_gettid; u_waittid a;
   u_mutex_create f; u_mutex_lock a; u_mutex_unlock a; u_semaphore_create a; u_semaphore_up a; u_enable_deadlock_detect a;
   u_semaphore_down a; u_condvar_create a; u_condvar_signal a; u_condvar_wait a b; u_sigaction a b c; u_sigprocmask a; u_sigreturn;
   u_kill a b].

(** C40. What happens to the other calls of the library. Those whose number the
    kernel does not know make it panic, in any state; [dup] carries the number
    of the kernel's [dup3] and duplicates the descriptor onto descriptor 0; and
    [open] with the library's CREATE flag panics the kernel as soon as the path
    can be read, because CREATE is another bit in the kernel, which unwraps
    the conversion of flags that it does not know. *)
Theorem library_calls_astray (s : system A D) :
  (∀ a b c d e buf buf' f p, p ∈ unknown_calls a b c d e buf buf' f → ∃ id args, first_call p = Some (id, args) ∧
     ∀ rest ms, dispatch pf fs getchar str_fuel pwd_ptr id (args ++ rest) ms s = Panic) ∧
  (∀ fd, ∃ id args, first_call (lib_dup fd) = Some (id, args) ∧
     ∀ rest ms, dispatch pf fs getchar str_fuel pwd_ptr id (args ++ rest) ms s = at_once (on_fds (sys_dup3 fd 0)) s) ∧
  (∀ path flags tok name s1 s2, user_token s = Done (tok, s1) → user_str str_fuel tok (as_ptr path) s1 = Done (name, s2) →
     fits 32 flags → Z.testbit flags 9 = true →
     ∃ id args, first_call (lib_open path flags) = Some (id, args) ∧
       ∀ rest ms, dispatch pf fs getchar str_fuel pwd_ptr id (args ++ rest) ms s = Panic).
Proof.
  split_and!.
  - intros a b c d e buf buf' f p Hp. unfold unknown_calls in Hp.
    repeat (apply elem_of_cons in Hp as [->|Hp]; [eexists _, _; split; [reflexivity|]; intros rest ms; reflexivity|]). inversion Hp.
  - intros fd. eexists _, _. split; [reflexivity|]. intros rest ms. reflexivity.
  - intros path flags tok name s1 s2 E1 E2 Hf Hb. eexists _, _. split; [reflexivity|]. intros rest ms.
    cbn -[Z.pow to_signed wrap]. unfold at_once, sys_openat. rewrite (wrap_small 32 flags) by done.
    assert (OpenFlags_from_bits flags = None) as Hn.
    { unfold OpenFlags_from_bits. destruct (Z.eqb_spec (Z.land flags (wnot 32 OpenFlags_all)) 0) as [E|]; [|done].
      apply (f_equal (λ z, Z.testbit z 9)) in E. rewrite Z.land_spec, Hb in E. vm_compute in E. done. }
    apply bind_Panic. rewrite (bind_step _ _ _ _ _ E1), (bind_step _ _ _ _ _ E2), Hn. reflexivity.
Qed.

End abi.

Lemma library_calls_served_witness :
  well_typed (CWaitpid 3 0x1000) ∧
  ∀ rest ms, dispatch (A := StackFrameAllocator) (D := gmap Z (list Z)) wit_pf wit_fs (λ _, 0) 64 0 260 ([3; 0x1000; 0] ++ rest) ms =
    sys_waitpid 3 0x1000.
Proof.
  split; [by vm_compute|].
  destruct (library_calls_served (A := StackFrameAllocator) (D := gmap Z (list Z)) wit_pf wit_fs (λ _, 0) 64 0 (CWaitpid 3 0x1000))
    as (id & args & E & Hd); [by vm_compute|].
  vm_compute in E. injection E as <- <-. exact Hd.
Defined.
