(* ===== verification/Shell.v ===== *)
(** * The first programs (user/src/bin/ch6b_user_shell.rs, ch6b_initproc.rs)

    The shell and the initial process as user programs (UserLib.v). Their
    endless loops are modelled by their bodies: one turn ends with the next
    state of the loop or with the value that [main] returns. A panic of the
    program is [UCrash]. *)

From stdpp Require Import pretty.
From S2P Require Import Prelude UserLib Syscall.

Definition LF : Z := 0x0a.
Definition CR : Z := 0x0d.
Definition DL : Z := 0x7f.
Definition BS : Z := 0x08.
Definition SIZE : Z := 60.

Definition APP : list (list Z) :=
  (λ s, str s ++ [0]) <$>
  ["brk"; "chdir"; "clone"; "close"; "dup"; "dup2"; "execve"; "exit";
   "fork"; "fstat"; "getcwd"; "getdents"; "getpid"; "getppid"; "gettimeofday";
   "mkdir_"; "open"; "openat"; "pipe"; "read"; "sleep"; "test_echo"; "times"; "uname";
   "unlink"; "wait"; "waitpid"; "write"; "yield"; "mount"; "umount"; "mmap"; "munmap"]%string.

(** [c as char] for a byte, and the UTF-8 encoding of a [String]. *)
Definition utf8 (c : Z) : list Z := if c <? 128 then [c] else [192 + c / 64; 128 + c mod 64].
Definition utf8s (l : list Z) : list Z := concat (utf8 <$> l).

(** [{}] of an integer. *)
Definition dec (z : Z) : list Z := str (pretty z).

Record shell := mkShell { line : list Z; pwd_text : list Z; console : list Z }.
Definition set_line (l : list Z) (sh : shell) : shell := mkShell l (pwd_text sh) (console sh).
Definition set_pwd_text (t : list Z) (sh : shell) : shell := mkShell (line sh) t (console sh).
Definition set_console (b : list Z) (sh : shell) : shell := mkShell (line sh) (pwd_text sh) b.

Definition sh_print (pieces : list (list Z)) (sh : shell) : uprog shell :=
  b ← print pieces (console sh); mret (set_console b sh).
Definition sh_flush (sh : shell) : uprog shell := b ← flush (console sh); mret (set_console b sh).

Section shell.
Context (from_utf8 : list Z → bool).

Definition sh_getpwd (sh : shell) : uprog shell :=
  '(_, t) ← lib_getpwd (pwd_text sh) SIZE from_utf8; mret (set_pwd_text t sh).

(** [fork], [exec] in the child, [waitpid] in the parent. *)
Definition run_command (path : list Z) (sh : shell) : uprog (shell + Z) :=
  pid ← lib_fork;
  if pid =? 0 then
    p ← place path;
    args ← place (le_bytes 8 0);
    r ← lib_exec (mkUslice p (Z.of_nat (length path))) (mkUslice args 1);
    if r =? -1 then sh_print [str "Error when executing!" ++ [LF]] sh;; mret (inr (-4)) else UCrash
  else
    code ← place (replicate 4 0);
    exit_pid ← lib_waitpid (wrap 64 pid) code;
    if pid =? exit_pid then
      exit_code ← load_bytes 4 code;
      sh ← sh_print [str "Shell: Process "; dec pid; str " exited with code "; dec (to_signed 32 (le_val exit_code)); [LF]] sh;
      mret (inl sh)
    else UCrash.

Definition prompt (sh : shell) : uprog shell :=
  sh ← sh_print [str "PS HXH:"; pwd_text sh; str ">$"] sh; sh_flush sh.

(** The end of a line. *)
Definition enter (sh : shell) : uprog (shell + Z) :=
  sh ← sh_print [[LF]] sh;
  r ← (if bool_decide (line sh = []) then mret (inl sh)
       else
         let sh := set_line (line sh ++ [0]) sh in
         r ← run_command (utf8s (line sh)) sh;
         match r with inl sh => mret (inl (set_line [] sh)) | inr v => mret (inr v) end);
  match r with
  | inl sh => sh ← sh_getpwd sh; sh ← prompt sh; mret (inl sh)
  | inr v => mret (inr v)
  end.

(** The body of the loop. *)
Definition shell_turn (sh : shell) : uprog (shell + Z) :=
  c ← lib_getchar;
  if (c =? LF) || (c =? CR) then enter sh
  else if (c =? BS) || (c =? DL) then
    if bool_decide (line sh = []) then mret (inl sh)
    else
      sh ← sh_print [utf8 BS] sh; sh ← sh_print [[32]] sh; sh ← sh_print [utf8 BS] sh;
      sh ← sh_flush sh;
      mret (inl (set_line (removelast (line sh)) sh))
  else
    sh ← sh_print [utf8 c] sh;
    sh ← sh_flush sh;
    mret (inl (set_line (line sh ++ [c]) sh)).

(** The programs that the shell runs at its start. *)
Fixpoint run_apps (apps : list (list Z)) (sh : shell) : uprog (shell + Z) :=
  match apps with
  | [] => mret (inl sh)
  | app :: apps =>
      r ← run_command app sh;
      match r with inl sh => run_apps apps sh | inr v => mret (inr v) end
  end.

(** [main] up to its loop. *)
Definition shell_start : uprog (shell + Z) :=
  sh ← sh_print [str "Rust user shell" ++ [LF]] (mkShell [] [] []);
  sh ← sh_getpwd sh;
  sh ← sh_flush sh;
  r ← run_apps APP sh;
  match r with
  | inl sh =>
      sh ← sh_print [[LF] ++ str "PS HXH:"; pwd_text sh; str ">$"] sh;
      sh ← sh_flush sh;
      mret (inl sh)
  | inr v => mret (inr v)
  end.

End shell.

(** ** The initial process *)

(** One turn of the loop of its parent branch, with the console buffer. *)
Definition initproc_turn (b : list Z) : uprog (list Z) :=
  code ← place (replicate 4 0);
  pid ← lib_wait code;
  if pid =? -1 then lib_yield;; mret b
  else
    exit_code ← load_bytes 4 code;
    print [str "[initproc] Released a zombie process, pid="; dec pid; str ", exit_code="; dec (to_signed 32 (le_val exit_code)); [LF]] b.

(** [main] up to the loop: the child returns 0 when [exec] fails. *)
Definition initproc_start : uprog (option Z) :=
  pid ← lib_fork;
  if pid =? 0 then
    path ← place (str "ch6b_user_shell.elf" ++ [0]);
    args ← place (le_bytes 8 0);
    lib_exec (mkUslice path 20) (mkUslice args 1);;
    mret (Some 0)
  else mret None.

(** ** A terminal

    The kernel as the shell meets it: keys come from the terminal and output
    goes to it, [fork] gives a new child, or makes the shell the child itself;
    [exec] notes the path and fails, [waitpid] notes the process. *)

Record tty := mkTty {
  keys : list Z; shown : list Z; in_child : bool; next_pid : Z; executed : list (list Z); awaited : list Z;
}.
Definition set_keys (l : list Z) (w : tty) : tty := mkTty l (shown w) (in_child w) (next_pid w) (executed w) (awaited w).
Definition show (l : list Z) (w : tty) : tty := mkTty (keys w) (shown w ++ l) (in_child w) (next_pid w) (executed w) (awaited w).
Definition new_pid (w : tty) : tty := mkTty (keys w) (shown w) (in_child w) (next_pid w + 1) (executed w) (awaited w).
Definition note_exec (p : list Z) (w : tty) : tty := mkTty (keys w) (shown w) (in_child w) (next_pid w) (executed w ++ [p]) (awaited w).
Definition note_wait (p : Z) (w : tty) : tty := mkTty (keys w) (shown w) (in_child w) (next_pid w) (executed w) (awaited w ++ [p]).

(** The string at an address, up to its zero byte. *)
Fixpoint cut0 (l : list Z) : list Z := match l with [] => [] | b :: l => if b =? 0 then [] else b :: cut0 l end.
Definition cstr (m : umem) (a : Z) : list Z := cut0 (get m a (fresh m - a)).

(** The kernel that the shell is run on: keys are read, text is shown, [fork]
    returns the next id or 0 (the two runs of a fork), [exec] fails, and
    [waitpid] returns at once. It stands for the answers that the shell can get
    and is not the kernel of Syscall.v. *)
Definition tty_kernel (id : Z) (args : list Z) (m : umem) (w : tty) : option (Z * umem * tty) :=
  match args with
  | [a0; a1; a2] =>
      if (id =? U_SYSCALL_READ) && (a0 =? STDIN) then
        match keys w with k :: ks => Some (1, put m a1 [k], set_keys ks w) | [] => None end
      else if (id =? U_SYSCALL_WRITE) && (a0 =? STDOUT) then Some (a2, m, show (get m a1 a2) w)
      else if id =? U_SYSCALL_FORK then if in_child w then Some (0, m, w) else Some (next_pid w, m, new_pid w)
      else if id =? U_SYSCALL_EXEC then Some (-1, m, note_exec (cstr m a0) w)
      else if id =? U_SYSCALL_WAITPID then Some (to_signed 64 a0, m, note_wait (to_signed 64 a0) w)
      else if id =? U_SYSCALL_GETPWD then Some (0, m, w)
      else None
  | _ => None
  end.

Abbreviation trun := (urun tty_kernel).

(** Only the screen differs. *)
Definition same_tty (w w' : tty) : Prop := ∃ l, w' = show l w.

Lemma same_tty_refl w : same_tty w w.
Proof. exists []. unfold show. rewrite app_nil_r. by destruct w. Qed.
Lemma same_tty_trans w1 w2 w3 : same_tty w1 w2 → same_tty w2 w3 → same_tty w1 w3.
Proof. intros [l ->] [l' ->]. exists (l ++ l'). unfold show. cbn. by rewrite (assoc_L app). Qed.

Lemma tty_flush b m w : ∃ m', trun (ConsoleBuffer_flush b) m w = Done (Z.of_nat (length b), [], m', show b w).
Proof. exists (put m (fresh m) b). cbn -[get]. by rewrite get_put. Qed.

Lemma tty_write_str s : ∀ b m w, ∃ b' m' w', trun (write_str b s) m w = Done (true, b', m', w') ∧ same_tty w w'.
Proof.
  induction s as [|c s IH]; intros b m w; cbn [write_str]; [exists b, m, w; split; [done|apply same_tty_refl]|].
  destruct (_ || _); [|apply IH]. destruct (tty_flush (b ++ [c]) m w) as [m1 E1]. rewrite (urun_bind _ _ _ _ _ _ _ _ E1).
  rewrite (proj2 (Z.eqb_neq _ (-1))) by lia. destruct (IH [] m1 (show (b ++ [c]) w)) as (b' & m' & w' & E & Hs).
  exists b', m', w'. split; [exact E|]. eapply same_tty_trans; [by eexists|exact Hs].
Qed.

Lemma tty_print pieces : ∀ sh m w, ∃ b m' w', trun (sh_print pieces sh) m w = Done (set_console b sh, m', w') ∧ same_tty w w'.
Proof.
  intros sh m w.
  assert (∀ b m w, ∃ b' m' w', trun (write_fmt b pieces) m w = Done (true, b', m', w') ∧ same_tty w w') as Hf.
  { induction pieces as [|s pieces IH]; intros b m0 w0; cbn [write_fmt]; [exists b, m0, w0; split; [done|apply same_tty_refl]|].
    destruct (tty_write_str s b m0 w0) as (b1 & m1 & w1 & E1 & H1). rewrite (urun_bind _ _ _ _ _ _ _ _ E1).
    destruct (IH b1 m1 w1) as (b' & m' & w' & E & H2). exists b', m', w'. split; [exact E|by eapply same_tty_trans]. }
  destruct (Hf (console sh) m w) as (b & m' & w' & E & Hs). exists b, m', w'. split; [|done].
  unfold sh_print, print. erewrite urun_bind; [|by rewrite (urun_bind _ _ _ _ _ _ _ _ E)]. done.
Qed.

Lemma tty_sh_flush sh m w : ∃ b m' w', trun (sh_flush sh) m w = Done (set_console b sh, m', w') ∧ same_tty w w'.
Proof.
  destruct (tty_flush (console sh) m w) as [m1 E1]. exists [], m1, (show (console sh) w). split; [|by eexists].
  unfold sh_flush, flush. erewrite urun_bind; [|by rewrite (urun_bind _ _ _ _ _ _ _ _ E1)]. done.
Qed.

(** Runs one after the other, up to the screen and the memory. *)
Ltac tty_step L :=
  let b := fresh "b" in let m1 := fresh "m" in let w1 := fresh "w" in let E := fresh "E" in let Hs := fresh "Hs" in
  destruct L as (b & m1 & w1 & E & Hs); rewrite (urun_bind _ _ _ _ _ _ _ _ E); clear E.

(** ** The line editor *)

Definition edit1 (l : list Z) (k : Z) : list Z := if (k =? BS) || (k =? DL) then removelast l else l ++ [k].
Definition edit (ks : list Z) : list Z := foldl edit1 [] ks.

Fixpoint shell_turns (from_utf8 : list Z → bool) (n : nat) (sh : shell) : uprog (shell + Z) :=
  match n with
  | O => mret (inl sh)
  | S n => r ← shell_turn from_utf8 sh; match r with inl sh => shell_turns from_utf8 n sh | inr v => mret (inr v) end
  end.

Lemma tty_getchar k ks m w : keys w = k :: ks → ∃ m', trun lib_getchar m w = Done (k, m', set_keys ks w).
Proof.
  intros Hk. eexists. unfold lib_getchar, place, lib_read, u_read, u_syscall, load. cbn. rewrite Hk. cbn.
  by rewrite lookup_insert_eq.
Qed.

Lemma tty_key f k ks sh m w : keys w = k :: ks → k ≠ LF → k ≠ CR →
  ∃ b m' w', trun (shell_turn f sh) m w = Done (inl (mkShell (edit1 (line sh) k) (pwd_text sh) b), m', w') ∧ same_tty (set_keys ks w) w'.
Proof.
  intros Hk HLF HCR. destruct (tty_getchar k ks m w Hk) as [m0 E0]. unfold shell_turn. rewrite (urun_bind _ _ _ _ _ _ _ _ E0).
  rewrite (proj2 (Z.eqb_neq k LF)), (proj2 (Z.eqb_neq k CR)) by done. cbn [orb]. unfold edit1.
  destruct ((k =? BS) || (k =? DL)).
  - destruct (decide (line sh = [])) as [Hl|Hl].
    + rewrite bool_decide_true by done. exists (console sh), m0, (set_keys ks w). rewrite Hl. split; [|apply same_tty_refl].
      cbn. by destruct sh; cbn in *; subst.
    + rewrite bool_decide_false by done.
      tty_step (tty_print [utf8 BS] sh m0 (set_keys ks w)).
      tty_step (tty_print [[32]] (set_console b sh) m1 w0).
      tty_step (tty_print [utf8 BS] (set_console b0 (set_console b sh)) m2 w1).
      tty_step (tty_sh_flush (set_console b1 (set_console b0 (set_console b sh))) m3 w2).
      eexists _, _, w3. split; [reflexivity|]. do 3 (eapply same_tty_trans; [eassumption|]). done.
  - tty_step (tty_print [utf8 k] sh m0 (set_keys ks w)).
    tty_step (tty_sh_flush (set_console b sh) m1 w0).
    eexists _, _, w1. split; [reflexivity|]. by eapply same_tty_trans.
Qed.

Lemma tty_keys f ks : ∀ rest n sh m w, keys w = ks ++ rest → Forall (λ k, k ≠ LF ∧ k ≠ CR) ks →
  ∃ b m' w', same_tty (set_keys rest w) w' ∧
    trun (shell_turns f (length ks + n) sh) m w = trun (shell_turns f n (mkShell (foldl edit1 (line sh) ks) (pwd_text sh) b)) m' w'.
Proof.
  induction ks as [|k ks IH]; intros rest n sh m w Hk Hks.
  - exists (console sh), m, w. destruct sh, w; cbn in *; subst. split; [apply same_tty_refl|done].
  - apply Forall_cons in Hks as [[? ?] Hks].
    destruct (tty_key f k (ks ++ rest) sh m w Hk) as (b1 & m1 & w1 & E1 & [l1 ->]); [done..|].
    destruct (IH rest n (mkShell (edit1 (line sh) k) (pwd_text sh) b1) m1 (show l1 (set_keys (ks ++ rest) w))) as (b' & m' & w' & [l2 ->] & E); [done..|].
    exists b', m', (show l2 (set_keys rest (show l1 (set_keys (ks ++ rest) w)))). split; [exists (l1 ++ l2); unfold show; cbn; by rewrite (assoc_L app)|].
    cbn [length Nat.add shell_turns]. rewrite (urun_bind _ _ _ _ _ _ _ _ E1). exact E.
Qed.

(** Fresh memory. *)
Lemma fresh_above m a : is_Some (m !! a) → a < fresh m.
Proof.
  unfold fresh. apply (map_fold_weak_ind (λ r m, is_Some (m !! a) → a < 1 + r)).
  - by intros [? ?].
  - intros i x m' r Hi IH [y Hy]. destruct (decide (a = i)) as [->|Hne]; [lia|]. rewrite lookup_insert_ne in Hy by done.
    specialize (IH ltac:(by eexists)). lia.
Qed.

Lemma put_lookup_ge m a bs x : a + Z.of_nat (length bs) ≤ x → put m a bs !! x = m !! x.
Proof.
  revert a. induction bs as [|b bs IH]; intros a Hx; [done|]. cbn [put length] in *. rewrite lookup_insert_ne by lia. apply IH. lia.
Qed.

Lemma put_is_Some m a bs x : a ≤ x < a + Z.of_nat (length bs) → is_Some (put m a bs !! x).
Proof.
  revert a. induction bs as [|b bs IH]; intros a Hx; cbn [put length] in *; [lia|].
  destruct (decide (x = a)) as [->|]; [rewrite lookup_insert_eq; by eexists|]. rewrite lookup_insert_ne by done. apply IH. lia.
Qed.

(** A string placed before another value is still there. *)
Lemma cstr_placed m s bs : bs ≠ [] → Forall (λ b, b ≠ 0) s →
  let m1 := put m (fresh m) (s ++ [0]) in cstr (put m1 (fresh m1) bs) (fresh m) = s.
Proof.
  intros Hbs Hs m1. unfold cstr. set (a := fresh m). set (m2 := put m1 (fresh m1) bs).
  assert (a + Z.of_nat (length (s ++ [0])) ≤ fresh m1) as H1.
  { rewrite length_app. cbn. destruct (put_is_Some m a (s ++ [0]) (a + Z.of_nat (length s))) as [y Hy]; [rewrite length_app; cbn; lia|].
    pose proof (fresh_above m1 (a + Z.of_nat (length s)) ltac:(by eexists)). lia. }
  assert (fresh m1 < fresh m2) as H2.
  { apply fresh_above. apply put_is_Some. destruct bs; [done|]. cbn. lia. }
  assert (get m2 a (fresh m2 - a) = (s ++ [0]) ++ get m2 (a + Z.of_nat (length (s ++ [0]))) (fresh m2 - a - Z.of_nat (length (s ++ [0])))) as ->.
  { unfold get. rewrite (zrange_app a (a + Z.of_nat (length (s ++ [0])))) by lia. rewrite fmap_app. f_equal.
    - etrans; [|exact (get_put m a (s ++ [0]))]. unfold get. apply list_fmap_ext. intros i x Hi.
      apply list_elem_of_lookup_2, elem_of_zrange in Hi. unfold m2. by rewrite put_lookup_lt by lia.
    - do 2 f_equal. lia. }
  generalize (get m2 (a + Z.of_nat (length (s ++ [0]))) (fresh m2 - a - Z.of_nat (length (s ++ [0])))). clear -Hs. intros l.
  induction s as [|b s IH]; [done|]. apply Forall_cons in Hs as [Hb Hs]. cbn [app cut0].
  rewrite (proj2 (Z.eqb_neq b 0)) by done. f_equal. by apply IH.
Qed.

Lemma utf8_bytes c : 0 < c < 256 → Forall (λ b, b ≠ 0) (utf8 c).
Proof. intros Hc. unfold utf8. destruct (Z.ltb_spec c 128); repeat constructor; zlia. Qed.

Lemma utf8s_app l l' : utf8s (l ++ l') = utf8s l ++ utf8s l'.
Proof. unfold utf8s. by rewrite fmap_app, concat_app. Qed.

Lemma edit_bytes ks : ∀ l, Forall (λ k, 0 < k < 256) l → Forall (λ k, 0 < k < 256) ks → Forall (λ k, 0 < k < 256) (foldl edit1 l ks).
Proof.
  induction ks as [|k ks IH]; intros l Hl Hks; [done|]. apply Forall_cons in Hks as [Hk Hks]. cbn [foldl]. apply IH; [|done].
  unfold edit1. destruct (_ || _); [|apply Forall_app; by split; [|apply Forall_singleton]].
  clear -Hl. destruct l as [|x l] using rev_ind; [done|]. rewrite removelast_last. by apply Forall_app in Hl as [? _].
Qed.

Lemma utf8s_bytes l : Forall (λ k, 0 < k < 256) l → Forall (λ b, b ≠ 0) (utf8s l).
Proof.
  intros Hl. unfold utf8s. induction Hl as [|k l Hk Hl IH]; [done|]. rewrite fmap_cons. cbn [concat].
  apply Forall_app. split; [by apply utf8_bytes|done].
Qed.

(** The primitive steps. *)
Lemma trun_place {X} bs (f : Z → uprog X) m w : trun (place bs ≫= f) m w = trun (f (fresh m)) (put m (fresh m) bs) w.
Proof. done. Qed.
Lemma trun_ecall {X} id args (f : Z → uprog X) m w r m' w' :
  tty_kernel id args m w = Some (r, m', w') → trun (u_syscall id args ≫= f) m w = trun (f r) m' w'.
Proof. intros E. cbn. by rewrite E. Qed.
Lemma trun_load_bytes n a m w : trun (load_bytes n a) m w = Done ((λ i, default 0 (m !! i)) <$> zrange a (a + Z.of_nat n), m, w).
Proof.
  revert a. induction n as [|n IH]; intros a; cbn [load_bytes]; [by rewrite zrange_nil by lia|].
  rewrite (urun_bind _ _ _ _ _ (default 0 (m !! a)) m w) by done. rewrite (urun_bind _ _ _ _ _ _ _ _ (IH (a + 1))).
  rewrite (zrange_cons a) by lia. rewrite fmap_cons. by replace (a + 1 + Z.of_nat n) with (a + Z.of_nat (S n)) by lia.
Qed.

(** The command of the child. *)
Lemma run_command_child s sh m w : in_child w = true → Forall (λ b, b ≠ 0) s →
  ∃ m' w', trun (run_command (s ++ [0]) sh) m w = Done (inr (-4), m', w') ∧ same_tty (note_exec s w) w'.
Proof.
  intros Hc Hs. unfold run_command, lib_fork, u_fork.
  rewrite (trun_ecall _ _ _ _ _ 0 m w) by (cbn; by rewrite Hc). cbn [Z.eqb].
  rewrite !trun_place. unfold lib_exec, u_exec. erewrite trun_ecall by reflexivity. cbn [as_ptr]. rewrite cstr_placed by done.
  set (m2 := put _ _ _).
  destruct (tty_print [str "Error when executing!" ++ [LF]] sh m2 (note_exec s w)) as (b & m' & w' & E & Hs').
  exists m', w'. split; [|done]. change (-1 =? -1) with true. cbn iota. by rewrite (urun_bind _ _ _ _ _ _ _ _ E).
Qed.

(** The command in the parent. *)
Lemma run_command_parent s sh m w : in_child w = false → 0 < next_pid w < 2 ^ 63 →
  ∃ b m' w', trun (run_command s sh) m w = Done (inl (set_console b sh), m', w') ∧
    same_tty (note_wait (next_pid w) (new_pid w)) w'.
Proof.
  intros Hc Hp. unfold run_command, lib_fork, u_fork.
  rewrite (trun_ecall _ _ _ _ _ (next_pid w) m (new_pid w)) by (cbn; by rewrite Hc).
  rewrite (proj2 (Z.eqb_neq (next_pid w) 0)) by lia. rewrite trun_place. unfold lib_waitpid, u_waitpid.
  assert (to_signed 64 (wrap 64 (next_pid w)) = next_pid w) as Hpid.
  { rewrite to_signed_wrap by lia. apply to_signed_small; lia. }
  erewrite trun_ecall by reflexivity. rewrite !Hpid, Z.eqb_refl. cbn iota.
  rewrite (urun_bind _ _ _ _ _ _ _ _ (trun_load_bytes 4 _ _ _)).
  match goal with |- context [sh_print ?p sh] => destruct (tty_print p sh (put m (fresh m) (replicate 4 0)) (note_wait (next_pid w) (new_pid w))) as (b & m' & w' & E & Hs') end.
  exists b, m', w'. split; [|done]. by rewrite (urun_bind _ _ _ _ _ _ _ _ E).
Qed.

Lemma tty_getpwd f sh m w : ∃ t m', trun (sh_getpwd f sh) m w = Done (set_pwd_text t sh, m', w).
Proof.
  assert (∃ r t m', trun (lib_getpwd (pwd_text sh) SIZE f) m w = Done ((r, t), m', w)) as (r & t & m' & E).
  { unfold lib_getpwd, u_getcwd. rewrite trun_place. erewrite trun_ecall by reflexivity. change (0 <? 0) with false. cbn iota.
    rewrite (urun_bind _ _ _ _ _ _ _ _ (trun_load_bytes _ _ _ _)). cbv zeta. destruct (f _); by eexists _, _, _. }
  exists t, m'. unfold sh_getpwd. by rewrite (urun_bind _ _ _ _ _ _ _ _ E).
Qed.

Lemma tty_prompt sh m w : ∃ b m' w', trun (prompt sh) m w = Done (set_console b sh, m', w') ∧ same_tty w w'.
Proof.
  unfold prompt. tty_step (tty_print [str "PS HXH:"; pwd_text sh; str ">$"] sh m w).
  destruct (tty_sh_flush (set_console b sh) m0 w0) as (b' & m' & w' & E & Hs'). exists b', m', w'. split; [exact E|by eapply same_tty_trans].
Qed.

(** The end of a line, in the child and in the parent. *)
Lemma enter_child f sh m w : in_child w = true → line sh ≠ [] → Forall (λ k, 0 < k < 256) (line sh) →
  ∃ m' w', trun (enter f sh) m w = Done (inr (-4), m', w') ∧ same_tty (note_exec (utf8s (line sh)) w) w'.
Proof.
  intros Hc Hl Hb. unfold enter. destruct (tty_print [[LF]] sh m w) as (b & m1 & w1 & E1 & [l1 ->]). rewrite (urun_bind _ _ _ _ _ _ _ _ E1).
  cbn [line set_console]. rewrite bool_decide_false by done. cbv zeta. cbn [line set_line].
  rewrite utf8s_app. change (utf8s [0]) with [0].
  destruct (run_command_child (utf8s (line sh)) (set_line (line sh ++ [0]) (set_console b sh)) m1 (show l1 w)) as (m' & w' & E & Hs);
    [done|by apply utf8s_bytes|].
  exists m', w'. split; [|eapply same_tty_trans; [exists l1; reflexivity|exact Hs]].
  erewrite urun_bind; [|by rewrite (urun_bind _ _ _ _ _ _ _ _ E)]. done.
Qed.

Lemma enter_parent f sh m w : in_child w = false → line sh ≠ [] → 0 < next_pid w < 2 ^ 63 →
  ∃ sh' m' w', trun (enter f sh) m w = Done (inl sh', m', w') ∧ line sh' = [] ∧ same_tty (note_wait (next_pid w) (new_pid w)) w'.
Proof.
  intros Hc Hl Hp. unfold enter. destruct (tty_print [[LF]] sh m w) as (b & m1 & w1 & E1 & [l1 ->]). rewrite (urun_bind _ _ _ _ _ _ _ _ E1).
  cbn [line set_console]. rewrite bool_decide_false by done. cbv zeta. cbn [line set_line].
  destruct (run_command_parent (utf8s (line sh ++ [0])) (set_line (line sh ++ [0]) (set_console b sh)) m1 (show l1 w)) as (b2 & m2 & w2 & E2 & Hs2); [done..|].
  erewrite urun_bind; [|by rewrite (urun_bind _ _ _ _ _ _ _ _ E2)]. cbv beta iota.
  destruct (tty_getpwd f (set_line [] (set_console b2 (set_line (line sh ++ [0]) (set_console b sh)))) m2 w2) as (t & m3 & E3).
  rewrite (urun_bind _ _ _ _ _ _ _ _ E3). tty_step (tty_prompt (set_pwd_text t (set_line [] (set_console b2 (set_line (line sh ++ [0]) (set_console b sh))))) m3 w2).
  eexists _, _, w0. split; [reflexivity|]. split; [done|]. eapply same_tty_trans; [|exact Hs]. eapply same_tty_trans; [exists l1; reflexivity|exact Hs2].
Qed.

(** C33. The shell runs what was typed. After any keys without a line end, with
    backspace and delete editing the line, the return key makes the shell fork;
    the child executes the edited line (as UTF-8, with its terminating zero)
    and nothing else, and ends with -4 when that fails; the parent waits for
    exactly this child and comes back to an empty line with the other keys
    still to be read. The calls of the shell are answered by [tty_kernel], a
    fixed kernel with a keyboard, a screen and a log of [exec] and [waitpid],
    in which [exec] fails; the answers of the real calls are in Syscall.v. *)
Theorem shell_runs_typed_line (f : list Z → bool) (ks rest : list Z) (sh : shell) (m : umem) (w : tty) :
  line sh = [] → Forall (λ k, 0 < k < 256 ∧ k ≠ LF ∧ k ≠ CR) ks → keys w = ks ++ CR :: rest → edit ks ≠ [] → 0 < next_pid w < 2 ^ 63 →
  ∃ r m' w', trun (shell_turns f (length ks + 1) sh) m w = Done (r, m', w') ∧ keys w' = rest ∧
    if in_child w then r = inr (-4) ∧ executed w' = executed w ++ [utf8s (edit ks)] ∧ awaited w' = awaited w
    else (∃ sh', r = inl sh' ∧ line sh' = []) ∧ executed w' = executed w ∧ awaited w' = awaited w ++ [next_pid w].
Proof.
  intros Hl Hks Hk Hne Hp.
  destruct (tty_keys f ks (CR :: rest) 1 sh m w Hk) as (b1 & m1 & w1 & [l1 ->] & E1).
  { eapply Forall_impl; [exact Hks|]. by intros k (_ & ? & ?). }
  rewrite E1, Hl. fold (edit ks). clear E1. set (w1 := show l1 (set_keys (CR :: rest) w)).
  assert (Forall (λ k, 0 < k < 256) (edit ks)) as Hed.
  { apply edit_bytes; [done|]. eapply Forall_impl; [exact Hks|]. by intros k (? & _). }
  destruct (tty_getchar CR rest m1 w1 eq_refl) as [m2 E2]. set (sh1 := mkShell (edit ks) (pwd_text sh) b1).
  assert (trun (shell_turn f sh1) m1 w1 = trun (enter f sh1) m2 (set_keys rest w1)) as Hturn.
  { unfold shell_turn. by rewrite (urun_bind _ _ _ _ _ _ _ _ E2). }
  cbn [shell_turns]. destruct (in_child w) eqn:Hc.
  - destruct (enter_child f sh1 m2 (set_keys rest w1)) as (m' & w' & E & [l ->]); [done..|]. rewrite E in Hturn.
    eexists _, _, _. split; [by rewrite (urun_bind _ _ _ _ _ _ _ _ Hturn)|]. done.
  - destruct (enter_parent f sh1 m2 (set_keys rest w1)) as (sh' & m' & w' & E & Hl' & [l ->]); [done..|]. rewrite E in Hturn.
    eexists _, _, _. split; [by rewrite (urun_bind _ _ _ _ _ _ _ _ Hturn)|]. split; [done|]. split; [by exists sh'|done].
Qed.

(** "lz", a backspace, "s" and return. *)
Lemma shell_runs_typed_line_witness :
  ∃ m' w', trun (shell_turns (λ _, true) 5 (mkShell [] [] [])) ∅ (mkTty [108; 122; 127; 115; 13] [] true 2 [] []) = Done (inr (-4), m', w') ∧
    executed w' = [[108; 115]].
Proof.
  destruct (shell_runs_typed_line (λ _, true) [108; 122; 127; 115] [] (mkShell [] [] []) ∅ (mkTty [108; 122; 127; 115; 13] [] true 2 [] []))
    as (r & m' & w' & E & _ & (-> & He & _)).
  - reflexivity.
  - unfold LF, CR. repeat constructor; lia.
  - reflexivity.
  - vm_compute. discriminate.
  - cbn [next_pid]. lia.
  - exists m', w'. split; [exact E|exact He].
Defined.
