(* ===== verification/Spin.v ===== *)
(** * Locks and lazy statics (src/dependencies/spin-0.7.1/src/rw_lock.rs,
    spin-0.9.8/src/mutex/spin.rs and once.rs, lazy_static-1.5.0/src/core_lazy.rs)

    The file system keeps its caches, tables and files behind the reader-writer
    lock of spin 0.7.1; pipes and the console buffer are behind the mutex of
    spin 0.9.8, and every [lazy_static!] behind its [Once]. Here any number of
    threads use one lock. An atomic access is one step, and the steps of the
    threads interleave in any order; an operation with two atomic accesses is
    two steps, between which the thread is in a state of its own. The loops of
    the blocking operations repeat the operation that tries, and a thread
    between two turns of such a loop is where it was before the first.

    A weak [compare_exchange] may fail although the value is the expected one;
    [lucky] says whether it does not. Memory orderings are not modelled: the
    steps are sequentially consistent. *)

From S2P Require Import Prelude.

(** ** Atomic words *)

Definition fetch_add (v : Z) : ST Z Z := λ w, Done (w, w ⊞ v).
Definition fetch_sub (v : Z) : ST Z Z := λ w, Done (w, w ⊟ v).
Definition fetch_or (v : Z) : ST Z Z := λ w, Done (w, Z.lor w v).
Definition fetch_and (v : Z) : ST Z Z := λ w, Done (w, Z.land w v).

(** Whether the exchange took place. *)
Definition compare_exchange {X} `{EqDecision X} (current new : X) (strong lucky : bool) : ST X bool := λ w,
  if bool_decide (w = current) && (strong || lucky) then Done (true, new) else Done (false, w).

(** One thread of a list moves. *)
Lemma sum_insert {X} (f : X → nat) (l : list X) i x y :
  l !! i = Some x → (sum_list_with f (<[i := y]> l) + f x = sum_list_with f l + f y)%nat.
Proof.
  revert i. induction l as [|z l IH]; intros [|i] Hi; simplify_eq/=; [lia|]. specialize (IH i Hi). lia.
Qed.

Lemma sum_lookup {X} (f : X → nat) (l : list X) i x : l !! i = Some x → (f x ≤ sum_list_with f l)%nat.
Proof. revert i. induction l as [|z l IH]; intros [|i] Hi; simplify_eq/=; [lia|]. specialize (IH i Hi). lia. Qed.

Lemma sum_two {X} (f : X → nat) (l : list X) i j x y :
  l !! i = Some x → l !! j = Some y → i ≠ j → (f x + f y ≤ sum_list_with f l)%nat.
Proof.
  revert i j. induction l as [|z l IH]; intros [|i] [|j] Hi Hj Hij; simplify_eq/=.
  - pose proof (sum_lookup f l _ _ Hj). lia.
  - pose proof (sum_lookup f l _ _ Hi). lia.
  - specialize (IH i j Hi Hj ltac:(congruence)). lia.
Qed.

Lemma sum_zero {X} (f : X → nat) (l : list X) : Forall (λ x, f x = 0%nat) l → sum_list_with f l = 0%nat.
Proof. induction 1 as [|z l Hz _ IH]; simpl; lia. Qed.

Lemma sum_le {X} (f : X → nat) (l : list X) : (∀ x, f x ≤ 1)%nat → (sum_list_with f l ≤ length l)%nat.
Proof. intros Hf. induction l as [|z l IH]; simpl; [done|]. specialize (Hf z). lia. Qed.

(** ** The reader-writer lock *)

Module RwLock.

Definition READER : Z := 4.
Definition UPGRADED : Z := 2.
Definition WRITER : Z := 1.

(** What a thread has: nothing, a read, write or upgradable guard, or it is
    between the two steps of [try_read] when the lock is taken ([Undo]), of
    [downgrade] of a write guard or of an upgradable one. *)
Inductive guard := Idle | Undo | Reading | Writing | Upgradable | WriteToRead | UpgradableToRead.

#[global] Instance guard_eq : EqDecision guard.
Proof. solve_decision. Defined.

(** [RwLock::new] *)
Definition RwLock_new : Z := 0.

Definition try_read_start : ST Z guard :=
  value ← fetch_add READER;
  if negb (Z.land value (Z.lor WRITER UPGRADED) =? 0) then mret Undo else mret Reading.
Definition try_read_undo : ST Z guard := fetch_sub READER;; mret Idle.

(** Without interference. *)
Definition try_read : ST Z guard :=
  g ← try_read_start;
  if decide (g = Undo) then try_read_undo else mret g.

Definition reader_count (state : Z) : Z := state / READER + Z.land state UPGRADED / UPGRADED.
Definition writer_count (state : Z) : Z := Z.land state WRITER / WRITER.

Definition try_write_internal (strong lucky : bool) : ST Z guard :=
  ok ← compare_exchange 0 WRITER strong lucky;
  mret (if ok : bool then Writing else Idle).

Definition try_upgradeable_read : ST Z guard :=
  value ← fetch_or UPGRADED;
  if Z.land value (Z.lor WRITER UPGRADED) =? 0 then mret Upgradable else mret Idle.

Definition try_upgrade_internal (strong lucky : bool) : ST Z guard :=
  ok ← compare_exchange UPGRADED WRITER strong lucky;
  mret (if ok : bool then Writing else Upgradable).

(** [drop] of the three guards. *)
Definition drop_read : ST Z guard := fetch_sub READER;; mret Idle.
Definition drop_upgradable : ST Z guard := fetch_sub UPGRADED;; mret Idle.
Definition drop_write : ST Z guard := fetch_and (wnot 64 (Z.lor WRITER UPGRADED));; mret Idle.

(** [downgrade] takes the read guard and then drops the other one. *)
Definition downgrade_start (g : guard) : ST Z guard := fetch_add READER;; mret g.
Definition upgradable_downgrade_finish : ST Z guard := drop_upgradable;; mret Reading.
Definition write_downgrade_finish : ST Z guard := drop_write;; mret Reading.
Definition downgrade_to_upgradeable : ST Z guard := st_put UPGRADED;; mret Upgradable.

(** The atomic steps, and from which state a thread can make them. *)
Inductive op :=
| TryRead | TryWrite (strong lucky : bool) | TryUpgradeableRead | TryUpgrade (strong lucky : bool)
| Downgrade | DowngradeToUpgradeable | Drop | Continue.

Definition perform (o : op) (g : guard) : option (ST Z guard) :=
  match o, g with
  | TryRead, Idle => Some try_read_start
  | TryWrite strong lucky, Idle => Some (try_write_internal strong lucky)
  | TryUpgradeableRead, Idle => Some try_upgradeable_read
  | TryUpgrade strong lucky, Upgradable => Some (try_upgrade_internal strong lucky)
  | Downgrade, Upgradable => Some (downgrade_start UpgradableToRead)
  | Downgrade, Writing => Some (downgrade_start WriteToRead)
  | DowngradeToUpgradeable, Writing => Some downgrade_to_upgradeable
  | Drop, Reading => Some drop_read
  | Drop, Upgradable => Some drop_upgradable
  | Drop, Writing => Some drop_write
  | Continue, Undo => Some try_read_undo
  | Continue, UpgradableToRead => Some upgradable_downgrade_finish
  | Continue, WriteToRead => Some write_downgrade_finish
  | _, _ => None
  end.

(** A lock and the threads that use it. *)
Record lock := mkLock { word : Z; threads : list guard }.

(** Thread [i] performs [o]. *)
Definition turn (i : nat) (o : op) (s : lock) : option lock :=
  g ← threads s !! i; m ← perform o g;
  match m (word s) with Done (g', w) => Some (mkLock w (<[i := g']> (threads s))) | _ => None end.

Definition lock_step (allowed : op → Prop) (s s' : lock) : Prop := ∃ i o, allowed o ∧ turn i o s = Some s'.

(** The loops of [read], [write] and [upgradeable_read]. *)
Definition spin (attempt : ST Z guard) (fuel : nat) : ST Z guard :=
  loop fuel (λ _ : unit, g ← attempt; mret (if decide (g = Idle) then inl tt else inr g)) tt.
Definition read : nat → ST Z guard := spin try_read.
Definition write (lucky : bool) : nat → ST Z guard := spin (try_write_internal false lucky).
Definition upgradeable_read : nat → ST Z guard := spin try_upgradeable_read.

(** *** The invariant: the word counts the guards *)

Definition n_read (g : guard) : nat :=
  match g with Undo | Reading | WriteToRead | UpgradableToRead => 1 | _ => 0 end.
Definition n_write (g : guard) : nat := match g with Writing | WriteToRead => 1 | _ => 0 end.
Definition n_up (g : guard) : nat := match g with Upgradable | UpgradableToRead => 1 | _ => 0 end.
Definition n_reading (g : guard) : nat := match g with Reading => 1 | _ => 0 end.

Abbreviation total f s := (sum_list_with f (threads s)).

(** [late] is the UPGRADED bit that a failed [try_upgradeable_read] has set;
    the writer clears it. *)
Definition rw_inv (s : lock) : Prop :=
  Z.of_nat (length (threads s)) < 2 ^ 61 ∧
  ∃ late : nat, word s = 4 * Z.of_nat (total n_read s) + (2 * Z.of_nat (total n_up s + late) + Z.of_nat (total n_write s)) ∧
    (total n_write s + total n_up s ≤ 1)%nat ∧ (late ≤ total n_write s)%nat ∧
    (total n_write s = 1 → total n_reading s = 0)%nat.

Lemma low_bits r x : 0 ≤ x < 4 → Z.land (4 * r + x) 3 = x.
Proof. intros Hx. change 3 with (2 ^ 2 - 1). rewrite land_ones_mod by lia. change (2 ^ 2) with 4. zlia. Qed.

Lemma set_up r x : 0 ≤ x < 4 → Z.lor (4 * r + x) 2 = 4 * r + (if x <? 2 then x + 2 else x).
Proof.
  intros Hx. replace (4 * r + x) with (r * 2 ^ 2 + x) by lia. rewrite <- (lor_shiftl_add r x 2) by lia.
  rewrite <- Z.lor_assoc. assert (Z.lor x 2 = if x <? 2 then x + 2 else x) as ->.
  { assert (x = 0 ∨ x = 1 ∨ x = 2 ∨ x = 3) as [->|[->|[->| ->]]] by lia; done. }
  rewrite lor_shiftl_add by (destruct (Z.ltb_spec x 2); lia). lia.
Qed.

Lemma clear_low r x : 0 ≤ x < 4 → 0 ≤ 4 * r + x < 2 ^ 64 → Z.land (4 * r + x) (wnot 64 3) = 4 * r.
Proof.
  intros Hx Hr. change (wnot 64 3) with (Z.ldiff (Z.ones 64) (Z.ones 2)).
  rewrite Z.ldiff_land, Z.land_assoc, <- Z.ldiff_land, Z.land_ones, Z.mod_small, Z.ldiff_ones_r, Z.shiftl_mul_pow2, Z.shiftr_div_pow2 by lia.
  change (2 ^ 2) with 4. zlia.
Qed.

Lemma rw_inv_new n : Z.of_nat n < 2 ^ 61 → rw_inv (mkLock RwLock_new (replicate n Idle)).
Proof.
  intros Hn. split; cbn [threads word]; [by rewrite length_replicate|]. exists 0%nat.
  rewrite !(sum_zero _ (replicate n Idle)) by (by apply Forall_replicate). split_and!; [done|lia..].
Qed.

(** What a step does to a word of the invariant, given by the number of
    readers [r] and the low bits [x]. *)
Lemma step_word o g m r x g' w :
  perform o g = Some m → o ≠ DowngradeToUpgradeable → m (4 * r + x) = Done (g', w) →
  0 ≤ x < 4 → 0 ≤ r < 2 ^ 61 → (n_read g = 1%nat → 1 ≤ r) → (n_up g = 1%nat → x = 2) →
  match g, g' with
  | Idle, Reading => x = 0 ∧ w = 4 * (r + 1) + x
  | Idle, Undo => x ≠ 0 ∧ w = 4 * (r + 1) + x
  | Idle, Writing => r = 0 ∧ x = 0 ∧ w = 1
  | Idle, Upgradable => x = 0 ∧ w = 4 * r + 2
  | Idle, Idle => w = 4 * r + x ∨ x = 1 ∧ w = 4 * r + 3
  | Upgradable, Writing => r = 0 ∧ x = 2 ∧ w = 1
  | Upgradable, Upgradable => w = 4 * r + x
  | Upgradable, UpgradableToRead => w = 4 * (r + 1) + x
  | Writing, WriteToRead => w = 4 * (r + 1) + x
  | (Reading | Undo), Idle => w = 4 * (r - 1) + x
  | Upgradable, Idle => w = 4 * r
  | UpgradableToRead, Reading => w = 4 * r
  | Writing, Idle => w = 4 * r
  | WriteToRead, Reading => w = 4 * r
  | _, _ => False
  end.
Proof.
  intros Hm Ho E Hx Hr Hrd Hup.
  destruct o as [|strong lucky| |strong lucky| | | |], g; simplify_eq/=;
    unfold try_read_start, try_read_undo, try_write_internal, try_upgradeable_read, try_upgrade_internal, drop_read, drop_upgradable,
      drop_write, downgrade_start, upgradable_downgrade_finish, write_downgrade_finish, drop_write, drop_upgradable, compare_exchange,
      fetch_add, fetch_sub, fetch_or, fetch_and, mbind, st_bind, mret, st_ret in E;
    change (Z.lor WRITER UPGRADED) with 3 in E; rewrite ?low_bits in E by done.
  - rewrite wadd_small in E by (unfold fits, READER; lia). unfold READER in *.
    destruct (Z.eqb_spec x 0); simplify_eq/=; (split; [done|lia]).
  - case_bool_decide; cbn [andb] in E; [|injection E as <- <-; by left].
    destruct (strong || lucky); simplify_eq/=; [unfold WRITER; lia|by left].
  - unfold UPGRADED in E. rewrite set_up in E by done. destruct (Z.eqb_spec x 0) as [->|]; simplify_eq/=; [done|].
    destruct (Z.ltb_spec x 2); [right; split; lia|by left].
  - case_bool_decide as E1; cbn [andb] in E; [|by simplify_eq/=].
    unfold UPGRADED in E1. destruct (strong || lucky); simplify_eq/=; [unfold WRITER; lia|done].
  - rewrite wadd_small in E by (unfold fits, READER; lia). unfold READER in E. simplify_eq/=. lia.
  - rewrite wadd_small in E by (unfold fits, READER; lia). unfold READER in E. simplify_eq/=. lia.
  - specialize (Hrd eq_refl). rewrite wsub_small in E by (unfold fits, READER; lia). unfold READER in E. simplify_eq/=. lia.
  - rewrite clear_low in E by lia. by simplify_eq/=.
  - specialize (Hup eq_refl). subst x. rewrite wsub_small in E by (unfold fits, UPGRADED; lia). unfold UPGRADED in E. simplify_eq/=. lia.
  - specialize (Hrd eq_refl). rewrite wsub_small in E by (unfold fits, READER; lia). unfold READER in E. simplify_eq/=. lia.
  - rewrite clear_low in E by lia. by simplify_eq/=.
  - specialize (Hup eq_refl). subst x. rewrite wsub_small in E by (unfold fits, UPGRADED; lia). unfold UPGRADED in E. simplify_eq/=. lia.
Qed.

Lemma rw_inv_step s s' : rw_inv s → lock_step (λ o, o ≠ DowngradeToUpgradeable) s s' → rw_inv s'.
Proof.
  intros (Hn & late & Hw & H1 & H2 & H3) (i & o & Ho & E). unfold turn in E.
  destruct (threads s !! i) as [g|] eqn:Hi; [|done]. cbn in E.
  destruct (perform o g) as [m|] eqn:Hm; [|done]. cbn in E.
  destruct (m (word s)) as [[g' w]| |] eqn:Em; [|done|done]. injection E as <-.
  pose proof (sum_insert n_read _ _ _ g' Hi) as Sr. pose proof (sum_insert n_write _ _ _ g' Hi) as Sw.
  pose proof (sum_insert n_up _ _ _ g' Hi) as Su. pose proof (sum_insert n_reading _ _ _ g' Hi) as Sg.
  assert (total n_read s ≤ length (threads s))%nat as Hle by (apply sum_le; intros []; simpl; lia).
  assert (total n_reading s ≤ total n_read s)%nat as Hrr.
  { clear. induction (threads s) as [|[] l IH]; simpl; lia. }
  pose proof (sum_lookup n_read _ _ _ Hi). pose proof (sum_lookup n_up _ _ _ Hi). pose proof (sum_lookup n_write _ _ _ Hi).
  rewrite Hw in Em. apply (step_word o g) in Em; [|done|done|lia|lia|lia|lia].
  split; cbn [threads word]; [by rewrite length_insert|].
  destruct g, g'; cbn [n_read n_write n_up n_reading] in *; try done.
  all: (exists late; split_and!; lia) || (exists 0%nat; split_and!; lia) || idtac.
  destruct Em as [->|[? ->]]; [exists late|exists 1%nat]; split_and!; lia.
Qed.

Lemma rw_inv_reachable n s :
  Z.of_nat n < 2 ^ 61 → rtc (lock_step (λ o, o ≠ DowngradeToUpgradeable)) (mkLock RwLock_new (replicate n Idle)) s → rw_inv s.
Proof.
  intros Hn Hs. assert (rw_inv (mkLock RwLock_new (replicate n Idle))) as H0 by by apply rw_inv_new.
  induction Hs; [done|]. eauto using rw_inv_step.
Qed.

(** *** What the guards promise *)

(** A thread that holds [g] lets another thread hold [h]. *)
Definition allows (g h : guard) : bool :=
  match g, h with
  | (Idle | Undo), _ | _, (Idle | Undo) => true
  | Reading, (Reading | Upgradable | UpgradableToRead) => true
  | (Upgradable | UpgradableToRead), Reading => true
  | _, _ => false
  end.

Lemma rw_inv_exclusion s i j g h : rw_inv s → threads s !! i = Some g → threads s !! j = Some h → i ≠ j → allows g h = true.
Proof.
  intros (_ & late & _ & H1 & _ & H3) Hi Hj Hij.
  pose proof (sum_two n_write _ _ _ _ _ Hi Hj Hij). pose proof (sum_two n_up _ _ _ _ _ Hi Hj Hij).
  pose proof (sum_two (λ g, n_write g + n_up g)%nat _ _ _ _ _ Hi Hj Hij) as Hwu.
  assert (total (λ g, n_write g + n_up g)%nat s = total n_write s + total n_up s)%nat as E.
  { clear. induction (threads s); simpl; lia. }
  pose proof (sum_lookup n_reading _ _ _ Hi). pose proof (sum_lookup n_reading _ _ _ Hj).
  destruct g, h; cbn [n_write n_up n_reading allows] in *; done || lia.
Qed.

(** The lock that is free is taken at the first attempt. *)
Lemma free_word s : rw_inv s → Forall (λ g, g = Idle) (threads s) → word s = 0.
Proof.
  intros (_ & late & Hw & H1 & H2 & _) Hidle.
  assert (∀ f, f Idle = 0%nat → total f s = 0%nat) as Hz.
  { intros f Hf. apply sum_zero. eapply Forall_impl; [exact Hidle|]. by intros ? ->. }
  rewrite Hw, !Hz in * by done. lia.
Qed.

Fixpoint turns (l : list (nat * op)) (s : lock) : option lock :=
  match l with
  | [] => Some s
  | (i, o) :: l => s' ← turn i o s; turns l s'
  end.

Lemma turns_reachable allowed l s s' : Forall (λ io, allowed io.2) l → turns l s = Some s' → rtc (lock_step allowed) s s'.
Proof.
  revert s. induction l as [|[i o] l IH]; intros s Hl E; simpl in E; [by simplify_eq|].
  inversion Hl; subst. destruct (turn i o s) as [s1|] eqn:E1; [|done]. cbn in E.
  apply rtc_l with s1; [by exists i, o|by apply IH].
Qed.

(** C23. The reader-writer lock excludes what it should: however the steps of
    the threads interleave, a writer is alone, upgradable readers are alone
    among themselves, and readers share the lock. The word tells whether there
    is a writer; without writers and upgradable readers a reader gets in at
    once; and when all guards are dropped the lock is free, so whoever comes
    next gets it at the first attempt. [downgrade_to_upgradeable] is left out:
    see below. *)
Theorem rwlock_exclusion n s :
  Z.of_nat n < 2 ^ 61 →
  rtc (lock_step (λ o, o ≠ DowngradeToUpgradeable)) (mkLock RwLock_new (replicate n Idle)) s →
  (∀ i j g h, threads s !! i = Some g → threads s !! j = Some h → i ≠ j → allows g h = true) ∧
  writer_count (word s) = Z.of_nat (total n_write s) ∧
  (Forall (λ g, n_write g = 0 ∧ n_up g = 0)%nat (threads s) → read 1 (word s) = Done (Reading, word s + READER)) ∧
  (Forall (λ g, g = Idle) (threads s) →
     write true 1 (word s) = Done (Writing, WRITER) ∧ upgradeable_read 1 (word s) = Done (Upgradable, UPGRADED)).
Proof.
  intros Hn Hs. apply rw_inv_reachable in Hs; [|done]. split; [by intros; eapply rw_inv_exclusion|].
  pose proof Hs as (Hlen & late & Hw & H1 & H2 & _). split_and!.
  - unfold writer_count, WRITER. rewrite Z.div_1_r. change 1 with (2 ^ 1 - 1) at 1. rewrite land_ones_mod, Hw by lia.
    change (2 ^ 1) with 2. zlia.
  - intros Hno.
    assert (total n_write s = 0%nat) as H3 by (apply sum_zero; eapply Forall_impl; [exact Hno|]; by intros ? []).
    assert (total n_up s = 0%nat) as H4 by (apply sum_zero; eapply Forall_impl; [exact Hno|]; by intros ? []).
    assert (total n_read s ≤ length (threads s))%nat by (apply sum_le; intros []; simpl; lia).
    assert (word s = 4 * Z.of_nat (total n_read s) + 0) as Hw' by lia. rewrite Hw'.
    unfold read, spin. cbn [loop]. unfold try_read, try_read_start, fetch_add, mbind, st_bind. rewrite wadd_small by (unfold fits, READER; lia).
    change (Z.lor WRITER UPGRADED) with 3. rewrite low_bits by lia. done.
  - intros Hidle. by rewrite (free_word s Hs Hidle).
Qed.

Definition wit_turns : list (nat * op) :=
  [(0, TryRead); (2, TryRead); (1, TryWrite true true); (0, Drop); (2, Drop); (1, TryWrite false true); (0, TryRead); (2, TryUpgradeableRead)]%nat.

Lemma wit_turns_run : turns wit_turns (mkLock RwLock_new (replicate 3 Idle)) = Some (mkLock 7 [Undo; Writing; Idle]).
Proof. vm_compute. reflexivity. Qed.

Lemma rwlock_exclusion_witness : allows Writing Undo = true ∧ writer_count 7 = 1.
Proof.
  destruct (rwlock_exclusion 3 (mkLock 7 [Undo; Writing; Idle])) as (Hex & Hw & _).
  - lia.
  - apply (turns_reachable _ wit_turns); [|exact wit_turns_run]. unfold wit_turns. by repeat constructor.
  - split; [exact (Hex 1%nat 0%nat Writing Undo eq_refl eq_refl ltac:(lia))|exact Hw].
Defined.

(** [downgrade_to_upgradeable] stores the word instead of changing its bits: the
    reader that was just turned away then takes its count from a word that no
    longer has it. Afterwards a reader and a writer hold the lock together. *)
Theorem downgrade_to_upgradeable_breaks_exclusion :
  rtc (lock_step (λ _, True)) (mkLock RwLock_new (replicate 2 Idle)) (mkLock 1 [Reading; Writing]).
Proof.
  apply (turns_reachable _ [(0, TryWrite true true); (1, TryRead); (0, DowngradeToUpgradeable); (1, Continue); (0, Drop); (0, TryRead); (1, TryWrite true true)]%nat).
  - by repeat constructor.
  - vm_compute. reflexivity.
Qed.

End RwLock.

(** ** The mutex *)

Module SpinMutex.

Section mutex.
Context {D : Type}.

(** A thread is outside, waits until the lock looks free, or holds the guard.
    Inside it works on the data by loading it and storing a new value, which
    are two steps. *)
Inductive thread := Outside | Waiting | Inside | Loaded (d : D).

Definition try_lock : ST bool thread :=
  ok ← compare_exchange false true true true;
  mret (if ok : bool then Inside else Outside).

(** One turn of the outer loop of [lock], and one of the inner loop. *)
Definition lock_attempt (lucky : bool) : ST bool thread :=
  ok ← compare_exchange false true false lucky;
  mret (if ok : bool then Inside else Waiting).
Definition is_locked : ST bool bool := st_get.
Definition lock_wait : ST bool thread :=
  b ← is_locked; mret (if b : bool then Waiting else Outside).

(** [drop] of the guard. *)
Definition drop_guard : ST bool thread := st_put false;; mret Outside.

(** The lock, what it protects, the threads, and the updates made so far. *)
Record mutex := mkMutex { m_lock : bool; m_data : D; m_threads : list thread; m_log : list (D → D) }.

Definition SpinMutex_new (d : D) (n : nat) : mutex := mkMutex false d (replicate n Outside) [].

Inductive op := TryLock | Lock (lucky : bool) | Wait | Load | Store (f : D → D) | Unlock.

Definition on_lock (i : nat) (m : ST bool thread) (s : mutex) : option mutex :=
  match m (m_lock s) with
  | Done (t, l) => Some (mkMutex l (m_data s) (<[i := t]> (m_threads s)) (m_log s))
  | _ => None
  end.

Definition turn (i : nat) (o : op) (s : mutex) : option mutex :=
  t ← m_threads s !! i;
  match o, t with
  | TryLock, Outside => on_lock i try_lock s
  | Lock lucky, Outside => on_lock i (lock_attempt lucky) s
  | Wait, Waiting => on_lock i lock_wait s
  | Load, Inside => Some (mkMutex (m_lock s) (m_data s) (<[i := Loaded (m_data s)]> (m_threads s)) (m_log s))
  | Store f, Loaded d => Some (mkMutex (m_lock s) (f d) (<[i := Inside]> (m_threads s)) (m_log s ++ [f]))
  | Unlock, Inside => on_lock i drop_guard s
  | _, _ => None
  end.

Definition mutex_step (s s' : mutex) : Prop := ∃ i o, turn i o s = Some s'.

Definition n_inside (t : thread) : nat := match t with Inside | Loaded _ => 1 | _ => 0 end.
Definition up_to_date (d : D) (t : thread) : Prop := match t with Loaded d' => d' = d | _ => True end.

Record mutex_inv (d0 : D) (s : mutex) : Prop := {
  mi_lock : sum_list_with n_inside (m_threads s) = if m_lock s then 1%nat else 0%nat;
  mi_fresh : Forall (up_to_date (m_data s)) (m_threads s);
  mi_log : m_data s = foldl (λ d f, f d) d0 (m_log s);
}.

Lemma mutex_inv_new d0 n : mutex_inv d0 (SpinMutex_new d0 n).
Proof. split; [by apply sum_zero, Forall_replicate|by apply Forall_replicate|done]. Qed.

(** A thread inside is the only one, so no other has an old copy of the data. *)
Lemma alone d0 s i t d : mutex_inv d0 s → m_threads s !! i = Some t → n_inside t = 1%nat →
  ∀ j u, m_threads s !! j = Some u → j ≠ i → up_to_date d u.
Proof.
  intros [Hl _ _] Hi Ht j u Hj Hij. pose proof (sum_two n_inside _ _ _ _ _ Hi Hj (not_eq_sym Hij)).
  destruct u; [done..|]. simpl in *. destruct (m_lock s); lia.
Qed.

Lemma threads_insert d0 s i t t' d : mutex_inv d0 s → m_threads s !! i = Some t → up_to_date d t' →
  (d = m_data s ∨ n_inside t = 1%nat) → Forall (up_to_date d) (<[i := t']> (m_threads s)).
Proof.
  intros Hs Hi Ht' Hd. apply Forall_lookup. intros j u [(-> & -> & _)|[Hij Hj]]%list_lookup_insert_Some; [done|].
  destruct Hd as [->|Hn]; [exact (proj1 (Forall_lookup _ _) (mi_fresh _ _ Hs) j u Hj)|exact (alone d0 s i t d Hs Hi Hn j u Hj (not_eq_sym Hij))].
Qed.

Lemma mutex_inv_step d0 s s' : mutex_inv d0 s → mutex_step s s' → mutex_inv d0 s'.
Proof.
  intros Hs (i & o & E). pose proof Hs as [Hl _ Hlog]. unfold turn in E.
  destruct (m_threads s !! i) as [t|] eqn:Hi; [|done]. cbn in E.
  assert (∀ t' l d log, up_to_date d t' → (d = m_data s ∨ n_inside t = 1%nat) → d = foldl (λ d f, f d) d0 log →
     ((if m_lock s then 1 else 0) + n_inside t' = (if l : bool then 1 else 0) + n_inside t)%nat →
     mutex_inv d0 (mkMutex l d (<[i := t']> (m_threads s)) log)) as Hgoal.
  { intros t' l d log Ht' Hd Hd0 Hn. split; cbn; [|by eapply threads_insert|done].
    pose proof (sum_insert n_inside _ _ _ t' Hi). lia. }
  pose proof (sum_lookup n_inside _ _ _ Hi).
  destruct o, t; try done; unfold on_lock in E; simplify_eq/=.
  - destruct (m_lock s) eqn:El; simplify_eq/=; apply Hgoal; rewrite ?El; simpl; auto with lia.
  - destruct (m_lock s) eqn:El, lucky; simplify_eq/=; apply Hgoal; rewrite ?El; simpl; auto with lia.
  - destruct (m_lock s) eqn:El; simplify_eq/=; apply Hgoal; rewrite ?El; simpl; auto with lia.
  - apply Hgoal; simpl; auto.
  - apply Hgoal; [done|by right| |simpl; lia].
    rewrite foldl_app. simpl. rewrite <- Hlog. f_equal.
    exact (proj1 (Forall_lookup _ _) (mi_fresh _ _ Hs) i _ Hi).
  - apply Hgoal; simpl; auto. destruct (m_lock s); simpl in *; lia.
Qed.

(** C24. The mutex makes the critical sections atomic: however the steps of the
    threads interleave, the data is what the updates make of it when they run
    one after the other, in the order in which they were stored; at most one
    thread holds the guard, the lock is taken exactly while one does, and a
    thread that comes when nobody holds it gets it. *)
Theorem mutex_atomic (d0 : D) (n : nat) (s : mutex) :
  rtc mutex_step (SpinMutex_new d0 n) s →
  m_data s = foldl (λ d f, f d) d0 (m_log s) ∧
  (∀ i j t u, m_threads s !! i = Some t → m_threads s !! j = Some u → n_inside t = 1%nat → n_inside u = 1%nat → i = j) ∧
  (m_lock s = true ↔ ∃ i t, m_threads s !! i = Some t ∧ n_inside t = 1%nat) ∧
  (∀ i, m_threads s !! i = Some Outside → Forall (λ t, n_inside t = 0%nat) (m_threads s) →
     ∃ s', turn i (Lock true) s = Some s' ∧ m_threads s' !! i = Some Inside).
Proof.
  intros Hs. assert (mutex_inv d0 s) as [Hl _ Hlog].
  { assert (mutex_inv d0 (SpinMutex_new d0 n)) as H0 by apply mutex_inv_new. induction Hs; eauto using mutex_inv_step. }
  split_and!; [done| | |].
  - intros i j t u Hi Hj Ht Hu. destruct (decide (i = j)); [done|].
    pose proof (sum_two n_inside _ _ _ _ _ Hi Hj ltac:(done)). destruct (m_lock s); lia.
  - split.
    + intros E. rewrite E in Hl. clear - Hl. induction (m_threads s) as [|t l IH]; simpl in Hl; [lia|].
      destruct (n_inside t) as [|k] eqn:Et.
      * destruct (IH Hl) as (i & u & Hi & Hu). by exists (S i), u.
      * exists 0%nat, t. split; [done|]. destruct t; simpl in *; congruence.
    + intros (i & t & Hi & Ht). pose proof (sum_lookup n_inside _ _ _ Hi). destruct (m_lock s); [done|lia].
  - intros i Hi Hno. rewrite (sum_zero _ _ Hno) in Hl. destruct (m_lock s) eqn:El; [done|].
    unfold turn. rewrite Hi. cbn. unfold on_lock, lock_attempt, compare_exchange. cbn. rewrite El. eexists. split; [done|].
    cbn. apply list_lookup_insert_eq. by eapply lookup_lt_Some.
Qed.

Fixpoint turns (l : list (nat * op)) (s : mutex) : option mutex :=
  match l with
  | [] => Some s
  | (i, o) :: l => s' ← turn i o s; turns l s'
  end.

Lemma mutex_turns_steps l s s' : turns l s = Some s' → rtc mutex_step s s'.
Proof.
  revert s. induction l as [|[i o] l IH]; intros s E; simpl in E; [by simplify_eq|].
  destruct (turn i o s) as [s1|] eqn:E1; [|done]. cbn in E. apply rtc_l with s1; [by exists i, o|by apply IH].
Qed.

End mutex.

Definition wit_updates : list (nat * op) :=
  [(0, Lock true); (1, Lock true); (0, Load); (1, Wait); (0, Store (Z.add 5)); (0, Unlock); (1, Wait); (1, TryLock); (1, Load); (1, Store (Z.mul 3))]%nat.

Definition wit_mutex : mutex := mkMutex true 18 [Outside; Inside] [Z.add 5; Z.mul 3].

Lemma wit_updates_run : turns wit_updates (SpinMutex_new 1 2) = Some wit_mutex.
Proof. reflexivity. Qed.

Lemma mutex_atomic_witness : m_data wit_mutex = foldl (λ d f, f d) 1 [Z.add 5; Z.mul 3] ∧ m_data wit_mutex = 18.
Proof.
  split; [|reflexivity]. destruct (mutex_atomic 1 2 wit_mutex) as [H _]; [|exact H].
  exact (mutex_turns_steps wit_updates _ _ wit_updates_run).
Defined.

End SpinMutex.

(** ** Lazy statics *)

Module Once.

Inductive Status := Incomplete | Running | Complete | Panicked.

#[global] Instance status_eq : EqDecision Status.
Proof. solve_decision. Defined.

Section once.
Context {T : Type}.

(** Where a caller of [call_once], [try_call_once] or [wait] is: before [get],
    in the loop of [try_call_once_slow], in [poll] inside that loop, in the loop
    of [wait], running the builder, about to write its value, about to store
    [Complete], about to read the value; or it has returned with the value or
    an error, or panicked, or read data that nobody has written. *)
Inductive caller :=
| Call | Slow | Polling | Waiting | Building | Writing (v : T) | Wrote | Getting
| Returned (v : T) | Failed | Crashed | Undefined.

(** [status] and [data] *)
Record once := mkOnce { status : Status; data : option T }.
Definition Once_new : once := mkOnce Incomplete None.

Definition set_status (st : Status) : ST once unit := st_modify (λ o, mkOnce st (data o)).

Definition force_get : ST once caller :=
  o ← st_get; mret (match data o with Some v => Returned v | None => Undefined end).

Definition get : ST once caller :=
  o ← st_get;
  match status o with Complete => mret Getting | _ => mret Slow end.

(** [compare_exchange(Incomplete, Running)] and the match on its result. *)
Definition try_call_once_slow : ST once caller :=
  o ← st_get;
  match status o with
  | Incomplete => set_status Running;; mret Building
  | Panicked => mret Crashed
  | Running => mret Polling
  | Complete => mret Getting
  end.

(** One load of [poll]; [none] is where the caller goes on with [None], and
    [again] where it spins. *)
Definition poll (none again : caller) : ST once caller :=
  o ← st_get;
  match status o with
  | Incomplete => mret none
  | Running => mret again
  | Complete => mret Getting
  | Panicked => mret Crashed
  end.

(** The builder returns a value or an error, or it panics: then the guard
    [Finish] is dropped. *)
Inductive built := BOk (v : T) | BErr | BPanic.

Definition Finish_drop : ST once unit := set_status Panicked.

Definition build (r : built) : ST once caller :=
  match r with
  | BOk v => mret (Writing v)
  | BErr => set_status Incomplete;; mret Failed
  | BPanic => Finish_drop;; mret Crashed
  end.

Definition write_value (v : T) : ST once caller := st_modify (λ o, mkOnce (status o) (Some v));; mret Wrote.
Definition complete : ST once caller := set_status Complete;; mret Getting.

Inductive op := Go | Build (r : built).

Definition perform (o : op) (c : caller) : option (ST once caller) :=
  match o, c with
  | Go, Call => Some get
  | Go, Slow => Some try_call_once_slow
  | Go, Polling => Some (poll Slow Polling)
  | Go, Waiting => Some (poll Waiting Waiting)
  | Build r, Building => Some (build r)
  | Go, Writing v => Some (write_value v)
  | Go, Wrote => Some complete
  | Go, Getting => Some force_get
  | _, _ => None
  end.

(** The static, its callers, and how often the builder has run. *)
Record system := mkSystem { sy_once : once; sy_callers : list caller; sy_runs : nat }.

Definition turn (i : nat) (o : op) (s : system) : option system :=
  c ← sy_callers s !! i; m ← perform o c;
  match m (sy_once s) with
  | Done (c', w) => Some (mkSystem w (<[i := c']> (sy_callers s)) (match o with Build _ => S (sy_runs s) | Go => sy_runs s end))
  | _ => None
  end.

(** Builders of [call_once], and of [Lazy::get], return no errors. *)
Definition infallible (o : op) : Prop := match o with Build BErr => False | _ => True end.

Definition once_step (errors : bool) (s s' : system) : Prop :=
  ∃ i o, (errors = true ∨ infallible o) ∧ turn i o s = Some s'.

(** [Lazy::get] of lazy_static is [call_once]. *)
Definition Lazy_get : caller := Call.
Definition wait : caller := Waiting.

(** *** The invariant *)

Definition n_init (c : caller) : nat := match c with Building | Writing _ | Wrote => 1 | _ => 0 end.

Definition initialisers (st : Status) : nat := match st with Running => 1 | _ => 0 end.

Definition caller_ok (o : once) (c : caller) : Prop :=
  match c with
  | Undefined => False
  | Getting => status o = Complete
  | Returned v => status o = Complete ∧ data o = Some v
  | Building | Writing _ => status o = Running ∧ data o = None
  | Wrote => status o = Running ∧ is_Some (data o)
  | _ => True
  end.

Definition n_build (c : caller) : nat := match c with Building => 1 | _ => 0 end.

Record once_inv (errors : bool) (s : system) : Prop := {
  oi_callers : ∀ i c, sy_callers s !! i = Some c → caller_ok (sy_once s) c;
  oi_init : sum_list_with n_init (sy_callers s) = initialisers (status (sy_once s));
  oi_data : match status (sy_once s) with
            | Complete => is_Some (data (sy_once s))
            | Running => True
            | _ => data (sy_once s) = None
            end;
  oi_runs : errors = false →
    (sy_runs s + sum_list_with n_build (sy_callers s) ≤ 1)%nat ∧ (status (sy_once s) = Incomplete → sy_runs s = 0%nat);
}.

(** While nobody else initialises, the others do not mind a change. *)
Lemma caller_ok_other o o' c : status o ≠ Complete → n_init c = 0%nat → caller_ok o c → caller_ok o' c.
Proof. destruct c; simpl; naive_solver. Qed.

(** A caller moves from [c] to [c'], and the static from [sy_once s] to [o']. *)
Lemma once_inv_move errors s i c c' o' runs :
  once_inv errors s → sy_callers s !! i = Some c → caller_ok o' c' →
  (o' = sy_once s ∨ status (sy_once s) = Running ∧ n_init c = 1%nat ∨ status (sy_once s) = Incomplete) →
  (n_init c' + initialisers (status (sy_once s)) = n_init c + initialisers (status o'))%nat →
  match status o' with Complete => is_Some (data o') | Running => True | _ => data o' = None end →
  (errors = false → (runs + n_build c' ≤ sy_runs s + n_build c)%nat ∨ status (sy_once s) = Incomplete ∧ (runs + n_build c' ≤ 1)%nat) →
  (errors = false → status o' = Incomplete → runs = 0%nat) →
  once_inv errors (mkSystem o' (<[i := c']> (sy_callers s)) runs).
Proof.
  intros [Hok Hini _ Hruns] Hi Hc' Hcase Hn Hd Hr Hr0. pose proof (sum_insert n_init _ _ _ c' Hi) as Sn.
  pose proof (sum_insert n_build _ _ _ c' Hi) as Sb.
  assert (sum_list_with n_build (sy_callers s) ≤ sum_list_with n_init (sy_callers s))%nat as Hle.
  { clear. induction (sy_callers s) as [|[] l IH]; simpl; lia. }
  split; cbn [sy_once sy_callers sy_runs]; [|lia|done|].
  - intros j u [(-> & -> & _)|[Hij Hj]]%list_lookup_insert_Some; [done|].
    destruct Hcase as [->|Hcase]; [by eapply Hok|]. pose proof (sum_two n_init _ _ _ _ _ Hi Hj Hij).
    apply (caller_ok_other (sy_once s)); [destruct Hcase as [[E ?]|E]; congruence| |by eapply Hok].
    destruct Hcase as [[E ?]|E]; rewrite E in Hini; simpl in Hini; lia.
  - intros He. specialize (Hr He). specialize (Hr0 He). destruct (Hruns He) as [Hr1 _]. split; [|done].
    destruct Hr as [Hr|[E Hr]]; [lia|]. rewrite E in Hini. simpl in Hini. lia.
Qed.

Ltac once_move Hs Hi Hruns :=
  apply (once_inv_move _ _ _ _ _ _ _ Hs Hi); cbn in *; auto with lia;
  let He := fresh in intros He; try discriminate; destruct (Hruns He); first [intros; discriminate | solve [auto with lia] | naive_solver lia].

Lemma once_inv_step errors s s' : once_inv errors s → once_step errors s s' → once_inv errors s'.
Proof.
  intros Hs (i & o & Hinf & E). pose proof Hs as [Hok Hini Hd Hruns]. unfold turn in E.
  destruct (sy_callers s !! i) as [c|] eqn:Hi; [|done]. cbn in E. pose proof (Hok i c Hi) as Hc.
  destruct s as [[st d] callers runs]. cbn [sy_once sy_callers sy_runs status data] in *.
  destruct o, c; try done; cbn [perform] in E.
  - destruct st; injection E as <-; once_move Hs Hi Hruns.
  - destruct st; injection E as <-; once_move Hs Hi Hruns.
  - destruct st; injection E as <-; once_move Hs Hi Hruns.
  - destruct st; injection E as <-; once_move Hs Hi Hruns.
  - cbn in Hc. destruct Hc as [-> ->]. injection E as <-. once_move Hs Hi Hruns.
  - cbn in Hc. destruct Hc as [-> [v ->]]. injection E as <-. once_move Hs Hi Hruns.
  - cbn in Hc. subst st. destruct Hd as [v ->]. injection E as <-. once_move Hs Hi Hruns.
  - cbn in Hc. destruct Hc as [-> ->]. destruct r; injection E as <-; once_move Hs Hi Hruns.
Qed.

Fixpoint turns (l : list (nat * op)) (s : system) : option system :=
  match l with
  | [] => Some s
  | (i, o) :: l => s' ← turn i o s; turns l s'
  end.

Lemma once_turns_steps l s s' : Forall (λ io, infallible io.2) l → turns l s = Some s' → rtc (once_step false) s s'.
Proof.
  revert s. induction l as [|[i o] l IH]; intros s Hl E; simpl in E; [by simplify_eq|]. inversion Hl; subst.
  destruct (turn i o s) as [s1|] eqn:E1; [|done]. cbn in E.
  apply rtc_l with s1; [exists i, o; by split; [right|]|by apply IH].
Qed.

Lemma turn_at i o c c' m w w' cs runs :
  (i < length cs)%nat → perform o c = Some m → m w = Done (c', w') →
  turn i o (mkSystem w (<[i := c]> cs) runs) =
    Some (mkSystem w' (<[i := c']> cs) (match o with Build _ => S runs | Go => runs end)).
Proof.
  intros Hi Hm E. unfold turn. cbn [sy_callers sy_once sy_runs]. rewrite list_lookup_insert_eq by done.
  cbn. rewrite Hm. cbn. by rewrite E, list_insert_insert_eq.
Qed.

(** The caller that wins the exchange initialises and returns. *)
Lemma initialise i v cs runs :
  (i < length cs)%nat →
  turns [(i, Go); (i, Build (BOk v)); (i, Go); (i, Go); (i, Go)] (mkSystem Once_new (<[i := Slow]> cs) runs) =
    Some (mkSystem (mkOnce Complete (Some v)) (<[i := Returned v]> cs) (S runs)).
Proof.
  intros Hi. cbn [turns].
  erewrite turn_at by done. cbn. erewrite turn_at by done. cbn. erewrite turn_at by done. cbn.
  erewrite turn_at by done. cbn. by erewrite turn_at by done.
Qed.

(** C25. A lazy static is initialised once and never read before: however the
    steps of its callers interleave, and even if builders fail or panic, no
    caller reads data that has not been written, all callers that return get
    the same value, which is the value stored, and at most one initialises at
    a time. The builder of [call_once], so that of [Lazy::get], runs at most
    once. While the static is not initialised, a caller that runs initialises
    it and returns. *)
Theorem once_initialises_once (errors : bool) (cs : list caller) (s : system) :
  Forall (λ c, c = Lazy_get ∨ c = wait) cs → rtc (once_step errors) (mkSystem Once_new cs 0) s →
  (∀ i, sy_callers s !! i ≠ Some Undefined) ∧
  (∀ i v, sy_callers s !! i = Some (Returned v) → data (sy_once s) = Some v) ∧
  (∀ i j c d, sy_callers s !! i = Some c → sy_callers s !! j = Some d → n_init c = 1%nat → n_init d = 1%nat → i = j) ∧
  (errors = false → (sy_runs s ≤ 1)%nat) ∧
  (∀ i v, sy_callers s !! i = Some Slow → status (sy_once s) = Incomplete →
     ∃ s', turns [(i, Go); (i, Build (BOk v)); (i, Go); (i, Go); (i, Go)] s = Some s' ∧ sy_callers s' !! i = Some (Returned v)).
Proof.
  intros Hcs Hs. assert (once_inv errors s) as [Hok Hini Hd Hruns].
  { assert (once_inv errors (mkSystem Once_new cs 0)) as H0; [|induction Hs; eauto using once_inv_step].
    assert (∀ f : caller → nat, f Call = 0%nat → f Waiting = 0%nat → sum_list_with f cs = 0%nat) as Hz.
    { intros f ??. apply sum_zero. eapply Forall_impl; [exact Hcs|]. by intros ? [->| ->]. }
    split; cbn; [|by apply Hz|done|intros _; rewrite Hz by done; split; [lia|done]].
    intros i c Hi. destruct (proj1 (Forall_lookup _ _) Hcs i c Hi) as [->| ->]; done. }
  split_and!.
  - intros i Hi. exact (Hok i _ Hi).
  - intros i v Hi. by destruct (Hok i _ Hi).
  - intros i j c d Hi Hj ??. destruct (decide (i = j)) as [|Hij]; [done|].
    pose proof (sum_two n_init _ _ _ _ _ Hi Hj Hij). destruct (status (sy_once s)); simpl in Hini; lia.
  - intros He. destruct (Hruns He). lia.
  - intros i v Hi Hst. destruct s as [[st d] cs' runs]. cbn in *. subst st d.
    pose proof (lookup_lt_Some _ _ _ Hi) as Hlt.
    exists (mkSystem (mkOnce Complete (Some v)) (<[i := Returned v]> cs') (S runs)). split; [|by apply list_lookup_insert_eq].
    rewrite <- (initialise i v cs' runs Hlt). by rewrite (list_insert_id cs' i Slow Hi).
Qed.

End once.

(** Two callers race; the second finds the value of the first. *)
Definition wit_race : list (nat * @op Z) :=
  [(0%nat, Go); (1%nat, Go); (1%nat, Go); (0%nat, Go); (1%nat, Build (BOk 7)); (0%nat, Go); (1%nat, Go); (1%nat, Go); (0%nat, Go); (0%nat, Go); (1%nat, Go)].
Definition wit_system : @system Z := mkSystem (mkOnce Complete (Some 7)) [Returned 7; Returned 7; Waiting] 1.

Lemma wit_race_run : turns wit_race (mkSystem Once_new [Lazy_get; Lazy_get; wait] 0) = Some wit_system.
Proof. vm_compute. reflexivity. Qed.

Lemma once_initialises_once_witness : (sy_runs wit_system ≤ 1)%nat ∧ data (sy_once wit_system) = Some 7.
Proof.
  destruct (once_initialises_once false [Lazy_get; Lazy_get; wait] wit_system) as (_ & Hv & _ & Hr & _).
  - repeat apply Forall_cons; split; auto.
  - apply (once_turns_steps wit_race); [|exact wit_race_run]. unfold wit_race. by repeat constructor.
  - split; [exact (Hr eq_refl)|exact (Hv 0%nat 7 eq_refl)].
Defined.

End Once.
