(* ===== verification/Locks.v ===== *)
(** * Lock discipline: what it means and how it is checked
    (src/os/src/sync/up.rs; the locks of Spin.v)

    The other files pass the state of the kernel from one operation to the
    next. The code keeps it in cells and locks: a [UPSafeCell], whose second
    borrow panics, and the locks of the spin crates, on which a second
    acquisition by the only running thread waits for ever. Here an operation
    is reduced to what it does to them, an [eff]: which guards it creates and
    drops, in which order, and where it gives the processor away. The data
    that decides between branches is forgotten, so an [eff] stands for at least
    the executions of the code.

    [trace] gives the events of the executions, cut at any point, so that a
    panic in the middle is an execution too. [replay] runs events on the guards
    that are held, and stops at an event that cannot happen: an acquisition
    that panics or waits for ever, and a switch to another task while a guard
    is held. [check] follows all the executions of an [eff] at once;
    [check_sound] says that what it accepts replays. *)

From S2P Require Import Prelude Spin.

(** ** One cell *)

(** The flag of a [RefCell], which is all that matters of [UPSafeCell]. *)
Definition UPSafeCell_new : bool := false.
Definition exclusive_access : ST bool unit := b ← st_get; rassert (negb b);; st_put true.
Definition drop_RefMut : ST bool unit := st_put false.

(** ** Guards that are held *)

Inductive mode := Excl | Shared.

#[global] Instance mode_eq : EqDecision mode.
Proof. solve_decision. Defined.

Inductive event (L : Type) := EAcq (l : L) (m : mode) | ERel (l : L) (m : mode) | ESwitch.
Arguments EAcq {L}. Arguments ERel {L}. Arguments ESwitch {L}.

Section replay.
Context {L : Type} `{EqDecision L}.

Abbreviation held := (list (L * mode)).

Definition acquire (h : held) (l : L) (m : mode) : option held :=
  match m with
  | Excl => if decide (l ∈ h.*1) then None else Some ((l, Excl) :: h)
  | Shared => if decide ((l, Excl) ∈ h) then None else Some ((l, Shared) :: h)
  end.

Fixpoint release (h : held) (l : L) (m : mode) : option held :=
  match h with
  | [] => None
  | g :: h => if decide (g = (l, m)) then Some h else cons g <$> release h l m
  end.

Definition happen (h : held) (e : event L) : option held :=
  match e with
  | EAcq l m => acquire h l m
  | ERel l m => release h l m
  | ESwitch => if decide (h = []) then Some [] else None
  end.

Fixpoint replay (es : list (event L)) (h : held) : option held :=
  match es with
  | [] => Some h
  | e :: es => h ← happen h e; replay es h
  end.

Lemma replay_app es1 es2 h : replay (es1 ++ es2) h = replay es1 h ≫= replay es2.
Proof. revert h. induction es1 as [|e es1 IH]; intros h; [done|]. simpl. destruct (happen h e); simpl; [apply IH|done]. Qed.

(** ** The cells and locks behind the guards *)

Definition readers (h : held) (l : L) : nat := length (filter (λ g, g = (l, Shared)) h).
Definition writers (h : held) (l : L) : nat := length (filter (λ g, g = (l, Excl)) h).

(** The word of a reader-writer lock, and the flag of a cell or of a mutex,
    when [h] are the guards that exist. *)
Definition word_of (h : held) (l : L) : Z := 4 * Z.of_nat (readers h l) + Z.of_nat (writers h l).
Definition flag_of (h : held) (l : L) : bool := bool_decide (l ∈ h.*1).

(** Guards that can exist together: a writer is alone. *)
Definition guards_ok (h : held) : Prop := ∀ l, (writers h l ≤ 1)%nat ∧ (writers h l = 1%nat → readers h l = 0%nat).

Lemma readers_cons g h l : readers (g :: h) l = ((if decide (g = (l, Shared)) then 1 else 0) + readers h l)%nat.
Proof. unfold readers. rewrite filter_cons. by case_decide. Qed.

Lemma writers_cons g h l : writers (g :: h) l = ((if decide (g = (l, Excl)) then 1 else 0) + writers h l)%nat.
Proof. unfold writers. rewrite filter_cons. by case_decide. Qed.

Lemma writers_pos h l : (0 < writers h l)%nat ↔ (l, Excl) ∈ h.
Proof.
  induction h as [|g h IH]; [split; [cbn; lia|by intros ?%not_elem_of_nil]|]. rewrite writers_cons, elem_of_cons. case_decide; subst; [naive_solver lia|].
  rewrite <- IH. naive_solver.
Qed.

Lemma guards_pos h l : (0 < writers h l + readers h l)%nat ↔ l ∈ h.*1.
Proof.
  induction h as [|[n m] h IH]; [split; [cbn; lia|by intros ?%not_elem_of_nil]|]. rewrite writers_cons, readers_cons, fmap_cons, elem_of_cons, <- IH.
  destruct m; repeat case_decide; simplify_eq/=; split; intros; try lia; try (by left); try (right; lia);
    match goal with H : _ ∨ _ |- _ => destruct H; [subst; congruence|lia] end.
Qed.

Lemma release_count h h' l m k :
  release h l m = Some h' →
  readers h k = ((if decide ((l, m) = (k, Shared)) then 1 else 0) + readers h' k)%nat ∧
  writers h k = ((if decide ((l, m) = (k, Excl)) then 1 else 0) + writers h' k)%nat.
Proof.
  revert h'. induction h as [|g h IH]; intros h' E; [done|]. simpl in E. rewrite readers_cons, writers_cons. case_decide as Hg.
  - simplify_eq. done.
  - destruct (release h l m) as [h1|]; [|done]. injection E as <-. destruct (IH h1 eq_refl) as [-> ->].
    rewrite readers_cons, writers_cons. lia.
Qed.

(** Guards that can exist together stay so. *)
Lemma happen_ok h h' e : guards_ok h → happen h e = Some h' → guards_ok h'.
Proof.
  intros Hok E k. specialize (Hok k). destruct e as [l m|l m|]; cbn [happen] in E.
  - unfold acquire in E. pose proof (writers_pos h k) as Hw. pose proof (guards_pos h k) as Hg. destruct m; case_decide as Hd; simplify_eq;
      rewrite readers_cons, writers_cons; destruct (decide (l = k)) as [->|Hne]; repeat case_decide; simplify_eq.
    + assert (¬ (0 < writers h k + readers h k)%nat) as Hz by (by rewrite Hg). lia.
    + lia.
    + assert (¬ (0 < writers h k)%nat) as Hz by (by rewrite Hw). lia.
    + lia.
  - destruct (release_count h h' l m k E) as [Hr Hw]. lia.
  - case_decide; [|done]. simplify_eq. unfold readers, writers. cbn. lia.
Qed.

Lemma word_bits r w : (w ≤ 1)%nat → Z.land (4 * Z.of_nat r + Z.of_nat w) 3 = Z.of_nat w.
Proof. intros Hw. change 3 with (Z.ones 2). rewrite Z.land_ones by lia. change (2 ^ 2) with 4. zlia. Qed.

(** Taking a guard is what the code of the cell or of the lock does on the
    word that the guards so far have left, and it fails, leaving the word as
    it was, exactly when [acquire] does. *)
Lemma acquire_refines_cell h l :
  exclusive_access (flag_of h l) = match acquire h l Excl with Some h' => Done (tt, flag_of h' l) | None => Panic end.
Proof.
  unfold exclusive_access, flag_of, acquire. case_decide as Hd.
  - by rewrite bool_decide_true by done.
  - rewrite bool_decide_false by done. cbn. rewrite bool_decide_true by set_solver. done.
Qed.

Lemma acquire_refines_mutex h l :
  SpinMutex.try_lock (D := unit) (flag_of h l) =
    match acquire h l Excl with Some h' => Done (SpinMutex.Inside, flag_of h' l) | None => Done (SpinMutex.Outside, flag_of h l) end.
Proof.
  unfold flag_of, acquire. case_decide as Hd.
  - by rewrite bool_decide_true by done.
  - rewrite bool_decide_false by done. cbn. rewrite bool_decide_true by set_solver. done.
Qed.

Lemma acquire_refines_read h l :
  guards_ok h → word_of h l + 4 < 2 ^ 64 →
  RwLock.try_read (word_of h l) =
    match acquire h l Shared with Some h' => Done (RwLock.Reading, word_of h' l) | None => Done (RwLock.Idle, word_of h l) end.
Proof.
  intros Hok Hfit. destruct (Hok l) as [Hw _]. pose proof (writers_pos h l) as Hp. unfold RwLock.try_read, RwLock.try_read_start, acquire.
  change (Z.lor RwLock.WRITER RwLock.UPGRADED) with 3. unfold RwLock.READER.
  assert (fetch_add 4 (word_of h l) = Done (word_of h l, word_of h l + 4)) as Ea.
  { unfold fetch_add. rewrite wadd_small; [done|]. unfold word_of, fits in *. lia. }
  case_decide as Hd.
  - apply Hp in Hd. erewrite bind_step.
    2: { rewrite (bind_step _ _ _ _ _ Ea). unfold word_of at 1. rewrite word_bits, (proj2 (Z.eqb_neq _ 0)) by lia. reflexivity. }
    rewrite decide_True by done. unfold RwLock.try_read_undo. erewrite bind_step by reflexivity. unfold RwLock.READER. rewrite wsub_small; [|unfold word_of, fits in *; lia].
    unfold mret, st_ret. do 2 f_equal. lia.
  - assert (¬ (0 < writers h l)%nat) as Hz by (by rewrite Hp). erewrite bind_step.
    2: { rewrite (bind_step _ _ _ _ _ Ea). unfold word_of at 1. rewrite word_bits, (proj2 (Z.eqb_eq _ 0)) by lia. reflexivity. }
    rewrite decide_False by done. unfold mret, st_ret, word_of. rewrite readers_cons, writers_cons, decide_True, decide_False by done. do 2 f_equal. lia.
Qed.

Lemma acquire_refines_write h l strong lucky :
  strong || lucky = true →
  RwLock.try_write_internal strong lucky (word_of h l) =
    match acquire h l Excl with Some h' => Done (RwLock.Writing, word_of h' l) | None => Done (RwLock.Idle, word_of h l) end.
Proof.
  intros Hs. pose proof (guards_pos h l) as Hg. unfold RwLock.try_write_internal, compare_exchange, acquire. case_decide as Hd.
  - apply Hg in Hd. erewrite bind_step by (rewrite Hs, andb_true_r, bool_decide_false; [reflexivity|unfold word_of; lia]). done.
  - assert (¬ (0 < writers h l + readers h l)%nat) as Hz by (by rewrite Hg).
    erewrite bind_step by (rewrite Hs, andb_true_r, bool_decide_true; [reflexivity|unfold word_of; lia]).
    unfold mret, st_ret, word_of. rewrite readers_cons, writers_cons, decide_False, decide_True by done. unfold RwLock.WRITER. do 2 f_equal. lia.
Qed.

(** The code that takes the guard, on the word that the guards so far have
    left: the borrow of a cell does not panic, the mutex and the reader-writer
    lock are taken at the first attempt. *)
Definition granted (h : held) (l : L) (m : mode) : Prop :=
  match m with
  | Excl =>
      exclusive_access (flag_of h l) = Done (tt, true) ∧
      SpinMutex.try_lock (D := unit) (flag_of h l) = Done (SpinMutex.Inside, true) ∧
      RwLock.try_write_internal true true (word_of h l) = Done (RwLock.Writing, RwLock.WRITER)
  | Shared => word_of h l + 4 < 2 ^ 64 → RwLock.try_read (word_of h l) = Done (RwLock.Reading, word_of h l + 4)
  end.

Lemma acquire_granted h h' l m : guards_ok h → acquire h l m = Some h' → granted h l m.
Proof.
  intros Hok E. destruct m; cbn [granted].
  - pose proof (acquire_refines_cell h l) as E1. pose proof (acquire_refines_mutex h l) as E2. pose proof (acquire_refines_write h l true true eq_refl) as E3.
    rewrite E in *. rewrite E1, E2, E3. unfold acquire in E. case_decide as Hd; [done|]. injection E as <-.
    assert (¬ (0 < writers h l + readers h l)%nat) as Hz by (by rewrite guards_pos). unfold flag_of, word_of.
    rewrite bool_decide_true by (by left). rewrite readers_cons, writers_cons, decide_False, decide_True by done. split_and!; [done..|].
    unfold RwLock.WRITER. do 2 f_equal. lia.
  - intros Hfit. pose proof (acquire_refines_read h l Hok Hfit) as E1. rewrite E in E1. rewrite E1. unfold acquire in E. case_decide; [done|].
    injection E as <-. unfold word_of. rewrite readers_cons, writers_cons, decide_True, decide_False by done. do 2 f_equal. lia.
Qed.

(** Dropping a guard likewise. *)
Lemma release_refines_read h h' l :
  word_of h l < 2 ^ 64 → release h l Shared = Some h' → RwLock.drop_read (word_of h l) = Done (RwLock.Idle, word_of h' l).
Proof.
  intros Hfit E. destruct (release_count h h' l Shared l E) as [Hr Hw]. rewrite decide_True in Hr by done. rewrite decide_False in Hw by done.
  unfold RwLock.drop_read. erewrite bind_step by reflexivity. unfold RwLock.READER. rewrite wsub_small; unfold word_of, fits in *; [|lia].
  unfold mret, st_ret. do 2 f_equal. lia.
Qed.

Lemma release_refines_write h h' l :
  guards_ok h → release h l Excl = Some h' → RwLock.drop_write (word_of h l) = Done (RwLock.Idle, word_of h' l).
Proof.
  intros Hok E. destruct (release_count h h' l Excl l E) as [Hr Hw]. rewrite decide_False in Hr by done. rewrite decide_True in Hw by done.
  destruct (Hok l) as [Hw1 Hr1]. assert (word_of h l = 1) as -> by (unfold word_of; lia). assert (word_of h' l = 0) as -> by (unfold word_of; lia). done.
Qed.

End replay.

(** ** Operations reduced to their guards *)

Inductive eff (N : Type) :=
| Skip
| Acq (l : N) (m : mode)
| Rel (l : N) (m : mode)
| Seq (e1 e2 : eff N)
| Choose (e1 e2 : eff N)
| Loop (e : eff N)
| Switch
| Stop
| Rebind (ns : list N) (e : eff N).
Arguments Skip {N}. Arguments Acq {N}. Arguments Rel {N}. Arguments Seq {N}. Arguments Choose {N}.
Arguments Loop {N}. Arguments Switch {N}. Arguments Stop {N}. Arguments Rebind {N}.

Declare Scope eff_scope.
Delimit Scope eff_scope with eff.
Bind Scope eff_scope with eff.
Notation "e1 ▷ e2" := (Seq e1 e2) (at level 62, right associativity) : eff_scope.
Notation "e1 ⊕ e2" := (Choose e1 e2) (at level 64, right associativity) : eff_scope.

(** A guard that lives while [e] runs. *)
Definition with_guard {N} (l : N) (m : mode) (e : eff N) : eff N := (Acq l m ▷ e ▷ Rel l m)%eff.

Section trace.
Context {N L : Type} `{EqDecision N} `{EqDecision L}.

(** An [eff] speaks of locks by name; [obj] says which lock a name is. Distinct
    names are distinct locks. [Rebind] gives the names [ns] a new meaning:
    another child, another file. The flag says whether the execution has
    ended or has been cut. *)
Inductive trace (obj : N → L) : eff N → list (event L) → bool → Prop :=
| T_cut e : trace obj e [] false
| T_skip : trace obj Skip [] true
| T_acq l m : trace obj (Acq l m) [EAcq (obj l) m] true
| T_rel l m : trace obj (Rel l m) [ERel (obj l) m] true
| T_switch : trace obj Switch [ESwitch] true
| T_seq_cut e1 e2 t : trace obj e1 t false → trace obj (Seq e1 e2) t false
| T_seq e1 e2 t1 t2 b : trace obj e1 t1 true → trace obj e2 t2 b → trace obj (Seq e1 e2) (t1 ++ t2) b
| T_left e1 e2 t b : trace obj e1 t b → trace obj (Choose e1 e2) t b
| T_right e1 e2 t b : trace obj e2 t b → trace obj (Choose e1 e2) t b
| T_end e : trace obj (Loop e) [] true
| T_turn_cut e t : trace obj e t false → trace obj (Loop e) t false
| T_turn e t1 t2 b : trace obj e t1 true → trace obj (Loop e) t2 b → trace obj (Loop e) (t1 ++ t2) b
| T_rebind ns e obj' t b :
    (∀ n, n ∉ ns → obj' n = obj n) → Inj (=) (=) obj' → trace obj' e t b → trace obj (Rebind ns e) t b.

(** ** The check *)

(** Nothing when an execution may go wrong; otherwise the guards at the end of
    the executions that end, which all have to agree, if there are any. *)
Fixpoint check (e : eff N) (h : list (N * mode)) : option (option (list (N * mode))) :=
  match e with
  | Skip => Some (Some h)
  | Acq l m => Some <$> acquire h l m
  | Rel l m => Some <$> release h l m
  | Seq e1 e2 => match check e1 h with Some (Some h1) => check e2 h1 | r => r end
  | Choose e1 e2 =>
      match check e1 h, check e2 h with
      | Some None, r | r, Some None => r
      | Some (Some h1), Some (Some h2) => if decide (h1 = h2) then Some (Some h1) else None
      | _, _ => None
      end
  | Loop e =>
      match check e h with
      | Some None => Some (Some h)
      | Some (Some h1) => if decide (h1 = h) then Some (Some h) else None
      | None => None
      end
  | Switch => if decide (h = []) then Some (Some []) else None
  | Stop => Some None
  | Rebind ns e =>
      if decide (Forall (λ g, g.1 ∉ ns) h) then
        match check e h with
        | Some (Some h1) => if decide (Forall (λ g, g.1 ∉ ns) h1) then Some (Some h1) else None
        | r => r
        end
      else None
  end.

Definition named (obj : N → L) (h : list (N * mode)) : list (L * mode) := prod_map obj id <$> h.

Lemma named_fst obj h : (named obj h).*1 = obj <$> h.*1.
Proof. induction h as [|[n m] h IH]; [done|]. csimpl. by rewrite IH. Qed.

Lemma elem_of_named obj `{!Inj (=) (=) obj} n m h : (obj n, m) ∈ named obj h ↔ (n, m) ∈ h.
Proof.
  unfold named. rewrite list_elem_of_fmap. split.
  - intros ([n' m'] & E & Hin). cbn in E. simplify_eq. done.
  - intros Hin. by exists (n, m).
Qed.

Lemma acquire_named obj `{!Inj (=) (=) obj} h h' l m : acquire h l m = Some h' → acquire (named obj h) (obj l) m = Some (named obj h').
Proof.
  unfold acquire. destruct m; case_decide as Hh; intros [= <-].
  - rewrite decide_False; [done|]. rewrite named_fst. contradict Hh. by apply list_elem_of_fmap in Hh as (? & ->%(inj obj) & ?).
  - rewrite decide_False; [done|]. by rewrite elem_of_named.
Qed.

Lemma release_named obj `{!Inj (=) (=) obj} h h' l m : release h l m = Some h' → release (named obj h) (obj l) m = Some (named obj h').
Proof.
  revert h'. induction h as [|[n k] h IH]; intros h' E; [done|]. simpl in E |- *. destruct (decide ((n, k) = (l, m))) as [[= -> ->]|Hne].
  - injection E as <-. by rewrite decide_True by done.
  - rewrite decide_False by (cbn; intros [= ?%(inj obj) ?]; simplify_eq). destruct (release h l m) as [h1|]; [|done].
    injection E as <-. by rewrite (IH h1).
Qed.

Lemma named_rebound obj obj' (ns : list N) h :
  (∀ n, n ∉ ns → obj' n = obj n) → Forall (λ g, g.1 ∉ ns) h → named obj' h = named obj h.
Proof. intros Hobj Hh. apply list_fmap_ext. intros i [n m] Hi. rewrite Forall_lookup in Hh. specialize (Hh _ _ Hi). unfold prod_map. cbn in *. by rewrite Hobj. Qed.

(** What an accepted [eff] does: every execution replays, and at its end the
    guards are those that the check says. *)
Definition replays (obj : N → L) (h : list (N * mode)) (r : option (list (N * mode))) (t : list (event L)) (b : bool) : Prop :=
  ∃ h', replay t (named obj h) = Some h' ∧ (b = true → ∃ h1, r = Some h1 ∧ h' = named obj h1).

Lemma replays_app obj h h1 r t1 t2 b :
  replays obj h (Some h1) t1 true → replays obj h1 r t2 b → replays obj h r (t1 ++ t2) b.
Proof.
  intros (h' & E1 & H1) (h'' & E2 & H2). destruct (H1 eq_refl) as (? & [= <-] & ->). exists h''. split; [|done].
  by rewrite replay_app, E1.
Qed.

Lemma replays_cut obj h r r' t : replays obj h r t false → replays obj h r' t false.
Proof. intros (h' & E & _). by exists h'. Qed.

Lemma replays_never obj h t b : replays obj h None t b → b = false.
Proof. intros (h' & _ & H). destruct b; [|done]. by destruct (H eq_refl) as (? & ? & _). Qed.

Theorem check_sound (obj : N → L) (e : eff N) (t : list (event L)) (b : bool) :
  trace obj e t b → Inj (=) (=) obj → ∀ h r, check e h = Some r → replays obj h r t b.
Proof.
  induction 1 as [obj e|obj|obj l m|obj l m|obj|obj e1 e2 t H1 IH|obj e1 e2 t1 t2 b H1 IH1 H2 IH2|obj e1 e2 t b H1 IH|obj e1 e2 t b H1 IH
    |obj e|obj e t H1 IH|obj e t1 t2 b H1 IH1 H2 IH2|obj ns e obj' t b Hobj Hinj H1 IH]; intros Hi h r; cbn [check]; intros E.
  - by exists (named obj h).
  - simplify_eq. exists (named obj h). eauto.
  - destruct (acquire h l m) as [h1|] eqn:Ea; [|done]. injection E as <-. exists (named obj h1). cbn [replay happen].
    rewrite (acquire_named obj h h1) by done. eauto.
  - destruct (release h l m) as [h1|] eqn:Ea; [|done]. injection E as <-. exists (named obj h1). cbn [replay happen].
    rewrite (release_named obj h h1) by done. eauto.
  - case_decide; [|done]. simplify_eq. exists []. cbn. eauto.
  - destruct (check e1 h) as [[h1|]|] eqn:E1; [| |done]; by eapply replays_cut, IH.
  - destruct (check e1 h) as [[h1|]|] eqn:E1; [| |done].
    + eapply replays_app; [by apply IH1|by apply IH2].
    + by apply (IH1 Hi), replays_never in E1.
  - destruct (check e1 h) as [[h1|]|] eqn:E1; destruct (check e2 h) as [[h2|]|] eqn:E2; simplify_eq; try case_decide; simplify_eq;
      try by apply IH. pose proof (IH Hi _ _ E1) as Hr. pose proof (replays_never _ _ _ _ Hr). subst b. by eapply replays_cut.
  - destruct (check e1 h) as [[h1|]|] eqn:E1; destruct (check e2 h) as [[h2|]|] eqn:E2; simplify_eq; try case_decide; simplify_eq;
      try by apply IH. pose proof (IH Hi _ _ E2) as Hr. pose proof (replays_never _ _ _ _ Hr). subst b. by eapply replays_cut.
  - exists (named obj h). split; [done|]. intros _. destruct (check e h) as [[h1|]|]; try case_decide; simplify_eq; eauto.
  - destruct (check e h) as [[h1|]|] eqn:E1; [| |done]; by eapply replays_cut, IH.
  - destruct (check e h) as [[h1|]|] eqn:E1; [| |done].
    + case_decide; [|done]. simplify_eq. eapply replays_app; [by apply IH1|]. apply IH2; [done|]. cbn [check]. by rewrite E1, decide_True.
    + by apply (IH1 Hi), replays_never in E1.
  - case_decide as Hh; [|done]. destruct (check e h) as [[h1|]|] eqn:E1; [| |done].
    + case_decide as Hh1; [|done]. simplify_eq. destruct (IH Hinj _ _ E1) as (h' & Er & Hb). exists h'.
      rewrite <- (named_rebound obj obj' ns h) by done. split; [done|]. intros Ht. destruct (Hb Ht) as (? & [= <-] & ->).
      exists h1. split; [done|]. by apply named_rebound with ns.
    + simplify_eq. destruct (IH Hinj _ _ E1) as (h' & Er & Hb). exists h'. rewrite <- (named_rebound obj obj' ns h) by done.
      split; [done|]. intros Ht. by destruct (Hb Ht) as (? & ? & _).
Qed.

End trace.
