(* ===== verification/KernelLocks.v ===== *)
(** * The lock discipline of the kernel
    (src/os/src/**, src/fat32/src/**: every [exclusive_access], [lock], [read]
    and [write])

    Every operation of the kernel and of the file system that takes a guard,
    as the [eff] of Locks.v: the guards in the order in which the code creates
    and drops them, temporaries included, which live to the end of their
    statement. Conditions become choices and loops any number of turns.

    Left out are guards that are dropped before anything else is called and
    below which nothing is taken: the lock of the heap, and the [Once] of a
    static whose initialiser takes nothing. The virtio driver is not part of
    the sources: while it runs it may call the functions of [Hal] in any order.
    Dropping a file or a pipe end takes nothing. *)

From S2P Require Import Prelude Spin Locks.

Open Scope eff_scope.

(** ** Names *)

(** The processes that one operation deals with, the files of its block
    caches, and the statics whose initialisers take guards. *)
Inductive task := Cur | Child | New | INITPROC | Next | Queued.
Inductive static := LKernelSpace | LInitproc | LBlockDevice | LRootInode.

Inductive lock :=
| PROCESSOR | TASK_MANAGER | PID_ALLOCATOR | KSTACK_ALLOCATOR | KERNEL_SPACE | FRAME_ALLOCATOR | QUEUE_FRAMES
| VirtIOBlk | Inner (t : task) | OSInodeInner | RingBuffer | Lazy (s : static)
| FS | FATLock | VRoot | INFO_CACHE_MANAGER | DATA_BLOCK_CACHE_MANAGER
| EntryBlock | InfoBlock | DataBlock.

#[global] Instance task_eq : EqDecision task.
Proof. solve_decision. Defined.
#[global] Instance static_eq : EqDecision static.
Proof. solve_decision. Defined.
#[global] Instance lock_eq : EqDecision lock.
Proof. solve_decision. Defined.

Abbreviation E := (eff lock).

(** A guard that is dropped at once. *)
Definition touch (l : lock) (m : mode) : E := with_guard l m Skip.

(** [lazy_static!]: the first use runs the initialiser. *)
Definition deref (s : static) (init : E) : E := Skip ⊕ with_guard (Lazy s) Excl init.

(** ** mm *)

Definition frame_alloc : E := touch FRAME_ALLOCATOR Excl.
Definition frame_dealloc : E := touch FRAME_ALLOCATOR Excl.

(** Every operation on address spaces: frames are allocated, and given back
    when their trackers are dropped. *)
Definition frames : E := Loop (frame_alloc ⊕ frame_dealloc).

Definition on_kernel_space (e : E) : E := deref LKernelSpace frames ▷ with_guard KERNEL_SPACE Excl e.
Definition kernel_token : E := on_kernel_space Skip.

(** ** drivers *)

Definition dma_alloc : E := Loop (frame_alloc ▷ touch QUEUE_FRAMES Excl).
Definition dma_dealloc : E := Loop frame_dealloc.
Definition virt_to_phys : E := kernel_token.
Definition driver : E := Loop (dma_alloc ⊕ dma_dealloc ⊕ virt_to_phys).
Definition read_block : E := with_guard VirtIOBlk Excl driver.
Definition write_block : E := with_guard VirtIOBlk Excl driver.

(** ** fat32/block_cache.rs *)

(** [sync] writes only a modified block; dropping the last reference to a
    block cache calls it. *)
Definition BlockCache_sync : E := Skip ⊕ write_block.
Definition drop_reference : E := Skip ⊕ BlockCache_sync.

(** The manager has the block, or makes room and reads it. *)
Definition manager_get_block_cache : E := Skip ⊕ ((Skip ⊕ drop_reference) ▷ read_block).

Inductive CacheMode := READ | WRITE.

Definition get_cache (manager : lock) (rw_mode : CacheMode) : E :=
  touch manager Shared ▷
  match rw_mode with
  | READ => with_guard manager Excl (manager_get_block_cache ▷ drop_reference) ▷ touch manager Shared
  | WRITE => with_guard manager Excl manager_get_block_cache
  end.
Definition get_block_cache : CacheMode → E := get_cache DATA_BLOCK_CACHE_MANAGER.
Definition get_info_cache : CacheMode → E := get_cache INFO_CACHE_MANAGER.

Definition set_start_sec : E := touch INFO_CACHE_MANAGER Excl ▷ touch DATA_BLOCK_CACHE_MANAGER Excl.
Definition write_to_dev : E :=
  with_guard INFO_CACHE_MANAGER Excl (Loop drop_reference) ▷ with_guard DATA_BLOCK_CACHE_MANAGER Excl (Loop drop_reference).

(** One access to a block of the tables or of a directory, [.read().read(..)]
    or [.write().modify(..)], and to a block of a file. The block is another
    one every time. *)
Definition info_access (rw_mode : CacheMode) (m : mode) : E :=
  get_info_cache rw_mode ▷ Rebind [InfoBlock] (touch InfoBlock m) ▷ drop_reference.
Definition data_access (rw_mode : CacheMode) (m : mode) : E :=
  get_block_cache rw_mode ▷ Rebind [DataBlock] (touch DataBlock m) ▷ drop_reference.

(** ** fat32/layout.rs *)

Definition read_free_clusters : E := info_access READ Shared.
Definition write_free_clusters : E := info_access WRITE Excl.
Definition first_free_cluster : E := info_access READ Shared.
Definition write_first_free_cluster : E := info_access WRITE Excl.
Definition check_signature : E := info_access READ Shared ▷ (Skip ⊕ info_access READ Shared).

Definition next_free_cluster : E := Loop (info_access READ Shared).
Definition get_next_cluster : E := info_access READ Shared ▷ info_access READ Shared.
Definition set_next_cluster : E := info_access WRITE Excl ▷ info_access WRITE Excl.
Definition set_end : E := set_next_cluster.
Definition get_cluster_at : E := Loop get_next_cluster.
Definition final_cluster : E := Loop get_next_cluster.
Definition get_all_cluster_of : E := Loop get_next_cluster.
Definition count_claster_num : E := Loop get_next_cluster.

(** [ShortDirEntry]: the entry says whether it is a directory. *)
Definition dirent_get_pos : E := with_guard FS Shared (with_guard FATLock Shared get_cluster_at).
Definition dirent_read_at : E :=
  with_guard FS Shared (with_guard FATLock Shared (
    (Skip ⊕ count_claster_num) ▷
    (Skip ⊕ (dirent_get_pos ▷ Loop ((info_access READ Shared ⊕ data_access READ Shared) ▷ (Skip ⊕ get_next_cluster)))))).
Definition dirent_write_at : E :=
  with_guard FS Shared (with_guard FATLock Shared (
    (Skip ⊕ count_claster_num) ▷ dirent_get_pos ▷
    Loop ((info_access READ Excl ⊕ data_access READ Excl) ▷ (Skip ⊕ get_next_cluster)))).

(** ** fat32/fat.rs *)

Definition free_clusters : E := read_free_clusters.
Definition clear_cluster : E := Loop (data_access WRITE Excl).
Definition alloc_cluster : E :=
  free_clusters ▷
  (Skip ⊕ with_guard FATLock Excl (
    first_free_cluster ▷ next_free_cluster ▷
    Loop (clear_cluster ▷ next_free_cluster ▷ set_next_cluster) ▷
    clear_cluster ▷ set_end ▷ write_free_clusters ▷ write_first_free_cluster ▷ write_to_dev)).
Definition dealloc_cluster : E :=
  with_guard FATLock Excl (
    free_clusters ▷ Loop set_next_cluster ▷
    (Skip ⊕ (write_free_clusters ▷ (Skip ⊕ (first_free_cluster ▷ (Skip ⊕ write_first_free_cluster)))))).
Definition cluster_num_needed : E := Skip ⊕ with_guard FATLock Shared count_claster_num.
Definition FAT32Manager_open : E := set_start_sec ▷ info_access READ Shared ▷ info_access READ Shared ▷ check_signature.
Definition get_root_vfile : E := touch FS Shared.

(** ** fat32/vfs.rs *)

(** The root directory has its entry in the file system, another file in a
    block of its directory. *)
Inductive vfile := Root | Dir | Plain.
Definition is_dir (v : vfile) : bool := match v with Plain => false | _ => true end.

Definition read_short_dirent (v : vfile) (f : E) : E :=
  match v with
  | Root => touch FS Shared ▷ with_guard VRoot Shared f
  | _ => get_info_cache READ ▷ with_guard EntryBlock Shared f ▷ drop_reference
  end.
Definition modify_short_dirent (v : vfile) (f : E) : E :=
  match v with
  | Root => touch FS Shared ▷ with_guard VRoot Excl f
  | _ => get_info_cache READ ▷ with_guard EntryBlock Excl f ▷ drop_reference
  end.
Definition modify_long_dirent : E := info_access READ Excl.

Definition get_size (v : vfile) : E := read_short_dirent v Skip.
Definition first_cluster (v : vfile) : E := read_short_dirent v Skip.
Definition get_pos (v : vfile) : E := read_short_dirent v (with_guard FS Shared dirent_get_pos).
Definition VFile_read_at (v : vfile) : E := read_short_dirent v (with_guard FS Shared dirent_read_at).

Definition increase_size (v : vfile) : E :=
  first_cluster v ▷ get_size v ▷ Acq FS Excl ▷
  (Rel FS Excl ⊕
   (cluster_num_needed ▷
    (((if is_dir v then Skip else modify_short_dirent v Skip) ▷ Rel FS Excl) ⊕
     (alloc_cluster ▷
      ((Rel FS Excl ▷ modify_short_dirent v Skip) ⊕
       (Acq FATLock Excl ▷ final_cluster ▷ set_next_cluster ▷ Rel FS Excl ▷ Rel FATLock Excl)) ▷
      modify_short_dirent v Skip)))).

Definition VFile_write_at (v : vfile) : E :=
  increase_size v ▷ modify_short_dirent v (with_guard FS Shared dirent_write_at).

Definition find_long_name (v : vfile) : E :=
  touch FS Shared ▷ Loop (with_guard FS Shared dirent_read_at) ▷ (Skip ⊕ (get_pos v ▷ Loop (get_pos v))).
Definition find_short_name (v : vfile) : E :=
  Loop (with_guard FS Shared dirent_read_at) ▷ (Skip ⊕ get_pos v).
Definition find_vfile_byname (v : vfile) : E := read_short_dirent v (find_long_name v ⊕ find_short_name v).

(** The file that has been found takes the place of the one before. *)
Definition find_vfile_bypath (v : vfile) : E :=
  touch FS Shared ▷ (Skip ⊕ find_vfile_byname v) ▷ Loop (Rebind [EntryBlock] (find_vfile_byname Dir)).

Definition find_free_dirent (v : vfile) : E := Loop (VFile_read_at v).

Definition VFile_create (v : vfile) : E :=
  Acq FS Shared ▷ find_free_dirent v ▷
  (Rel FS Shared ⊕
   (((Rel FS Shared ▷ Loop (VFile_write_at v)) ⊕ Rel FS Shared) ▷
    VFile_write_at v ▷ find_vfile_byname v ▷
    (Skip ⊕
     (touch FS Shared ▷ first_cluster v ▷
      Rebind [EntryBlock] (VFile_write_at Dir) ▷ Rebind [EntryBlock] (VFile_write_at Dir) ▷
      Rebind [EntryBlock] (first_cluster Dir) ▷ Rebind [EntryBlock] (VFile_write_at Dir))))).

Definition VFile_ls (v : vfile) : E := Loop (VFile_read_at v).
Definition stat (v : vfile) : E :=
  read_short_dirent v (Skip ⊕ with_guard FS Shared (with_guard FATLock Shared count_claster_num)).
Definition dirent_info (v : vfile) : E := read_short_dirent v Skip.

Definition VFile_clear (v : vfile) : E :=
  first_cluster v ▷
  (Skip ⊕
   (Loop modify_long_dirent ▷ modify_short_dirent v Skip ▷
    with_guard FS Shared (with_guard FATLock Shared get_all_cluster_of) ▷
    with_guard FS Shared (dealloc_cluster ▷ write_to_dev))).
Definition VFile_remove (v : vfile) : E :=
  first_cluster v ▷ Loop modify_long_dirent ▷ modify_short_dirent v Skip ▷
  with_guard FS Shared (with_guard FATLock Shared get_all_cluster_of) ▷ with_guard FS Excl dealloc_cluster.

(** An operation on a file that a search has found. *)
Definition on_found (op : vfile → E) : E := op Root ⊕ Rebind [EntryBlock] (op Dir ⊕ op Plain).

(** ** task *)

Definition inner (t : task) (e : E) : E := with_guard (Inner t) Excl e.

Definition pid_alloc : E := touch PID_ALLOCATOR Excl.
Definition drop_PidHandle : E := touch PID_ALLOCATOR Excl.
Definition kstack_alloc : E := touch KSTACK_ALLOCATOR Excl ▷ on_kernel_space frames.
Definition drop_KernelStack : E := on_kernel_space frames ▷ touch KSTACK_ALLOCATOR Excl.

(** The fields in order: the pid, the kernel stack, and the address space of
    the inner part, whose children and files are gone. *)
Definition drop_TaskControlBlock : E := drop_PidHandle ▷ drop_KernelStack ▷ frames.

Definition TaskControlBlock_new : E := frames ▷ pid_alloc ▷ kstack_alloc ▷ inner New Skip ▷ kernel_token.
Definition exec : E := frames ▷ inner Cur (frames ▷ kernel_token).
Definition fork : E := inner Cur (frames ▷ pid_alloc ▷ kstack_alloc ▷ inner New Skip).
Definition spawn : E := inner Cur (frames ▷ pid_alloc ▷ kstack_alloc ▷ inner New Skip ▷ kernel_token).
Definition set_priority : E := inner Cur Skip.
Definition update_stri : E := inner Next Skip.
Definition change_program_brk : E := inner Cur frames.
Definition TaskControlBlock_map : E := inner Cur frames.
Definition TaskControlBlock_unmap : E := inner Cur frames.

Definition add_task : E := touch TASK_MANAGER Excl.
Definition fetch : E := Rebind [Inner Queued] (inner Queued Skip) ▷ Loop (Rebind [Inner Queued] (inner Queued Skip)).
Definition fetch_task : E := with_guard TASK_MANAGER Excl fetch.

Definition current_task : E := touch PROCESSOR Excl.
Definition take_current_task : E := touch PROCESSOR Excl.
Definition current_user_token : E := current_task ▷ inner Cur Skip.
Definition current_trap_cx : E := current_task ▷ inner Cur Skip.
Definition update_time : E := current_task ▷ inner Cur Skip.
Definition map_one : E := current_task ▷ TaskControlBlock_map.
Definition unmap_one : E := current_task ▷ TaskControlBlock_unmap.
Definition schedule : E := touch PROCESSOR Excl ▷ Switch.

Definition run_tasks : E :=
  Loop (
    Acq PROCESSOR Excl ▷ fetch_task ▷
    (Rel PROCESSOR Excl ⊕
     Rebind [Inner Next] (inner Next Skip ▷ update_stri ▷ Rel PROCESSOR Excl ▷ Switch))).

Definition suspend_current_and_run_next : E := take_current_task ▷ inner Cur Skip ▷ add_task ▷ schedule.

Definition initproc : E := deref LInitproc TaskControlBlock_new.
Definition exit_current_and_run_next : E :=
  take_current_task ▷ Acq (Inner Cur) Excl ▷
  initproc ▷ inner INITPROC (Loop (initproc ▷ Rebind [Inner Child] (inner Child Skip))) ▷
  frames ▷ Rel (Inner Cur) Excl ▷ (Skip ⊕ drop_TaskControlBlock) ▷ schedule ▷ Stop.
Definition add_initproc : E := initproc ▷ add_task.

(** ** fs *)

Definition block_device : E := deref LBlockDevice driver.
Definition root_inode : E := deref LRootInode (block_device ▷ FAT32Manager_open ▷ get_root_vfile).
Definition search_pwd : E := root_inode ▷ find_vfile_bypath Root.

Definition os_inode (op : vfile → E) : E := with_guard OSInodeInner Excl (on_found op).
Definition read_all : E := os_inode (λ v, Loop (VFile_read_at v)).
Definition mkdir : E := os_inode VFile_create.
Definition OSInode_read : E := os_inode (λ v, Loop (VFile_read_at v)).
Definition OSInode_write : E := os_inode (λ v, Loop (VFile_write_at v)).

(** [osinode.inner.exclusive_access().inode.clone()] *)
Definition inode_clone : E := touch OSInodeInner Excl.

Definition open_found : E := on_found (λ v, Skip ⊕ VFile_clear v).
Definition open_file : E :=
  current_task ▷ Acq (Inner Cur) Excl ▷
  ((search_pwd ▷ (Skip ⊕ (root_inode ▷ VFile_create Root)) ▷ Rel (Inner Cur) Excl) ⊕
   (root_inode ▷ find_vfile_bypath Root ▷ (Skip ⊕ open_found ⊕ (root_inode ▷ VFile_create Root)) ▷ Rel (Inner Cur) Excl) ⊕
   (search_pwd ▷ on_found (λ v, find_vfile_bypath v ▷ (Skip ⊕ VFile_create v)) ▷ (Skip ⊕ open_found) ▷ Rel (Inner Cur) Excl) ⊕
   (inode_clone ▷ Rel (Inner Cur) Excl ▷ on_found (λ v, find_vfile_bypath v ▷ (Skip ⊕ VFile_create v)) ▷ (Skip ⊕ open_found)) ⊕
   Rel (Inner Cur) Excl).

Definition chdir : E :=
  current_task ▷
  inner Cur ((Skip ⊕ (root_inode ▷ find_vfile_bypath Root)) ⊕ (search_pwd ▷ on_found find_vfile_bypath)).

Definition Stdin_read : E := Loop suspend_current_and_run_next.
Definition make_pipe : E := touch RingBuffer Excl.
Definition Pipe_read : E :=
  Loop ((Acq RingBuffer Excl ▷ Rel RingBuffer Excl ▷ suspend_current_and_run_next) ⊕ touch RingBuffer Excl) ▷ touch RingBuffer Excl.
Definition Pipe_write : E :=
  Loop ((Acq RingBuffer Excl ▷ Rel RingBuffer Excl ▷ suspend_current_and_run_next) ⊕ touch RingBuffer Excl) ▷ touch RingBuffer Excl.

(** [File::read] and [File::write] of the file behind a descriptor. *)
Definition File_read : E := OSInode_read ⊕ Stdin_read ⊕ Pipe_read.
Definition File_write : E := OSInode_write ⊕ Skip ⊕ Pipe_write.

Definition list_apps : E := root_inode ▷ VFile_ls Root.

(** ** syscall *)

(** [trace!] evaluates its arguments when the level is enabled. *)
Definition traced : E := Skip ⊕ current_task.

Definition sys_write : E :=
  traced ▷ current_user_token ▷ current_task ▷ Acq (Inner Cur) Excl ▷ (Rel (Inner Cur) Excl ⊕ (Rel (Inner Cur) Excl ▷ File_write)).
Definition sys_read : E :=
  traced ▷ current_user_token ▷ current_task ▷ Acq (Inner Cur) Excl ▷ (Rel (Inner Cur) Excl ⊕ (Rel (Inner Cur) Excl ▷ File_read)).
Definition sys_openat : E := traced ▷ current_user_token ▷ open_file ▷ (Skip ⊕ (current_task ▷ inner Cur Skip)).
Definition sys_close : E := traced ▷ current_task ▷ inner Cur Skip.
Definition sys_getcwd : E := current_task ▷ Acq (Inner Cur) Excl ▷ (Rel (Inner Cur) Excl ⊕ (Rel (Inner Cur) Excl ▷ current_user_token)).
Definition sys_mkdirat : E :=
  current_task ▷ current_user_token ▷ inner Cur ((search_pwd ▷ (Skip ⊕ on_found VFile_create)) ⊕ mkdir ⊕ Skip).
Definition sys_chdir : E := current_user_token ▷ chdir.
Definition sys_dup : E := current_task ▷ inner Cur Skip.
Definition sys_dup3 : E := current_task ▷ inner Cur Skip.
Definition sys_pipe2 : E := current_task ▷ current_user_token ▷ inner Cur make_pipe.
Definition sys_fstat : E := current_user_token ▷ current_task ▷ inner Cur (Skip ⊕ (inode_clone ▷ on_found stat)).
Definition sys_unlink : E :=
  current_user_token ▷
  ((search_pwd ▷ (Skip ⊕ on_found VFile_remove)) ⊕
   (current_task ▷ inner Cur (search_pwd ▷ (Skip ⊕ on_found VFile_remove))) ⊕
   (current_task ▷ inner Cur (Skip ⊕ (inode_clone ▷ on_found find_vfile_bypath ▷ (Skip ⊕ on_found VFile_remove))))).
Definition sys_uname : E := current_user_token.
Definition sys_getdents64 : E := current_user_token ▷ current_task ▷ inner Cur (Skip ⊕ (inode_clone ▷ on_found dirent_info)).
Definition sys_mount : E := current_user_token ▷ (Skip ⊕ open_file).
Definition sys_umount2 : E := current_user_token ▷ open_file.

Definition sys_exit : E := traced ▷ exit_current_and_run_next.
Definition sys_yield : E := suspend_current_and_run_next.
Definition sys_getpid : E := traced ▷ current_task.
Definition sys_getppid : E := current_task.
Definition sys_fork : E := traced ▷ current_task ▷ fork ▷ inner New Skip ▷ add_task.
Definition sys_exec : E := traced ▷ current_user_token ▷ open_file ▷ (Skip ⊕ (read_all ▷ current_task ▷ exec)).
Definition sys_spawn : E := traced ▷ current_user_token ▷ open_file ▷ (Skip ⊕ (read_all ▷ current_task ▷ spawn ▷ add_task)).
Definition waitpid : E :=
  current_task ▷
  inner Cur (Skip ⊕ (Loop (Rebind [Inner Child] (inner Child Skip)) ▷ (Skip ⊕ (Rebind [Inner Child] (inner Child Skip) ▷ drop_TaskControlBlock)))).
Definition sys_waitpid : E := Loop (waitpid ▷ sys_yield) ▷ waitpid.
Definition sys_get_time : E := traced ▷ current_user_token.
Definition sys_mmap : E :=
  traced ▷ current_user_token ▷ current_task ▷ Acq (Inner Cur) Excl ▷
  (Rel (Inner Cur) Excl ⊕
   (Rel (Inner Cur) Excl ▷ Loop (frame_alloc ▷ map_one ▷ frame_dealloc) ▷
    ((frame_alloc ▷ frame_dealloc) ⊕
     (current_task ▷ Acq (Inner Cur) Excl ▷
      ((inode_clone ▷ on_found (λ v, get_size v ▷ Loop (VFile_read_at v)) ▷ Rel (Inner Cur) Excl) ⊕ Rel (Inner Cur) Excl))))).
Definition sys_munmap : E := traced ▷ (Skip ⊕ (Loop (current_user_token ▷ unmap_one) ▷ (Skip ⊕ current_user_token))).
Definition sys_brk : E := traced ▷ current_task ▷ change_program_brk.
Definition sys_set_priority : E := traced ▷ (Skip ⊕ (current_task ▷ set_priority)).
Definition sys_nanosleep : E := current_user_token ▷ Loop suspend_current_and_run_next.
Definition sys_times : E := current_user_token ▷ current_task ▷ inner Cur (Loop (Rebind [Inner Child] (inner Child Skip))).
Definition sys_shutdown : E := Skip.

Definition syscall : E :=
  (sys_openat ⊕ sys_close ⊕ sys_dup ⊕ sys_dup3 ⊕ sys_read ⊕ sys_write ⊕ sys_exit ⊕ sys_yield ⊕ sys_getpid ⊕ sys_fork ⊕ sys_exec ⊕
   sys_waitpid ⊕ sys_get_time ⊕ sys_mmap ⊕ sys_munmap ⊕ sys_brk ⊕ sys_spawn ⊕ sys_set_priority ⊕ sys_getcwd ⊕ sys_mkdirat ⊕ sys_chdir ⊕
   sys_pipe2 ⊕ sys_getppid ⊕ sys_nanosleep ⊕ sys_times ⊕ sys_fstat ⊕ sys_unlink ⊕ sys_uname ⊕ sys_getdents64 ⊕ sys_shutdown ⊕ sys_mount ⊕
   sys_umount2) ▷
  update_time.

(** ** trap, main *)

Definition trap_return : E := current_user_token.
Definition trap_handler : E :=
  ((current_trap_cx ▷ syscall ▷ current_trap_cx) ⊕
   (current_trap_cx ▷ exit_current_and_run_next) ⊕
   exit_current_and_run_next ⊕
   suspend_current_and_run_next) ▷
  trap_return.

Definition init_frame_allocator : E := touch FRAME_ALLOCATOR Excl.
Definition mm_init : E := init_frame_allocator ▷ on_kernel_space Skip.
Definition remap_test : E := on_kernel_space Skip.
Definition rust_main : E := mm_init ▷ remap_test ▷ list_apps ▷ add_initproc ▷ run_tasks.

(** Every operation passes the check. *)
Lemma kernel_checked : Forall (λ e, check e [] = Some (Some [])) [trap_handler; trap_return; rust_main].
Proof. apply Forall_cons_2; [|apply Forall_cons_2; [|apply Forall_cons_2; [|apply Forall_nil_2]]]; vm_compute; reflexivity. Qed.

(** ** The kernel runs *)

Section discipline.
Context {L : Type} `{EqDecision L}.

(** What the kernel executes of [e] without giving the processor away: from the
    start of [e] or from where it got the processor back. It is complete when
    it goes on to the next switch, or to the end of [e]. *)
Definition stretch (e : E) (s : list (event L)) (complete : bool) : Prop :=
  ∃ obj pre post ended, Inj (=) (=) obj ∧ trace obj e (pre ++ s ++ post) ended ∧ (pre = [] ∨ last pre = Some ESwitch) ∧
    (complete = true → last s = Some ESwitch ∨ (post = [] ∧ ended = true)).

(** The kernel is entered by a trap, by a task that runs for the first time,
    and by the boot. *)
Definition kernel_stretch (s : list (event L)) (complete : bool) : Prop :=
  ∃ e, e ∈ [trap_handler; trap_return; rust_main] ∧ stretch e s complete.

Lemma replay_switch (es : list (event L)) h h' : last es = Some ESwitch → replay es h = Some h' → h' = [].
Proof.
  intros (es' & ->)%last_Some. rewrite replay_app. destruct (replay es' h) as [h1|]; [|done]. cbn. case_decide; naive_solver.
Qed.

(** A stretch starts without guards, can happen, and ends without guards. *)
Lemma stretch_replays e s complete :
  check e [] = Some (Some []) → stretch e s complete → ∃ h, replay s [] = Some h ∧ (complete = true → h = []).
Proof.
  intros Hc (obj & pre & post & ended & Hinj & Ht & Hpre & Hcomp). destruct (check_sound obj e _ _ Ht Hinj [] _ Hc) as (h' & E & Hend).
  change (named obj []) with (@nil (L * mode)) in *. rewrite replay_app in E. destruct (replay pre []) as [h0|] eqn:E0; [|done].
  assert (h0 = []) as -> by (destruct Hpre as [->|Hl]; [by injection E0|by eapply replay_switch]). cbn in E. rewrite replay_app in E.
  destruct (replay s []) as [h1|] eqn:E1; [|done]. exists h1. split; [done|]. intros Hco. destruct (Hcomp Hco) as [Hl|[-> ->]].
  - by eapply replay_switch.
  - cbn in E. destruct (Hend eq_refl) as (? & [= <-] & ->). by simplify_eq.
Qed.

Lemma kernel_stretch_replays s complete : kernel_stretch s complete → ∃ h, replay s [] = Some h ∧ (complete = true → h = []).
Proof. intros (e & He & Hs). eapply stretch_replays; [|exact Hs]. pose proof kernel_checked as Hk. rewrite Forall_forall in Hk. by apply Hk. Qed.

Lemma stretches_replay (past : list (list (event L))) : Forall (λ s, kernel_stretch s true) past → replay (concat past) [] = Some [].
Proof.
  induction 1 as [|s past Hs _ IH]; [done|]. destruct (kernel_stretch_replays s true Hs) as (h & E & Hh). rewrite (Hh eq_refl) in E.
  cbn [concat]. rewrite replay_app, E. exact IH.
Qed.

Lemma replay_guards_ok (es : list (event L)) h h' : guards_ok h → replay es h = Some h' → guards_ok h'.
Proof.
  revert h. induction es as [|ev es IH]; intros h Hok E; [by injection E as <-|]. cbn [replay] in E.
  destruct (happen h ev) as [h1|] eqn:E1; [|done]. by eapply IH, E; eapply happen_ok.
Qed.

(** Every guard that is taken is granted by the code of its cell or lock. *)
Lemma replay_granted (es1 es2 : list (event L)) l m h :
  replay (es1 ++ EAcq l m :: es2) [] = Some h → ∃ h1, replay es1 [] = Some h1 ∧ granted h1 l m.
Proof.
  rewrite replay_app. destruct (replay es1 []) as [h1|] eqn:E1; [|done]. cbn. destruct (acquire h1 l m) as [h2|] eqn:E2; [|done]. intros _.
  exists h1. split; [done|]. eapply acquire_granted; [|exact E2]. eapply replay_guards_ok, E1. intros k. unfold readers, writers. cbn. lia.
Qed.

End discipline.

(** ** Properties *)

(** C5. The kernel takes its cells and locks without conflict. Any number of
    processes run in any order that the switches allow: [past] is what the
    kernel has executed between switches, for traps, for processes that run
    for the first time and for the boot, and [now] what it has executed since
    the last switch. Then no switch happened while a guard was held, the guards
    that are held now do not conflict, and every guard so far was granted by the
    code on the state of its cell or lock at that time: the borrow of a cell
    found it free, a mutex and a reader-writer lock were taken at the first
    attempt. This covers every branch and
    every turn of the loops of every system call, for a running process that
    is not among its own children and does not exit as the first process, and
    for file systems in which the entry of a file is not in a block of its own
    data or of the tables. *)
Theorem lock_discipline {L} `{EqDecision L} (past : list (list (event L))) (now : list (event L)) :
  Forall (λ s, kernel_stretch s true) past → kernel_stretch now false →
  (∃ h, replay (concat past ++ now) [] = Some h ∧ guards_ok h) ∧
  ∀ before l m after, concat past ++ now = before ++ EAcq l m :: after → ∃ h, replay before [] = Some h ∧ granted h l m.
Proof.
  intros Hpast Hnow. destruct (kernel_stretch_replays now false Hnow) as (h & E & _).
  assert (replay (concat past ++ now) [] = Some h) as Er by (rewrite replay_app, (stretches_replay past Hpast); exact E).
  split.
  - exists h. split; [done|]. eapply replay_guards_ok, Er. intros l. unfold readers, writers. cbn. lia.
  - intros before l m after Es. rewrite Es in Er. by eapply replay_granted.
Qed.

(** ** Witness: a timer interrupt, and then a read that has the descriptor *)

Definition wit_suspend : list (event lock) :=
  [EAcq PROCESSOR Excl; ERel PROCESSOR Excl; EAcq (Inner Cur) Excl; ERel (Inner Cur) Excl; EAcq TASK_MANAGER Excl; ERel TASK_MANAGER Excl;
   EAcq PROCESSOR Excl; ERel PROCESSOR Excl; ESwitch].

Lemma wit_suspend_trace : trace id suspend_current_and_run_next wit_suspend true.
Proof.
  unfold suspend_current_and_run_next, take_current_task, inner, add_task, schedule, touch, with_guard.
  change wit_suspend with
    (([EAcq (id PROCESSOR) Excl] ++ [] ++ [ERel (id PROCESSOR) Excl]) ++ ([EAcq (id (Inner Cur)) Excl] ++ [] ++ [ERel (id (Inner Cur)) Excl]) ++
     ([EAcq (id TASK_MANAGER) Excl] ++ [] ++ [ERel (id TASK_MANAGER) Excl]) ++ ([EAcq (id PROCESSOR) Excl] ++ [] ++ [ERel (id PROCESSOR) Excl]) ++ [ESwitch]).
  repeat constructor.
Qed.

(** The timer interrupt up to the switch, and the start of a trap. *)
Lemma wit_stretch : kernel_stretch wit_suspend true.
Proof.
  exists trap_handler. split; [by left|]. exists id, [], [], false. split; [apply _|]. split; [|by eauto].
  cbn [app]. rewrite app_nil_r. rewrite <- (app_nil_r wit_suspend).
  apply (T_seq id _ trap_return wit_suspend [] false); [|constructor]. do 3 apply T_right. exact wit_suspend_trace.
Qed.

Lemma wit_stretch_now : kernel_stretch [EAcq PROCESSOR Excl] false.
Proof.
  exists trap_handler. split; [by left|]. exists id, [], [], false. split; [apply _|]. split; [|by auto].
  apply T_seq_cut. do 3 apply T_right. apply T_seq_cut. change ([] ++ [EAcq PROCESSOR Excl] ++ []) with ([EAcq (id PROCESSOR) Excl] ++ []).
  apply T_seq; constructor.
Qed.

Lemma lock_discipline_witness :
  (∃ h, replay (concat [wit_suspend; wit_suspend] ++ [EAcq PROCESSOR Excl]) [] = Some h ∧ guards_ok h) ∧
  ∃ h, replay (concat [wit_suspend; wit_suspend]) [] = Some h ∧ granted h PROCESSOR Excl.
Proof.
  destruct (lock_discipline [wit_suspend; wit_suspend] [EAcq PROCESSOR Excl]) as [H1 H2].
  - apply Forall_cons_2; [exact wit_stretch|]. apply Forall_cons_2; [exact wit_stretch|]. apply Forall_nil_2.
  - exact wit_stretch_now.
  - split; [exact H1|]. exact (H2 _ PROCESSOR Excl [] eq_refl).
Defined.

(** When the first process exits, [INITPROC] is the running process itself:
    its cell is borrowed a second time, which panics. *)
Theorem first_process_exit_borrows_twice {L} `{EqDecision L} (obj : lock → L) :
  obj (Inner INITPROC) = obj (Inner Cur) →
  ∃ t, trace obj exit_current_and_run_next t false ∧ replay t [] = None.
Proof.
  intros Heq. exists (([EAcq (obj PROCESSOR) Excl] ++ [] ++ [ERel (obj PROCESSOR) Excl]) ++ [EAcq (obj (Inner Cur)) Excl] ++ [] ++ [EAcq (obj (Inner INITPROC)) Excl] ++ []).
  split.
  - apply T_seq; [apply T_seq; [constructor|apply T_seq; constructor]|]. apply T_seq; [constructor|]. apply T_seq; [apply T_left; constructor|].
    apply T_seq_cut. apply T_seq; constructor.
  - cbn [app replay happen acquire release]. rewrite decide_False by apply not_elem_of_nil. cbn [mbind option_bind release].
    rewrite decide_True by done. cbn [mbind option_bind]. rewrite decide_False by apply not_elem_of_nil. cbn [mbind option_bind].
    rewrite decide_True; [done|]. rewrite Heq. by left.
Qed.
