(* ===== verification/VirtQueue.v ===== *)
(** * Virtqueues

    dependencies/virtio-drivers/src/queue.rs, the copy of the VirtIO crate in the
    repository: a queue keeps its descriptors in a table that it shares with the
    device, and a copy of the table ([desc_shadow]) that the device cannot
    change. The free descriptors form a list inside the copy.

    The device is outside of the program: between the operations of the driver
    it may change everything that it shares with it. *)

From S2P Require Import Prelude.

Open Scope mach_scope.

(** ** Data *)

(** lib.rs *)
Inductive Error : Set :=
| QueueFull
| NotReady
| WrongToken
| AlreadyUsed
| InvalidParam
| DmaError
| IoError
| Unsupported
| ConfigSpaceTooSmall
| ConfigSpaceMissing
| SocketDeviceError (e : Z).

Abbreviation result A := (Error + A)%type.
Abbreviation Ok := inr (only parsing).
Abbreviation Err := inl (only parsing).

(** hal.rs *)
Inductive BufferDirection : Set := DriverToDevice | DeviceToDriver | Both.

(** A slice of memory: its address and its length. *)
Definition buffer : Type := Z * Z.

(** The trait [Hal], as far as queues use it: the state [M] is the memory. *)
Class Hal (M : Type) := {
  share : buffer → BufferDirection → M → Z * M;
  unshare : Z → buffer → BufferDirection → M → M;
}.

(** The implementation of examples/riscv/src/virtio_impl.rs: the device has
    access to all of the memory, at the same addresses. *)
Definition virt_to_phys (vaddr : Z) : Z := vaddr.
Definition HalImpl (M : Type) : Hal M := {|
  share b _ m := (virt_to_phys b.1, m);
  unshare _ _ _ m := m;
|}.

Definition NEXT : Z := 1.
Definition WRITE : Z := 2.
Definition INDIRECT : Z := 4.

Record Descriptor := mkDesc { d_addr : Z; d_len : Z; d_flags : Z; d_next : Z }.
Record AvailRing := mkAvail { av_flags : Z; av_idx : Z; av_ring : list Z; av_used_event : Z }.
Record UsedElem := mkUsedElem { ue_id : Z; ue_len : Z }.
Record UsedRing := mkUsed { us_flags : Z; us_idx : Z; us_ring : list UsedElem; us_avail_event : Z }.

#[global] Instance BufferDirection_eq : EqDecision BufferDirection.
Proof. solve_decision. Defined.
#[global] Instance Error_eq : EqDecision Error.
Proof. solve_decision. Defined.

Record VirtQueue := mkVQ {
  queue_idx : Z;
  num_used : Z;
  free_head : Z;
  desc_shadow : list Descriptor;
  avail_idx : Z;
  last_used_idx : Z;
  event_idx : bool;
  indirect : bool;
  indirect_lists : list (option Z);
}.

(** The queue, the three areas that it shares with the device, the lists of
    indirect descriptors on the heap by their addresses, and the memory with
    the buffers. *)
Record world (M : Type) := mkWorld {
  vq : VirtQueue;
  desc : list Descriptor;
  avail : AvailRing;
  used : UsedRing;
  boxes : gmap Z (list Descriptor);
  memory : M;
}.
Arguments mkWorld {M} _ _ _ _ _ _.
Arguments vq {M} _.
Arguments desc {M} _.
Arguments avail {M} _.
Arguments used {M} _.
Arguments boxes {M} _.
Arguments memory {M} _.

(** ** Updates *)

Definition set_num_used (n : Z) (q : VirtQueue) : VirtQueue :=
  mkVQ (queue_idx q) n (free_head q) (desc_shadow q) (avail_idx q) (last_used_idx q) (event_idx q) (indirect q) (indirect_lists q).
Definition set_free_head (h : Z) (q : VirtQueue) : VirtQueue :=
  mkVQ (queue_idx q) (num_used q) h (desc_shadow q) (avail_idx q) (last_used_idx q) (event_idx q) (indirect q) (indirect_lists q).
Definition set_shadow (l : list Descriptor) (q : VirtQueue) : VirtQueue :=
  mkVQ (queue_idx q) (num_used q) (free_head q) l (avail_idx q) (last_used_idx q) (event_idx q) (indirect q) (indirect_lists q).
Definition set_avail_idx (i : Z) (q : VirtQueue) : VirtQueue :=
  mkVQ (queue_idx q) (num_used q) (free_head q) (desc_shadow q) i (last_used_idx q) (event_idx q) (indirect q) (indirect_lists q).
Definition set_last_used_idx (i : Z) (q : VirtQueue) : VirtQueue :=
  mkVQ (queue_idx q) (num_used q) (free_head q) (desc_shadow q) (avail_idx q) i (event_idx q) (indirect q) (indirect_lists q).
Definition set_indirect_lists (l : list (option Z)) (q : VirtQueue) : VirtQueue :=
  mkVQ (queue_idx q) (num_used q) (free_head q) (desc_shadow q) (avail_idx q) (last_used_idx q) (event_idx q) (indirect q) l.

Section updates.
Context {M : Type}.
Implicit Types s : world M.

Definition with_vq (q : VirtQueue) s : world M := mkWorld q (desc s) (avail s) (used s) (boxes s) (memory s).
Definition with_desc (d : list Descriptor) s : world M := mkWorld (vq s) d (avail s) (used s) (boxes s) (memory s).
Definition with_avail (a : AvailRing) s : world M := mkWorld (vq s) (desc s) a (used s) (boxes s) (memory s).
Definition with_boxes (b : gmap Z (list Descriptor)) s : world M := mkWorld (vq s) (desc s) (avail s) (used s) b (memory s).
Definition with_memory (m : M) s : world M := mkWorld (vq s) (desc s) (avail s) (used s) (boxes s) m.
End updates.

(** ** Descriptors *)

(** [DescFlags::contains] and [DescFlags::remove]. *)
Definition contains (flags f : Z) : bool := Z.land flags f =? f.
Definition remove (flags f : Z) : Z := Z.ldiff flags f.

Definition unset_buf (d : Descriptor) : Descriptor := mkDesc 0 0 (d_flags d) (d_next d).
Definition Descriptor_next (d : Descriptor) : option Z := if contains (d_flags d) NEXT then Some (d_next d) else None.
Definition with_flags (f : Z) (d : Descriptor) : Descriptor := mkDesc (d_addr d) (d_len d) f (d_next d).
Definition with_next (n : Z) (d : Descriptor) : Descriptor := mkDesc (d_addr d) (d_len d) (d_flags d) n.
Definition zero_desc : Descriptor := mkDesc 0 0 0 0.

Definition item : Type := buffer * BufferDirection.

(** The buffers of a request in order: [InputOutputIter]. *)
Definition InputOutputIter (inputs outputs : list buffer) : list item :=
  ((λ b, (b, DriverToDevice)) <$> inputs) ++ ((λ b, (b, DeviceToDriver)) <$> outputs).

(** The loop of [VirtQueue::new] that links the descriptors of a table. *)
Definition link_descriptors (size : nat) (l : list Descriptor) : list Descriptor :=
  foldl (λ l i, alter (with_next (Z.of_nat i + 1)) i l) l (seq 0 (size - 1)).

(** The queue that [VirtQueue::new] returns. *)
Definition start_queue (size : nat) (idx : Z) (indirect event_idx : bool) : VirtQueue :=
  mkVQ idx 0 0 (link_descriptors size (replicate size zero_desc)) 0 0 event_idx indirect (replicate size None).

Section ops.
Context {M : Type} `{Hal M}.
Variable SIZE : Z.
(** The address of a new list on the heap. *)
Variable new_box : gmap Z (list Descriptor) → Z → Z.

Abbreviation S := (ST (world M)).

Definition on_memory {A} (f : M → A * M) : S A := λ s, let '(a, m) := f (memory s) in Done (a, with_memory m s).
Definition modify_vq (f : VirtQueue → VirtQueue) : S unit := st_modify (λ s, with_vq (f (vq s)) s).

Definition shadow_at (i : Z) : S Descriptor := s ← st_get; unwrap (desc_shadow (vq s) !! Z.to_nat i).
Definition shadow_set (i : Z) (d : Descriptor) : S unit :=
  modify_vq (λ q, set_shadow (<[Z.to_nat i := d]> (desc_shadow q)) q).

Definition set_buf (buf : buffer) (direction : BufferDirection) (extra_flags : Z) (d : Descriptor) : S Descriptor :=
  pa ← on_memory (share buf direction);
  rassert (buf.2 <? 2 ^ 32);;
  match direction with
  | DeviceToDriver => mret (mkDesc (wrap 64 pa) buf.2 (Z.lor extra_flags WRITE) (d_next d))
  | DriverToDevice => mret (mkDesc (wrap 64 pa) buf.2 (Z.lor extra_flags 0) (d_next d))
  | Both => panic
  end.

Definition write_desc (index : Z) : S unit :=
  d ← shadow_at index;
  s ← st_get;
  rassert (Z.to_nat index <? length (desc s))%nat;;
  st_modify (with_desc (<[Z.to_nat index := d]> (desc s))).

Definition add_direct_body (last : Z) (it : item) : S Z :=
  let '(buffer, direction) := it in
  rassert (negb (buffer.2 =? 0));;
  fh ← st_gets (λ s, free_head (vq s));
  d ← shadow_at fh;
  d' ← set_buf buffer direction NEXT d;
  shadow_set fh d';;
  modify_vq (set_free_head (d_next d'));;
  write_desc fh;;
  mret fh.

Definition add_direct (inputs outputs : list buffer) : S Z :=
  head ← st_gets (λ s, free_head (vq s));
  last ← for_fold (InputOutputIter inputs outputs) head add_direct_body;
  d ← shadow_at last;
  shadow_set last (with_flags (remove (d_flags d) NEXT) d);;
  write_desc last;;
  modify_vq (λ q, set_num_used (wadd 16 (num_used q) (wrap 16 (Z.of_nat (length inputs + length outputs)))) q);;
  mret head.

Definition add_indirect_body (acc : nat * list Descriptor) (it : item) : S (nat * list Descriptor) :=
  let '(i, indirect_list) := acc in
  let '(buffer, direction) := it in
  d ← unwrap (indirect_list !! i);
  d' ← set_buf buffer direction NEXT d;
  mret (Datatypes.S i, <[i := with_next (wrap 16 (Z.of_nat i + 1)) d']> indirect_list).

Definition add_indirect (inputs outputs : list buffer) : S Z :=
  head ← st_gets (λ s, free_head (vq s));
  '(_, indirect_list) ← for_fold (InputOutputIter inputs outputs) (0%nat, replicate (length inputs + length outputs) zero_desc) add_indirect_body;
  '(d, front) ← unwrap (vec_pop indirect_list);
  let indirect_list := front ++ [with_flags (remove (d_flags d) NEXT) d] in
  s ← st_get;
  o ← unwrap (indirect_lists (vq s) !! Z.to_nat head);
  rassert (bool_decide (o = None));;
  let n := Z.of_nat (length indirect_list) in
  let a := new_box (boxes s) n in
  st_modify (with_boxes (<[a := indirect_list]> (boxes s)));;
  modify_vq (λ q, set_indirect_lists (<[Z.to_nat head := Some a]> (indirect_lists q)) q);;
  direct_desc ← shadow_at head;
  modify_vq (set_free_head (d_next direct_desc));;
  d' ← set_buf (a, 16 * n) DriverToDevice INDIRECT direct_desc;
  shadow_set head d';;
  write_desc head;;
  modify_vq (λ q, set_num_used (wadd 16 (num_used q) 1) q);;
  mret head.

Definition add (inputs outputs : list buffer) : S (result Z) :=
  if ((length inputs =? 0) && (length outputs =? 0))%nat then mret (Err InvalidParam) else
  q ← st_gets vq;
  let descriptors_needed := Z.of_nat (length inputs + length outputs) in
  if (SIZE <? num_used q + 1) || (SIZE <? descriptors_needed)
     || (negb (indirect q) && (SIZE <? num_used q + descriptors_needed))
  then mret (Err QueueFull) else
  head ← (if indirect q && (1 <? descriptors_needed) then add_indirect inputs outputs else add_direct inputs outputs);
  q ← st_gets vq;
  let avail_slot := Z.to_nat (Z.land (avail_idx q) (SIZE - 1)) in
  a ← st_gets avail;
  rassert (avail_slot <? length (av_ring a))%nat;;
  st_modify (with_avail (mkAvail (av_flags a) (av_idx a) (<[avail_slot := head]> (av_ring a)) (av_used_event a)));;
  modify_vq (set_avail_idx (wadd 16 (avail_idx q) 1));;
  a ← st_gets avail;
  st_modify (with_avail (mkAvail (av_flags a) (wadd 16 (avail_idx q) 1) (av_ring a) (av_used_event a)));;
  mret (Ok head).

Definition set_dev_notify (enable : bool) : S unit :=
  let avail_ring_flags := if enable then 0 else 1 in
  q ← st_gets vq;
  if event_idx q then mret tt else
  a ← st_gets avail;
  st_modify (with_avail (mkAvail avail_ring_flags (av_idx a) (av_ring a) (av_used_event a))).

Definition should_notify : S bool :=
  q ← st_gets vq;
  u ← st_gets used;
  mret (if event_idx q then wadd 16 (us_avail_event u) 1 <=? avail_idx q else Z.land (us_flags u) 1 =? 0).

Definition can_pop : S bool :=
  q ← st_gets vq;
  u ← st_gets used;
  mret (negb (last_used_idx q =? us_idx u)).

(** The entry of the used ring that is next. *)
Definition next_used : S UsedElem :=
  q ← st_gets vq;
  u ← st_gets used;
  unwrap (us_ring u !! Z.to_nat (Z.land (last_used_idx q) (SIZE - 1))).

Definition peek_used : S (option Z) :=
  b ← can_pop;
  if b : bool then e ← next_used; mret (Some (wrap 16 (ue_id e))) else mret None.

Definition available_desc : S Z :=
  q ← st_gets vq;
  mret (if indirect q then (if num_used q =? SIZE then 0 else SIZE) else SIZE - num_used q).

(** One buffer of a chain in the table. *)
Definition recycle_body (original_free_head : Z) (next : option Z) (it : item) : S (option Z) :=
  let '(buffer, direction) := it in
  rassert (negb (buffer.2 =? 0));;
  desc_index ← unwrap next;
  d ← shadow_at desc_index;
  let paddr := d_addr d in
  let d := unset_buf d in
  modify_vq (λ q, set_num_used (wsub 16 (num_used q) 1) q);;
  let next := Descriptor_next d in
  shadow_set desc_index (match next with Some _ => d | None => with_next original_free_head d end);;
  write_desc desc_index;;
  on_memory (λ m, (tt, unshare paddr buffer direction m));;
  mret next.

(** One buffer of a list on the heap. *)
Definition recycle_indirect_body (indirect_list : list Descriptor) (i : nat) (it : item) : S nat :=
  let '(buffer, direction) := it in
  rassert (negb (buffer.2 =? 0));;
  d ← unwrap (indirect_list !! i);
  on_memory (λ m, (tt, unshare (d_addr d) buffer direction m));;
  mret (Datatypes.S i).

Definition recycle_descriptors (head : Z) (inputs outputs : list buffer) : S unit :=
  original_free_head ← st_gets (λ s, free_head (vq s));
  modify_vq (set_free_head head);;
  head_desc ← shadow_at head;
  if contains (d_flags head_desc) INDIRECT then
    s ← st_get;
    o ← unwrap (indirect_lists (vq s) !! Z.to_nat head);
    a ← unwrap o;
    modify_vq (λ q, set_indirect_lists (<[Z.to_nat head := None]> (indirect_lists q)) q);;
    indirect_list ← unwrap (boxes s !! a);
    let paddr := d_addr head_desc in
    modify_vq (λ q, set_num_used (wsub 16 (num_used q) 1) q);;
    shadow_set head (with_next original_free_head (unset_buf head_desc));;
    on_memory (λ m, (tt, unshare paddr (a, 16 * Z.of_nat (length indirect_list)) DriverToDevice m));;
    rassert (length indirect_list =? length inputs + length outputs)%nat;;
    for_fold (InputOutputIter inputs outputs) 0%nat (recycle_indirect_body indirect_list);;
    st_modify (λ s, with_boxes (delete a (boxes s)) s)
  else
    next ← for_fold (InputOutputIter inputs outputs) (Some head) (recycle_body original_free_head);
    match next with Some _ => panic | None => mret tt end.

Definition pop_used (token : Z) (inputs outputs : list buffer) : S (result Z) :=
  b ← can_pop;
  if negb b then mret (Err NotReady) else
  e ← next_used;
  let index := wrap 16 (ue_id e) in
  if negb (index =? token) then mret (Err WrongToken) else
  recycle_descriptors index inputs outputs;;
  modify_vq (λ q, set_last_used_idx (wadd 16 (last_used_idx q) 1) q);;
  q ← st_gets vq;
  (if event_idx q then
     a ← st_gets avail;
     st_modify (with_avail (mkAvail (av_flags a) (av_idx a) (av_ring a) (last_used_idx q)))
   else mret tt);;
  mret (Ok (ue_len e)).

(** [add_notify_wait_pop]: what the transport and the device do when they are
    notified, and while the driver spins, are arguments. *)
Definition add_notify_wait_pop (notify : Z → S unit) (spin_loop : S unit) (fuel : nat) (inputs outputs : list buffer) : S (result Z) :=
  r ← add inputs outputs;
  match r with
  | Err e => mret (Err e)
  | Ok token =>
      b ← should_notify;
      q ← st_gets vq;
      (if b : bool then notify (queue_idx q) else mret tt);;
      loop (B := unit) (R := unit) fuel (λ _, b ← can_pop; if b : bool then mret (inr tt) else spin_loop;; mret (inl tt)) tt;;
      pop_used token inputs outputs
  end.

End ops.

(** ** Lists of descriptors in the table *)

(** [l'] is [l] with the elements at [ids] replaced by [ds]. *)
Record replaced {A} (l : list A) (ids : list nat) (ds : list A) (l' : list A) : Prop := {
  rp_length : length l' = length l;
  rp_other i : i ∉ ids → l' !! i = l !! i;
  rp_new : Forall2 (λ i d, l' !! i = Some d) ids ds;
}.

Lemma replaced_nil {A} (l : list A) : replaced l [] [] l.
Proof. by split. Qed.

Lemma replaced_cons {A} (l l' : list A) i d ids ds :
  (i < length l)%nat → i ∉ ids → replaced (<[i := d]> l) ids ds l' → replaced l (i :: ids) (d :: ds) l'.
Proof.
  intros Hi Hn [Hl Ho Hd]. split.
  - by rewrite Hl, length_insert.
  - intros j [Hj1 Hj2]%not_elem_of_cons. rewrite Ho by done. by rewrite list_lookup_insert_ne.
  - constructor; [|done]. rewrite Ho by done. by apply list_lookup_insert_eq.
Qed.

(** Replacing the last one again. *)
Lemma replaced_last {A} (l l' : list A) ids ds i d d' :
  NoDup (ids ++ [i]) → replaced l (ids ++ [i]) (ds ++ [d]) l' → replaced l (ids ++ [i]) (ds ++ [d']) (<[i := d']> l').
Proof.
  intros Hnd [Hl Ho Hd]. apply NoDup_app in Hnd as (_ & Hi & _). apply Forall2_app_inv in Hd as [Hd Hlast].
  2: { apply Forall2_length in Hd. rewrite !length_app in Hd. simpl in Hd. lia. }
  apply Forall2_cons in Hlast as [Hlast _]. split.
  - by rewrite length_insert.
  - intros j Hj. rewrite list_lookup_insert_ne by set_solver. by apply Ho.
  - apply Forall2_app.
    + rewrite Forall2_lookup in *. intros k. specialize (Hd k). destruct (ids !! k) as [j|] eqn:Hj; destruct (ds !! k); inv Hd; constructor.
      rewrite list_lookup_insert_ne; [done|]. intros ->. apply (Hi j); [by eapply list_elem_of_lookup_2|]. by left.
    + constructor; [|done]. apply list_lookup_insert_eq. by eapply lookup_lt_Some.
Qed.

Lemma replaced_lookup {A} (l l' : list A) ids ds i : replaced l ids ds l' → i ∈ ids → ∃ d, d ∈ ds ∧ l' !! i = Some d.
Proof.
  intros [_ _ Hd] (k & Hk)%list_elem_of_lookup_1. destruct (Forall2_lookup_l _ _ _ _ _ Hd Hk) as (d & Hdk & Hl).
  exists d. split; [|done]. by eapply list_elem_of_lookup_2.
Qed.

Lemma at_other {A} (l l' : list A) ids ds :
  (∀ i, i ∈ ids → l' !! i = l !! i) → Forall2 (λ i d, l !! i = Some d) ids ds → Forall2 (λ i d, l' !! i = Some d) ids ds.
Proof.
  intros Hs Hf. induction Hf as [|i d ids ds Hd Hf IH]; constructor; [by rewrite Hs by left|]. apply IH. intros j Hj. apply Hs. by right.
Qed.

(** The list that starts at [h], by its indexes; what comes after it is open. *)
Fixpoint seg (sh : list Descriptor) (h : Z) (l : list nat) : Prop :=
  match l with
  | [] => True
  | i :: l => h = Z.of_nat i ∧ ∃ d, sh !! i = Some d ∧ seg sh (d_next d) l
  end.

Lemma seg_other sh sh' h l : (∀ i, i ∈ l → sh' !! i = sh !! i) → seg sh h l → seg sh' h l.
Proof.
  revert h. induction l as [|i l IH]; intros h Hs; [done|]. intros (-> & d & Hd & Hl). split; [done|].
  exists d. split; [by rewrite Hs by left|]. apply IH; [|done]. intros j Hj. apply Hs. by right.
Qed.

Lemma seg_bound sh h l : seg sh h l → Forall (λ i, (i < length sh)%nat) l.
Proof.
  revert h. induction l as [|i l IH]; intros h; [done|]. intros (_ & d & Hd & Hl). constructor; [by eapply lookup_lt_Some|by eapply IH].
Qed.

(** The index of the list after it. *)
Definition seg_end (h : Z) (l : list nat) : Z := match l with i :: _ => Z.of_nat i | [] => h end.

Lemma seg_start sh h l : seg sh h l → h = seg_end h l.
Proof. destruct l; [done|]. by intros [-> _]. Qed.

(** ** What is in the table for a request *)

Definition dir_flag (dir : BufferDirection) : Z := match dir with DeviceToDriver => WRITE | _ => 0 end.
Definition item_ok (it : item) : Prop := 0 < it.1.2 < 2 ^ 32 ∧ it.2 ≠ Both.

Lemma iter_ok ins outs :
  Forall (λ b : buffer, 0 < b.2 < 2 ^ 32) ins → Forall (λ b : buffer, 0 < b.2 < 2 ^ 32) outs → Forall item_ok (InputOutputIter ins outs).
Proof.
  intros Hi Ho. apply Forall_app. split; apply Forall_fmap.
  - eapply Forall_impl; [exact Hi|]. by intros b Hb.
  - eapply Forall_impl; [exact Ho|]. by intros b Hb.
Qed.

Lemma length_iter ins outs : length (InputOutputIter ins outs) = (length ins + length outs)%nat.
Proof. unfold InputOutputIter. by rewrite length_app, !length_fmap. Qed.

Definition item_desc (it : item) (pa next : Z) : Descriptor := mkDesc (wrap 64 pa) it.1.2 (Z.lor NEXT (dir_flag it.2)) next.

(** The descriptors of a chain at [ids], whose end leads to [e], before and after
    the flag of the last one is removed. *)
Fixpoint open_chain (items : list item) (pas : list Z) (ids : list nat) (e : Z) : list Descriptor :=
  match items, pas, ids with
  | it :: items, pa :: pas, _ :: ids => item_desc it pa (seg_end e ids) :: open_chain items pas ids e
  | _, _, _ => []
  end.

Definition close_last (ds : list Descriptor) : list Descriptor :=
  match vec_pop ds with Some (d, front) => front ++ [with_flags (remove (d_flags d) NEXT) d] | None => [] end.

Lemma close_last_snoc ds d : close_last (ds ++ [d]) = ds ++ [with_flags (remove (d_flags d) NEXT) d].
Proof. unfold close_last. by rewrite vec_pop_snoc. Qed.

Lemma length_close_last ds : length (close_last ds) = length ds.
Proof. destruct ds as [|d ds _] using rev_ind; [done|]. rewrite close_last_snoc, !length_app. done. Qed.

Lemma length_open_chain items pas ids e : length pas = length items → length ids = length items → length (open_chain items pas ids e) = length items.
Proof. revert pas ids. induction items as [|it items IH]; intros [|pa pas] [|i ids]; simpl; intros ??; try lia. rewrite IH; lia. Qed.

(** The flags of a closed chain: the links are followed up to the last. *)
Lemma closed_flags_last it pa e : close_last [item_desc it pa e] = [mkDesc (wrap 64 pa) it.1.2 (dir_flag it.2) e].
Proof. change [item_desc it pa e] with ([] ++ [item_desc it pa e]). rewrite close_last_snoc. destruct it as [? []]; reflexivity. Qed.

Lemma closed_cons d ds : ds ≠ [] → close_last (d :: ds) = d :: close_last ds.
Proof.
  destruct ds as [|x ds _] using rev_ind; [done|]. intros _. rewrite close_last_snoc. change (d :: ds ++ [x]) with ((d :: ds) ++ [x]).
  by rewrite close_last_snoc.
Qed.

(** ** The operations on a queue *)

Section theory.
Context {M : Type} `{Hal M}.
Implicit Types (s : world M) (m : M) (items : list item).

(** The addresses that the buffers get, and the memory when all are shared. *)
Fixpoint share_all items m : list Z * M :=
  match items with
  | [] => ([], m)
  | (b, dir) :: items =>
      let '(pa, m) := share b dir m in
      let '(pas, m) := share_all items m in (pa :: pas, m)
  end.

Fixpoint unshare_all (pas : list Z) items m : M :=
  match pas, items with
  | pa :: pas, (b, dir) :: items => unshare_all pas items (unshare pa b dir m)
  | _, _ => m
  end.

Lemma length_share_all items m : length (share_all items m).1 = length items.
Proof.
  revert m. induction items as [|[b dir] items IH]; intros m; [done|]. simpl. destruct (share b dir m) as [pa m1].
  specialize (IH m1). destruct (share_all items m1). simpl in *. by f_equal.
Qed.

Lemma shadow_at_ok s (i : nat) d : desc_shadow (vq s) !! i = Some d → shadow_at (Z.of_nat i) s = Done (d, s).
Proof. intros Hd. unfold shadow_at. erewrite bind_step by reflexivity. by rewrite Nat2Z.id, Hd. Qed.

Lemma write_desc_ok s (i : nat) d :
  desc_shadow (vq s) !! i = Some d → (i < length (desc s))%nat → write_desc (Z.of_nat i) s = Done (tt, with_desc (<[i := d]> (desc s)) s).
Proof.
  intros Hd Hi. unfold write_desc. rewrite (bind_step _ _ _ _ _ (shadow_at_ok _ _ _ Hd)). erewrite bind_step by reflexivity.
  rewrite Nat2Z.id, (proj2 (Nat.ltb_lt _ _) Hi). by erewrite bind_step by reflexivity.
Qed.

Lemma set_buf_ok s it d extra pa m :
  item_ok it → share it.1 it.2 (memory s) = (pa, m) →
  set_buf it.1 it.2 extra d s = Done (mkDesc (wrap 64 pa) it.1.2 (Z.lor extra (dir_flag it.2)) (d_next d), with_memory m s).
Proof.
  intros [Hl Hd] Es. unfold set_buf, on_memory. erewrite bind_step by (by rewrite Es). rewrite (proj2 (Z.ltb_lt _ _)) by lia.
  erewrite bind_step by reflexivity. by destruct it as [b []].
Qed.

Lemma add_body_ok s it last i d pa m :
  item_ok it → free_head (vq s) = Z.of_nat i → desc_shadow (vq s) !! i = Some d → (i < length (desc s))%nat →
  share it.1 it.2 (memory s) = (pa, m) →
  let nd := item_desc it pa (d_next d) in
  add_direct_body last it s =
  Done (Z.of_nat i, mkWorld (set_free_head (d_next d) (set_shadow (<[i := nd]> (desc_shadow (vq s))) (vq s))) (<[i := nd]> (desc s))
                      (avail s) (used s) (boxes s) m).
Proof.
  intros Hit Hf Hd Hi Es nd. pose proof (set_buf_ok s it d NEXT pa m Hit Es) as Eb. destruct Hit as [Hl _].
  unfold add_direct_body. destruct it as [b dir]. simpl in Eb, Hl. rewrite (proj2 (Z.eqb_neq _ _)) by lia. erewrite bind_step by reflexivity.
  erewrite bind_step by reflexivity. rewrite Hf, (bind_step _ _ _ _ _ (shadow_at_ok _ _ _ Hd)).
  rewrite (bind_step _ _ _ _ _ Eb). unfold shadow_set. erewrite bind_step by reflexivity. erewrite bind_step by reflexivity.
  rewrite Nat2Z.id. set (s1 := with_vq _ _).
  assert (desc_shadow (vq s1) !! i = Some nd) as Hnd by (cbn; apply list_lookup_insert_eq; by eapply lookup_lt_Some).
  by rewrite (bind_step _ _ _ _ _ (write_desc_ok s1 i nd Hnd Hi)).
Qed.

(** The loop of [add_direct] takes the descriptors [ids] from the free list. *)
Lemma add_direct_loop items : ∀ s last ids rest,
  Forall item_ok items → length ids = length items → NoDup (ids ++ rest) → length (desc s) = length (desc_shadow (vq s)) →
  seg (desc_shadow (vq s)) (free_head (vq s)) (ids ++ rest) →
  ∃ sh' dsc' e,
    for_fold items last add_direct_body s =
    Done (default last (Z.of_nat <$> list.last ids),
          mkWorld (set_free_head e (set_shadow sh' (vq s))) dsc' (avail s) (used s) (boxes s) (share_all items (memory s)).2) ∧
    let ds := open_chain items (share_all items (memory s)).1 ids e in
    replaced (desc_shadow (vq s)) ids ds sh' ∧ replaced (desc s) ids ds dsc' ∧ seg sh' e rest.
Proof.
  induction items as [|it items IH]; intros s last [|i ids] rest Hit Hlen Hnd Hld Hseg; try done.
  { exists (desc_shadow (vq s)), (desc s), (free_head (vq s)). split; [by destruct s as [[] ]|]. split_and!; [apply replaced_nil..|done]. }
  apply Forall_cons in Hit as [Hi Hit]. apply NoDup_cons in Hnd as [Hni Hnd]. destruct Hseg as (Hfh & d & Hd & Hseg).
  assert (i < length (desc s))%nat as Hlt by (rewrite Hld; by eapply lookup_lt_Some).
  destruct (share it.1 it.2 (memory s)) as [pa m] eqn:Es.
  assert (share_all (it :: items) (memory s) = (pa :: (share_all items m).1, (share_all items m).2)) as Ea.
  { destruct it as [b dir]. simpl in *. rewrite Es. by destruct (share_all items m). }
  rewrite Ea. cbn [for_fold]. rewrite (bind_step _ _ _ _ _ (add_body_ok s it last i d pa m Hi Hfh Hd Hlt Es)).
  set (nd := item_desc it pa (d_next d)). set (s1 := mkWorld _ _ _ _ _ _).
  destruct (IH s1 (Z.of_nat i) ids rest Hit ltac:(simpl in Hlen; lia) Hnd) as (sh' & dsc' & e & E & Hr1 & Hr2 & Hs).
  { cbn. by rewrite !length_insert. }
  { cbn. eapply seg_other; [|exact Hseg]. intros j Hj. apply list_lookup_insert_ne. by intros ->. }
  exists sh', dsc', e. split.
  - rewrite E. destruct ids as [|j ids]; [done|]. rewrite last_cons_cons. destruct (list.last (j :: ids)) eqn:El; [done|]. by apply last_None in El.
  - assert (i ∉ ids) as Hni' by (intros ?; apply Hni, elem_of_app; by left).
    assert (nd = item_desc it pa (seg_end e ids)) as Hnd'.
    { unfold nd. f_equal. destruct ids as [|j ids]; [|by destruct Hseg as [-> _]]. destruct items; [|simpl in Hlen; lia].
      unfold s1 in E. cbn in E. by injection E. }
    cbv zeta. cbn [fst open_chain]. rewrite <- Hnd'. split; [apply replaced_cons; [by eapply lookup_lt_Some|done|done]|]. split; [by apply replaced_cons|done].
Qed.

Lemma add_direct_ok s ins outs ids rest :
  let items := InputOutputIter ins outs in
  let '(pas, m) := share_all items (memory s) in
  items ≠ [] → Forall item_ok items → length ids = length items → NoDup (ids ++ rest) → length (desc s) = length (desc_shadow (vq s)) →
  seg (desc_shadow (vq s)) (free_head (vq s)) (ids ++ rest) →
  ∃ sh' dsc' e,
    add_direct ins outs s =
    Done (free_head (vq s),
          mkWorld (set_num_used (wadd 16 (num_used (vq s)) (wrap 16 (Z.of_nat (length items)))) (set_free_head e (set_shadow sh' (vq s))))
            dsc' (avail s) (used s) (boxes s) m) ∧
    let ds := close_last (open_chain items pas ids e) in
    replaced (desc_shadow (vq s)) ids ds sh' ∧ replaced (desc s) ids ds dsc' ∧ seg sh' e rest.
Proof.
  intros items. destruct (share_all items (memory s)) as [pas m] eqn:Ea. intros Hne Hit Hlen Hnd Hld Hseg.
  destruct (add_direct_loop items s (free_head (vq s)) ids rest Hit Hlen Hnd Hld Hseg) as (sh & dsc & e & E & Hr1 & Hr2 & Hs).
  pose proof (length_share_all items (memory s)) as Hlp. rewrite Ea in *. cbn [fst snd] in *.
  pose proof (length_open_chain items pas ids e Hlp Hlen) as Hlo.
  destruct ids as [|i ids0 _] using rev_ind; [by destruct items|].
  destruct (open_chain items pas (ids0 ++ [i]) e) as [|d ds0 _] eqn:Eo using rev_ind; [by destruct items|]. rewrite last_snoc in E. cbn in E.
  unfold add_direct. erewrite bind_step by reflexivity. fold items. rewrite (bind_step _ _ _ _ _ E).
  assert (sh !! i = Some d) as Hd.
  { destruct Hr1 as [_ _ Hf]. apply Forall2_app_inv in Hf as [_ Hf]; [by inv Hf|].
    apply Forall2_length in Hf. rewrite !length_app in Hf. simpl in Hf. lia. }
  set (d' := with_flags (remove (d_flags d) NEXT) d).
  apply NoDup_app in Hnd as (Hnd & Hdis & _).
  pose proof (replaced_last _ _ _ _ _ _ d' Hnd Hr1) as Hr1'. pose proof (replaced_last _ _ _ _ _ _ d' Hnd Hr2) as Hr2'.
  set (s1 := mkWorld _ _ _ _ _ _). assert (desc_shadow (vq s1) !! i = Some d) as Hd1 by done.
  rewrite (bind_step _ _ _ _ _ (shadow_at_ok s1 i d Hd1)). unfold shadow_set. erewrite bind_step by reflexivity. rewrite Nat2Z.id. fold d'.
  set (s2 := with_vq _ s1). assert (desc_shadow (vq s2) !! i = Some d') as Hd2 by (apply list_lookup_insert_eq; by eapply lookup_lt_Some).
  assert (i < length (desc s2))%nat as Hi2 by (cbn; rewrite (rp_length _ _ _ _ Hr2), Hld, <- (rp_length _ _ _ _ Hr1); by eapply lookup_lt_Some).
  rewrite (bind_step _ _ _ _ _ (write_desc_ok s2 i d' Hd2 Hi2)). erewrite bind_step by reflexivity.
  exists (<[i := d']> sh), (<[i := d']> dsc), e. split; [unfold items; by rewrite length_iter|].
  cbv zeta. rewrite Eo, close_last_snoc. split_and!; [done..|]. eapply seg_other; [|exact Hs]. intros j Hj. apply list_lookup_insert_ne.
  intros ->. apply (Hdis j); [|done]. apply elem_of_app. right. by left.
Qed.

(** The list of [add_indirect], from its element [k] on. *)
Fixpoint open_list items (pas : list Z) (k : nat) : list Descriptor :=
  match items, pas with
  | it :: items, pa :: pas => item_desc it pa (wrap 16 (Z.of_nat k + 1)) :: open_list items pas (Datatypes.S k)
  | _, _ => []
  end.

Lemma length_open_list items pas k : length pas = length items → length (open_list items pas k) = length items.
Proof. revert pas k. induction items as [|it items IH]; intros [|pa pas] k; simpl; intros ?; try lia. rewrite IH; lia. Qed.

Lemma add_indirect_loop items : ∀ s pre, Forall item_ok items →
  let '(pas, m) := share_all items (memory s) in
  for_fold items (length pre, pre ++ replicate (length items) zero_desc) add_indirect_body s =
  Done ((length pre + length items)%nat, pre ++ open_list items pas (length pre), with_memory m s).
Proof.
  induction items as [|[b dir] items IH]; intros s pre Hit; cbn [share_all].
  { rewrite Nat.add_0_r. by destruct s. }
  apply Forall_cons in Hit as [Hi Hit]. destruct (share b dir (memory s)) as [pa m] eqn:Es.
  specialize (IH (with_memory m s) (pre ++ [item_desc (b, dir) pa (wrap 16 (Z.of_nat (length pre) + 1))]) Hit). cbn [memory with_memory] in IH.
  destruct (share_all items m) as [pas m'] eqn:Ea. cbn [for_fold length replicate].
  rewrite length_app, <- !app_assoc in IH. cbn [length app] in IH.
  erewrite bind_step.
  2: { unfold add_indirect_body. erewrite bind_step; [|rewrite list_lookup_middle by done; reflexivity].
       rewrite (bind_step _ _ _ _ _ (set_buf_ok s (b, dir) zero_desc NEXT pa m Hi Es)). rewrite insert_app_r_alt, Nat.sub_diag by lia. reflexivity. }
  replace (Datatypes.S (length pre)) with (length pre + 1)%nat by lia. etrans; [exact IH|].
  replace (length pre + 1 + length items)%nat with (length pre + Datatypes.S (length items))%nat by lia. cbn [open_list].
  by replace (Datatypes.S (length pre)) with (length pre + 1)%nat by lia.
Qed.

Lemma add_indirect_ok new_box s ins outs i d :
  let items := InputOutputIter ins outs in
  let '(pas, m) := share_all items (memory s) in
  let n := Z.of_nat (length items) in
  let a := new_box (boxes s) n in
  let '(pa, m2) := share (a, 16 * n) DriverToDevice m in
  items ≠ [] → Forall item_ok items → 16 * n < 2 ^ 32 → free_head (vq s) = Z.of_nat i → desc_shadow (vq s) !! i = Some d →
  indirect_lists (vq s) !! i = Some None → (i < length (desc s))%nat →
  let bd := mkDesc (wrap 64 pa) (16 * n) INDIRECT (d_next d) in
  add_indirect new_box ins outs s =
  Done (Z.of_nat i,
        mkWorld (set_num_used (wadd 16 (num_used (vq s)) 1)
                  (set_shadow (<[i := bd]> (desc_shadow (vq s))) (set_free_head (d_next d)
                    (set_indirect_lists (<[i := Some a]> (indirect_lists (vq s))) (vq s)))))
          (<[i := bd]> (desc s)) (avail s) (used s) (<[a := close_last (open_list items pas 0)]> (boxes s)) m2).
Proof.
  intros items. pose proof (length_share_all items (memory s)) as Hlp. destruct (share_all items (memory s)) as [pas m] eqn:Ea.
  intros n a. destruct (share (a, 16 * n) DriverToDevice m) as [pa m2] eqn:Es. intros Hne Hit Hn Hf Hd Hl Hi bd.
  pose proof (add_indirect_loop items s [] Hit) as E. rewrite Ea in E. cbn [app length Nat.add] in E, Hlp.
  pose proof (length_open_list items pas 0 Hlp) as Hlo.
  destruct (open_list items pas 0) as [|x l _] eqn:Eo using rev_ind; [by destruct items|].
  unfold add_indirect. erewrite bind_step by reflexivity. fold items. replace (length ins + length outs)%nat with (length items) by apply length_iter.
  rewrite (bind_step _ _ _ _ _ E). erewrite bind_step by (rewrite vec_pop_snoc; reflexivity).
  rewrite close_last_snoc. set (l' := l ++ [_]). assert (Z.of_nat (length l') = n) as Hl'.
  { unfold n, l'. f_equal. trans (length (l ++ [x])); [|exact Hlo]. by rewrite !length_app. }
  cbv beta zeta iota.
  erewrite bind_step by reflexivity. rewrite Hf, Nat2Z.id. erewrite bind_step by (cbn; rewrite Hl; reflexivity).
  erewrite bind_step by reflexivity. erewrite bind_step by reflexivity. erewrite bind_step by reflexivity.
  rewrite Hl'. cbn [boxes with_memory]. fold a. set (s1 := with_vq _ _).
  assert (desc_shadow (vq s1) !! i = Some d) as Hd1 by done. rewrite (bind_step _ _ _ _ _ (shadow_at_ok s1 i d Hd1)). erewrite bind_step by reflexivity.
  set (s2 := with_vq _ _). assert (item_ok ((a, 16 * n), DriverToDevice)) as Hok by (split; [destruct items; [done|]; simpl in *; unfold n in *; simpl in *; lia|done]).
  rewrite (bind_step _ _ _ _ _ (set_buf_ok s2 (a, 16 * n, DriverToDevice) d INDIRECT pa m2 Hok Es)).
  unfold shadow_set. erewrite bind_step by reflexivity. rewrite ?Nat2Z.id. set (s3 := with_vq _ _).
  assert (desc_shadow (vq s3) !! i = Some bd) as Hd3 by (apply list_lookup_insert_eq; by eapply lookup_lt_Some).
  rewrite (bind_step _ _ _ _ _ (write_desc_ok s3 i bd Hd3 Hi)). by erewrite bind_step by reflexivity.
Qed.

(** The links of a chain whose end leads to [e]. *)
Fixpoint links (ids : list nat) (e : Z) : list Z :=
  match ids with [] => [] | _ :: ids => seg_end e ids :: links ids e end.

Lemma seg_links sh ids ds e rest :
  Forall2 (λ i d, sh !! i = Some d) ids ds → d_next <$> ds = links ids e → seg sh e rest → seg sh (seg_end e ids) (ids ++ rest).
Proof.
  intros Hf. induction Hf as [|i d ids ds Hd Hf IH]; intros Hn Hs; [done|]. cbn in Hn. injection Hn as Hn1 Hn2.
  split; [done|]. exists d. split; [done|]. rewrite Hn1. by apply IH.
Qed.

Lemma seg_replaced sh sh' ids ds e rest :
  replaced sh ids ds sh' → d_next <$> ds = links ids e → NoDup (ids ++ rest) → seg sh e rest → seg sh' (seg_end e ids) (ids ++ rest).
Proof.
  intros [Hl Ho Hf] Hn Hnd Hs. eapply seg_links; [done..|]. eapply seg_other; [|exact Hs]. intros i Hi. apply Ho.
  intros Hi'. apply NoDup_app in Hnd as (_ & Hd & _). by apply (Hd i).
Qed.

Lemma recycle_body_ok s it ofh (i : nat) d :
  item_ok it → desc_shadow (vq s) !! i = Some d → (i < length (desc s))%nat →
  let next := Descriptor_next d in
  let nd := match next with Some _ => unset_buf d | None => with_next ofh (unset_buf d) end in
  recycle_body ofh (Some (Z.of_nat i)) it s =
  Done (next, mkWorld (set_num_used (wsub 16 (num_used (vq s)) 1) (set_shadow (<[i := nd]> (desc_shadow (vq s))) (vq s)))
                (<[i := nd]> (desc s)) (avail s) (used s) (boxes s) (unshare (d_addr d) it.1 it.2 (memory s))).
Proof.
  intros [Hl _] Hd Hi next nd. destruct it as [b dir]. simpl in Hl. unfold recycle_body. rewrite (proj2 (Z.eqb_neq _ _)) by lia.
  erewrite bind_step by reflexivity. erewrite bind_step by reflexivity. rewrite (bind_step _ _ _ _ _ (shadow_at_ok _ _ _ Hd)).
  erewrite bind_step by reflexivity. unfold shadow_set. erewrite bind_step by reflexivity. rewrite Nat2Z.id.
  change (Descriptor_next (unset_buf d)) with next. fold nd. set (s1 := with_vq _ _).
  assert (desc_shadow (vq s1) !! i = Some nd) as Hd1 by (apply list_lookup_insert_eq; by eapply lookup_lt_Some).
  rewrite (bind_step _ _ _ _ _ (write_desc_ok s1 i nd Hd1 Hi)). by erewrite bind_step by reflexivity.
Qed.

Lemma item_desc_next it pa n : Descriptor_next (item_desc it pa n) = Some n.
Proof. unfold Descriptor_next, item_desc. cbn. by destruct it as [b []]. Qed.

(** The loop over a chain gives its descriptors back, linked to the free list. *)
Lemma recycle_loop ofh items : ∀ s ids pas e,
  items ≠ [] → Forall item_ok items → length ids = length items → length pas = length items → NoDup ids →
  length (desc s) = length (desc_shadow (vq s)) → Z.of_nat (length items) ≤ num_used (vq s) < 2 ^ 16 →
  Forall2 (λ i d, desc_shadow (vq s) !! i = Some d) ids (close_last (open_chain items pas ids e)) →
  ∃ sh' dsc' ds,
    for_fold items (Some (seg_end 0 ids)) (recycle_body ofh) s =
    Done (None, mkWorld (set_num_used (num_used (vq s) - Z.of_nat (length items)) (set_shadow sh' (vq s))) dsc'
                  (avail s) (used s) (boxes s) (unshare_all (wrap 64 <$> pas) items (memory s))) ∧
    replaced (desc_shadow (vq s)) ids ds sh' ∧ replaced (desc s) ids ds dsc' ∧ d_next <$> ds = links ids ofh.
Proof.
  induction items as [|it items IH]; intros s [|i ids] [|pa pas] e Hne Hit Hli Hlp Hnd Hld Hu Hf; try done.
  apply Forall_cons in Hit as [Hi Hit]. apply NoDup_cons in Hnd as [Hni Hnd]. cbn [for_fold seg_end].
  destruct items as [|it' items].
  - destruct ids; [|done]. destruct pas; [|done]. cbn [open_chain] in Hf. rewrite closed_flags_last in Hf. apply Forall2_cons in Hf as [Hd _].
    assert (i < length (desc s))%nat as Hlt by (rewrite Hld; by eapply lookup_lt_Some).
    rewrite (bind_step _ _ _ _ _ (recycle_body_ok s it ofh i _ Hi Hd Hlt)). cbn [for_fold].
    assert (Descriptor_next (mkDesc (wrap 64 pa) it.1.2 (dir_flag it.2) (seg_end e [])) = None) as -> by (unfold Descriptor_next; by destruct it as [b []]).
    set (nd := with_next ofh _). exists (<[i := nd]> (desc_shadow (vq s))), (<[i := nd]> (desc s)), [nd].
    cbn [length] in Hu. split; [rewrite wsub_small by (unfold fits; lia); by destruct it|].
    split_and!; [apply replaced_cons; [by eapply lookup_lt_Some|set_solver|apply replaced_nil]| |done].
    apply replaced_cons; [done|set_solver|apply replaced_nil].
  - destruct ids as [|i' ids]; [done|]. destruct pas as [|pa' pas]; [done|]. cbn [open_chain] in Hf. rewrite closed_cons in Hf by done.
    change (item_desc it' pa' (seg_end e ids) :: _) with (open_chain (it' :: items) (pa' :: pas) (i' :: ids) e) in Hf.
    apply Forall2_cons in Hf as [Hd Hf].
    assert (i < length (desc s))%nat as Hlt by (rewrite Hld; by eapply lookup_lt_Some).
    rewrite (bind_step _ _ _ _ _ (recycle_body_ok s it ofh i _ Hi Hd Hlt)). rewrite item_desc_next. cbn [seg_end].
    set (nd := unset_buf _). set (s1 := mkWorld _ _ _ _ _ _). cbn [length] in Hu, Hli, Hlp.
    assert (num_used (vq s1) = num_used (vq s) - 1) as Hn1 by (cbn; apply wsub_small; unfold fits; lia).
    destruct (IH s1 (i' :: ids) (pa' :: pas) e) as (sh' & dsc' & ds & E & Hr1 & Hr2 & Hn); try done; cbn [length]; try lia.
    { cbn. by rewrite !length_insert. }
    { eapply at_other; [|exact Hf]. intros j Hj. apply list_lookup_insert_ne. by intros ->. }
    exists sh', dsc', (nd :: ds). split.
    { cbn [seg_end] in E. rewrite E, Hn1. destruct it as [b dir]. cbn [length].
      by replace (num_used (vq s) - Z.of_nat (Datatypes.S (Datatypes.S (length items)))) with (num_used (vq s) - 1 - Z.of_nat (Datatypes.S (length items))) by lia. }
    split_and!; [apply replaced_cons; [by eapply lookup_lt_Some|done|done]|by apply replaced_cons|]. cbn [fmap list_fmap links]. by f_equal.
Qed.

(** The first descriptor of a chain is not that of a list on the heap. *)
Lemma closed_head items pas ids e :
  items ≠ [] → length ids = length items → length pas = length items →
  ∃ i ids' d ds, ids = i :: ids' ∧ close_last (open_chain items pas ids e) = d :: ds ∧ contains (d_flags d) INDIRECT = false.
Proof.
  destruct items as [|it items], ids as [|i ids], pas as [|pa pas]; try done. intros _ Hi Hp. exists i, ids. cbn [open_chain].
  destruct items as [|it' items], ids as [|i' ids], pas as [|pa' pas]; try done.
  - cbn [open_chain]. rewrite closed_flags_last. eexists _, _. split; [done|]. split; [done|]. by destruct it as [b []].
  - rewrite closed_cons by done. eexists _, _. split; [done|]. split; [done|]. by destruct it as [b []].
Qed.

Lemma recycle_direct_ok s ins outs ids pas e :
  let items := InputOutputIter ins outs in
  items ≠ [] → Forall item_ok items → length ids = length items → length pas = length items → NoDup ids →
  length (desc s) = length (desc_shadow (vq s)) → Z.of_nat (length items) ≤ num_used (vq s) < 2 ^ 16 →
  Forall2 (λ i d, desc_shadow (vq s) !! i = Some d) ids (close_last (open_chain items pas ids e)) →
  ∃ sh' dsc' ds,
    recycle_descriptors (seg_end 0 ids) ins outs s =
    Done (tt, mkWorld (set_num_used (num_used (vq s) - Z.of_nat (length items)) (set_free_head (seg_end 0 ids) (set_shadow sh' (vq s)))) dsc'
                (avail s) (used s) (boxes s) (unshare_all (wrap 64 <$> pas) items (memory s))) ∧
    replaced (desc_shadow (vq s)) ids ds sh' ∧ replaced (desc s) ids ds dsc' ∧ d_next <$> ds = links ids (free_head (vq s)).
Proof.
  intros items Hne Hit Hli Hlp Hnd Hld Hu Hf. destruct (closed_head items pas ids e Hne Hli Hlp) as (i & ids' & d & dl & -> & Ed & Hd).
  unfold recycle_descriptors. erewrite bind_step by reflexivity. erewrite bind_step by reflexivity. set (s1 := with_vq _ s).
  assert (desc_shadow (vq s1) !! i = Some d) as Hd1 by (rewrite Ed in Hf; by apply Forall2_cons in Hf as [? _]).
  cbn [seg_end]. rewrite (bind_step _ _ _ _ _ (shadow_at_ok s1 i d Hd1)), Hd.
  destruct (recycle_loop (free_head (vq s)) items s1 (i :: ids') pas e) as (sh' & dsc' & ds & E & Hr1 & Hr2 & Hn); try done.
  exists sh', dsc', ds. split; [|done]. cbn [seg_end] in E. fold items. by rewrite (bind_step _ _ _ _ _ E).
Qed.

Lemma recycle_indirect_loop l items : ∀ s k,
  Forall item_ok items → (k + length items = length l)%nat →
  for_fold items k (recycle_indirect_body l) s = Done (length l, with_memory (unshare_all (d_addr <$> drop k l) items (memory s)) s).
Proof.
  induction items as [|[b dir] items IH]; intros s k Hit Hk; cbn [for_fold].
  { rewrite drop_ge by (simpl in Hk; lia). simpl in *. rewrite <- Hk, Nat.add_0_r. by destruct s. }
  apply Forall_cons in Hit as [[Hi _] Hit]. cbn [length] in Hk. destruct (lookup_lt_is_Some_2 l k ltac:(lia)) as [d Hd].
  erewrite bind_step.
  2: { unfold recycle_indirect_body. simpl in Hi. rewrite (proj2 (Z.eqb_neq _ _)) by lia. erewrite bind_step by reflexivity.
       erewrite bind_step by (rewrite Hd; reflexivity). erewrite bind_step by reflexivity. reflexivity. }
  rewrite IH by (done || lia). by rewrite (drop_S l d k Hd).
Qed.

Lemma recycle_indirect_ok s ins outs (i : nat) a l pa n e :
  let items := InputOutputIter ins outs in
  Forall item_ok items → length l = length items → 1 ≤ num_used (vq s) < 2 ^ 16 →
  desc_shadow (vq s) !! i = Some (mkDesc pa n INDIRECT e) → indirect_lists (vq s) !! i = Some (Some a) → boxes s !! a = Some l →
  recycle_descriptors (Z.of_nat i) ins outs s =
  Done (tt, mkWorld (set_num_used (num_used (vq s) - 1) (set_free_head (Z.of_nat i)
                      (set_shadow (<[i := mkDesc 0 0 INDIRECT (free_head (vq s))]> (desc_shadow (vq s)))
                        (set_indirect_lists (<[i := None]> (indirect_lists (vq s))) (vq s)))))
              (desc s) (avail s) (used s) (delete a (boxes s))
              (unshare_all (d_addr <$> l) items (unshare pa (a, 16 * Z.of_nat (length l)) DriverToDevice (memory s)))).
Proof.
  intros items Hit Hl Hu Hd Hil Hb. unfold recycle_descriptors. erewrite bind_step by reflexivity. erewrite bind_step by reflexivity. set (s1 := with_vq _ s).
  assert (desc_shadow (vq s1) !! i = Some (mkDesc pa n INDIRECT e)) as Hd1 by done.
  rewrite (bind_step _ _ _ _ _ (shadow_at_ok s1 i _ Hd1)). change (contains _ INDIRECT) with true. cbv iota.
  erewrite bind_step by reflexivity. rewrite Nat2Z.id. erewrite bind_step by (cbn; rewrite Hil; reflexivity).
  erewrite bind_step by reflexivity. erewrite bind_step by reflexivity. erewrite bind_step by (cbn; rewrite Hb; reflexivity).
  erewrite bind_step by reflexivity. erewrite bind_step by reflexivity. erewrite bind_step by reflexivity.
  rewrite <- length_iter. fold items. rewrite (proj2 (Nat.eqb_eq _ _) Hl). erewrite bind_step by reflexivity.
  erewrite bind_step by (apply recycle_indirect_loop; [done|exact (eq_sym Hl)]). rewrite Nat2Z.id. cbn. rewrite wsub_small by (unfold fits; lia). done.
Qed.

End theory.
