(* ===== verification/VirtRefine.v ===== *)
(** * What a virtqueue promises

    The client of a queue (dependencies/virtio-drivers/src/queue.rs) sees a set
    of requests that the device has not given back, each with its token. This
    file has that set as the specification, the invariant that relates it to the
    free list and the chains of the descriptor table, and the refinement. The
    device may change the shared areas as it likes. *)

From S2P Require Import Prelude VirtQueue.

(** ** Invariant *)

Record chain := mkChain {
  ch_ids : list nat;
  ch_ins : list buffer;
  ch_outs : list buffer;
  ch_pas : list Z;
  ch_box : option (Z * Z);
}.

Definition ch_items (c : chain) : list item := InputOutputIter (ch_ins c) (ch_outs c).
Definition token (c : chain) : Z := seg_end 0 (ch_ids c).

(** The descriptors of [c] are in the table, or its list is on the heap. *)
Definition chain_ok (q : VirtQueue) (bx : gmap Z (list Descriptor)) (c : chain) : Prop :=
  ch_items c ≠ [] ∧ Forall item_ok (ch_items c) ∧ length (ch_pas c) = length (ch_items c) ∧
  match ch_box c with
  | None =>
      length (ch_ids c) = length (ch_items c) ∧ Forall (λ i, indirect_lists q !! i = Some None) (ch_ids c) ∧
      ∃ e, Forall2 (λ i d, desc_shadow q !! i = Some d) (ch_ids c) (close_last (open_chain (ch_items c) (ch_pas c) (ch_ids c) e))
  | Some (a, pa) =>
      ∃ i n e l, ch_ids c = [i] ∧ desc_shadow q !! i = Some (mkDesc pa n INDIRECT e) ∧
        indirect_lists q !! i = Some (Some a) ∧ bx !! a = Some l ∧ length l = length (ch_items c)
  end.

Definition boxes_of (C : list chain) : list Z := (omap ch_box C).*1.
Definition ids_of (C : list chain) : list nat := concat (ch_ids <$> C).

Lemma ids_of_app C1 C2 : ids_of (C1 ++ C2) = ids_of C1 ++ ids_of C2.
Proof. unfold ids_of. by rewrite fmap_app, concat_app. Qed.

Lemma boxes_of_app C1 C2 : boxes_of (C1 ++ C2) = boxes_of C1 ++ boxes_of C2.
Proof. unfold boxes_of. by rewrite omap_app, fmap_app. Qed.

Lemma ids_of_elem C c i : c ∈ C → i ∈ ch_ids c → i ∈ ids_of C.
Proof.
  intros (k & Hk)%list_elem_of_lookup_1 Hi. rewrite <- (take_drop_middle C k c Hk), ids_of_app. apply elem_of_app. right.
  change (ids_of (c :: ?l)) with (ch_ids c ++ ids_of l). apply elem_of_app. by left.
Qed.

Section refine.
Context {M : Type} `{Hal M}.
Context (k : Z) (SIZE_OK : 0 ≤ k ≤ 15).
Context (new_box : gmap Z (list Descriptor) → Z → Z).
Hypothesis new_box_fresh : ∀ b n, b !! new_box b n = None.
Implicit Types s : world M.

Abbreviation SIZE := (2 ^ k).

Lemma SIZE_bound : 1 ≤ SIZE ≤ 32768.
Proof.
  split; [apply (Z.pow_le_mono_r 2 0 k); lia|]. apply (Z.pow_le_mono_r 2 k 15); lia.
Qed.

Record vq_inv s (F : list nat) (C : list chain) : Prop := {
  vi_shadow : Z.of_nat (length (desc_shadow (vq s))) = SIZE;
  vi_desc : length (desc s) = length (desc_shadow (vq s));
  vi_lists : length (indirect_lists (vq s)) = length (desc_shadow (vq s));
  vi_avail : Z.of_nat (length (av_ring (avail s))) = SIZE;
  vi_used : Z.of_nat (length (us_ring (used s))) = SIZE;
  vi_parts : F ++ ids_of C ≡ₚ seq 0 (length (desc_shadow (vq s)));
  vi_free : seg (desc_shadow (vq s)) (free_head (vq s)) F;
  vi_none : Forall (λ i, indirect_lists (vq s) !! i = Some None) F;
  vi_num : num_used (vq s) = Z.of_nat (length (ids_of C));
  vi_chains : Forall (chain_ok (vq s) (boxes s)) C;
  vi_boxes : NoDup (boxes_of C);
  vi_avail_idx : fits 16 (avail_idx (vq s));
  vi_last : fits 16 (last_used_idx (vq s));
}.

Lemma vi_nodup s F C : vq_inv s F C → NoDup (F ++ ids_of C).
Proof. intros Hi. rewrite (vi_parts _ _ _ Hi). apply NoDup_seq. Qed.

Lemma vi_count s F C : vq_inv s F C → Z.of_nat (length F) + num_used (vq s) = SIZE.
Proof.
  intros Hi. pose proof (Permutation_length (vi_parts _ _ _ Hi)) as Hl. rewrite length_app, length_seq in Hl.
  rewrite (vi_num _ _ _ Hi), <- (vi_shadow _ _ _ Hi). lia.
Qed.

Lemma vi_bound s F C i : vq_inv s F C → i ∈ F ++ ids_of C → (i < length (desc_shadow (vq s)))%nat.
Proof. intros Hi Hx. rewrite (vi_parts _ _ _ Hi) in Hx. apply elem_of_seq in Hx. lia. Qed.

(** A chain depends on its own descriptors and its own list. *)
Lemma chain_ok_other q q' bx bx' c :
  (∀ i, i ∈ ch_ids c → desc_shadow q' !! i = desc_shadow q !! i ∧ indirect_lists q' !! i = indirect_lists q !! i) →
  (∀ a pa l, ch_box c = Some (a, pa) → bx !! a = Some l → ∃ l', bx' !! a = Some l' ∧ length l' = length l) →
  chain_ok q bx c → chain_ok q' bx' c.
Proof.
  intros Hids Hbx (Hne & Hit & Hlp & Hc). split_and!; [done..|]. destruct (ch_box c) as [[a pa]|].
  - destruct Hc as (i & n & e & l & Ei & Hd & Hl & Hb & Hlen). destruct (Hids i ltac:(rewrite Ei; by left)) as [E1 E2].
    destruct (Hbx a pa l eq_refl Hb) as (l' & Hb' & Hl'). exists i, n, e, l'. rewrite E1, E2. split_and!; [done..|lia].
  - destruct Hc as (Hlen & Hn & e & Hf). split; [done|]. split.
    + rewrite Forall_forall in *. intros i Hi. destruct (Hids i Hi) as [_ ->]. by apply Hn.
    + exists e. eapply at_other; [|exact Hf]. intros i Hi. by apply Hids.
Qed.

Lemma box_chain q bx C a : Forall (chain_ok q bx) C → a ∈ boxes_of C → is_Some (bx !! a).
Proof.
  intros HC Ha. apply list_elem_of_fmap in Ha as ([a' pa] & -> & Hc). apply list_elem_of_omap in Hc as (c & Hc & Ec).
  rewrite Forall_forall in HC. destruct (HC c Hc) as (_ & _ & _ & Hx). rewrite Ec in Hx. by destruct Hx as (? & ? & ? & l & _ & _ & _ & ? & _); exists l.
Qed.

(** ** The device *)

(** What a device may do between two operations: everything but changing the
    fields of the queue, which it cannot reach, and the sizes of the arrays. *)
Record device_may s s' : Prop := {
  dm_vq : vq s' = vq s;
  dm_desc : length (desc s') = length (desc s);
  dm_avail : length (av_ring (avail s')) = length (av_ring (avail s));
  dm_used : length (us_ring (used s')) = length (us_ring (used s));
  dm_boxes a : length <$> boxes s' !! a = length <$> boxes s !! a;
}.

Lemma device_keeps s s' F C : device_may s s' → vq_inv s F C → vq_inv s' F C.
Proof.
  intros [Eq Hd Ha Hu Hb] [? ? ? ? ? ? ? ? ? Hc ? ? ?]. split; rewrite ?Eq; try done; try congruence.
  eapply Forall_impl; [exact Hc|]. intros c. apply chain_ok_other; [done|]. intros a pa l _ Hl. specialize (Hb a). rewrite Hl in Hb.
  destruct (boxes s' !! a) as [l'|]; [|done]. exists l'. split; [done|]. by injection Hb.
Qed.

Lemma chains_other q q' bx bx' C :
  (∀ i, i ∈ ids_of C → desc_shadow q' !! i = desc_shadow q !! i ∧ indirect_lists q' !! i = indirect_lists q !! i) →
  (∀ a l, a ∈ boxes_of C → bx !! a = Some l → bx' !! a = Some l) →
  Forall (chain_ok q bx) C → Forall (chain_ok q' bx') C.
Proof.
  intros Hids Hbx HC. rewrite Forall_forall in *. intros c Hc. apply (chain_ok_other q q' bx bx'); [| |by apply HC].
  - intros i Hi. apply Hids. by eapply ids_of_elem.
  - intros a pa l Ec Hl. exists l. split; [|done]. apply Hbx; [|done]. apply list_elem_of_fmap. exists (a, pa). split; [done|].
    apply list_elem_of_omap. by exists c.
Qed.

(** ** [add] *)

(** The fields that adding and recycling leave alone. *)
Record same_fields (q q' : VirtQueue) : Prop := {
  sf_idx : queue_idx q' = queue_idx q;
  sf_avail : avail_idx q' = avail_idx q;
  sf_last : last_used_idx q' = last_used_idx q;
  sf_event : event_idx q' = event_idx q;
  sf_indirect : indirect q' = indirect q;
}.

Lemma iter_length_pos ins outs : InputOutputIter ins outs ≠ [] → (1 ≤ length (InputOutputIter ins outs))%nat.
Proof. destruct (InputOutputIter ins outs); [done|simpl; lia]. Qed.

Lemma add_direct_keeps s F C ins outs :
  let items := InputOutputIter ins outs in
  vq_inv s F C → items ≠ [] → Forall item_ok items → num_used (vq s) + Z.of_nat (length items) ≤ SIZE →
  ∃ s' F' c, add_direct ins outs s = Done (token c, s') ∧ vq_inv s' F' (c :: C) ∧ same_fields (vq s) (vq s') ∧
    ch_ins c = ins ∧ ch_outs c = outs ∧ ch_box c = None ∧ ch_pas c = (share_all items (memory s)).1 ∧
    (∃ e, Forall2 (λ i d, desc s' !! i = Some d) (ch_ids c) (close_last (open_chain items (ch_pas c) (ch_ids c) e))) ∧
    avail s' = avail s ∧ used s' = used s ∧ boxes s' = boxes s ∧ memory s' = (share_all items (memory s)).2 ∧
    ch_ids c = take (length items) F ∧ F' = drop (length items) F ∧ (∀ i, i ∉ ch_ids c → desc s' !! i = desc s !! i).
Proof.
  intros items Hi Hne Hit Hn. pose proof (vi_nodup _ _ _ Hi) as Hnd. pose proof (vi_count _ _ _ Hi) as Hcnt.
  pose proof SIZE_bound. pose proof (iter_length_pos ins outs Hne) as Hpos. fold items in Hpos. set (n := length items) in *.
  pose proof (add_direct_ok s ins outs (take n F) (drop n F)) as Ha. fold items in Ha. pose proof (length_share_all items (memory s)) as Hlp.
  cbv zeta in Ha. destruct (share_all items (memory s)) as [pas m]. rewrite take_drop in Ha.
  assert (length (take n F) = length items) as Hids by (rewrite length_take; unfold n in *; lia).
  destruct Ha as (sh' & dsc' & e & E & Hr1 & Hr2 & Hs); try done; [by apply NoDup_app in Hnd as (? & _)|by apply Hi|by apply Hi|].
  set (c := mkChain (take n F) ins outs pas None).
  assert (token c = free_head (vq s)) as Ht.
  { pose proof (vi_free _ _ _ Hi) as Hf. unfold token, c. cbn [ch_ids]. destruct F as [|i F]; [simpl in *; lia|].
    destruct Hf as [-> _]. by destruct n; [lia|]. }
  assert (∀ i, i ∈ ids_of C → i ∉ take n F) as Hdis.
  { intros i Hx Hx'. apply NoDup_app in Hnd as (_ & Hd & _). apply (Hd i); [|done]. by apply (subseteq_take n F). }
  eexists _, (drop n F), c. rewrite Ht. split; [exact E|].
  split; [|split; [by split|]; split_and!; try done; [exists e; apply Hr2|apply Hr2]].
  destruct Hi as [Hv1 Hv2 Hv3 Hv4 Hv5 Hv6 Hv7 Hv8 Hv9 Hv10 Hv11 Hv12 Hv13]. pose proof (rp_length _ _ _ _ Hr1) as Hl1.
  split; cbn [vq desc avail used boxes set_num_used set_free_head set_shadow desc_shadow indirect_lists free_head num_used avail_idx last_used_idx];
    rewrite ?Hl1; try done.
  - by rewrite (rp_length _ _ _ _ Hr2).
  - change (ids_of (c :: C)) with (take n F ++ ids_of C). rewrite <- Hv6. rewrite <- (take_drop n F) at 3. rewrite !app_assoc. f_equiv. apply Permutation_app_comm.
  - by apply Forall_drop.
  - change (ids_of (c :: C)) with (take n F ++ ids_of C). rewrite length_app, Hids. rewrite Hv9 in *. fold n.
    rewrite (wrap_small 16 (Z.of_nat n)), wadd_small by (unfold fits; lia). lia.
  - constructor.
    + split_and!; [done..|]. cbn [c ch_box ch_ids]. split; [done|]. split; [by apply Forall_take|]. exists e. apply Hr1.
    + eapply chains_other; [| |exact Hv10]; [|done]. intros i Hx. split; [|done]. apply Hr1. by apply Hdis.
Qed.

Lemma add_indirect_keeps s F C ins outs :
  let items := InputOutputIter ins outs in
  vq_inv s F C → items ≠ [] → Forall item_ok items → num_used (vq s) + 1 ≤ SIZE → Z.of_nat (length items) ≤ SIZE →
  ∃ s' F' c a pa, add_indirect new_box ins outs s = Done (token c, s') ∧ vq_inv s' F' (c :: C) ∧ same_fields (vq s) (vq s') ∧
    ch_ins c = ins ∧ ch_outs c = outs ∧ ch_box c = Some (a, wrap 64 pa) ∧ ch_pas c = (share_all items (memory s)).1 ∧
    a = new_box (boxes s) (Z.of_nat (length items)) ∧ share (a, 16 * Z.of_nat (length items)) DriverToDevice (share_all items (memory s)).2 = (pa, memory s') ∧
    boxes s' = <[a := close_last (open_list items (ch_pas c) 0)]> (boxes s) ∧
    (∃ i n, ch_ids c = [i] ∧ desc s' !! i = Some (mkDesc (wrap 64 pa) (16 * Z.of_nat (length items)) INDIRECT n)) ∧
    avail s' = avail s ∧ used s' = used s.
Proof.
  intros items Hi Hne Hit Hn Hlen. pose proof (vi_nodup _ _ _ Hi) as Hnd. pose proof (vi_count _ _ _ Hi) as Hcnt. pose proof SIZE_bound.
  destruct F as [|i F]; [simpl in *; lia|]. pose proof (vi_free _ _ _ Hi) as (Hf & d & Hd & Hseg).
  pose proof (add_indirect_ok new_box s ins outs i d) as Ha. fold items in Ha. pose proof (length_share_all items (memory s)) as Hlp.
  cbv zeta in Ha. destruct (share_all items (memory s)) as [pas m]. set (n := Z.of_nat (length items)) in *. set (a := new_box (boxes s) n) in *.
  cbn [fst snd] in *. destruct (share (a, 16 * n) DriverToDevice m) as [pa m2] eqn:Es.
  pose proof (lookup_lt_Some _ _ _ Hd) as Hlt. pose proof (vi_none _ _ _ Hi) as Hnone. apply Forall_cons in Hnone as [Hni Hnone].
  specialize (Ha Hne Hit ltac:(lia) Hf Hd Hni ltac:(by rewrite (vi_desc _ _ _ Hi))).
  set (bd := mkDesc _ _ INDIRECT _) in *. set (c := mkChain [i] ins outs pas (Some (a, wrap 64 pa))).
  eexists _, F, c, a, pa. split; [exact Ha|].
  assert ((i ∉ F) ∧ i ∉ ids_of C) as [HiF HiC] by (apply NoDup_cons in Hnd as [Hx _]; split; intros ?; apply Hx, elem_of_app; auto).
  split; [|split; [by split|]; split_and!; try done].
  2: { exists i, (d_next d). split; [done|]. cbn [desc]. apply list_lookup_insert_eq. by rewrite (vi_desc _ _ _ Hi). }
  destruct Hi as [Hv1 Hv2 Hv3 Hv4 Hv5 Hv6 Hv7 Hv8 Hv9 Hv10 Hv11 Hv12 Hv13].
  split; cbn [vq desc avail used boxes set_num_used set_free_head set_shadow set_indirect_lists desc_shadow indirect_lists free_head num_used avail_idx last_used_idx];
    rewrite ?length_insert; try done.
  - rewrite <- Hv6. change (ids_of (c :: C)) with (i :: ids_of C). by rewrite <- Permutation_middle.
  - eapply seg_other; [|exact Hseg]. intros j Hj. apply list_lookup_insert_ne. by intros ->.
  - rewrite Forall_forall in *. intros j Hj. rewrite list_lookup_insert_ne by (by intros ->). by apply Hnone.
  - change (ids_of (c :: C)) with (i :: ids_of C). rewrite wadd_small by (unfold fits; lia). simpl. lia.
  - constructor.
    + split_and!; [done..|]. cbn [c ch_box ch_ids]. eexists i, _, _, _. split; [done|]. split; [by apply list_lookup_insert_eq|].
      split; [apply list_lookup_insert_eq; by rewrite Hv3|]. split; [apply lookup_insert_eq|]. rewrite length_close_last. by apply length_open_list.
    + eapply chains_other; [| |exact Hv10].
      * intros j Hj. cbn. by rewrite !list_lookup_insert_ne by (by intros ->).
      * intros b l Hb Hl. rewrite lookup_insert_ne; [done|]. intros <-. unfold a in Hl. by rewrite new_box_fresh in Hl.
  - change (boxes_of (c :: C)) with (a :: boxes_of C). constructor; [|done]. intros Hb. destruct (box_chain _ _ _ _ Hv10 Hb) as [l Hl].
    unfold a in Hl. by rewrite new_box_fresh in Hl.
Qed.

Lemma slot_bound i : fits 16 i → (Z.to_nat (Z.land i (SIZE - 1)) < Z.to_nat SIZE)%nat.
Proof.
  intros Hi. pose proof SIZE_bound. rewrite (land_ones_mod i k) by lia. pose proof (Z.mod_pos_bound i SIZE ltac:(lia)). lia.
Qed.

Lemma inv_avail s F C a i :
  vq_inv s F C → length (av_ring a) = length (av_ring (avail s)) → fits 16 i →
  vq_inv (mkWorld (set_avail_idx i (vq s)) (desc s) a (used s) (boxes s) (memory s)) F C.
Proof. intros [] Ha Hf. split; cbn; try done. congruence. Qed.

(** There are enough free descriptors for [n] buffers. *)
Definition room (q : VirtQueue) (n : Z) : Prop :=
  num_used q + 1 ≤ SIZE ∧ n ≤ SIZE ∧ (indirect q = false → num_used q + n ≤ SIZE).

(** The slot of the available ring with the index [i]. *)
Definition slot (i : Z) : nat := Z.to_nat (Z.land i (SIZE - 1)).

(** The state after [head] was put into the available ring. *)
Definition published (head : Z) s : world M :=
  let i := avail_idx (vq s) in
  mkWorld (set_avail_idx (wadd 16 i 1) (vq s)) (desc s)
    (mkAvail (av_flags (avail s)) (wadd 16 i 1) (<[slot i := head]> (av_ring (avail s))) (av_used_event (avail s)))
    (used s) (boxes s) (memory s).

Lemma published_inv head s F C : vq_inv s F C → vq_inv (published head s) F C.
Proof. intros Hi. apply (inv_avail s F C); [done|cbn; by rewrite length_insert|]. by apply wadd_fits. Qed.

(** [add] once the descriptors are taken. *)
Lemma add_run s ins outs head s1 F C :
  let n := Z.of_nat (length (InputOutputIter ins outs)) in
  InputOutputIter ins outs ≠ [] → room (vq s) n →
  (if indirect (vq s) && (1 <? n) then add_indirect new_box ins outs else add_direct ins outs) s = Done (head, s1) →
  vq_inv s1 F C → add SIZE new_box ins outs s = Done (inr head, published head s1).
Proof.
  intros n Hne (Hr1 & Hr2 & Hr3) E Hi. pose proof (iter_length_pos ins outs Hne) as Hpos. unfold n in *. rewrite length_iter in *. unfold add.
  assert (((length ins =? 0) && (length outs =? 0))%nat = false) as -> by (apply andb_false_iff; rewrite !Nat.eqb_neq; lia).
  erewrite bind_step by reflexivity. rewrite (proj2 (Z.ltb_ge _ _)) by lia. rewrite (proj2 (Z.ltb_ge _ _)) by lia. cbn [orb].
  assert (negb (indirect (vq s)) && (SIZE <? num_used (vq s) + Z.of_nat (length ins + length outs)) = false) as ->.
  { destruct (indirect (vq s)); [done|]. cbn. apply Z.ltb_ge. by apply Hr3. }
  rewrite (bind_step _ _ _ _ _ E). erewrite bind_step by reflexivity. erewrite bind_step by reflexivity.
  pose proof (slot_bound _ (vi_avail_idx _ _ _ Hi)) as Hs. rewrite (proj2 (Nat.ltb_lt _ _)).
  2: { pose proof (vi_avail _ _ _ Hi). pose proof SIZE_bound. lia. }
  by repeat (erewrite bind_step by reflexivity).
Qed.

Lemma add_keeps s F C ins outs :
  let items := InputOutputIter ins outs in
  vq_inv s F C → items ≠ [] → Forall item_ok items → room (vq s) (Z.of_nat (length items)) →
  ∃ s1 F' c, add SIZE new_box ins outs s = Done (inr (token c), published (token c) s1) ∧ vq_inv s1 F' (c :: C) ∧
    same_fields (vq s) (vq s1) ∧ ch_ins c = ins ∧ ch_outs c = outs ∧
    Z.of_nat (length (ch_ids c)) = if indirect (vq s) then 1 else Z.of_nat (length items).
Proof.
  intros items Hi Hne Hit Hr. pose proof Hr as (Hr1 & Hr2 & Hr3). pose proof (iter_length_pos ins outs Hne) as Hpos. fold items in Hpos.
  destruct (indirect (vq s) && (1 <? Z.of_nat (length items))) eqn:Eb.
  - destruct (add_indirect_keeps s F C ins outs Hi Hne Hit Hr1 Hr2) as (s1 & F' & c & a & pa & E & Hi' & Hs & H1 & H2 & _ & _ & _ & _ & _ & (i & n & Ei & _) & _).
    exists s1, F', c. split; [eapply add_run; [done..| |exact Hi']; fold items; by rewrite Eb|]. split_and!; [done..|].
    rewrite Ei. apply andb_true_iff in Eb as [-> _]. done.
  - destruct (add_direct_keeps s F C ins outs Hi Hne Hit) as (s1 & F' & c & E & Hi' & Hs & H1 & H2 & Hb & _).
    { fold items. destruct (indirect (vq s)); [|by apply Hr3]. cbn in Eb. apply Z.ltb_ge in Eb. lia. }
    exists s1, F', c. split; [eapply add_run; [done..| |exact Hi']; fold items; by rewrite Eb|]. split_and!; [done..|].
    pose proof (vi_chains _ _ _ Hi') as Hc. apply Forall_cons in Hc as [(_ & _ & _ & Hc) _]. rewrite Hb in Hc. destruct Hc as [Hl _].
    unfold ch_items in Hl. rewrite H1, H2 in Hl. rewrite Hl. fold items. destruct (indirect (vq s)); [|done]. rewrite andb_true_l in Eb. apply Z.ltb_ge in Eb. lia.
Qed.

Lemma add_refuses s F C ins outs :
  let items := InputOutputIter ins outs in
  vq_inv s F C → (items = [] → add SIZE new_box ins outs s = Done (inl InvalidParam, s)) ∧
  (items ≠ [] → ¬ room (vq s) (Z.of_nat (length items)) → add SIZE new_box ins outs s = Done (inl QueueFull, s)).
Proof.
  intros items Hi. split.
  - intros E. apply (f_equal length) in E. unfold items in E. rewrite length_iter in E. unfold add. by destruct ins, outs.
  - intros Hne Hr. pose proof (iter_length_pos ins outs Hne) as Hpos. unfold items, room in *. rewrite length_iter in *. unfold add.
    assert (((length ins =? 0) && (length outs =? 0))%nat = false) as -> by (apply andb_false_iff; rewrite !Nat.eqb_neq; lia).
    erewrite bind_step by reflexivity. set (b := _ || _). assert (b = true) as ->; [|done]. unfold b.
    destruct (SIZE <? num_used (vq s) + 1) eqn:E1; [done|]. destruct (SIZE <? Z.of_nat _) eqn:E2; [done|]. cbn.
    apply Z.ltb_ge in E1, E2. destruct (indirect (vq s)) eqn:Ei; cbn; [exfalso; apply Hr; done|]. apply Z.ltb_lt.
    destruct (decide (SIZE < num_used (vq s) + Z.of_nat (length ins + length outs))); [done|]. exfalso. apply Hr. split_and!; [done..|lia].
Qed.

(** ** [pop_used] *)

Lemma boxes_remove C1 C2 c : NoDup (boxes_of (C1 ++ c :: C2)) → NoDup (boxes_of (C1 ++ C2)).
Proof.
  rewrite !boxes_of_app. change (c :: C2) with ([c] ++ C2). rewrite boxes_of_app. intros Hn. eapply sublist_NoDup; [exact Hn|].
  apply sublist_app; [done|]. by apply sublist_inserts_l.
Qed.

Lemma ids_perm F C1 C2 c : F ++ ids_of (C1 ++ c :: C2) ≡ₚ (ch_ids c ++ F) ++ ids_of (C1 ++ C2).
Proof.
  change (c :: C2) with ([c] ++ C2). rewrite !ids_of_app. change (ids_of [c]) with (ch_ids c ++ []). rewrite app_nil_r.
  rewrite !app_assoc. f_equiv. rewrite <- !app_assoc, (Permutation_app_comm (ch_ids c)), <- app_assoc. done.
Qed.

(** The heap without the list of a request. *)
Definition without_box (c : chain) (b : gmap Z (list Descriptor)) : gmap Z (list Descriptor) :=
  match ch_box c with Some (a, _) => delete a b | None => b end.

Lemma unshare_all_id (Hu : ∀ pa b dir (m : M), unshare pa b dir m = m) pas items m : unshare_all pas items m = m.
Proof. revert pas m. induction items as [|[b dir] items IH]; intros [|pa pas] m; cbn; try done. by rewrite IH, Hu. Qed.

Lemma recycle_keeps s F C1 C2 c :
  vq_inv s F (C1 ++ c :: C2) →
  ∃ s', recycle_descriptors (token c) (ch_ins c) (ch_outs c) s = Done (tt, s') ∧ vq_inv s' (ch_ids c ++ F) (C1 ++ C2) ∧
    same_fields (vq s) (vq s') ∧ avail s' = avail s ∧ used s' = used s ∧ boxes s' = without_box c (boxes s) ∧
    ((∀ pa b dir m, unshare pa b dir m = m) → memory s' = memory s).
Proof.
  intros Hi. pose proof (vi_nodup _ _ _ Hi) as Hnd. rewrite ids_perm in Hnd. pose proof (vi_parts _ _ _ Hi) as Hp. rewrite ids_perm in Hp.
  pose proof (vi_count _ _ _ Hi) as Hcnt. pose proof SIZE_bound.
  pose proof (Permutation_length (ids_perm F C1 C2 c)) as Hlen. rewrite !length_app in Hlen.
  apply NoDup_app in Hnd as (HndF & Hdis & HndC). pose proof HndF as (Hndc & HdisF & _)%NoDup_app.
  destruct Hi as [Hv1 Hv2 Hv3 Hv4 Hv5 Hv6 Hv7 Hv8 Hv9 Hv10 Hv11 Hv12 Hv13].
  pose proof Hv10 as Hv10'. rewrite Forall_app, Forall_cons in Hv10'. destruct Hv10' as (HC1 & (Hne & Hit & Hlp & Hc) & HC2).
  destruct (ch_box c) as [[a pa]|] eqn:Eb.
  - destruct Hc as (i & n & e & l & Ei & Hd & Hl & Hb & Hll). rewrite Ei in *.
    pose proof (recycle_indirect_ok s (ch_ins c) (ch_outs c) i a l pa n e Hit Hll) as E.
    eexists. split; [unfold token; rewrite Ei; apply E; [cbn [length] in *; lia|done..]|].
    split; [|split; [by split|]; split_and!; try done; [unfold without_box; by rewrite Eb|]; intros Hu; cbn; by rewrite unshare_all_id, Hu].
    assert (∀ j, j ∈ ids_of (C1 ++ C2) → j ≠ i) as Hni by (intros j Hj ->; apply (Hdis i); [by left|done]).
    split; cbn [vq desc avail used boxes set_num_used set_free_head set_shadow set_indirect_lists desc_shadow indirect_lists free_head num_used avail_idx last_used_idx];
      rewrite ?length_insert; try done.
    + pose proof (lookup_lt_Some _ _ _ Hd). cbn [app seg]. split; [done|]. eexists. split; [by apply list_lookup_insert_eq|]. cbn [d_next].
      eapply seg_other; [|exact Hv7]. intros j Hj. apply list_lookup_insert_ne. intros <-. apply (HdisF i); [by left|done].
    + cbn [app]. constructor; [apply list_lookup_insert_eq; by eapply lookup_lt_Some|]. rewrite Forall_forall in *. intros j Hj.
      rewrite list_lookup_insert_ne; [by apply Hv8|]. intros <-. apply (HdisF i); [by left|done].
    + cbn [length] in Hlen. lia.
    + eapply chains_other; [| |apply Forall_app; done].
      * intros j Hj. cbn. by rewrite !list_lookup_insert_ne by (intros <-; by apply (Hni i)).
      * intros b l' Hb' Hl'. rewrite lookup_delete_ne; [done|]. intros <-. revert Hv11. change (c :: C2) with ([c] ++ C2). rewrite !boxes_of_app.
        assert (boxes_of [c] = [a]) as -> by (unfold boxes_of; cbn; by rewrite Eb). rewrite boxes_of_app in Hb'.
        rewrite Permutation_app_swap_app. intros [Hx _]%NoDup_cons. by apply Hx.
    + by eapply boxes_remove.
  - destruct Hc as (Hids & Hnl & e & Hf).
    destruct (recycle_direct_ok s (ch_ins c) (ch_outs c) (ch_ids c) (ch_pas c) e) as (sh' & dsc' & ds & E & Hr1 & Hr2 & Hlk); try done.
    { fold (ch_items c). rewrite <- Hids. lia. }
    eexists. split; [exact E|]. split; [|split; [by split|]; split_and!; try done; [unfold without_box; by rewrite Eb|]; intros Hu; cbn; by rewrite unshare_all_id]. pose proof (rp_length _ _ _ _ Hr1) as Hl1.
    assert (seg_end (free_head (vq s)) (ch_ids c) = seg_end 0 (ch_ids c)) as Ese by (destruct (ch_ids c); [by destruct (ch_items c)|done]).
    split; cbn [vq desc avail used boxes set_num_used set_free_head set_shadow desc_shadow indirect_lists free_head num_used avail_idx last_used_idx];
      rewrite ?Hl1; try done.
    + by rewrite (rp_length _ _ _ _ Hr2).
    + rewrite <- Ese. by eapply seg_replaced.
    + by apply Forall_app.
    + fold (ch_items c). rewrite <- Hids. lia.
    + eapply chains_other; [| |apply Forall_app; done]; [|done]. intros j Hj. split; [|done]. apply Hr1. intros Hj'. apply (Hdis j); [|done].
      apply elem_of_app. by left.
    + by eapply boxes_remove.
Qed.

(** What the used ring offers next. *)
Definition next_element s : option UsedElem :=
  if last_used_idx (vq s) =? us_idx (used s) then None else us_ring (used s) !! slot (last_used_idx (vq s)).

Lemma inv_last s F C a i :
  vq_inv s F C → length (av_ring a) = length (av_ring (avail s)) → fits 16 i →
  vq_inv (mkWorld (set_last_used_idx i (vq s)) (desc s) a (used s) (boxes s) (memory s)) F C.
Proof. intros [] Ha Hf. split; cbn; try done. congruence. Qed.

(** What popping a request changes beside its descriptors. *)
Record popped (c : chain) s s' : Prop := {
  pp_boxes : boxes s' = without_box c (boxes s);
  pp_idx : queue_idx (vq s') = queue_idx (vq s);
  pp_avail_idx : avail_idx (vq s') = avail_idx (vq s);
  pp_last : last_used_idx (vq s') = wadd 16 (last_used_idx (vq s)) 1;
  pp_event : event_idx (vq s') = event_idx (vq s);
  pp_indirect : indirect (vq s') = indirect (vq s);
  pp_av_idx : av_idx (avail s') = av_idx (avail s);
  pp_used : used s' = used s;
  pp_memory : (∀ pa b dir m, unshare pa b dir m = m) → memory s' = memory s;
}.

Lemma pop_keeps s F C1 C2 c :
  vq_inv s F (C1 ++ c :: C2) →
  match next_element s with
  | None => last_used_idx (vq s) = us_idx (used s) ∧ pop_used SIZE (token c) (ch_ins c) (ch_outs c) s = Done (inl NotReady, s)
  | Some e =>
      if decide (wrap 16 (ue_id e) = token c) then
        ∃ s', pop_used SIZE (token c) (ch_ins c) (ch_outs c) s = Done (inr (ue_len e), s') ∧ vq_inv s' (ch_ids c ++ F) (C1 ++ C2) ∧ popped c s s'
      else pop_used SIZE (token c) (ch_ins c) (ch_outs c) s = Done (inl WrongToken, s)
  end.
Proof.
  intros Hi. unfold next_element, pop_used, can_pop. destruct (last_used_idx (vq s) =? us_idx (used s)) eqn:El.
  { split; [by apply Z.eqb_eq|]. erewrite bind_step by (repeat (erewrite bind_step by reflexivity); reflexivity). by rewrite El. }
  pose proof (slot_bound _ (vi_last _ _ _ Hi)) as Hs. pose proof (vi_used _ _ _ Hi) as Hu. pose proof SIZE_bound.
  destruct (lookup_lt_is_Some_2 (us_ring (used s)) (slot (last_used_idx (vq s)))) as [e He]; [unfold slot; lia|]. rewrite He.
  erewrite bind_step by (repeat (erewrite bind_step by reflexivity); reflexivity). rewrite El. cbn [negb].
  erewrite bind_step; [|unfold next_used; repeat (erewrite bind_step by reflexivity); fold (slot (last_used_idx (vq s))); rewrite He; reflexivity].
  destruct (decide (wrap 16 (ue_id e) = token c)) as [Et|Et].
  2: { by rewrite (proj2 (Z.eqb_neq _ _) Et). }
  rewrite Et, Z.eqb_refl. cbn [negb]. destruct (recycle_keeps s F C1 C2 c Hi) as (s1 & E & Hi1 & [] & Ha & Hus & Hbx & Hmem).
  rewrite (bind_step _ _ _ _ _ E). erewrite bind_step by reflexivity. erewrite bind_step by reflexivity. cbn [vq with_vq event_idx set_last_used_idx].
  destruct (event_idx (vq s1)) eqn:Eev.
  - eexists. split; [repeat (erewrite bind_step by reflexivity); reflexivity|].
    split; [|by split; cbn; rewrite ?Ha; try done; congruence]. apply (inv_last s1); [done|done|by apply wadd_fits].
  - eexists. split; [repeat (erewrite bind_step by reflexivity); reflexivity|].
    split; [|by split; cbn; rewrite ?Ha; try done; congruence]. apply (inv_last s1); [done|done|by apply wadd_fits].
Qed.

(** ** The new queue *)

Lemma link_lookup n l i :
  (n ≤ length l)%nat → foldl (λ l i, alter (with_next (Z.of_nat i + 1)) i l) l (seq 0 n) !! i =
  if decide (i < n)%nat then with_next (Z.of_nat i + 1) <$> l !! i else l !! i.
Proof.
  intros Hn. induction n as [|n IH]; [by case_decide; [lia|]|]. rewrite seq_S, foldl_app. cbn [foldl Nat.add]. specialize (IH ltac:(lia)).
  destruct (decide (i = n)) as [->|Hne].
  - rewrite list_lookup_alter_eq, IH. case_decide; [lia|]. case_decide; [done|lia].
  - rewrite list_lookup_alter_ne, IH by done. repeat case_decide; try done; lia.
Qed.

Lemma seg_seq sh n m : (∀ i, (n ≤ i < n + m)%nat → ∃ d, sh !! i = Some d ∧ ((Datatypes.S i < n + m)%nat → d_next d = Z.of_nat i + 1)) → seg sh (Z.of_nat n) (seq n m).
Proof.
  revert n. induction m as [|m IH]; intros n Hd; [done|]. cbn [seq seg]. split; [done|]. destruct (Hd n ltac:(lia)) as (d & Hl & Hnext).
  exists d. split; [done|]. destruct m as [|m]; [done|]. rewrite Hnext by lia. replace (Z.of_nat n + 1) with (Z.of_nat (Datatypes.S n)) by lia.
  apply IH. intros i Hi. destruct (Hd i ltac:(lia)) as (d' & ? & Hn'). exists d'. split; [done|]. intros ?. apply Hn'. lia.
Qed.

Lemma link_length n l : length (foldl (λ l i, alter (with_next (Z.of_nat i + 1)) i l) l (seq 0 n)) = length l.
Proof. induction n as [|n IH]; [done|]. rewrite seq_S, foldl_app. cbn. by rewrite length_alter. Qed.

(** A queue as [VirtQueue::new] leaves it. *)
Record new_queue s : Prop := {
  nq_vq : ∃ idx ind ev, vq s = start_queue (Z.to_nat SIZE) idx ind ev;
  nq_desc : Z.of_nat (length (desc s)) = SIZE;
  nq_avail : Z.of_nat (length (av_ring (avail s))) = SIZE;
  nq_used : Z.of_nat (length (us_ring (used s))) = SIZE;
}.

Lemma new_queue_inv s : new_queue s → vq_inv s (seq 0 (Z.to_nat SIZE)) [].
Proof.
  intros [(idx & ind & ev & Eq) Hd Ha Hu]. pose proof SIZE_bound. set (n := Z.to_nat SIZE) in *.
  assert (length (desc_shadow (vq s)) = n) as Hl.
  { rewrite Eq. cbn. unfold link_descriptors. by rewrite link_length, length_replicate. }
  split; rewrite ?Hl; try (rewrite Eq; done); try lia.
  - by rewrite Eq; cbn; rewrite length_replicate.
  - unfold ids_of. cbn. by rewrite app_nil_r.
  - rewrite Eq. cbn [free_head start_queue desc_shadow]. apply (seg_seq _ 0). intros i Hi. unfold link_descriptors.
    rewrite link_lookup by (rewrite length_replicate; lia). rewrite lookup_replicate_2 by lia. case_decide; eexists; (split; [done|]); [done|lia].
  - rewrite Eq. cbn. apply Forall_forall. intros i Hi. apply elem_of_seq in Hi. apply lookup_replicate_2. lia.
  - apply NoDup_nil_2.
Qed.

(** ** The specification *)

(** The requests that the device has not given back, by their tokens. *)
Definition request : Type := list buffer * list buffer.
Definition outstanding : Type := list (Z * request).

Definition buffers (r : request) : Z := Z.of_nat (length r.1 + length r.2).
(** The descriptors of the table that a request takes. *)
Definition cost (ind : bool) (r : request) : Z := if ind then 1 else buffers r.
Definition taken (ind : bool) (O : outstanding) : Z := foldr Z.add 0 (cost ind <$> O.*2).
Definition has_room (ind : bool) (O : outstanding) (r : request) : Prop :=
  taken ind O + 1 ≤ SIZE ∧ buffers r ≤ SIZE ∧ (ind = false → taken ind O + buffers r ≤ SIZE).

Definition legal (r : request) : Prop := Forall (λ b : buffer, 0 < b.2 < 2 ^ 32) (r.1 ++ r.2).

Inductive spec_add (ind : bool) (O : outstanding) (r : request) : result Z → outstanding → Prop :=
| spec_add_nothing : buffers r = 0 → spec_add ind O r (inl InvalidParam) O
| spec_add_full : buffers r ≠ 0 → ¬ has_room ind O r → spec_add ind O r (inl QueueFull) O
| spec_add_ok t : buffers r ≠ 0 → has_room ind O r → 0 ≤ t < SIZE → t ∉ O.*1 → spec_add ind O r (inr t) ((t, r) :: O).

(** [pop_used] of the request with the token [t], when the ring offers [e]. *)
Inductive spec_pop (e : option UsedElem) (O1 : outstanding) (t : Z) (r : request) (O2 : outstanding) : result Z → outstanding → Prop :=
| spec_pop_none : e = None → spec_pop e O1 t r O2 (inl NotReady) (O1 ++ (t, r) :: O2)
| spec_pop_other x : e = Some x → wrap 16 (ue_id x) ≠ t → spec_pop e O1 t r O2 (inl WrongToken) (O1 ++ (t, r) :: O2)
| spec_pop_ok x : e = Some x → wrap 16 (ue_id x) = t → spec_pop e O1 t r O2 (inr (ue_len x)) (O1 ++ O2).

(** The queue and the requests of its client after any operations, of which
    those of the client keep its part of the contract: it gives non-empty
    buffers, and it pops a token with the buffers that it added. *)
Definition after_add (r : request) (res : result Z) (O : outstanding) : outstanding :=
  match res with inr t => (t, r) :: O | inl _ => O end.

Inductive reachable : world M → outstanding → Prop :=
| reach_new s : new_queue s → reachable s []
| reach_add s O r res s' : reachable s O → legal r → add SIZE new_box r.1 r.2 s = Done (res, s') → reachable s' (after_add r res O)
| reach_pop s O1 t r O2 len s' :
    reachable s (O1 ++ (t, r) :: O2) → pop_used SIZE t r.1 r.2 s = Done (inr len, s') → reachable s' (O1 ++ O2)
| reach_notify s O b s' : reachable s O → set_dev_notify b s = Done (tt, s') → reachable s' O
| reach_device s O s' : reachable s O → device_may s s' → reachable s' O.

Definition abs (C : list chain) : outstanding := (λ c, (token c, (ch_ins c, ch_outs c))) <$> C.

Record rep s (O : outstanding) (F : list nat) (C : list chain) : Prop := {
  rep_inv : vq_inv s F C;
  rep_abs : O = abs C;
  rep_cost : Forall (λ c, Z.of_nat (length (ch_ids c)) = cost (indirect (vq s)) (ch_ins c, ch_outs c)) C;
}.

Lemma legal_items r : legal r → Forall item_ok (InputOutputIter r.1 r.2).
Proof. intros [Hi Ho]%Forall_app. by apply iter_ok. Qed.

Lemma rep_taken s O F C : rep s O F C → num_used (vq s) = taken (indirect (vq s)) O.
Proof.
  intros [Hi -> Hc]. rewrite (vi_num _ _ _ Hi). clear Hi. induction Hc as [|c C Hc _ IH]; [done|].
  change (ids_of (c :: C)) with (ch_ids c ++ ids_of C). rewrite length_app, Nat2Z.inj_add, IH, Hc. done.
Qed.

Lemma buffers_items r : buffers r = Z.of_nat (length (InputOutputIter r.1 r.2)).
Proof. by rewrite length_iter. Qed.

Lemma rep_room s O F C r : rep s O F C → has_room (indirect (vq s)) O r ↔ room (vq s) (Z.of_nat (length (InputOutputIter r.1 r.2))).
Proof. intros Hr. unfold has_room, room. by rewrite (rep_taken _ _ _ _ Hr), buffers_items. Qed.

Lemma rep_tokens s O F C : rep s O F C → NoDup O.*1 ∧ Forall (λ t, 0 ≤ t < SIZE) O.*1.
Proof.
  intros [Hi -> _]. pose proof (vi_nodup _ _ _ Hi) as Hnd. apply NoDup_app in Hnd as (_ & _ & Hnd).
  assert (Forall (λ c, ∃ i ids, ch_ids c = i :: ids ∧ token c = Z.of_nat i ∧ Z.of_nat i < SIZE) C) as Hc.
  { pose proof (vi_chains _ _ _ Hi) as Hc. rewrite Forall_forall in *. intros c Hx. destruct (Hc c Hx) as (Hne & _ & _ & Hb).
    assert (ch_ids c ≠ []) as Hids.
    { destruct (ch_box c) as [[a pa]|]; [by destruct Hb as (? & ? & ? & ? & -> & _)|]. destruct Hb as [Hl _]. by destruct (ch_ids c), (ch_items c). }
    destruct (ch_ids c) as [|i ids] eqn:Ei; [done|]. exists i, ids. unfold token. rewrite Ei. split_and!; [done..|].
    rewrite <- (vi_shadow _ _ _ Hi). apply inj_lt. eapply (vi_bound s F C); [done|]. apply elem_of_app. right. eapply ids_of_elem; [done|]. rewrite Ei. by left. }
  clear Hi. unfold abs. rewrite <- list_fmap_compose. induction Hc as [|c C (i & ids & Ei & Et & Hlt) Hc IH]; [split; constructor|].
  change (ids_of (c :: C)) with (ch_ids c ++ ids_of C) in Hnd. apply NoDup_app in Hnd as (_ & Hdis & Hnd). destruct (IH Hnd) as [IH1 IH2].
  cbn [fmap list_fmap compose]. split; constructor; [|done|cbn; rewrite Et; lia|done]. cbn. intros (c' & Et' & Hc')%list_elem_of_fmap. cbn in Et'.
  rewrite Forall_forall in Hc. destruct (Hc c' Hc') as (j & ids' & Ej & Et2 & _). assert (i = j) as -> by lia. apply (Hdis j); [rewrite Ei; by left|].
  eapply ids_of_elem; [done|]. rewrite Ej. by left.
Qed.

Lemma rep_add s O F C r : rep s O F C → legal r →
  ∃ res s' O', add SIZE new_box r.1 r.2 s = Done (res, s') ∧ spec_add (indirect (vq s)) O r res O' ∧ O' = after_add r res O ∧
    indirect (vq s') = indirect (vq s) ∧ ∃ F' C', rep s' O' F' C'.
Proof.
  intros Hr Hl. pose proof Hr as [Hi HO Hc]. destruct (add_refuses s F C r.1 r.2 Hi) as [H1 H2].
  destruct (decide (InputOutputIter r.1 r.2 = [])) as [E|Hne].
  { exists (inl InvalidParam), s, O. split; [by apply H1|]. split; [constructor; by rewrite buffers_items, E|]. split_and!; [done..|by exists F, C]. }
  assert (buffers r ≠ 0) as Hb by (rewrite buffers_items; by destruct (InputOutputIter r.1 r.2)).
  destruct (decide (room (vq s) (Z.of_nat (length (InputOutputIter r.1 r.2))))) as [Hroom|Hroom].
  - destruct (add_keeps s F C r.1 r.2 Hi Hne (legal_items _ Hl) Hroom) as (s1 & F' & c & E & Hi' & Hs & Hin & Hout & Hids).
    assert (rep (published (token c) s1) ((token c, r) :: O) F' (c :: C)) as Hr'.
    { split; [by apply published_inv|rewrite HO; unfold abs; cbn [fmap list_fmap]; rewrite Hin, Hout; by destruct r|]. cbn. rewrite (sf_indirect _ _ Hs). constructor; [|done].
      rewrite Hids, Hin, Hout. unfold cost. by rewrite buffers_items. }
    destruct (rep_tokens _ _ _ _ Hr') as [Hnd Hbd]. apply NoDup_cons in Hnd as [Hnt _]. apply Forall_cons in Hbd as [Hbd _].
    exists (inr (token c)), (published (token c) s1), ((token c, r) :: O). split; [exact E|].
    split; [constructor; try done; by rewrite (rep_room _ _ _ _ r Hr)|]. split; [done|]. split; [apply Hs|by eexists _, _].
  - exists (inl QueueFull), s, O. split; [by apply H2|]. split; [constructor; [done|]; by rewrite (rep_room _ _ _ _ r Hr)|]. split_and!; [done..|by exists F, C].
Qed.

Lemma rep_pop s O1 t r O2 F C : rep s (O1 ++ (t, r) :: O2) F C →
  ∃ res s' O', pop_used SIZE t r.1 r.2 s = Done (res, s') ∧ spec_pop (next_element s) O1 t r O2 res O' ∧ (∀ e, res = inl e → s' = s) ∧
    indirect (vq s') = indirect (vq s) ∧ ∃ F' C', rep s' O' F' C'.
Proof.
  intros Hr. pose proof Hr as [Hi HO Hc]. symmetry in HO. apply fmap_app_inv in HO as (C1 & C2' & -> & HO2 & ->). symmetry in HO2.
  apply fmap_cons_inv in HO2 as (c & C2 & Ec & -> & ->). injection Ec as Et Er.
  pose proof (pop_keeps s F C1 C2 c Hi) as Hp. destruct r as [ins outs]. injection Er as -> ->. cbn [fst snd]. subst t. destruct (next_element s) as [e|] eqn:En.
  - case_decide as Ht.
    + destruct Hp as (s' & E & Hi' & [? ? ? ? ? Hind ? ? ?]). eexists _, s', _. split; [exact E|]. split; [by eapply spec_pop_ok|]. split_and!; [done..|].
      exists (ch_ids c ++ F), (C1 ++ C2). split; [done|unfold abs; by rewrite fmap_app|]. rewrite Hind. apply Forall_app in Hc as [? Hc].
      apply Forall_cons in Hc as [_ ?]. by apply Forall_app.
    + eexists _, s, _. split; [exact Hp|]. split; [by eapply spec_pop_other|]. split_and!; [done..|]. eexists _, _. exact Hr.
  - destruct Hp as [_ Hp]. eexists _, s, _. split; [exact Hp|]. split; [by constructor|]. split_and!; [done..|]. eexists _, _. exact Hr.
Qed.

Lemma reachable_rep s O : reachable s O → ∃ F C, rep s O F C.
Proof.
  induction 1 as [s Hn|s O r res s' _ (F & C & Hr) Hl E|s O1 t r O2 len s' _ (F & C & Hr) E|s O b s' _ (F & C & Hr) E|s O s' _ (F & C & Hr) Hd].
  - exists (seq 0 (Z.to_nat SIZE)), []. split; [by apply new_queue_inv|done|constructor].
  - destruct (rep_add s O F C r Hr Hl) as (res' & s1 & O' & E' & _ & -> & _ & Hr'). rewrite E in E'. injection E' as -> ->. exact Hr'.
  - destruct (rep_pop s O1 t r O2 F C Hr) as (res' & s1 & O' & E' & Hp & _ & _ & Hr'). rewrite E in E'. injection E' as <- ->.
    inversion Hp; subst; exact Hr'.
  - exists F, C. unfold set_dev_notify in E. erewrite bind_step in E by reflexivity. destruct (event_idx (vq s)); [by injection E as <-|].
    erewrite bind_step in E by reflexivity. injection E as <-. destruct Hr as [Hi HO Hc]. split; [|done..].
    destruct s as [[] ]. by apply (inv_avail _ F C (mkAvail _ _ _ _) _ Hi), Hi.
  - exists F, C. destruct Hr as [Hi HO Hc]. split; [by eapply device_keeps|done|]. by rewrite (dm_vq _ _ Hd).
Qed.

(** C14. A virtqueue refines a set of requests, against any device. After any
    operations of the queue, and whatever the device wrote to the descriptor
    table, the rings, the lists on the heap and the buffers in between: [add]
    does not panic, and gives a fresh token to the request exactly when the
    requests that are out leave room for it; [pop_used] with a token and the
    buffers of its request does not panic, and takes back exactly this request
    when the used ring has the token next, and otherwise says so and changes
    nothing; the tokens that are out are distinct; and [available_desc] is what
    the requests that are out leave of the table. *)
Theorem virtqueue_refines s O :
  reachable s O →
  (∀ r, legal r → ∃ res s' O', add SIZE new_box r.1 r.2 s = Done (res, s') ∧ spec_add (indirect (vq s)) O r res O' ∧ reachable s' O') ∧
  (∀ O1 t r O2, O = O1 ++ (t, r) :: O2 →
     ∃ res s' O', pop_used SIZE t r.1 r.2 s = Done (res, s') ∧ spec_pop (next_element s) O1 t r O2 res O' ∧ reachable s' O') ∧
  NoDup O.*1 ∧
  available_desc SIZE s =
    Done (if indirect (vq s) then (if taken true O =? SIZE then 0 else SIZE) else SIZE - taken false O, s).
Proof.
  intros Hreach. destruct (reachable_rep s O Hreach) as (F & C & Hr). split_and!.
  - intros r Hl. destruct (rep_add s O F C r Hr Hl) as (res & s' & O' & E & Hs & -> & _). exists res, s', (after_add r res O).
    split; [done|]. split; [done|]. by eapply reach_add.
  - intros O1 t r O2 ->. destruct (rep_pop s O1 t r O2 F C Hr) as (res & s' & O' & E & Hp & Herr & _). exists res, s', O'.
    split; [done|]. split; [done|]. inversion Hp; subst; try (rewrite (Herr _ eq_refl); exact Hreach). by eapply reach_pop.
  - apply (rep_tokens _ _ _ _ Hr).
  - unfold available_desc. erewrite bind_step by reflexivity. rewrite (rep_taken _ _ _ _ Hr). by destruct (indirect (vq s)).
Qed.
End refine.

(** ** Witness: a queue of four descriptors, with and without lists on the heap *)

Definition wit_box (b : gmap Z (list Descriptor)) (_ : Z) : Z := 1 + foldr Z.max 0 (map_to_list b).*1.

Lemma wit_box_fresh b n : b !! wit_box b n = None.
Proof.
  apply eq_None_not_Some. intros [l Hl]. apply elem_of_map_to_list in Hl.
  assert (∀ (l : list Z) x, x ∈ l → x ≤ foldr Z.max 0 l) as Hmax.
  { intros xs x Hx. induction Hx as [x xs|x y xs _ IH]; cbn; lia. }
  specialize (Hmax (map_to_list b).*1 (wit_box b n)). unfold wit_box in Hmax at 2.
  enough (wit_box b n ≤ foldr Z.max 0 (map_to_list b).*1) by (unfold wit_box in *; lia). apply Hmax.
  apply list_elem_of_fmap. by exists (wit_box b n, l).
Qed.

Definition wit_queue (ind : bool) : world unit :=
  mkWorld (start_queue 4 0 ind false) (link_descriptors 4 (replicate 4 zero_desc)) (mkAvail 0 0 (replicate 4 0) 0)
    (mkUsed 0 0 (replicate 4 (mkUsedElem 0 0)) 0) ∅ tt.
Definition wit_request : request := ([(0x1000, 16)], [(0x2000, 512); (0x3000, 1)]).
Definition wit_sent (ind : bool) : world unit := final (wit_queue ind) (@add _ (HalImpl unit) 4 wit_box [(0x1000, 16)] [(0x2000, 512); (0x3000, 1)] (wit_queue ind)).

(** The device is done with the request, and has spoiled the descriptor table. *)
Definition wit_served (ind : bool) : world unit :=
  let s := wit_sent ind in
  mkWorld (vq s) (replicate 4 (mkDesc 9 9 9 9)) (avail s) (mkUsed 0 1 (mkUsedElem 0 513 :: replicate 3 (mkUsedElem 0 0)) 0) (boxes s) (memory s).

Lemma wit_reachable ind : @reachable _ (HalImpl unit) 2 wit_box (wit_served ind) [(0, wit_request)].
Proof.
  apply (@reach_device _ (HalImpl unit) 2 wit_box (wit_sent ind)).
  - apply (@reach_add _ (HalImpl unit) 2 wit_box (wit_queue ind) [] wit_request (inr 0)); [| |by destruct ind; vm_compute].
    + apply reach_new. split; [by exists 0, ind, false|reflexivity..].
    + repeat (constructor; [cbn; lia|]). constructor.
  - by split; destruct ind.
Qed.

Lemma virtqueue_refines_witness :
  (∃ s', @pop_used _ (HalImpl unit) 4 0 wit_request.1 wit_request.2 (wit_served true) = Done (inr 513, s') ∧ reachable (H := HalImpl unit) 2 wit_box s' []) ∧
  available_desc 4 (wit_served false) = Done (1, wit_served false).
Proof.
  split.
  - destruct (@virtqueue_refines _ (HalImpl unit) 2 ltac:(lia) wit_box wit_box_fresh (wit_served true) [(0, wit_request)] (wit_reachable true)) as (_ & Hp & _).
    destruct (Hp [] 0 wit_request [] eq_refl) as (res & s' & O' & E & Hs & Hr). exists s'. inversion Hs as [Hn|x Hx Ht|x Hx Ht]; subst; vm_compute in Hx || vm_compute in Hn.
    + discriminate.
    + injection Hx as <-. by destruct Ht.
    + injection Hx as <-. split; [exact E|exact Hr].
  - destruct (@virtqueue_refines _ (HalImpl unit) 2 ltac:(lia) wit_box wit_box_fresh (wit_served false) [(0, wit_request)] (wit_reachable false)) as (_ & _ & _ & Ha).
    exact Ha.
Defined.
