(* ===== verification/VirtDevice.v ===== *)
(** * A device on the other side of a virtqueue

    [fake_read_write_queue] of dependencies/virtio-drivers/src/queue.rs is the
    device that the crate tests its drivers with: it takes the next chain of the
    available ring, reads the buffers for it, asks a handler, and writes the
    response to the other buffers. The device works on the descriptor table and
    the rings, and knows nothing of the driver. *)

From S2P Require Import Prelude PhysMem VirtQueue VirtRefine.

(** [slice::from_raw_parts(addr, len)]. *)
Definition rd_bytes (m : pmem) (a n : Z) : list Z := rd_pa m <$> zrange a (a + n).

Lemma length_rd_bytes m a n : length (rd_bytes m a n) = Z.to_nat n.
Proof. unfold rd_bytes. rewrite length_fmap, length_zrange. lia. Qed.

Lemma rd_bytes_is_byte m a n : Forall is_byte (rd_bytes m a n).
Proof. apply Forall_fmap, Forall_true. intros x. apply rd_byte_is_byte. Qed.

Lemma rd_bytes_same m a bs : 0 ≤ a → Forall is_byte bs → rd_bytes (wr_bytes m a bs) a (Z.of_nat (length bs)) = bs.
Proof.
  intros Ha Hb. apply list_eq. intros i. unfold rd_bytes. rewrite list_lookup_fmap. unfold zrange.
  destruct (decide (i < length bs)%nat) as [Hi|Hi].
  - rewrite lookup_seqZ_lt by lia. cbn. rewrite rd_pa_wr_bytes by (done || lia). rewrite decide_True by lia.
    replace (Z.to_nat (a + Z.of_nat i - a)) with i by lia. destruct (lookup_lt_is_Some_2 bs i Hi) as [x ->]. done.
  - rewrite lookup_seqZ_ge by lia. cbn. symmetry. apply lookup_ge_None. lia.
Qed.

Section device.
(** The state of the device is that of its handler. *)
Context {X : Type}.
Abbreviation M := (pmem * X)%type.
Abbreviation S := (ST (world M)).

Definition read_at (a n : Z) : S (list Z) := st_gets (λ s, rd_bytes (memory s).1 a n).
Definition write_at (a : Z) (bs : list Z) : S unit := st_modify (λ s, with_memory (wr_bytes (memory s).1 a bs, (memory s).2) s).
Definition desc_at (n : Z) : S Descriptor := s ← st_get; unwrap (desc s !! Z.to_nat n).

(** A chain in the table: the loops over the inputs and the outputs. *)
Definition read_body (acc : Descriptor * list Z) : S (Descriptor * list Z + Descriptor * list Z) :=
  let '(descriptor, input) := acc in
  if contains (d_flags descriptor) WRITE then mret (inr (descriptor, input)) else
  bs ← read_at (d_addr descriptor) (d_len descriptor);
  let input := input ++ bs in
  match Descriptor_next descriptor with
  | Some next => d ← desc_at next; mret (inl (d, input))
  | None => mret (inr (descriptor, input))
  end.

Definition write_body (acc : Descriptor * list Z) : S (Descriptor * list Z + list Z) :=
  let '(descriptor, remaining_output) := acc in
  rassert (contains (d_flags descriptor) WRITE);;
  let length_to_write := Nat.min (length remaining_output) (Z.to_nat (d_len descriptor)) in
  write_at (d_addr descriptor) (take length_to_write remaining_output);;
  let remaining_output := drop length_to_write remaining_output in
  match Descriptor_next descriptor with
  | Some next => d ← desc_at next; mret (inl (d, remaining_output))
  | None => mret (inr remaining_output)
  end.

(** A list on the heap: the same by index. *)
Definition read_list_body (l : list Descriptor) (acc : nat * list Z) : S (nat * list Z + nat * list Z) :=
  let '(i, input) := acc in
  if (length l <=? i)%nat then mret (inr (i, input)) else
  d ← unwrap (l !! i);
  if contains (d_flags d) WRITE then mret (inr (i, input)) else
  bs ← read_at (d_addr d) (d_len d);
  mret (inl (Datatypes.S i, input ++ bs)).

Definition write_list_body (l : list Descriptor) (acc : nat * list Z) : S (nat * list Z + list Z) :=
  let '(i, remaining_output) := acc in
  if (length l <=? i)%nat then mret (inr remaining_output) else
  d ← unwrap (l !! i);
  rassert (contains (d_flags d) WRITE);;
  let length_to_write := Nat.min (length remaining_output) (Z.to_nat (d_len d)) in
  write_at (d_addr d) (take length_to_write remaining_output);;
  mret (inl (Datatypes.S i, drop length_to_write remaining_output)).

Variable QUEUE_SIZE : Z.
Variable handler : list Z → X → list Z * X.

Definition handle (input : list Z) : S (list Z) :=
  s ← st_get;
  let '(output, x) := handler input (memory s).2 in
  st_modify (with_memory ((memory s).1, x));;
  mret output.

(** The chain is walked at most once around the table. *)
Definition chain_fuel : nat := Z.to_nat QUEUE_SIZE.

Definition fake_read_write_queue : S bool :=
  s ← st_get;
  if av_idx (avail s) =? us_idx (used s) then mret false else
  let next_slot := Z.to_nat (Z.land (us_idx (used s)) (QUEUE_SIZE - 1)) in
  head_descriptor_index ← unwrap (av_ring (avail s) !! next_slot);
  descriptor ← desc_at head_descriptor_index;
  '(input_length, output) ←
    (if contains (d_flags descriptor) INDIRECT then
       rassert (d_flags descriptor =? INDIRECT);;
       s ← st_get;
       l ← unwrap (boxes s !! d_addr descriptor);
       rassert (d_len descriptor mod 16 =? 0);;
       rassert (Z.to_nat (d_len descriptor / 16) <=? length l)%nat;;
       let l := take (Z.to_nat (d_len descriptor / 16)) l in
       '(i, input) ← loop (Datatypes.S (length l)) (read_list_body l) (0%nat, []);
       output ← handle input;
       remaining_output ← loop (Datatypes.S (length l)) (write_list_body l) (i, output);
       rassert (length remaining_output =? 0)%nat;;
       mret (length input, output)
     else
       '(descriptor, input) ← loop chain_fuel read_body (descriptor, []);
       output ← handle input;
       remaining_output ←
         (if contains (d_flags descriptor) WRITE then loop chain_fuel write_body (descriptor, output) else mret output);
       rassert (length remaining_output =? 0)%nat;;
       mret (length input, output));
  s ← st_get;
  let u := used s in
  rassert (next_slot <? length (us_ring u))%nat;;
  let e := mkUsedElem head_descriptor_index (wrap 32 (Z.of_nat (input_length + length output))) in
  st_modify (λ s, mkWorld (vq s) (desc s) (avail s) (mkUsed (us_flags u) (wadd 16 (us_idx u) 1) (<[next_slot := e]> (us_ring u)) (us_avail_event u)) (boxes s) (memory s));;
  mret true.


(** ** What the device reads *)

Definition describes (it : item) (d : Descriptor) : Prop :=
  d_addr d = it.1.1 ∧ d_len d = it.1.2 ∧ contains (d_flags d) WRITE = bool_decide (it.2 = DeviceToDriver).

(** The descriptors [ds] follow each other in the table. *)
Fixpoint walkable (tbl : list Descriptor) (ds : list Descriptor) : Prop :=
  match ds with
  | [] => True
  | d :: ds =>
      match ds with
      | [] => Descriptor_next d = None
      | d' :: _ => ∃ n, Descriptor_next d = Some n ∧ tbl !! Z.to_nat n = Some d'
      end ∧ walkable tbl ds
  end.

Abbreviation in_items ins := ((λ b : buffer, (b, DriverToDevice)) <$> ins).
Abbreviation out_items outs := ((λ b : buffer, (b, DeviceToDriver)) <$> outs).

(** The bytes of the inputs, and the memory with the outputs filled in order. *)
Definition gather (m : pmem) (ins : list buffer) : list Z := mjoin ((λ b, rd_bytes m b.1 b.2) <$> ins).
Fixpoint scatter (m : pmem) (outs : list buffer) (bs : list Z) : pmem :=
  match outs with
  | [] => m
  | b :: outs => scatter (wr_bytes m b.1 (take (Z.to_nat b.2) bs)) outs (drop (Z.to_nat b.2) bs)
  end.
Definition capacity (outs : list buffer) : Z := foldr Z.add 0 outs.*2.

Lemma take_min {A} n (l : list A) : take (Nat.min (length l) n) l = take n l.
Proof. destruct (decide (n ≤ length l)%nat); [by rewrite Nat.min_r|]. rewrite Nat.min_l, !take_ge by lia. done. Qed.

Lemma drop_min {A} n (l : list A) : drop (Nat.min (length l) n) l = drop n l.
Proof. destruct (decide (n ≤ length l)%nat); [by rewrite Nat.min_r|]. rewrite Nat.min_l, !drop_ge by lia. done. Qed.

Lemma desc_at_ok s n d : desc s !! Z.to_nat n = Some d → desc_at n s = Done (d, s).
Proof. intros Hd. unfold desc_at. erewrite bind_step by reflexivity. by rewrite Hd. Qed.

Lemma read_part_ok s d input :
  contains (d_flags d) WRITE = false →
  let input' := input ++ rd_bytes (memory s).1 (d_addr d) (d_len d) in
  (Descriptor_next d = None → read_body (d, input) s = Done (inr (d, input'), s)) ∧
  (∀ n d2, Descriptor_next d = Some n → desc s !! Z.to_nat n = Some d2 → read_body (d, input) s = Done (inl (d2, input'), s)).
Proof.
  intros Hw input'. unfold read_body. rewrite Hw. split; [|intros n d2]; intros Hn; erewrite bind_step by reflexivity; rewrite Hn; [done|].
  intros Hd. by rewrite (bind_step _ _ _ _ _ (desc_at_ok _ _ _ Hd)).
Qed.

Lemma read_chain_ok ins : ∀ outs d ds input s fuel,
  Forall2 describes (in_items ins ++ out_items outs) (d :: ds) → walkable (desc s) (d :: ds) → (length ins + length outs ≤ fuel)%nat →
  ∃ d' ds', loop fuel read_body (d, input) s = Done ((d', input ++ gather (memory s).1 ins), s) ∧
    contains (d_flags d') WRITE = bool_decide (outs ≠ []) ∧
    (outs ≠ [] → Forall2 describes (out_items outs) (d' :: ds') ∧ walkable (desc s) (d' :: ds')).
Proof.
  induction ins as [|b ins IH]; intros outs d ds input s [|fuel] Hd Hw Hf; try (simpl in Hf; lia).
  - cbn [fmap list_fmap app] in Hd. destruct outs; [inversion Hd|simpl in Hf; lia].
  - cbn [fmap list_fmap app] in Hd. destruct outs as [|o outs]; [inversion Hd|]. exists d, ds.
    pose proof Hd as ((_ & _ & Hwr) & _)%Forall2_cons. cbn in Hwr. split; [|by split]. cbn [loop]. unfold gather. cbn. rewrite Hwr, app_nil_r. done.
  - cbn [fmap list_fmap app] in Hd. apply Forall2_cons in Hd as ((Ha & Hl & Hwr) & Hd). cbn in Ha, Hl, Hwr. destruct Hw as [Hn Hw].
    rewrite bool_decide_eq_false_2 in Hwr by done. destruct (read_part_ok s d input Hwr) as [Hlast Hnext]. rewrite Ha, Hl in *. cbn [loop].
    assert ((input ++ rd_bytes (memory s).1 b.1 b.2) ++ gather (memory s).1 ins = input ++ gather (memory s).1 (b :: ins)) as Hg.
    { unfold gather. cbn. by rewrite <- app_assoc. }
    destruct ds as [|d2 ds].
    + destruct ins; [|inversion Hd]. destruct outs; [|inversion Hd]. exists d, []. rewrite (bind_step _ _ _ _ _ (Hlast Hn)).
      rewrite Hwr, <- Hg. split; [unfold gather; cbn; by rewrite app_nil_r|done].
    + destruct Hn as (n & Hn & Hd2). destruct (IH outs d2 ds (input ++ rd_bytes (memory s).1 b.1 b.2) s fuel Hd Hw ltac:(simpl in Hf; lia)) as (d' & ds' & E & Hrest).
      exists d', ds'. split; [|done]. by rewrite (bind_step _ _ _ _ _ (Hnext n d2 Hn Hd2)), E, Hg.
Qed.

Lemma write_chain_ok outs : ∀ d ds out s fuel,
  Forall2 describes (out_items outs) (d :: ds) → walkable (desc s) (d :: ds) → (length outs ≤ fuel)%nat →
  Forall (λ b : buffer, 0 ≤ b.2) outs → Z.of_nat (length out) ≤ capacity outs →
  loop fuel write_body (d, out) s = Done ([], with_memory (scatter (memory s).1 outs out, (memory s).2) s).
Proof.
  induction outs as [|b outs IH]; intros d ds out s [|fuel] Hd Hw Hf Hp Hc; try (simpl in Hf; lia); [inversion Hd..|].
  apply Forall2_cons in Hd as ((Ha & Hl & Hwr) & Hd). cbn in Ha, Hl, Hwr. destruct Hw as [Hn Hw]. apply Forall_cons in Hp as [Hb Hp].
  change (capacity (b :: outs)) with (b.2 + capacity outs) in Hc. cbn [loop scatter].
  set (s1 := with_memory (wr_bytes (memory s).1 b.1 (take (Z.to_nat b.2) out), (memory s).2) s).
  assert (write_body (d, out) s = (match Descriptor_next d with Some next => d' ← desc_at next; mret (inl (d', drop (Z.to_nat b.2) out)) | None => mret (inr (drop (Z.to_nat b.2) out)) end) s1) as Ew.
  { unfold write_body. rewrite Hwr. erewrite bind_step by reflexivity. erewrite bind_step by reflexivity. by rewrite Ha, Hl, take_min, drop_min. }
  destruct ds as [|d2 ds].
  - destruct outs; [|inversion Hd]. rewrite Hn in Ew. rewrite (bind_step _ _ _ _ _ Ew). cbn in Hc. rewrite drop_ge by lia. done.
  - destruct Hn as (n & Hn & Hd2). rewrite Hn in Ew. rewrite (bind_step _ _ _ _ _ (desc_at_ok s1 _ _ Hd2)) in Ew. rewrite (bind_step _ _ _ _ _ Ew).
    rewrite (IH d2 ds _ s1 fuel Hd Hw ltac:(simpl in Hf; lia) Hp); [done|]. rewrite length_drop. pose proof (Forall2_length _ _ _ Hd).
    destruct outs as [|o outs]; [done|]. assert (0 ≤ capacity (o :: outs)); [|lia].
    clear -Hp. unfold capacity. induction Hp; cbn in *; lia.
Qed.

Lemma capacity_nonneg outs : Forall (λ b : buffer, 0 ≤ b.2) outs → 0 ≤ capacity outs.
Proof. unfold capacity. induction 1; cbn in *; lia. Qed.

Lemma read_list_ok l ins : ∀ outs i input s fuel,
  Forall2 describes (in_items ins ++ out_items outs) (drop i l) → (i ≤ length l)%nat → (length ins < fuel)%nat →
  loop fuel (read_list_body l) (i, input) s = Done (((i + length ins)%nat, input ++ gather (memory s).1 ins), s) ∧
  Forall2 describes (out_items outs) (drop (i + length ins) l).
Proof.
  induction ins as [|b ins IH]; intros outs i input s [|fuel] Hd Hi Hf; try lia.
  - cbn [fmap list_fmap app length] in *. rewrite Nat.add_0_r. split; [|done]. cbn [loop]. change (gather _ []) with (@nil Z). rewrite app_nil_r.
    assert (read_list_body l (i, input) s = Done (inr (i, input), s)) as Eb; [|by rewrite (bind_step _ _ _ _ _ Eb)]. unfold read_list_body.
    destruct (Nat.leb_spec (length l) i) as [Hle|Hlt]; [done|]. destruct (lookup_lt_is_Some_2 l i Hlt) as [d Hl]. rewrite (drop_S _ _ _ Hl) in Hd.
    rewrite Hl. erewrite bind_step by reflexivity. destruct outs as [|o outs]; [inversion Hd|]. apply Forall2_cons in Hd as ((_ & _ & Hw) & _).
    cbn in Hw. by rewrite Hw.
  - cbn [fmap list_fmap app length] in *. assert (i < length l)%nat as Hlt by (apply Forall2_length in Hd; rewrite length_drop in Hd; simpl in Hd; lia).
    destruct (lookup_lt_is_Some_2 l i Hlt) as [d Hl]. rewrite (drop_S _ _ _ Hl) in Hd. apply Forall2_cons in Hd as ((Ha & Hln & Hw) & Hd).
    cbn in Ha, Hln, Hw. destruct (IH outs (Datatypes.S i) (input ++ rd_bytes (memory s).1 b.1 b.2) s fuel Hd ltac:(lia) ltac:(lia)) as [E Ho].
    replace (i + Datatypes.S (length ins))%nat with (Datatypes.S i + length ins)%nat by lia. split; [|done]. cbn [loop].
    erewrite bind_step.
    2: { unfold read_list_body. rewrite (proj2 (Nat.leb_gt _ _)) by lia. erewrite bind_step by (rewrite Hl; reflexivity). rewrite Hw.
         rewrite bool_decide_eq_false_2 by done. erewrite bind_step by reflexivity. rewrite Ha, Hln. reflexivity. }
    etrans; [exact E|]. unfold gather. cbn. by rewrite <- app_assoc.
Qed.

Lemma write_list_ok l outs : ∀ i out s fuel,
  Forall2 describes (out_items outs) (drop i l) → (i ≤ length l)%nat → (length outs < fuel)%nat →
  Forall (λ b : buffer, 0 ≤ b.2) outs → Z.of_nat (length out) ≤ capacity outs →
  loop fuel (write_list_body l) (i, out) s = Done ([], with_memory (scatter (memory s).1 outs out, (memory s).2) s).
Proof.
  induction outs as [|b outs IH]; intros i out s [|fuel] Hd Hi Hf Hp Hc; try lia.
  - apply Forall2_length in Hd. rewrite length_drop in Hd. cbn in Hd, Hc. destruct out; [|simpl in Hc; lia]. cbn [loop].
    erewrite bind_step by (unfold write_list_body; rewrite (proj2 (Nat.leb_le _ _)) by lia; reflexivity). by destruct s as [? ? ? ? ? []].
  - assert (i < length l)%nat as Hlt by (apply Forall2_length in Hd; rewrite length_drop in Hd; simpl in Hd; lia).
    destruct (lookup_lt_is_Some_2 l i Hlt) as [d Hl]. rewrite (drop_S _ _ _ Hl) in Hd. apply Forall2_cons in Hd as ((Ha & Hln & Hw) & Hd).
    cbn in Ha, Hln, Hw. apply Forall_cons in Hp as [Hb Hp]. change (capacity (b :: outs)) with (b.2 + capacity outs) in Hc. cbn [loop scatter].
    pose proof (capacity_nonneg outs Hp). erewrite bind_step.
    2: { unfold write_list_body. rewrite (proj2 (Nat.leb_gt _ _)) by lia. erewrite bind_step by (rewrite Hl; reflexivity). rewrite Hw.
         erewrite bind_step by reflexivity. erewrite bind_step by reflexivity. rewrite Ha, Hln, take_min, drop_min. reflexivity. }
    cbn [length] in Hf. etrans; [apply IH; [done|lia|lia|done|]|done]. rewrite length_drop. lia.
Qed.

(** The request at [head], as it is in the table or on the heap. *)
Definition visible (s : world M) (head : Z) (ins outs : list buffer) : Prop :=
  let items := InputOutputIter ins outs in
  (∃ d ds, desc s !! Z.to_nat head = Some d ∧ contains (d_flags d) INDIRECT = false ∧ Forall2 describes items (d :: ds) ∧
     walkable (desc s) (d :: ds) ∧ Z.of_nat (length items) ≤ QUEUE_SIZE) ∨
  (∃ a l n, desc s !! Z.to_nat head = Some (mkDesc a (16 * Z.of_nat (length l)) INDIRECT n) ∧ boxes s !! a = Some l ∧ Forall2 describes items l).

(** A turn of the device serves the request that is next in the ring. *)
Lemma device_serves (s : world M) head ins outs :
  let i := us_idx (used s) in
  let slot := Z.to_nat (Z.land i (QUEUE_SIZE - 1)) in
  let '(out, x) := handler (gather (memory s).1 ins) (memory s).2 in
  av_idx (avail s) ≠ i → av_ring (avail s) !! slot = Some head → (slot < length (us_ring (used s)))%nat →
  visible s head ins outs → Forall (λ b : buffer, 0 ≤ b.2) outs → Z.of_nat (length out) ≤ capacity outs →
  let e := mkUsedElem head (wrap 32 (Z.of_nat (length (gather (memory s).1 ins) + length out))) in
  fake_read_write_queue s =
  Done (true, mkWorld (vq s) (desc s) (avail s) (mkUsed (us_flags (used s)) (wadd 16 i 1) (<[slot := e]> (us_ring (used s))) (us_avail_event (used s)))
                (boxes s) (scatter (memory s).1 outs out, x)).
Proof.
  intros i slot. destruct (handler (gather (memory s).1 ins) (memory s).2) as [out x] eqn:Eh. intros Hi Hh Hlt Hv Hp Hc e.
  unfold fake_read_write_queue. erewrite bind_step by reflexivity. fold i slot. rewrite (proj2 (Z.eqb_neq _ _) Hi).
  erewrite bind_step by (rewrite Hh; reflexivity).
  assert (handle (gather (memory s).1 ins) s = Done (out, with_memory ((memory s).1, x) s)) as Hhd.
  { unfold handle. erewrite bind_step by reflexivity. by rewrite Eh. }
  set (s2 := with_memory (scatter (memory s).1 outs out, x) s).
  destruct Hv as [(d & ds & Hd & Hni & Hds & Hw & Hsz)|(a & l & n & Hd & Hb & Hds)]; rewrite (bind_step _ _ _ _ _ (desc_at_ok _ _ _ Hd)).
  - rewrite length_iter in Hsz. destruct (read_chain_ok ins outs d ds [] s chain_fuel Hds Hw ltac:(unfold chain_fuel; lia)) as (d' & ds' & E & Hwr & Ho).
    erewrite (bind_step _ _ s (length (gather (memory s).1 ins), out) s2).
    2: { rewrite Hni, (bind_step _ _ _ _ _ E). cbn [app]. rewrite (bind_step _ _ _ _ _ Hhd). rewrite Hwr. case_bool_decide as Hne.
         - destruct (Ho Hne) as [Ho1 Ho2]. erewrite bind_step by (eapply write_chain_ok; [exact Ho1|exact Ho2|unfold chain_fuel; lia|done|done]). done.
         - destruct outs; [|discriminate Hne]. destruct out; [|cbn in Hc; lia]. by erewrite bind_step by reflexivity. }
    erewrite bind_step by reflexivity. cbn [used s2 with_memory]. rewrite (proj2 (Nat.ltb_lt _ _) Hlt). by erewrite bind_step by reflexivity.
  - pose proof (Forall2_length _ _ _ Hds) as Hln. rewrite length_iter in Hln.
    destruct (read_list_ok l ins outs 0 [] s (Datatypes.S (length l)) Hds ltac:(lia) ltac:(lia)) as [E Ho].
    erewrite (bind_step _ _ s (length (gather (memory s).1 ins), out) s2).
    2: { change (contains _ INDIRECT) with true. cbv iota. erewrite bind_step by reflexivity. erewrite bind_step by reflexivity.
         cbn [d_addr d_len]. erewrite bind_step by (rewrite Hb; reflexivity). rewrite Z.mul_comm, Z_mod_mult, Z.eqb_refl. erewrite bind_step by reflexivity.
         rewrite Z.div_mul, Nat2Z.id, Nat.leb_refl by done. erewrite bind_step by reflexivity. rewrite take_ge by done.
         rewrite (bind_step _ _ _ _ _ E). cbn [app Nat.add]. rewrite (bind_step _ _ _ _ _ Hhd).
         erewrite bind_step by (eapply write_list_ok; [exact Ho|lia|lia|done|done]). done. }
    erewrite bind_step by reflexivity. cbn [used s2 with_memory]. rewrite (proj2 (Nat.ltb_lt _ _) Hlt). by erewrite bind_step by reflexivity.
Qed.
End device.

(** ** A request and its response *)

Section transaction.
Context {X : Type}.
Abbreviation M := (pmem * X)%type.
Context (k : Z) (SIZE_OK : 0 ≤ k ≤ 15).
Context (new_box : gmap Z (list Descriptor) → Z → Z).
Hypothesis new_box_fresh : ∀ b n, b !! new_box b n = None.
Hypothesis new_box_fits : ∀ b n, Z.of_nat (size b) < 2 ^ 16 → fits 64 (new_box b n).
Context (handler : list Z → X → list Z * X).
Implicit Types s : world M.

#[local] Instance hal_impl : Hal M := HalImpl M.
Abbreviation SIZE := (2 ^ k).

Lemma share_all_impl items (m : M) : share_all items m = ((λ it : item, it.1.1) <$> items, m).
Proof. induction items as [|[b dir] items IH]; [done|]. cbn. by rewrite IH. Qed.

(** The address of a buffer is a machine word. *)
Definition addr_ok (it : item) : Prop := fits 64 it.1.1.

Lemma describes_item it n : addr_ok it → item_ok it → describes it (item_desc it it.1.1 n).
Proof. intros Ha [_ Hd]. split; [by apply wrap_small|]. split; [done|]. by destruct it as [b []]. Qed.

Lemma describes_last it n : addr_ok it → item_ok it → describes it (mkDesc (wrap 64 it.1.1) it.1.2 (dir_flag it.2) n).
Proof. intros Ha [_ Hd]. split; [by apply wrap_small|]. split; [done|]. by destruct it as [b []]. Qed.

Abbreviation addrs items := ((λ it : item, it.1.1) <$> items).

Lemma closed_describes items : ∀ ids e, items ≠ [] → Forall item_ok items → Forall addr_ok items → length ids = length items →
  Forall2 describes items (close_last (open_chain items (addrs items) ids e)).
Proof.
  induction items as [|it items IH]; intros [|i ids] e Hne Hit Ha Hl; try done. apply Forall_cons in Hit as [Hi Hit]. apply Forall_cons in Ha as [Hai Ha].
  cbn [fmap list_fmap open_chain]. destruct items as [|it2 items].
  - destruct ids; [|done]. cbn [open_chain fmap list_fmap]. rewrite closed_flags_last. constructor; [by apply describes_last|constructor].
  - destruct ids as [|i2 ids]; [done|]. rewrite closed_cons by done. constructor; [by apply describes_item|]. apply IH; [done..|]. simpl in *; lia.
Qed.

Lemma closed_walkable tbl items : ∀ ids e, items ≠ [] → length ids = length items →
  let ds := close_last (open_chain items (addrs items) ids e) in
  Forall2 (λ i d, tbl !! i = Some d) ids ds → walkable tbl ds.
Proof.
  induction items as [|it items IH]; intros [|i ids] e Hne Hl ds Hf; try done. subst ds. cbn [fmap list_fmap open_chain] in *. destruct items as [|it2 items].
  - destruct ids; [|done]. cbn [open_chain fmap list_fmap]. rewrite closed_flags_last. split; [|done]. by destruct it as [b []].
  - destruct ids as [|i2 ids]; [done|]. rewrite closed_cons in Hf |- * by done.
    change (item_desc it2 it2.1.1 (seg_end e ids) :: _) with (open_chain (it2 :: items) (addrs (it2 :: items)) (i2 :: ids) e) in *.
    apply Forall2_cons in Hf as [Hd Hf]. specialize (IH (i2 :: ids) e ltac:(done) ltac:(simpl in *; lia) Hf). cbn [walkable]. split; [|done].
    destruct (close_last _) as [|d2 ds]; [inversion Hf|]. apply Forall2_cons in Hf as [Hd2 _]. exists (Z.of_nat i2). split; [apply item_desc_next|]. by rewrite Nat2Z.id.
Qed.

Lemma open_list_describes items : ∀ n, items ≠ [] → Forall item_ok items → Forall addr_ok items →
  Forall2 describes items (close_last (open_list items (addrs items) n)).
Proof.
  induction items as [|it items IH]; intros n Hne Hit Ha; [done|]. apply Forall_cons in Hit as [Hi Hit]. apply Forall_cons in Ha as [Hai Ha].
  cbn [fmap list_fmap open_list]. destruct items as [|it2 items].
  - cbn [open_list fmap list_fmap]. rewrite closed_flags_last. constructor; [by apply describes_last|constructor].
  - rewrite closed_cons by done. constructor; [by apply describes_item|]. by apply IH.
Qed.

Lemma add_visible s F C ins outs :
  let items := InputOutputIter ins outs in
  vq_inv k s F C → items ≠ [] → Forall item_ok items → Forall addr_ok items → room k (vq s) (Z.of_nat (length items)) → Z.of_nat (size (boxes s)) < 2 ^ 16 →
  ∃ s1 F' c, add SIZE new_box ins outs s = Done (inr (token c), published k (token c) s1) ∧ vq_inv k s1 F' (c :: C) ∧
    same_fields (vq s) (vq s1) ∧ ch_ins c = ins ∧ ch_outs c = outs ∧ visible SIZE s1 (token c) ins outs ∧
    avail s1 = avail s ∧ used s1 = used s ∧ memory s1 = memory s ∧ without_box c (boxes s1) = boxes s.
Proof.
  intros items Hi Hne Hit Ha Hr Hbs. pose proof Hr as (Hr1 & Hr2 & Hr3). pose proof (iter_length_pos ins outs Hne) as Hpos. fold items in Hpos.
  destruct (indirect (vq s) && (1 <? Z.of_nat (length items))) eqn:Eb.
  - destruct (add_indirect_keeps k SIZE_OK new_box new_box_fresh s F C ins outs Hi Hne Hit Hr1 Hr2)
      as (s1 & F' & c & a & pa & E & Hi' & Hs & H1 & H2 & Hbc & Hp & -> & Hsh & Hb & (i & n & Ei & Hd) & Hav & Hus).
    fold items in Hp, Hsh, Hb, Hd. rewrite share_all_impl in Hp, Hsh. cbn in Hp, Hsh. injection Hsh as <- Hm. rewrite Hp in Hb.
    exists s1, F', c. split; [eapply add_run; [done..| |exact Hi']; fold items; by rewrite Eb|]. split_and!; try done.
    2: { unfold without_box. rewrite Hbc, Hb. by apply delete_insert_id. }
    right. exists (new_box (boxes s) (Z.of_nat (length items))), (close_last (open_list items (addrs items) 0)), n.
    rewrite length_close_last, length_open_list by (by rewrite length_fmap). split; [|split; [by rewrite Hb, lookup_insert_eq|by apply open_list_describes]].
    unfold token. rewrite Ei. cbn [seg_end]. rewrite Nat2Z.id, Hd. unfold virt_to_phys. rewrite wrap_small by (by apply new_box_fits). done.
  - destruct (add_direct_keeps k SIZE_OK s F C ins outs Hi Hne Hit) as (s1 & F' & c & E & Hi' & Hs & H1 & H2 & Hb & Hp & (e & Hf) & Hav & Hus & Hbx & Hm & _).
    { fold items. destruct (indirect (vq s)); [|by apply Hr3]. rewrite andb_true_l in Eb. apply Z.ltb_ge in Eb. lia. }
    fold items in Hp, Hf, Hm. rewrite share_all_impl in Hp, Hm. cbn in Hp, Hm. rewrite Hp in Hf.
    exists s1, F', c. split; [eapply add_run; [done..| |exact Hi']; fold items; by rewrite Eb|]. split_and!; try done; [|unfold without_box; by rewrite Hb].
    pose proof (vi_chains _ _ _ _ Hi') as Hc. apply Forall_cons in Hc as [(_ & _ & _ & Hc) _]. rewrite Hb in Hc. destruct Hc as [Hl _].
    unfold ch_items in Hl. rewrite H1, H2 in Hl. fold items in Hl. left.
    destruct (closed_head items (addrs items) (ch_ids c) e Hne Hl ltac:(by rewrite length_fmap)) as (i & ids' & d & ds & Ei & Ed & Hni).
    pose proof (closed_describes items (ch_ids c) e Hne Hit Ha Hl) as Hdes. pose proof (closed_walkable (desc s1) items (ch_ids c) e Hne Hl Hf) as Hw.
    rewrite Ed in *. exists d, ds. split_and!; try done. unfold token. rewrite Ei in *. cbn [seg_end]. rewrite Nat2Z.id. by apply Forall2_cons in Hf as [? _].
Qed.

Definition device_turn : ST (world M) unit := fake_read_write_queue SIZE handler;; mret tt.

(** No request is out, and the device has seen all. *)
Record idle s : Prop := {
  id_inv : ∃ F, vq_inv k s F [];
  id_used : us_idx (used s) = avail_idx (vq s);
  id_last : last_used_idx (vq s) = avail_idx (vq s);
  id_avail : av_idx (avail s) = avail_idx (vq s);
  id_boxes : boxes s = ∅;
}.

Lemma wadd16_ne i : fits 16 i → wadd 16 i 1 ≠ i.
Proof. unfold fits, wadd, wrap. intros Hi. zlia. Qed.

Lemma can_pop_ok s : can_pop s = Done (negb (last_used_idx (vq s) =? us_idx (used s)), s).
Proof. reflexivity. Qed.

(** The driver waits for the device, which may have been quick. *)
Lemma wait_ok s s' (eager : bool) :
  last_used_idx (vq s) = us_idx (used s) → device_turn s = Done (tt, s') → last_used_idx (vq s') ≠ us_idx (used s') →
  ∃ r, ((b ← should_notify; q ← st_gets vq;
     (if b : bool then (if eager then device_turn else mret tt) else mret tt);;
     loop (B := unit) (R := unit) 2 (λ _, b ← can_pop; if b : bool then mret (inr tt) else device_turn;; mret (inl tt)) tt) s) = Done (r, s').
Proof.
  intros H1 E H2. exists tt. assert (∃ b, should_notify s = Done (b, s)) as [b En] by (eexists; reflexivity).
  rewrite (bind_step _ _ _ _ _ En). erewrite bind_step by reflexivity.
  assert (∀ n, loop (B := unit) (R := unit) (Datatypes.S n) (λ _, b ← can_pop; if b : bool then mret (inr tt) else device_turn;; mret (inl tt)) tt s' = Done (tt, s')) as Hs'.
  { intros n. cbn [loop]. erewrite bind_step by (rewrite (bind_step _ _ _ _ _ (can_pop_ok s')), (proj2 (Z.eqb_neq _ _) H2); reflexivity). done. }
  destruct (b && eager) eqn:Eb.
  - apply andb_true_iff in Eb as [-> ->]. rewrite (bind_step _ _ _ _ _ E). apply Hs'.
  - erewrite (bind_step _ _ s tt s) by (by destruct b, eager). cbn [loop].
    erewrite bind_step by (rewrite (bind_step _ _ _ _ _ (can_pop_ok s)), (proj2 (Z.eqb_eq _ _) H1); cbn [negb]; rewrite (bind_step _ _ _ _ _ E); reflexivity).
    apply (Hs' 0%nat).
Qed.

Lemma transaction_ok s ins outs (eager : bool) :
  let items := InputOutputIter ins outs in
  let '(out, x) := handler (gather (memory s).1 ins) (memory s).2 in
  idle s → items ≠ [] → Forall item_ok items → Forall addr_ok items → Z.of_nat (length items) ≤ SIZE → Z.of_nat (length out) ≤ capacity outs →
  ∃ s', add_notify_wait_pop SIZE new_box (λ _, if eager then device_turn else mret tt) device_turn 2 ins outs s =
        Done (inr (wrap 32 (Z.of_nat (length (gather (memory s).1 ins) + length out))), s') ∧
    idle s' ∧ memory s' = (scatter (memory s).1 outs out, x).
Proof.
  intros items. destruct (handler _ _) as [out x] eqn:Eh. intros [[F Hi] Hu Hl Hav Hbx] Hne Hit Ha Hlen Hc.
  pose proof (SIZE_bound k SIZE_OK) as Hsz. pose proof (vi_num _ _ _ _ Hi) as Hnum. cbn in Hnum.
  assert (room k (vq s) (Z.of_nat (length items))) as Hr by (split_and!; lia).
  destruct (add_visible s F [] ins outs Hi Hne Hit Ha Hr ltac:(by rewrite Hbx, map_size_empty)) as (s1 & F' & c & E & Hi' & [Hq1 Hq2 Hq3 Hq4 Hq5] & H1 & H2 & Hv & Hav1 & Hus1 & Hm1 & Hbx1).
  set (t := token c) in *. set (i := avail_idx (vq s)) in *. pose proof (vi_avail_idx _ _ _ _ Hi) as Hf. fold i in Hf.
  pose proof (slot_bound k SIZE_OK i Hf) as Hslot. set (sp := published k t s1) in *. pose proof (published_inv k t s1 F' [c] Hi') as Hip. fold sp in Hip.
  pose proof (device_serves SIZE handler sp t ins outs) as Hd. cbv zeta in Hd. cbn [sp published used avail memory av_idx av_ring] in Hd.
  rewrite Hm1, Hus1, Hu, Eh in Hd. rewrite Hq2 in Hd. fold i in Hd.
  pose proof (vi_avail _ _ _ _ Hi') as Hla. pose proof (vi_used _ _ _ _ Hi) as Hlu.
  specialize (Hd (wadd16_ne i Hf) ltac:(apply list_lookup_insert_eq; unfold slot; lia) ltac:(lia) Hv).
  assert (Forall (λ b : buffer, 0 ≤ b.2) outs) as Hout.
  { unfold items, InputOutputIter in Hit. apply Forall_app in Hit as [_ Hit]. rewrite Forall_fmap in Hit. eapply Forall_impl; [exact Hit|]. intros b [Hb _]. cbn in Hb. lia. }
  specialize (Hd Hout Hc). set (sd := mkWorld _ _ _ _ _ _) in Hd.
  assert (device_turn sp = Done (tt, sd)) as Et by (unfold device_turn; by rewrite (bind_step _ _ _ _ _ Hd)).
  assert (vq_inv k sd F' [c]) as Hid.
  { apply (device_keeps k sp); [|done]. split; try done; cbn; rewrite !length_insert; by rewrite ?Hus1. }
  pose proof (pop_keeps k SIZE_OK sd F' [] [] c Hid) as Hp. fold t in Hp.
  assert (next_element k sd = Some (mkUsedElem t (wrap 32 (Z.of_nat (length (gather (memory s).1 ins) + length out))))) as Hne'.
  { unfold next_element. cbn [sd sp published vq used us_idx us_ring last_used_idx set_avail_idx]. rewrite Hq3, Hl. fold i.
    rewrite (proj2 (Z.eqb_neq _ _)) by (intros Hx; by apply (wadd16_ne i Hf)). apply list_lookup_insert_eq. unfold slot. lia. }
  rewrite Hne' in Hp. cbn [ue_id ue_len] in Hp.
  assert (fits 16 t) as Ht.
  { unfold t, token. assert (ch_ids c ≠ []).
    { pose proof (vi_chains _ _ _ _ Hi') as Hc'. apply Forall_cons in Hc' as [(Hn & _ & _ & Hb) _]. destruct (ch_box c) as [[? ?]|]; [by destruct Hb as (? & ? & ? & ? & -> & _)|].
      destruct Hb as [Hb _]. by destruct (ch_ids c), (ch_items c). }
    destruct (ch_ids c) as [|j ids] eqn:Ej; [done|]. cbn. pose proof (vi_bound _ _ _ _ j Hi') as Hj. rewrite <- (Nat2Z.id (length _)), (vi_shadow _ _ _ _ Hi') in Hj.
    unfold fits. enough (j < Z.to_nat SIZE)%nat by lia. apply Hj. apply elem_of_app. right. apply (ids_of_elem _ c); [by left|rewrite Ej; by left]. }
  rewrite decide_True in Hp by (by apply wrap_small). destruct Hp as (s' & Ep & Hi'' & [P0 P1 P2 P3 P4 P5 P6 P7 P8]). rewrite H1, H2 in Ep.
  destruct (wait_ok sp sd eager) as [r Ew]; [cbn; rewrite Hus1, Hu, Hq3, Hl; done|exact Et| |].
  { cbn. rewrite Hq3, Hl. fold i. intros Hx. by apply (wadd16_ne i Hf). }
  exists s'. split_and!.
  - unfold add_notify_wait_pop. rewrite (bind_step _ _ _ _ _ E). fold t sp.
    apply bind_Done in Ew as (b & sb & Eb & Ew). rewrite (bind_step _ _ _ _ _ Eb). apply bind_Done in Ew as (q & sq & Eq & Ew). rewrite (bind_step _ _ _ _ _ Eq).
    apply bind_Done in Ew as (u & su & Eu & Ew). rewrite (bind_step _ _ _ _ _ Eu), (bind_step _ _ _ _ _ Ew). exact Ep.
  - split; [by eexists|..]; rewrite ?P2, ?P3, ?P6, ?P7, ?P0; cbn [sd sp published vq used avail us_idx av_idx avail_idx last_used_idx set_avail_idx]; rewrite ?Hq2, ?Hq3, ?Hl; try done. change (boxes sd) with (boxes s1). by rewrite Hbx1.
  - rewrite P8 by done. done.
Qed.
End transaction.
