(* ===== verification/VirtBlk.v ===== *)
(** * The VirtIO block driver

    dependencies/virtio-drivers/src/device/blk.rs on the virtqueue of VirtQueue.v:
    a request is a header, the data and a byte for the status, each in a buffer
    of its own. With a device that serves blocks behind the queue, the driver is
    a disk: an array of blocks. *)

From S2P Require Import Prelude PhysMem BlockCache VirtQueue VirtRefine VirtDevice.

(** ** Requests *)

Definition SECTOR_SIZE : Z := 512.
Definition QUEUE_SIZE : Z := 16.
Definition QUEUE : Z := 0.

Inductive ReqType : Set := In | Out | Flush | GetId | GetLifetime | Discard | WriteZeroes | SecureErase.
Definition req_code (t : ReqType) : Z :=
  match t with In => 0 | Out => 1 | Flush => 4 | GetId => 8 | GetLifetime => 10 | Discard => 11 | WriteZeroes => 13 | SecureErase => 14 end.

Record BlkReq := mkBlkReq { type_ : ReqType; reserved : Z; sector : Z }.
Definition BlkReq_default : BlkReq := mkBlkReq In 0 0.

(** [as_bytes]: the layout of [repr(C)]. *)
Definition req_bytes (r : BlkReq) : list Z := le_bytes 4 (req_code (type_ r)) ++ le_bytes 4 (reserved r) ++ le_bytes 8 (sector r).

Definition STATUS_OK : Z := 0.
Definition IO_ERR : Z := 1.
Definition UNSUPPORTED : Z := 2.
Definition NOT_READY : Z := 3.

(** [From<RespStatus> for Result]. *)
Definition status_result (status : Z) : result unit :=
  if status =? STATUS_OK then inr tt else
  if status =? IO_ERR then inl IoError else
  if status =? UNSUPPORTED then inl Unsupported else
  if status =? NOT_READY then inl NotReady else inl IoError.

(** [BlkFeature] *)
Definition RO : Z := 2 ^ 5.
Definition FLUSH : Z := 2 ^ 9.
Definition RING_INDIRECT_DESC : Z := 2 ^ 28.
Definition RING_EVENT_IDX : Z := 2 ^ 29.
Definition SUPPORTED_FEATURES : Z := Z.lor (Z.lor (Z.lor RO FLUSH) RING_INDIRECT_DESC) RING_EVENT_IDX.

(** What the driver keeps beside its queue. *)
Record VirtIOBlk := mkBlk { blk_capacity : Z; negotiated_features : Z }.

Definition readonly (b : VirtIOBlk) : bool := contains (negotiated_features b) RO.

Section ops.
Context {X : Type}.
Abbreviation M := (pmem * X)%type.
Context `{Hal M}.
Abbreviation S := (ST (world M)).
Variable new_box : gmap Z (list Descriptor) → Z → Z.
(** The transport and the device, and the turns of waiting. *)
Variable notify : Z → S unit.
Variable spin_loop : S unit.
Variable fuel : nat.
(** Where the compiler puts the request and the response of a call. *)
Variable req_at resp_at : Z.

Abbreviation wait_pop := (add_notify_wait_pop QUEUE_SIZE new_box notify spin_loop fuel).

Definition store_req (r : BlkReq) : S unit := write_at req_at (req_bytes r).
(** [BlkResp::default()] *)
Definition store_default_resp : S unit := write_at resp_at [NOT_READY].
Definition resp_status : S (result unit) :=
  bs ← read_at resp_at 1;
  mret (status_result (default 0 (head bs))).

Definition then_status (r : result Z) : S (result unit) := match r with inl e => mret (inl e) | inr _ => resp_status end.

Definition request (r : BlkReq) : S (result unit) :=
  store_req r;; store_default_resp;;
  res ← wait_pop [(req_at, 16)] [(resp_at, 1)];
  then_status res.

Definition request_read (r : BlkReq) (data : buffer) : S (result unit) :=
  store_req r;; store_default_resp;;
  res ← wait_pop [(req_at, 16)] [data; (resp_at, 1)];
  then_status res.

Definition request_write (r : BlkReq) (data : buffer) : S (result unit) :=
  store_req r;; store_default_resp;;
  res ← wait_pop [(req_at, 16); data] [(resp_at, 1)];
  then_status res.

Definition flush (b : VirtIOBlk) : S (result unit) :=
  if contains (negotiated_features b) FLUSH then request (mkBlkReq Flush 0 0) else mret (inr tt).

Definition device_id (id : Z) : S (result Z) :=
  r ← request_read (mkBlkReq GetId 0 0) (id, 20);
  match r with
  | inl e => mret (inl e)
  | inr _ =>
      bs ← read_at id 20;
      mret (inr (match list_find (λ x, x = 0) bs with Some (i, _) => Z.of_nat i | None => 20 end))
  end.

Definition read_blocks (block_id : Z) (buf : buffer) : S (result unit) :=
  rassert (negb (buf.2 =? 0));;
  rassert (buf.2 mod SECTOR_SIZE =? 0);;
  request_read (mkBlkReq In 0 block_id) buf.

Definition write_blocks (block_id : Z) (buf : buffer) : S (result unit) :=
  rassert (negb (buf.2 =? 0));;
  rassert (buf.2 mod SECTOR_SIZE =? 0);;
  request_write (mkBlkReq Out 0 block_id) buf.

(** The calls that do not wait: the caller has the request and the response. *)
Definition submit (inputs outputs : list buffer) : S (result Z) :=
  r ← add QUEUE_SIZE new_box inputs outputs;
  match r with
  | inl e => mret (inl e)
  | inr token =>
      b ← should_notify;
      (if b : bool then notify QUEUE else mret tt);;
      mret (inr token)
  end.

Definition read_blocks_nb (block_id : Z) (buf : buffer) : S (result Z) :=
  rassert (negb (buf.2 =? 0));;
  rassert (buf.2 mod SECTOR_SIZE =? 0);;
  store_req (mkBlkReq In 0 block_id);;
  submit [(req_at, 16)] [buf; (resp_at, 1)].

Definition write_blocks_nb (block_id : Z) (buf : buffer) : S (result Z) :=
  rassert (negb (buf.2 =? 0));;
  rassert (buf.2 mod SECTOR_SIZE =? 0);;
  store_req (mkBlkReq Out 0 block_id);;
  submit [(req_at, 16); buf] [(resp_at, 1)].

Definition complete_read_blocks (token : Z) (buf : buffer) : S (result unit) :=
  res ← pop_used QUEUE_SIZE token [(req_at, 16)] [buf; (resp_at, 1)];
  then_status res.

Definition complete_write_blocks (token : Z) (buf : buffer) : S (result unit) :=
  res ← pop_used QUEUE_SIZE token [(req_at, 16); buf] [(resp_at, 1)];
  then_status res.

End ops.

(** ** Memory *)

Definition apart (a n b m : Z) : Prop := a + n ≤ b ∨ b + m ≤ a.

Lemma rd_bytes_other m a bs b n : 0 ≤ a → 0 ≤ b → Forall is_byte bs → apart a (Z.of_nat (length bs)) b n → rd_bytes (wr_bytes m a bs) b n = rd_bytes m b n.
Proof.
  intros Ha Hb Hbs Hap. apply list_fmap_ext. intros i x Hx. apply list_elem_of_lookup_2, elem_of_zrange in Hx.
  rewrite rd_pa_wr_bytes by (done || lia). destruct Hap; rewrite decide_False by lia; done.
Qed.

Lemma length_req_bytes r : length (req_bytes r) = 16%nat.
Proof. unfold req_bytes. rewrite !length_app, !length_le_bytes. done. Qed.

Lemma req_bytes_is_byte r : Forall is_byte (req_bytes r).
Proof. unfold req_bytes. rewrite !Forall_app. split_and!; apply le_bytes_is_byte. Qed.

(** ** The driver with a device *)

Section driver.
Context {X : Type}.
Abbreviation M := (pmem * X)%type.
Context (new_box : gmap Z (list Descriptor) → Z → Z).
Hypothesis new_box_fresh : ∀ b n, b !! new_box b n = None.
Hypothesis new_box_fits : ∀ b n, Z.of_nat (size b) < 2 ^ 16 → fits 64 (new_box b n).
Context (handler : list Z → X → list Z * X).
Context (eager : bool) (req_at resp_at : Z).
Implicit Types s : world M.

#[local] Instance blk_hal : Hal M := HalImpl M.
Abbreviation turn := (device_turn 4 handler).
Abbreviation notify := (λ _ : Z, if eager then turn else mret tt).
Abbreviation run_read := (read_blocks new_box notify turn 2 req_at resp_at).
Abbreviation run_write := (write_blocks new_box notify turn 2 req_at resp_at).
Abbreviation mem s := ((memory s).1).
Abbreviation dev s := ((memory s).2).

(** The request, the response and the data of a call do not overlap. *)
Record frame_ok (buf : buffer) : Prop := {
  fo_req : 0 ≤ req_at ∧ req_at + 16 ≤ 2 ^ 64;
  fo_resp : 0 ≤ resp_at ∧ resp_at + 1 ≤ 2 ^ 64;
  fo_buf : 0 ≤ buf.1 ∧ buf.1 + buf.2 ≤ 2 ^ 64;
  fo_len : 0 < buf.2 < 2 ^ 32;
  fo_req_resp : apart req_at 16 resp_at 1;
  fo_req_buf : apart req_at 16 buf.1 buf.2;
  fo_resp_buf : apart resp_at 1 buf.1 buf.2;
}.

(** The memory when the request is ready. *)
Definition prepared (r : BlkReq) s : world M :=
  with_memory (wr_bytes (wr_bytes (mem s) req_at (req_bytes r)) resp_at [NOT_READY], dev s) s.

Lemma prepared_idle r s : idle 4 s → idle 4 (prepared r s).
Proof. intros [[F [] ] ]. split; [|done..]. exists F. by split. Qed.

Lemma prepared_req r s buf : frame_ok buf → rd_bytes (mem (prepared r s)) req_at 16 = req_bytes r.
Proof.
  intros []. cbn [prepared with_memory memory fst]. rewrite rd_bytes_other; [|lia|lia|by repeat constructor|].
  - change 16 with (Z.of_nat 16). rewrite <- (length_req_bytes r). apply rd_bytes_same; [lia|apply req_bytes_is_byte].
  - cbn. unfold apart in *. lia.
Qed.

Lemma prepared_other r s buf a n : frame_ok buf → 0 ≤ a → apart req_at 16 a n → apart resp_at 1 a n → rd_bytes (mem (prepared r s)) a n = rd_bytes (mem s) a n.
Proof.
  intros [] Ha H1 H2. cbn [prepared with_memory memory fst]. rewrite rd_bytes_other; [|lia|done|by repeat constructor|done].
  apply rd_bytes_other; [lia|done|apply req_bytes_is_byte|by rewrite length_req_bytes].
Qed.

Lemma gather_one (m : pmem) a n : gather m [(a, n)] = rd_bytes m a n.
Proof. unfold gather. cbn. apply app_nil_r. Qed.

Lemma gather_two (m : pmem) a n b : gather m [(a, n); b] = rd_bytes m a n ++ rd_bytes m b.1 b.2.
Proof. unfold gather. cbn. by rewrite app_nil_r. Qed.

(** What every call does once its request is ready. *)
Lemma call_ok s r ins outs out x :
  idle 4 s → handler (gather (mem (prepared r s)) ins) (dev s) = (out, x) →
  ins ≠ [] → Forall (λ b : buffer, 0 < b.2 < 2 ^ 32 ∧ fits 64 b.1) (ins ++ outs) → Z.of_nat (length (ins ++ outs)) ≤ 16 →
  Z.of_nat (length out) ≤ capacity outs →
  ∃ s', (store_req req_at r;; store_default_resp resp_at;; res ← add_notify_wait_pop QUEUE_SIZE new_box notify turn 2 ins outs; then_status resp_at res) s =
        Done (status_result (default 0 (head (rd_bytes (mem s') resp_at 1))), s') ∧
    idle 4 s' ∧ memory s' = (scatter (mem (prepared r s)) outs out, x).
Proof.
  intros Hi Hh Hne Hb Hl Hc. pose proof (transaction_ok 4 ltac:(lia) new_box new_box_fresh new_box_fits handler (prepared r s) ins outs eager) as Ht.
  cbv zeta in Ht. change (memory (prepared r s)).2 with (dev s) in Ht. rewrite Hh in Ht.
  apply Forall_app in Hb as [Hbi Hbo]. destruct Ht as (s' & E & Hi' & Hm).
  - by apply prepared_idle.
  - destruct ins; [done|]. discriminate.
  - apply iter_ok; (eapply Forall_impl; [eassumption|]; by intros b [? _]).
  - apply Forall_app. split; apply Forall_fmap; (eapply Forall_impl; [eassumption|]; by intros b [_ ?]).
  - rewrite length_iter, <- length_app. change (2 ^ 4) with 16. lia.
  - done.
  - exists s'. split_and!; [|done..]. unfold store_req, store_default_resp, write_at. erewrite bind_step by reflexivity. erewrite bind_step by reflexivity.
    change (with_memory _ (with_memory _ s)) with (prepared r s). rewrite (bind_step _ _ _ _ _ E). cbn [then_status]. unfold resp_status, read_at.
    by erewrite bind_step by reflexivity.
Qed.

(** ** A device with blocks *)

(** What VirtIO asks of the handler of a block device of [cap] sectors whose
    contents are [block]: a read of a sector returns it, a write stores it, and
    sectors outside of the device are refused. *)
Record serves_blocks (block : X → Z → list Z) (cap : Z) : Prop := {
  sv_cap : 0 ≤ cap < 2 ^ 64;
  sv_block x b : length (block x b) = 512%nat ∧ Forall is_byte (block x b);
  sv_in x b : 0 ≤ b < cap → handler (req_bytes (mkBlkReq In 0 b)) x = (block x b ++ [STATUS_OK], x);
  sv_in_bad x b : cap ≤ b < 2 ^ 64 → ∃ junk, length junk = 512%nat ∧ Forall is_byte junk ∧ handler (req_bytes (mkBlkReq In 0 b)) x = (junk ++ [IO_ERR], x);
  sv_out x b data :
    0 ≤ b < cap → length data = 512%nat → Forall is_byte data →
    ∃ x', handler (req_bytes (mkBlkReq Out 0 b) ++ data) x = ([STATUS_OK], x') ∧ ∀ b', block x' b' = if decide (b' = b) then data else block x b';
  sv_out_bad x b data : cap ≤ b < 2 ^ 64 → length data = 512%nat → handler (req_bytes (mkBlkReq Out 0 b) ++ data) x = ([IO_ERR], x);
}.

Context (block : X → Z → list Z) (cap : Z) (Hserves : serves_blocks block cap).

(** Memory outside of the buffers of a call. *)
Definition elsewhere (buf : buffer) s s' : Prop :=
  ∀ a n, 0 ≤ a → apart req_at 16 a n → apart resp_at 1 a n → apart buf.1 buf.2 a n → rd_bytes (mem s') a n = rd_bytes (mem s) a n.

(** Data and status arrive in their buffers. *)
Lemma response_ok m buf data st :
  frame_ok buf → buf.2 = Z.of_nat (length data) → Forall is_byte data → is_byte st →
  let m' := scatter m [buf; (resp_at, 1)] (data ++ [st]) in
  rd_bytes m' buf.1 buf.2 = data ∧ rd_bytes m' resp_at 1 = [st] ∧
  ∀ a n, 0 ≤ a → apart resp_at 1 a n → apart buf.1 buf.2 a n → rd_bytes m' a n = rd_bytes m a n.
Proof.
  intros [] Hl Hd Hst m'. assert (m' = wr_bytes (wr_bytes m buf.1 data) resp_at [st]) as ->.
  { subst m'. cbn [scatter fst snd]. rewrite Hl, Nat2Z.id, take_app_length, drop_app_length. done. }
  assert (Forall is_byte [st]) by (by constructor). split_and!.
  - rewrite rd_bytes_other by (done || lia || unfold apart in *; cbn; lia). rewrite Hl. apply rd_bytes_same; [lia|done].
  - apply (rd_bytes_same _ resp_at [st]); [lia|done].
  - intros a n Ha Hr Hb. rewrite rd_bytes_other; [|lia|done..]. apply rd_bytes_other; [lia|done|done|]. by rewrite <- Hl.
Qed.

Lemma read_blocks_ok s b buf :
  idle 4 s → frame_ok buf → buf.2 = 512 → fits 64 b →
  ∃ s', run_read b buf s = Done (if b <? cap then inr tt else inl IoError, s') ∧ idle 4 s' ∧ dev s' = dev s ∧
    (b < cap → rd_bytes (mem s') buf.1 buf.2 = block (dev s) b) ∧ elsewhere buf s s'.
Proof.
  intros Hi Hfr Hlen Hb. pose proof Hserves as [Hcap Hblk Hin Hbad _ _]. set (r := mkBlkReq In 0 b).
  assert (∃ data st, handler (req_bytes r) (dev s) = (data ++ [st], dev s) ∧ length data = 512%nat ∧ Forall is_byte data ∧ is_byte st ∧
    status_result st = (if b <? cap then inr tt else inl IoError) ∧ (b < cap → data = block (dev s) b)) as (data & st & Eh & Hl & Hd & Hst & Hres & Hdata).
  { destruct (Z.ltb_spec b cap) as [Hlt|Hge].
    - exists (block (dev s) b), STATUS_OK. destruct (Hblk (dev s) b). unfold r. rewrite Hin by (unfold fits in Hb; lia). done.
    - destruct (Hbad (dev s) b ltac:(unfold fits in Hb; lia)) as (junk & ? & ? & E). exists junk, IO_ERR. split; [exact E|]. split_and!; [assumption|assumption|done|done|lia]. }
  assert (gather (mem (prepared r s)) [(req_at, 16)] = req_bytes r) as Hg.
  { rewrite gather_one. exact (prepared_req r s buf Hfr). }
  destruct (call_ok s r [(req_at, 16)] [buf; (resp_at, 1)] (data ++ [st]) (dev s) Hi) as (s' & E & Hi' & Hm).
  - by rewrite Hg.
  - done.
  - pose proof Hfr as []. apply Forall_cons; split; [unfold fits; simpl; lia|]. apply Forall_cons; split; [unfold fits; lia|].
    apply Forall_cons; split; [unfold fits; simpl; lia|apply Forall_nil_2].
  - cbn. lia.
  - rewrite length_app, Hl. unfold capacity. cbn. lia.
  - destruct (response_ok (mem (prepared r s)) buf data st Hfr ltac:(lia) Hd Hst) as (R1 & R2 & R3). exists s'. rewrite Hm. cbn [fst snd].
    split; [|split_and!; [done|done|by intros ?; rewrite R1, Hdata|]].
    + unfold read_blocks. rewrite Hlen. erewrite bind_step by reflexivity. erewrite bind_step by reflexivity. unfold request_read. fold r.
      rewrite E, Hm. cbn [fst]. rewrite R2. cbn. by rewrite Hres.
    + intros a n Ha H1 H2 H3. rewrite Hm. cbn [fst]. rewrite R3 by done. by apply (prepared_other r s buf).
Qed.

Lemma write_blocks_ok s b buf :
  idle 4 s → frame_ok buf → buf.2 = 512 → fits 64 b →
  ∃ s', run_write b buf s = Done (if b <? cap then inr tt else inl IoError, s') ∧ idle 4 s' ∧
    (∀ b', block (dev s') b' = if decide (b < cap ∧ b' = b) then rd_bytes (mem s) buf.1 buf.2 else block (dev s) b') ∧
    rd_bytes (mem s') buf.1 buf.2 = rd_bytes (mem s) buf.1 buf.2 ∧ elsewhere buf s s'.
Proof.
  intros Hi Hfr Hlen Hb. pose proof Hserves as [Hcap Hblk _ _ Hout Hbad]. set (r := mkBlkReq Out 0 b). pose proof Hfr as [].
  set (data := rd_bytes (mem s) buf.1 buf.2). assert (length data = 512%nat) as Hl by (unfold data; rewrite length_rd_bytes; lia).
  assert (Forall is_byte data) as Hd by apply rd_bytes_is_byte.
  assert (∃ st x, handler (req_bytes r ++ data) (dev s) = ([st], x) ∧ is_byte st ∧ status_result st = (if b <? cap then inr tt else inl IoError) ∧
    (∀ b', block x b' = if decide (b < cap ∧ b' = b) then data else block (dev s) b')) as (st & x & Eh & Hst & Hres & Hx).
  { destruct (Z.ltb_spec b cap) as [Hlt|Hge].
    - destruct (Hout (dev s) b data ltac:(unfold fits in Hb; lia) Hl Hd) as (x & E & Hx). exists STATUS_OK, x. split; [exact E|]. split; [done|]. split; [done|]. intros b'.
      rewrite Hx. repeat case_decide; naive_solver.
    - exists IO_ERR, (dev s). unfold r. rewrite Hbad by (done || unfold fits in Hb; lia). split; [done|]. split; [done|]. split; [done|]. intros b'. rewrite decide_False by lia. done. }
  assert (gather (mem (prepared r s)) [(req_at, 16); buf] = req_bytes r ++ data) as Hg.
  { rewrite gather_two. f_equal; [exact (prepared_req r s buf Hfr)|]. apply (prepared_other r s buf); [assumption|lia|assumption|assumption]. }
  destruct (call_ok s r [(req_at, 16); buf] [(resp_at, 1)] [st] x Hi) as (s' & E & Hi' & Hm).
  - by rewrite Hg.
  - done.
  - apply Forall_cons; split; [unfold fits; simpl; lia|]. apply Forall_cons; split; [unfold fits; lia|].
    apply Forall_cons; split; [unfold fits; simpl; lia|apply Forall_nil_2].
  - cbn. lia.
  - cbn. lia.
  - assert (Forall is_byte [st]) as Hst' by (by constructor).
    assert (∀ a n, 0 ≤ a → apart resp_at 1 a n → rd_bytes (wr_bytes (mem (prepared r s)) resp_at [st]) a n = rd_bytes (mem (prepared r s)) a n) as Hoth.
    { intros a n Ha Hap. apply rd_bytes_other; [lia|done..]. }
    exists s'. rewrite Hm. cbn [fst snd scatter]. change (take (Z.to_nat 1) [st]) with [st]. split_and!.
    + unfold write_blocks. rewrite Hlen. erewrite bind_step by reflexivity. erewrite bind_step by reflexivity. unfold request_write. fold r.
      rewrite E, Hm. cbn [fst snd scatter]. change (take (Z.to_nat 1) [st]) with [st]. change 1 with (Z.of_nat (length [st])) at 1.
      rewrite rd_bytes_same by (done || lia). cbn. by rewrite Hres.
    + done.
    + done.
    + rewrite Hoth by (done || lia). apply (prepared_other r s buf); [done|lia|done|done].
    + intros a n Ha H1 H2 H3. rewrite Hm. cbn [fst snd scatter]. change (take (Z.to_nat 1) [st]) with [st]. rewrite Hoth by done. by apply (prepared_other r s buf).
Qed.

(** ** The driver is a disk *)

Inductive blk_op : Type := BRead (b : Z) | BWrite (b : Z) (data : list Z).

Definition op_ok (o : blk_op) : Prop :=
  match o with BRead b => fits 64 b | BWrite b data => fits 64 b ∧ length data = 512%nat ∧ Forall is_byte data end.

(** A client with one buffer of a sector. *)
Context (buf_at : Z) (Hframe : frame_ok (buf_at, 512)).

Definition exec (o : blk_op) : ST (world M) (result (list Z)) :=
  match o with
  | BRead b =>
      r ← run_read b (buf_at, 512);
      match r with inl e => mret (inl e) | inr _ => bs ← read_at buf_at 512; mret (inr bs) end
  | BWrite b data =>
      write_at buf_at data;;
      r ← run_write b (buf_at, 512);
      match r with inl e => mret (inl e) | inr _ => mret (inr []) end
  end.

Fixpoint exec_all (os : list blk_op) : ST (world M) (list (result (list Z))) :=
  match os with [] => mret [] | o :: os => r ← exec o; rs ← exec_all os; mret (r :: rs) end.

(** The disk as an array of blocks. *)
Definition disk_exec (o : blk_op) (V : Z → list Z) : result (list Z) * (Z → list Z) :=
  match o with
  | BRead b => (if b <? cap then inr (V b) else inl IoError, V)
  | BWrite b data => if b <? cap then (inr [], λ b', if decide (b' = b) then data else V b') else (inl IoError, V)
  end.

Fixpoint disk_exec_all (os : list blk_op) (V : Z → list Z) : list (result (list Z)) * (Z → list Z) :=
  match os with
  | [] => ([], V)
  | o :: os => let '(r, V) := disk_exec o V in let '(rs, V) := disk_exec_all os V in (r :: rs, V)
  end.

Lemma exec_ok s o V :
  idle 4 s → op_ok o → (∀ b, block (dev s) b = V b) →
  ∃ s', exec o s = Done ((disk_exec o V).1, s') ∧ idle 4 s' ∧ ∀ b, block (dev s') b = (disk_exec o V).2 b.
Proof.
  intros Hi Ho HV. destruct o as [b|b data]; cbn [exec disk_exec].
  - destruct (read_blocks_ok s b (buf_at, 512) Hi Hframe eq_refl Ho) as (s' & E & Hi' & Hd & Hr & _). exists s'. cbn [fst snd] in *.
    rewrite (bind_step _ _ _ _ _ E). destruct (Z.ltb_spec b cap) as [Hlt|Hge].
    + unfold read_at. erewrite bind_step by reflexivity. rewrite Hr, HV by done. split; [done|]. split; [done|]. by rewrite Hd.
    + split; [done|]. split; [done|]. by rewrite Hd.
  - destruct Ho as (Hb & Hl & Hdata). unfold write_at. erewrite bind_step by reflexivity. set (s1 := with_memory _ s).
    assert (idle 4 s1) as Hi1 by (destruct Hi as [[F []] ?]; split; [exists F; by split|done..]).
    assert (rd_bytes (mem s1) buf_at 512 = data) as Hs1.
    { change 512 with (Z.of_nat 512). rewrite <- Hl. apply rd_bytes_same; [|done]. pose proof (fo_buf _ Hframe). cbn in *. lia. }
    destruct (write_blocks_ok s1 b (buf_at, 512) Hi1 Hframe eq_refl Hb) as (s' & E & Hi' & Hx & _). exists s'. cbn [fst snd] in *. rewrite Hs1 in Hx.
    rewrite (bind_step _ _ _ _ _ E). destruct (Z.ltb_spec b cap) as [Hlt|Hge].
    + split; [done|]. split; [done|]. intros b'. rewrite Hx. cbn. rewrite <- HV. repeat case_decide; naive_solver.
    + split; [done|]. split; [done|]. intros b'. rewrite Hx, decide_False by lia. apply HV.
Qed.

(** C13. The block driver with a block device behind its queue is a disk. For any
    sequence of reads and writes of sectors, with or without indirect
    descriptors and with a device that answers at once or while the driver
    waits, every call returns, reads return what was last written to the sector,
    sectors beyond the capacity give an error and change nothing, and the
    contents of the device are those of the array of blocks. *)
Theorem blk_driver_is_disk os s V :
  idle 4 s → Forall op_ok os → (∀ b, block (dev s) b = V b) →
  ∃ s', exec_all os s = Done ((disk_exec_all os V).1, s') ∧ idle 4 s' ∧ ∀ b, block (dev s') b = (disk_exec_all os V).2 b.
Proof.
  revert s V. induction os as [|o os IH]; intros s V Hi Hok HV; [by exists s|]. apply Forall_cons in Hok as [Ho Hok]. cbn [exec_all disk_exec_all].
  destruct (exec_ok s o V Hi Ho HV) as (s1 & E1 & Hi1 & HV1). destruct (disk_exec o V) as [r V1]. cbn [fst snd] in *.
  destruct (IH s1 V1 Hi1 Hok HV1) as (s2 & E2 & Hi2 & HV2). destruct (disk_exec_all os V1) as [rs V2]. cbn [fst snd] in *.
  exists s2. by rewrite (bind_step _ _ _ _ _ E1), (bind_step _ _ _ _ _ E2).
Qed.
End driver.

(** ** Such a device, for every medium that is a block device of BlockCache.v *)

Section medium.
Context {D : Type} `{BlockDeviceLaws D} (cap : Z).

Definition disk_handler (input : list Z) (d : D) : list Z * D :=
  let b := le_val (slice 8 8 input) in
  if le_val (take 4 input) =? req_code In then
    (if b <? cap then (read_block b d ++ [STATUS_OK], d) else (replicate 512 0 ++ [IO_ERR], d))
  else if le_val (take 4 input) =? req_code Out then
    (if b <? cap then ([STATUS_OK], write_block b (drop 16 input) d) else ([IO_ERR], d))
  else ([UNSUPPORTED], d).

Lemma req_bytes_parse t b rest : fits 64 b →
  let l := req_bytes (mkBlkReq t 0 b) ++ rest in
  le_val (take 4 l) = req_code t ∧ le_val (slice 8 8 l) = b ∧ drop 16 l = rest.
Proof.
  intros Hb l. unfold l, req_bytes. cbn [type_ reserved sector]. rewrite <- !app_assoc. split_and!.
  - rewrite take_app_le, take_ge by (rewrite length_le_bytes; lia). rewrite le_val_le_bytes. by destruct t.
  - unfold slice. rewrite app_assoc, drop_app_ge by (rewrite !length_app, !length_le_bytes; lia).
    rewrite length_app, !length_le_bytes. change (8 - (4 + 4))%nat with 0%nat. rewrite drop_0, take_app_le, take_ge by (rewrite length_le_bytes; lia).
    rewrite le_val_le_bytes. apply Z.mod_small. exact Hb.
  - rewrite !app_assoc, drop_app_length'; [done|]. by rewrite !length_app, !length_le_bytes.
Qed.

Lemma disk_handler_serves : 0 ≤ cap < 2 ^ 64 → serves_blocks disk_handler (λ d b, read_block b d) cap.
Proof.
  intros Hcap. split; [done|..].
  - intros d b. apply read_block_wf.
  - intros d b Hb. destruct (req_bytes_parse In b [] ltac:(unfold fits; lia)) as (H1 & H2 & _). rewrite app_nil_r in H1, H2.
    unfold disk_handler. rewrite H1, H2, Z.eqb_refl, (proj2 (Z.ltb_lt _ _)) by lia. done.
  - intros d b Hb. exists (replicate 512 0). split; [done|]. split; [by apply Forall_replicate|].
    destruct (req_bytes_parse In b [] ltac:(unfold fits; lia)) as (H1 & H2 & _). rewrite app_nil_r in H1, H2.
    unfold disk_handler. rewrite H1, H2, Z.eqb_refl, (proj2 (Z.ltb_ge _ _)) by lia. done.
  - intros d b data Hb Hl Hd. exists (write_block b data d). destruct (req_bytes_parse Out b data ltac:(unfold fits; lia)) as (H1 & H2 & H3).
    unfold disk_handler. rewrite H1, H2, H3. change (req_code Out =? req_code In) with false. rewrite Z.eqb_refl, (proj2 (Z.ltb_lt _ _)) by lia.
    split; [done|]. intros b'. by apply read_write_block.
  - intros d b data Hb Hl. destruct (req_bytes_parse Out b data ltac:(unfold fits; lia)) as (H1 & H2 & H3).
    unfold disk_handler. rewrite H1, H2. change (req_code Out =? req_code In) with false. rewrite Z.eqb_refl, (proj2 (Z.ltb_ge _ _)) by lia. done.
Qed.

End medium.

(** ** Witness: a queue with indirect descriptors, and a medium of 64 blocks *)

(** The first free address from 0x9000 on. *)
Definition wit_heap (b : gmap Z (list Descriptor)) (_ : Z) : Z :=
  match list_find (λ a, b !! a = None) (zrange 0x9000 (0x9000 + Z.of_nat (size b) + 1)) with Some (_, a) => a | None => 0 end.

Lemma wit_heap_spec b n : b !! wit_heap b n = None ∧ 0x9000 ≤ wit_heap b n ≤ 0x9000 + Z.of_nat (size b).
Proof.
  unfold wit_heap. destruct (list_find _ _) as [[i a]|] eqn:E.
  - apply list_find_Some in E as (Ha & Hn & _). split; [done|]. apply list_elem_of_lookup_2, elem_of_zrange in Ha. lia.
  - exfalso. apply list_find_None in E. rewrite Forall_forall in E.
    assert (zrange 0x9000 (0x9000 + Z.of_nat (size b) + 1) ⊆+ (map_to_list b).*1) as Hsub.
    { apply NoDup_submseteq; [apply NoDup_seqZ|]. intros a Ha. specialize (E a Ha). destruct (b !! a) as [l|] eqn:El; [|done].
      apply list_elem_of_fmap. exists (a, l). split; [done|]. by apply elem_of_map_to_list. }
    apply submseteq_length in Hsub. rewrite length_fmap, length_map_to_list, length_zrange in Hsub. lia.
Qed.

Definition wit_medium : world (pmem * gmap Z (list Z)) :=
  mkWorld (start_queue 16 0 true false) (link_descriptors 16 (replicate 16 zero_desc)) (mkAvail 0 0 (replicate 16 0) 0)
    (mkUsed 0 0 (replicate 16 (mkUsedElem 0 0)) 0) ∅ (∅, ∅).

Lemma wit_idle : idle 4 wit_medium.
Proof.
  split; try done. exists (seq 0 16). apply (new_queue_inv 4 ltac:(lia)). split; [by exists 0, true, false|done..].
Qed.

Lemma blk_driver_is_disk_witness :
  ∃ s', exec wit_heap (disk_handler 64) true 0x1000 0x2000 0x3000 (BRead 5) wit_medium = Done (inr (replicate 512 0), s') ∧
    ∃ s2, exec_all wit_heap (disk_handler 64) false 0x1000 0x2000 0x3000 [BWrite 5 (replicate 512 7); BRead 5; BRead 70] wit_medium =
      Done ([inr []; inr (replicate 512 7); inl IoError], s2).
Proof.
  assert (∀ b n, b !! wit_heap b n = None) as Hf by (intros b n; apply wit_heap_spec).
  assert (∀ b n, Z.of_nat (size b) < 2 ^ 16 → fits 64 (wit_heap b n)) as Hw by (intros b n Hs; pose proof (proj2 (wit_heap_spec b n)); unfold fits; lia).
  assert (frame_ok 0x1000 0x2000 (0x3000, 512)) as Hfr by (split; unfold apart; simpl; lia).
  pose proof (disk_handler_serves (D := gmap Z (list Z)) 64 ltac:(lia)) as Hs.
  assert (Forall op_ok [BRead 5]) as H1 by (repeat constructor; lia).
  assert (Forall op_ok [BWrite 5 (replicate 512 7); BRead 5; BRead 70]) as H2.
  { constructor; [|repeat constructor; lia]. split; [unfold fits; lia|]. split; [done|]. apply Forall_replicate. unfold fits; lia. }
  destruct (blk_driver_is_disk wit_heap Hf Hw (disk_handler 64) true 0x1000 0x2000 _ 64 Hs 0x3000 Hfr [BRead 5] wit_medium (λ b, read_block b ∅) wit_idle H1 ltac:(done))
    as (s1 & E1 & _).
  destruct (blk_driver_is_disk wit_heap Hf Hw (disk_handler 64) false 0x1000 0x2000 _ 64 Hs 0x3000 Hfr _ wit_medium (λ b, read_block b ∅) wit_idle H2 ltac:(done))
    as (s2 & E2 & _).
  cbn [exec_all] in E1. apply bind_Done in E1 as (r & s1' & E1 & Er). apply bind_Done in Er as (rs & s1'' & Er & Er'). injection Er as <- <-. injection Er' as Er' _.
  exists s1'. split; [|exists s2; exact E2]. rewrite E1. do 2 f_equal. exact Er'.
Defined.
