(* ===== verification/VirtTransport.v ===== *)
(** * Setting up a VirtIO device

    dependencies/virtio-drivers/src/transport (mod.rs, mmio.rs), hal.rs, the layout
    of a queue in memory and [VirtQueue::new] (queue.rs), and [VirtIOBlk::new]
    (device/blk.rs): the registers of a device that is mapped into memory, the
    negotiation of features, and the areas that a queue shares with the device.

    A device is a function from what was written to its registers so far to the
    values that it shows in them. *)

From S2P Require Import Prelude PhysMem BlockCache VirtQueue VirtRefine VirtDevice VirtBlk.

Definition PAGE_SIZE : Z := 4096.

(** ** Registers *)

(** The fields of [VirtIOHeader] that the driver uses. *)
Inductive reg : Set :=
| magic | version | device_id_reg | vendor_id
| device_features | device_features_sel | driver_features | driver_features_sel
| legacy_guest_page_size
| queue_sel | queue_num_max | queue_num | legacy_queue_align | legacy_queue_pfn | queue_ready | queue_notify
| interrupt_status | interrupt_ack | status
| queue_desc_low | queue_desc_high | queue_driver_low | queue_driver_high | queue_device_low | queue_device_high
| config_generation
| config (offset : Z).

Inductive MmioVersion : Set := Legacy | Modern.
Inductive MmioError : Set := BadMagic (m : Z) | UnsupportedVersion (v : Z) | ZeroDeviceId | MmioRegionTooSmall.

Definition MAGIC_VALUE : Z := 0x74726976.
Definition CONFIG_SPACE_OFFSET : Z := 0x100.

Record MmioTransport := mkMmio { mmio_version : MmioVersion; config_space_size : Z }.

(** [DeviceStatus] *)
Definition ACKNOWLEDGE : Z := 1.
Definition DRIVER : Z := 2.
Definition DRIVER_OK : Z := 4.
Definition FEATURES_OK : Z := 8.

(** Writes to the registers in their order, and the state of the [Hal]. *)
Record board (H : Type) := mkBoard { writes : list (reg * Z); hal : H }.
Arguments mkBoard {H} _ _.
Arguments writes {H} _.
Arguments hal {H} _.

(** The part of the trait [Hal] that allocates. *)
Class DmaHal (H : Type) := {
  dma_alloc : Z → BufferDirection → H → (Z * Z) * H;
  dma_dealloc : Z → Z → Z → H → Z * H;
}.

(** lib.rs *)
Definition align_up (size : Z) : Z := Z.land (size ⊞ PAGE_SIZE) (wnot 64 (PAGE_SIZE - 1)).
Definition pages (size : Z) : Z := (size + PAGE_SIZE - 1) / PAGE_SIZE.

Record Dma := mkDma { dma_paddr : Z; dma_vaddr : Z; dma_pages : Z }.

Inductive VirtQueueLayout : Type :=
| LegacyLayout (dma : Dma) (avail_offset used_offset : Z)
| ModernLayout (driver_to_device_dma device_to_driver_dma : Dma) (avail_offset : Z).

(** [queue_part_sizes], after its assertion. *)
Definition part_sizes (queue_size : Z) : Z * Z * Z := (16 * queue_size, 2 * (3 + queue_size), 2 * 3 + 8 * queue_size).
Definition is_power_of_two (n : Z) : bool := (0 <? n) && (Z.land n (n - 1) =? 0).

Section transport.
Context {H : Type} `{DmaHal H}.
(** The device. *)
Variable answer : list (reg * Z) → reg → Z.
Abbreviation S := (ST (board H)).

Definition volread (r : reg) : S Z := st_gets (λ b, answer (writes b) r).
Definition volwrite (r : reg) (v : Z) : S unit := st_modify (λ b, mkBoard (writes b ++ [(r, v)]) (hal b)).
Definition on_hal {A} (f : H → A * H) : S A := λ b, let '(a, h) := f (hal b) in Done (a, mkBoard (writes b) h).

Definition MmioTransport_new (mmio_size : Z) : S (MmioError + MmioTransport) :=
  m ← volread magic;
  if negb (m =? MAGIC_VALUE) then mret (inl (BadMagic m)) else
  d ← volread device_id_reg;
  if d =? 0 then mret (inl ZeroDeviceId) else
  if mmio_size <? CONFIG_SPACE_OFFSET then mret (inl MmioRegionTooSmall) else
  v ← volread version;
  if v =? 1 then mret (inr (mkMmio Legacy (mmio_size - CONFIG_SPACE_OFFSET))) else
  if v =? 2 then mret (inr (mkMmio Modern (mmio_size - CONFIG_SPACE_OFFSET))) else
  mret (inl (UnsupportedVersion v)).

Variable t : MmioTransport.

Definition read_device_features : S Z :=
  volwrite device_features_sel 0;;
  lo ← volread device_features;
  volwrite device_features_sel 1;;
  hi ← volread device_features;
  mret (lo ⊞ wshl 64 hi 32).

Definition write_driver_features (driver_features_bits : Z) : S unit :=
  volwrite driver_features_sel 0;;
  volwrite driver_features (wrap 32 driver_features_bits);;
  volwrite driver_features_sel 1;;
  volwrite driver_features (wrap 32 (Z.shiftr driver_features_bits 32)).

Definition max_queue_size (queue : Z) : S Z := volwrite queue_sel queue;; volread queue_num_max.
Definition transport_notify (queue : Z) : S unit := volwrite queue_notify queue.
Definition set_status (s : Z) : S unit := volwrite status s.

Definition set_guest_page_size (n : Z) : S unit :=
  match mmio_version t with Legacy => volwrite legacy_guest_page_size n | Modern => mret tt end.

Definition requires_legacy_layout : bool := match mmio_version t with Legacy => true | Modern => false end.

Definition queue_set (queue size descriptors driver_area device_area : Z) : S unit :=
  match mmio_version t with
  | Legacy =>
      rassert (driver_area ⊟ descriptors =? 16 * size);;
      rassert (device_area ⊟ descriptors =? align_up (16 * size + 2 * (size + 3)));;
      let pfn := wrap 32 (descriptors / PAGE_SIZE) in
      rassert (pfn * PAGE_SIZE =? descriptors);;
      volwrite queue_sel queue;;
      volwrite queue_num size;;
      volwrite legacy_queue_align (wrap 32 PAGE_SIZE);;
      volwrite legacy_queue_pfn pfn
  | Modern =>
      volwrite queue_sel queue;;
      volwrite queue_num size;;
      volwrite queue_desc_low (wrap 32 descriptors);;
      volwrite queue_desc_high (wrap 32 (Z.shiftr descriptors 32));;
      volwrite queue_driver_low (wrap 32 driver_area);;
      volwrite queue_driver_high (wrap 32 (Z.shiftr driver_area 32));;
      volwrite queue_device_low (wrap 32 device_area);;
      volwrite queue_device_high (wrap 32 (Z.shiftr device_area 32));;
      volwrite queue_ready 1
  end.

Definition queue_unset (fuel : nat) (queue : Z) : S unit :=
  match mmio_version t with
  | Legacy =>
      volwrite queue_sel queue;; volwrite queue_num 0;; volwrite legacy_queue_align 0;; volwrite legacy_queue_pfn 0
  | Modern =>
      volwrite queue_sel queue;;
      volwrite queue_ready 0;;
      loop (B := unit) (R := unit) fuel (λ _, r ← volread queue_ready; mret (if r =? 0 then inr tt else inl tt)) tt;;
      volwrite queue_num 0;;
      volwrite queue_desc_low 0;; volwrite queue_desc_high 0;;
      volwrite queue_driver_low 0;; volwrite queue_driver_high 0;;
      volwrite queue_device_low 0;; volwrite queue_device_high 0
  end.

Definition queue_used (queue : Z) : S bool :=
  volwrite queue_sel queue;;
  match mmio_version t with
  | Legacy => r ← volread legacy_queue_pfn; mret (negb (r =? 0))
  | Modern => r ← volread queue_ready; mret (negb (r =? 0))
  end.

Definition ack_interrupt : S bool :=
  interrupt ← volread interrupt_status;
  if negb (interrupt =? 0) then volwrite interrupt_ack interrupt;; mret true else mret false.

(** A word of the configuration space. *)
Definition read_config_u32 (offset : Z) : S (result Z) :=
  rassert (offset mod 4 =? 0);;
  if config_space_size t <? offset + 4 then mret (inl ConfigSpaceTooSmall) else
  v ← volread (config offset);
  mret (inr v).

Definition read_consistent {A} (fuel : nat) (f : S (result A)) : S (result A) :=
  loop (B := unit) fuel (λ _,
    before ← volread config_generation;
    result ← f;
    after ← volread config_generation;
    mret (if before =? after then inr result else inl tt)) tt.

(** [begin_init] for a set of features with the flags [all]. *)
Definition begin_init (all supported_features : Z) : S Z :=
  set_status 0;;
  set_status (Z.lor ACKNOWLEDGE DRIVER);;
  bits ← read_device_features;
  let negotiated_features := Z.land (Z.land bits all) supported_features in
  write_driver_features negotiated_features;;
  set_status (Z.lor (Z.lor ACKNOWLEDGE DRIVER) FEATURES_OK);;
  set_guest_page_size (wrap 32 PAGE_SIZE);;
  mret negotiated_features.

Definition finish_init : S unit := set_status (Z.lor (Z.lor (Z.lor ACKNOWLEDGE DRIVER) FEATURES_OK) DRIVER_OK).

(** ** Areas of a queue *)

Definition Dma_new (n : Z) (direction : BufferDirection) : S (result Dma) :=
  '(paddr, vaddr) ← on_hal (dma_alloc n direction);
  mret (if paddr =? 0 then inl DmaError else inr (mkDma paddr vaddr n)).

Definition Dma_drop (d : Dma) : S unit :=
  err ← on_hal (dma_dealloc (dma_paddr d) (dma_vaddr d) (dma_pages d));
  rassert (err =? 0).

(** [Dma::vaddr]: a pointer into the region. *)
Definition Dma_vaddr (d : Dma) (offset : Z) : S Z :=
  rassert (offset <? dma_pages d * PAGE_SIZE);;
  rassert (negb (dma_vaddr d ⊞ offset =? 0));;
  mret (dma_vaddr d ⊞ offset).

Definition queue_part_sizes (queue_size : Z) : S (Z * Z * Z) :=
  rassert (is_power_of_two queue_size);;
  mret (part_sizes queue_size).

Definition allocate_legacy (queue_size : Z) : S (result VirtQueueLayout) :=
  '(desc, avail, used) ← queue_part_sizes queue_size;
  let size := align_up (desc + avail) + align_up used in
  d ← Dma_new (size / PAGE_SIZE) Both;
  match d with
  | inl e => mret (inl e)
  | inr dma => mret (inr (LegacyLayout dma desc (align_up (desc + avail))))
  end.

Definition allocate_flexible (queue_size : Z) : S (result VirtQueueLayout) :=
  '(desc, avail, used) ← queue_part_sizes queue_size;
  d ← Dma_new (pages (desc + avail)) DriverToDevice;
  match d with
  | inl e => mret (inl e)
  | inr driver_to_device_dma =>
      d ← Dma_new (pages used) DeviceToDriver;
      match d with
      | inl e => Dma_drop driver_to_device_dma;; mret (inl e)
      | inr device_to_driver_dma => mret (inr (ModernLayout driver_to_device_dma device_to_driver_dma desc))
      end
  end.

Definition descriptors_paddr (l : VirtQueueLayout) : Z :=
  match l with LegacyLayout dma _ _ => dma_paddr dma | ModernLayout d _ _ => dma_paddr d end.
Definition driver_area_paddr (l : VirtQueueLayout) : Z :=
  match l with LegacyLayout dma a _ => dma_paddr dma ⊞ a | ModernLayout d _ a => dma_paddr d ⊞ a end.
Definition device_area_paddr (l : VirtQueueLayout) : Z :=
  match l with LegacyLayout dma _ u => dma_paddr dma ⊞ u | ModernLayout _ d _ => dma_paddr d end.
Definition descriptors_vaddr (l : VirtQueueLayout) : S Z :=
  match l with LegacyLayout dma _ _ => Dma_vaddr dma 0 | ModernLayout d _ _ => Dma_vaddr d 0 end.
Definition avail_vaddr (l : VirtQueueLayout) : S Z :=
  match l with LegacyLayout dma a _ => Dma_vaddr dma a | ModernLayout d _ a => Dma_vaddr d a end.
Definition used_vaddr (l : VirtQueueLayout) : S Z :=
  match l with LegacyLayout dma _ u => Dma_vaddr dma u | ModernLayout _ d _ => Dma_vaddr d 0 end.

(** What [VirtQueue::new] returns: the queue with its areas, which are on pages
    that the [Hal] has cleared. *)
Record new_parts := mkParts { np_layout : VirtQueueLayout; np_desc : Z; np_avail : Z; np_used : Z; np_queue : VirtQueue; np_table : list Descriptor }.

Definition VirtQueue_new (SIZE idx : Z) (indirect event_idx : bool) : S (result new_parts) :=
  b ← queue_used idx;
  if b : bool then mret (inl AlreadyUsed) else
  n ← max_queue_size idx;
  if n <? SIZE then mret (inl InvalidParam) else
  l ← (if requires_legacy_layout then allocate_legacy SIZE else allocate_flexible SIZE);
  match l with
  | inl e => mret (inl e)
  | inr layout =>
      queue_set idx SIZE (descriptors_paddr layout) (driver_area_paddr layout) (device_area_paddr layout);;
      desc ← descriptors_vaddr layout;
      avail ← avail_vaddr layout;
      used ← used_vaddr layout;
      mret (inr (mkParts layout desc avail used (start_queue (Z.to_nat SIZE) idx indirect event_idx)
                   (link_descriptors (Z.to_nat SIZE) (replicate (Z.to_nat SIZE) zero_desc))))
  end.

(** ** The block driver *)

Definition ALL_FEATURES : Z :=
  foldr (λ i n, Z.lor (2 ^ i) n) 0 [0; 1; 2; 4; 5; 6; 7; 9; 10; 11; 12; 13; 14; 15; 16; 24; 27; 28; 29; 30; 32; 33; 34; 35; 36; 37; 38].

Definition read_capacity : S (result Z) :=
  lo ← read_config_u32 0;
  match lo with
  | inl e => mret (inl e)
  | inr lo =>
      hi ← read_config_u32 4;
      match hi with
      | inl e => mret (inl e)
      | inr hi => mret (inr (Z.lor lo (wshl 64 hi 32)))
      end
  end.

(** The transport is dropped, which resets the device, when the driver is not
    made. *)
Definition VirtIOBlk_new (fuel : nat) : S (result (VirtIOBlk * new_parts)) :=
  negotiated_features ← begin_init ALL_FEATURES SUPPORTED_FEATURES;
  c ← read_consistent fuel read_capacity;
  match c with
  | inl e => set_status 0;; mret (inl e)
  | inr capacity =>
      q ← VirtQueue_new QUEUE_SIZE QUEUE (contains negotiated_features RING_INDIRECT_DESC) (contains negotiated_features RING_EVENT_IDX);
      match q with
      | inl e => set_status 0;; mret (inl e)
      | inr parts => finish_init;; mret (inr (mkBlk capacity negotiated_features, parts))
      end
  end.

(** [Drop] of the driver, of its transport, and of the areas of its queue. *)
Definition VirtIOBlk_drop (fuel : nat) (parts : new_parts) : S unit :=
  queue_unset fuel QUEUE;;
  set_status 0;;
  match np_layout parts with
  | LegacyLayout dma _ _ => Dma_drop dma
  | ModernLayout d1 d2 _ => Dma_drop d1;; Dma_drop d2
  end.

End transport.

(** ** Sizes *)

Lemma align_up_spec x : 0 ≤ x < 2 ^ 63 → align_up x = (x / 4096 + 1) * 4096.
Proof.
  intros Hx. unfold align_up, PAGE_SIZE. rewrite wadd_small by (unfold fits; lia).
  assert (wnot 64 (4096 - 1) = Z.shiftl (Z.ones 52) 12) as -> by reflexivity.
  assert (Z.land (x + 4096) (Z.shiftl (Z.ones 52) 12) = Z.shiftl (Z.shiftr (x + 4096) 12) 12) as ->.
  { apply Z.bits_inj'. intros n Hn. rewrite Z.land_spec. destruct (Z.ltb_spec n 12) as [Hlt|Hge].
    - rewrite !Z.shiftl_spec_low by lia. by rewrite andb_false_r.
    - rewrite !Z.shiftl_spec, Z.shiftr_spec by lia. replace (n - 12 + 12) with n by lia. destruct (Z.ltb_spec n 64) as [Hl|Hg].
      + rewrite Z.ones_spec_low by lia. by rewrite andb_true_r.
      + rewrite Z.ones_spec_high by lia. rewrite andb_false_r. symmetry.
        destruct (Z.eq_dec (x + 4096) 0); [lia|]. apply Z.bits_above_log2; [lia|]. apply Z.log2_lt_pow2; [lia|].
        apply Z.lt_le_trans with (2 ^ 64); [lia|]. apply Z.pow_le_mono_r; lia. }
  rewrite Z.shiftl_mul_pow2, Z.shiftr_div_pow2 by lia. change (2 ^ 12) with 4096. replace (x + 4096) with (x + 1 * 4096) by lia. by rewrite Z.div_add.
Qed.

Lemma page_div x : 4096 * (x / 4096) ≤ x < 4096 * (x / 4096) + 4096.
Proof. zlia. Qed.

Lemma pow2_test k : 0 ≤ k → is_power_of_two (2 ^ k) = true.
Proof.
  intros Hk. unfold is_power_of_two. pose proof (Z.pow_pos_nonneg 2 k ltac:(lia) Hk). rewrite (proj2 (Z.ltb_lt _ _)) by done. cbn [andb].
  apply Z.eqb_eq. rewrite land_ones_mod by done. by apply Z_mod_same_full.
Qed.

(** ** Setting up a queue *)

Section setup.
Context {H : Type} `{DmaHal H}.

(** What the trait asks of its implementations: pages for DMA, or the physical
    address 0; two regions in a row do not overlap, and the first can be given
    back when there is no memory for the second. *)
Record dma_laws : Prop := {
  dl_region n dir h pa va h' :
    dma_alloc n dir h = ((pa, va), h') → pa ≠ 0 → 0 < pa ∧ pa mod 4096 = 0 ∧ pa + n * 4096 ≤ 2 ^ 64 ∧ 0 < va ∧ va mod 4096 = 0 ∧ va + n * 4096 ≤ 2 ^ 64;
  dl_apart n1 dir1 h1 p1 v1 h2 n2 dir2 p2 v2 h3 :
    dma_alloc n1 dir1 h1 = ((p1, v1), h2) → dma_alloc n2 dir2 h2 = ((p2, v2), h3) → p1 ≠ 0 → p2 ≠ 0 →
    apart p1 (n1 * 4096) p2 (n2 * 4096) ∧ apart v1 (n1 * 4096) v2 (n2 * 4096);
  dl_dealloc n1 dir1 h1 p1 v1 h2 n2 dir2 v2 h3 :
    dma_alloc n1 dir1 h1 = ((p1, v1), h2) → dma_alloc n2 dir2 h2 = ((0, v2), h3) → p1 ≠ 0 → (dma_dealloc p1 v1 n1 h3).1 = 0;
}.

(** A legacy device is given the number of a page in 32 bits, which [queue_set]
    asserts to be enough: the trait does not ask for it, but a [Hal] for legacy
    devices has to allocate below 2^44. *)
Definition page_reach (t : MmioTransport) : Prop := ∀ n dir h pa va h',
  mmio_version t = Legacy → dma_alloc n dir h = ((pa, va), h') → pa ≠ 0 → pa + n * 4096 ≤ 2 ^ 44.

Context (Hdma : dma_laws) (answer : list (reg * Z) → reg → Z) (t : MmioTransport) (Hreach : page_reach t) (k : Z) (SIZE_OK : 0 ≤ k ≤ 15).
Abbreviation SIZE := (2 ^ k).

(** The areas at [d], [a] and [u] do not overlap, and are aligned as VirtIO asks. *)
Record areas_ok (d a u : Z) : Prop := {
  ao_pos : 0 < d ∧ 0 < a ∧ 0 < u;
  ao_da : d + 16 * SIZE ≤ a;
  ao_du : apart d (16 * SIZE) u (8 * SIZE + 6);
  ao_au : apart a (2 * SIZE + 6) u (8 * SIZE + 6);
  ao_align : d mod 16 = 0 ∧ a mod 2 = 0 ∧ u mod 4 = 0;
  ao_end : a + (2 * SIZE + 6) ≤ 2 ^ 64 ∧ u + (8 * SIZE + 6) ≤ 2 ^ 64;
}.

Record parts_ok (idx : Z) (ind ev : bool) (p : new_parts) : Prop := {
  po_phys : areas_ok (descriptors_paddr (np_layout p)) (driver_area_paddr (np_layout p)) (device_area_paddr (np_layout p));
  po_virt : areas_ok (np_desc p) (np_avail p) (np_used p);
  po_queue : np_queue p = start_queue (Z.to_nat SIZE) idx ind ev;
  po_table : length (np_table p) = Z.to_nat SIZE;
}.

(** [n] bytes at [x] lie in the region [dma], which starts at [base dma]. *)
Definition in_region (base : Dma → Z) (dma : Dma) (x n : Z) : Prop := base dma ≤ x ∧ x + n ≤ base dma + dma_pages dma * 4096.

(** The three areas lie in the regions of the layout. *)
Definition areas_in (base : Dma → Z) (l : VirtQueueLayout) (d a u : Z) : Prop :=
  let '(dma, dma') := match l with LegacyLayout dma _ _ => (dma, dma) | ModernLayout d1 d2 _ => (d1, d2) end in
  in_region base dma d (16 * SIZE) ∧ in_region base dma a (2 * SIZE + 6) ∧ in_region base dma' u (8 * SIZE + 6).

Definition inside (p : new_parts) : Prop :=
  areas_in dma_paddr (np_layout p) (descriptors_paddr (np_layout p)) (driver_area_paddr (np_layout p)) (device_area_paddr (np_layout p)) ∧
  areas_in dma_vaddr (np_layout p) (np_desc p) (np_avail p) (np_used p).

(** The regions of the layout are those that the [Hal] hands out in state [h],
    which leaves it in [h']. *)
Definition granted (h : H) (l : VirtQueueLayout) (h' : H) : Prop :=
  let got dma dir h h' := dma_alloc (dma_pages dma) dir h = ((dma_paddr dma, dma_vaddr dma), h') in
  match l with
  | LegacyLayout dma _ _ => got dma Both h h'
  | ModernLayout d1 d2 _ => ∃ h1, got d1 DriverToDevice h h1 ∧ got d2 DeviceToDriver h1 h'
  end.

(** The pages of a queue: in one region, or the parts that the driver and the
    device write in a region each. *)
Definition legacy_pages : Z := (align_up (16 * SIZE + 2 * (3 + SIZE)) + align_up (2 * 3 + 8 * SIZE)) / 4096.
Definition driver_pages : Z := pages (16 * SIZE + 2 * (3 + SIZE)).
Definition device_pages : Z := pages (2 * 3 + 8 * SIZE).

(** The [Hal] has no memory for a queue in state [h]. *)
Definition no_memory (h : H) : Prop :=
  match mmio_version t with
  | Legacy => (dma_alloc legacy_pages Both h).1.1 = 0
  | Modern => let '((pa, _), h1) := dma_alloc driver_pages DriverToDevice h in
      pa = 0 ∨ (dma_alloc device_pages DeviceToDriver h1).1.1 = 0
  end.

#[local] Instance no_memory_dec h : Decision (no_memory h).
Proof. unfold no_memory. destruct (mmio_version t); [|destruct (dma_alloc _ _ h) as [[? ?] ?]]; apply _. Defined.

(** What the device shows of queue [idx] after the writes [w]: it is in use, and
    its greatest size. *)
Definition in_use (w : list (reg * Z)) (idx : Z) : Prop :=
  answer (w ++ [(queue_sel, idx)]) (match mmio_version t with Legacy => legacy_queue_pfn | Modern => queue_ready end) ≠ 0.
#[local] Instance in_use_dec w idx : Decision (in_use w idx).
Proof. unfold in_use. apply _. Defined.
Definition greatest (w : list (reg * Z)) (idx : Z) : Z := answer (w ++ [(queue_sel, idx); (queue_sel, idx)]) queue_num_max.

(** The writes of [queue_set]. *)
Definition set_log (idx : Z) (l : VirtQueueLayout) : list (reg * Z) :=
  let d := descriptors_paddr l in
  let a := driver_area_paddr l in
  let u := device_area_paddr l in
  match mmio_version t with
  | Legacy => [(queue_sel, idx); (queue_num, SIZE); (legacy_queue_align, 4096); (legacy_queue_pfn, d / 4096)]
  | Modern =>
      [(queue_sel, idx); (queue_num, SIZE); (queue_desc_low, wrap 32 d); (queue_desc_high, wrap 32 (Z.shiftr d 32));
       (queue_driver_low, wrap 32 a); (queue_driver_high, wrap 32 (Z.shiftr a 32));
       (queue_device_low, wrap 32 u); (queue_device_high, wrap 32 (Z.shiftr u 32)); (queue_ready, 1)]
  end.

Lemma Dma_vaddr_ok d off (b : board H) :
  0 ≤ off < dma_pages d * 4096 → 0 < dma_vaddr d → dma_vaddr d + dma_pages d * 4096 ≤ 2 ^ 64 → Dma_vaddr d off b = Done (dma_vaddr d + off, b).
Proof.
  intros Ho Hv He. unfold Dma_vaddr, PAGE_SIZE. rewrite (proj2 (Z.ltb_lt _ _)) by lia. erewrite bind_step by reflexivity.
  rewrite wadd_small by (unfold fits; lia). rewrite (proj2 (Z.eqb_neq _ _)) by lia. by erewrite bind_step by reflexivity.
Qed.

Lemma size_bound : 1 ≤ SIZE ≤ 32768 ∧ (16 * SIZE) mod 16 = 0.
Proof. split; [by apply SIZE_bound|]. rewrite Z.mul_comm. apply Z_mod_mult. Qed.

Lemma queue_set_legacy idx d (b : board H) :
  mmio_version t = Legacy → 0 ≤ d < 2 ^ 44 → d mod 4096 = 0 →
  let u := align_up (16 * SIZE + 2 * (3 + SIZE)) in
  0 ≤ u < 2 ^ 44 →
  queue_set t idx SIZE d (d + 16 * SIZE) (d + u) b =
  Done (tt, mkBoard (writes b ++ [(queue_sel, idx); (queue_num, SIZE); (legacy_queue_align, 4096); (legacy_queue_pfn, d / 4096)]) (hal b)).
Proof.
  intros Hv Hd Hm u Hu. destruct size_bound as [Hs _]. unfold queue_set. rewrite Hv. unfold PAGE_SIZE.
  rewrite (wsub_small 64 (d + 16 * SIZE)), (wsub_small 64 (d + u)) by (unfold fits; lia).
  replace (d + 16 * SIZE - d) with (16 * SIZE) by lia. replace (d + u - d) with u by lia. rewrite (Z.add_comm SIZE 3). fold u. rewrite !Z.eqb_refl.
  rewrite (wrap_small 32 (d / 4096)) by (unfold fits; zlia). replace (d / 4096 * 4096) with d by zlia. rewrite Z.eqb_refl.
  repeat (erewrite bind_step by reflexivity). unfold volwrite, st_modify. cbn [writes hal]. by rewrite <- !app_assoc.
Qed.

(** The layout of a legacy device, once its region is there. *)
Lemma legacy_ok pa va n idx ind ev (b : board H) :
  mmio_version t = Legacy → n = (align_up (16 * SIZE + 2 * (3 + SIZE)) + align_up (2 * 3 + 8 * SIZE)) / 4096 →
  0 < pa → pa mod 4096 = 0 → pa + n * 4096 ≤ 2 ^ 44 → 0 < va → va mod 4096 = 0 → va + n * 4096 ≤ 2 ^ 64 →
  let l := LegacyLayout (mkDma pa va n) (16 * SIZE) (align_up (16 * SIZE + 2 * (3 + SIZE))) in
  ∃ p, (queue_set t idx SIZE (descriptors_paddr l) (driver_area_paddr l) (device_area_paddr l);;
        desc ← descriptors_vaddr l; avail ← avail_vaddr l; used ← used_vaddr l;
        mret (inr (mkParts l desc avail used (start_queue (Z.to_nat SIZE) idx ind ev)
                     (link_descriptors (Z.to_nat SIZE) (replicate (Z.to_nat SIZE) zero_desc))))) b =
       Done (inr p : result new_parts, mkBoard (writes b ++ set_log idx l) (hal b)) ∧ np_layout p = l ∧ parts_ok idx ind ev p ∧ inside p.
Proof.
  intros Hv Hn Hp0 Hpm Hpe Hv0 Hvm Hve l. destruct size_bound as [Hs Hs16].
  set (u := align_up (16 * SIZE + 2 * (3 + SIZE))) in *. assert (u = ((16 * SIZE + 2 * (3 + SIZE)) / 4096 + 1) * 4096) as Hu by (apply align_up_spec; lia).
  rewrite (align_up_spec (2 * 3 + 8 * SIZE)) in Hn by lia.
  pose proof (page_div (16 * SIZE + 2 * (3 + SIZE))) as Hx. pose proof (page_div (2 * 3 + 8 * SIZE)) as Hy.
  set (x := (16 * SIZE + 2 * (3 + SIZE)) / 4096) in *. set (y := (2 * 3 + 8 * SIZE) / 4096) in *.
  assert (n = x + 1 + (y + 1)) as Hn' by (rewrite Hn, Hu, <- Z.mul_add_distr_r; apply Z.div_mul; lia).
  assert (pa = 4096 * (pa / 4096)) as Hpq by zlia. assert (va = 4096 * (va / 4096)) as Hvq by zlia.
  assert (∀ c, 0 < c → 4096 * c + n * 4096 ≤ 2 ^ 64 → areas_ok (4096 * c) (4096 * c + 16 * SIZE) (4096 * c + u)) as Hareas.
  { intros c Hc He. split; unfold apart; try lia. clear -Hs Hu. split_and!; zlia. }
  assert (descriptors_paddr l = pa) as Ed by done.
  assert (driver_area_paddr l = pa + 16 * SIZE) as Ea by (apply wadd_small; unfold fits; lia).
  assert (device_area_paddr l = pa + u) as Eu by (apply wadd_small; unfold fits; lia).
  assert (0 ≤ pa / 4096 < 2 ^ 32) as Hpfn by lia.
  eexists (mkParts l va (va + 16 * SIZE) (va + u) _ _). split; [|split; [done|split; [split|]]].
  - rewrite Ed, Ea, Eu. rewrite (bind_step _ _ _ _ _ (queue_set_legacy idx pa b Hv ltac:(lia) Hpm ltac:(lia))). cbv zeta.
    unfold descriptors_vaddr, avail_vaddr, used_vaddr, l. rewrite (bind_step _ _ _ _ _ (Dma_vaddr_ok (mkDma pa va n) 0 _ ltac:(cbn; lia) Hv0 Hve)).
    rewrite (bind_step _ _ _ _ _ (Dma_vaddr_ok (mkDma pa va n) (16 * SIZE) _ ltac:(cbn; lia) Hv0 Hve)).
    rewrite (bind_step _ _ _ _ _ (Dma_vaddr_ok (mkDma pa va n) u _ ltac:(cbn; lia) Hv0 Hve)).
    unfold set_log. rewrite Hv. cbn [dma_vaddr writes hal]. rewrite Z.add_0_r. reflexivity.
  - cbn [np_layout]. rewrite Ed, Ea, Eu. rewrite Hpq. apply Hareas; lia.
  - cbn [np_desc np_avail np_used]. rewrite Hvq. apply Hareas; lia.
  - done.
  - cbn [np_table]. unfold link_descriptors. by rewrite link_length, length_replicate.
  - unfold inside. cbn [np_layout np_desc np_avail np_used]. rewrite Ed, Ea, Eu. split; unfold areas_in, in_region; cbn; lia.
Qed.

Lemma pages_bound x : 0 < x → x ≤ pages x * 4096 ∧ 0 < pages x.
Proof. intros Hx. unfold pages, PAGE_SIZE. zlia. Qed.

(** The layout of a modern device, once its two regions are there. *)
Lemma modern_ok p1 v1 p2 v2 idx ind ev (b : board H) :
  let n1 := pages (16 * SIZE + 2 * (3 + SIZE)) in
  let n2 := pages (2 * 3 + 8 * SIZE) in
  mmio_version t = Modern →
  0 < p1 → p1 mod 4096 = 0 → p1 + n1 * 4096 ≤ 2 ^ 64 → 0 < v1 → v1 mod 4096 = 0 → v1 + n1 * 4096 ≤ 2 ^ 64 →
  0 < p2 → p2 mod 4096 = 0 → p2 + n2 * 4096 ≤ 2 ^ 64 → 0 < v2 → v2 mod 4096 = 0 → v2 + n2 * 4096 ≤ 2 ^ 64 →
  apart p1 (n1 * 4096) p2 (n2 * 4096) → apart v1 (n1 * 4096) v2 (n2 * 4096) →
  let l := ModernLayout (mkDma p1 v1 n1) (mkDma p2 v2 n2) (16 * SIZE) in
  ∃ p, (queue_set t idx SIZE (descriptors_paddr l) (driver_area_paddr l) (device_area_paddr l);;
        desc ← descriptors_vaddr l; avail ← avail_vaddr l; used ← used_vaddr l;
        mret (inr (mkParts l desc avail used (start_queue (Z.to_nat SIZE) idx ind ev)
                     (link_descriptors (Z.to_nat SIZE) (replicate (Z.to_nat SIZE) zero_desc))))) b =
       Done (inr p : result new_parts, mkBoard (writes b ++ set_log idx l) (hal b)) ∧ np_layout p = l ∧ parts_ok idx ind ev p ∧ inside p.
Proof.
  intros n1 n2 Hv Hp1 Hp1m Hp1e Hv1 Hv1m Hv1e Hp2 Hp2m Hp2e Hv2 Hv2m Hv2e Hap Hav l. destruct size_bound as [Hs _].
  pose proof (pages_bound (16 * SIZE + 2 * (3 + SIZE)) ltac:(lia)) as Hn1. fold n1 in Hn1. pose proof (pages_bound (2 * 3 + 8 * SIZE) ltac:(lia)) as Hn2. fold n2 in Hn2.
  assert (∀ x y, 0 < x → 0 < y → x mod 4096 = 0 → y mod 4096 = 0 → x + n1 * 4096 ≤ 2 ^ 64 → y + n2 * 4096 ≤ 2 ^ 64 →
    apart x (n1 * 4096) y (n2 * 4096) → areas_ok x (x + 16 * SIZE) y) as Hareas.
  { intros x y ?? Hx Hy ?? Hxy. split; unfold apart in *; try lia. clear -Hs Hx Hy. split_and!; zlia. }
  assert (driver_area_paddr l = p1 + 16 * SIZE) as Ea by (apply wadd_small; unfold fits; lia).
  eexists (mkParts l v1 (v1 + 16 * SIZE) v2 _ _). split; [|split; [done|split; [split|]]].
  - rewrite Ea. erewrite bind_step by (unfold queue_set; rewrite Hv; reflexivity).
    unfold descriptors_vaddr, avail_vaddr, used_vaddr, l. rewrite (bind_step _ _ _ _ _ (Dma_vaddr_ok (mkDma p1 v1 n1) 0 _ ltac:(cbn; lia) Hv1 Hv1e)).
    rewrite (bind_step _ _ _ _ _ (Dma_vaddr_ok (mkDma p1 v1 n1) (16 * SIZE) _ ltac:(cbn; lia) Hv1 Hv1e)).
    rewrite (bind_step _ _ _ _ _ (Dma_vaddr_ok (mkDma p2 v2 n2) 0 _ ltac:(cbn; lia) Hv2 Hv2e)).
    unfold set_log. rewrite Hv. fold l. rewrite Ea. cbn [dma_vaddr writes hal]. rewrite <- !app_assoc, !Z.add_0_r. reflexivity.
  - cbn [np_layout]. rewrite Ea. change (descriptors_paddr l) with p1. change (device_area_paddr l) with p2. apply Hareas; try done; lia.
  - cbn [np_desc np_avail np_used]. by apply Hareas.
  - done.
  - cbn [np_table]. unfold link_descriptors. by rewrite link_length, length_replicate.
  - unfold inside. cbn [np_layout np_desc np_avail np_used]. rewrite Ea. split; unfold areas_in, in_region; cbn; lia.
Qed.

Lemma part_sizes_ok (b : board H) : queue_part_sizes SIZE b = Done (part_sizes SIZE, b).
Proof. unfold queue_part_sizes. rewrite pow2_test by lia. by erewrite bind_step by reflexivity. Qed.

Lemma Dma_new_ok n dir (b : board H) :
  ∃ r b' pa va, Dma_new n dir b = Done (r, b') ∧ writes b' = writes b ∧ dma_alloc n dir (hal b) = ((pa, va), hal b') ∧
    r = if pa =? 0 then inl DmaError else inr (mkDma pa va n).
Proof.
  destruct (dma_alloc n dir (hal b)) as [[pa va] h] eqn:E. eexists _, (mkBoard (writes b) h), pa, va. split; [|done].
  unfold Dma_new, on_hal. erewrite bind_step by (by rewrite E). done.
Qed.

Lemma allocate_legacy_ok (b : board H) :
  mmio_version t = Legacy →
  ∃ r b', allocate_legacy SIZE b = Done (r, b') ∧ writes b' = writes b ∧
    (no_memory (hal b) → r = inl DmaError) ∧
    (¬ no_memory (hal b) → ∃ pa va, let l := LegacyLayout (mkDma pa va legacy_pages) (16 * SIZE) (align_up (16 * SIZE + 2 * (3 + SIZE))) in
       r = inr l ∧ granted (hal b) l (hal b') ∧
       0 < pa ∧ pa mod 4096 = 0 ∧ pa + legacy_pages * 4096 ≤ 2 ^ 44 ∧ 0 < va ∧ va mod 4096 = 0 ∧ va + legacy_pages * 4096 ≤ 2 ^ 64).
Proof.
  intros Hv. unfold allocate_legacy. rewrite (bind_step _ _ _ _ _ (part_sizes_ok b)). unfold part_sizes, PAGE_SIZE. fold legacy_pages.
  destruct (Dma_new_ok legacy_pages Both b) as (r & b' & pa & va & E & Hw & Ea & ->). rewrite (bind_step _ _ _ _ _ E).
  unfold no_memory. rewrite Hv, Ea. cbn [fst]. destruct (Z.eqb_spec pa 0) as [->|Hne].
  { eexists _, b'. split_and!; try done. }
  eexists _, b'. split_and!; [done|done|done|]. intros _. exists pa, va. split; [done|]. split; [done|].
  destruct (dl_region Hdma _ _ _ _ _ _ Ea Hne) as (? & ? & _ & ? & ? & ?). split_and!; try done. by eapply Hreach.
Qed.

Lemma allocate_flexible_ok (b : board H) :
  mmio_version t = Modern →
  ∃ r b', allocate_flexible SIZE b = Done (r, b') ∧ writes b' = writes b ∧
    (no_memory (hal b) → r = inl DmaError) ∧
    (¬ no_memory (hal b) → ∃ p1 v1 p2 v2, let l := ModernLayout (mkDma p1 v1 driver_pages) (mkDma p2 v2 device_pages) (16 * SIZE) in
       r = inr l ∧ granted (hal b) l (hal b') ∧
       (0 < p1 ∧ p1 mod 4096 = 0 ∧ p1 + driver_pages * 4096 ≤ 2 ^ 64 ∧ 0 < v1 ∧ v1 mod 4096 = 0 ∧ v1 + driver_pages * 4096 ≤ 2 ^ 64) ∧
       (0 < p2 ∧ p2 mod 4096 = 0 ∧ p2 + device_pages * 4096 ≤ 2 ^ 64 ∧ 0 < v2 ∧ v2 mod 4096 = 0 ∧ v2 + device_pages * 4096 ≤ 2 ^ 64) ∧
       apart p1 (driver_pages * 4096) p2 (device_pages * 4096) ∧ apart v1 (driver_pages * 4096) v2 (device_pages * 4096)).
Proof.
  intros Hv. unfold allocate_flexible. rewrite (bind_step _ _ _ _ _ (part_sizes_ok b)). unfold part_sizes. fold driver_pages device_pages.
  destruct (Dma_new_ok driver_pages DriverToDevice b) as (r & b1 & p1 & v1 & E & Hw & Ea & ->). rewrite (bind_step _ _ _ _ _ E).
  unfold no_memory. rewrite Hv, Ea. destruct (Z.eqb_spec p1 0) as [->|Hne].
  { eexists _, b1. split_and!; try done. intros []. by left. }
  destruct (Dma_new_ok device_pages DeviceToDriver b1) as (r & b2 & p2 & v2 & E2 & Hw2 & Ea2 & ->). rewrite (bind_step _ _ _ _ _ E2), Ea2. cbn [fst].
  destruct (Z.eqb_spec p2 0) as [->|Hne2].
  - pose proof (dl_dealloc Hdma _ _ _ _ _ _ _ _ _ _ Ea Ea2 Hne) as Hd. destruct (dma_dealloc p1 v1 driver_pages (hal b2)) as [err h] eqn:Ed. cbn in Hd. subst err.
    eexists _, (mkBoard (writes b2) h). split; [|split; [cbn; congruence|]].
    + erewrite bind_step; [done|]. unfold Dma_drop, on_hal. cbn [dma_paddr dma_vaddr dma_pages]. erewrite bind_step by (by rewrite Ed). done.
    + split; [done|]. intros []. by right.
  - eexists _, b2. split; [done|]. split; [congruence|]. split; [by intros [?|?]|]. intros _. exists p1, v1, p2, v2. split; [done|].
    split; [by exists (hal b1)|]. split; [by eapply (dl_region Hdma)|]. split; [by eapply (dl_region Hdma)|]. by eapply (dl_apart Hdma).
Qed.

(** A queue that was set up: its areas, and what the device was told. *)
Record queue_ok (idx : Z) (ind ev : bool) (b : board H) (p : new_parts) (b' : board H) : Prop := {
  qo_parts : parts_ok idx ind ev p;
  qo_granted : granted (hal b) (np_layout p) (hal b');
  qo_inside : inside p;
  qo_writes : writes b' = writes b ++ [(queue_sel, idx); (queue_sel, idx)] ++ set_log idx (np_layout p);
  qo_inv : ∀ (M : Type) (s : world M), vq s = np_queue p → desc s = np_table p → Z.of_nat (length (av_ring (avail s))) = SIZE →
    Z.of_nat (length (us_ring (used s))) = SIZE → vq_inv k s (seq 0 (Z.to_nat SIZE)) [];
}.

Lemma parts_inv idx ind ev p : parts_ok idx ind ev p →
  ∀ (M : Type) (s : world M), vq s = np_queue p → desc s = np_table p → Z.of_nat (length (av_ring (avail s))) = SIZE →
    Z.of_nat (length (us_ring (used s))) = SIZE → vq_inv k s (seq 0 (Z.to_nat SIZE)) [].
Proof.
  destruct size_bound as [Hs _]. intros [_ _ Hq Ht] M s Ev Ed Ha Hu. apply new_queue_inv; [done|].
  split; [exists idx, ind, ev; congruence|rewrite Ed, Ht; lia|done|done].
Qed.

(** The part of [VirtQueue::new] behind its two tests. *)
Lemma queue_layout idx ind ev (b b2 : board H) :
  writes b2 = writes b ++ [(queue_sel, idx); (queue_sel, idx)] → hal b2 = hal b →
  ∃ r b', (l ← (if requires_legacy_layout t then allocate_legacy SIZE else allocate_flexible SIZE);
    match l with
    | inl e => mret (inl e)
    | inr layout =>
        queue_set t idx SIZE (descriptors_paddr layout) (driver_area_paddr layout) (device_area_paddr layout);;
        desc ← descriptors_vaddr layout; avail ← avail_vaddr layout; used ← used_vaddr layout;
        mret (inr (mkParts layout desc avail used (start_queue (Z.to_nat SIZE) idx ind ev)
                     (link_descriptors (Z.to_nat SIZE) (replicate (Z.to_nat SIZE) zero_desc))))
    end) b2 = Done (r : result new_parts, b') ∧
    (no_memory (hal b) → r = inl DmaError) ∧ (¬ no_memory (hal b) → ∃ p, r = inr p ∧ queue_ok idx ind ev b p b').
Proof.
  intros Hw2 Hh2. unfold requires_legacy_layout. destruct (mmio_version t) eqn:Ev; rewrite <- Hh2.
  - destruct (allocate_legacy_ok b2 Ev) as (r & b3 & E & Hw & Hno & Hyes). rewrite (bind_step _ _ _ _ _ E).
    destruct (decide (no_memory (hal b2))) as [Hm|Hm].
    { rewrite Hno by done. by eexists _, _. }
    destruct (Hyes Hm) as (pa & va & -> & Hg & ? & ? & ? & ? & ? & ?).
    destruct (legacy_ok pa va legacy_pages idx ind ev b3 Ev eq_refl) as (p & Ep & El & Hp & Hin); try done.
    eexists _, _. split; [exact Ep|]. split; [done|]. intros _. exists p. split; [done|]. split; try done.
    + rewrite El, <- Hh2. exact Hg.
    + cbn [writes]. rewrite Hw, El, Hw2. by rewrite <- app_assoc.
    + by eapply parts_inv.
  - destruct (allocate_flexible_ok b2 Ev) as (r & b3 & E & Hw & Hno & Hyes). rewrite (bind_step _ _ _ _ _ E).
    destruct (decide (no_memory (hal b2))) as [Hm|Hm].
    { rewrite Hno by done. by eexists _, _. }
   
    destruct (Hyes Hm) as (p1 & v1 & p2 & v2 & -> & Hg & (? & ? & ? & ? & ? & ?) & (? & ? & ? & ? & ? & ?) & Hap & Hav).
    destruct (modern_ok p1 v1 p2 v2 idx ind ev b3 Ev) as (p & Ep & El & Hp & Hin); try done.
    eexists _, _. split; [exact Ep|]. split; [done|]. intros _. exists p. split; [done|]. split; try done.
    + rewrite El, <- Hh2. exact Hg.
    + cbn [writes]. rewrite Hw, El, Hw2. by rewrite <- app_assoc.
    + by eapply parts_inv.
Qed.

Lemma queue_setup idx ind ev (b : board H) :
  ∃ r b', VirtQueue_new answer t SIZE idx ind ev b = Done (r, b') ∧
    (in_use (writes b) idx → r = inl AlreadyUsed) ∧
    (¬ in_use (writes b) idx → greatest (writes b) idx < SIZE → r = inl InvalidParam) ∧
    (¬ in_use (writes b) idx → SIZE ≤ greatest (writes b) idx → no_memory (hal b) → r = inl DmaError) ∧
    (¬ in_use (writes b) idx → SIZE ≤ greatest (writes b) idx → ¬ no_memory (hal b) → ∃ p, r = inr p ∧ queue_ok idx ind ev b p b').
Proof.
  unfold VirtQueue_new. set (b1 := mkBoard (writes b ++ [(queue_sel, idx)]) (hal b)). set (b2 := mkBoard (writes b1 ++ [(queue_sel, idx)]) (hal b)).
  assert (∃ u, queue_used answer t idx b = Done (u, b1) ∧ (u = true ↔ in_use (writes b) idx)) as (u & Eu & Hu).
  { unfold queue_used, in_use. destruct (mmio_version t); eexists; (split; [reflexivity|]); rewrite negb_true_iff; apply Z.eqb_neq. }
  rewrite (bind_step _ _ _ _ _ Eu). destruct u.
  { eexists _, _. split; [done|]. assert (in_use (writes b) idx) by tauto. by split_and!. }
  assert (¬ in_use (writes b) idx) as Hn by (intros ?%Hu; done).
  assert (writes b2 = writes b ++ [(queue_sel, idx); (queue_sel, idx)]) as Hw2 by (cbn; by rewrite <- app_assoc).
  assert (max_queue_size answer idx b1 = Done (greatest (writes b) idx, b2)) as En by (unfold greatest; rewrite <- Hw2; reflexivity).
  rewrite (bind_step _ _ _ _ _ En). destruct (Z.ltb_spec (greatest (writes b) idx) SIZE) as [Hlt|Hge].
  { eexists _, _. split; [done|]. split_and!; try done; lia. }
  destruct (queue_layout idx ind ev b b2 Hw2 eq_refl) as (r & b' & E & Hno & Hyes). exists r, b'. split; [exact E|].
  split_and!; try done; [lia|auto..].
Qed.

Lemma queue_setup_cases idx ind ev (b : board H) :
  ∃ r b', VirtQueue_new answer t SIZE idx ind ev b = Done (r, b') ∧
    match r with inl e => e = AlreadyUsed ∨ e = InvalidParam ∨ e = DmaError | inr p => queue_ok idx ind ev b p b' end.
Proof.
  destruct (queue_setup idx ind ev b) as (r & b' & E & Hu & Hi & Hd & Hok). exists r, b'. split; [done|].
  destruct (decide (in_use (writes b) idx)) as [Hin|Hin]; [rewrite Hu by done; by left|].
  destruct (decide (SIZE ≤ greatest (writes b) idx)); [|rewrite Hi by (done || lia); by right; left].
  destruct (decide (no_memory (hal b))) as [Hm|Hm]; [rewrite Hd by done; by right; right|]. by destruct Hok as (p & -> & ?).
Qed.

(** C27. [VirtQueue::new] on a device in memory, legacy or modern, whatever the
    device shows in its registers. It does not panic, in particular the
    assertions of [queue_set] on the layout hold. It answers [AlreadyUsed]
    exactly when the device shows the queue in use, otherwise [InvalidParam]
    exactly when the size that the device shows is less than that of the queue,
    otherwise [DmaError] exactly when the [Hal] has no memory. In all other
    cases there is a queue: its regions are those that [dma_alloc] handed out;
    the descriptor table, the available ring and the used ring are aligned, lie
    inside of these regions and do not overlap, in physical and in virtual
    addresses; the device was told where they are; and all descriptors are
    free. For a legacy device the [Hal] is taken to allocate below 2^44, which
    its documentation does not ask for, and which one of the assertions needs. *)
Theorem virtqueue_new_ok idx ind ev (b : board H) :
  ∃ r b', VirtQueue_new answer t SIZE idx ind ev b = Done (r, b') ∧
    (in_use (writes b) idx → r = inl AlreadyUsed) ∧
    (¬ in_use (writes b) idx → greatest (writes b) idx < SIZE → r = inl InvalidParam) ∧
    (¬ in_use (writes b) idx → SIZE ≤ greatest (writes b) idx → no_memory (hal b) → r = inl DmaError) ∧
    (¬ in_use (writes b) idx → SIZE ≤ greatest (writes b) idx → ¬ no_memory (hal b) → ∃ p, r = inr p ∧ queue_ok idx ind ev b p b').
Proof. apply queue_setup. Qed.

End setup.

(** ** Setting up the block driver *)

Section blk.
Context {H : Type} `{DmaHal H} (Hdma : dma_laws) (answer : list (reg * Z) → reg → Z) (t : MmioTransport) (Hreach : page_reach t).

(** The features that the device offers after the writes [w]. *)
Definition offered (w : list (reg * Z)) : Z :=
  let w := w ++ [(status, 0); (status, 3); (device_features_sel, 0)] in
  answer w device_features ⊞ wshl 64 (answer (w ++ [(device_features_sel, 1)]) device_features) 32.

Definition negotiated (w : list (reg * Z)) : Z := Z.land (Z.land (offered w) ALL_FEATURES) SUPPORTED_FEATURES.

(** The writes of [begin_init]. *)
Definition begin_log (f : Z) : list (reg * Z) :=
  [(status, 0); (status, 3); (device_features_sel, 0); (device_features_sel, 1); (driver_features_sel, 0); (driver_features, wrap 32 f);
   (driver_features_sel, 1); (driver_features, wrap 32 (Z.shiftr f 32)); (status, 11)] ++
  match mmio_version t with Legacy => [(legacy_guest_page_size, 4096)] | Modern => [] end.

Lemma begin_init_ok (b : board H) :
  begin_init answer t ALL_FEATURES SUPPORTED_FEATURES b =
  Done (negotiated (writes b), mkBoard (writes b ++ begin_log (negotiated (writes b))) (hal b)).
Proof.
  unfold begin_init, read_device_features, write_driver_features, set_status, set_guest_page_size, negotiated, offered, begin_log.
  erewrite bind_step by reflexivity. erewrite bind_step by reflexivity. erewrite bind_step by (repeat (erewrite bind_step by reflexivity); reflexivity).
  cbn [writes hal]. rewrite <- !app_assoc. cbn [app]. set (f := Z.land _ SUPPORTED_FEATURES).
  erewrite bind_step by (repeat (erewrite bind_step by reflexivity); reflexivity). erewrite bind_step by reflexivity.
  destruct (mmio_version t); (erewrite bind_step by reflexivity); unfold mret, st_ret, volwrite, st_modify; cbn [writes hal]; rewrite <- !app_assoc; reflexivity.
Qed.

Lemma read_config_ok off (b : board H) :
  off mod 4 = 0 →
  read_config_u32 answer t off b = Done (if config_space_size t <? off + 4 then inl ConfigSpaceTooSmall else inr (answer (writes b) (config off)), b).
Proof.
  intros Ho. unfold read_config_u32. rewrite (proj2 (Z.eqb_eq _ _) Ho). erewrite bind_step by reflexivity. by destruct (config_space_size t <? off + 4).
Qed.

(** C26. [VirtIOBlk::new] follows the sequence of VirtIO for setting up a device.
    With any device whose configuration does not change meanwhile, it does not
    panic, and when it returns a driver, the registers were written in this
    order: reset, acknowledge, the features, which are those that the device
    offers and the driver supports, then the bit that fixes them, the addresses
    of the queue, and last the bit that starts the device; the capacity is that
    of the configuration, and the queue is ready for requests. When it fails,
    the last write resets the device. For a legacy device the [Hal] is taken to
    allocate below 2^44, which its documentation does not ask for. *)
Theorem blk_new_ok fuel (b : board H) g c0 c1 :
  (∀ w, answer w config_generation = g) → (∀ w, answer w (config 0) = c0) → (∀ w, answer w (config 4) = c1) →
  let f := negotiated (writes b) in
  ∃ r b', VirtIOBlk_new answer t (S fuel) b = Done (r, b') ∧
    match r with
    | inl e => last (writes b') = Some (status, 0) ∧ (e = ConfigSpaceTooSmall ∨ e = AlreadyUsed ∨ e = InvalidParam ∨ e = DmaError)
    | inr (d, p) =>
        d = mkBlk (Z.lor c0 (wshl 64 c1 32)) f ∧ Z.land f (offered (writes b)) = f ∧ Z.land f SUPPORTED_FEATURES = f ∧
        writes b' = writes b ++ begin_log f ++ [(queue_sel, 0); (queue_sel, 0)] ++ set_log t 4 0 (np_layout p) ++ [(status, 15)] ∧
        parts_ok 4 0 (contains f RING_INDIRECT_DESC) (contains f RING_EVENT_IDX) p
    end.
Proof.
  intros Hg H0' H1' f. unfold VirtIOBlk_new. rewrite (bind_step _ _ _ _ _ (begin_init_ok b)). fold f. set (b1 := mkBoard _ _).
  assert (∃ c, read_consistent answer (S fuel) (read_capacity answer t) b1 = Done (c, b1) ∧
    (c = inl ConfigSpaceTooSmall ∨ c = inr (Z.lor c0 (wshl 64 c1 32)))) as (c & Ec & Hc).
  { unfold read_consistent. cbn [loop].
    assert (∃ c, read_capacity answer t b1 = Done (c, b1) ∧ (c = inl ConfigSpaceTooSmall ∨ c = inr (Z.lor c0 (wshl 64 c1 32)))) as (c & Er & Hc).
    { unfold read_capacity. rewrite (bind_step _ _ _ _ _ (read_config_ok 0 b1 eq_refl)). destruct (config_space_size t <? 0 + 4); [by eexists; split; [|left]|].
      rewrite (bind_step _ _ _ _ _ (read_config_ok 4 b1 eq_refl)). destruct (config_space_size t <? 4 + 4); [by eexists; split; [|left]|].
      eexists. split; [done|]. right. by rewrite H0', H1'. }
    exists c. split; [|done]. erewrite bind_step; [|erewrite bind_step by reflexivity; rewrite (bind_step _ _ _ _ _ Er); erewrite bind_step by reflexivity;
      rewrite !Hg, Z.eqb_refl; reflexivity]. done. }
  rewrite (bind_step _ _ _ _ _ Ec). destruct Hc as [->| ->].
  { eexists _, _. split; [erewrite bind_step by reflexivity; reflexivity|]. split; [apply last_snoc|by left]. }
  destruct (queue_setup_cases Hdma answer t Hreach 4 ltac:(lia) 0 (contains f RING_INDIRECT_DESC) (contains f RING_EVENT_IDX) b1) as (r & b2 & Eq & Hr).
  change (2 ^ 4) with QUEUE_SIZE in Eq. change QUEUE with 0. rewrite (bind_step _ _ _ _ _ Eq). destruct r as [e|p].
  { eexists _, _. split; [erewrite bind_step by reflexivity; reflexivity|]. split; [apply last_snoc|by right]. }
  destruct Hr as [Hp _ _ Hw _]. eexists _, _. split; [erewrite bind_step by reflexivity; reflexivity|]. split_and!; try done.
  - unfold f, negotiated. apply Z.bits_inj'. intros n _. rewrite !Z.land_spec. by destruct (Z.testbit (offered (writes b)) n); rewrite ?andb_false_r, ?andb_true_r.
  - unfold f, negotiated. rewrite <- Z.land_assoc. by rewrite Z.land_diag.
  - cbn [writes]. rewrite Hw. cbn [b1 writes]. by rewrite <- !app_assoc.
Qed.
End blk.

(** ** Witnesses: memory from 0x80600000 on, a legacy and a modern device *)

#[local] Instance wit_dma : DmaHal Z := {
  dma_alloc n _ h :=
    if bool_decide (0 < n ∧ 0 < h ∧ h mod 4096 = 0 ∧ h + n * 4096 ≤ 2 ^ 44) then ((h, h), h + n * 4096) else ((0, 0), h);
  dma_dealloc _ _ _ h := (0, h);
}.

Lemma wit_dma_laws : @dma_laws Z wit_dma.
Proof.
  split; cbn.
  - intros n _ h pa va h' E Hne. case_bool_decide as Hc; [|injection E as <- _ _; done]. injection E as <- <- _. lia.
  - intros n1 _ h1 p1 v1 h2 n2 _ p2 v2 h3 E1 E2 Hp1 Hp2. do 2 case_bool_decide; try (by injection E1 as <-); try (by injection E2 as <-).
    injection E1 as <- <- <-. injection E2 as <- <- _. unfold apart. lia.
  - done.
Qed.

#[local] Instance reg_eq : EqDecision reg.
Proof. solve_decision. Defined.

(** A device with indirect descriptors and 64 sectors. *)
Definition wit_answer (w : list (reg * Z)) (r : reg) : Z :=
  match r with
  | queue_num_max => 1024
  | device_features => if decide (last w = Some (device_features_sel, 0)) then 2 ^ 28 + 1 else 1
  | config 0 => 64
  | _ => 0
  end.

Lemma wit_page_reach t : @page_reach Z wit_dma t.
Proof. intros n dir h pa va h' _ E Hne. cbn in E. case_bool_decide as Hc; injection E as <- _ _; [lia|done]. Qed.

Lemma virtqueue_new_ok_witness :
  (∃ p b', VirtQueue_new wit_answer (mkMmio Legacy 0) (2 ^ 8) 1 true false (mkBoard [] 0x80600000) = Done (inr p, b') ∧
     np_desc p = 0x80600000 ∧ np_avail p = 0x80601000 ∧ np_used p = 0x80602000 ∧ parts_ok 8 1 true false p ∧ inside 8 p) ∧
  (∃ b', VirtQueue_new wit_answer (mkMmio Modern 0) (2 ^ 11) 1 true false (mkBoard [] 0x80600000) = Done (inl InvalidParam, b')).
Proof.
  split.
  - destruct (virtqueue_new_ok wit_dma_laws wit_answer (mkMmio Legacy 0) (wit_page_reach _) 8 ltac:(lia) 1 true false (mkBoard [] 0x80600000))
      as (r & b' & E & _ & _ & _ & Hok).
    destruct Hok as (p & -> & [Hp _ Hi _ _]); [unfold in_use; cbn; lia|vm_compute; discriminate|vm_compute; discriminate|].
    assert (np_desc p = 0x80600000 ∧ np_avail p = 0x80601000 ∧ np_used p = 0x80602000) as (? & ? & ?) by (vm_compute in E; injection E as <- _; by split_and!).
    exists p, b'. by split_and!.
  - destruct (virtqueue_new_ok wit_dma_laws wit_answer (mkMmio Modern 0) (wit_page_reach _) 11 ltac:(lia) 1 true false (mkBoard [] 0x80600000))
      as (r & b' & E & _ & Hi & _). exists b'. rewrite E, Hi; [reflexivity|unfold in_use; cbn; lia|vm_compute; reflexivity].
Defined.

Lemma blk_new_ok_witness :
  ∃ d p b', VirtIOBlk_new wit_answer (mkMmio Modern 0x100) 1 (mkBoard [] 0x80600000) = Done (inr (d, p), b') ∧
    d = mkBlk 64 (2 ^ 28) ∧ list.last (writes b') = Some (status, 15) ∧ parts_ok 4 0 true false p.
Proof.
  destruct (blk_new_ok wit_dma_laws wit_answer (mkMmio Modern 0x100) (wit_page_reach _) 0 (mkBoard [] 0x80600000) 0 64 0) as (r & b' & E & Hr); [reflexivity..|].
  assert (∃ d p, r = inr (d, p) ∧ d = mkBlk 64 (2 ^ 28) ∧ list.last (writes b') = Some (status, 15)) as (d & p & -> & Hd).
  { destruct r as [e|[d p]]; [vm_compute in E; discriminate|]. exists d, p. vm_compute in E. injection E as <- _ <-. split; [reflexivity|]. by split. }
  exists d, p, b'. destruct Hd as [? ?], Hr as (_ & _ & _ & _ & Hp). split_and!; [exact E|assumption|assumption|exact Hp].
Defined.
