(* ===== verification/VirtOwning.v ===== *)
(** * A queue that owns its buffers

    [OwningQueue] of dependencies/virtio-drivers/src/queue/owning.rs: a buffer
    for every descriptor, all of them with the device, except for the one that
    is being handled. The token of a buffer is its index. *)

From S2P Require Import Prelude PhysMem VirtQueue VirtRefine VirtDevice.

Section ops.
Context {X : Type}.
Abbreviation M := (pmem * X)%type.
Abbreviation S := (ST (world M)).
Context `{Hal M}.
Variables SIZE BUFFER_SIZE : Z.
Variable new_box : gmap Z (list Descriptor) → Z → Z.
(** [FromZeros::new_box_zeroed] for a buffer. *)
Variable new_box_zeroed : M → option Z * M.
(** What the transport and the device do when they are notified. *)
Variable notify : Z → S unit.

Definition new_body (acc : result (list Z)) (i : nat) : S (result (list Z)) :=
  match acc with
  | inl e => mret (inl e)
  | inr buffers =>
      o ← on_memory new_box_zeroed;
      buffer ← unwrap o;
      r ← add SIZE new_box [] [(buffer, BUFFER_SIZE)];
      match r with
      | inl e => mret (inl e)
      | inr token => rassert (Z.of_nat i =? token);; mret (inr (<[i := buffer]> buffers))
      end
  end.

Definition OwningQueue_new : S (result (list Z)) :=
  r ← for_fold (seq 0 (Z.to_nat SIZE)) (inr (replicate (Z.to_nat SIZE) 0)) new_body;
  match r with
  | inl e => mret (inl e)
  | inr buffers => rassert (forallb (λ ptr, negb (ptr =? 0)) buffers);; mret (inr buffers)
  end.

(** The buffers do not change once the queue is made. *)
Variable buffers : list Z.

Definition add_buffer_to_queue (index : Z) : S (result unit) :=
  match buffers !! Z.to_nat index with
  | None => mret (inl WrongToken)
  | Some buffer =>
      r ← add SIZE new_box [] [(buffer, BUFFER_SIZE)];
      match r with
      | inl e => mret (inl e)
      | inr new_token =>
          rassert (new_token =? index);;
          b ← should_notify;
          q ← st_gets vq;
          (if b : bool then notify (queue_idx q) else mret tt);;
          mret (inr tt)
      end
  end.

(** The bytes that the device wrote, and the token of their buffer. *)
Definition owning_pop : S (result (option (list Z * Z))) :=
  o ← peek_used SIZE;
  match o with
  | None => mret (inr None)
  | Some token =>
      buffer ← unwrap (buffers !! Z.to_nat token);
      r ← pop_used SIZE token [] [(buffer, BUFFER_SIZE)];
      match r with
      | inl e => mret (inl e)
      | inr len =>
          rassert (len <=? BUFFER_SIZE);;
          bs ← read_at buffer len;
          mret (inr (Some (bs, token)))
      end
  end.

(** The handler may change what it has captured. *)
Definition poll {T} (handler : list Z → M → result (option T) * M) : S (result (option T)) :=
  r ← owning_pop;
  match r with
  | inl e => mret (inl e)
  | inr None => mret (inr None)
  | inr (Some (buffer, token)) =>
      result ← on_memory (handler buffer);
      a ← add_buffer_to_queue token;
      match a with
      | inl e => mret (inl e)
      | inr _ => mret result
      end
  end.
End ops.

(** ** All buffers are with the device *)

Section owning.
Context {X : Type}.
Abbreviation M := (pmem * X)%type.
Abbreviation S := (ST (world M)).
Context (k : Z) (SIZE_OK : 0 ≤ k ≤ 15).
Context (BUFFER_SIZE : Z) (BUFFER_OK : 0 < BUFFER_SIZE < 2 ^ 32).
Context (new_box : gmap Z (list Descriptor) → Z → Z).
Context (new_box_zeroed : M → option Z * M).
Hypothesis new_box_zeroed_some : ∀ m, ∃ a m', new_box_zeroed m = (Some a, m') ∧ a ≠ 0 ∧ fits 64 a.
Implicit Types s : world M.

#[local] Instance hal_owning : Hal M := HalImpl M.
Abbreviation SIZE := (2 ^ k).
(** A notification lets the device work, and returns. *)
Context (notify : Z → S unit).
Hypothesis notify_returns : ∀ i s, ∃ s', notify i s = Done (tt, s') ∧ device_may s s'.

(** The table [tbl] has the buffer [b] at [i]: one descriptor with its address
    and its size, which the device writes. *)
Definition lent (tbl : list Descriptor) (i : nat) (b : Z) : Prop := ∃ e, tbl !! i = Some (mkDesc b BUFFER_SIZE WRITE e).

(** The request of the buffer with the index [i]. *)
Definition owned (buffers : list Z) (c : chain) : Prop :=
  ∃ i b, ch_ids c = [i] ∧ ch_ins c = [] ∧ ch_outs c = [(b, BUFFER_SIZE)] ∧ buffers !! i = Some b ∧
    ch_box c = None ∧ ch_pas c = [b] ∧ fits 64 b.

Lemma with_memory_inv m s F C : vq_inv k s F C → vq_inv k (with_memory m s) F C.
Proof. intros []. by split. Qed.

(** The buffer [b] went to the device: it is in the table, and next in the
    available ring. *)
Record added s (i : nat) (b : Z) s' : Prop := {
  ad_lent : lent (desc s') i b;
  ad_other j : j ≠ i → desc s' !! j = desc s !! j;
  ad_ring : av_ring (avail s') = <[slot k (avail_idx (vq s)) := Z.of_nat i]> (av_ring (avail s));
  ad_idx : av_idx (avail s') = wadd 16 (avail_idx (vq s)) 1;
  ad_avail : avail_idx (vq s') = wadd 16 (avail_idx (vq s)) 1;
  ad_memory : memory s' = memory s;
  ad_used : used s' = used s;
  ad_last : last_used_idx (vq s') = last_used_idx (vq s);
}.

Lemma one_closed b (i : nat) e : close_last (open_chain (InputOutputIter [] [(b, BUFFER_SIZE)]) [b] [i] e) = [mkDesc (wrap 64 b) BUFFER_SIZE WRITE e].
Proof. reflexivity. Qed.

(** Adding one buffer takes the first free descriptor. *)
Lemma add_one s i F C b :
  vq_inv k s (i :: F) C → fits 64 b →
  ∃ s' c, add SIZE new_box [] [(b, BUFFER_SIZE)] s = Done (inr (Z.of_nat i), s') ∧ vq_inv k s' F (c :: C) ∧ added s i b s' ∧
    ch_ids c = [i] ∧ ch_ins c = [] ∧ ch_outs c = [(b, BUFFER_SIZE)] ∧ ch_box c = None ∧ ch_pas c = [b].
Proof.
  intros Hi Hb. pose proof (vi_count _ _ _ _ Hi) as Hcnt. cbn [length] in Hcnt. pose proof (SIZE_bound k SIZE_OK).
  destruct (add_direct_keeps k SIZE_OK s (i :: F) C [] [(b, BUFFER_SIZE)] Hi)
    as (s1 & F' & c & E & Hi' & [] & Hin & Hout & Hbox & Hpas & (e & Hd) & Hav & Hus & _ & Hm & Hids & -> & Hoth);
    [done|apply Forall_singleton; by split|cbn; lia|]. cbn in Hids, Hm, Hpas.
  assert (token c = Z.of_nat i) as Ht by (unfold token; by rewrite Hids). rewrite Ht in E.
  exists (published k (Z.of_nat i) s1), c. split.
  { eapply add_run; [done|done| |rewrite andb_false_r; exact E|exact Hi']. split_and!; cbn; lia. }
  split; [by apply published_inv|]. split_and!; try done. rewrite Hids, Hpas in Hd. unfold virt_to_phys in Hd.
  rewrite one_closed in Hd. apply Forall2_cons in Hd as [Hd _]. rewrite wrap_small in Hd by done. split; cbn; rewrite ?Hav; try congruence.
  - by exists e.
  - intros j Hj. apply Hoth. rewrite Hids. by intros ->%list_elem_of_singleton.
Qed.

(** ** A new queue *)

(** The first [i] buffers are with the device. *)
Record filled s (i : nat) (buffers : list Z) : Prop := {
  fl_lent j b : take i buffers !! j = Some b → lent (desc s) j b ∧ av_ring (avail s) !! j = Some (Z.of_nat j);
  fl_avail : avail_idx (vq s) = Z.of_nat i;
  fl_idx : i ≠ 0%nat → av_idx (avail s) = Z.of_nat i;
}.

Lemma filled_next s s' i buffers b :
  (i < length buffers)%nat → (i < length (av_ring (avail s)))%nat → Z.of_nat i < SIZE → added s i b s' → filled s i buffers →
  filled s' (Datatypes.S i) (<[i := b]> buffers).
Proof.
  intros Hl Hlr Hs [] [Hf Ha _]. pose proof (SIZE_bound k SIZE_OK).
  assert (wadd 16 (avail_idx (vq s)) 1 = Z.of_nat (Datatypes.S i)) as Hw by (rewrite Ha, wadd_small by (unfold fits; lia); lia).
  assert (slot k (avail_idx (vq s)) = i) as Hsl.
  { unfold slot. rewrite Ha, (land_ones_mod _ k), Z.mod_small by lia. lia. }
  split; [|congruence|congruence]. intros j x Hj. rewrite ad_ring0, Hsl.
  rewrite (take_S_r _ _ b) in Hj by (apply list_lookup_insert_eq; lia). rewrite take_insert_ge in Hj by lia.
  destruct (decide (j = i)) as [->|Hji].
  - rewrite list_lookup_insert_eq by done. split; [|done]. rewrite lookup_app_r in Hj by (rewrite length_take; lia).
    replace (i - length (take i buffers))%nat with 0%nat in Hj by (rewrite length_take; lia). by injection Hj as <-.
  - rewrite list_lookup_insert_ne by done. destruct (Hf j x) as [[e He] ?].
    + apply lookup_app_Some in Hj as [?|[Hge Hj]]; [done|]. rewrite length_take in *. apply list_lookup_singleton_Some in Hj as [? _]. lia.
    + split; [|done]. exists e. by rewrite ad_other0.
Qed.

Lemma new_body_ok s i n C buffers :
  length buffers = Z.to_nat SIZE → (i + n)%nat = Z.to_nat SIZE → vq_inv k s (seq i n) C → Forall (owned (take i buffers)) C →
  Forall (λ a, a ≠ 0) (take i buffers) → filled s i buffers →
  ∃ s' C' buffers', for_fold (seq i n) (inr buffers) (new_body SIZE BUFFER_SIZE new_box new_box_zeroed) s = Done (inr buffers', s') ∧
    length buffers' = Z.to_nat SIZE ∧ vq_inv k s' [] C' ∧ Forall (owned buffers') C' ∧ Forall (λ a, a ≠ 0) buffers' ∧
    filled s' (Z.to_nat SIZE) buffers'.
Proof.
  revert s i C buffers. induction n as [|n IH]; intros s i C buffers Hl Hn Hi Ho Hz Hfl.
  { exists s, C, buffers. rewrite take_ge in Ho, Hz by lia. split_and!; try done. by replace (Z.to_nat SIZE) with i by lia. }
  destruct (new_box_zeroed_some (memory s)) as (a & m & Ea & Hne & Hfit).
  destruct (add_one (with_memory m s) i (seq (Datatypes.S i) n) C a (with_memory_inv m _ _ _ Hi) Hfit) as (s1 & c & E & Hi1 & Had & Hids & Hin & Hout & Hbox & Hpas).
  assert (take (Datatypes.S i) (<[i := a]> buffers) = take i buffers ++ [a]) as Et.
  { rewrite (take_S_r _ _ a) by (apply list_lookup_insert_eq; lia). by rewrite take_insert_ge. }
  pose proof (vi_avail _ _ _ _ Hi) as Hav. pose proof (SIZE_bound k SIZE_OK).
  destruct (IH s1 (Datatypes.S i) (c :: C) (<[i := a]> buffers)) as (s' & C' & buffers' & E' & ?); [by rewrite length_insert|lia|done| | | |].
  - rewrite Et. constructor.
    + exists i, a. split_and!; try done. rewrite lookup_app_r; rewrite length_take; [|lia]. by replace (i - _)%nat with 0%nat by lia.
    + eapply Forall_impl; [exact Ho|]. intros c' (j & b & ? & ? & ? & Hb & ? & ? & ?). exists j, b. split_and!; try done. by apply lookup_app_l_Some.
  - rewrite Et. apply Forall_app. split; [done|]. by constructor.
  - apply (filled_next (with_memory m s)); try done; [lia|cbn; lia|lia|]. by destruct Hfl.
  - exists s', C', buffers'. split; [|done]. cbn [seq for_fold]. erewrite bind_step; [exact E'|]. unfold new_body at 1.
    erewrite bind_step by (unfold on_memory; rewrite Ea; reflexivity). erewrite bind_step by reflexivity.
    rewrite (bind_step _ _ _ _ _ E), Z.eqb_refl. by erewrite bind_step by reflexivity.
Qed.

(** The queue and its buffers between two calls of [poll]. *)
Record owns s (buffers : list Z) : Prop := {
  ow_buffers : length buffers = Z.to_nat SIZE;
  ow_queue : ∃ C, vq_inv k s [] C ∧ Forall (owned buffers) C;
}.

Lemma new_ok s : new_queue k s →
  ∃ s' buffers, OwningQueue_new SIZE BUFFER_SIZE new_box new_box_zeroed s = Done (inr buffers, s') ∧ owns s' buffers ∧
    av_idx (avail s') = SIZE ∧ ∀ i b, buffers !! i = Some b → lent (desc s') i b ∧ av_ring (avail s') !! i = Some (Z.of_nat i).
Proof.
  intros Hnq. pose proof (new_queue_inv k SIZE_OK s Hnq) as Hn. pose proof (SIZE_bound k SIZE_OK). set (n := Z.to_nat SIZE) in *.
  destruct (new_body_ok s 0 n [] (replicate n 0)) as (s' & C & buffers & E & Hl & Hi & Ho & Hz & [Hf _ Hx]);
    [apply length_replicate|done|done|constructor|constructor| |].
  { destruct Hnq as [(? & ? & ? & Eq) _ _ _]. split; [done|by rewrite Eq|done]. }
  exists s', buffers. fold n in Hf, Hx. rewrite take_ge in Hf by lia. split; [|split; [by split; [|exists C]|split; [rewrite Hx; lia|exact Hf]]]. unfold OwningQueue_new. fold n. rewrite (bind_step _ _ _ _ _ E).
  assert (forallb (λ ptr, negb (ptr =? 0)) buffers = true) as ->; [|by erewrite bind_step by reflexivity].
  apply forallb_forall. intros a Ha. rewrite Forall_forall in Hz. apply negb_true_iff, Z.eqb_neq, Hz. by apply list_elem_of_In.
Qed.

Lemma owns_device s s' buffers : device_may s s' → owns s buffers → owns s' buffers.
Proof. intros Hd [Hl (C & Hi & Ho)]. split; [done|]. exists C. split; [by eapply device_keeps|done]. Qed.

(** ** A buffer comes back *)

(** The request of the token [i] among all of them. *)
Lemma owns_split s buffers C i : vq_inv k s [] C → Forall (owned buffers) C → (i < Z.to_nat SIZE)%nat →
  ∃ C1 c C2 b, C = C1 ++ c :: C2 ∧ ch_ids c = [i] ∧ ch_ins c = [] ∧ ch_outs c = [(b, BUFFER_SIZE)] ∧ buffers !! i = Some b ∧
    ch_box c = None ∧ ch_pas c = [b] ∧ fits 64 b.
Proof.
  intros Hi Ho Hlt. assert (i ∈ ids_of C) as Hx.
  { change (i ∈ [] ++ ids_of C). rewrite (vi_parts _ _ _ _ Hi). apply elem_of_seq. pose proof (vi_shadow _ _ _ _ Hi). lia. }
  unfold ids_of in Hx. apply list_elem_of_In, in_concat in Hx as (ids & Hx & Hii%list_elem_of_In). apply list_elem_of_In, list_elem_of_fmap in Hx as (c & -> & Hc).
  rewrite Forall_forall in Ho. destruct (Ho c Hc) as (j & b & Hids & Hin & Hout & Hb & Hr). rewrite Hids in Hii. apply list_elem_of_singleton in Hii as ->.
  apply list_elem_of_split in Hc as (C1 & C2 & ->). by exists C1, c, C2, b.
Qed.

(** The driver's copy of the table, which the device cannot reach. *)
Lemma owns_lent s buffers i b : owns s buffers → buffers !! i = Some b → lent (desc_shadow (vq s)) i b.
Proof.
  intros [Hl (C & Hi & Ho)] Hb. pose proof (lookup_lt_Some _ _ _ Hb).
  destruct (owns_split s buffers C i Hi Ho ltac:(lia)) as (C1 & c & C2 & b' & -> & Hids & Hin & Hout & Hb' & Hbox & Hpas & Hf). simplify_eq.
  pose proof (vi_chains _ _ _ _ Hi) as Hc. apply Forall_app in Hc as [_ Hc]. apply Forall_cons in Hc as [(_ & _ & _ & Hc) _].
  rewrite Hbox in Hc. destruct Hc as (_ & _ & e & Hd). unfold ch_items in Hd. rewrite Hids, Hpas, Hin, Hout, one_closed in Hd.
  apply Forall2_cons in Hd as [Hd _]. rewrite wrap_small in Hd by done. by exists e.
Qed.

Lemma peek_ok s F C : vq_inv k s F C → peek_used SIZE s = Done ((λ e, wrap 16 (ue_id e)) <$> next_element k s, s).
Proof.
  intros Hi. unfold peek_used, next_element. rewrite (bind_step _ _ _ _ _ (can_pop_ok s)). destruct (_ =? _); [done|]. cbn [negb].
  pose proof (slot_bound k SIZE_OK _ (vi_last _ _ _ _ Hi)) as Hs. pose proof (vi_used _ _ _ _ Hi) as Hu. pose proof (SIZE_bound k SIZE_OK).
  destruct (lookup_lt_is_Some_2 (us_ring (used s)) (slot k (last_used_idx (vq s)))) as [e He]; [unfold slot; lia|].
  erewrite bind_step by (unfold next_used; repeat (erewrite bind_step by reflexivity); fold (slot k (last_used_idx (vq s))); rewrite He; reflexivity).
  by rewrite He.
Qed.

(** What a turn of [poll] gets from the device. *)
Lemma owning_pop_ok s buffers : owns s buffers →
  match next_element k s with
  | None => owning_pop SIZE BUFFER_SIZE buffers s = Done (inr None, s)
  | Some e =>
      let t := wrap 16 (ue_id e) in
      if decide (t < SIZE ∧ ue_len e ≤ BUFFER_SIZE) then
        ∃ s' b C, buffers !! Z.to_nat t = Some b ∧ fits 64 b ∧ avail_idx (vq s') = avail_idx (vq s) ∧
          owning_pop SIZE BUFFER_SIZE buffers s = Done (inr (Some (rd_bytes (memory s).1 b (ue_len e), t)), s') ∧
          vq_inv k s' [Z.to_nat t] C ∧ Forall (owned buffers) C ∧ memory s' = memory s
      else owning_pop SIZE BUFFER_SIZE buffers s = Panic
  end.
Proof.
  intros [Hl (C & Hi & Ho)]. unfold owning_pop. rewrite (bind_step _ _ _ _ _ (peek_ok s _ _ Hi)).
  destruct (next_element k s) as [e|] eqn:En; [|done]. cbn [fmap option_fmap option_map]. set (t := wrap 16 (ue_id e)).
  assert (0 ≤ t) as Ht by (apply Z.mod_pos_bound; lia). destruct (decide (t < SIZE)) as [Hlt|Hge].
  2: { rewrite decide_False by tauto. rewrite lookup_ge_None_2 by lia. done. }
  destruct (owns_split s buffers C (Z.to_nat t) Hi Ho ltac:(lia)) as (C1 & c & C2 & b & -> & Hids & Hin & Hout & Hb & _ & _ & Hfit).
  rewrite Hb. erewrite bind_step by reflexivity. assert (token c = t) as Htc by (unfold token; rewrite Hids; cbn; lia).
  pose proof (pop_keeps k SIZE_OK s [] C1 C2 c Hi) as Hp. rewrite En, Htc, Hin, Hout in Hp. fold t in Hp. rewrite decide_True in Hp by done.
  destruct Hp as (s' & E & Hi' & Hpp). rewrite (bind_step _ _ _ _ _ E). rewrite Hids in Hi'. pose proof (pp_memory _ _ _ Hpp ltac:(done)) as Hm.
  destruct (decide (ue_len e ≤ BUFFER_SIZE)) as [Hle|Hgt].
  - rewrite decide_True by done. exists s', b, (C1 ++ C2). rewrite (proj2 (Z.leb_le _ _) Hle). repeat (erewrite bind_step by reflexivity). rewrite Hm.
    split_and!; try done; [apply Hpp|]. apply Forall_app in Ho as [? Ho]. apply Forall_cons in Ho as [_ ?]. by apply Forall_app.
  - rewrite decide_False by tauto. by rewrite (proj2 (Z.leb_gt _ _)) by lia.
Qed.

(** The state [s1] is left as it is, or the device is notified in it. *)
Definition notified s1 s' : Prop := s' = s1 ∨ notify (queue_idx (vq s1)) s1 = Done (tt, s').

Lemma add_back_ok s buffers i b C :
  length buffers = Z.to_nat SIZE → vq_inv k s [i] C → Forall (owned buffers) C → buffers !! i = Some b → fits 64 b →
  ∃ s1 s', add_buffer_to_queue SIZE BUFFER_SIZE new_box notify buffers (Z.of_nat i) s = Done (inr tt, s') ∧ owns s' buffers ∧
    added s i b s1 ∧ notified s1 s'.
Proof.
  intros Hl Hi Ho Hb Hfit. destruct (add_one s i [] C b Hi Hfit) as (s1 & c & E & Hi1 & Had & Hids & Hin & Hout & Hbox & Hpas).
  assert (owns s1 buffers) as Hw by (split; [done|]; exists (c :: C); split; [done|]; constructor; [by exists i, b|done]). exists s1.
  unfold add_buffer_to_queue. rewrite Nat2Z.id, Hb, (bind_step _ _ _ _ _ E), Z.eqb_refl. erewrite bind_step by reflexivity.
  assert (∃ n, should_notify s1 = Done (n, s1)) as [n En] by (eexists; reflexivity). rewrite (bind_step _ _ _ _ _ En). erewrite bind_step by reflexivity.
  destruct n; [|exists s1; split; [by erewrite bind_step by reflexivity|]; split_and!; [done..|by left]].
  destruct (notify_returns (queue_idx (vq s1)) s1) as (s2 & Es & Hd). exists s2. rewrite (bind_step _ _ _ _ _ Es).
  split; [done|]. split_and!; [by eapply owns_device|done|by right].
Qed.

(** The buffer [b] with the token [t] is with the device in [s1], as [poll] from
    [s] left it: in the table, and as the last entry of the available ring, in
    the slot behind those that were filled before. *)
Record handed_back s (t : nat) (b : Z) s1 : Prop := {
  hb_lent : lent (desc s1) t b;
  hb_ring : av_ring (avail s1) !! slot k (avail_idx (vq s)) = Some (Z.of_nat t);
  hb_idx : av_idx (avail s1) = wadd 16 (avail_idx (vq s)) 1;
}.

(** The queue after any calls of [poll], with any device and any handlers. *)
Inductive running : world M → list Z → Prop :=
| run_new s buffers s' : new_queue k s → OwningQueue_new SIZE BUFFER_SIZE new_box new_box_zeroed s = Done (inr buffers, s') → running s' buffers
| run_poll s buffers T (handler : list Z → M → result (option T) * M) r s' :
    running s buffers → poll SIZE BUFFER_SIZE new_box notify buffers handler s = Done (r, s') → running s' buffers
| run_device s buffers s' : running s buffers → device_may s s' → running s' buffers.

Lemma poll_ok s buffers T (handler : list Z → M → result (option T) * M) : owns s buffers →
  match next_element k s with
  | None => poll SIZE BUFFER_SIZE new_box notify buffers handler s = Done (inr None, s)
  | Some e =>
      let t := wrap 16 (ue_id e) in
      if decide (t < SIZE ∧ ue_len e ≤ BUFFER_SIZE) then
        ∃ b s1 s', let '(r, m) := handler (rd_bytes (memory s).1 b (ue_len e)) (memory s) in
          buffers !! Z.to_nat t = Some b ∧ owns s' buffers ∧ handed_back s (Z.to_nat t) b s1 ∧ memory s1 = m ∧ notified s1 s' ∧
          poll SIZE BUFFER_SIZE new_box notify buffers handler s = Done (r, s')
      else poll SIZE BUFFER_SIZE new_box notify buffers handler s = Panic
  end.
Proof.
  intros Hw. pose proof (owning_pop_ok s buffers Hw) as Hp. unfold poll. destruct (next_element k s) as [e|]; [|by rewrite (bind_step _ _ _ _ _ Hp)].
  cbv zeta in *. case_decide as Hc; [|unfold mbind, st_bind in *; by rewrite Hp]. destruct Hp as (s1 & b & C & Hb & Hfit & Hidx & E & Hi & Ho & Hm).
  rewrite (bind_step _ _ _ _ _ E). set (bs := rd_bytes _ _ _) in *. exists b. fold bs. destruct (handler bs (memory s)) as [r m] eqn:Eh.
  erewrite bind_step by (unfold on_memory; rewrite Hm, Eh; reflexivity).
  destruct (add_back_ok (with_memory m s1) buffers (Z.to_nat (wrap 16 (ue_id e))) b C) as (s2 & s' & Ea & Hw' & [] & Hnot);
    [by destruct Hw|by apply with_memory_inv|exact Ho|exact Hb|exact Hfit|].
  rewrite Z2Nat.id in Ea by (apply Z.mod_pos_bound; lia). exists s2, s'. rewrite (bind_step _ _ _ _ _ Ea). cbn in ad_ring0, ad_idx0. rewrite Hidx in *.
  split_and!; try done. split; try done. rewrite ad_ring0. apply list_lookup_insert_eq.
  pose proof (vi_avail _ _ _ _ Hi). pose proof (slot_bound k SIZE_OK _ (vi_avail_idx _ _ _ _ Hi)) as Hs. rewrite Hidx in Hs. unfold slot. lia.
Qed.

Lemma running_owns s buffers : running s buffers → owns s buffers.
Proof.
  induction 1 as [s buffers s' Hn E|s buffers T h r s' _ IH E|s buffers s' _ IH Hd].
  - destruct (new_ok s Hn) as (s1 & b1 & E1 & Hw & _). rewrite E in E1. by injection E1 as -> ->.
  - pose proof (poll_ok s buffers T h IH) as Hp. destruct (next_element k s); [|rewrite E in Hp; by injection Hp as _ ->].
    cbv zeta in Hp. case_decide; [|congruence]. destruct Hp as (b & s1 & s2 & Hp). destruct (h _ _). destruct Hp as (_ & Hw & _ & _ & _ & E'). rewrite E in E'. by injection E' as _ ->.
  - by eapply owns_device.
Qed.

(** C29. A queue that owns its buffers keeps every buffer at the token that is
    its index. Making it succeeds; then every buffer is in the descriptor table
    at its token, with its address and its full size, for the device to write,
    and the available ring offers all of them. After any calls of [poll],
    whatever the device did to the shared areas, the driver's own copy of the
    table still has every buffer at its token, and the next [poll] returns
    nothing when the used ring is empty; when the ring has the token of a buffer
    and a length that fits, it returns what the handler says to that many bytes
    at the address of this buffer, and the buffer is with the device again: the
    table has it under the same token, and the available ring offers it next,
    before the device is notified, if it is. When the device gives a token or a
    length out of range, it panics. No other panic or error is possible. *)
Theorem owning_queue_ok :
  (∀ s, new_queue k s →
     ∃ s' buffers, OwningQueue_new SIZE BUFFER_SIZE new_box new_box_zeroed s = Done (inr buffers, s') ∧ running s' buffers ∧
       Z.of_nat (length buffers) = SIZE ∧ av_idx (avail s') = SIZE ∧
       ∀ i b, buffers !! i = Some b → lent (desc s') i b ∧ av_ring (avail s') !! i = Some (Z.of_nat i)) ∧
  ∀ s buffers T (handler : list Z → M → result (option T) * M), running s buffers →
    (∀ i b, buffers !! i = Some b → lent (desc_shadow (vq s)) i b) ∧
    match next_element k s with
    | None => poll SIZE BUFFER_SIZE new_box notify buffers handler s = Done (inr None, s)
    | Some e =>
        let t := wrap 16 (ue_id e) in
        if decide (t < SIZE ∧ ue_len e ≤ BUFFER_SIZE) then
          ∃ b s1 s', let '(r, m) := handler (rd_bytes (memory s).1 b (ue_len e)) (memory s) in
            buffers !! Z.to_nat t = Some b ∧ handed_back s (Z.to_nat t) b s1 ∧ memory s1 = m ∧ notified s1 s' ∧
            poll SIZE BUFFER_SIZE new_box notify buffers handler s = Done (r, s') ∧ running s' buffers
        else poll SIZE BUFFER_SIZE new_box notify buffers handler s = Panic
    end.
Proof.
  pose proof (SIZE_bound k SIZE_OK). split.
  - intros s Hn. destruct (new_ok s Hn) as (s' & buffers & E & [Hl _] & Hx). exists s', buffers. split; [done|]. split; [by eapply run_new|]. split; [lia|done].
  - intros s buffers T handler Hr. pose proof (running_owns _ _ Hr) as Hw. split; [intros i b; by apply owns_lent|].
    pose proof (poll_ok s buffers T handler Hw) as Hp. destruct (next_element k s); [|done].
    cbv zeta in *. case_decide; [|done]. destruct Hp as (b & s1 & s' & Hp). exists b, s1, s'. destruct (handler _ _) as [r m].
    destruct Hp as (Hb & _ & Hh & Hm & Hnot & E). split_and!; try done. by eapply run_poll.
Qed.
End owning.

(** ** Witness: four buffers of 16 bytes; the device fills the third *)

(** The next address is the state of the heap. *)
Definition wit_zeroed (m : pmem * Z) : option Z * (pmem * Z) := (Some (Z.max 16 (wrap 64 m.2)), (m.1, m.2 + 16)).

Lemma wit_zeroed_some m : ∃ a m', wit_zeroed m = (Some a, m') ∧ a ≠ 0 ∧ fits 64 a.
Proof. eexists _, _. split; [reflexivity|]. unfold fits, wrap. zlia. Qed.

Definition wit_notify (_ : Z) (s : world (pmem * Z)) : outcome (unit * world (pmem * Z)) := Done (tt, s).

Lemma wit_notify_returns i s : ∃ s', wit_notify i s = Done (tt, s') ∧ device_may s s'.
Proof. exists s. split; [reflexivity|]. by split. Qed.

Definition wit_fresh : world (pmem * Z) :=
  mkWorld (start_queue 4 0 true false) (link_descriptors 4 (replicate 4 zero_desc)) (mkAvail 0 0 (replicate 4 0) 0)
    (mkUsed 0 0 (replicate 4 (mkUsedElem 0 0)) 0) ∅ (∅, 0x1000).

(** The device wrote three bytes to the buffer with the token [t]. *)
Definition wit_wrote (t : Z) (s : world (pmem * Z)) : world (pmem * Z) :=
  mkWorld (vq s) (desc s) (avail s) (mkUsed 0 1 (mkUsedElem t 3 :: replicate 3 (mkUsedElem 0 0)) 0) (boxes s)
    (wr_bytes (memory s).1 0x1020 [104; 105; 33], (memory s).2).

Definition wit_handler (bs : list Z) (m : pmem * Z) : result (option (list Z)) * (pmem * Z) := (inr (Some bs), m).

Lemma owning_queue_ok_witness :
  ∃ s buffers, OwningQueue_new (H := HalImpl (pmem * Z)) 4 16 wit_box wit_zeroed wit_fresh = Done (inr buffers, s) ∧
    buffers = [0x1000; 0x1010; 0x1020; 0x1030] ∧
    (∃ s', poll (H := HalImpl (pmem * Z)) 4 16 wit_box wit_notify buffers wit_handler (wit_wrote 2 s) = Done (inr (Some [104; 105; 33]), s')) ∧
    poll (H := HalImpl (pmem * Z)) 4 16 wit_box wit_notify buffers wit_handler (wit_wrote 4 s) = Panic.
Proof.
  destruct (owning_queue_ok 2 ltac:(lia) 16 ltac:(lia) wit_box wit_zeroed wit_zeroed_some wit_notify wit_notify_returns) as [Hn Hp].
  destruct (Hn wit_fresh) as (s & buffers & E & Hr & _); [split; [by exists 0, true, false|reflexivity..]|]. exists s, buffers. split; [exact E|].
  assert (buffers = [0x1000; 0x1010; 0x1020; 0x1030] ∧ s = final wit_fresh (OwningQueue_new (H := HalImpl (pmem * Z)) 4 16 wit_box wit_zeroed wit_fresh)) as [-> Es].
  { change (2 ^ 2) with 4 in E. split; [|unfold hal_owning in E; rewrite E; reflexivity]. vm_compute in E. by injection E as <- _. }
  split; [reflexivity|].
  assert (∀ t, device_may s (wit_wrote t s)) as Hd by (intros t; split; try reflexivity; by rewrite Es).
  split.
  - destruct (Hp (wit_wrote 2 s) _ _ wit_handler (run_device _ _ _ _ _ _ _ _ Hr (Hd 2))) as [_ Hp']. clear Hp. rename Hp' into Hp.
    assert (next_element 2 (wit_wrote 2 s) = Some (mkUsedElem 2 3)) as En by (rewrite Es; vm_compute; reflexivity). rewrite En in Hp.
    cbv zeta in Hp. rewrite decide_True in Hp by (vm_compute; split; congruence). destruct Hp as (b & s1 & s' & Hb & _ & _ & _ & Ep & _). exists s'.
    injection Hb as <-. etransitivity; [exact Ep|]. rewrite Es. vm_compute. reflexivity.
  - destruct (Hp (wit_wrote 4 s) _ _ wit_handler (run_device _ _ _ _ _ _ _ _ Hr (Hd 4))) as [_ Hp']. clear Hp. rename Hp' into Hp.
    assert (next_element 2 (wit_wrote 4 s) = Some (mkUsedElem 4 3)) as En by (rewrite Es; vm_compute; reflexivity). rewrite En in Hp.
    cbv zeta in Hp. rewrite decide_False in Hp by (vm_compute; intros [? _]; congruence). exact Hp.
Defined.
