(* ===== verification/VirtConsole.v ===== *)
(** * Receiving from a VirtIO console

    The receiving half of dependencies/virtio-drivers/src/device/console.rs: one
    request with one buffer of a page is with the device; when it comes back,
    its bytes are handed out one by one, and the request is made again when
    they are used up. *)

From S2P Require Import Prelude PhysMem VirtQueue VirtRefine VirtDevice VirtOwning.

Definition QUEUE_RECEIVEQ_PORT_0 : Z := 0.
Definition QUEUE_SIZE : Z := 2.
Definition PAGE_SIZE : Z := 4096.

(** The queue with its areas is [receiveq]. *)
Record VirtIOConsole (M : Type) := mkConsole {
  receiveq : world M;
  cursor : Z;
  pending_len : Z;
  receive_token : option Z;
}.
Arguments mkConsole {M} _ _ _ _.
Arguments receiveq {M} _.
Arguments cursor {M} _.
Arguments pending_len {M} _.
Arguments receive_token {M} _.

Section ops.
Context {X : Type}.
Abbreviation M := (pmem * X)%type.
Abbreviation S := (ST (VirtIOConsole M)).
Context `{Hal M}.
Variable new_box : gmap Z (list Descriptor) → Z → Z.
(** [transport.notify] and [transport.ack_interrupt]. *)
Variable notify : Z → ST (world M) unit.
Variable ack : ST (world M) bool.
(** The address of [queue_buf_rx]. *)
Variable queue_buf_rx : Z.

Definition on_receiveq {A} : ST (world M) A → S A :=
  zoom receiveq (λ q c, mkConsole q (cursor c) (pending_len c) (receive_token c)).

Definition poll_retrieve : S (result unit) :=
  c ← st_get;
  if bool_decide (receive_token c = None) && (cursor c =? pending_len c) then
    r ← on_receiveq (add QUEUE_SIZE new_box [] [(queue_buf_rx, PAGE_SIZE)]);
    match r with
    | inl e => mret (inl e)
    | inr token =>
        st_modify (λ c, mkConsole (receiveq c) (cursor c) (pending_len c) (Some token));;
        b ← on_receiveq should_notify;
        (if b : bool then on_receiveq (notify QUEUE_RECEIVEQ_PORT_0) else mret tt);;
        mret (inr tt)
    end
  else mret (inr tt).

Definition finish_receive : S (result bool) :=
  c ← st_get;
  match receive_token c with
  | None => mret (inr false)
  | Some token =>
      p ← on_receiveq (peek_used QUEUE_SIZE);
      if bool_decide (Some token = p) then
        r ← on_receiveq (pop_used QUEUE_SIZE token [] [(queue_buf_rx, PAGE_SIZE)]);
        match r with
        | inl e => mret (inl e)
        | inr len =>
            rassert (negb (len =? 0));;
            st_modify (λ c, mkConsole (receiveq c) 0 len None);;
            mret (inr true)
        end
      else mret (inr false)
  end.

Definition ack_interrupt : S (result bool) :=
  b ← on_receiveq ack;
  if negb b then mret (inr false) else finish_receive.

Definition recv (pop : bool) : S (result (option Z)) :=
  r ← finish_receive;
  match r with
  | inl e => mret (inl e)
  | inr _ =>
      c ← st_get;
      if cursor c =? pending_len c then mret (inr None) else
      rassert (cursor c <? PAGE_SIZE);;
      let ch := rd_pa (memory (receiveq c)).1 (queue_buf_rx + cursor c) in
      if pop then
        st_modify (λ c, mkConsole (receiveq c) (cursor c + 1) (pending_len c) (receive_token c));;
        r ← poll_retrieve;
        match r with
        | inl e => mret (inl e)
        | inr _ => mret (inr (Some ch))
        end
      else mret (inr (Some ch))
  end.

(** The end of [VirtIOConsole::new], with a new queue. *)
Definition new_console (q : world M) : outcome (result unit * VirtIOConsole M) := poll_retrieve (mkConsole q 0 0 None).
End ops.

(** ** A stream of bytes *)

Section stream.
Context {X : Type}.
Abbreviation M := (pmem * X)%type.
Context (new_box : gmap Z (list Descriptor) → Z → Z).
Context (buf : Z) (buf_ok : fits 64 buf).
Implicit Types c : VirtIOConsole M.

#[local] Instance hal_console : Hal M := HalImpl M.
Abbreviation k := 1.
Abbreviation area s := (rd_bytes (memory s).1 buf PAGE_SIZE).

(** The device does something, but gives nothing back. It does not write to the
    descriptors and the available ring, which it only reads; while it has the
    request, it may write to the buffer. *)
Record quiet (busy : bool) (s s' : world M) : Prop := {
  qt_may : device_may s s';
  qt_desc : desc s' = desc s;
  qt_avail : avail s' = avail s;
  qt_idx : us_idx (used s') = us_idx (used s);
  qt_next : next_element k s' = next_element k s;
  qt_area : busy = false ∨ next_element k s ≠ None → area s' = area s;
}.

(** The device sends [bs]: it takes the next request from the available ring,
    if there is one, follows its descriptors, writes the bytes to the buffers
    that they name, and gives the request back. *)
Definition sends (bs : list Z) : ST (world M) bool := fake_read_write_queue QUEUE_SIZE (λ _ x, (bs, x)).

(** A request for a page of bytes can take [bs]. *)
Definition sendable (bs : list Z) : Prop := 0 < Z.of_nat (length bs) ≤ PAGE_SIZE ∧ Forall is_byte bs.

(** The transport: a notification, or a look at the interrupts, returns, and the
    device gives nothing back at this very moment. *)
Context (notify : Z → ST (world M) unit) (ack : ST (world M) bool).
Hypothesis notify_returns : ∀ i s, ∃ s', notify i s = Done (tt, s') ∧ quiet true s s'.
Hypothesis ack_returns : ∀ s, ∃ b s', ack s = Done (b, s') ∧ quiet false s s'.

Abbreviation recv := (recv new_box notify buf).
Abbreviation new_console := (new_console new_box notify buf).
Abbreviation ack_interrupt := (ack_interrupt ack buf).

(** A console, all that the device has sent, and all that was received. *)
Inductive history : VirtIOConsole M → list Z → list Z → Prop :=
| hist_new s r c : new_queue k s → us_idx (used s) = 0 → new_console s = Done (r, c) → history c [] []
| hist_recv c c' sent got pop o : history c sent got → recv pop c = Done (inr o, c') →
    history c' sent (got ++ if pop then option_list o else [])
| hist_ack c c' sent got b : history c sent got → ack_interrupt c = Done (inr b, c') → history c' sent got
| hist_quiet c s sent got : history c sent got → quiet (bool_decide (is_Some (receive_token c))) (receiveq c) s →
    history (mkConsole s (cursor c) (pending_len c) (receive_token c)) sent got
| hist_send c s sent got bs : history c sent got → sendable bs → sends bs (receiveq c) = Done (true, s) →
    history (mkConsole s (cursor c) (pending_len c) (receive_token c)) (sent ++ bs) got.

(** The request is with the device. *)
Definition requested (s : world M) (t : Z) : Prop :=
  ∃ i F ch, vq_inv k s F [ch] ∧ ch_ids ch = [i] ∧ ch_ins ch = [] ∧ ch_outs ch = [(buf, PAGE_SIZE)] ∧ t = Z.of_nat i.

(** The device finds the request: it is next in the available ring, and its
    descriptor names the whole buffer. *)
Definition offered (s : world M) (t : Z) : Prop :=
  lent PAGE_SIZE (desc s) (Z.to_nat t) buf ∧ av_ring (avail s) !! slot k (us_idx (used s)) = Some t.

(** The bytes that are still to be received. *)
Definition holds c (bytes : list Z) : Prop :=
  let s := receiveq c in
  av_idx (avail s) = avail_idx (vq s) ∧
  match receive_token c with
  | None =>
      (∃ i F, vq_inv k s (i :: F) []) ∧ us_idx (used s) = last_used_idx (vq s) ∧ avail_idx (vq s) = last_used_idx (vq s) ∧
      0 ≤ cursor c < pending_len c ∧ pending_len c ≤ PAGE_SIZE ∧
      bytes = drop (Z.to_nat (cursor c)) (take (Z.to_nat (pending_len c)) (area s))
  | Some t =>
      cursor c = pending_len c ∧ requested s t ∧ avail_idx (vq s) = wadd 16 (last_used_idx (vq s)) 1 ∧
      ((us_idx (used s) = last_used_idx (vq s) ∧ offered s t ∧ bytes = []) ∨
       (us_idx (used s) = wadd 16 (last_used_idx (vq s)) 1 ∧
        ∃ len, next_element k s = Some (mkUsedElem t len) ∧ 0 < len ≤ PAGE_SIZE ∧ bytes = take (Z.to_nat len) (area s)))
  end.

Lemma next_idle (s : world M) : us_idx (used s) = last_used_idx (vq s) → next_element k s = None.
Proof. intros E. unfold next_element. by rewrite E, Z.eqb_refl. Qed.

Lemma length_area (s : world M) : length (area s) = Z.to_nat PAGE_SIZE.
Proof. unfold rd_bytes. rewrite length_fmap, length_zrange. f_equal. lia. Qed.

Lemma requested_device s s' t : device_may s s' → requested s t → requested s' t.
Proof. intros Hd (i & F & ch & Hi & ?). exists i, F, ch. split; [by eapply device_keeps|done]. Qed.

Lemma holds_quiet c s busy bytes : quiet busy (receiveq c) s → (receive_token c = None → busy = false) → holds c bytes →
  holds (mkConsole s (cursor c) (pending_len c) (receive_token c)) bytes.
Proof.
  intros [Hd Hqd Hqa Hq1 Hq2 Hq3] Hb. unfold holds, offered. cbn [receive_token receiveq cursor pending_len].
  rewrite Hqd, Hqa, Hq1, Hq2, (dm_vq _ _ Hd). intros [Hx Hh]. split; [done|]. revert Hh.
  destruct (receive_token c) as [t|].
  - intros (? & Hr & ? & Hs). split_and!; [done|by eapply requested_device|done|]. destruct Hs as [?|(? & len & Hn & ? & ?)]; [by left|right].
    split; [done|]. exists len. rewrite Hq3; [done|]. right. by rewrite Hn.
  - intros ((i & F & Hi) & ? & ? & ? & ? & ?). rewrite Hq3 by (left; by apply Hb). split_and!; try done; try lia. exists i, F. by eapply device_keeps.
Qed.

(** ** The operations *)

(** The request is made when nothing is left. *)
Lemma poll_retrieve_ok s i F len :
  vq_inv k s (i :: F) [] → us_idx (used s) = last_used_idx (vq s) → avail_idx (vq s) = last_used_idx (vq s) →
  ∃ c, poll_retrieve new_box notify buf (mkConsole s len len None) = Done (inr tt, c) ∧ holds c [].
Proof.
  intros Hi Hu Ha. destruct (add_one k ltac:(lia) PAGE_SIZE ltac:(by compute) new_box s i F [] buf Hi buf_ok) as (s1 & ch & E & Hi1 & [] & Hids & Hin & Hout & _).
  set (t := Z.of_nat i) in *. assert (requested s1 t) as Hr by (by exists i, F, ch).
  assert (us_idx (used s1) = last_used_idx (vq s1)) as Hu1 by congruence.
  assert (offered s1 t) as Ho.
  { split; [unfold t; by rewrite Nat2Z.id|]. rewrite ad_ring, ad_used, Hu, <- Ha. apply list_lookup_insert_eq.
    pose proof (vi_avail _ _ _ _ Hi). pose proof (slot_bound k ltac:(lia) _ (vi_avail_idx _ _ _ _ Hi)). unfold slot. lia. }
  assert (holds (mkConsole s1 len len (Some t)) []) as Hh.
  { unfold holds. cbn. split_and!; [congruence|done|done|congruence|by left]. }
  unfold poll_retrieve. erewrite bind_step by reflexivity. cbn [receive_token cursor pending_len]. rewrite Z.eqb_refl, bool_decide_eq_true_2 by done. cbn [andb].
  erewrite bind_step by (apply zoom_Done; eexists; split; [exact E|reflexivity]). cbv beta iota. erewrite bind_step by reflexivity. cbn [receiveq cursor pending_len].
  assert (∃ n, should_notify s1 = Done (n, s1)) as [n En] by (eexists; reflexivity).
  erewrite bind_step by (apply zoom_Done; eexists; split; [exact En|reflexivity]). cbn [receiveq cursor pending_len receive_token].
  destruct n; [|erewrite bind_step by reflexivity; by eexists].
  destruct (notify_returns QUEUE_RECEIVEQ_PORT_0 s1) as (s2 & Es & Hq).
  erewrite bind_step by (apply zoom_Done; eexists; split; [exact Es|reflexivity]). eexists. split; [done|].
  by apply (holds_quiet (mkConsole s1 len len (Some t)) s2 true).
Qed.

(** Taking the request back leaves the same bytes. *)
Lemma finish_receive_ok c bytes : holds c bytes →
  ∃ b c', finish_receive buf c = Done (inr b, c') ∧ holds c' bytes ∧ (receive_token c' = None ∨ bytes = []).
Proof.
  intros Hh. unfold finish_receive. erewrite bind_step by reflexivity. destruct (receive_token c) as [t|] eqn:Et.
  2: { exists false, c. split_and!; [done..|by left]. }
  pose proof Hh as Hh'. unfold holds in Hh. rewrite Et in Hh. destruct Hh as (Hav & Hcur & (i & F & ch & Hi & Hids & Hin & Hout & Hti) & Hai & Hs).
  erewrite bind_step by (apply zoom_Done; eexists; split; [eapply (peek_ok k); [lia|exact Hi]|reflexivity]).
  assert (mkConsole (receiveq c) (cursor c) (pending_len c) (receive_token c) = c) as Ec by (by destruct c). rewrite Ec.
  destruct Hs as [(Hu & _ & ->)|(Hu & len & Hne & Hlen & ->)].
  { rewrite (next_idle _ Hu). rewrite bool_decide_eq_false_2 by done. exists false, c. split_and!; [done..|by right]. }
  assert (token ch = t) as Htok by (unfold token; by rewrite Hids, Hti).
  assert (wrap 16 t = t) as Hw.
  { apply wrap_small. subst t. pose proof (vi_bound _ _ _ _ i Hi ltac:(apply elem_of_app; right; apply (ids_of_elem _ ch); [by left|rewrite Hids; by left])) as Hb.
    pose proof (vi_shadow _ _ _ _ Hi). unfold fits. lia. }
  rewrite Hne. cbn [fmap option_fmap option_map ue_id]. rewrite Hw, bool_decide_eq_true_2 by done.
  pose proof (pop_keeps k ltac:(lia) (receiveq c) F [] [] ch Hi) as Hp. rewrite Hne, Htok, Hin, Hout in Hp. cbn [ue_id ue_len] in Hp.
  rewrite decide_True in Hp by done. destruct Hp as (s' & E & Hi' & Hpp). rewrite Hids in Hi'.
  erewrite bind_step by (apply zoom_Done; eexists; split; [exact E|reflexivity]).
  cbv beta iota. rewrite (proj2 (Z.eqb_neq len 0)) by lia. erewrite bind_step by reflexivity. erewrite bind_step by reflexivity.
  eexists true, _. split; [done|]. split; [|by left]. unfold holds. cbn [receive_token receiveq cursor pending_len].
  rewrite (pp_used _ _ _ Hpp), (pp_last _ _ _ Hpp), (pp_memory _ _ _ Hpp), (pp_av_idx _ _ _ Hpp), (pp_avail_idx _ _ _ Hpp) by done.
  split_and!; try done; try lia. by exists i, F.
Qed.

Lemma ack_ok c bytes : holds c bytes → ∃ b c', ack_interrupt c = Done (inr b, c') ∧ holds c' bytes.
Proof.
  intros Hh. destruct (ack_returns (receiveq c)) as (b & s' & E & Hq). set (c1 := mkConsole s' (cursor c) (pending_len c) (receive_token c)).
  assert (holds c1 bytes) as H1 by (by eapply holds_quiet).
  unfold VirtConsole.ack_interrupt. erewrite bind_step by (apply zoom_Done; eexists; split; [exact E|reflexivity]). fold c1.
  destruct b; cbn [negb]; [|by exists false, c1]. destruct (finish_receive_ok c1 bytes H1) as (b & c' & E' & Hh' & _). by exists b, c'.
Qed.

Lemma recv_ok c bytes pop : holds c bytes →
  ∃ c', recv pop c = Done (inr (head bytes), c') ∧ holds c' (if pop then tail bytes else bytes).
Proof.
  intros Hh. destruct (finish_receive_ok c bytes Hh) as (b & c1 & E & H1 & Hd). unfold VirtConsole.recv. rewrite (bind_step _ _ _ _ _ E).
  erewrite bind_step by reflexivity. pose proof H1 as H1'. unfold holds in H1. destruct (receive_token c1) as [t|] eqn:Et.
  { destruct Hd as [?| ->]; [done|]. destruct H1 as (_ & -> & _). rewrite Z.eqb_refl. exists c1. split; [done|]. by destruct pop. }
  destruct H1 as (Hav & (i & F & Hi) & Hu & Hai & Hc & Hl & Hb). rewrite (proj2 (Z.eqb_neq (cursor c1) (pending_len c1))) by lia.
  rewrite (proj2 (Z.ltb_lt _ _)) by lia. erewrite bind_step by reflexivity.
  set (ch := rd_pa _ _). assert (bytes = ch :: drop (Z.to_nat (cursor c1 + 1)) (take (Z.to_nat (pending_len c1)) (area (receiveq c1)))) as Eb.
  { rewrite Hb. replace (Z.to_nat (cursor c1 + 1)) with (S (Z.to_nat (cursor c1))) by lia. apply drop_S. rewrite lookup_take_lt by lia.
    unfold rd_bytes. unfold zrange. rewrite list_lookup_fmap, lookup_seqZ_lt by (unfold PAGE_SIZE in *; lia). unfold ch. cbn. do 2 f_equal. lia. }
  rewrite Eb. cbn [head tail]. destruct pop; [|exists c1; split; [done|]; by rewrite <- Eb].
  erewrite bind_step by reflexivity. rewrite Et. destruct (decide (cursor c1 + 1 = pending_len c1)) as [Hend|Hmore].
  - rewrite Hend. destruct (poll_retrieve_ok (receiveq c1) i F (pending_len c1) Hi Hu Hai) as (c' & E' & H'). rewrite (bind_step _ _ _ _ _ E').
    exists c'. split; [done|]. rewrite drop_ge; [done|]. rewrite length_take. lia.
  - eexists. split.
    + erewrite bind_step by (unfold poll_retrieve; erewrite bind_step by reflexivity; cbn [receive_token cursor pending_len];
        rewrite (proj2 (Z.eqb_neq (cursor c1 + 1) (pending_len c1))) by lia; rewrite andb_false_r; reflexivity). reflexivity.
    + unfold holds. cbn [receive_token receiveq cursor pending_len]. split_and!; try done; try lia. by exists i, F.
Qed.

(** ** The device *)

Lemma take_area (m : pmem) n : 0 ≤ n ≤ PAGE_SIZE → take (Z.to_nat n) (rd_bytes m buf PAGE_SIZE) = rd_bytes m buf n.
Proof.
  intros Hn. unfold rd_bytes. rewrite <- fmap_take. f_equal. unfold zrange.
  apply list_eq. intros i. destruct (decide (i < Z.to_nat n)%nat) as [Hi|Hi].
  - rewrite lookup_take_lt by done. rewrite !lookup_seqZ_lt by lia. done.
  - rewrite lookup_take_ge by lia. rewrite lookup_seqZ_ge by lia. done.
Qed.

(** A request that is offered takes the bytes. *)
Lemma sends_ok c t bs :
  holds c [] → receive_token c = Some t → sendable bs →
  ∃ s', sends bs (receiveq c) = Done (true, s') ∧ holds (mkConsole s' (cursor c) (pending_len c) (Some t)) bs.
Proof.
  intros [Hav Hh] Et [Hlen Hby]. rewrite Et in Hh. set (s := receiveq c) in *. destruct Hh as (Hcur & Hr & Hai & Hs).
  destruct Hs as [(Hu & [[e Hd] Hring] & _)|(_ & len & _ & ? & E)].
  2: { apply (f_equal length) in E. rewrite length_take, length_area in E. cbn in E. lia. }
  pose proof Hr as (i & F & ch & Hi & _). pose proof (wadd16_ne _ (vi_last _ _ _ _ Hi)) as Hne.
  pose proof (slot_bound k ltac:(lia) _ (vi_last _ _ _ _ Hi)) as Hsl. pose proof (vi_used _ _ _ _ Hi) as Hul.
  pose proof (device_serves QUEUE_SIZE (λ _ x, (bs, x)) s t [] [(buf, PAGE_SIZE)]) as Hv. cbv zeta in Hv.
  eexists. split.
  { apply Hv; [rewrite Hav, Hai, Hu; exact Hne|exact Hring| |  |by apply Forall_singleton|cbn; lia].
    { rewrite Hu. change (QUEUE_SIZE - 1) with (2 ^ k - 1). lia. }
    left. exists (mkDesc buf PAGE_SIZE WRITE e), []. split_and!; try done. constructor; [done|constructor]. }
  unfold holds. cbn [receiveq receive_token cursor pending_len avail vq used us_idx gather mjoin list_join fmap list_fmap length Nat.add].
  split_and!; try done.
  - eapply requested_device; [|exact Hr]. split; try done. cbn. by rewrite length_insert.
  - right. split; [by rewrite Hu|]. exists (Z.of_nat (length bs)). unfold PAGE_SIZE in Hlen. split_and!; [|lia|unfold PAGE_SIZE; lia|].
    + unfold next_element. cbn [vq used us_idx us_ring]. rewrite Hu, (proj2 (Z.eqb_neq _ _)) by congruence.
      change (gather (memory s).1 []) with (@nil Z). cbn [length Nat.add]. rewrite wrap_small by (unfold fits; lia). apply list_lookup_insert_eq.
      change (QUEUE_SIZE - 1) with (2 ^ k - 1). lia.
    + cbn [memory fst scatter]. rewrite take_area by (unfold PAGE_SIZE; lia). rewrite (take_ge bs) by (cbn [snd]; unfold PAGE_SIZE; lia). symmetry. apply rd_bytes_same; [apply buf_ok|done].
Qed.

(** Without a request that is offered, the device sends nothing. *)
Lemma sends_only_offered c bytes bs s' : holds c bytes → sends bs (receiveq c) = Done (true, s') → bytes = [] ∧ is_Some (receive_token c).
Proof.
  intros [Hav Hh] E. assert (av_idx (avail (receiveq c)) ≠ us_idx (used (receiveq c))) as Hne.
  { intros Hx. unfold sends, fake_read_write_queue in E. erewrite bind_step in E by reflexivity. rewrite (proj2 (Z.eqb_eq _ _) Hx) in E. discriminate. }
  destruct (receive_token c) as [t|]; [|destruct Hh as (_ & Hu & Ha & _); congruence].
  destruct Hh as (_ & _ & Ha & [(_ & _ & ->)|(Hu & _)]); [done|congruence].
Qed.

Lemma history_holds c sent got : history c sent got → ∃ rest, sent = got ++ rest ∧ holds c rest.
Proof.
  induction 1 as [s r c Hn Hz E|c c' sent got pop o _ (rest & -> & Hh) E|c c' sent got b _ (rest & -> & Hh) E|
    c s sent got _ (rest & -> & Hh) Hq|c s sent got bs _ (rest & -> & Hh) Hbs E].
  - exists []. split; [done|]. pose proof (new_queue_inv k ltac:(lia) s Hn) as Hi. destruct Hn as [(? & ? & ? & Eq) _ _ _].
    destruct (poll_retrieve_ok s 0 [1%nat] 0 Hi) as (c' & E' & Hh);
      [by rewrite Hz, Eq|by rewrite Eq|unfold VirtConsole.new_console in E; rewrite E in E'; by injection E' as _ ->].
  - destruct (recv_ok c rest pop Hh) as (c1 & E1 & H1). rewrite E in E1. injection E1 as -> ->. eexists. split; [|exact H1].
    rewrite <- app_assoc. f_equal. by destruct pop, rest.
  - destruct (ack_ok c rest Hh) as (b' & c1 & E1 & H1). rewrite E in E1. injection E1 as -> ->. by exists rest.
  - exists rest. split; [done|]. eapply holds_quiet; [exact Hq| |done]. intros ->. by apply bool_decide_eq_false_2, is_Some_None.
  - exists bs. destruct (sends_only_offered c rest bs s Hh E) as [-> [t Et]]. split; [by rewrite app_nil_r|].
    destruct (sends_ok c t bs Hh Et Hbs) as (s' & E' & H'). rewrite E in E'. injection E' as ->. by rewrite Et.
Qed.

(** C28. A console receives a stream. The device serves the available ring: it
    takes a request from it, writes up to a page of bytes to the buffer that the
    descriptor of the request names, and gives the request back; it can do so
    only when there is a request, it may fill buffers that it has, and it leaves
    alone the areas that it only reads and a buffer that it has given back.
    After any calls of [recv] and [ack_interrupt], and any such steps of the
    device: what was received is a prefix of what the device sent, and the next
    [recv] returns the byte that comes next, without a panic or an error, or
    nothing when all was received; a byte that was only looked at is not lost;
    and when all was received, the device finds a request, and can send any
    bytes, up to a page of them. *)
Theorem console_stream c sent got :
  history c sent got →
  ∃ rest, sent = got ++ rest ∧
    (∀ pop, ∃ c', recv pop c = Done (inr (head rest), c') ∧ history c' sent (got ++ if pop then option_list (head rest) else [])) ∧
    (rest = [] → ∀ bs, sendable bs → ∃ s', sends bs (receiveq c) = Done (true, s') ∧
       history (mkConsole s' (cursor c) (pending_len c) (receive_token c)) (sent ++ bs) got).
Proof.
  intros Hist. destruct (history_holds c sent got Hist) as (rest & -> & Hh). exists rest. split; [done|]. split.
  - intros pop. destruct (recv_ok c rest pop Hh) as (c' & E & _). exists c'. split; [done|]. by eapply hist_recv.
  - intros -> bs Hbs. assert (∃ t, receive_token c = Some t) as [t Et].
    { pose proof Hh as [_ H']. destruct (receive_token c) as [t|]; [by exists t|]. destruct H' as (_ & _ & _ & Hc & Hl & E).
      apply (f_equal length) in E. rewrite length_drop, length_take, length_area in E. cbn [length] in E. lia. }
    destruct (sends_ok c t bs Hh Et Hbs) as (s' & E & _). exists s'. split; [done|]. by eapply hist_send.
Qed.
End stream.

(** ** Witness: the device sends two bytes, of which one is received *)

Definition wit_console_queue : world (pmem * unit) :=
  mkWorld (start_queue 2 0 false false) (link_descriptors 2 (replicate 2 zero_desc)) (mkAvail 0 0 (replicate 2 0) 0)
    (mkUsed 0 0 (replicate 2 (mkUsedElem 0 0)) 0) ∅ (∅, tt).
Definition wit_start : VirtIOConsole (pmem * unit) :=
  final (mkConsole wit_console_queue 0 0 None) (new_console (H := HalImpl _) wit_box (λ _ s, Done (tt, s)) 0x1000 wit_console_queue).
Definition wit_sent_bytes : world (pmem * unit) := final (receiveq wit_start) (sends [111; 107] (receiveq wit_start)).
Definition wit_full : VirtIOConsole (pmem * unit) := mkConsole wit_sent_bytes 0 0 (Some 0).

Lemma wit_quiet busy (s : world (pmem * unit)) : quiet 0x1000 busy s s.
Proof. by split. Qed.

Lemma wit_history : history wit_box 0x1000 (λ _ s, Done (tt, s)) (λ s, Done (true, s)) wit_full [111; 107] [].
Proof.
  apply (hist_send _ _ _ _ wit_start _ [] [] [111; 107]).
  - eapply (hist_new _ _ _ _ wit_console_queue (inr tt)); [|reflexivity|by vm_compute]. split; [by exists 0, false, false|reflexivity..].
  - split; [by compute|]. repeat constructor; by compute.
  - vm_compute. reflexivity.
Qed.

Lemma console_stream_witness :
  ∃ c', recv (H := HalImpl _) wit_box (λ _ s, Done (tt, s)) 0x1000 true wit_full = Done (inr (Some 111), c') ∧
    history wit_box 0x1000 (λ _ s, Done (tt, s)) (λ s, Done (true, s)) c' [111; 107] [111].
Proof.
  destruct (console_stream wit_box 0x1000 ltac:(unfold fits; lia) (λ _ s, Done (tt, s)) (λ s, Done (true, s))
    (λ i s, ex_intro _ s (conj eq_refl (wit_quiet true s)))
    (λ s, ex_intro _ true (ex_intro _ s (conj eq_refl (wit_quiet false s)))) _ _ _ wit_history) as (rest & E & Hr & _).
  cbn in E. subst rest. exact (Hr true).
Defined.
